(* ===== verification/_CoqProject ===== *)
-Q . S2P
Prelude.v
Failures.v
GoSort.v
GoString.v
GoFloat.v
GoNet.v
GoURL.v
Archival.v
Bogon.v
WebTitle.v
PipeSet.v
Observation.v
Samples.v
ObservationFacts.v
Diff.v
Analysis.v
AnalysisFacts.v
AnalysisTheorems.v
AnalysisTotal.v
PipeSorting.v
LteTestKeys.v
LteClassic.v
LteExt.v
LteBlame.v
LteEngine.v
LteFinalize.v
LteRecording.v
LtePriority.v
GoRegexp.v
Scrubber.v
NetErrors.v
GoHTTP.v
LteFlow.v
LteFlowFacts.v
NetDNS.v
Tracing.v
TracingFacts.v
NetPrimitives.v
NetPrimitivesFacts.v
InputParser.v
Overlapped.v
LteControl.v
LteTasks.v
LtePool.v
LteLogic.v
LteAdequacy.v
LtePoolFacts.v
LteTasksFacts.v
LteMeasurement.v
Tracex.v
UrlGetter.v
UrlMulti.v
WebConn.v
WebConnFacts.v
Messaging.v
MessagingFacts.v
EngineResolver.v
TestHelper.v
TestHelperFacts.v
NetTactics.v
NetStats.v
NetStatsFacts.v
NetStatsTheorems.v
NetDialer.v
NetPolicies.v
NetTacticsFacts.v
NetPoliciesFacts.v
EngineIO.v
ProbeServices.v
ProbeServicesFacts.v
Geolocate.v
Session.v
SessionFacts.v
SessionScenario.v
Registry.v
RegistryFacts.v
