(* ===== verification/Prelude.v ===== *)
(** * OONI probe engine

    A verification library for the measurement engine of OONI Probe
    (the Go code under [src/pkg]).  The engine measures a URL from the network of
    the user and, through a test helper, from a reference network; it turns the
    two sets of observations into a verdict: is the website reachable, blocked, and
    how.  The library models this core as Rocq functions that read like the
    code, and proves what the functions compute.

    ** The parts of the program and their files

    Go's runtime, as far as the code uses it:
    - [Prelude.v]: panics ([outcome]), [(value, error)] pairs ([result]), [runtimex]
      and [optional], loops, wrap-around of [int64], the order of map iterations
      ([RangeOrder]: a [range] over a map visits every key once in an order that is
      an argument of the definitions);
    - [GoSort.v]: the contract of [sort.SliceStable] and a sorting algorithm that
      meets it; [GoString.v]: [strings], [strconv], [net.SplitHostPort];
      [GoFloat.v]: [float64]; [GoNet.v]: [net.ParseIP], [net.ParseCIDR];
      [GoURL.v]: [url.Parse], [URL.ResolveReference]; [GoHTTP.v]: times, HTTP messages, TLS states.

    Data:
    - [Archival.v]: [model/archival.go], [model/th.go], the web measurement;
    - [Bogon.v]: [netxlite/bogon.go]; [WebTitle.v]: [measurexlite/web.go].

    The minipipeline ([minipipeline]): a measurement is ingested into a
    container of observations, control messages are merged into it, the
    analysis computes metrics from it:
    - [PipeSet.v]: [set.go]; [Observation.v]: [observation.go], [utils.go];
      [Diff.v]: [httpdiff.go], [dnsdiff.go]; [Analysis.v]: [analysis.go];
      [PipeSorting.v]: [sorting.go], [normalize.go], [classic.go];
    - [ObservationFacts.v]: ingestion panics on a nil entry and on nothing else, establishes the
      invariant of the container, the control only fills its own fields, the order of map
      iterations does not matter;
    - [AnalysisFacts.v], [AnalysisTheorems.v], [AnalysisTotal.v]:
      each set of transactions refines a specification ([verdict]), the analysis
      returns, is deterministic, and the linear analysis is sorted;
    - [Samples.v]: measurements on which the hypotheses of the theorems hold.

    Web Connectivity LTE ([experiment/webconnectivitylte]): tasks run
    concurrently, record into the test keys, and [Finalize] computes the verdict with
    the minipipeline:
    - [LteTestKeys.v]: [testkeys.go], [analysishttpdiff.go], [summary.go];
      [LteRecording.v]: what interleaved tasks record;
    - [LteClassic.v], [LteBlame.v]: [analysisclassic.go], which values
      of [blocking] and [accessible] come out and what each proves;
    - [LteExt.v], [LteEngine.v]: [analysisext.go], [analysiscore.go], the flags and DNS
      consistency; [LteFinalize.v]: the whole engine returns;
    - [LtePriority.v]: [priority.go] as a transition system;
    - [LteTasks.v]: every task ([dnsresolvers.go], [cleartextflow.go], [secureflow.go], [httpredirect.go],
      [control.go]) as a program of atomic actions; [LtePool.v]: the pool of the tasks of a
      measurement on the objects that they share, under any scheduler;
    - [LteLogic.v], [LteAdequacy.v], [LtePoolFacts.v], [LteTasksFacts.v]: weakest preconditions with resources
      (units of the wait group, redirects, channels, permissions, identifiers) for the programs, and what
      they imply for the pool: no panic of a task, no deadlock, termination, an invariant of the data;
      [wg.Wait] goes through the states of Go's wait group, which may panic here ([pool_panics]);
    - [LteMeasurement.v]: [measurer.go], a measurement from its start to what [Run] returns;
    - [LteFlow.v], [LteFlowFacts.v]: redirects, identifiers, tags, filters, the request to
      the test helper and the extra measurements of [control.go], and the choices of resolvers of [webconnectivityalgo];
    - [LteControl.v]: the control measurement on top of the overlapped calls.

    Errors ([netxlite]), which all measurements reduce to failure strings:
    - [Failures.v]: [errno.go]; [NetErrors.v]: Go's error trees, [classify.go],
      [errwrapper.go], [quirks.go], [measurexlite/failure.go]; every
      classifier returns a failure string of the specification, wrapping keeps it;
    - [GoRegexp.v]: Go's regular expressions, their leftmost-first search proved sound
      and complete for the language they denote; [Scrubber.v]: [scrubber/scrubber.go].

    The network primitives that all measurements share, and what they observe:
    - [NetDNS.v]: the DNS encoder and decoder; [NetPrimitives.v], [NetPrimitivesFacts.v]: dialers, the TLS
      handshaker and the resolvers of [netxlite], composed with the trace;
    - [Tracing.v], [TracingFacts.v]: [measurexlite], a trace refines a log without bounds, and what it
      saves is what the minipipeline ingests; [throttling];
    - [Tracex.v]: [legacy/tracex], the saver of the experiments that came before;
    - [InputParser.v]: [inputparser].

    The experiments that use the URL getter ([experiment/urlgetter]):
    - [UrlGetter.v]: configuration, runner and getter; [UrlMulti.v]: the pool of
      parallel getters as a transition system;
    - [WebConn.v], [WebConnFacts.v]: Web Connectivity v0.4, the verdicts against the evidence they need;
    - [Messaging.v], [MessagingFacts.v]: [telegram], [whatsapp], [fbmessenger], [signal], whose verdicts do
      not depend on the order in which the pool answers.

    Calls to the backends ([httpclientx], [engineresolver]):
    - [Overlapped.v]: the reading of a response and the overlapped calls, a transition
      system of the collecting loop and one goroutine per endpoint, which terminates;
    - [EngineResolver.v]: [engineresolver], the lookup of the backends' addresses
      with nine resolvers whose scores are kept on disk.

    The session and the client of the backends ([engine], [probeservices], [enginelocate], [checkincache]):
    - [EngineIO.v]: the world of this code, with [kvstore], [randx], [urlx] and the calls of [httpclientx]
      on top of the reading of a response in [Overlapped.v];
    - [ProbeServices.v], [ProbeServicesFacts.v]: the benchmark of the services, registration, login and their
      state file, reports and their submission, the check-in and its cache of feature flags;
    - [Geolocate.v]: the location of the probe and of its resolver;
    - [Session.v], [SessionFacts.v]: [session.go] and [experiment.go], the services and the location
      that are looked up once, the report of an experiment, and the scrubbing of a measurement
      ([model/measurement.go]); [SessionScenario.v]: backends on which the hypotheses hold.

    The test helper ([oohelperd]), the server on the other side of the control measurement:
    - [TestHelper.v], [TestHelperFacts.v]: the measurement of a request, and that its response covers the
      endpoints of the probe and is ingested as the control of these endpoints.

    The network of the engine ([enginenetx]), which reaches the backends in
    spite of blocking: policies emit tactics, the dialer tries them, the statistics
    remember which ones worked, and a policy reads them back:
    - [NetTactics.v], [NetTacticsFacts.v]: tactics, filters, happy eyeballs and the mixing policies;
    - [NetStats.v], [NetStatsFacts.v], [NetStatsTheorems.v]: [statsmanager.go], [statspolicy.go];
    - [NetDialer.v]: [httpsdialer.go], one dial and the sixteen workers
      with their collector as a transition system;
    - [NetPolicies.v], [NetPoliciesFacts.v]: the bridge and test helper policies, the policy of the
      network, and the invariant of a session: dialing, statistics and trimming interleave
      and every connection is verified for the host that was asked for, as long as
      only the engine writes the statistics file.

    The registry ([registry], [experimentname], [experimentconfig], [reflectx]):
    - [Registry.v], [RegistryFacts.v]: the factories of the experiments, [NewFactory], and the options of a
      configuration, which are set all or up to the first error and are read back as they were serialized.

    ** Conventions

    A state that the code mutates through a pointer is passed and returned; a
    map is a [gmap], a slice a list, a [*string] an option.  A loop body is a
    definition of its own when it has early exits.  A channel with one writer and one
    reader is the list of what is sent before the close; goroutines that share
    more are transition systems, or programs of atomic actions with a pool that
    interleaves them ([LtePool.v]).  Traces are buffered channels, and a clock is a
    function of the number of readings so far, about which nothing is assumed.

    Code in the monad of a saver or a trace is specified by what it returns ([returns]); code on
    the world ([io]) or on a session ([sess]) by [ends] and [sess_ends], which say that it
    returns without a panic and relate the answer to the world after it.  The world logs the exchanges
    with the backends, for the statements only.  The mutex of a session is not reentrant, and
    taking it twice is a panic of the model, so that [sess_ends] excludes deadlocks on it.

    Code outside the repository is an argument: the GeoIP database, Unicode case tables beyond ASCII
    ([UnicodeTables]), the sorting algorithm ([StableSort]), the order of
    map iterations ([RangeOrder]), random shuffling ([RandomShuffle]), the JSON codec
    and the key-value store, [x509.Certificate.Verify], sockets and the clock.

    Fuel: parsers of strings ([parseIPv6] uses at most one
    unit per byte, [format_digits] 64 digits for 64 bits, [runes_fuel] one unit per
    byte), [replace_all] (one unit per rune and one for the end of the text),
    [interleave_loop] (one turn per tactic and two to see the ends); each is enough by the
    length of the input.

    ** Not modelled

    Network and disk I/O, goroutine scheduling below the level of atomic
    updates and channel operations, time-outs as the passing of time (a time-out is an answer of the
    network), logging and the text of log messages; JSON encoding, which is a codec with laws
    where the code relies on a round trip; QUIC, uTLS and UDP listeners, DNS over TCP, the HTTP
    transports, which are [net/http] with settings; [NewSession], [Close] and the tunnels, which start and
    stop processes and files; the experiments that are not named above; generated code, bindings, command line
    tools, QA, mocks and tutorials; the superseded packages [legacy/measurex] and the prototypes under [x]. *)
From stdpp Require Export base tactics option list sets gmap strings sorting.
From coqutil Require Export Datatypes.RecordSetters.
Export TriangleBracketNotations.
From Stdlib Require Export ZArith Lia.

#[global] Open Scope string_scope.
#[global] Open Scope list_scope.
#[global] Open Scope Z_scope.

(** ** Panics

    Go code panics on a nil dereference, on [runtimex.Assert] and on
    [optional.Value.Unwrap] of an empty value.  [outcome] is the monad of
    computations that may panic: the message is the one the code passes to
    [panic] (or a description of the runtime error). *)

Inductive outcome (A : Type) : Type :=
  | Ok (a : A)
  | Panic (why : string).
Arguments Ok {A} a.
Arguments Panic {A} why.

#[export] Instance outcome_ret : MRet outcome := λ A a, Ok a.
#[export] Instance outcome_bind : MBind outcome := λ A B f m,
  match m with
  | Ok a => f a
  | Panic why => Panic why
  end.
#[export] Instance outcome_fmap : FMap outcome := λ A B f m,
  match m with
  | Ok a => Ok (f a)
  | Panic why => Panic why
  end.

Definition is_Ok {A} (m : outcome A) : Prop := ∃ a, m = Ok a.

(** ** Errors

    The [(value, error)] pairs of Go: exactly one of the two is meaningful in
    the code we model, so that a sum is enough. *)

Inductive result (E A : Type) : Type :=
  | Val (a : A)
  | Err (e : E).
Arguments Val {E A} a.
Arguments Err {E A} e.

(** ** [runtimex] and [optional]

    An [optional.Value[T]] wraps a pointer to a [T]; we read it as [option T]
    ([IsNone] is the test for the nil indirect pointer). *)

Definition Assert (assertion : bool) (message : string) : outcome unit :=
  if assertion then Ok tt else Panic message.

Definition IsNone {A} (v : option A) : bool :=
  match v with None => true | Some _ => false end.

Definition Unwrap {A} (v : option A) : outcome A :=
  match v with
  | None => Panic "is none"
  | Some a => Ok a
  end.

Definition UnwrapOr {A} (v : option A) (fallback : A) : A :=
  match v with
  | None => fallback
  | Some a => a
  end.

(** Reading what a pointer points to. *)
Definition deref {A} (p : option A) : outcome A :=
  match p with
  | None => Panic "nil pointer dereference"
  | Some a => Ok a
  end.

(** ** Loops *)

(** [for _, x := range l { body }] with a loop-carried state: [foldM body s l]. *)
Fixpoint foldM {S A} (body : S → A → outcome S) (s : S) (l : list A) : outcome S :=
  match l with
  | [] => Ok s
  | x :: l => s' ← body s x; foldM body s' l
  end.

Section foldM.
Context {S A : Type} (body : S → A → outcome S).

Lemma foldM_app s l1 l2 :
  foldM body s (l1 ++ l2) = (s' ← foldM body s l1; foldM body s' l2).
Proof.
  revert s; induction l1 as [|x l1 IH]; intros s; [done|].
  simpl. destruct (body s x) as [s'|why]; simpl; [apply IH|done].
Qed.

(** Loop rule: [I done s] relates the elements already visited to the state. *)
Lemma foldM_loop (I : list A → S → Prop) s0 l :
  I [] s0 →
  (∀ pre x post s, l = pre ++ x :: post → I pre s →
     ∃ s', body s x = Ok s' ∧ I (pre ++ [x]) s') →
  ∃ s', foldM body s0 l = Ok s' ∧ I l s'.
Proof.
  intros H0 Hstep.
  cut (∀ post pre s, l = pre ++ post → I pre s →
         ∃ s', foldM body s post = Ok s' ∧ I (pre ++ post) s').
  { intros Hc. destruct (Hc l [] s0) as (s' & ? & ?); eauto. }
  induction post as [|x post IH]; intros pre s Hl HI.
  - exists s. by rewrite app_nil_r.
  - destruct (Hstep pre x post s Hl HI) as (s' & Hs' & HI').
    destruct (IH (pre ++ [x]) s') as (s'' & Hs'' & HI'').
    { by rewrite <-app_assoc. }
    { done. }
    exists s''. simpl. rewrite Hs'. simpl. split; [done|].
    by rewrite <-app_assoc in HI''.
Qed.

(** A loop whose body never panics on the elements of [l] is a plain fold. *)
Lemma foldM_pure (f : S → A → S) s l :
  (∀ s x, x ∈ l → body s x = Ok (f s x)) →
  foldM body s l = Ok (foldl f s l).
Proof.
  revert s; induction l as [|x l IH]; intros s Hf; [done|].
  simpl. rewrite Hf by set_solver. simpl. apply IH. set_solver.
Qed.
End foldM.

(** A fold does not depend on the order of the elements when the steps of
    any two of its elements commute. *)
Lemma foldl_permutation {S A} (f : S → A → S) s l1 l2 :
  (∀ s x y, x ∈ l1 → y ∈ l1 → f (f s x) y = f (f s y) x) →
  l1 ≡ₚ l2 → foldl f s l1 = foldl f s l2.
Proof.
  intros Hc Hp. revert s. induction Hp as [|x l l' Hp IH|x y l|l l' l'' Hp1 IH1 Hp2 IH2];
    intros s; simpl.
  - done.
  - apply IH. intros; apply Hc; set_solver.
  - rewrite Hc by set_solver. done.
  - rewrite IH1 by done. apply IH2. intros; apply Hc; by rewrite Hp1.
Qed.

(** ** Machine integers: [int64] arithmetic wraps around. *)

Definition int64_min : Z := - 2 ^ 63.
Definition int64_max : Z := 2 ^ 63 - 1.
Definition wrap64 (z : Z) : Z := (z + 2 ^ 63) mod 2 ^ 64 - 2 ^ 63.
Definition is_int64 (z : Z) : Prop := int64_min ≤ z ≤ int64_max.

Lemma wrap64_id z : is_int64 z → wrap64 z = z.
Proof. unfold is_int64, int64_min, int64_max, wrap64. intros. rewrite Z.mod_small; lia. Qed.

Lemma wrap64_range z : is_int64 (wrap64 z).
Proof.
  unfold is_int64, int64_min, int64_max, wrap64.
  pose proof (Z.mod_pos_bound (z + 2 ^ 63) (2 ^ 64)). lia.
Qed.

Lemma wrap64_succ z : wrap64 (wrap64 z + 1) = wrap64 (z + 1).
Proof.
  unfold wrap64. f_equal.
  replace ((z + 2 ^ 63) mod 2 ^ 64 - 2 ^ 63 + 1 + 2 ^ 63) with ((z + 2 ^ 63) mod 2 ^ 64 + 1) by lia.
  rewrite Zplus_mod_idemp_l. f_equal. lia.
Qed.

(** ** Order of iteration over a map

    Go iterates over a map in an order that is unspecified and may differ at
    every [range] statement.  [RangeOrder] is the contract of [range]: the
    n-th loop over the map [m] visits every key of [m] once.  Definitions that
    loop over a map take the order from it, theorems that hold whatever
    the order say so by quantifying over it. *)

Class RangeOrder := {
  range_map : nat → ∀ {K A} `{Countable K}, gmap K A → list (K * A);
  range_map_perm : ∀ n {K A} `{Countable K} (m : gmap K A), range_map n m ≡ₚ map_to_list m;
}.

(** Two orders, to run the code on concrete inputs. *)
Definition range_ascending : RangeOrder :=
  {| range_map := λ _ K A _ _ m, map_to_list m;
     range_map_perm := λ _ K A _ _ m, Permutation_refl _ |}.

Definition range_descending : RangeOrder :=
  {| range_map := λ _ K A _ _ m, reverse (map_to_list m);
     range_map_perm := λ _ K A _ _ m, reverse_Permutation _ |}.

Section range_map.
Context `{RangeOrder}.

Lemma range_map_elem n `{Countable K} {A} (m : gmap K A) k x :
  (k, x) ∈ range_map n m ↔ m !! k = Some x.
Proof. rewrite range_map_perm. apply elem_of_map_to_list. Qed.

Lemma range_map_values n `{Countable K} {A} (m : gmap K A) x :
  x ∈ (range_map n m).*2 ↔ ∃ k, m !! k = Some x.
Proof.
  rewrite list_elem_of_fmap. split.
  - intros ([k y] & -> & Hk). exists k. by apply range_map_elem in Hk.
  - intros [k Hk]. exists (k, x). split; [done|]. by apply range_map_elem.
Qed.
End range_map.

(** ** Tactics *)

(** [case_outcome H] splits [H : m ≫= f = Ok b] into the two successes. *)
Lemma bind_Ok_inv {A B} (m : outcome A) (f : A → outcome B) b :
  m ≫= f = Ok b → ∃ a, m = Ok a ∧ f a = Ok b.
Proof. destruct m; simpl; [eauto|done]. Qed.

Ltac case_outcome H :=
  let a := fresh "a" in
  let Ha := fresh "Ha" in
  apply bind_Ok_inv in H as (a & Ha & H).

(** Reduce the reads of a record that was just updated. *)
Ltac fields := cbn [apply_update constant] in *; simpl in *.

(** Case analysis on every [if] and [match] of the goal. *)
Ltac case_all := repeat case_match; simplify_eq; try done.

(** ** Lists and options *)

Lemma Unwrap_Some {A} (a : A) : Unwrap (Some a) = Ok a.
Proof. done. Qed.

Lemma list_prefix_elem {A} (l pre post : list A) x : l = pre ++ x :: post → x ∈ l.
Proof. intros ->. set_solver. Qed.

Create HintDb ooni.
#[export] Hint Resolve Unwrap_Some list_prefix_elem wrap64_range : ooni.

(** An invariant of a loop that cannot panic. *)
Lemma foldl_inv {S A} (f : S → A → S) (I : S → Prop) s l :
  I s → (∀ s x, x ∈ l → I s → I (f s x)) → I (foldl f s l).
Proof.
  revert s. induction l as [|x l IH]; intros s Hs Hf; [done|]. simpl.
  apply IH; [apply Hf; set_solver|]. intros; apply Hf; set_solver.
Qed.

Lemma foldl_ext_elem {S A} (f g : S → A → S) s l :
  (∀ s x, x ∈ l → f s x = g s x) → foldl f s l = foldl g s l.
Proof.
  revert s. induction l as [|x l IH]; intros s Hf; [done|]. simpl.
  rewrite Hf by set_solver. apply IH. set_solver.
Qed.

(** The value of a computation that is known not to panic. *)
Definition value_or {A} (default : A) (m : outcome A) : A :=
  match m with Ok a => a | Panic _ => default end.

Lemma value_or_Ok {A} (default : A) m : is_Ok m → m = Ok (value_or default m).
Proof. by intros [a ->]. Qed.

(** [for k, x := range m { m[k] = f(x) }] maps [f] over [m], whatever the order. *)
Lemma foldl_insert_perm `{Countable K} {A} (f : A → A) (m : gmap K A) (l : list (K * A)) :
  l ≡ₚ map_to_list m → foldl (λ m '(k, x), <[k := f x]> m) m l = f <$> m.
Proof.
  intros Hp.
  assert (Hnd : NoDup l.*1) by (rewrite Hp; apply NoDup_fst_map_to_list).
  assert (Hl : ∀ k x, (k, x) ∈ l ↔ m !! k = Some x)
    by (intros; rewrite Hp; apply elem_of_map_to_list).
  clear Hp. apply map_eq. intros k. rewrite lookup_fmap.
  cut (∀ m' : gmap K A, foldl (λ m '(k, x), <[k := f x]> m) m' l !! k =
             match m !! k with Some x => Some (f x) | None => m' !! k end).
  { intros ->. by destruct (m !! k). }
  intros m'.
  assert (Hk : (∃ x, (k, x) ∈ l ∧ (m !! k = Some x)) ∨ ((k ∉ l.*1) ∧ (m !! k = None))).
  { destruct (m !! k) as [x|] eqn:Hk; [left; exists x; by rewrite Hl|right].
    split; [|done]. intros ([k' x] & -> & Hx)%list_elem_of_fmap. apply Hl in Hx. simpl in Hk. congruence. }
  clear Hl. destruct Hk as [(x & Hx & ->)|[Hk ->]].
  - revert m'. induction l as [|[k' y] l IH]; intros m'; [set_solver|].
    simpl. apply NoDup_cons in Hnd as [Hk' Hnd].
    apply elem_of_cons in Hx as [[= <- <-]|Hx]; [|by apply IH].
    clear IH. revert Hk'. generalize (<[k := f x]> m') (lookup_insert_eq m' k (f x)).
    clear Hnd. induction l as [|[k' y] l IH]; intros m1 Hm1 Hk'; simpl; [done|].
    apply IH; [|set_solver]. rewrite lookup_insert_ne; [done|set_solver].
  - revert m'. induction l as [|[k' y] l IH]; intros m'; simpl; [done|].
    apply NoDup_cons in Hnd as [_ Hnd]. rewrite IH by set_solver.
    apply lookup_insert_ne. set_solver.
Qed.

(** [for _, key := range keys { m[key] = true }] *)
Lemma lookup_adds `{Countable K} (m : gmap K bool) keys k :
  foldl (λ m key, <[key := true]> m) m keys !! k =
  if bool_decide (k ∈ keys) then Some true else m !! k.
Proof.
  revert m. induction keys as [|x keys IH]; intros m; simpl; [done|].
  rewrite IH. destruct (decide (k ∈ keys)), (decide (k = x)) as [->|];
    repeat case_bool_decide; try set_solver.
  - by rewrite lookup_insert_eq.
  - by apply lookup_insert_ne.
Qed.

(** [for _, key := range keys { delete(m, key) }] *)
Lemma lookup_removes `{Countable K} {A} (m : gmap K A) keys k :
  foldl (λ m key, delete key m) m keys !! k =
  if bool_decide (k ∈ keys) then None else m !! k.
Proof.
  revert m. induction keys as [|x keys IH]; intros m; simpl; [done|].
  rewrite IH. destruct (decide (k ∈ keys)), (decide (k = x)) as [->|];
    repeat case_bool_decide; try set_solver.
  - by rewrite lookup_delete_eq.
  - by apply lookup_delete_ne.
Qed.

(** [for _, x := range l { if p(x) { out = append(out, f(x)) } }] *)
Lemma foldl_collect {A B} (p : A → bool) (f : A → B) acc l :
  foldl (λ out x, if p x then out ++ [f x] else out) acc l =
  acc ++ (f <$> filter (λ x, p x = true) l).
Proof.
  revert acc. induction l as [|x l IH]; intros acc; simpl; [by rewrite app_nil_r|].
  rewrite IH, filter_cons. destruct (p x); [|done].
  rewrite decide_True by done. by rewrite <-app_assoc.
Qed.

Lemma foldl_collect_skip {A} (p : A → bool) acc l :
  foldl (λ out x, if p x then out else out ++ [x]) acc l = acc ++ filter (λ x, p x = false) l.
Proof.
  revert acc. induction l as [|x l IH]; intros acc; simpl; [by rewrite app_nil_r|].
  rewrite IH, filter_cons. destruct (p x); [done|].
  rewrite decide_True by done. by rewrite <-app_assoc.
Qed.

Lemma foldl_append {A B} (f : A → B) acc l : foldl (λ out x, out ++ [f x]) acc l = acc ++ (f <$> l).
Proof.
  revert acc. induction l as [|x l IH]; intros acc; simpl; [by rewrite app_nil_r|].
  rewrite IH. by rewrite <-app_assoc.
Qed.

(** [for k, x := range m { m'[k] = x }] into an empty map. *)
Lemma foldl_insert_list `{Countable K} {A} (l : list (K * A)) :
  NoDup l.*1 → foldl (λ m '(k, x), <[k := x]> m) ∅ l = (list_to_map l : gmap K A).
Proof.
  intros Hnd. cut (∀ m : gmap K A, foldl (λ m '(k, x), <[k := x]> m) m l = list_to_map l ∪ m).
  { intros ->. by rewrite map_union_empty. }
  induction l as [|[k x] l IH]; intros m; simpl; [by rewrite map_empty_union|].
  apply NoDup_cons in Hnd as [Hk Hnd]. rewrite IH by done.
  rewrite <-insert_union_l. symmetry. apply insert_union_r. by apply not_elem_of_list_to_map_1.
Qed.

Lemma foldl_rebuild `{Countable K} {A} (m : gmap K A) (l : list (K * A)) :
  l ≡ₚ map_to_list m → foldl (λ m '(k, x), <[k := x]> m) ∅ l = m.
Proof.
  intros Hp. rewrite foldl_insert_list by (rewrite Hp; apply NoDup_fst_map_to_list).
  symmetry. by apply list_to_map_flip.
Qed.

(** [for k, x := range m { m'[k] = g(k, x) }] into an empty map. *)
Lemma foldl_insert_key `{RangeOrder} {A B} n (g : string → A → B) (m : gmap string A) k :
  foldl (λ m '(k, x), <[k := g k x]> m) (∅ : gmap string B) (range_map n m) !! k = g k <$> m !! k.
Proof.
  set (l := range_map n m).
  assert (Hfold : ∀ l (m' : gmap string B), foldl (λ m '(k, x), <[k := g k x]> m) m' l =
    foldl (λ m '(k, y), <[k := y]> m) m' ((λ '(k, x), (k, g k x)) <$> l)).
  { intros l'. induction l' as [|[k' x] l' IH]; intros m'; [done|]. apply IH. }
  assert (Hkeys : ((λ '(k, x), (k, g k x)) <$> l).*1 = l.*1)
    by (rewrite <-list_fmap_compose; apply list_fmap_ext; by intros i [k' x]).
  assert (Hnd : NoDup l.*1) by (unfold l; rewrite range_map_perm; apply NoDup_fst_map_to_list).
  rewrite Hfold, foldl_insert_list by by rewrite Hkeys.
  apply option_eq. intros y. rewrite <-elem_of_list_to_map by by rewrite Hkeys.
  rewrite list_elem_of_fmap, fmap_Some. split.
  - intros ([k' x] & [= -> ->] & Hx). exists x. split; [|done]. by apply range_map_elem in Hx.
  - intros (x & Hx & ->). exists (k, x). split; [done|]. by apply range_map_elem.
Qed.

(** ** Lists and booleans *)

Lemma list_filter_all {A} (P : A → Prop) `{∀ x, Decision (P x)} (l : list A) : (∀ x, x ∈ l → P x) → filter P l = l.
Proof.
  induction l as [|x l IH]; intros HP; [done|]. rewrite filter_cons, decide_True by (apply HP; left).
  f_equal. apply IH. intros. apply HP. by right.
Qed.

Lemma list_filter_none {A} (P : A → Prop) `{∀ x, Decision (P x)} (l : list A) : (∀ x, x ∈ l → ¬ P x) → filter P l = [].
Proof.
  induction l as [|x l IH]; intros HP; [done|]. rewrite filter_cons, decide_False by (apply HP; left).
  apply IH. intros. apply HP. by right.
Qed.

Lemma existsb_true {A} (f : A → bool) l : existsb f l = true ↔ Exists (λ x, f x = true) l.
Proof. rewrite existsb_exists, Exists_exists. by setoid_rewrite list_elem_of_In. Qed.

Lemma existsb_false {A} (f : A → bool) l : existsb f l = false ↔ Forall (λ x, f x = false) l.
Proof.
  induction l as [|x l IH]; cbn; [by split|]. by rewrite orb_false_iff, Forall_cons, IH.
Qed.

Lemma existsb_ext {A} (f g : A → bool) l : (∀ x, f x = g x) → existsb f l = existsb g l.
Proof. intros Hfg. induction l as [|x l IH]; [done|]. cbn [existsb]. by rewrite Hfg, IH. Qed.

(** A loop that reads every entry of a slice of pointers panics at the first that is nil. *)
Definition deref_all {A} (l : list (option A)) : outcome (list A) := mapM deref l.

(** The entries that are not nil. *)
Definition entries {A} (l : list (option A)) : list A := omap id l.

Lemma entries_Some {A} (l : list A) : entries (Some <$> l) = l.
Proof. unfold entries. induction l as [|x l IH]; [done|]. csimpl. by rewrite IH. Qed.

Lemma deref_all_ok {A} (l : list (option A)) : None ∉ l → deref_all l = Ok (entries l).
Proof.
  unfold deref_all, entries. induction l as [|[x|] l IH]; intros Hl; [done| |set_solver].
  cbn [mapM deref mbind outcome_bind]. rewrite IH by set_solver. done.
Qed.

Lemma deref_all_nil {A} (l : list (option A)) : None ∈ l → deref_all l = Panic "nil pointer dereference".
Proof.
  unfold deref_all. induction l as [|[x|] l IH]; intros Hl; [by apply elem_of_nil in Hl| |done].
  apply elem_of_cons in Hl as [Hl|Hl]; [done|]. cbn [mapM deref mbind outcome_bind]. by rewrite IH.
Qed.

Lemma nil_entry {A} (l : list (option A)) : None ∈ l ∨ None ∉ l.
Proof.
  induction l as [|[x|] l [IH|IH]]; [right; by intros ?%elem_of_nil|left; by right|right; set_solver|left; by left..].
Qed.

Lemma mapM_pure {A B} (f : A → outcome B) (g : A → B) l :
  (∀ x, f x = Ok (g x)) → mapM f l = Ok (g <$> l).
Proof.
  intros Hf. induction l as [|x l IH]; [done|]. cbn [mapM mbind outcome_bind]. rewrite Hf. cbn [mbind outcome_bind].
  change (list_fmap _ _ g l) with (g <$> l) in *. by rewrite IH.
Qed.

Lemma IsNone_true {A} (o : option A) : IsNone o = true ↔ o = None.
Proof. by destruct o. Qed.
