(* ===== verification/Failures.v ===== *)
(** * Failure strings

    [netxlite/errno.go]: the strings that stand for errors in the measurements. *)
From S2P Require Import Prelude.

Definition FailureAddressFamilyNotSupported : string := "address_family_not_supported".
Definition FailureAddressInUse : string := "address_in_use".
Definition FailureAddressNotAvailable : string := "address_not_available".
Definition FailureAlreadyConnected : string := "already_connected".
Definition FailureAndroidDNSCacheNoData : string := "android_dns_cache_no_data".
Definition FailureBadAddress : string := "bad_address".
Definition FailureBadFileDescriptor : string := "bad_file_descriptor".
Definition FailureConnectionAborted : string := "connection_aborted".
Definition FailureConnectionAlreadyClosed : string := "connection_already_closed".
Definition FailureConnectionAlreadyInProgress : string := "connection_already_in_progress".
Definition FailureConnectionRefused : string := "connection_refused".
Definition FailureConnectionReset : string := "connection_reset".
Definition FailureDNSBogonError : string := "dns_bogon_error".
Definition FailureDNSNXDOMAINError : string := "dns_nxdomain_error".
Definition FailureDNSNoAnswer : string := "dns_no_answer".
Definition FailureDNSNonRecoverableFailure : string := "dns_non_recoverable_failure".
Definition FailureDNSRefusedError : string := "dns_refused_error".
Definition FailureDNSReplyWithWrongQueryID : string := "dns_reply_with_wrong_query_id".
Definition FailureDNSServerMisbehaving : string := "dns_server_misbehaving".
Definition FailureDNSServfailError : string := "dns_servfail_error".
Definition FailureDNSTemporaryFailure : string := "dns_temporary_failure".
Definition FailureDestinationAddressRequired : string := "destination_address_required".
Definition FailureEOFError : string := "eof_error".
Definition FailureGenericTimeoutError : string := "generic_timeout_error".
Definition FailureHTTPInvalidRedirectLocationHost : string := "http_invalid_redirect_location_host".
Definition FailureHostUnreachable : string := "host_unreachable".
Definition FailureInterrupted : string := "interrupted".
Definition FailureInvalidArgument : string := "invalid_argument".
Definition FailureJSONParseError : string := "json_parse_error".
Definition FailureMessageSize : string := "message_size".
Definition FailureNetworkDown : string := "network_down".
Definition FailureNetworkReset : string := "network_reset".
Definition FailureNetworkUnreachable : string := "network_unreachable".
Definition FailureNoBufferSpace : string := "no_buffer_space".
Definition FailureNoProtocolOption : string := "no_protocol_option".
Definition FailureNotASocket : string := "not_a_socket".
Definition FailureNotConnected : string := "not_connected".
Definition FailureOperationWouldBlock : string := "operation_would_block".
Definition FailurePermissionDenied : string := "permission_denied".
Definition FailureProtocolNotSupported : string := "protocol_not_supported".
Definition FailureQUICIncompatibleVersion : string := "quic_incompatible_version".
Definition FailureSSLFailedHandshake : string := "ssl_failed_handshake".
Definition FailureSSLInvalidCertificate : string := "ssl_invalid_certificate".
Definition FailureSSLInvalidHostname : string := "ssl_invalid_hostname".
Definition FailureSSLUnknownAuthority : string := "ssl_unknown_authority".
Definition FailureTimedOut : string := "timed_out".
Definition FailureWrongProtocolType : string := "wrong_protocol_type".

(** The keys of [failuresMap]; each is mapped to itself. *)
Definition failures : list string := [
  FailureAddressFamilyNotSupported; FailureAddressInUse; FailureAddressNotAvailable;
  FailureAlreadyConnected; FailureAndroidDNSCacheNoData; FailureBadAddress; FailureBadFileDescriptor;
  FailureConnectionAborted; FailureConnectionAlreadyClosed; FailureConnectionAlreadyInProgress;
  FailureConnectionRefused; FailureConnectionReset; FailureDNSBogonError; FailureDNSNXDOMAINError;
  FailureDNSNoAnswer; FailureDNSNonRecoverableFailure; FailureDNSRefusedError;
  FailureDNSReplyWithWrongQueryID; FailureDNSServerMisbehaving; FailureDNSServfailError;
  FailureDNSTemporaryFailure; FailureDestinationAddressRequired; FailureEOFError;
  FailureGenericTimeoutError; FailureHTTPInvalidRedirectLocationHost; FailureHostUnreachable;
  FailureInterrupted; FailureInvalidArgument; FailureJSONParseError; FailureMessageSize;
  FailureNetworkDown; FailureNetworkReset; FailureNetworkUnreachable; FailureNoBufferSpace;
  FailureNoProtocolOption; FailureNotASocket; FailureNotConnected; FailureOperationWouldBlock;
  FailurePermissionDenied; FailureProtocolNotSupported; FailureQUICIncompatibleVersion;
  FailureSSLFailedHandshake; FailureSSLInvalidCertificate; FailureSSLInvalidHostname;
  FailureSSLUnknownAuthority; FailureTimedOut; FailureWrongProtocolType
].

Definition failuresMap (s : string) : string := if bool_decide (s ∈ failures) then s else "".
