(* ===== verification/GoSort.v ===== *)
(** * Sorting slices

    The contract of Go's [sort.SliceStable] as a typeclass, strict weak
    orders and the lexicographic chains of comparisons the code writes, and
    the fact that the stable result is unique when the comparison is a strict
    weak order.  Client theorems are proved against the class; the insertion
    sort Go runs on short slices is an instance. *)
From S2P Require Import Prelude.

(** ** Comparisons *)

(** A Go [less] function that is a strict weak order. *)
Class StrictWeakOrder {A} (less : A → A → bool) : Prop := {
  swo_asym x y : less x y = true → less y x = false;
  swo_neg x y z : less x z = true → less x y = true ∨ less y z = true;
}.

(** Two elements none of which comes before the other. *)
Definition incomparable {A} (less : A → A → bool) (x y : A) : bool :=
  negb (less x y) && negb (less y x).

Section swo.
Context {A : Type} (less : A → A → bool) `{!StrictWeakOrder less}.

Lemma swo_irrefl x : less x x = false.
Proof. destruct (less x x) eqn:E; [|done]. by rewrite (swo_asym _ _ E) in E. Qed.

Lemma swo_trans x y z : less x y = true → less y z = true → less x z = true.
Proof.
  intros Hxy Hyz. destruct (swo_neg x z y Hxy) as [H|H]; [done|].
  apply swo_asym in H. congruence.
Qed.

Lemma swo_negtrans x y z : less x y = false → less y z = false → less x z = false.
Proof. intros Hxy Hyz. destruct (less x z) eqn:E; [|done]. destruct (swo_neg x y z E); congruence. Qed.

Lemma incomparable_refl x : incomparable less x x = true.
Proof. unfold incomparable. by rewrite swo_irrefl. Qed.

Lemma incomparable_true x y :
  incomparable less x y = true ↔ less x y = false ∧ less y x = false.
Proof. unfold incomparable. destruct (less x y), (less y x); naive_solver. Qed.

Lemma incomparable_sym x y : incomparable less x y = true → incomparable less y x = true.
Proof. rewrite !incomparable_true. naive_solver. Qed.

Lemma incomparable_trans x y z :
  incomparable less x y = true → incomparable less y z = true → incomparable less x z = true.
Proof. rewrite !incomparable_true. naive_solver eauto using swo_negtrans. Qed.
End swo.

(** [if a < b { return true }; if a > b { return false }; ...rest] *)
Definition lex {A} (less1 less2 : A → A → bool) (x y : A) : bool :=
  if less1 x y then true else if less1 y x then false else less2 x y.

(** Comparison of a field. *)
Definition by_key {A B} (key : A → B) (less : B → B → bool) (x y : A) : bool :=
  less (key x) (key y).

(** Descending order. *)
Definition flip_less {A} (less : A → A → bool) (x y : A) : bool := less y x.

#[global] Typeclasses Opaque lex by_key flip_less.

#[export] Instance lex_swo {A} (less1 less2 : A → A → bool) :
  StrictWeakOrder less1 → StrictWeakOrder less2 → StrictWeakOrder (lex less1 less2).
Proof.
  intros H1 H2. split.
  - intros x y. unfold lex.
    destruct (less1 x y) eqn:E1, (less1 y x) eqn:E2; try done.
    + by rewrite (swo_asym _ _ E1) in E2.
    + apply swo_asym.
  - intros x y z. unfold lex. destruct (less1 x z) eqn:Exz.
    { intros _. destruct (swo_neg (less := less1) x y z Exz) as [-> | ->]; auto. }
    destruct (less1 z x) eqn:Ezx; [done|]. intros H.
    destruct (less1 x y) eqn:Exy; [by left|].
    destruct (less1 y x) eqn:Eyx.
    { right. destruct (swo_neg (less := less1) y z x Eyx) as [-> | ?]; congruence. }
    destruct (less1 y z) eqn:Eyz; [by right|].
    destruct (less1 z y) eqn:Ezy.
    { destruct (swo_neg (less := less1) z x y Ezy); congruence. }
    apply swo_neg, H.
Qed.

#[export] Instance by_key_swo {A B} (key : A → B) less :
  StrictWeakOrder less → StrictWeakOrder (by_key key less).
Proof.
  intros H. split; unfold by_key.
  - intros x y. apply swo_asym.
  - intros x y z. apply swo_neg.
Qed.

#[export] Instance flip_swo {A} (less : A → A → bool) :
  StrictWeakOrder less → StrictWeakOrder (flip_less less).
Proof.
  intros H. split; unfold flip_less.
  - intros x y. apply swo_asym.
  - intros x y z Hzx. destruct (swo_neg z y x Hzx); auto.
Qed.

#[export] Instance Zltb_swo : StrictWeakOrder Z.ltb.
Proof. split; intros *; rewrite ?Z.ltb_lt, ?Z.ltb_ge; lia. Qed.

(** [string] comparison is bytewise and lexicographic, as in Go. *)
Lemma ascii_compare_N a b : Ascii.compare a b = (Ascii.N_of_ascii a ?= Ascii.N_of_ascii b)%N.
Proof. done. Qed.

Lemma string_ltb_cons a b s t :
  String.ltb (String a s) (String b t) =
  lex (by_key fst (by_key Ascii.N_of_ascii N.ltb)) (by_key snd String.ltb) (a, s) (b, t).
Proof.
  unfold String.ltb, lex, by_key, N.ltb; simpl. rewrite ascii_compare_N.
  rewrite (N.compare_antisym (Ascii.N_of_ascii a) (Ascii.N_of_ascii b)).
  by destruct (Ascii.N_of_ascii a ?= Ascii.N_of_ascii b)%N.
Qed.

#[export] Instance Nltb_swo : StrictWeakOrder N.ltb.
Proof. split; intros *; rewrite ?N.ltb_lt, ?N.ltb_ge; lia. Qed.

Lemma string_ltb_asym s t : String.ltb s t = true → String.ltb t s = false.
Proof.
  revert t. induction s as [|a s IH]; intros [|b t]; try done.
  rewrite !string_ltb_cons. unfold lex, by_key; simpl.
  destruct (_ <? _)%N eqn:E1, (Ascii.N_of_ascii b <? Ascii.N_of_ascii a)%N eqn:E2; try done; auto.
  rewrite N.ltb_lt in *. lia.
Qed.

Lemma string_ltb_neg s t u :
  String.ltb s u = true → String.ltb s t = true ∨ String.ltb t u = true.
Proof.
  revert t u. induction s as [|a s IH]; intros [|b t] [|c u] H;
    first [discriminate H | by left | by right | revert H].
  rewrite !string_ltb_cons. unfold lex, by_key; simpl.
  specialize (IH t u).
  destruct (Ascii.N_of_ascii a <? Ascii.N_of_ascii c)%N eqn:?,
      (Ascii.N_of_ascii c <? Ascii.N_of_ascii a)%N eqn:?,
      (Ascii.N_of_ascii a <? Ascii.N_of_ascii b)%N eqn:?,
      (Ascii.N_of_ascii b <? Ascii.N_of_ascii a)%N eqn:?,
      (Ascii.N_of_ascii b <? Ascii.N_of_ascii c)%N eqn:?,
      (Ascii.N_of_ascii c <? Ascii.N_of_ascii b)%N eqn:?;
      rewrite ?N.ltb_lt, ?N.ltb_ge in *; first [lia | tauto].
Qed.

#[export] Instance string_ltb_swo : StrictWeakOrder String.ltb.
Proof. split; [exact string_ltb_asym | exact string_ltb_neg]. Qed.

Lemma string_ltb_total s t : String.ltb s t = false → String.ltb t s = false → s = t.
Proof.
  unfold String.ltb. rewrite (String.compare_antisym t s).
  destruct (String.compare s t) eqn:E; simpl; intros ? ?; try done.
  by apply String.compare_eq_iff.
Qed.

(** ** The contract of [sort.SliceStable] *)

(** No element comes before one that precedes it. *)
Definition ordered {A} (less : A → A → bool) : list A → Prop :=
  StronglySorted (λ x y, less y x = false).

(** Elements that compare equal keep their relative order. *)
Definition keeps_order {A} (less : A → A → bool) (l l' : list A) : Prop :=
  ∀ z, filter (λ x, incomparable less z x = true) l' =
       filter (λ x, incomparable less z x = true) l.

Record stable_sort_of {A} (less : A → A → bool) (l l' : list A) : Prop := {
  sso_perm : l' ≡ₚ l;
  sso_ordered : ordered less l';
  sso_stable : keeps_order less l l';
}.

(** Go's [insertionSort_func]: every element moves to the left as long as it
    is less than its neighbour.  The sorted prefix is kept reversed. *)
Fixpoint insert_left {A} (less : A → A → bool) (x : A) (rev_prefix : list A) : list A :=
  match rev_prefix with
  | [] => [x]
  | y :: rest => if less x y then y :: insert_left less x rest else x :: rev_prefix
  end.

Definition insertion_sort {A} (less : A → A → bool) (l : list A) : list A :=
  reverse (foldl (λ rev_prefix x, insert_left less x rev_prefix) [] l).

(** [sort.SliceStable] permutes the slice whatever the comparison, runs an
    insertion sort on slices of at most twenty elements, only compares
    elements of the slice, and sorts stably when the comparison is a strict
    weak order. *)
Class StableSort := {
  SliceStable : ∀ {A}, (A → A → bool) → list A → list A;
  SliceStable_perm : ∀ {A} (less : A → A → bool) l, SliceStable less l ≡ₚ l;
  SliceStable_short : ∀ {A} (less : A → A → bool) l,
    (length l ≤ 20)%nat → SliceStable less l = insertion_sort less l;
  SliceStable_ext : ∀ {A} (less less' : A → A → bool) l,
    (∀ x y, x ∈ l → y ∈ l → less x y = less' x y) → SliceStable less l = SliceStable less' l;
  SliceStable_sorts : ∀ {A} (less : A → A → bool) l,
    StrictWeakOrder less → stable_sort_of less l (SliceStable less l);
}.

(** ** The stable result is unique *)

Section unique.
Context {A : Type} (less : A → A → bool) `{!StrictWeakOrder less}.

Lemma stable_heads l x y l1 l2 :
  stable_sort_of less l (x :: l1) → stable_sort_of less l (y :: l2) → x = y.
Proof.
  intros [Hp1 Ho1 Hs1] [Hp2 Ho2 Hs2].
  assert (Hxy : incomparable less y x = true).
  { apply incomparable_true.
    assert (x ∈ y :: l2) as Hx by (rewrite Hp2, <-Hp1; set_solver).
    assert (y ∈ x :: l1) as Hy by (rewrite Hp1, <-Hp2; set_solver).
    apply StronglySorted_inv in Ho1 as [_ Hall1], Ho2 as [_ Hall2].
    rewrite Forall_forall in Hall1, Hall2.
    rewrite elem_of_cons in Hx, Hy.
    destruct Hx as [->|Hx], Hy as [Hy|Hy]; subst; auto using swo_irrefl. }
  pose proof (Hs1 y) as E. rewrite <-(Hs2 y) in E.
  rewrite !filter_cons_True in E by (try apply incomparable_refl; done).
  by injection E.
Qed.

Lemma stable_unique l l1 l2 :
  stable_sort_of less l l1 → stable_sort_of less l l2 → l1 = l2.
Proof.
  assert (∀ l1 l2, l1 ≡ₚ l2 → ordered less l1 → ordered less l2 →
            keeps_order less l1 l2 → l1 = l2) as Hgen.
  { clear l l1 l2. induction l1 as [|x l1 IH]; intros l2 Hp Ho1 Ho2 Hk.
    - by apply Permutation_nil_l in Hp.
    - destruct l2 as [|y l2]; [by apply Permutation_nil_r in Hp|].
      assert (x = y) as <-.
      { apply (stable_heads (x :: l1) x y l1 l2); split; done. }
      f_equal. apply IH.
      + by apply Permutation_cons_inv in Hp.
      + by inversion Ho1.
      + by inversion Ho2.
      + intros z. specialize (Hk z). rewrite !filter_cons in Hk.
        destruct (decide (incomparable less z x = true)); [by injection Hk|done]. }
  intros [Hp1 Ho1 Hs1] [Hp2 Ho2 Hs2]. apply Hgen; try done.
  - by rewrite Hp1, Hp2.
  - intros z. by rewrite Hs1, Hs2.
Qed.
End unique.

(** ** The instance: insertion sort *)

Section insertion.
Context {A : Type} (less : A → A → bool).

Lemma insert_left_perm x l : insert_left less x l ≡ₚ x :: l.
Proof.
  induction l as [|y l IH]; simpl; [done|]. destruct (less x y); [|done].
  rewrite IH. apply Permutation_swap.
Qed.

Lemma insertion_sort_perm_aux l acc :
  foldl (λ r x, insert_left less x r) acc l ≡ₚ l ++ acc.
Proof.
  revert acc. induction l as [|x l IH]; intros acc; simpl; [done|].
  rewrite IH, insert_left_perm. by rewrite Permutation_middle.
Qed.

Lemma insertion_sort_perm l : insertion_sort less l ≡ₚ l.
Proof.
  unfold insertion_sort. rewrite reverse_Permutation, insertion_sort_perm_aux.
  by rewrite app_nil_r.
Qed.

Lemma insert_left_ext (less' : A → A → bool) x l :
  (∀ y, y ∈ l → less x y = less' x y) → insert_left less x l = insert_left less' x l.
Proof.
  induction l as [|y l IH]; simpl; intros H; [done|].
  rewrite H by set_solver. case_match; [|done]. f_equal. apply IH. set_solver.
Qed.

Lemma insertion_sort_ext (less' : A → A → bool) l :
  (∀ x y, x ∈ l → y ∈ l → less x y = less' x y) → insertion_sort less l = insertion_sort less' l.
Proof.
  intros H. unfold insertion_sort. f_equal.
  cut (∀ rest acc, (∀ x, x ∈ rest ++ acc → x ∈ l) →
    foldl (λ r x, insert_left less x r) acc rest = foldl (λ r x, insert_left less' x r) acc rest).
  { intros Hc. apply Hc. set_solver. }
  induction rest as [|x rest IH]; intros acc Hin; simpl; [done|].
  rewrite <-(insert_left_ext less') by (intros y Hy; apply H; set_solver).
  apply IH. intros y. rewrite insert_left_perm. set_solver.
Qed.

Context `{!StrictWeakOrder less}.

(** The reversed prefix is sorted the other way. *)
Let rev_ordered : list A → Prop := StronglySorted (λ x y, less x y = false).

Lemma insert_left_ordered x l : rev_ordered l → rev_ordered (insert_left less x l).
Proof.
  induction 1 as [|y l Hl IH Hall]; simpl; [by repeat constructor|].
  destruct (less x y) eqn:E.
  - constructor; [done|]. rewrite Forall_forall in Hall |- *.
    intros z. rewrite insert_left_perm, elem_of_cons. intros [->|Hz]; auto.
    by apply swo_asym.
  - constructor; [by constructor|]. constructor; [done|].
    rewrite Forall_forall in Hall |- *. intros z Hz.
    apply (swo_negtrans less) with y; auto.
Qed.

Lemma insert_left_stable x l z :
  rev_ordered l →
  filter (λ y, incomparable less z y = true) (insert_left less x l) =
  filter (λ y, incomparable less z y = true) (x :: l).
Proof.
  induction 1 as [|y l Hl IH Hall]; simpl; [done|].
  destruct (less x y) eqn:E; [|done].
  rewrite filter_cons, IH, !filter_cons.
  destruct (decide (incomparable less z y = true)) as [Hy|],
    (decide (incomparable less z x = true)) as [Hx|]; try done.
  exfalso. apply (incomparable_sym less) in Hx.
  pose proof (incomparable_trans less _ _ _ Hx Hy) as H.
  apply incomparable_true in H. naive_solver congruence.
Qed.

Lemma insertion_sort_spec_aux l acc :
  rev_ordered acc →
  let r := foldl (λ r x, insert_left less x r) acc l in
  rev_ordered r ∧
  ∀ z, filter (λ y, incomparable less z y = true) r =
       filter (λ y, incomparable less z y = true) (reverse l ++ acc).
Proof.
  revert acc. induction l as [|x l IH]; intros acc Hacc; simpl; [done|].
  destruct (IH (insert_left less x acc)) as [Ho Hs]; [by apply insert_left_ordered|].
  split; [done|]. intros z.
  rewrite Hs, reverse_cons, <-app_assoc, !filter_app. f_equal.
  rewrite insert_left_stable by done. change (x :: acc) with ([x] ++ acc).
  by rewrite filter_app.
Qed.

Lemma rev_ordered_reverse l : rev_ordered l → ordered less (reverse l).
Proof.
  induction 1 as [|x l Hl IH Hall]; [constructor|].
  rewrite reverse_cons. apply StronglySorted_app.
  repeat split; [|done|by repeat constructor].
  intros y w Hy Hw. rewrite elem_of_reverse in Hy. apply list_elem_of_singleton in Hw as ->.
  rewrite Forall_forall in Hall. auto.
Qed.

Lemma filter_reverse_eq (P : A → Prop) `{∀ x, Decision (P x)} l :
  filter P (reverse l) = reverse (filter P l).
Proof.
  induction l as [|x l IH]; [done|].
  rewrite reverse_cons, filter_app, IH, !filter_cons, filter_nil.
  case_decide; [by rewrite reverse_cons|by rewrite app_nil_r].
Qed.

Lemma insertion_sort_sorts l : stable_sort_of less l (insertion_sort less l).
Proof.
  destruct (insertion_sort_spec_aux l []) as [Ho Hs]; [constructor|].
  split.
  - apply insertion_sort_perm.
  - by apply rev_ordered_reverse.
  - intros z. unfold insertion_sort.
    rewrite filter_reverse_eq, Hs, app_nil_r, filter_reverse_eq, reverse_involutive. done.
Qed.
End insertion.

(** ** Sorting with a comparison that holds of equal elements

    An insertion sort with a reflexive comparison such as [>=] still orders the
    elements, but it is not stable. *)
Section total.
Context {A : Type} (less : A → A → bool) (P : A → Prop).
Context (Htotal : ∀ x y, P x → P y → less x y = true ∨ less y x = true).
Context (Htrans : ∀ x y z, P x → P y → P z → less x y = true → less y z = true → less x z = true).

Lemma insert_left_total x l :
  P x → Forall P l → StronglySorted (λ a b, less b a = true) l →
  StronglySorted (λ a b, less b a = true) (insert_left less x l).
Proof.
  intros Hx HP Hs. induction Hs as [|y l Hs IH Hy]; simpl; [by repeat constructor|].
  apply Forall_cons in HP as [HPy HP]. destruct (less x y) eqn:Exy.
  - constructor; [by apply IH|]. rewrite insert_left_perm. by constructor.
  - assert (Hyx : less y x = true) by (destruct (Htotal x y Hx HPy); congruence).
    constructor; [by constructor|]. constructor; [done|].
    rewrite Forall_forall in *. intros z Hz. by eapply Htrans; eauto.
Qed.

Lemma StronglySorted_reverse (R : A → A → Prop) l :
  StronglySorted (λ a b, R b a) l → StronglySorted R (reverse l).
Proof.
  induction 1 as [|x l Hs IH Hx]; [constructor|]. rewrite reverse_cons.
  apply StronglySorted_app_2; [|done|by repeat constructor].
  intros a b Ha Hb. apply list_elem_of_singleton in Hb as ->. rewrite elem_of_reverse in Ha.
  rewrite Forall_forall in Hx. by apply Hx.
Qed.

Lemma insertion_sort_total l : Forall P l → StronglySorted (λ x y, less x y = true) (insertion_sort less l).
Proof.
  intros HP. unfold insertion_sort. apply StronglySorted_reverse.
  cut (∀ acc, Forall P acc → StronglySorted (λ a b, less b a = true) acc →
         StronglySorted (λ a b, less b a = true) (foldl (λ rev_prefix x, insert_left less x rev_prefix) acc l)).
  { intros Hcut. apply Hcut; constructor. }
  induction HP as [|x l Hx HP IH]; intros acc Hacc Hs; [done|]. simpl. apply IH; [|by apply insert_left_total].
  rewrite insert_left_perm. by constructor.
Qed.
End total.


(** The sort used to run the code on concrete inputs. *)
Definition go_insertion_sort : StableSort :=
  {| SliceStable := @insertion_sort;
     SliceStable_perm := @insertion_sort_perm;
     SliceStable_short := λ _ _ _ _, eq_refl;
     SliceStable_ext := λ _ less less' l, insertion_sort_ext less less' l;
     SliceStable_sorts := λ _ less l _, insertion_sort_sorts less l |}.

(** With a strict weak order every implementation gives the same result. *)
Lemma SliceStable_insertion_sort `{StableSort} {A} (less : A → A → bool) `{!StrictWeakOrder less} l :
  SliceStable less l = insertion_sort less l.
Proof.
  apply (stable_unique less l); [by apply SliceStable_sorts|by apply insertion_sort_sorts].
Qed.

(** Two inputs with the same elements and the same order among the elements
    that compare equal have the same sorted result. *)
Lemma SliceStable_same `{StableSort} {A} (less : A → A → bool) `{!StrictWeakOrder less} l1 l2 :
  l1 ≡ₚ l2 → keeps_order less l1 l2 → SliceStable less l1 = SliceStable less l2.
Proof.
  intros Hp Hk. destruct (SliceStable_sorts less l1 _) as [Hp1 Ho1 Hs1].
  apply (stable_unique less l2).
  - split; [by rewrite Hp1|done|]. intros z. by rewrite Hs1, <-Hk.
  - by apply SliceStable_sorts.
Qed.

#[export] Hint Resolve SliceStable_perm insertion_sort_perm : ooni.
