(* ===== verification/GoString.v ===== *)
(** * Strings, as the code uses them

    The functions of Go's [strings], [strconv] and [net] packages that the
    modelled code calls, on byte strings.  [strings.ToLower] is written out for
    ASCII strings; the Unicode tables it uses for the others are a parameter. *)
From S2P Require Import Prelude.
From Stdlib Require Import Ascii.

(** ** [strings] *)

Definition HasPrefix (s prefix : string) : bool := String.prefix prefix s.

Fixpoint string_drop (n : nat) (s : string) : string :=
  match n, s with
  | O, _ => s
  | S n, "" => ""
  | S n, String _ s => string_drop n s
  end.

Fixpoint string_take (n : nat) (s : string) : string :=
  match n, s with
  | S n, String c s => String c (string_take n s)
  | _, _ => ""
  end.

Definition TrimPrefix (s prefix : string) : string :=
  if HasPrefix s prefix then string_drop (String.length prefix) s else s.

Definition HasSuffix (s suffix : string) : bool :=
  (String.length suffix <=? String.length s)%nat &&
  String.eqb (string_drop (String.length s - String.length suffix) s) suffix.

(** [strings.Split] with a separator of one byte. *)
Fixpoint Split (s : string) (sep : ascii) : list string :=
  match s with
  | "" => [""]
  | String c s =>
      if Ascii.eqb c sep then "" :: Split s sep
      else match Split s sep with
           | word :: words => String c word :: words
           | [] => [String c ""]
           end
  end.

Fixpoint IndexByte (s : string) (c : ascii) : option nat :=
  match s with
  | "" => None
  | String d s => if Ascii.eqb d c then Some O else S <$> IndexByte s c
  end.

Definition ContainsByte (s : string) (c : ascii) : bool := negb (IsNone (IndexByte s c)).

Fixpoint LastIndexByte (s : string) (c : ascii) : option nat :=
  match s with
  | "" => None
  | String d s =>
      match LastIndexByte s c with
      | Some i => Some (S i)
      | None => if Ascii.eqb d c then Some O else None
      end
  end.

Definition ascii_lower (c : ascii) : ascii :=
  let n := N_of_ascii c in
  if ((65 <=? n) && (n <=? 90))%N then ascii_of_N (n + 32) else c.

Definition is_ascii (c : ascii) : bool := (N_of_ascii c <? 128)%N.

Fixpoint string_map (f : ascii → ascii) (s : string) : string :=
  match s with
  | "" => ""
  | String c s => String (f c) (string_map f s)
  end.

Fixpoint string_forallb (f : ascii → bool) (s : string) : bool :=
  match s with
  | "" => true
  | String c s => f c && string_forallb f s
  end.

(** The Unicode case tables, used only for strings that are not ASCII. *)
Class UnicodeTables := { unicode_ToLower : string → string }.

(** Tables for a program that never sees a byte beyond ASCII. *)
Definition ascii_only_tables : UnicodeTables := {| unicode_ToLower := λ s, s |}.

Definition ToLower `{UnicodeTables} (s : string) : string :=
  if string_forallb is_ascii s then string_map ascii_lower s else unicode_ToLower s.

(** ** [strconv] *)

Definition digit_value (c : ascii) : option Z :=
  let n := Z.of_N (N_of_ascii c) in
  if (48 <=? n) && (n <=? 57) then Some (n - 48) else None.

Fixpoint parse_digits (value : Z) (s : string) : option Z :=
  match s with
  | "" => Some value
  | String c s => d ← digit_value c; parse_digits (10 * value + d) s
  end.

(** [strconv.ParseUint] of a string with base 10, before the range check. *)
Definition parse_decimal (s : string) : option Z :=
  match s with
  | "" => None
  | _ => parse_digits 0 s
  end.

(** [strconv.ParseInt(s, 10, 64)]: [None] is the case [err != nil]. *)
Definition ParseInt64 (s : string) : option Z :=
  match s with
  | "" => None
  | String c rest =>
      let neg := Ascii.eqb c "-" in
      un ← parse_decimal (if neg || Ascii.eqb c "+" then rest else s);
      if neg then (if un <=? 2 ^ 63 then Some (- un) else None)
      else (if un <? 2 ^ 63 then Some un else None)
  end.

Definition digit_char (d : Z) : ascii := ascii_of_N (Z.to_N (d + 48)).

Fixpoint format_digits (fuel : nat) (n : Z) (acc : string) : string :=
  match fuel with
  | O => acc
  | S fuel =>
      let acc := String (digit_char (n mod 10)) acc in
      if n / 10 =? 0 then acc else format_digits fuel (n / 10) acc
  end.

(** [strconv.Itoa], and [%d] of [fmt].  The fuel bounds the number of digits. *)
Definition Itoa (z : Z) : string :=
  let digits := format_digits (S (Z.to_nat (Z.log2 (Z.abs z)))) (Z.abs z) "" in
  if z <? 0 then String "-" digits else digits.

(** [%v] of a boolean. *)
Definition format_bool (b : bool) : string := if b then "true" else "false".

(** ** [net] *)

(** [net.JoinHostPort] *)
Definition JoinHostPort (host port : string) : string :=
  if ContainsByte host ":" then "[" +:+ host +:+ "]:" +:+ port else host +:+ ":" +:+ port.

(** The [Error] method of [net.AddrError]. *)
Definition addr_error (err address : string) : string :=
  if String.eqb address "" then err else "address " +:+ address +:+ ": " +:+ err.

(** [net.SplitHostPort] *)
Definition SplitHostPort (hostport : string) : result string (string * string) :=
  match LastIndexByte hostport ":" with
  | None => Err "missing port in address"
  | Some i =>
      let finish (host : string) (j k : nat) :=
        if ContainsByte (string_drop j hostport) "[" then Err "unexpected '[' in address"
        else if ContainsByte (string_drop k hostport) "]" then Err "unexpected ']' in address"
        else Val (host, string_drop (S i) hostport) in
      if String.prefix "[" hostport then
        match IndexByte hostport "]" with
        | None => Err "missing ']' in address"
        | Some closing =>
            if Nat.eqb (S closing) (String.length hostport) then Err "missing port in address"
            else if Nat.eqb (S closing) i then
              finish (String.substring 1 (closing - 1) hostport) 1%nat (S closing)
            else if String.prefix ":" (string_drop (S closing) hostport)
            then Err "too many colons in address"
            else Err "missing port in address"
        end
      else
        let host := String.substring 0 i hostport in
        if ContainsByte host ":" then Err "too many colons in address" else finish host 0%nat 0%nat
  end.

(** ** Lemmas *)

Lemma HasPrefix_app p s : HasPrefix (p +:+ s) p = true.
Proof.
  unfold HasPrefix. induction p as [|c p IH]; simpl; [by destruct s|].
  destruct (ascii_dec c c); [done|congruence].
Qed.

Lemma TrimPrefix_app p s : TrimPrefix (p +:+ s) p = s.
Proof. unfold TrimPrefix. rewrite HasPrefix_app. by induction p. Qed.

Lemma digit_value_char d : 0 ≤ d < 10 → digit_value (digit_char d) = Some d.
Proof.
  intros H. unfold digit_value, digit_char.
  rewrite N_ascii_embedding by lia. rewrite Z2N.id by lia.
  replace (48 <=? d + 48) with true by lia. replace (d + 48 <=? 57) with true by lia.
  simpl. f_equal. lia.
Qed.

Lemma parse_format_digits fuel n acc :
  0 ≤ n < 2 ^ Z.of_nat fuel → (0 < fuel)%nat →
  parse_digits 0 (format_digits fuel n acc) = parse_digits n acc.
Proof.
  revert n acc. induction fuel as [|fuel IH]; intros n acc Hn Hf; [lia|].
  assert (Hm : 0 ≤ n mod 10 < 10) by (apply Z.mod_pos_bound; lia).
  pose proof (Z.div_mod n 10 ltac:(lia)).
  cbn [format_digits]. destruct (n / 10 =? 0) eqn:E; [|apply Z.eqb_neq in E].
  - apply Z.eqb_eq in E. cbn [parse_digits]. rewrite digit_value_char by done.
    simpl. f_equal. lia.
  - assert (1 ≤ n / 10) by (pose proof (Z.div_pos n 10); lia).
    rewrite Nat2Z.inj_succ, Z.pow_succ_r in Hn by lia.
    destruct fuel as [|fuel]; [simpl in Hn; lia|].
    assert (n / 10 < 2 ^ Z.of_nat (S fuel)) by (apply Z.div_lt_upper_bound; lia).
    rewrite IH by lia. cbn [parse_digits]. rewrite digit_value_char by done.
    simpl. f_equal. lia.
Qed.

Lemma format_digits_cons fuel n acc :
  (0 < fuel)%nat → 0 ≤ n →
  ∃ d s, 0 ≤ d < 10 ∧ format_digits fuel n acc = String (digit_char d) s.
Proof.
  revert n acc. induction fuel as [|fuel IH]; intros n acc Hf Hn; [lia|].
  assert (Hm : 0 ≤ n mod 10 < 10) by (apply Z.mod_pos_bound; lia).
  cbn [format_digits]. destruct (n / 10 =? 0); [eauto|].
  destruct fuel as [|fuel]; [simpl; eauto|].
  apply IH; [lia|]. apply Z.div_pos; lia.
Qed.

Lemma digit_char_not d c : 0 ≤ d < 10 → digit_value c = None → Ascii.eqb (digit_char d) c = false.
Proof.
  intros Hd Hc. apply Ascii.eqb_neq. intros <-. by rewrite digit_value_char in Hc.
Qed.

(** Printing then parsing an [int64] gives it back. *)
Lemma ParseInt64_Itoa z : is_int64 z → ParseInt64 (Itoa z) = Some z.
Proof.
  unfold is_int64, int64_min, int64_max, Itoa. intros Hz.
  set (fuel := S (Z.to_nat (Z.log2 (Z.abs z)))).
  assert (Hfuel : 0 ≤ Z.abs z < 2 ^ Z.of_nat fuel).
  { subst fuel. pose proof (Z.log2_nonneg (Z.abs z)).
    rewrite Nat2Z.inj_succ, Z2Nat.id by lia.
    destruct (decide (z = 0)) as [->|]; [simpl; lia|].
    pose proof (Z.log2_spec (Z.abs z)). lia. }
  pose proof (parse_format_digits fuel (Z.abs z) "" Hfuel ltac:(lia)) as Hp.
  destruct (format_digits_cons fuel (Z.abs z) "") as (d & s & Hd & Hs); [lia|lia|].
  assert (Hdec : parse_decimal (String (digit_char d) s) = Some (Z.abs z)).
  { unfold parse_decimal. by rewrite <-Hs, Hp. }
  rewrite Hs. unfold ParseInt64. destruct (Z.ltb_spec z 0) as [Hneg|Hpos].
  - rewrite Ascii.eqb_refl. cbn [orb]. rewrite Hdec. cbn [mbind option_bind].
    rewrite (proj2 (Z.leb_le _ _)) by lia. f_equal. lia.
  - rewrite !digit_char_not by done. cbn [orb]. rewrite Hdec. cbn [mbind option_bind].
    rewrite (proj2 (Z.ltb_lt _ _)) by lia. f_equal. lia.
Qed.

(** ** Positions of bytes and host ports *)

Lemma append_cons x a b : String x a +:+ b = String x (a +:+ b).
Proof. done. Qed.

Lemma append_nil b : "" +:+ b = b.
Proof. done. Qed.

Lemma IndexByte_app a b c :
  IndexByte (a +:+ b) c =
    match IndexByte a c with
    | Some i => Some i
    | None => (λ i, String.length a + i)%nat <$> IndexByte b c
    end.
Proof.
  induction a as [|x a IH]; [rewrite append_nil; by destruct (IndexByte b c)|].
  rewrite append_cons. cbn [IndexByte]. destruct (Ascii.eqb x c); [done|]. rewrite IH.
  by destruct (IndexByte a c), (IndexByte b c).
Qed.

Lemma ContainsByte_cons x s c : ContainsByte (String x s) c = Ascii.eqb x c || ContainsByte s c.
Proof. unfold ContainsByte. cbn [IndexByte]. by destruct (Ascii.eqb x c), (IndexByte s c). Qed.

Lemma ContainsByte_app a b c : ContainsByte (a +:+ b) c = ContainsByte a c || ContainsByte b c.
Proof. unfold ContainsByte. rewrite IndexByte_app. by destruct (IndexByte a c), (IndexByte b c). Qed.

Lemma LastIndexByte_none s c : ContainsByte s c = false → LastIndexByte s c = None.
Proof.
  induction s as [|x s IH]; [done|]. rewrite ContainsByte_cons. cbn [LastIndexByte].
  intros [Hx Hs]%orb_false_iff. by rewrite IH, Hx.
Qed.

Lemma LastIndexByte_app a b c :
  ContainsByte b c = false → LastIndexByte (a +:+ String c b) c = Some (String.length a).
Proof.
  intros Hb. induction a as [|x a IH].
  - rewrite append_nil. cbn [LastIndexByte]. by rewrite LastIndexByte_none, Ascii.eqb_refl.
  - rewrite append_cons. cbn [LastIndexByte]. by rewrite IH.
Qed.

Lemma string_drop_app a b : string_drop (String.length a) (a +:+ b) = b.
Proof. induction a as [|x a IH]; [by destruct b|exact IH]. Qed.

Lemma substring_app a b : String.substring 0 (String.length a) (a +:+ b) = a.
Proof.
  induction a as [|x a IH]; [by destruct b|]. rewrite append_cons. cbn. by rewrite IH.
Qed.

Lemma append_assoc a b c : (a +:+ b) +:+ c = a +:+ (b +:+ c).
Proof. induction a as [|x a IH]; [done|]. by rewrite !append_cons, IH. Qed.

Lemma length_append a b : String.length (a +:+ b) = (String.length a + String.length b)%nat.
Proof. induction a as [|x a IH]; [done|]. rewrite append_cons. cbn. by rewrite IH. Qed.

(** A string without the bytes that [SplitHostPort] looks for. *)
Definition plain (s : string) : Prop :=
  ContainsByte s "[" = false ∧ ContainsByte s "]" = false.

Lemma string_drop_add n a b : string_drop (String.length a + n) (a +:+ b) = string_drop n b.
Proof. induction a as [|x a IH]; [done|exact IH]. Qed.

Lemma string_drop_S a x b : string_drop (S (String.length a)) (a +:+ String x b) = b.
Proof. induction a as [|y a IH]; [by destruct b|exact IH]. Qed.

Lemma split_bracketed host port :
  plain host → plain port → ContainsByte port ":" = false →
  SplitHostPort ("[" +:+ host +:+ "]:" +:+ port) = Val (host, port).
Proof.
  intros [Hl Hr] [Pl Pr] Pc.
  assert (E : "[" +:+ host +:+ "]:" +:+ port = String "[" (host +:+ String "]" (String ":" port))) by done.
  assert (Elast : LastIndexByte ("[" +:+ host +:+ "]:" +:+ port) ":" = Some (S (S (String.length host)))).
  { replace ("[" +:+ host +:+ "]:" +:+ port) with ((String "[" host +:+ "]") +:+ String ":" port)
      by (rewrite append_assoc; done).
    rewrite LastIndexByte_app by done. f_equal. rewrite length_append. cbn [String.length]. lia. }
  assert (Efirst : IndexByte ("[" +:+ host +:+ "]:" +:+ port) "]" = Some (S (String.length host))).
  { rewrite E. cbn [IndexByte Ascii.eqb]. rewrite IndexByte_app. unfold ContainsByte in Hr.
    destruct (IndexByte host "]"); [done|]. cbn. by rewrite Nat.add_0_r. }
  set (s := String "[" (host +:+ String "]" (String ":" port))) in *.
  assert (D1 : string_drop 1 s = host +:+ String "]" (String ":" port)) by done.
  assert (D2 : string_drop (S (S (String.length host))) s = String ":" port)
    by exact (string_drop_S host "]" (String ":" port)).
  assert (D3 : string_drop (S (S (S (String.length host)))) s = port).
  { change (string_drop (S (S (String.length host))) (host +:+ String "]" (String ":" port)) = port).
    replace (S (S (String.length host))) with (String.length host + 2)%nat by lia.
    by rewrite string_drop_add. }
  assert (Dh : String.substring 1 (S (String.length host) - 1) s = host).
  { replace (S (String.length host) - 1)%nat with (String.length host) by lia.
    exact (substring_app host (String "]" (String ":" port))). }
  assert (Hlen : String.length s = S (String.length host + S (S (String.length port)))).
  { subst s. cbn [String.length]. by rewrite length_append. }
  unfold SplitHostPort. rewrite Elast, Efirst, E.
  replace (String.prefix "[" s) with true by (subst s; cbn [String.prefix]; by destruct host).
  rewrite Hlen, Nat.eqb_refl, D1, D2, D3, Dh.
  destruct (Nat.eqb_spec (S (S (String.length host))) (S (String.length host + S (S (String.length port)))))
    as [?|_]; [lia|].
  by rewrite ContainsByte_app, !ContainsByte_cons, Hl, Pl, Pr.
Qed.

(** Splitting what was joined, when neither part has brackets and the port has
    no colon. *)
Lemma SplitHostPort_JoinHostPort host port :
  plain host → plain port → ContainsByte port ":" = false →
  SplitHostPort (JoinHostPort host port) = Val (host, port).
Proof.
  intros [Hl Hr] [Pl Pr] Pc. unfold JoinHostPort.
  destruct (ContainsByte host ":") eqn:Hc; [by apply split_bracketed|].
  unfold SplitHostPort. change (host +:+ ":" +:+ port) with (host +:+ String ":" port).
  rewrite LastIndexByte_app by done.
  replace (String.prefix "[" (host +:+ String ":" port)) with false.
  2: { destruct host as [|x host]; [done|]. rewrite append_cons. cbn [String.prefix].
       rewrite ContainsByte_cons in Hl. apply orb_false_iff in Hl as [Hx _].
       destruct (ascii_dec "[" x) as [<-|]; [|done]. by rewrite Ascii.eqb_refl in Hx. }
  rewrite substring_app, Hc, string_drop_S.
  assert (H0 : ∀ t, string_drop 0 t = t) by by intros []. rewrite H0.
  by rewrite !ContainsByte_app, !ContainsByte_cons, Hl, Hr, Pl, Pr.
Qed.
