(* ===== verification/GoFloat.v ===== *)
(** * [float64]

    IEEE 754 binary64 as Rocq's executable [spec_float]: conversion from an
    [int64], division and comparison round and compare as the processor does. *)
From S2P Require Import Prelude GoSort.
From Stdlib Require Import SpecFloat.

Abbreviation float64 := spec_float.

Definition float64_prec : Z := 53.
Definition float64_emax : Z := 1024.

(** [float64(z)] for an integer [z]. *)
Definition float64_of_int (z : Z) : float64 :=
  binary_normalize float64_prec float64_emax z 0 false.

(** [a / b] *)
Definition float64_div (a b : float64) : float64 := SFdiv float64_prec float64_emax a b.

(** [a < b]; a comparison with a NaN is false. *)
Definition float64_lt (a b : float64) : bool := SFltb a b.

(** [a > b] *)
Definition float64_gt (a b : float64) : bool := SFltb b a.

Definition float64_zero : float64 := S754_zero false.

(** The literal [0.7]. *)
Definition float64_0_7 : float64 := float64_div (float64_of_int 7) (float64_of_int 10).

Definition is_NaN (a : float64) : bool := match a with S754_nan => true | _ => false end.

(** ** The order of the numbers

    A number is placed by its class and sign, then by its exponent, then by
    its mantissa. *)
Definition float64_key (a : float64) : Z * (Z * Z) :=
  match a with
  | S754_nan => (-3, (0, 0))
  | S754_infinity true => (-2, (0, 0))
  | S754_finite true m e => (-1, (- e, - Zpos m))
  | S754_zero _ => (0, (0, 0))
  | S754_finite false m e => (1, (e, Zpos m))
  | S754_infinity false => (2, (0, 0))
  end.

Definition key_lt : Z * (Z * Z) → Z * (Z * Z) → bool :=
  lex (by_key fst Z.ltb) (by_key snd (lex (by_key fst Z.ltb) (by_key snd Z.ltb))).

#[export] Instance key_lt_swo : StrictWeakOrder key_lt.
Proof. unfold key_lt. apply _. Qed.

Lemma key_lt_spec x y :
  key_lt x y = true ↔
    x.1 < y.1 ∨ (x.1 = y.1 ∧ (x.2.1 < y.2.1 ∨ (x.2.1 = y.2.1 ∧ x.2.2 < y.2.2))).
Proof.
  unfold key_lt, lex, by_key.
  destruct (Z.ltb_spec x.1 y.1), (Z.ltb_spec y.1 x.1), (Z.ltb_spec x.2.1 y.2.1),
    (Z.ltb_spec y.2.1 x.2.1), (Z.ltb_spec x.2.2 y.2.2); split; intros; try done; lia.
Qed.

Lemma SFltb_spec a b : SFltb a b = true ↔ SFcompare a b = Some Lt.
Proof. unfold SFltb. destruct (SFcompare a b) as [[]|]; naive_solver. Qed.

(** [<] on numbers is the order of their keys. *)
Lemma float64_lt_key a b :
  is_NaN a = false → is_NaN b = false →
  float64_lt a b = by_key float64_key key_lt a b.
Proof.
  intros Ha Hb. apply eq_true_iff_eq. unfold float64_lt, by_key.
  rewrite SFltb_spec, key_lt_spec.
  destruct a as [[|]|[|]| |[|] ma ea], b as [[|]|[|]| |[|] mb eb]; try discriminate;
    cbn [SFcompare float64_key fst snd];
    try change (Pos.compare_cont Eq ma mb) with (Pos.compare ma mb);
    try (destruct (Z.compare_spec ea eb), (Pos.compare_spec ma mb));
    cbn [CompOpp]; (split; [intros Hx; first [discriminate Hx | lia] | intros Hx; first [reflexivity | exfalso; lia]]).
Qed.
