(* ===== verification/GoNet.v ===== *)
(** * IP addresses

    Go's [net.ParseIP], [net.ParseCIDR], the classification methods of
    [net.IP] and [IPNet.Contains], on addresses as lists of bytes. *)
From S2P Require Import Prelude GoString.
From Stdlib Require Import Ascii.

(** Four or sixteen bytes. *)
Abbreviation IP := (list Z).

(** ** Parsing *)

Fixpoint ipv4_fields (s : string) (start prev_dot : bool) (val : Z) (digLen : nat)
    (fields : list Z) : option (list Z) :=
  match s with
  | "" => if (length fields <? 3)%nat then None else Some (fields ++ [val])
  | String c rest =>
      match digit_value c with
      | Some d =>
          if (digLen =? 1)%nat && (val =? 0) then None
          else if 255 <? val * 10 + d then None
          else ipv4_fields rest false false (val * 10 + d) (S digLen) fields
      | None =>
          if Ascii.eqb c "." then
            if start || String.eqb rest "" || prev_dot then None
            else if (length fields =? 3)%nat then None
            else ipv4_fields rest false true 0 0 (fields ++ [val])
          else None
      end
  end.

Definition parseIPv4Fields (s : string) : option IP := ipv4_fields s true false 0 0 [].

Definition hex_value (c : ascii) : option Z :=
  let n := Z.of_N (N_of_ascii c) in
  if (48 <=? n) && (n <=? 57) then Some (n - 48)
  else if (97 <=? n) && (n <=? 102) then Some (n - 97 + 10)
  else if (65 <=? n) && (n <=? 70) then Some (n - 65 + 10)
  else None.

(** A group of hexadecimal digits: how many, their value, what follows. *)
Fixpoint scan_hex (s : string) (off : nat) (acc : Z) : option (nat * Z * string) :=
  match s with
  | "" => Some (off, acc, s)
  | String c rest =>
      match hex_value c with
      | None => Some (off, acc, s)
      | Some d => if (3 <? off)%nat then None else scan_hex rest (S off) (16 * acc + d)
      end
  end.

(** The loop of [netip.parseIPv6]: the bytes read, the position of [::] and
    the rest of the string.  Each turn adds two bytes, so that eight are
    enough. *)
Fixpoint ipv6_loop (fuel : nat) (s : string) (ip : IP) (ellipsis : option nat) :
    option (IP * option nat * string) :=
  match fuel with
  | O => Some (ip, ellipsis, s)
  | S fuel =>
      match scan_hex s 0 0 with
      | None => None
      | Some (O, _, _) => None
      | Some (_, acc, after) =>
          if String.prefix "." after then
            if IsNone ellipsis && negb (length ip =? 12)%nat then None
            else if (16 <? length ip + 4)%nat then None
            else v4 ← parseIPv4Fields s; Some (ip ++ v4, ellipsis, "")
          else
            let ip := ip ++ [acc / 256; acc mod 256] in
            match after with
            | "" => Some (ip, ellipsis, "")
            | String c after =>
                if negb (Ascii.eqb c ":") then None
                else if String.eqb after "" then None
                else if String.prefix ":" after then
                  if negb (IsNone ellipsis) then None
                  else
                    let after := string_drop 1 after in
                    if String.eqb after "" then Some (ip, Some (length ip), "")
                    else ipv6_loop fuel after ip (Some (length ip))
                else ipv6_loop fuel after ip ellipsis
            end
      end
  end.

(** [netip.parseIPv6] of a string without a zone. *)
Definition parseIPv6 (s : string) : option IP :=
  let lead := String.prefix "::" s in
  let body := if lead then string_drop 2 s else s in
  if lead && String.eqb body "" then Some (replicate 16 0)
  else
    '(ip, ellipsis, rest) ← ipv6_loop 8 body [] (if lead then Some O else None);
    if negb (String.eqb rest "") then None
    else if (length ip <? 16)%nat then
      match ellipsis with
      | None => None
      | Some at_ => Some (take at_ ip ++ replicate (16 - length ip) 0 ++ drop at_ ip)
      end
    else if IsNone ellipsis then Some ip else None.

Definition v4_in_v6_prefix : list Z := replicate 10 0 ++ [255; 255].

(** What [netip.ParseAddr] finds first decides the family. *)
Fixpoint first_separator (s : string) : option ascii :=
  match s with
  | "" => None
  | String c s =>
      if Ascii.eqb c "." || Ascii.eqb c ":" || Ascii.eqb c "%" then Some c else first_separator s
  end.

(** [net.ParseIP]: sixteen bytes, [None] is nil.  Addresses with a zone are refused. *)
Definition ParseIP (s : string) : option IP :=
  match first_separator s with
  | None => None
  | Some c =>
      if Ascii.eqb c "." then (λ v4, v4_in_v6_prefix ++ v4) <$> parseIPv4Fields s
      else if Ascii.eqb c ":" then if ContainsByte s "%" then None else parseIPv6 s
      else None
  end.

(** ** [net.IP] and [net.IPNet] *)

Definition list_Z_eqb (l1 l2 : list Z) : bool := bool_decide (l1 = l2).

Definition To4 (ip : IP) : option IP :=
  if (length ip =? 4)%nat then Some ip
  else if (length ip =? 16)%nat && list_Z_eqb (take 12 ip) v4_in_v6_prefix then Some (drop 12 ip)
  else None.

Definition byte_at (ip : IP) (i : nat) : Z := nth i ip 0.

Definition IPv6loopback : IP := replicate 15 0 ++ [1].

Definition ip_IsLoopback (ip : IP) : bool :=
  match To4 ip with
  | Some ip4 => byte_at ip4 0 =? 127
  | None => list_Z_eqb ip IPv6loopback
  end.

Definition ip_IsLinkLocalUnicast (ip : IP) : bool :=
  match To4 ip with
  | Some ip4 => (byte_at ip4 0 =? 169) && (byte_at ip4 1 =? 254)
  | None => (length ip =? 16)%nat && (byte_at ip 0 =? 254) && (Z.land (byte_at ip 1) 192 =? 128)
  end.

Definition ip_IsLinkLocalMulticast (ip : IP) : bool :=
  match To4 ip with
  | Some ip4 => (byte_at ip4 0 =? 224) && (byte_at ip4 1 =? 0) && (byte_at ip4 2 =? 0)
  | None => (length ip =? 16)%nat && (byte_at ip 0 =? 255) && (Z.land (byte_at ip 1) 15 =? 2)
  end.

Record IPNet := { net_ip : IP; net_mask : list Z }.

Fixpoint CIDRMask (ones : Z) (nbytes : nat) : list Z :=
  match nbytes with
  | O => []
  | S nbytes =>
      if 8 <=? ones then 255 :: CIDRMask (ones - 8) nbytes
      else (255 - Z.shiftr 255 ones) :: CIDRMask 0 nbytes
  end.

Definition mask_bytes (ip mask : list Z) : list Z := zip_with Z.land ip mask.

(** [net.ParseCIDR]: an IPv4 block keeps four bytes. *)
Definition ParseCIDR (s : string) : option IPNet :=
  match Split s "/" with
  | [addr; bits] =>
      ip ← ParseIP addr; ones ← parse_decimal bits;
      let v4 := match first_separator addr with Some c => Ascii.eqb c "." | None => false end in
      let nbytes := if v4 then 4%nat else 16%nat in
      if 8 * Z.of_nat nbytes <? ones then None
      else
        let mask := CIDRMask ones nbytes in
        let ip := if v4 then drop 12 ip else ip in
        Some {| net_ip := mask_bytes ip mask; net_mask := mask |}
  | _ => None
  end.

Definition Contains (block : IPNet) (ip : IP) : bool :=
  let '(nn, m) :=
    match To4 (net_ip block) with
    | Some ip4 => (ip4, if (length (net_mask block) =? 16)%nat then drop 12 (net_mask block) else net_mask block)
    | None => (net_ip block, net_mask block)
    end in
  let x := match To4 ip with Some ip4 => ip4 | None => ip end in
  (length x =? length nn)%nat && list_Z_eqb (mask_bytes nn m) (mask_bytes x m).

(** ** Lemmas *)

Lemma ipv4_fields_length s start dot val n fields ip :
  ipv4_fields s start dot val n fields = Some ip →
  (length fields ≤ 3)%nat → length ip = 4%nat.
Proof.
  revert start dot val n fields. induction s as [|c s IH]; intros start dot val n fields; simpl.
  - destruct (Nat.ltb_spec (length fields) 3); intros; simplify_eq. rewrite length_app. simpl. lia.
  - destruct (digit_value c); [repeat case_match; try done; apply IH|].
    destruct (Ascii.eqb c "."); [|done]. destruct (start || _ || dot); [done|].
    destruct (Nat.eqb_spec (length fields) 3); [done|]. intros H Hl.
    eapply IH; [exact H|]. rewrite length_app. simpl. lia.
Qed.

Lemma parseIPv4Fields_length s ip : parseIPv4Fields s = Some ip → length ip = 4%nat.
Proof. intros H. eapply ipv4_fields_length; [exact H|simpl; lia]. Qed.

Lemma list_Z_eqb_eq l1 l2 : list_Z_eqb l1 l2 = true ↔ l1 = l2.
Proof. unfold list_Z_eqb. apply bool_decide_eq_true. Qed.

(** The text of an address has a colon, or the address is an IPv4 one. *)
Lemma ParseIP_no_colon s ip :
  ParseIP s = Some ip → ContainsByte s ":" = false → ∃ ip4, To4 ip = Some ip4 ∧ length ip4 = 4%nat.
Proof.
  unfold ParseIP. destruct (first_separator s) as [c|] eqn:Hc; [|done].
  destruct (Ascii.eqb_spec c ".") as [->|].
  - intros H _. apply fmap_Some in H as (v4 & Hv4 & ->).
    apply parseIPv4Fields_length in Hv4. exists v4. split; [|done].
    unfold To4. rewrite length_app, Hv4. done.
  - destruct (Ascii.eqb_spec c ":") as [->|]; [|done]. intros _ Hno. exfalso.
    clear -Hc Hno. revert Hc. induction s as [|d s IH]; simpl; [done|].
    unfold ContainsByte in Hno, IH. simpl in Hno.
    destruct (Ascii.eqb d ":") eqn:E; [done|].
    destruct (Ascii.eqb d "." || false || Ascii.eqb d "%") eqn:E2.
    + intros [= ->]. done.
    + intros Hc. apply IH; [|done]. by destruct (IndexByte s ":").
Qed.


Lemma ipv6_loop_length fuel s ip ellipsis ip' ellipsis' rest :
  ipv6_loop fuel s ip ellipsis = Some (ip', ellipsis', rest) →
  (length ip + 2 * fuel ≤ 16)%nat → (length ip' ≤ 16)%nat.
Proof.
  revert s ip ellipsis. induction fuel as [|fuel IH]; intros s ip ellipsis; simpl.
  - intros [= <- <- <-]. lia.
  - destruct (scan_hex s 0 0) as [[[[|off] acc] after]|]; try done.
    destruct (String.prefix "." after).
    + destruct (_ && _); [done|]. destruct (Nat.ltb_spec 16 (length ip + 4)); [done|].
      intros (v4 & Hv4 & [= <- <- <-])%bind_Some _.
      rewrite length_app. apply parseIPv4Fields_length in Hv4. lia.
    + intros H Hl. revert H.
      repeat case_match; intros; simplify_eq; try (rewrite length_app; simpl; lia);
        (eapply IH; [done|]); rewrite length_app; simpl; lia.
Qed.

Lemma parseIPv6_length s ip : parseIPv6 s = Some ip → length ip = 16%nat.
Proof.
  unfold parseIPv6. destruct (String.prefix "::" s && _); [by intros [= <-]|].
  set (at0 := if String.prefix "::" s then Some 0%nat else None). clearbody at0.
  set (body := if String.prefix "::" s then _ else s). clearbody body.
  intros ([[ip' ellipsis] rest] & Hloop & H)%bind_Some.
  apply ipv6_loop_length in Hloop; [|simpl; lia].
  repeat case_match; simplify_eq.
  - rewrite !length_app, length_replicate, length_take, length_drop.
    destruct (Nat.ltb_spec (length ip') 16); [lia|done].
  - destruct (Nat.ltb_spec (length ip) 16); [done|lia].
Qed.

(** [net.ParseIP] gives sixteen bytes, and an IPv4 one when there is no colon. *)
Lemma ParseIP_length s ip : ParseIP s = Some ip → length ip = 16%nat.
Proof.
  unfold ParseIP. destruct (first_separator s) as [c|]; [|done].
  destruct (Ascii.eqb c "."); [|destruct (Ascii.eqb c ":"); [|done]].
  - intros (v4 & Hv4 & ->)%fmap_Some. apply parseIPv4Fields_length in Hv4.
    rewrite length_app, Hv4. done.
  - destruct (ContainsByte s "%"); [done|]. apply parseIPv6_length.
Qed.

(** ** [net.IP.String] *)

Definition hex_digit (d : Z) : string :=
  String (ascii_of_N (Z.to_N (if d <? 10 then d + 48 else d + 87))) "".

(** A group of sixteen bits without leading zeros. *)
Definition hex_group (x : Z) : string :=
  (if 4096 <=? x then hex_digit (x / 4096) else "") +:+
  (if 256 <=? x then hex_digit (x / 256 mod 16) else "") +:+
  (if 16 <=? x then hex_digit (x / 16 mod 16) else "") +:+ hex_digit (x mod 16).

Definition ip_groups (ip : IP) : list Z := map (λ i, 256 * byte_at ip (2 * i) + byte_at ip (2 * i + 1)) (seq 0 8).

Fixpoint zero_run (groups : list Z) : nat :=
  match groups with
  | 0 :: groups => S (zero_run groups)
  | _ => O
  end.

(** The first of the longest runs of two zeros or more, as its start and its end. *)
Definition longest_zero_run (groups : list Z) : option (nat * nat) :=
  foldl (λ best i,
    let l := zero_run (drop i groups) in
    let current := match best with Some (s, e) => (e - s)%nat | None => O end in
    if (2 <=? l)%nat && (current <? l)%nat then Some (i, (i + l)%nat) else best) None (seq 0 8).

Fixpoint join_with (sep : string) (l : list string) : string :=
  match l with
  | [] => ""
  | [s] => s
  | s :: l => s +:+ sep +:+ join_with sep l
  end.

Definition ip6_String (ip : IP) : string :=
  let groups := ip_groups ip in
  match longest_zero_run groups with
  | None => join_with ":" (map hex_group groups)
  | Some (s, e) =>
      join_with ":" (map hex_group (take s groups)) +:+ "::" +:+ join_with ":" (map hex_group (drop e groups))
  end.

Definition ip_String (ip : IP) : string :=
  match ip with
  | [] => "<nil>"
  | _ =>
      match To4 ip with
      | Some p4 => join_with "." (map Itoa p4)
      | None =>
          if (length ip =? 16)%nat then ip6_String ip
          else "?" +:+ foldr (λ b s, hex_digit (b / 16) +:+ hex_digit (b mod 16) +:+ s) "" ip
      end
  end.

Example ip_String_example :
  map ip_String [[8; 8; 4; 4]; v4_in_v6_prefix ++ [1; 2; 3; 255]; IPv6loopback; replicate 16 0;
                 [32; 1; 13; 184; 0; 0; 0; 0; 0; 1; 0; 0; 0; 0; 0; 16]] =
  ["8.8.4.4"; "1.2.3.255"; "::1"; "::"; "2001:db8::1:0:0:10"].
Proof. reflexivity. Qed.
