(* ===== verification/GoURL.v ===== *)
(** * URLs

    [url.Parse], [URL.String], [URL.ResolveReference], [URL.Hostname] and [URL.Port] of
    Go's [net/url]. *)
From S2P Require Import Prelude GoString GoNet.
From Stdlib Require Import Ascii.

(** [url.Userinfo]: the password is [None] when it is not set. *)
Record Userinfo := mkUserinfo { ui_username : string; ui_password : option string }.

Record URL := mkURL {
  Scheme : string;
  Opaque : string;
  User : option Userinfo;
  Host : string;
  Path : string;
  RawPath : string;
  OmitHost : bool;
  ForceQuery : bool;
  RawQuery : string;
  Fragment : string;
  RawFragment : string;
}.

(** [&url.URL{Scheme: scheme, Host: host, Path: path, RawQuery: query}] *)
Definition simple_URL (scheme host path query : string) : URL :=
  mkURL scheme "" None host path "" false false query "" "".

(** [strings.Cut] at a byte. *)
Definition Cut (s : string) (sep : ascii) : string * string :=
  match IndexByte s sep with
  | None => (s, "")
  | Some i => (string_take i s, string_drop (S i) s)
  end.

Inductive encoding := encodePath | encodeHost | encodeZone | encodeUserPassword | encodeFragment.

Definition is_host (mode : encoding) : bool :=
  match mode with encodeHost | encodeZone => true | _ => false end.

Fixpoint one_of (c : ascii) (set : string) : bool :=
  match set with
  | "" => false
  | String d set => Ascii.eqb c d || one_of c set
  end.

Definition is_alpha (c : ascii) : bool :=
  let n := N_of_ascii (ascii_lower c) in ((97 <=? n) && (n <=? 122))%N.

Definition is_digit (c : ascii) : bool := negb (IsNone (digit_value c)).

(** [shouldEscape], for a host or a zone. *)
Definition shouldEscape_host (c : ascii) : bool :=
  negb (is_alpha c || is_digit c || one_of c "!$&'()*+,;=:[]<>-_.~" || (N_of_ascii c =? 34)%N).

Definition shouldEscape (c : ascii) (mode : encoding) : bool :=
  if is_host mode then shouldEscape_host c
  else if is_alpha c || is_digit c || one_of c "-_.~" then false
  else if one_of c "$&+,/:;=?@" then
    match mode with
    | encodePath => Ascii.eqb c "?"
    | encodeUserPassword => one_of c "@/?:"
    | _ => false
    end
  else
    match mode with
    | encodeFragment => negb (one_of c "!()*")
    | _ => true
    end.

(** A digit of [0123456789ABCDEF]. *)
Definition upperhex (d : N) : ascii :=
  if (d <? 10)%N then ascii_of_N (d + 48) else ascii_of_N (d + 55).

Fixpoint escape (s : string) (mode : encoding) : string :=
  match s with
  | "" => ""
  | String c s =>
      if shouldEscape c mode then
        String "%" (String (upperhex (N_of_ascii c / 16)) (String (upperhex (N_of_ascii c mod 16)) (escape s mode)))
      else String c (escape s mode)
  end.

(** [unescape]: [None] is an error. *)
Fixpoint unescape (s : string) (mode : encoding) : option string :=
  match s with
  | "" => Some ""
  | String c rest =>
      if Ascii.eqb c "%" then
        match rest with
        | String a (String b rest) =>
            hi ← hex_value a; lo ← hex_value b;
            let v := 16 * hi + lo in
            let percent := Ascii.eqb a "2" && Ascii.eqb b "5" in
            if match mode with
               | encodeHost => (hi <? 8) && negb percent
               | encodeZone =>
                   negb percent && negb (v =? 32) && shouldEscape_host (ascii_of_N (Z.to_N v))
               | _ => false
               end
            then None
            else String (ascii_of_N (Z.to_N v)) <$> unescape rest mode
        | _ => None
        end
      else if is_host mode && is_ascii c && shouldEscape_host c then None
      else String c <$> unescape rest mode
  end.

(** [validOptionalPort] *)
Definition validOptionalPort (port : string) : bool :=
  match port with
  | "" => true
  | String c port => Ascii.eqb c ":" && string_forallb is_digit port
  end.

(** Where [%25] starts. *)
Fixpoint index_percent25 (s : string) : option nat :=
  if String.prefix "%25" s then Some O
  else match s with
       | "" => None
       | String _ s => S <$> index_percent25 s
       end.

(** [parseHost] *)
Definition parseHost (host : string) : option string :=
  if String.prefix "[" host then
    i ← LastIndexByte host "]";
    if negb (validOptionalPort (string_drop (S i) host)) then None
    else
      match index_percent25 (string_take i host) with
      | Some zone =>
          host1 ← unescape (string_take zone host) encodeHost;
          host2 ← unescape (string_drop zone (string_take i host)) encodeZone;
          host3 ← unescape (string_drop i host) encodeHost;
          Some (host1 +:+ host2 +:+ host3)
      | None => unescape host encodeHost
      end
  else
    match LastIndexByte host ":" with
    | Some i => if validOptionalPort (string_drop i host) then unescape host encodeHost else None
    | None => unescape host encodeHost
    end.

Definition validUserinfo (s : string) : bool :=
  string_forallb (λ c, is_alpha c || is_digit c || one_of c "-._:~!$&'()*+,;=%@") s.

Definition parseAuthority (authority : string) : option (option Userinfo * string) :=
  match LastIndexByte authority "@" with
  | None => host ← parseHost authority; Some (None, host)
  | Some i =>
      host ← parseHost (string_drop (S i) authority);
      let userinfo := string_take i authority in
      if negb (validUserinfo userinfo) then None
      else if negb (ContainsByte userinfo ":") then
        username ← unescape userinfo encodeUserPassword;
        Some (Some (mkUserinfo username None), host)
      else
        let '(username, password) := Cut userinfo ":" in
        username ← unescape username encodeUserPassword;
        password ← unescape password encodeUserPassword;
        Some (Some (mkUserinfo username (Some password)), host)
  end.

(** [setPath] and [setFragment]: the raw form is kept when it is not the default one. *)
Definition setPath (u : URL) (p : string) : option URL :=
  path ← unescape p encodePath;
  Some (u <| Path := path |> <| RawPath := if String.eqb p (escape path encodePath) then "" else p |>).

Definition setFragment (u : URL) (f : string) : option URL :=
  fragment ← unescape f encodeFragment;
  Some (u <| Fragment := fragment |>
          <| RawFragment := if String.eqb f (escape fragment encodeFragment) then "" else f |>).

(** How many times a byte occurs. *)
Fixpoint CountByte (s : string) (c : ascii) : nat :=
  match s with
  | "" => O
  | String d s => if Ascii.eqb c d then S (CountByte s c) else CountByte s c
  end.

(** [getScheme]: [None] is the error, otherwise the scheme and the rest. *)
Fixpoint scan_scheme (s before : string) : option (option (string * string)) :=
  match s with
  | "" => Some None
  | String c s =>
      if is_alpha c then scan_scheme s (before +:+ String c "")
      else if is_digit c || one_of c "+-." then
        if String.eqb before "" then Some None else scan_scheme s (before +:+ String c "")
      else if Ascii.eqb c ":" then
        if String.eqb before "" then None else Some (Some (before, s))
      else Some None
  end.

Definition getScheme (rawURL : string) : option (string * string) :=
  found ← scan_scheme rawURL "";
  match found with
  | Some (scheme, rest) => Some (scheme, rest)
  | None => Some ("", rawURL)
  end.

Definition is_ctl (c : ascii) : bool := let n := N_of_ascii c in ((n <? 32) || (n =? 127))%N.

(** [parse(u, false)] *)
Definition parse_url (rawURL : string) : option URL :=
  if negb (string_forallb (λ c, negb (is_ctl c)) rawURL) then None
  else if String.eqb rawURL "*" then Some (simple_URL "" "" "*" "")
  else
    '(scheme, rest) ← getScheme rawURL;
    let scheme := string_map ascii_lower scheme in
    let force := HasSuffix rest "?" && (CountByte rest "?" =? 1)%nat in
    let '(rest, query) := Cut rest "?" in
    if negb (HasPrefix rest "/") && negb (String.eqb scheme "") then
      Some (mkURL scheme rest None "" "" "" false force query "" "")
    else if negb (HasPrefix rest "/") && ContainsByte (fst (Cut rest "/")) ":" then None
    else
      let authority_follows :=
        (negb (String.eqb scheme "") || negb (HasPrefix rest "///")) && HasPrefix rest "//" in
      '(user, host, path) ←
        (if authority_follows then
           let authority := string_drop 2 rest in
           match IndexByte authority "/" with
           | None => '(user, host) ← parseAuthority authority; Some (user, host, "")
           | Some i => '(user, host) ← parseAuthority (string_take i authority); Some (user, host, string_drop i authority)
           end
         else Some (None, "", rest));
      let omit := negb authority_follows && negb (String.eqb scheme "") && HasPrefix rest "/" in
      setPath (mkURL scheme "" user host "" "" omit force query "" "") path.

(** [url.Parse]: [None] is the case [err != nil]. *)
Definition url_Parse (rawURL : string) : option URL :=
  let '(u, frag) := Cut rawURL "#" in
  url ← parse_url u;
  if String.eqb frag "" then Some url else setFragment url frag.

(** ** Printing *)

Definition validEncoded (s : string) (mode : encoding) : bool :=
  string_forallb (λ c, one_of c "!$&'()*+,;=:@[]%" || negb (shouldEscape c mode)) s.

(** The raw form, if it is a valid encoding of the decoded one. *)
Definition raw_form (raw decoded : string) (mode : encoding) : option string :=
  if negb (String.eqb raw "") && validEncoded raw mode && bool_decide (unescape raw mode = Some decoded)
  then Some raw else None.

Definition EscapedPath (u : URL) : string :=
  match raw_form (RawPath u) (Path u) encodePath with
  | Some raw => raw
  | None => if String.eqb (Path u) "*" then "*" else escape (Path u) encodePath
  end.

Definition EscapedFragment (u : URL) : string :=
  match raw_form (RawFragment u) (Fragment u) encodeFragment with
  | Some raw => raw
  | None => escape (Fragment u) encodeFragment
  end.

Definition Userinfo_String (u : Userinfo) : string :=
  escape (ui_username u) encodeUserPassword +:+
  match ui_password u with Some p => ":" +:+ escape p encodeUserPassword | None => "" end.

(** [URL.String] *)
Definition url_String (u : URL) : string :=
  let scheme := if String.eqb (Scheme u) "" then "" else Scheme u +:+ ":" in
  let rest :=
    if negb (String.eqb (Opaque u) "") then scheme +:+ Opaque u
    else
      let authority :=
        if negb (String.eqb (Scheme u) "") || negb (String.eqb (Host u) "") || negb (IsNone (User u)) then
          if OmitHost u && String.eqb (Host u) "" && IsNone (User u) then ""
          else
            (if negb (String.eqb (Host u) "") || negb (String.eqb (Path u) "") || negb (IsNone (User u))
             then "//" else "") +:+
            match User u with Some ui => Userinfo_String ui +:+ "@" | None => "" end +:+
            escape (Host u) encodeHost
        else "" in
      let path := EscapedPath u in
      let slash :=
        if negb (String.eqb path "") && negb (HasPrefix path "/") && negb (String.eqb (Host u) "")
        then "/" else "" in
      let dot :=
        if String.eqb (scheme +:+ authority +:+ slash) "" && ContainsByte (fst (Cut path "/")) ":"
        then "./" else "" in
      scheme +:+ authority +:+ slash +:+ dot +:+ path in
  rest +:+ (if ForceQuery u || negb (String.eqb (RawQuery u) "") then "?" +:+ RawQuery u else "") +:+
  (if String.eqb (Fragment u) "" then "" else "#" +:+ EscapedFragment u).

(** ** References *)

(** The loop of [resolvePath] over the elements: the buffer after its first slash and
    whether nothing has been written to it. *)
Definition resolve_elem (st : string * bool) (elem : string) : string * bool :=
  let '(dst, first) := st in
  if String.eqb elem "." then (dst, false)
  else if String.eqb elem ".." then
    match LastIndexByte dst "/" with
    | None => ("", true)
    | Some index => (string_take index dst, first)
    end
  else ((if first then dst else dst +:+ "/") +:+ elem, false).

Definition resolvePath (base ref : string) : string :=
  let full :=
    if String.eqb ref "" then base
    else if negb (HasPrefix ref "/") then
      match LastIndexByte base "/" with
      | Some i => string_take (S i) base +:+ ref
      | None => ref
      end
    else ref in
  if String.eqb full "" then ""
  else
    let elems := Split full "/" in
    let '(dst, _) := foldl resolve_elem ("", true) elems in
    let last_elem := List.last elems "" in
    let dst := if String.eqb last_elem "." || String.eqb last_elem ".." then dst +:+ "/" else dst in
    if HasPrefix dst "/" then dst else "/" +:+ dst.

(** The error of [setPath] is ignored, in which case the URL stays as it was. *)
Definition ResolveReference (u ref : URL) : URL :=
  let url := if String.eqb (Scheme ref) "" then ref <| Scheme := Scheme u |> else ref in
  if negb (String.eqb (Scheme ref) "") || negb (String.eqb (Host ref) "") || negb (IsNone (User ref)) then
    default url (setPath url (resolvePath (EscapedPath ref) ""))
  else if negb (String.eqb (Opaque ref) "") then
    url <| User := None |> <| Host := "" |> <| Path := "" |>
  else
    let url :=
      if String.eqb (Path ref) "" && negb (ForceQuery ref) && String.eqb (RawQuery ref) "" then
        let url := url <| RawQuery := RawQuery u |> in
        if String.eqb (Fragment ref) "" then url <| Fragment := Fragment u |> <| RawFragment := RawFragment u |> else url
      else url in
    let url := url <| Host := Host u |> <| User := User u |> in
    default url (setPath url (resolvePath (EscapedPath u) (EscapedPath ref))).

(** [u.Parse(ref)] *)
Definition url_Parse_ref (u : URL) (ref : string) : option URL := ResolveReference u <$> url_Parse ref.

(** [splitHostPort] *)
Definition split_host_port (hostPort : string) : string * string :=
  let '(host, port) :=
    match LastIndexByte hostPort ":" with
    | Some colon =>
        if validOptionalPort (string_drop colon hostPort)
        then (string_take colon hostPort, string_drop (S colon) hostPort) else (hostPort, "")
    | None => (hostPort, "")
    end in
  if HasPrefix host "[" && HasSuffix host "]"
  then (string_drop 1 (string_take (String.length host - 1) host), port) else (host, port).

Definition Hostname (u : URL) : string := fst (split_host_port (Host u)).

Definition Port (u : URL) : string := snd (split_host_port (Host u)).

Example parse_example :
  (λ u, (Scheme u, Hostname u, Port u, Path u, RawQuery u)) <$>
    url_Parse "HTTPS://user:pw@[2001:db8::1]:443/a%20b?x=1#frag" =
  Some ("https", "2001:db8::1", "443", "/a b", "x=1").
Proof. reflexivity. Qed.

Example parse_refused :
  (url_Parse "http://exa mple.com/", url_Parse ":foo", url_Parse "http://a:b/", url_Parse "%zz") =
  (None, None, None, None).
Proof. reflexivity. Qed.

Example string_example :
  url_String <$> url_Parse "HTTPS://user:pw@[2001:db8::1]:443/a%20b/%2f?x=1#frag" =
  Some "https://user:pw@[2001:db8::1]:443/a%20b/%2f?x=1#frag".
Proof. reflexivity. Qed.

Example reference_example :
  (λ u, map (λ ref, url_String <$> url_Parse_ref u ref) ["../d"; "//x.org"; "?y=2"; "./e/./f/.."; "/"; "http://"; ""])
    <$> url_Parse "http://example.com/a/b/c?x=1" =
  Some (map Some ["http://example.com/a/d"; "http://x.org"; "http://example.com/a/b/c?y=2";
                  "http://example.com/a/b/e/"; "http://example.com/"; "http:"; "http://example.com/a/b/c?x=1"]).
Proof. reflexivity. Qed.
