(* ===== verification/Archival.v ===== *)
(** * Archival data

    The JSON data format of the measurements ([pkg/model/archival.go]), the
    messages of the test helper ([pkg/model/th.go]), the web measurement the
    minipipeline reads ([pkg/minipipeline/measurement.go]) and the failure
    strings of [pkg/netxlite/errno.go].  A [*string] is an [option string]; the
    slices of pointers of a measurement that is read from JSON may have nil entries
    (a [null] of the file) and are lists of options; [int] is 64 bits wide. *)
From S2P Require Import Prelude GoFloat.

(** ** DNS *)

Record ArchivalDNSAnswer := {
  ans_ASN : Z;
  ans_ASOrgName : string;
  ans_AnswerType : string;
  ans_Hostname : string;
  ans_IPv4 : string;
  ans_IPv6 : string;
  ans_TTL : option Z;
}.

Record ArchivalDNSLookupResult := {
  dns_Answers : list ArchivalDNSAnswer;
  dns_Engine : string;
  dns_Failure : option string;
  dns_GetaddrinfoError : Z;
  dns_Hostname : string;
  dns_QueryType : string;
  dns_RawResponse : string;
  dns_Rcode : Z;
  dns_ResolverHostname : option string;
  dns_ResolverPort : option string;
  dns_ResolverAddress : string;
  dns_T0 : float64;
  dns_T : float64;
  dns_Tags : list string;
  dns_TransactionID : Z;
}.

(** ** TCP *)

Record ArchivalTCPConnectStatus := {
  status_Blocked : option bool;
  status_Failure : option string;
  status_Success : bool;
}.

Record ArchivalTCPConnectResult := {
  tcp_IP : string;
  tcp_Port : Z;
  tcp_Status : ArchivalTCPConnectStatus;
  tcp_T0 : float64;
  tcp_T : float64;
  tcp_Tags : list string;
  tcp_TransactionID : Z;
}.

(** ** TLS and QUIC *)

Record ArchivalTLSOrQUICHandshakeResult := {
  tls_Network : string;
  tls_Address : string;
  tls_CipherSuite : string;
  tls_Failure : option string;
  tls_SoError : option string;
  tls_NegotiatedProtocol : string;
  tls_NoTLSVerify : bool;
  tls_PeerCertificates : list string;
  tls_ServerName : string;
  tls_OuterServerName : string;
  tls_ECHConfig : string;
  tls_T0 : float64;
  tls_T : float64;
  tls_Tags : list string;
  tls_TLSVersion : string;
  tls_TransactionID : Z;
}.

(** ** HTTP *)

Record ArchivalHTTPTor := {
  tor_ExitIP : option string;
  tor_ExitName : option string;
  tor_IsTor : bool;
}.

Record ArchivalHTTPRequest := {
  req_Body : string;
  req_BodyIsTruncated : bool;
  req_HeadersList : list (string * string);
  req_Headers : gmap string string;
  req_Method : string;
  req_Tor : ArchivalHTTPTor;
  req_Transport : string;
  req_URL : string;
}.

Record ArchivalHTTPResponse := {
  resp_Body : string;
  resp_BodyIsTruncated : bool;
  resp_Code : Z;
  resp_HeadersList : list (string * string);
  resp_Headers : gmap string string;
  resp_Locations : list string;
}.

Record ArchivalHTTPRequestResult := {
  http_Network : string;
  http_Address : string;
  http_ALPN : string;
  http_Failure : option string;
  http_Request : ArchivalHTTPRequest;
  http_Response : ArchivalHTTPResponse;
  http_T0 : float64;
  http_T : float64;
  http_Tags : list string;
  http_TransactionID : Z;
}.

Record ArchivalNetworkEvent := {
  net_Address : string;
  net_Failure : option string;
  net_NumBytes : Z;
  net_Operation : string;
  net_Proto : string;
  net_T0 : float64;
  net_T : float64;
  net_TransactionID : Z;
  net_Tags : list string;
}.

(** ** Test helper *)

Record THRequest := {
  thr_HTTPRequest : string;
  thr_HTTPRequestHeaders : gmap string (list string);
  thr_TCPConnect : list string;
  thr_XQUICEnabled : bool;
}.

Record THTCPConnectResult := { thtcp_Status : bool; thtcp_Failure : option string }.

Record THTLSHandshakeResult := {
  thtls_ServerName : string;
  thtls_Status : bool;
  thtls_Failure : option string;
}.

Record THHTTPRequestResult := {
  thhttp_BodyLength : Z;
  thhttp_DiscoveredH3Endpoint : string;
  thhttp_Failure : option string;
  thhttp_Title : string;
  thhttp_Headers : gmap string string;
  thhttp_StatusCode : Z;
}.

Record THDNSResult := {
  thdns_Failure : option string;
  thdns_Addrs : list string;
  thdns_ASNs : list Z;
}.

Record THIPInfo := { thip_ASN : Z; thip_Flags : Z }.

Definition THIPInfoFlagResolvedByProbe : Z := Z.shiftl 1 0.
Definition THIPInfoFlagResolvedByTH : Z := Z.shiftl 1 1.
Definition THIPInfoFlagIsBogon : Z := Z.shiftl 1 2.
Definition THIPInfoFlagValidForDomain : Z := Z.shiftl 1 3.

(** A [*THIPInfo] of the map may be nil, since JSON may say [null]. *)
Record THResponse := {
  th_TCPConnect : gmap string THTCPConnectResult;
  th_TLSHandshake : gmap string THTLSHandshakeResult;
  th_QUICHandshake : gmap string THTLSHandshakeResult;
  th_HTTPRequest : THHTTPRequestResult;
  th_HTTP3Request : option THHTTPRequestResult;
  th_DNS : THDNSResult;
  th_IPInfo : gmap string (option THIPInfo);
}.

Definition THDNSNameError : string := "dns_name_error".

(** ** The measurement *)

Record WebMeasurementTestKeys := {
  tk_Control : option THResponse;
  tk_NetworkEvents : list (option ArchivalNetworkEvent);
  tk_Queries : list (option ArchivalDNSLookupResult);
  tk_Requests : list (option ArchivalHTTPRequestResult);
  tk_TCPConnect : list (option ArchivalTCPConnectResult);
  tk_TLSHandshakes : list (option ArchivalTLSOrQUICHandshakeResult);
  tk_QUICHandshakes : list (option ArchivalTLSOrQUICHandshakeResult);
  tk_XControlRequest : option THRequest;
}.

Record WebMeasurement := {
  meas_Input : string;
  meas_TestKeys : option WebMeasurementTestKeys;
}.
