(* ===== verification/Bogon.v ===== *)
(** * Bogons

    [pkg/netxlite/bogon.go]: whether an address is a bogon, and the resolver
    that refuses the answers that contain one; [IsIPv6] of
    [pkg/netxlite/resolvercore.go]. *)
From S2P Require Import Prelude GoString GoNet.
From Stdlib Require Import Ascii.

Fixpoint expandBogons (cidrs : list string) : outcome (list IPNet) :=
  match cidrs with
  | [] => Ok []
  | cidr :: cidrs =>
      match ParseCIDR cidr with
      | None => Panic "net.ParseCIDR failed"
      | Some block => out ← expandBogons cidrs; Ok (block :: out)
      end
  end.

Definition bogons4_cidrs : list string :=
  [ "0.0.0.0/8"; "10.0.0.0/8"; "100.64.0.0/10"; "127.0.0.0/8"; "127.0.53.53/32"; "169.254.0.0/16";
    "172.16.0.0/12"; "192.0.0.0/24"; "192.0.2.0/24"; "192.168.0.0/16"; "198.18.0.0/15";
    "198.51.100.0/24"; "203.0.113.0/24"; "224.0.0.0/4"; "240.0.0.0/4"; "255.255.255.255/32" ].

Definition bogons6_cidrs : list string :=
  [ "::/128"; "::1/128"; "::ffff:0:0/96"; "::/96"; "100::/64"; "2001:10::/28"; "2001:db8::/32";
    "fc00::/7"; "fe80::/10"; "fec0::/10"; "ff00::/8"; "2002::/24"; "2002:a00::/24";
    "2002:7f00::/24"; "2002:a9fe::/32"; "2002:ac10::/28"; "2002:c000::/40"; "2002:c000:200::/40";
    "2002:c0a8::/32"; "2002:c612::/31"; "2002:c633:6400::/40"; "2002:cb00:7100::/40";
    "2002:e000::/20"; "2002:f000::/20"; "2002:ffff:ffff::/48"; "2001::/40"; "2001:0:a00::/40";
    "2001:0:7f00::/40"; "2001:0:a9fe::/48"; "2001:0:ac10::/44"; "2001:0:c000::/56";
    "2001:0:c000:200::/56"; "2001:0:c0a8::/48"; "2001:0:c612::/47"; "2001:0:c633:6400::/56";
    "2001:0:cb00:7100::/56"; "2001:0:e000::/36"; "2001:0:f000::/36"; "2001:0:ffff:ffff::/64" ].

(** The package's [init]: the blocks are parsed when the program starts.  The
    lemma [bogons_init] below says that it does not panic. *)
Definition bogons4 : list IPNet :=
  match expandBogons bogons4_cidrs with Ok l => l | Panic _ => [] end.

Definition bogons6 : list IPNet :=
  match expandBogons bogons6_cidrs with Ok l => l | Panic _ => [] end.

Definition isIPv6 (candidate : string) : bool := ContainsByte candidate ":".

Definition ErrInvalidIP : string := "netxlite: invalid IP".

Definition IsIPv6 (candidate : string) : result string bool :=
  match ParseIP candidate with
  | None => Err ErrInvalidIP
  | Some _ => Val (isIPv6 candidate)
  end.

Definition isBogon (address : string) (ip : IP) : bool :=
  if ip_IsLoopback ip || ip_IsLinkLocalUnicast ip || ip_IsLinkLocalMulticast ip then true
  else
    let bogons := if isIPv6 address then bogons6 else bogons4 in
    existsb (λ block, Contains block ip) bogons.

Definition IsBogon (address : string) : bool :=
  match ParseIP address with
  | None => true
  | Some ip => isBogon address ip
  end.

Definition IsLoopback (address : string) : bool :=
  match ParseIP address with
  | None => true
  | Some ip => ip_IsLoopback ip
  end.

(** [bogonResolver.LookupHost]; [bogon_error] is the wrapped [ErrDNSBogon]. *)
Definition bogonResolver_LookupHost {E} (bogon_error : E)
    (LookupHost : string → result E (list string)) (hostname : string) : result E (list string) :=
  match LookupHost hostname with
  | Err err => Err err
  | Val addrs => if existsb IsBogon addrs then Err bogon_error else Val addrs
  end.

(** [MaybeWrapWithBogonResolver]: the wrapping, on [LookupHost]. *)
Definition MaybeWrapWithBogonResolver {E} (bogon_error : E) (enabled : bool)
    (LookupHost : string → result E (list string)) : string → result E (list string) :=
  if enabled then bogonResolver_LookupHost bogon_error LookupHost else LookupHost.

(** ** The blocks *)

#[local] Arguments Z.land : simpl never.

#[export] Instance IPNet_eq_dec : EqDecision IPNet.
Proof. solve_decision. Defined.

(** [init] does not panic: every block of the two lists parses. *)
Lemma bogons_init :
  expandBogons bogons4_cidrs = Ok bogons4 ∧ expandBogons bogons6_cidrs = Ok bogons6.
Proof. by vm_compute. Qed.

(** The blocks of the family of the text of the address. *)
Definition bogons_of (address : string) : list IPNet :=
  if isIPv6 address then bogons6 else bogons4.

Lemma existsb_intro {A} (f : A → bool) l x : x ∈ l → f x = true → existsb f l = true.
Proof. intros Hx Hf. apply existsb_exists. exists x. by rewrite <-list_elem_of_In. Qed.

(** A block of the lists, evaluated. *)
Ltac block n := apply (existsb_intro _ _ n); [apply (bool_decide_unpack _); vm_compute; exact I|].

Definition block4 (a b c d ones : Z) : IPNet :=
  {| net_ip := [a; b; c; d]; net_mask := CIDRMask ones 4 |}.

Definition block6 (prefix : list Z) (ones : Z) : IPNet :=
  {| net_ip := prefix ++ replicate (16 - length prefix) 0; net_mask := CIDRMask ones 16 |}.

(** Evaluate the masks of the goal and apply them byte by byte. *)
Ltac masked :=
  cbn [block4 block6 net_ip net_mask];
  repeat match goal with
  | |- context [CIDRMask ?n ?k] =>
      let m := eval vm_compute in (CIDRMask n k) in change (CIDRMask n k) with m
  end; unfold mask_bytes; cbn.

Lemma Contains4 a b c d ones ip ip4 :
  To4 ip = Some ip4 →
  Contains (block4 a b c d ones) ip =
    (length ip4 =? 4)%nat &&
    list_Z_eqb (mask_bytes [a; b; c; d] (CIDRMask ones 4)) (mask_bytes ip4 (CIDRMask ones 4)).
Proof.
  intros H. unfold Contains, block4. cbn [net_ip net_mask To4 length Nat.eqb]. rewrite H.
  assert (Hl : length (CIDRMask ones 4) = 4%nat) by (simpl; repeat case_match; done).
  by rewrite Hl.
Qed.

Lemma isBogon4_early ip a b c d :
  To4 ip = Some [a; b; c; d] →
  ip_IsLoopback ip || ip_IsLinkLocalUnicast ip || ip_IsLinkLocalMulticast ip = true →
  existsb (λ block, Contains block ip) bogons4 = true.
Proof.
  intros H4 He. unfold ip_IsLoopback, ip_IsLinkLocalUnicast, ip_IsLinkLocalMulticast in He.
  rewrite H4 in He. unfold byte_at in He. cbn [nth] in He.
  apply orb_true_iff in He as [[He|He]%orb_true_iff|He];
    rewrite ?andb_true_iff, ?Z.eqb_eq in He; destruct_and?; subst.
  - block (block4 127 0 0 0 8). rewrite (Contains4 _ _ _ _ _ _ _ H4).
    apply list_Z_eqb_eq. masked; by rewrite ?Z.land_0_r.
  - block (block4 169 254 0 0 16). rewrite (Contains4 _ _ _ _ _ _ _ H4).
    apply list_Z_eqb_eq. masked; by rewrite ?Z.land_0_r.
  - block (block4 224 0 0 0 4). rewrite (Contains4 _ _ _ _ _ _ _ H4).
    apply list_Z_eqb_eq. masked; by rewrite ?Z.land_0_r.
Qed.

Lemma Contains6 block ip :
  To4 (net_ip block) = None → To4 ip = None →
  Contains block ip =
    (length ip =? length (net_ip block))%nat &&
    list_Z_eqb (mask_bytes (net_ip block) (net_mask block)) (mask_bytes ip (net_mask block)).
Proof. intros H1 H2. unfold Contains. by rewrite H1, H2. Qed.

Ltac sixteen ip H :=
  repeat (destruct ip as [|?b ip]; [discriminate H|]); destruct ip; [clear H|discriminate H].

(** Every IPv4-mapped address is in [::ffff:0:0/96]. *)
Lemma isBogon6_mapped ip ip4 :
  To4 ip = Some ip4 → length ip4 = 4%nat →
  existsb (λ block, Contains block ip) bogons6 = true.
Proof.
  intros H4 Hl. block (block6 v4_in_v6_prefix 96).
  unfold Contains. rewrite H4. vm_compute (To4 _).
  destruct ip4 as [|a [|b [|c [|d [|]]]]]; try done.
  apply list_Z_eqb_eq. masked; by rewrite ?Z.land_0_r.
Qed.

Lemma isBogon6_early ip :
  length ip = 16%nat → To4 ip = None →
  ip_IsLoopback ip || ip_IsLinkLocalUnicast ip || ip_IsLinkLocalMulticast ip = true →
  existsb (λ block, Contains block ip) bogons6 = true.
Proof.
  intros Hl H4 He. unfold ip_IsLoopback, ip_IsLinkLocalUnicast, ip_IsLinkLocalMulticast in He.
  rewrite H4, Hl in He. cbn [Nat.eqb andb] in He.
  apply orb_true_iff in He as [[He|He]%orb_true_iff|He].
  - apply list_Z_eqb_eq in He as ->. by vm_compute.
  - sixteen ip Hl. unfold byte_at in He. cbn [nth] in He.
    rewrite andb_true_iff, !Z.eqb_eq in He. destruct He as [-> Hb].
    block (block6 [254; 128] 10). rewrite Contains6 by done.
    apply list_Z_eqb_eq. masked; by rewrite ?Z.land_0_r, Hb.
  - sixteen ip Hl. unfold byte_at in He. cbn [nth] in He.
    rewrite andb_true_iff, !Z.eqb_eq in He. destruct He as [-> Hb].
    block (block6 [255] 8). rewrite Contains6 by done.
    apply list_Z_eqb_eq. masked; by rewrite ?Z.land_0_r.
Qed.

(** The test that the blocks make redundant never changes the answer. *)
Lemma isBogon_blocks address ip :
  ParseIP address = Some ip →
  isBogon address ip = existsb (λ block, Contains block ip) (bogons_of address).
Proof.
  intros Hip. unfold isBogon, bogons_of.
  destruct (_ || _ || _) eqn:He; [|done]. symmetry.
  pose proof (ParseIP_length _ _ Hip) as Hl. destruct (isIPv6 address) eqn:Hv6.
  - destruct (To4 ip) as [ip4|] eqn:H4; [|by apply isBogon6_early].
    apply (isBogon6_mapped ip ip4); [done|]. unfold To4 in H4. rewrite Hl in H4.
    revert H4. simpl. case_match; intros; simplify_eq. rewrite length_drop. lia.
  - destruct (ParseIP_no_colon _ _ Hip Hv6) as (ip4 & H4 & Hl4).
    destruct ip4 as [|a [|b [|c [|d [|]]]]]; try done. by eapply isBogon4_early.
Qed.

(** Whatever the address, [IsBogon] is exactly membership in the blocks of
    the family of its text (an invalid address is a bogon); in particular the
    loopback and link-local test that precedes the lists is redundant. *)
Theorem IsBogon_is_membership address :
  IsBogon address =
    match ParseIP address with
    | None => true
    | Some ip => existsb (λ block, Contains block ip) (bogons_of address)
    end.
Proof.
  unfold IsBogon. destruct (ParseIP address) as [ip|] eqn:Hip; [|done]. by apply isBogon_blocks.
Qed.
