(* ===== verification/WebTitle.v ===== *)
(** * The title of a web page

    [pkg/measurexlite/web.go]: the regular expression
    [(?i)<title>([^<]{1,512})</title>] as the leftmost match of Go's [regexp],
    which reads the page one UTF-8 rune at a time (a byte that does not start
    a valid rune counts as a rune of its own). *)
From S2P Require Import Prelude GoString.
From Stdlib Require Import Ascii.

#[local] Arguments String.append : simpl nomatch.

Definition byte_in (lo hi : N) (c : ascii) : bool :=
  ((lo <=? N_of_ascii c) && (N_of_ascii c <=? hi))%N.

Definition continuation (c : ascii) : bool := byte_in 128 191 c.

(** How many bytes the first rune of a nonempty string has ([utf8.DecodeRuneInString]). *)
Definition rune_width (s : string) : nat :=
  match s with
  | String c0 (String c1 rest) =>
      if byte_in 194 223 c0 then if continuation c1 then 2 else 1
      else
        let lo := if byte_in 224 224 c0 then 160%N else if byte_in 240 240 c0 then 144%N else 128%N in
        let hi := if byte_in 237 237 c0 then 159%N else if byte_in 244 244 c0 then 143%N else 191%N in
        match rest with
        | String c2 rest' =>
            if byte_in 224 239 c0 then
              if byte_in lo hi c1 && continuation c2 then 3 else 1
            else
              match rest' with
              | String c3 _ =>
                  if byte_in 240 244 c0 && byte_in lo hi c1 && continuation c2 && continuation c3
                  then 4 else 1
              | "" => 1
              end
        | "" => 1
        end
  | _ => 1
  end%nat.

#[local] Arguments rune_width : simpl never.

(** The prefix [p], letters matched in either case ([p] is lower case). *)
Fixpoint fold_prefix (p s : string) : option string :=
  match p, s with
  | "", _ => Some s
  | String a p, String c s => if Ascii.eqb (ascii_lower c) a then fold_prefix p s else None
  | String _ _, "" => None
  end.

(** [[^<]{0,budget}], greedy: what it matches and what follows. *)
Fixpoint not_lt_runes (budget : nat) (s : string) : string * string :=
  match budget, s with
  | O, _ => ("", s)
  | S _, "" => ("", "")
  | S budget, String c _ =>
      if Ascii.eqb c "<" then ("", s)
      else
        let w := rune_width s in
        let '(m, rest) := not_lt_runes budget (string_drop w s) in (string_take w s +:+ m, rest)
  end.

(** A match of the whole expression at the start of [s]: its first group. *)
Definition title_here (s : string) : option string :=
  inside ← fold_prefix "<title>" s;
  let '(title, rest) := not_lt_runes 512 inside in
  if String.eqb title "" then None
  else _ ← fold_prefix "</title>" rest; Some title.

(** The leftmost match. *)
Fixpoint FindTitle (s : string) : option string :=
  match title_here s with
  | Some title => Some title
  | None => match s with
            | "" => None
            | String _ s => FindTitle s
            end
  end.

Definition WebGetTitle (measurementBody : string) : string :=
  match FindTitle measurementBody with
  | None => ""
  | Some title => title
  end.

Example title_example :
  WebGetTitle "<html><TITLE></title><tItle>a b</TITLE></html>" = "a b".
Proof. reflexivity. Qed.

(** ** What the title is *)

Fixpoint rune_count_fuel (fuel : nat) (s : string) : nat :=
  match fuel, s with
  | S fuel, String _ _ => S (rune_count_fuel fuel (string_drop (rune_width s) s))
  | _, _ => O
  end.

(** [utf8.RuneCountInString]; every rune has at least one byte. *)
Definition rune_count (s : string) : nat := rune_count_fuel (String.length s) s.

Definition no_lt (s : string) : bool := string_forallb (λ c, negb (Ascii.eqb c "<")) s.

Lemma string_take_drop n s : string_take n s +:+ string_drop n s = s.
Proof. revert s. induction n as [|n IH]; intros [|c s]; simpl; rewrite ?IH; done. Qed.

Lemma string_app_assoc s1 s2 s3 : (s1 +:+ s2) +:+ s3 = s1 +:+ (s2 +:+ s3).
Proof. induction s1; simpl; congruence. Qed.

Lemma string_length_app s1 s2 :
  String.length (s1 +:+ s2) = (String.length s1 + String.length s2)%nat.
Proof. induction s1; simpl; congruence. Qed.

Lemma string_length_take n s : (String.length (string_take n s) ≤ n)%nat.
Proof. revert s. induction n; intros [|c s]; simpl; try lia. specialize (IHn s). lia. Qed.

Lemma forallb_app f s1 s2 :
  string_forallb f (s1 +:+ s2) = string_forallb f s1 && string_forallb f s2.
Proof. induction s1 as [|c s1 IH]; simpl; [done|]. rewrite IH. by rewrite andb_assoc. Qed.

(** Beyond its first byte, a rune has only bytes that are not ASCII. *)
Lemma byte_in_not_lt lo hi c : (128 ≤ lo)%N → byte_in lo hi c = true → Ascii.eqb c "<" = false.
Proof.
  unfold byte_in. intros Hlo Hc. apply Ascii.eqb_neq. intros ->.
  apply andb_true_iff in Hc as [Hc _]. apply N.leb_le in Hc. cbn in Hc. lia.
Qed.

Lemma rune_take c s :
  ∃ m, string_take (rune_width (String c s)) (String c s) = String c m ∧
       no_lt m = true ∧ (String.length m ≤ 3)%nat.
Proof.
  unfold rune_width, no_lt.
  destruct s as [|c1 s]; [exists ""; split_and!; [done|done|simpl; lia]|].
  destruct (byte_in 194 223 c).
  { destruct (continuation c1) eqn:H1; [|exists ""; split_and!; [done|done|simpl; lia]].
    exists (String c1 ""). simpl. rewrite (byte_in_not_lt _ _ _ (N.le_refl _) H1). split_and!; [done|done|lia]. }
  set (lo := if byte_in 224 224 c then 160%N else _).
  set (hi := if byte_in 237 237 c then 159%N else _).
  assert (Hlo : (128 ≤ lo)%N) by (subst lo; repeat case_match; done). clearbody lo hi.
  destruct s as [|c2 s]; [exists ""; split_and!; [done|done|simpl; lia]|].
  destruct (byte_in 224 239 c).
  { destruct (byte_in lo hi c1 && continuation c2) eqn:H; [|exists ""; split_and!; [done|done|simpl; lia]].
    apply andb_true_iff in H as [H1 H2]. exists (String c1 (String c2 "")). simpl.
    rewrite (byte_in_not_lt _ _ _ Hlo H1), (byte_in_not_lt _ _ _ (N.le_refl _) H2).
    split_and!; [done|done|lia]. }
  destruct s as [|c3 s]; [exists ""; split_and!; [done|done|simpl; lia]|].
  destruct (_ && _ && _ && _) eqn:H; [|exists ""; split_and!; [done|done|simpl; lia]].
  apply andb_true_iff in H as [[[_ H1]%andb_true_iff H2]%andb_true_iff H3].
  exists (String c1 (String c2 (String c3 ""))). simpl.
  rewrite (byte_in_not_lt _ _ _ Hlo H1), (byte_in_not_lt _ _ _ (N.le_refl _) H2),
    (byte_in_not_lt _ _ _ (N.le_refl _) H3).
  split_and!; [done|done|lia].
Qed.

(** What [[^<]{0,budget}] consumes. *)
Lemma not_lt_runes_sound budget s m rest :
  not_lt_runes budget s = (m, rest) →
  s = m +:+ rest ∧ no_lt m = true ∧ (String.length m ≤ 4 * budget)%nat.
Proof.
  revert s m rest. induction budget as [|budget IH]; intros s m rest; cbn [not_lt_runes].
  { intros [= <- <-]. done. }
  destruct s as [|c s]; [intros [= <- <-]; split_and!; [done|done|simpl; lia]|].
  destruct (Ascii.eqb c "<") eqn:Hc; [intros [= <- <-]; split_and!; [done|done|simpl; lia]|].
  destruct (not_lt_runes budget _) as [m' rest'] eqn:E. intros [= <- <-].
  apply IH in E as (Hs & Hm & Hl). destruct (rune_take c s) as (r & Hr & Hn & Hlr).
  split_and!; [by rewrite string_app_assoc, <-Hs, string_take_drop|..]; rewrite Hr.
  - unfold no_lt in *. rewrite forallb_app. simpl. by rewrite Hc, Hn, Hm.
  - rewrite string_length_app. simpl. lia.
Qed.

Lemma fold_prefix_sound p s rest :
  fold_prefix p s = Some rest → ∃ q, s = q +:+ rest ∧ string_map ascii_lower q = p.
Proof.
  revert s. induction p as [|a p IH]; intros s; simpl.
  - intros [= <-]. by exists "".
  - destruct s as [|c s]; [done|]. destruct (Ascii.eqb_spec (ascii_lower c) a) as [<-|]; [|done].
    intros (q & -> & <-)%IH. by exists (String c q).
Qed.

(** The title of a page is empty or it is the text between an opening and
    a closing title tag (in any letter case) of the page, does not contain
    another tag, and has at most 512 runes, hence at most 2048 bytes. *)
Theorem WebGetTitle_between_tags body :
  WebGetTitle body = "" ∨
  ∃ before opening closing after,
    body = before +:+ opening +:+ WebGetTitle body +:+ closing +:+ after ∧
    string_map ascii_lower opening = "<title>" ∧ string_map ascii_lower closing = "</title>" ∧
    no_lt (WebGetTitle body) = true ∧ (String.length (WebGetTitle body) ≤ 2048)%nat.
Proof.
  unfold WebGetTitle. destruct (FindTitle body) as [t|] eqn:Hf; [right|by left].
  cut (∃ before here, body = before +:+ here ∧ title_here here = Some t).
  { intros (before & here & -> & Ht). unfold title_here in Ht.
    apply bind_Some in Ht as (inside & (opening & -> & Hop)%fold_prefix_sound & Ht).
    destruct (not_lt_runes 512 inside) as [m rest] eqn:Hm.
    apply not_lt_runes_sound in Hm as (-> & Hno & Hl).
    destruct (String.eqb m ""); [done|].
    apply bind_Some in Ht as (after & (closing & -> & Hcl)%fold_prefix_sound & [= <-]).
    exists before, opening, closing, after. split_and!; done. }
  clear -Hf. induction body as [|c body IH]; cbn [FindTitle] in Hf.
  - discriminate Hf.
  - destruct (title_here (String c body)) eqn:E; [exists "", (String c body); by simplify_eq|].
    destruct (IH Hf) as (before & here & -> & ?). by exists (String c before), here.
Qed.

