(* ===== verification/PipeSet.v ===== *)
(** * Sets of the minipipeline

    [pkg/minipipeline/set.go]: a [Set] wraps a [map[T]bool] that is nil until
    the first [Add]. *)
From S2P Require Import Prelude GoSort GoString.
From Stdlib Require Import Ascii.

(** The key types [~string | ~int64], with the operator [<] of Go. *)
Class SetKey (T : Type) := {
  key_eq_dec :: EqDecision T;
  key_countable :: Countable T;
  key_less : T → T → bool;
  key_less_swo :: StrictWeakOrder key_less;
  key_less_total x y : key_less x y = false → key_less y x = false → x = y;
}.

#[export] Instance SetKey_string : SetKey string :=
  {| key_less := String.ltb; key_less_total := string_ltb_total |}.

#[export] Program Instance SetKey_int64 : SetKey Z := {| key_less := Z.ltb |}.
Next Obligation. intros x y. rewrite !Z.ltb_ge. lia. Qed.

Record Set_ (T : Type) `{SetKey T} := mkSet { state : option (gmap T bool) }.
Arguments mkSet {T _} state.
Arguments state {T _} s.

Section set.
Context {T : Type} `{SetKey T}.

(** The zero value. *)
Definition zeroSet : Set_ T := mkSet None.

(** Reading a nil map gives nothing. *)
Definition state_map (sx : Set_ T) : gmap T bool :=
  match state sx with None => ∅ | Some m => m end.

Definition Add (sx : Set_ T) (keys : list T) : Set_ T :=
  mkSet (Some (foldl (λ m key, <[key := true]> m) (state_map sx) keys)).

Definition NewSet (keys : list T) : Set_ T := Add zeroSet keys.

Definition Len (sx : Set_ T) : nat := size (state_map sx).

(** Deleting from a nil map does nothing. *)
Definition Remove (sx : Set_ T) (keys : list T) : Set_ T :=
  mkSet ((λ m, foldl (λ m key, delete key m) m keys) <$> state sx).

(** The keys are distinct and [<] is total on them, so that every sorting
    algorithm returns the same slice ([Keys_unique]). *)
Definition Keys `{RangeOrder} (sx : Set_ T) : list T :=
  insertion_sort key_less (range_map 1 (state_map sx)).*1.

Definition set_Contains (sx : Set_ T) (key : T) : bool :=
  bool_decide (is_Some (state_map sx !! key)).
End set.

(** [json.Marshal] and [json.Unmarshal] of a [[]T], with their errors; the JSON
    [null] is a nil slice, [None] here. *)
Class KeysJSON (bytes T : Type) := {
  keys_Marshal : list T → result string bytes;
  keys_Unmarshal : bytes → result string (option (list T));
}.

Definition Set_MarshalJSON {bytes T} `{SetKey T} `{KeysJSON bytes T} `{RangeOrder} (sx : Set_ T) :
    result string bytes :=
  keys_Marshal (Keys sx).

(** The error, if any, and the set afterwards. *)
Definition Set_UnmarshalJSON {bytes T} `{SetKey T} `{KeysJSON bytes T} (sx : Set_ T) (data : bytes) :
    option string * Set_ T :=
  match keys_Unmarshal data with
  | Err err => (Some err, sx)
  | Val keys => (None, Add sx (default [] keys))
  end.

(** What [encoding/json] documents: a slice of [valid] keys (any [int64], a
    string in UTF-8) is read back as it was written. *)
Class KeysJSONLaws (bytes : Type) {T} `{KeysJSON bytes T} (valid : T → Prop) : Prop :=
  keys_roundtrip (keys : list T) : Forall valid keys →
    ∃ data, keys_Marshal keys = Val data ∧ keys_Unmarshal data = Val (Some keys).

(** ** Laws *)

Section laws.
Context {T : Type} `{SetKey T}.
Implicit Types (sx : Set_ T) (k : T) (keys : list T).

Lemma set_Contains_true sx k : set_Contains sx k = true ↔ is_Some (state_map sx !! k).
Proof. apply bool_decide_eq_true. Qed.

Lemma Contains_Add sx keys k :
  set_Contains (Add sx keys) k = bool_decide (k ∈ keys) || set_Contains sx k.
Proof.
  unfold set_Contains.
  change (state_map (Add sx keys)) with (foldl (λ m key, <[key := true]> m) (state_map sx) keys).
  rewrite (lookup_adds _ keys k).
  destruct (decide (k ∈ keys)) as [Hk|Hk].
  - rewrite (bool_decide_eq_true_2 _ Hk). by apply bool_decide_eq_true_2.
  - by rewrite (bool_decide_eq_false_2 _ Hk).
Qed.

Lemma Contains_zero k : set_Contains (zeroSet : Set_ T) k = false.
Proof.
  unfold set_Contains, state_map; cbn [state zeroSet]. rewrite lookup_empty. by case_bool_decide as Hx; [destruct Hx|].
Qed.

Lemma Contains_NewSet keys k : set_Contains (NewSet keys) k = bool_decide (k ∈ keys).
Proof. unfold NewSet. by rewrite Contains_Add, Contains_zero, orb_false_r. Qed.

Lemma Contains_Remove sx keys k :
  set_Contains (Remove sx keys) k = negb (bool_decide (k ∈ keys)) && set_Contains sx k.
Proof.
  unfold set_Contains, Remove, state_map; cbn [state]. destruct (state sx) as [m|]; simpl.
  - rewrite (lookup_removes m keys k). destruct (decide (k ∈ keys)) as [Hk|Hk].
    + rewrite (bool_decide_eq_true_2 _ Hk). by apply bool_decide_eq_false_2; intros [].
    + by rewrite (bool_decide_eq_false_2 _ Hk).
  - rewrite lookup_empty. case_bool_decide as Hx; [by destruct Hx|]. by rewrite andb_false_r.
Qed.

Lemma elem_of_Keys `{RangeOrder} sx k : k ∈ Keys sx ↔ set_Contains sx k = true.
Proof.
  unfold Keys. rewrite insertion_sort_perm, set_Contains_true, list_elem_of_fmap. split.
  - intros ([k' b] & -> & Hk%range_map_elem). by exists b.
  - intros [b Hb]. exists (k, b). by rewrite range_map_elem.
Qed.

Lemma Keys_perm `{RangeOrder} sx : Keys sx ≡ₚ (map_to_list (state_map sx)).*1.
Proof. unfold Keys. by rewrite insertion_sort_perm, range_map_perm. Qed.

Lemma NoDup_Keys `{RangeOrder} sx : NoDup (Keys sx).
Proof. rewrite Keys_perm. apply NoDup_fst_map_to_list. Qed.

Lemma length_Keys `{RangeOrder} sx : length (Keys sx) = Len sx.
Proof. by rewrite Keys_perm, length_fmap, length_map_to_list. Qed.

Lemma Len_pos `{RangeOrder} sx : (0 < Len sx)%nat ↔ ∃ k, set_Contains sx k = true.
Proof.
  rewrite <-length_Keys. split.
  - destruct (Keys sx) as [|k l] eqn:E; simpl; [lia|]. intros _. exists k.
    apply elem_of_Keys. rewrite E. set_solver.
  - intros [k Hk%elem_of_Keys]. destruct (Keys sx); [set_solver|simpl; lia].
Qed.
End laws.

(** ** The keys are sorted, whatever the order of iteration *)

Section sorted.
Context {T : Type} `{SetKey T}.
Implicit Types (sx : Set_ T) (k : T) (keys l : list T).

Definition ascending (l : list T) : Prop := StronglySorted (λ x y, key_less x y = true) l.

Lemma ordered_ascending l : NoDup l → ordered key_less l → ascending l.
Proof.
  intros Hnd Hl. induction Hl as [|x l Hl IH Hx]; [constructor|].
  apply NoDup_cons in Hnd as [Hxl Hnd]. constructor; [by apply IH|].
  rewrite Forall_forall in Hx |- *. intros y Hy. specialize (Hx y Hy).
  destruct (key_less x y) eqn:E; [done|].
  by rewrite (key_less_total x y E Hx) in Hxl.
Qed.

Lemma ascending_unique l1 l2 : ascending l1 → ascending l2 → l1 ≡ₚ l2 → l1 = l2.
Proof.
  intros H1. revert l2. induction H1 as [|x l1 H1 IH Hx]; intros l2 H2 Hp.
  - by apply Permutation_nil_l.
  - destruct H2 as [|y l2 H2 Hy]; [by apply symmetry, Permutation_nil_cons in Hp|].
    rewrite Forall_forall in Hx, Hy.
    assert (x = y) as <-.
    { assert (x ∈ y :: l2) as Hxin by (rewrite <-Hp; set_solver).
      assert (y ∈ x :: l1) as Hyin by (rewrite Hp; set_solver).
      apply elem_of_cons in Hxin as [?|Hxin]; [done|].
      apply elem_of_cons in Hyin as [?|Hyin]; [done|].
      pose proof (swo_asym _ _ (Hx y Hyin)) as Hn. rewrite (Hy x Hxin) in Hn. done. }
    f_equal. apply IH; [done|]. by apply Permutation_cons_inv in Hp.
Qed.

Lemma Keys_ascending `{RangeOrder} sx : ascending (Keys sx).
Proof.
  apply ordered_ascending; [apply NoDup_Keys|]. unfold Keys.
  by destruct (insertion_sort_sorts key_less (range_map 1 (state_map sx)).*1).
Qed.

(** [Keys] is the only ascending list of the members. *)
Lemma Keys_unique `{RangeOrder} sx l :
  ascending l → (∀ k, k ∈ l ↔ set_Contains sx k = true) → Keys sx = l.
Proof.
  intros Hl Hk. apply ascending_unique; [apply Keys_ascending|done|].
  apply NoDup_Permutation; [apply NoDup_Keys| |].
  - clear Hk. induction Hl as [|x l Hl IH Hx]; constructor; [|done].
    intros Hin. rewrite Forall_forall in Hx. specialize (Hx x Hin). simpl in Hx.
    pose proof (swo_irrefl key_less x). congruence.
  - intros k. by rewrite elem_of_Keys, Hk.
Qed.

Lemma Keys_order `{o1 : RangeOrder} `{o2 : RangeOrder} sx :
  @Keys T _ o1 sx = @Keys T _ o2 sx.
Proof. apply Keys_unique; [apply (@Keys_ascending o2)|]. intros k. apply (@elem_of_Keys _ _ o2). Qed.

(** Same members, same keys. *)
Lemma Keys_ext `{RangeOrder} sx1 sx2 :
  (∀ k, set_Contains sx1 k = set_Contains sx2 k) → Keys sx1 = Keys sx2.
Proof.
  intros Heq. apply Keys_unique; [apply Keys_ascending|]. intros k. by rewrite elem_of_Keys, Heq.
Qed.
End sorted.

(** C40: a set of valid keys always serialises, to the strictly ascending list of
    its members whatever the order in which Go iterates over the map; reading the
    bytes back adds exactly these members to the set that reads them, so that the zero value
    then serialises to the same bytes under any order. Bytes that cannot be decoded
    give an error and leave the set as it was, and reading never removes a member. *)
Theorem Set_JSON_roundtrip {bytes T} `{SetKey T} `{KeysJSON bytes T} (valid : T → Prop)
    (Hjson : KeysJSONLaws bytes valid) `{o1 : RangeOrder} `{o2 : RangeOrder} (sx : Set_ T)
    (Hvalid : ∀ k, set_Contains sx k = true → valid k) :
  (∃ data keys,
    @Set_MarshalJSON bytes T _ _ o1 sx = Val data ∧ keys_Unmarshal data = Val (Some keys) ∧
    ascending keys ∧ (∀ k, k ∈ keys ↔ set_Contains sx k = true) ∧
    (∀ old, ∃ new, Set_UnmarshalJSON old data = (None, new) ∧
       ∀ k, set_Contains new k = set_Contains sx k || set_Contains old k) ∧
    @Set_MarshalJSON bytes T _ _ o2 (Set_UnmarshalJSON zeroSet data).2 = Val data) ∧
  (∀ (old : Set_ T) (data : bytes), let '(err, new) := Set_UnmarshalJSON old data in
     (∀ k, set_Contains old k = true → set_Contains new k = true) ∧
     ∀ why, keys_Unmarshal data = Err why → err = Some why ∧ new = old).
Proof.
  split.
  - destruct (Hjson (@Keys T _ o1 sx)) as (data & Hm & Hu).
    { apply Forall_forall. intros k Hk. by apply Hvalid, (@elem_of_Keys T _ o1). }
    assert (Hread : ∀ old k, set_Contains (Set_UnmarshalJSON old data).2 k = set_Contains sx k || set_Contains old k).
    { intros old k. unfold Set_UnmarshalJSON. rewrite Hu. cbn [snd default]. rewrite Contains_Add. f_equal.
      apply eq_true_iff_eq. rewrite bool_decide_eq_true. apply (@elem_of_Keys T _ o1). }
    exists data, (@Keys T _ o1 sx). split_and!; [exact Hm|exact Hu|apply (@Keys_ascending T _ o1)|apply (@elem_of_Keys T _ o1)| |].
    + intros old. exists (Set_UnmarshalJSON old data).2. split; [|apply Hread].
      unfold Set_UnmarshalJSON. by rewrite Hu.
    + unfold Set_MarshalJSON at 1. rewrite <-Hm. unfold Set_MarshalJSON. f_equal.
      rewrite (Keys_order (o1 := o2) (o2 := o1)). apply Keys_ext. intros k.
      by rewrite Hread, Contains_zero, orb_false_r.
  - intros old data. unfold Set_UnmarshalJSON. destruct (keys_Unmarshal data) as [keys|why]; [|naive_solver].
    split; [|done]. intros k Hk. by rewrite Contains_Add, Hk, orb_true_r.
Qed.

(** ** The law holds for the arrays of numbers of [encoding/json] *)

Module Int64JSON.

(** After the opening bracket. *)
Fixpoint body (keys : list Z) : string :=
  match keys with
  | [] => "]"
  | [k] => Itoa k +:+ "]"
  | k :: keys => Itoa k +:+ "," +:+ body keys
  end.

(** Tokens up to the closing bracket; [token] is what was read of the current one, backwards. *)
Fixpoint items (token : string → string) (s : string) : option (list Z) :=
  match s with
  | "" => None
  | String c s =>
      if Ascii.eqb c "]" then (if String.eqb s "" then k ← ParseInt64 (token ""); Some [k] else None)
      else if Ascii.eqb c "," then
        k ← ParseInt64 (token ""); keys ← items (λ x, x) s; Some (k :: keys)
      else items (λ x, token (String c x)) s
  end.

Definition decode (data : string) : result string (option (list Z)) :=
  if String.eqb data "null" then Val None
  else if String.eqb data "[]" then Val (Some [])
  else match data with
       | String c s =>
           match (if Ascii.eqb c "[" then items (λ x, x) s else None) with
           | Some keys => Val (Some keys)
           | None => Err "json: cannot unmarshal into Go value of type []int64"
           end
       | "" => Err "unexpected end of JSON input"
       end.

#[export] Instance int64_json : KeysJSON string Z :=
  {| keys_Marshal keys := Val ("[" +:+ body keys); keys_Unmarshal := decode |}.

Definition plain (c : ascii) : bool := negb (Ascii.eqb c "]") && negb (Ascii.eqb c ",").

Lemma format_digits_plain fuel n acc :
  0 ≤ n → string_forallb plain acc = true → string_forallb plain (format_digits fuel n acc) = true.
Proof.
  revert n acc. induction fuel as [|fuel IH]; intros n acc Hn Ha; [done|]. cbn [format_digits].
  assert (Hc : string_forallb plain (String (digit_char (n mod 10)) acc) = true).
  { cbn [string_forallb]. rewrite Ha, andb_true_r. unfold plain.
    by rewrite !digit_char_not by (try done; apply Z.mod_pos_bound; lia). }
  destruct (n / 10 =? 0); [done|]. apply IH; [apply Z.div_pos; lia|done].
Qed.

Lemma Itoa_plain z : string_forallb plain (Itoa z) = true.
Proof.
  unfold Itoa. destruct (z <? 0); cbn [string_forallb]; [apply andb_true_iff; split; [done|]|];
    by apply format_digits_plain; [lia|].
Qed.

Lemma items_skip token t s : string_forallb plain t = true → items token (t +:+ s) = items (λ x, token (t +:+ x)) s.
Proof.
  revert token. induction t as [|c t IH]; intros token Ht; [done|]. cbn [string_forallb] in Ht.
  apply andb_true_iff in Ht as [Hc Ht]. unfold plain in Hc. apply andb_true_iff in Hc as [H1%negb_true_iff H2%negb_true_iff].
  rewrite append_cons. cbn [items]. rewrite H1, H2. by rewrite IH.
Qed.

Lemma append_empty s : s +:+ "" = s.
Proof. induction s as [|c s IH]; [done|]. by rewrite append_cons, IH. Qed.

Lemma items_body k keys : Forall is_int64 (k :: keys) → items (λ x, x) (body (k :: keys)) = Some (k :: keys).
Proof.
  revert k. induction keys as [|k' keys IH]; intros k [Hk Hks]%Forall_cons.
  - cbn [body]. rewrite items_skip by apply Itoa_plain. cbn. by rewrite append_empty, ParseInt64_Itoa.
  - change (body (k :: k' :: keys)) with (Itoa k +:+ "," +:+ body (k' :: keys)).
    rewrite items_skip by apply Itoa_plain. rewrite append_cons, append_nil. cbn [items Ascii.eqb].
    change (items _ (String "," ?s)) with (k ← ParseInt64 (Itoa k +:+ ""); keys ← items (λ x, x) s; Some (k :: keys)).
    rewrite append_empty, ParseInt64_Itoa, IH by done. done.
Qed.

#[export] Instance int64_laws : KeysJSONLaws string is_int64.
Proof.
  intros keys Hkeys. eexists. split; [done|]. unfold keys_Unmarshal, int64_json, decode.
  destruct keys as [|k keys]; [done|]. rewrite append_cons, append_nil.
  pose proof (items_body k keys Hkeys) as Hi. generalize dependent (body (k :: keys)). intros text Hi.
  rewrite (proj2 (String.eqb_neq (String "[" _) "null")) by done.
  destruct (String.eqb_spec (String "[" text) "[]") as [E|_].
  - injection E as ->. vm_compute in Hi. done.
  - rewrite Ascii.eqb_refl, Hi. done.
Qed.

End Int64JSON.

Lemma Set_JSON_roundtrip_witness :
  let sx : Set_ Z := NewSet [7; -3; 11] in
  (∀ k, set_Contains sx k = true → is_int64 k) ∧
  @Set_MarshalJSON string Z _ Int64JSON.int64_json range_ascending sx = Val "[-3,7,11]" ∧
  ∃ data, @Set_MarshalJSON string Z _ Int64JSON.int64_json range_ascending sx = Val data ∧
    @Set_MarshalJSON string Z _ Int64JSON.int64_json range_ascending
      (@Set_UnmarshalJSON string Z _ Int64JSON.int64_json zeroSet data).2 = Val data.
Proof.
  intros sx. assert (Hv : ∀ k, set_Contains sx k = true → is_int64 k).
  { intros k Hk. subst sx. rewrite Contains_NewSet, bool_decide_eq_true in Hk.
    rewrite !elem_of_cons, elem_of_nil in Hk. unfold is_int64, int64_min, int64_max. lia. }
  split; [exact Hv|]. split; [vm_compute; reflexivity|].
  destruct (Set_JSON_roundtrip (H0 := Int64JSON.int64_json) is_int64 Int64JSON.int64_laws
    (o1 := range_ascending) (o2 := range_ascending) sx Hv) as [(data & keys & Hm & _ & _ & _ & _ & Hz) _].
  exists data. split; [exact Hm|exact Hz].
Defined.
