(* ===== verification/Observation.v ===== *)
(** * Observations

    [pkg/minipipeline/observation.go] and [utils.go]: a measurement is
    flattened into observations, one per DNS lookup and resolved address and
    one per TCP endpoint, that later events and the answer of the test helper
    complete in place.

    The container owns its observations: a [*WebObservation] of the two DNS
    slices is an element of a list, one of [KnownTCPEndpoints] a value of the
    map.  The pointers of [knownIPAddresses], which alias observations of
    [DNSLookupSuccesses], are indices into that list. *)
From S2P Require Import Prelude Failures GoString GoFloat GoNet GoURL Archival Bogon WebTitle.
From S2P Require Import PipeSet.

(** ** [utils.go] *)

Definition utilsStringPointerToString (failure : option string) : string :=
  match failure with
  | Some s => s
  | None => ""
  end.

(** [LookupASN] of [model.GeoIPASNLookupper]: an AS number and the name of its
    organisation, from a database file. *)
Abbreviation GeoIPASNLookupper := (string → result string (Z * string)).

Definition utilsGeoipxLookupASN (lookupper : GeoIPASNLookupper) (ipAddress : string) : option Z :=
  match lookupper ipAddress with
  | Val (asn, _) => if 0 <? asn then Some (wrap64 asn) else None
  | Err _ => None
  end.

Definition utilsExtractHTTPHeaderKeys `{RangeOrder} (input : gmap string string) :
    option (gmap string bool) :=
  Some (foldl (λ output '(key, _), <[key := true]> output) ∅ (range_map 2 input)).

(** The first header whose name is [location] in lower case, in the order of
    the iteration. *)
Fixpoint first_location `{UnicodeTables} (headers : list (string * string)) : option string :=
  match headers with
  | [] => None
  | (key, value) :: headers =>
      if String.eqb (ToLower key) "location" then Some value else first_location headers
  end.

Definition utilsExtractHTTPLocation `{RangeOrder} `{UnicodeTables} (input : gmap string string) :
    option string := first_location (range_map 3 input).

(** Integer division of Go truncates. *)
Definition utilsDetermineWhetherHTTPResponseIsFinal (status : Z) : option bool :=
  let class := Z.quot status 100 in
  Some ((class =? 2) || (class =? 4) || (class =? 5)).

Fixpoint utilsResolvedAddresses (answers : list ArchivalDNSAnswer) : list string :=
  match answers with
  | [] => []
  | ans :: answers =>
      if String.eqb (ans_AnswerType ans) "A" then ans_IPv4 ans :: utilsResolvedAddresses answers
      else if String.eqb (ans_AnswerType ans) "AAAA" then
        ans_IPv6 ans :: utilsResolvedAddresses answers
      else utilsResolvedAddresses answers
  end.

Definition utilsEngineIsGetaddrinfo (engine : option string) : bool :=
  let engine := UnwrapOr engine "" in
  String.eqb engine "getaddrinfo" || String.eqb engine "golang_net_resolver".

Definition utilsExtractTagDepth (tags : list string) : option Z :=
  foldl (λ result tag,
           if negb (HasPrefix tag "depth=") then result
           else match ParseInt64 (TrimPrefix tag "depth=") with
                | None => result
                | Some value => Some value
                end) None tags.

Definition utilsExtractTagFetchBody (tags : list string) : option bool :=
  foldl (λ result tag,
           if negb (HasPrefix tag "fetch_body=") then result
           else Some (String.eqb (TrimPrefix tag "fetch_body=") "true")) None tags.

(** ** The data *)

Inductive WebObservationType :=
  | WebObservationTypeDNSLookup
  | WebObservationTypeTCPConnect
  | WebObservationTypeTLSHandshake
  | WebObservationTypeHTTPRoundTrip.

(** The [int64] of a type, by which the types are compared. *)
Definition type_rank (t : WebObservationType) : Z :=
  match t with
  | WebObservationTypeDNSLookup => 0
  | WebObservationTypeTCPConnect => 1
  | WebObservationTypeTLSHandshake => 2
  | WebObservationTypeHTTPRoundTrip => 3
  end.

Definition IPAddressOriginDNS : string := "dns".
Definition IPAddressOriginTH : string := "th".

Record WebObservation := mkObs {
  TagDepth : option Z;
  Type_ : WebObservationType;
  Failure : option string;
  TransactionID : Z;
  TagFetchBody : option bool;
  DNSTransactionID : option Z;
  DNSDomain : option string;
  DNSLookupFailure : option string;
  DNSQueryType : option string;
  DNSEngine : option string;
  DNSResolvedAddrs : option (Set_ string);
  IPAddressOrigin : option string;
  IPAddress : option string;
  IPAddressASN : option Z;
  IPAddressBogon : option bool;
  EndpointTransactionID : option Z;
  EndpointProto : option string;
  EndpointPort : option string;
  EndpointAddress : option string;
  TCPConnectFailure : option string;
  TLSHandshakeFailure : option string;
  TLSServerName : option string;
  HTTPRequestURL : option string;
  HTTPFailure : option string;
  HTTPResponseStatusCode : option Z;
  HTTPResponseBodyLength : option Z;
  HTTPResponseBodyIsTruncated : option bool;
  HTTPResponseHeadersKeys : option (gmap string bool);
  HTTPResponseLocation : option string;
  HTTPResponseTitle : option string;
  HTTPResponseIsFinal : option bool;
  ControlDNSDomain : option string;
  ControlDNSLookupFailure : option string;
  ControlDNSResolvedAddrs : option (Set_ string);
  ControlTCPConnectFailure : option string;
  ControlTLSHandshakeFailure : option string;
  ControlHTTPFailure : option string;
  ControlHTTPResponseStatusCode : option Z;
  ControlHTTPResponseBodyLength : option Z;
  ControlHTTPResponseHeadersKeys : option (gmap string bool);
  ControlHTTPResponseTitle : option string;
}.

(** [&WebObservation{}] *)
Definition zeroObs : WebObservation :=
  mkObs None WebObservationTypeDNSLookup None 0 None None None None None None None None None None
    None None None None None None None None None None None None None None None None None None None
    None None None None None None None None.

Definition utilsDNSLookupFailureIsDNSNoAnswerForAAAA (obs : WebObservation) : bool :=
  String.eqb (UnwrapOr (DNSQueryType obs) "") "AAAA" &&
  String.eqb (UnwrapOr (DNSLookupFailure obs) "") FailureDNSNoAnswer.

Definition utilsDNSEngineIsDNSOverHTTPS (obs : WebObservation) : bool :=
  String.eqb (UnwrapOr (DNSEngine obs) "") "doh".

Definition utilsTCPConnectFailureSeemsMisconfiguredIPv6 (obs : WebObservation) : bool :=
  let failure := UnwrapOr (TCPConnectFailure obs) "" in
  if String.eqb failure FailureNetworkUnreachable || String.eqb failure FailureHostUnreachable then
    match IsIPv6 (UnwrapOr (IPAddress obs) "") with
    | Val isv6 => isv6
    | Err _ => false
    end
  else false.

Record WebObservationsControlExpectations := {
  DNSAddresses : Set_ string;
  FinalResponseFailure : option string;
}.

Record WebObservationsContainer := mkContainer {
  DNSLookupFailures : list WebObservation;
  DNSLookupSuccesses : list WebObservation;
  KnownTCPEndpoints : gmap Z WebObservation;
  ControlExpectations : option WebObservationsControlExpectations;
  knownIPAddresses : gmap string nat;
}.

Definition NewWebObservationsContainer : WebObservationsContainer :=
  mkContainer [] [] ∅ None ∅.

(** ** Ingestion *)

Section ingest.
Context `{RangeOrder} `{UnicodeTables}.
Implicit Types (c : WebObservationsContainer) (lookupper : GeoIPASNLookupper).

Definition ingestDNSLookupFailures c (evs : list ArchivalDNSLookupResult) :
    WebObservationsContainer :=
  foldl (λ c ev,
    match dns_Failure ev with
    | None => c
    | Some _ =>
        let failure := Some (utilsStringPointerToString (dns_Failure ev)) in
        let obs :=
          zeroObs <| Type_ := WebObservationTypeDNSLookup |>
            <| Failure := failure |>
            <| TransactionID := dns_TransactionID ev |>
            <| DNSTransactionID := Some (dns_TransactionID ev) |>
            <| DNSDomain := Some (dns_Hostname ev) |>
            <| DNSLookupFailure := failure |>
            <| DNSQueryType := Some (dns_QueryType ev) |>
            <| DNSEngine := Some (dns_Engine ev) |>
            <| TagDepth := utilsExtractTagDepth (dns_Tags ev) |> in
        c <| DNSLookupFailures ::= λ l, l ++ [obs] |>
    end) c evs.

(** The observation of one address of a successful lookup. *)
Definition dns_success_obs lookupper (ev : ArchivalDNSLookupResult) (addrs : Set_ string)
    (ipAddr : string) : WebObservation :=
  zeroObs <| Failure := Some "" |>
    <| Type_ := WebObservationTypeDNSLookup |>
    <| TransactionID := dns_TransactionID ev |>
    <| DNSTransactionID := Some (dns_TransactionID ev) |>
    <| DNSDomain := Some (dns_Hostname ev) |>
    <| DNSLookupFailure := Some "" |>
    <| DNSQueryType := Some (dns_QueryType ev) |>
    <| DNSEngine := Some (dns_Engine ev) |>
    <| DNSResolvedAddrs := Some addrs |>
    <| IPAddressOrigin := Some IPAddressOriginDNS |>
    <| IPAddress := Some ipAddr |>
    <| IPAddressASN := utilsGeoipxLookupASN lookupper ipAddr |>
    <| IPAddressBogon := Some (IsBogon ipAddr) |>
    <| TagDepth := utilsExtractTagDepth (dns_Tags ev) |>.

Definition ingest_address lookupper (ev : ArchivalDNSLookupResult) (addrs : Set_ string) c
    (ipAddr : string) : WebObservationsContainer :=
  let obs := dns_success_obs lookupper ev addrs ipAddr in
  let index := length (DNSLookupSuccesses c) in
  let c := c <| DNSLookupSuccesses ::= λ l, l ++ [obs] |> in
  match knownIPAddresses c !! ipAddr with
  | Some _ => c
  | None => c <| knownIPAddresses ::= <[ipAddr := index]> |>
  end.

Definition ingestDNSLookupSuccesses lookupper c (evs : list ArchivalDNSLookupResult) :
    WebObservationsContainer :=
  foldl (λ c ev,
    match dns_Failure ev with
    | Some _ => c
    | None =>
        let addrs := NewSet (utilsResolvedAddresses (dns_Answers ev)) in
        foldl (ingest_address lookupper ev addrs) c (Keys addrs)
    end) c evs.

Definition IngestDNSLookupEvents lookupper c (evs : list ArchivalDNSLookupResult) :
    WebObservationsContainer :=
  ingestDNSLookupSuccesses lookupper (ingestDNSLookupFailures c evs) evs.

Definition IngestTCPConnectEvents lookupper c (evs : list ArchivalTCPConnectResult) :
    WebObservationsContainer :=
  foldl (λ c ev,
    (* create or fetch a record *)
    let obs :=
      match (i ← knownIPAddresses c !! tcp_IP ev; DNSLookupSuccesses c !! i) with
      | Some obs => obs
      | None =>
          zeroObs <| IPAddress := Some (tcp_IP ev) |>
            <| IPAddressASN := utilsGeoipxLookupASN lookupper (tcp_IP ev) |>
            <| IPAddressBogon := Some (IsBogon (tcp_IP ev)) |>
      end in
    let portString := Itoa (tcp_Port ev) in
    let failure := Some (utilsStringPointerToString (status_Failure (tcp_Status ev))) in
    let obs :=
      zeroObs <| Type_ := WebObservationTypeTCPConnect |>
        <| Failure := failure |>
        <| TransactionID := tcp_TransactionID ev |>
        <| DNSTransactionID := DNSTransactionID obs |>
        <| DNSDomain := DNSDomain obs |>
        <| DNSLookupFailure := DNSLookupFailure obs |>
        <| DNSResolvedAddrs := DNSResolvedAddrs obs |>
        <| IPAddressOrigin := IPAddressOrigin obs |>
        <| IPAddress := IPAddress obs |>
        <| IPAddressASN := IPAddressASN obs |>
        <| IPAddressBogon := IPAddressBogon obs |>
        <| EndpointTransactionID := Some (tcp_TransactionID ev) |>
        <| EndpointProto := Some "tcp" |>
        <| EndpointPort := Some portString |>
        <| EndpointAddress := Some (JoinHostPort (tcp_IP ev) portString) |>
        <| TCPConnectFailure := failure |>
        <| TagDepth := utilsExtractTagDepth (tcp_Tags ev) |>
        <| TagFetchBody := utilsExtractTagFetchBody (tcp_Tags ev) |> in
    c <| KnownTCPEndpoints ::= <[tcp_TransactionID ev := obs]> |>) c evs.

Definition IngestTLSHandshakeEvents c (evs : list ArchivalTLSOrQUICHandshakeResult) :
    WebObservationsContainer :=
  foldl (λ c ev,
    match KnownTCPEndpoints c !! tls_TransactionID ev with
    | None => c
    | Some obs =>
        let failure := Some (utilsStringPointerToString (tls_Failure ev)) in
        let obs :=
          obs <| Type_ := WebObservationTypeTLSHandshake |>
            <| Failure := failure |>
            <| TLSHandshakeFailure := failure |>
            <| TLSServerName := Some (tls_ServerName ev) |> in
        c <| KnownTCPEndpoints ::= <[tls_TransactionID ev := obs]> |>
    end) c evs.

Definition IngestHTTPRoundTripEvents c (evs : list ArchivalHTTPRequestResult) :
    WebObservationsContainer :=
  foldl (λ c ev,
    match KnownTCPEndpoints c !! http_TransactionID ev with
    | None => c
    | Some obs =>
        let failure := Some (utilsStringPointerToString (http_Failure ev)) in
        let obs :=
          obs <| Type_ := WebObservationTypeHTTPRoundTrip |>
            <| Failure := failure |>
            <| HTTPRequestURL := Some (req_URL (http_Request ev)) |>
            <| HTTPFailure := failure |> in
        let resp := http_Response ev in
        let obs :=
          match http_Failure ev with
          | Some _ => obs
          | None =>
              obs <| HTTPResponseStatusCode := Some (resp_Code resp) |>
                <| HTTPResponseBodyLength := Some (Z.of_nat (String.length (resp_Body resp))) |>
                <| HTTPResponseBodyIsTruncated := Some (resp_BodyIsTruncated resp) |>
                <| HTTPResponseHeadersKeys := utilsExtractHTTPHeaderKeys (resp_Headers resp) |>
                <| HTTPResponseTitle := Some (WebGetTitle (resp_Body resp)) |>
                <| HTTPResponseLocation := utilsExtractHTTPLocation (resp_Headers resp) |>
                <| HTTPResponseIsFinal :=
                     utilsDetermineWhetherHTTPResponseIsFinal (resp_Code resp) |>
          end in
        c <| KnownTCPEndpoints ::= <[http_TransactionID ev := obs]> |>
    end) c evs.
End ingest.

(** ** Control messages

    A loop over a slice of pointers updates every observation in place; the
    loop over [KnownTCPEndpoints] does so in the order of the iteration. *)

Fixpoint for_each_obs (body : WebObservation → outcome WebObservation)
    (l : list WebObservation) : outcome (list WebObservation) :=
  match l with
  | [] => Ok []
  | obs :: l => obs ← body obs; l ← for_each_obs body l; Ok (obs :: l)
  end.

Definition for_each_endpoint `{RangeOrder} (site : nat)
    (body : WebObservation → outcome WebObservation) (m : gmap Z WebObservation) :
    outcome (gmap Z WebObservation) :=
  foldM (λ m '(txid, obs), obs ← body obs; Ok (<[txid := obs]> m)) m (range_map site m).

Section control.
Context `{RangeOrder}.
Implicit Types (c : WebObservationsContainer) (resp : THResponse).

Definition xref_dns_query (inputDomain : string) resp (obs : WebObservation) :
    outcome WebObservation :=
  domain ← Unwrap (DNSDomain obs);
  if negb (String.eqb domain inputDomain) then Ok obs
  else
    let obs :=
      obs <| ControlDNSDomain := Some inputDomain |>
        <| ControlDNSLookupFailure :=
             Some (utilsStringPointerToString (thdns_Failure (th_DNS resp))) |> in
    match thdns_Failure (th_DNS resp) with
    | Some _ => Ok obs
    | None => Ok (obs <| ControlDNSResolvedAddrs := Some (NewSet (thdns_Addrs (th_DNS resp))) |>)
    end.

Definition controlXrefDNSQueries (inputDomain : string) resp c : outcome WebObservationsContainer :=
  failures ← for_each_obs (xref_dns_query inputDomain resp) (DNSLookupFailures c);
  successes ← for_each_obs (xref_dns_query inputDomain resp) (DNSLookupSuccesses c);
  Ok (c <| DNSLookupFailures := failures |> <| DNSLookupSuccesses := successes |>).

Definition match_dns_result (inputDomain : string) resp (thAddrMap : gmap string bool)
    (obs : WebObservation) : outcome WebObservation :=
  let domain := UnwrapOr (DNSDomain obs) "" in
  addr ← Unwrap (IPAddress obs);
  if String.eqb domain "" && UnwrapOr (thAddrMap !! addr) false then
    Ok (obs <| IPAddressOrigin := Some IPAddressOriginTH |>
          <| ControlDNSDomain := Some inputDomain |>
          <| ControlDNSLookupFailure :=
               Some (utilsStringPointerToString (thdns_Failure (th_DNS resp))) |>
          <| ControlDNSResolvedAddrs := Some (NewSet (thdns_Addrs (th_DNS resp))) |>)
  else if String.eqb domain "" || negb (String.eqb domain inputDomain) then Ok obs
  else
    let obs :=
      obs <| ControlDNSDomain := Some inputDomain |>
        <| ControlDNSLookupFailure :=
             Some (utilsStringPointerToString (thdns_Failure (th_DNS resp))) |> in
    match thdns_Failure (th_DNS resp) with
    | Some _ => Ok obs
    | None => Ok (obs <| ControlDNSResolvedAddrs := Some (NewSet (thdns_Addrs (th_DNS resp))) |>)
    end.

Definition controlMatchDNSLookupResults (inputDomain : string) resp c :
    outcome WebObservationsContainer :=
  let thAddrMap := foldl (λ m addr, <[addr := true]> m) ∅ (thdns_Addrs (th_DNS resp)) in
  endpoints ← for_each_endpoint 4 (match_dns_result inputDomain resp thAddrMap) (KnownTCPEndpoints c);
  Ok (c <| KnownTCPEndpoints := endpoints |>).

Definition xref_tcp_failure resp (obs : WebObservation) : outcome WebObservation :=
  endpointAddress ← Unwrap (EndpointAddress obs);
  match th_TCPConnect resp !! endpointAddress with
  | None => Ok obs
  | Some tcp =>
      Ok (obs <| ControlTCPConnectFailure := Some (utilsStringPointerToString (thtcp_Failure tcp)) |>)
  end.

Definition controlXrefTCPIPFailures resp c : outcome WebObservationsContainer :=
  endpoints ← for_each_endpoint 5 (xref_tcp_failure resp) (KnownTCPEndpoints c);
  Ok (c <| KnownTCPEndpoints := endpoints |>).

Definition xref_tls_failure resp (obs : WebObservation) : outcome WebObservation :=
  endpointAddress ← Unwrap (EndpointAddress obs);
  if IsNone (TLSServerName obs) then Ok obs
  else
    serverName ← Unwrap (TLSServerName obs);
    match th_TLSHandshake resp !! endpointAddress with
    | None => Ok obs
    | Some tls =>
        if negb (String.eqb (thtls_ServerName tls) serverName) then Ok obs
        else Ok (obs <| ControlTLSHandshakeFailure :=
                          Some (utilsStringPointerToString (thtls_Failure tls)) |>)
    end.

Definition controlXrefTLSFailures resp c : outcome WebObservationsContainer :=
  endpoints ← for_each_endpoint 6 (xref_tls_failure resp) (KnownTCPEndpoints c);
  Ok (c <| KnownTCPEndpoints := endpoints |>).

Definition set_http_expectation resp (obs : WebObservation) : outcome WebObservation :=
  let http := th_HTTPRequest resp in
  let obs := obs <| ControlHTTPFailure := Some (utilsStringPointerToString (thhttp_Failure http)) |> in
  match thhttp_Failure http with
  | Some _ => Ok obs
  | None =>
      Ok (obs <| ControlHTTPResponseStatusCode := Some (thhttp_StatusCode http) |>
            <| ControlHTTPResponseBodyLength := Some (thhttp_BodyLength http) |>
            <| ControlHTTPResponseHeadersKeys := utilsExtractHTTPHeaderKeys (thhttp_Headers http) |>
            <| ControlHTTPResponseTitle := Some (thhttp_Title http) |>)
  end.

Definition controlSetHTTPFinalResponseExpectation resp c : outcome WebObservationsContainer :=
  let c := c <| ControlExpectations := Some {|
      DNSAddresses := NewSet (thdns_Addrs (th_DNS resp));
      FinalResponseFailure :=
        Some (utilsStringPointerToString (thhttp_Failure (th_HTTPRequest resp))) |} |> in
  failures ← for_each_obs (set_http_expectation resp) (DNSLookupFailures c);
  successes ← for_each_obs (set_http_expectation resp) (DNSLookupSuccesses c);
  endpoints ← for_each_endpoint 7 (set_http_expectation resp) (KnownTCPEndpoints c);
  Ok (c <| DNSLookupFailures := failures |> <| DNSLookupSuccesses := successes |>
        <| KnownTCPEndpoints := endpoints |>).

(** The error is the one of [url.Parse]. *)
Definition IngestControlMessages (req : THRequest) resp c :
    outcome (result string WebObservationsContainer) :=
  match url_Parse (thr_HTTPRequest req) with
  | None => Ok (Err "parse error")
  | Some URL =>
      let inputDomain := Hostname URL in
      c ← controlXrefDNSQueries inputDomain resp c;
      c ← controlMatchDNSLookupResults inputDomain resp c;
      c ← controlXrefTCPIPFailures resp c;
      c ← controlXrefTLSFailures resp c;
      c ← controlSetHTTPFinalResponseExpectation resp c;
      Ok (Val c)
  end.
End control.

Definition ErrNoTestKeys : string := "minipipeline: no test keys".

(** Each of the four loops reads its entry before anything else, and panics when it is nil. *)
Definition IngestWebMeasurement `{RangeOrder} `{UnicodeTables} (lookupper : GeoIPASNLookupper)
    (meas : WebMeasurement) : outcome (result string WebObservationsContainer) :=
  match meas_TestKeys meas with
  | None => Ok (Err ErrNoTestKeys)
  | Some tk =>
      let container := NewWebObservationsContainer in
      queries ← deref_all (tk_Queries tk);
      let container := IngestDNSLookupEvents lookupper container queries in
      connects ← deref_all (tk_TCPConnect tk);
      let container := IngestTCPConnectEvents lookupper container connects in
      handshakes ← deref_all (tk_TLSHandshakes tk);
      let container := IngestTLSHandshakeEvents container handshakes in
      requests ← deref_all (tk_Requests tk);
      let container := IngestHTTPRoundTripEvents container requests in
      if negb (IsNone (tk_XControlRequest tk)) && negb (IsNone (tk_Control tk)) then
        req ← Unwrap (tk_XControlRequest tk); resp ← Unwrap (tk_Control tk);
        IngestControlMessages req resp container
      else Ok (Val container)
  end.

(** ** The loops, when no turn panics *)

Section loops.
Context `{RangeOrder}.

Lemma for_each_obs_pure body l :
  (∀ obs, obs ∈ l → is_Ok (body obs)) →
  for_each_obs body l = Ok ((λ obs, value_or obs (body obs)) <$> l).
Proof.
  induction l as [|obs l IH]; intros Hb; [done|]. simpl.
  rewrite (value_or_Ok obs (body obs)) at 1 by (apply Hb; set_solver). simpl.
  rewrite IH by set_solver. done.
Qed.

Lemma for_each_endpoint_pure site body (m : gmap Z WebObservation) :
  (∀ k obs, m !! k = Some obs → is_Ok (body obs)) →
  for_each_endpoint site body m = Ok ((λ obs, value_or obs (body obs)) <$> m).
Proof.
  intros Hb. unfold for_each_endpoint.
  rewrite (foldM_pure _ (λ m '(k, obs), <[k := value_or obs (body obs)]> m)).
  - f_equal. apply (foldl_insert_perm (λ obs, value_or obs (body obs))), range_map_perm.
  - intros m' [k obs] Hk%range_map_elem.
    by rewrite (value_or_Ok obs (body obs)) at 1 by (by eapply Hb).
Qed.

(** The keys of a header map, whatever the order. *)
Lemma utilsExtractHTTPHeaderKeys_spec input :
  utilsExtractHTTPHeaderKeys input = Some ((λ _, true) <$> input).
Proof.
  unfold utilsExtractHTTPHeaderKeys. f_equal. apply map_eq. intros k.
  replace (foldl _ ∅ (range_map 2 input))
    with (foldl (λ m key, <[key := true]> m) (∅ : gmap string bool) (range_map 2 input).*1).
  2: { generalize (∅ : gmap string bool). induction (range_map 2 input) as [|[k' x] l IH];
       intros m; simpl; [done|apply IH]. }
  rewrite lookup_adds, lookup_fmap, lookup_empty.
  case_bool_decide as Hk.
  - apply list_elem_of_fmap in Hk as ([k' x] & -> & Hk%range_map_elem). simpl. by rewrite Hk.
  - destruct (input !! k) as [x|] eqn:E; [|done]. exfalso. apply Hk.
    apply list_elem_of_fmap. exists (k, x). by rewrite range_map_elem.
Qed.

(** The location, when at most one header has that name. *)
Definition one_location `{UnicodeTables} (input : gmap string string) : Prop :=
  ∀ k1 k2, is_Some (input !! k1) → is_Some (input !! k2) →
    ToLower k1 = "location" → ToLower k2 = "location" → k1 = k2.

Lemma first_location_Some `{UnicodeTables} l v :
  first_location l = Some v → ∃ k, (k, v) ∈ l ∧ ToLower k = "location".
Proof.
  induction l as [|[k x] l IH]; simpl; [done|].
  destruct (String.eqb_spec (ToLower k) "location").
  - intros [= <-]. exists k. split; [set_solver|done].
  - intros (k' & ? & ?)%IH. exists k'. split; [set_solver|done].
Qed.

Lemma first_location_None `{UnicodeTables} l k v :
  first_location l = None → (k, v) ∈ l → ToLower k ≠ "location".
Proof.
  induction l as [|[k' x] l IH]; simpl; [set_solver|].
  destruct (String.eqb_spec (ToLower k') "location"); [done|].
  intros Hf [[= -> ->]|Hin]%elem_of_cons; [done|by apply IH].
Qed.

Lemma utilsExtractHTTPLocation_spec `{UnicodeTables} input v :
  one_location input →
  utilsExtractHTTPLocation input = Some v ↔
    ∃ k, input !! k = Some v ∧ ToLower k = "location".
Proof.
  intros Hone. unfold utilsExtractHTTPLocation. split.
  - intros (k & Hk%range_map_elem & Hl)%first_location_Some. by exists k.
  - intros (k & Hk & Hl). destruct (first_location _) as [v'|] eqn:E.
    + apply first_location_Some in E as (k' & Hk'%range_map_elem & Hl').
      assert (k = k') as <- by (apply Hone; eauto). congruence.
    + by apply (first_location_None _ k v) in E; [|apply range_map_elem].
Qed.
End loops.

Lemma utilsExtractHTTPLocation_order `{UnicodeTables} `{o1 : RangeOrder} `{o2 : RangeOrder} input :
  one_location input →
  @utilsExtractHTTPLocation o1 _ input = @utilsExtractHTTPLocation o2 _ input.
Proof.
  intros Hone. apply option_eq. intros v. by rewrite !utilsExtractHTTPLocation_spec.
Qed.
