(* ===== verification/Samples.v ===== *)
(** * Sample measurements

    Concrete inputs on which the theorems' hypotheses hold: a page on
    [www.example.com] measured over HTTP (redirected) and HTTPS. *)
From S2P Require Import Prelude Failures GoString GoFloat Archival.

(** A GeoIP database that knows two networks. *)
Definition sample_asn (ip : string) : result string (Z * string) :=
  if HasPrefix ip "93.184." then Val (15133, "EDGECAST")
  else if HasPrefix ip "104.16." then Val (13335, "CLOUDFLARE")
  else Err "geoip: unknown address".

Definition sample_answer (ip : string) : ArchivalDNSAnswer :=
  {| ans_ASN := 0; ans_ASOrgName := ""; ans_AnswerType := "A"; ans_Hostname := "";
     ans_IPv4 := ip; ans_IPv6 := ""; ans_TTL := None |}.

Definition sample_query (txid : Z) (engine : string) (failure : option string) (ips : list string) :
    ArchivalDNSLookupResult :=
  {| dns_Answers := map sample_answer ips; dns_Engine := engine; dns_Failure := failure;
     dns_GetaddrinfoError := 0; dns_Hostname := "www.example.com"; dns_QueryType := "A";
     dns_RawResponse := ""; dns_Rcode := 0; dns_ResolverHostname := None; dns_ResolverPort := None;
     dns_ResolverAddress := ""; dns_T0 := float64_zero; dns_T := float64_of_int txid;
     dns_Tags := ["depth=0"]; dns_TransactionID := txid |}.

Definition sample_connect (txid : Z) (ip : string) (port : Z) (failure : option string)
    (tags : list string) : ArchivalTCPConnectResult :=
  {| tcp_IP := ip; tcp_Port := port;
     tcp_Status := {| status_Blocked := None; status_Failure := failure;
                      status_Success := match failure with None => true | Some _ => false end |};
     tcp_T0 := float64_zero; tcp_T := float64_of_int txid; tcp_Tags := tags; tcp_TransactionID := txid |}.

Definition sample_handshake (txid : Z) (failure : option string) : ArchivalTLSOrQUICHandshakeResult :=
  {| tls_Network := "tcp"; tls_Address := "93.184.216.34:443"; tls_CipherSuite := "";
     tls_Failure := failure; tls_SoError := None; tls_NegotiatedProtocol := ""; tls_NoTLSVerify := false;
     tls_PeerCertificates := []; tls_ServerName := "www.example.com"; tls_OuterServerName := "";
     tls_ECHConfig := ""; tls_T0 := float64_zero; tls_T := float64_of_int txid;
     tls_Tags := ["depth=0"]; tls_TLSVersion := ""; tls_TransactionID := txid |}.

Definition sample_request (txid : Z) (url : string) (failure : option string) (code : Z)
    (headers : gmap string string) (body : string) : ArchivalHTTPRequestResult :=
  {| http_Network := "tcp"; http_Address := ""; http_ALPN := ""; http_Failure := failure;
     http_Request := {| req_Body := ""; req_BodyIsTruncated := false; req_HeadersList := [];
       req_Headers := ∅; req_Method := "GET";
       req_Tor := {| tor_ExitIP := None; tor_ExitName := None; tor_IsTor := false |};
       req_Transport := "tcp"; req_URL := url |};
     http_Response := {| resp_Body := body; resp_BodyIsTruncated := false; resp_Code := code;
       resp_HeadersList := []; resp_Headers := headers; resp_Locations := [] |};
     http_T0 := float64_zero; http_T := float64_of_int txid; http_Tags := ["depth=0"];
     http_TransactionID := txid |}.

Definition sample_th_request : THRequest :=
  {| thr_HTTPRequest := "http://www.example.com/"; thr_HTTPRequestHeaders := ∅;
     thr_TCPConnect := []; thr_XQUICEnabled := false |}.

Definition sample_th_response : THResponse :=
  {| th_TCPConnect := {[ "93.184.216.34:443" := {| thtcp_Status := true; thtcp_Failure := None |};
                        "93.184.216.34:80" := {| thtcp_Status := true; thtcp_Failure := None |} ]};
     th_TLSHandshake := {[ "93.184.216.34:443" :=
       {| thtls_ServerName := "www.example.com"; thtls_Status := true; thtls_Failure := None |} ]};
     th_QUICHandshake := ∅;
     th_HTTPRequest := {| thhttp_BodyLength := 60; thhttp_DiscoveredH3Endpoint := "";
       thhttp_Failure := None; thhttp_Title := "Example Domain";
       thhttp_Headers := {[ "Server" := "ECS"; "X-Cache" := "HIT" ]}; thhttp_StatusCode := 200 |};
     th_HTTP3Request := None;
     th_DNS := {| thdns_Failure := None; thdns_Addrs := ["93.184.216.34"]; thdns_ASNs := [] |};
     th_IPInfo := ∅ |}.

Definition sample_test_keys : WebMeasurementTestKeys :=
  {| tk_Control := Some sample_th_response;
     tk_NetworkEvents := [];
     tk_Queries := Some <$>
       [ sample_query 1 "getaddrinfo" None ["93.184.216.34"];
         sample_query 2 "udp" (Some FailureDNSNXDOMAINError) [];
         sample_query 3 "doh" None ["93.184.216.34"; "10.0.0.1"] ];
     tk_Requests := Some <$>
       [ sample_request 5 "https://www.example.com/" None 200 {[ "Server" := "ECS"; "X-Cache" := "HIT" ]}
           "<title>Example Domain</title>" ];
     tk_TCPConnect := Some <$>
       [ sample_connect 4 "93.184.216.34" 80 (Some FailureConnectionReset) ["depth=0"; "fetch_body=false"];
         sample_connect 5 "93.184.216.34" 443 None ["depth=0"; "fetch_body=true"] ];
     tk_TLSHandshakes := [ Some (sample_handshake 5 None) ];
     tk_QUICHandshakes := [];
     tk_XControlRequest := Some sample_th_request |}.

Definition sample_meas : WebMeasurement :=
  {| meas_Input := "http://www.example.com/"; meas_TestKeys := Some sample_test_keys |}.

(** A lookup that resolves a public address and a bogon. *)
Definition sample_mixed_meas : WebMeasurement :=
  {| meas_Input := "http://www.example.com/";
     meas_TestKeys := Some {|
       tk_Control := None; tk_NetworkEvents := [];
       tk_Queries := [ Some (sample_query 1 "getaddrinfo" None ["1.1.1.1"; "10.10.34.35"]) ];
       tk_Requests := []; tk_TCPConnect := []; tk_TLSHandshakes := []; tk_QUICHandshakes := [];
       tk_XControlRequest := None |} |}.
