(* ===== verification/ObservationFacts.v ===== *)
(** * Ingestion: what the container holds

    The invariant that every step of the ingestion keeps, the absence of
    panics, and the independence from the order of map iterations. *)
From S2P Require Import Prelude Failures GoString GoFloat GoNet GoURL Archival Bogon WebTitle.
From S2P Require Import PipeSet.
From S2P Require Import Observation Samples.

(** ** The invariant *)

(** An observation of [DNSLookupFailures] or [DNSLookupSuccesses]. *)
Record dns_wf (obs : WebObservation) : Prop := {
  dns_type : Type_ obs = WebObservationTypeDNSLookup;
  dns_txid : DNSTransactionID obs = Some (TransactionID obs);
  dns_domain : is_Some (DNSDomain obs);
  dns_failure : is_Some (DNSLookupFailure obs);
  dns_overall : Failure obs = DNSLookupFailure obs;
}.

(** One of [DNSLookupSuccesses]: the address is among the resolved ones. *)
Record success_wf (obs : WebObservation) : Prop := {
  success_dns : dns_wf obs;
  success_failure : DNSLookupFailure obs = Some "";
  success_addrs : ∃ addrs addr, DNSResolvedAddrs obs = Some addrs ∧ IPAddress obs = Some addr ∧
    set_Contains addrs addr = true ∧ IPAddressBogon obs = Some (IsBogon addr);
}.

(** The overall failure of an endpoint is the one of its last operation. *)
Definition last_failure (obs : WebObservation) : option string :=
  match Type_ obs with
  | WebObservationTypeDNSLookup => DNSLookupFailure obs
  | WebObservationTypeTCPConnect => TCPConnectFailure obs
  | WebObservationTypeTLSHandshake => TLSHandshakeFailure obs
  | WebObservationTypeHTTPRoundTrip => HTTPFailure obs
  end.

(** An observation of [KnownTCPEndpoints], registered with the ID [txid]. *)
Record endpoint_wf (txid : Z) (obs : WebObservation) : Prop := {
  ep_type : Type_ obs ≠ WebObservationTypeDNSLookup;
  ep_txid : TransactionID obs = txid;
  ep_endpoint : EndpointTransactionID obs = Some txid;
  ep_address : is_Some (EndpointAddress obs);
  ep_ip : is_Some (IPAddress obs);
  ep_bogon : IPAddressBogon obs = IsBogon <$> IPAddress obs;
  ep_tcp : is_Some (TCPConnectFailure obs);
  ep_failure : is_Some (last_failure obs);
  ep_overall : Failure obs = last_failure obs;
  ep_tls : IsNone (TLSServerName obs) = IsNone (TLSHandshakeFailure obs);
}.

(** [knownIPAddresses] points to the first lookup that resolved the address. *)
Definition known_wf (successes : list WebObservation) (known : gmap string nat) : Prop :=
  ∀ addr, known !! addr = fst <$> list_find (λ obs, IPAddress obs = Some addr) successes.

Record container_wf (c : WebObservationsContainer) : Prop := {
  wf_failures : Forall dns_wf (DNSLookupFailures c);
  wf_successes : Forall success_wf (DNSLookupSuccesses c);
  wf_endpoints : ∀ txid obs, KnownTCPEndpoints c !! txid = Some obs → endpoint_wf txid obs;
  wf_known : known_wf (DNSLookupSuccesses c) (knownIPAddresses c);
}.

(** ** Events keep the invariant *)

Lemma list_find_snoc {A} (P : A → Prop) `{∀ x, Decision (P x)} l x :
  list_find P (l ++ [x]) =
    match list_find P l with
    | Some r => Some r
    | None => if decide (P x) then Some (length l, x) else None
    end.
Proof.
  induction l as [|y l IH]; simpl; [by case_decide|].
  destruct (decide (P y)); [done|]. rewrite IH.
  destruct (list_find P l) as [[]|]; simpl; [done|]. by destruct (decide (P x)).
Qed.

Lemma known_wf_snoc successes known obs addr :
  known_wf successes known → IPAddress obs = Some addr →
  known_wf (successes ++ [obs])
    (match known !! addr with Some _ => known | None => <[addr := length successes]> known end).
Proof.
  intros Hk Ha a. rewrite list_find_snoc, Ha. pose proof (Hk a) as Hka. pose proof (Hk addr) as Hkaddr.
  destruct (decide (a = addr)) as [->|Hne].
  - rewrite decide_True by done. destruct (known !! addr) eqn:E.
    + rewrite E. rewrite Hkaddr. by destruct (list_find _ successes).
    + rewrite lookup_insert_eq. by destruct (list_find _ successes).
  - rewrite decide_False by congruence.
    assert (Hl : (match known !! addr with Some _ => known | None => <[addr:=length successes]> known end)
      !! a = known !! a) by (destruct (known !! addr); [done|by apply lookup_insert_ne]).
    rewrite Hl, Hka. by destruct (list_find _ successes).
Qed.

Lemma known_wf_fmap f successes known :
  (∀ obs, IPAddress (f obs) = IPAddress obs) →
  known_wf (f <$> successes) known ↔ known_wf successes known.
Proof.
  intros Hf. unfold known_wf.
  assert (Heq : ∀ addr, fst <$> list_find (λ obs, IPAddress obs = Some addr) (f <$> successes) =
                        fst <$> list_find (λ obs, IPAddress obs = Some addr) successes).
  { intros addr. induction successes as [|obs l IH]; csimpl; [done|]. rewrite Hf.
    case_decide; csimpl; [done|].
    destruct (list_find _ l) as [[]|], (list_find _ (f <$> l)) as [[]|]; by simplify_eq/=. }
  split; intros Hk addr; by rewrite Hk, Heq.
Qed.

(** Events that only change [KnownTCPEndpoints]. *)
Lemma container_wf_endpoint c txid obs :
  container_wf c → endpoint_wf txid obs →
  container_wf (c <| KnownTCPEndpoints ::= <[txid := obs]> |>).
Proof.
  intros [Hf Hs He Hk] Hobs. split; try done. intros k o. cbn.
  rewrite lookup_insert_Some. intros [[<- <-]|[_ Ho]]; eauto.
Qed.

Section events.
Context `{RangeOrder} `{UnicodeTables}.

Lemma ingestDNSLookupFailures_wf c evs :
  container_wf c → container_wf (ingestDNSLookupFailures c evs).
Proof.
  intros Hc. apply (foldl_inv _ container_wf); [done|]. clear. intros c ev _ [Hf Hs He Hk].
  destruct (dns_Failure ev) as [failure|]; [|done]. split; try done.
  cbn. apply Forall_app. split; [done|]. constructor; [|done]. by split; cbn; eauto.
Qed.

Lemma ingest_address_wf lookupper ev addrs c ipAddr :
  set_Contains addrs ipAddr = true → container_wf c →
  container_wf (ingest_address lookupper ev addrs c ipAddr).
Proof.
  intros Hin [Hf Hs He Hk]. unfold ingest_address.
  assert (Hobs : success_wf (dns_success_obs lookupper ev addrs ipAddr)).
  { split; [by split; cbn; eauto|done|]. exists addrs, ipAddr. by split_and!. }
  pose proof (known_wf_snoc _ _ _ ipAddr Hk
    (eq_refl : IPAddress (dns_success_obs lookupper ev addrs ipAddr) = _)) as Hk'.
  assert (Hs' : Forall success_wf (DNSLookupSuccesses c ++ [dns_success_obs lookupper ev addrs ipAddr])).
  { apply Forall_app. split; [done|]. by constructor. }
  destruct c as [failures successes endpoints expectations known]. cbn in *.
  by destruct (known !! ipAddr) eqn:E.
Qed.

Lemma ingestDNSLookupSuccesses_wf lookupper c evs :
  container_wf c → container_wf (ingestDNSLookupSuccesses lookupper c evs).
Proof.
  intros Hc. apply (foldl_inv _ container_wf); [done|]. clear. intros c ev _ Hc.
  destruct (dns_Failure ev); [done|]. apply (foldl_inv _ container_wf); [done|].
  intros c' addr Haddr Hc'. apply ingest_address_wf; [|done]. by apply elem_of_Keys.
Qed.

Lemma IngestTCPConnectEvents_wf lookupper c evs :
  container_wf c → container_wf (IngestTCPConnectEvents lookupper c evs).
Proof.
  intros Hc. apply (foldl_inv _ container_wf); [done|]. clear. intros c ev _ Hc. apply container_wf_endpoint; [done|].
  set (obs := match _ with Some obs => obs | None => _ end).
  assert (Hobs : is_Some (IPAddress obs) ∧ IPAddressBogon obs = IsBogon <$> IPAddress obs).
  { subst obs. destruct (knownIPAddresses c !! tcp_IP ev) as [i|]; [|done]. simpl.
    destruct (DNSLookupSuccesses c !! i) as [obs|] eqn:E; [|done].
    destruct (Forall_lookup_1 _ _ _ _ (wf_successes _ Hc) E) as [_ _ (addrs & a & _ & Ha & _ & Hb)].
    rewrite Ha. by split; [eauto|]. }
  clearbody obs. destruct Hobs. by split; cbn; eauto.
Qed.

Lemma IngestTLSHandshakeEvents_wf c evs :
  container_wf c → container_wf (IngestTLSHandshakeEvents c evs).
Proof.
  intros Hc. apply (foldl_inv _ container_wf); [done|]. clear. intros c ev _ Hc.
  destruct (KnownTCPEndpoints c !! _) as [obs|] eqn:E; [|done].
  apply container_wf_endpoint; [done|]. destruct (wf_endpoints _ Hc _ _ E). by split; cbn; eauto.
Qed.

Lemma IngestHTTPRoundTripEvents_wf c evs :
  container_wf c → container_wf (IngestHTTPRoundTripEvents c evs).
Proof.
  intros Hc. apply (foldl_inv _ container_wf); [done|]. clear. intros c ev _ Hc.
  destruct (KnownTCPEndpoints c !! _) as [obs|] eqn:E; [|done].
  apply container_wf_endpoint; [done|]. destruct (wf_endpoints _ Hc _ _ E).
  destruct (http_Failure ev); by split; cbn; eauto.
Qed.
End events.

(** ** The control only fills its own fields *)

(** The fields that come from the probe's measurement; the origin of an
    address is settled with the help of the control. *)
Definition erase_control (obs : WebObservation) : WebObservation :=
  obs <| IPAddressOrigin := None |>
    <| ControlDNSDomain := None |> <| ControlDNSLookupFailure := None |>
    <| ControlDNSResolvedAddrs := None |> <| ControlTCPConnectFailure := None |>
    <| ControlTLSHandshakeFailure := None |> <| ControlHTTPFailure := None |>
    <| ControlHTTPResponseStatusCode := None |> <| ControlHTTPResponseBodyLength := None |>
    <| ControlHTTPResponseHeadersKeys := None |> <| ControlHTTPResponseTitle := None |>.

Definition erase_container (c : WebObservationsContainer) : WebObservationsContainer :=
  mkContainer (erase_control <$> DNSLookupFailures c) (erase_control <$> DNSLookupSuccesses c)
    (erase_control <$> KnownTCPEndpoints c) None (knownIPAddresses c).

Arguments erase_control : simpl never.

(** A step of the control ingestion on one observation: it does not panic and
    it does not touch the fields of the probe. *)
Definition control_step (pre : WebObservation → Prop)
    (body : WebObservation → outcome WebObservation) : Prop :=
  ∀ obs, pre obs → ∃ obs', body obs = Ok obs' ∧ erase_control obs' = erase_control obs.

Lemma control_step_value pre body obs :
  control_step pre body → pre obs →
  is_Ok (body obs) ∧ erase_control (value_or obs (body obs)) = erase_control obs.
Proof. intros Hs Hp. destruct (Hs obs Hp) as (obs' & -> & He). by split; [eexists|]. Qed.

Section steps.
Context `{RangeOrder}.

Ltac step obs := destruct obs; cbn in *; unfold mbind, outcome_bind, Unwrap in *;
  repeat case_match; simplify_eq/=; eexists; split; reflexivity.

Lemma xref_dns_query_step domain resp :
  control_step (λ obs, is_Some (DNSDomain obs)) (xref_dns_query domain resp).
Proof. intros obs [d Hd]. unfold xref_dns_query. rewrite Hd. step obs. Qed.

Lemma match_dns_result_step domain resp m :
  control_step (λ obs, is_Some (IPAddress obs)) (match_dns_result domain resp m).
Proof. intros obs [a Ha]. unfold match_dns_result. rewrite Ha. step obs. Qed.

Lemma xref_tcp_failure_step resp :
  control_step (λ obs, is_Some (EndpointAddress obs)) (xref_tcp_failure resp).
Proof. intros obs [a Ha]. unfold xref_tcp_failure. rewrite Ha. step obs. Qed.

Lemma xref_tls_failure_step resp :
  control_step (λ obs, is_Some (EndpointAddress obs)) (xref_tls_failure resp).
Proof. intros obs [a Ha]. unfold xref_tls_failure. rewrite Ha. step obs. Qed.

Lemma set_http_expectation_step resp :
  control_step (λ _, True) (set_http_expectation resp).
Proof. intros obs _. unfold set_http_expectation. step obs. Qed.
End steps.

(** The invariant only talks about the fields of the probe. *)
Lemma container_wf_erase c : container_wf (erase_container c) ↔ container_wf c.
Proof.
  assert (Hd : ∀ o, dns_wf (erase_control o) ↔ dns_wf o) by by intros []; split; intros []; split.
  assert (Hs : ∀ o, success_wf (erase_control o) ↔ success_wf o).
  { intros o. split; intros [?%Hd ? ?]; destruct o; split; done || by apply Hd. }
  assert (He : ∀ k o, endpoint_wf k (erase_control o) ↔ endpoint_wf k o)
    by by intros k []; split; intros []; split.
  assert (Hk : ∀ l known, known_wf (erase_control <$> l) known ↔ known_wf l known)
    by by intros; apply known_wf_fmap; intros [].
  clear -Hd Hs He Hk. destruct c as [failures successes endpoints expectations known].
  split; intros [Hwf Hws Hwe Hwk]; cbn in *; split; cbn.
  - rewrite Forall_fmap in Hwf. eapply Forall_impl; [exact Hwf|]. intros o. apply Hd.
  - rewrite Forall_fmap in Hws. eapply Forall_impl; [exact Hws|]. intros o. apply Hs.
  - intros k o Ho. apply He, Hwe. by rewrite lookup_fmap, Ho.
  - by apply Hk.
  - rewrite Forall_fmap. eapply Forall_impl; [exact Hwf|]. intros o. apply Hd.
  - rewrite Forall_fmap. eapply Forall_impl; [exact Hws|]. intros o. apply Hs.
  - intros k o. rewrite lookup_fmap. intros (o' & Ho' & ->)%fmap_Some. by apply He, Hwe.
  - by apply Hk.
Qed.

(** ** The control ingestion *)

Lemma container_wf_same c c' :
  erase_container c' = erase_container c → container_wf c → container_wf c'.
Proof. intros He Hc%container_wf_erase. apply container_wf_erase. by rewrite He. Qed.

Section control.
Context `{RangeOrder}.

Lemma for_each_obs_step pre body l :
  control_step pre body → Forall pre l →
  ∃ l', for_each_obs body l = Ok l' ∧ erase_control <$> l' = erase_control <$> l.
Proof.
  intros Hs Hl. rewrite Forall_forall in Hl.
  rewrite for_each_obs_pure by (intros; eapply control_step_value; eauto).
  eexists; split; [done|]. rewrite <-list_fmap_compose. apply list_fmap_ext.
  intros i obs Hi. eapply control_step_value; eauto using list_elem_of_lookup_2.
Qed.

Lemma for_each_endpoint_step site pre body (m : gmap Z WebObservation) :
  control_step pre body → (∀ k obs, m !! k = Some obs → pre obs) →
  ∃ m', for_each_endpoint site body m = Ok m' ∧ erase_control <$> m' = erase_control <$> m.
Proof.
  intros Hs Hm. rewrite for_each_endpoint_pure by (intros; eapply control_step_value; eauto).
  eexists; split; [done|]. rewrite <-map_fmap_compose. apply map_fmap_ext.
  intros k obs Hk. eapply control_step_value; eauto.
Qed.

(** One of the passes of [IngestControlMessages]. *)
Definition control_pass (pass : WebObservationsContainer → outcome WebObservationsContainer) : Prop :=
  ∀ c, container_wf c → ∃ c', pass c = Ok c' ∧ erase_container c' = erase_container c.

Lemma endpoints_pass site pre body :
  control_step pre body → (∀ txid obs, endpoint_wf txid obs → pre obs) →
  control_pass (λ c, endpoints ← for_each_endpoint site body (KnownTCPEndpoints c);
                     Ok (c <| KnownTCPEndpoints := endpoints |>)).
Proof.
  intros Hs Hpre c Hc.
  destruct (for_each_endpoint_step site pre body (KnownTCPEndpoints c)) as (m' & -> & Hm'); [done|..].
  { intros k obs Hk. by eapply Hpre, wf_endpoints. }
  eexists; split; [done|]. unfold erase_container. f_equal. exact Hm'.
Qed.

Lemma controlXrefDNSQueries_pass domain resp : control_pass (controlXrefDNSQueries domain resp).
Proof.
  intros c [Hwf Hws _ _]. unfold controlXrefDNSQueries.
  destruct (for_each_obs_step _ _ (DNSLookupFailures c) (xref_dns_query_step domain resp))
    as (l1 & -> & H1); [by eapply Forall_impl; [exact Hwf|intros ? []]|].
  destruct (for_each_obs_step _ _ (DNSLookupSuccesses c) (xref_dns_query_step domain resp))
    as (l2 & Hl2 & H2); [by eapply Forall_impl; [exact Hws|intros ? [[]]]|].
  simpl. rewrite Hl2. eexists; split; [done|].
  unfold erase_container. f_equal; [exact H1|exact H2].
Qed.

Lemma controlMatchDNSLookupResults_pass domain resp :
  control_pass (controlMatchDNSLookupResults domain resp).
Proof. eapply endpoints_pass; [apply match_dns_result_step|by intros ? ? []]. Qed.

Lemma controlXrefTCPIPFailures_pass resp : control_pass (controlXrefTCPIPFailures resp).
Proof. eapply endpoints_pass; [apply xref_tcp_failure_step|by intros ? ? []]. Qed.

Lemma controlXrefTLSFailures_pass resp : control_pass (controlXrefTLSFailures resp).
Proof. eapply endpoints_pass; [apply xref_tls_failure_step|by intros ? ? []]. Qed.

Lemma controlSetHTTPFinalResponseExpectation_pass resp :
  control_pass (controlSetHTTPFinalResponseExpectation resp).
Proof.
  intros c _. unfold controlSetHTTPFinalResponseExpectation. destruct c as [l1 l2 m e known]; cbn.
  destruct (for_each_obs_step _ _ l1 (set_http_expectation_step resp)) as (l1' & -> & H1);
    [by apply Forall_true|].
  destruct (for_each_obs_step _ _ l2 (set_http_expectation_step resp)) as (l2' & Hl2 & H2);
    [by apply Forall_true|].
  destruct (for_each_endpoint_step 7 _ _ m (set_http_expectation_step resp)) as (m' & Hm' & H3); [done|].
  simpl. rewrite Hl2. simpl. rewrite Hm'. eexists; split; [done|].
  unfold erase_container. f_equal; [exact H1|exact H2|exact H3].
Qed.

Lemma control_pass_bind pass1 pass2 :
  control_pass pass1 → control_pass pass2 → control_pass (λ c, pass1 c ≫= pass2).
Proof.
  intros H1 H2 c Hc. destruct (H1 c Hc) as (c1 & Hc1 & He1). rewrite Hc1. simpl.
  destruct (H2 c1) as (c2 & -> & He2); [by eapply container_wf_same|].
  eexists; split; [done|congruence].
Qed.

Lemma IngestControlMessages_ok req resp c :
  container_wf c →
  ∃ r, IngestControlMessages req resp c = Ok r ∧
    match r with
    | Val c' => container_wf c' ∧ erase_container c' = erase_container c
    | Err _ => url_Parse (thr_HTTPRequest req) = None
    end.
Proof.
  intros Hc. unfold IngestControlMessages.
  destruct (url_Parse (thr_HTTPRequest req)) as [URL|]; [|by eexists].
  pose proof (control_pass_bind _ _ (controlXrefDNSQueries_pass (Hostname URL) resp)
    (control_pass_bind _ _ (controlMatchDNSLookupResults_pass (Hostname URL) resp)
    (control_pass_bind _ _ (controlXrefTCPIPFailures_pass resp)
    (control_pass_bind _ _ (controlXrefTLSFailures_pass resp)
       (controlSetHTTPFinalResponseExpectation_pass resp))))) as Hp.
  destruct (Hp c Hc) as (c' & Hc' & He). exists (Val c'). split.
  - revert Hc'. unfold mbind, outcome_bind. intros Hc'. repeat case_match; simplify_eq/=; done.
  - split; [by eapply container_wf_same|done].
Qed.
End control.

(** What the events of the probe alone give. *)
Definition probe_container `{RangeOrder} `{UnicodeTables} (lookupper : GeoIPASNLookupper)
    (tk : WebMeasurementTestKeys) : WebObservationsContainer :=
  IngestHTTPRoundTripEvents
    (IngestTLSHandshakeEvents
       (IngestTCPConnectEvents lookupper
          (IngestDNSLookupEvents lookupper NewWebObservationsContainer (entries (tk_Queries tk)))
          (entries (tk_TCPConnect tk)))
       (entries (tk_TLSHandshakes tk)))
    (entries (tk_Requests tk)).

Lemma NewWebObservationsContainer_wf : container_wf NewWebObservationsContainer.
Proof. split; [constructor|constructor|done|done]. Qed.

Lemma probe_container_wf `{RangeOrder} `{UnicodeTables} lookupper tk :
  container_wf (probe_container lookupper tk).
Proof.
  apply IngestHTTPRoundTripEvents_wf, IngestTLSHandshakeEvents_wf, IngestTCPConnectEvents_wf,
    ingestDNSLookupSuccesses_wf, ingestDNSLookupFailures_wf, NewWebObservationsContainer_wf.
Qed.

(** No entry that ingestion reads is nil. *)
Definition no_nil (tk : WebMeasurementTestKeys) : Prop :=
  (None ∉ tk_Queries tk) ∧ (None ∉ tk_TCPConnect tk) ∧ (None ∉ tk_TLSHandshakes tk) ∧ (None ∉ tk_Requests tk).

Lemma no_nil_dec tk : no_nil tk ∨ ¬ no_nil tk.
Proof.
  unfold no_nil. destruct (nil_entry (tk_Queries tk)), (nil_entry (tk_TCPConnect tk)), (nil_entry (tk_TLSHandshakes tk)),
    (nil_entry (tk_Requests tk)); tauto.
Qed.

(** What ingestion does after the entries were read. *)
Definition ingest_control `{RangeOrder} (tk : WebMeasurementTestKeys) (container : WebObservationsContainer) :
    outcome (result string WebObservationsContainer) :=
  if negb (IsNone (tk_XControlRequest tk)) && negb (IsNone (tk_Control tk)) then
    req ← Unwrap (tk_XControlRequest tk); resp ← Unwrap (tk_Control tk);
    IngestControlMessages req resp container
  else Ok (Val container).

Lemma IngestWebMeasurement_eq `{RangeOrder} `{UnicodeTables} lookupper meas tk :
  meas_TestKeys meas = Some tk →
  (no_nil tk → IngestWebMeasurement lookupper meas = ingest_control tk (probe_container lookupper tk)) ∧
  (¬ no_nil tk → IngestWebMeasurement lookupper meas = Panic "nil pointer dereference").
Proof.
  intros Htk. unfold IngestWebMeasurement. rewrite Htk. split.
  - intros (Hq & Hc & Hh & Hr). rewrite !deref_all_ok by done. done.
  - intros Hn. unfold no_nil in Hn.
    destruct (nil_entry (tk_Queries tk)); [by rewrite (deref_all_nil (tk_Queries tk))|].
    rewrite (deref_all_ok (tk_Queries tk)) by done. cbn [mbind outcome_bind].
    destruct (nil_entry (tk_TCPConnect tk)); [by rewrite (deref_all_nil (tk_TCPConnect tk))|].
    rewrite (deref_all_ok (tk_TCPConnect tk)) by done. cbn [mbind outcome_bind].
    destruct (nil_entry (tk_TLSHandshakes tk)); [by rewrite (deref_all_nil (tk_TLSHandshakes tk))|].
    rewrite (deref_all_ok (tk_TLSHandshakes tk)) by done. cbn [mbind outcome_bind].
    destruct (nil_entry (tk_Requests tk)); [by rewrite (deref_all_nil (tk_Requests tk))|]. by destruct Hn.
Qed.

(** What ingestion returns. *)
Definition ingested `{RangeOrder} `{UnicodeTables} lookupper (tk : WebMeasurementTestKeys)
    (r : result string WebObservationsContainer) : Prop :=
  match r with
  | Val c => container_wf c ∧ erase_container c = erase_container (probe_container lookupper tk)
  | Err err => ∃ req resp, tk_XControlRequest tk = Some req ∧ tk_Control tk = Some resp ∧
      url_Parse (thr_HTTPRequest req) = None
  end.

Lemma ingest_control_ok `{RangeOrder} `{UnicodeTables} lookupper tk :
  ∃ r, ingest_control tk (probe_container lookupper tk) = Ok r ∧ ingested lookupper tk r.
Proof.
  pose proof (probe_container_wf lookupper tk) as Hc. unfold ingest_control, ingested.
  destruct (tk_XControlRequest tk) as [req|] eqn:Hreq, (tk_Control tk) as [resp|] eqn:Hresp; simpl;
    try by eexists.
  destruct (IngestControlMessages_ok req resp _ Hc) as ([c'|err] & -> & Hr).
  - by eexists.
  - eexists; split; [done|]. by exists req, resp.
Qed.

(** C29: whatever the measurement, the GeoIP database and the order of map
    iterations: without test keys ingestion fails; when an entry of the queries, connects,
    handshakes or requests is nil (a [null] in the file) it panics, and otherwise it never
    does. Then it fails only when the control request is not a URL; otherwise the container satisfies
    the invariant and, the control's own fields aside, holds exactly what the
    probe's events give. *)
Theorem IngestWebMeasurement_total `{RangeOrder} `{UnicodeTables} lookupper meas :
  match meas_TestKeys meas with
  | None => IngestWebMeasurement lookupper meas = Ok (Err ErrNoTestKeys)
  | Some tk =>
      (¬ no_nil tk ∧ IngestWebMeasurement lookupper meas = Panic "nil pointer dereference") ∨
      (no_nil tk ∧ ∃ r, IngestWebMeasurement lookupper meas = Ok r ∧
         match r with
         | Val c => container_wf c ∧ erase_container c = erase_container (probe_container lookupper tk)
         | Err err => ∃ req resp, tk_XControlRequest tk = Some req ∧ tk_Control tk = Some resp ∧
             url_Parse (thr_HTTPRequest req) = None
         end)
  end.
Proof.
  destruct (meas_TestKeys meas) as [tk|] eqn:Htk; [|by unfold IngestWebMeasurement; rewrite Htk].
  destruct (IngestWebMeasurement_eq lookupper meas tk Htk) as [Hok Hnil].
  destruct (no_nil_dec tk) as [Hn|Hn]; [right|left]; (split; [done|]); [|by apply Hnil].
  rewrite Hok by done. apply ingest_control_ok.
Qed.

(** ** The order of map iterations does not matter *)

Section order.
Context (o1 o2 : RangeOrder) `{UnicodeTables}.

Lemma IngestDNSLookupEvents_order lookupper c evs :
  @IngestDNSLookupEvents o1 lookupper c evs = @IngestDNSLookupEvents o2 lookupper c evs.
Proof.
  unfold IngestDNSLookupEvents, ingestDNSLookupSuccesses. apply foldl_ext_elem. intros c' ev _.
  destruct (dns_Failure ev); [done|]. by rewrite (Keys_order (o1 := o1) (o2 := o2)).
Qed.

Lemma IngestHTTPRoundTripEvents_order c evs :
  (∀ ev, ev ∈ evs → one_location (resp_Headers (http_Response ev))) →
  @IngestHTTPRoundTripEvents o1 _ c evs = @IngestHTTPRoundTripEvents o2 _ c evs.
Proof.
  intros Hone. apply foldl_ext_elem. intros c' ev Hev.
  destruct (KnownTCPEndpoints c' !! _); [|done]. destruct (http_Failure ev); [done|].
  cbv zeta.
  rewrite !(@utilsExtractHTTPHeaderKeys_spec o1), !(@utilsExtractHTTPHeaderKeys_spec o2).
  by rewrite (utilsExtractHTTPLocation_order (o1 := o1) (o2 := o2)) by eauto.
Qed.

Lemma for_each_endpoint_order site body (m : gmap Z WebObservation) :
  (∀ k obs, m !! k = Some obs → is_Ok (body obs)) →
  @for_each_endpoint o1 site body m = @for_each_endpoint o2 site body m.
Proof. intros Hb. by rewrite !for_each_endpoint_pure. Qed.

Lemma endpoints_order site pre body c :
  control_step pre body → (∀ txid obs, endpoint_wf txid obs → pre obs) → container_wf c →
  @for_each_endpoint o1 site body (KnownTCPEndpoints c) =
  @for_each_endpoint o2 site body (KnownTCPEndpoints c).
Proof.
  intros Hs Hpre Hc. apply for_each_endpoint_order. intros k obs Hk.
  eapply control_step_value; [done|]. by eapply Hpre, wf_endpoints.
Qed.

Lemma set_http_expectation_order resp :
  @set_http_expectation o1 resp = @set_http_expectation o2 resp.
Proof.
  unfold set_http_expectation. cbv zeta.
  by rewrite (@utilsExtractHTTPHeaderKeys_spec o1), (@utilsExtractHTTPHeaderKeys_spec o2).
Qed.

(** Two passes that agree on well-formed containers. *)
Definition agree (pass1 pass2 : WebObservationsContainer → outcome WebObservationsContainer) : Prop :=
  ∀ c, container_wf c → pass1 c = pass2 c.

Lemma endpoints_agree site pre body :
  control_step pre body → (∀ txid obs, endpoint_wf txid obs → pre obs) →
  agree (λ c, endpoints ← @for_each_endpoint o1 site body (KnownTCPEndpoints c);
              Ok (c <| KnownTCPEndpoints := endpoints |>))
        (λ c, endpoints ← @for_each_endpoint o2 site body (KnownTCPEndpoints c);
              Ok (c <| KnownTCPEndpoints := endpoints |>)).
Proof. intros Hs Hpre c Hc. by rewrite (endpoints_order site pre body). Qed.

Lemma controlSetHTTPFinalResponseExpectation_agree resp :
  agree (@controlSetHTTPFinalResponseExpectation o1 resp)
        (@controlSetHTTPFinalResponseExpectation o2 resp).
Proof.
  intros c Hc. unfold controlSetHTTPFinalResponseExpectation. rewrite set_http_expectation_order.
  by rewrite (for_each_endpoint_order 7) by (intros; eapply control_step_value;
    [apply set_http_expectation_step|done]).
Qed.

Lemma agree_bind pass1 pass1' pass2 pass2' :
  control_pass pass1 → agree pass1 pass1' → agree pass2 pass2' →
  agree (λ c, pass1 c ≫= pass2) (λ c, pass1' c ≫= pass2').
Proof.
  intros Hp H1 H2 c Hc. rewrite <-(H1 c Hc). destruct (Hp c Hc) as (c' & -> & He).
  apply H2. by eapply container_wf_same.
Qed.

Lemma IngestControlMessages_order req resp c :
  container_wf c →
  @IngestControlMessages o1 req resp c = @IngestControlMessages o2 req resp c.
Proof.
  intros Hc. unfold IngestControlMessages.
  destruct (url_Parse (thr_HTTPRequest req)) as [URL|]; [|done].
  destruct (controlXrefDNSQueries_pass (Hostname URL) resp c Hc) as (c1 & -> & He1). simpl.
  assert (Hc1 : container_wf c1) by by eapply container_wf_same.
  pose proof (agree_bind _ _ _ _
    (@controlMatchDNSLookupResults_pass o1 (Hostname URL) resp)
    (endpoints_agree 4 _ _ (match_dns_result_step (Hostname URL) resp _) (λ _ _ H, ep_ip _ _ H))
    (agree_bind _ _ _ _
      (@controlXrefTCPIPFailures_pass o1 resp)
      (endpoints_agree 5 _ _ (xref_tcp_failure_step resp) (λ _ _ H, ep_address _ _ H))
      (agree_bind _ _ _ _
        (@controlXrefTLSFailures_pass o1 resp)
        (endpoints_agree 6 _ _ (xref_tls_failure_step resp) (λ _ _ H, ep_address _ _ H))
        (controlSetHTTPFinalResponseExpectation_agree resp)))) as Ha.
  specialize (Ha c1 Hc1).
  transitivity (Val (E := string) <$>
    (c2 ← @controlMatchDNSLookupResults o1 (Hostname URL) resp c1;
     c3 ← @controlXrefTCPIPFailures o1 resp c2; c4 ← @controlXrefTLSFailures o1 resp c3;
     @controlSetHTTPFinalResponseExpectation o1 resp c4)).
  { clear. by repeat (unfold mbind, outcome_bind; case_match; try done). }
  etrans; [apply f_equal; exact Ha|]. clear.
  unfold controlMatchDNSLookupResults, controlXrefTCPIPFailures, controlXrefTLSFailures.
  by repeat (unfold mbind, outcome_bind; case_match; try done).
Qed.
End order.

(** C34: ingestion gives the same container under any two orders of map
    iterations, provided that no response spells the Location header in two
    ways. *)
Theorem IngestWebMeasurement_deterministic (o1 o2 : RangeOrder) `{UnicodeTables} lookupper meas
    (Hlocation : ∀ tk ev, meas_TestKeys meas = Some tk → Some ev ∈ tk_Requests tk →
                   one_location (resp_Headers (http_Response ev))) :
  @IngestWebMeasurement o1 _ lookupper meas = @IngestWebMeasurement o2 _ lookupper meas.
Proof.
  destruct (meas_TestKeys meas) as [tk|] eqn:Htk; [|by unfold IngestWebMeasurement; rewrite Htk].
  destruct (@IngestWebMeasurement_eq o1 _ lookupper meas tk Htk) as [Hok1 Hnil1].
  destruct (@IngestWebMeasurement_eq o2 _ lookupper meas tk Htk) as [Hok2 Hnil2].
  destruct (no_nil_dec tk) as [Hn|Hn]; [rewrite Hok1, Hok2 by done|by rewrite Hnil1, Hnil2].
  assert (E : @probe_container o1 _ lookupper tk = @probe_container o2 _ lookupper tk).
  { unfold probe_container. rewrite (IngestHTTPRoundTripEvents_order o1 o2).
    - by rewrite (IngestDNSLookupEvents_order o1 o2).
    - intros ev Hev. unfold entries in Hev. apply list_elem_of_omap in Hev as (o & Ho & E). cbn in E. subst o. by eapply Hlocation. }
  rewrite E. unfold ingest_control. destruct (_ && _); [|done]. destruct (tk_XControlRequest tk) as [req|]; [|done].
  destruct (tk_Control tk) as [resp|]; [|done]. simpl.
  apply IngestControlMessages_order, (@probe_container_wf o2).
Qed.

Lemma one_location_sample : @one_location ascii_only_tables {[ "Server" := "ECS"; "X-Cache" := "HIT" ]}.
Proof.
  intros k1 k2 [v Hv] _ Hl _.
  apply lookup_insert_Some in Hv as [[<- _]|[_ [<- _]%lookup_singleton_Some]]; discriminate Hl.
Qed.

Lemma IngestWebMeasurement_deterministic_witness :
  (∀ tk ev, meas_TestKeys sample_meas = Some tk → Some ev ∈ tk_Requests tk →
     @one_location ascii_only_tables (resp_Headers (http_Response ev))) ∧
  @IngestWebMeasurement range_ascending ascii_only_tables sample_asn sample_meas =
  @IngestWebMeasurement range_descending ascii_only_tables sample_asn sample_meas.
Proof.
  assert (Hl : ∀ tk ev, meas_TestKeys sample_meas = Some tk → Some ev ∈ tk_Requests tk →
     @one_location ascii_only_tables (resp_Headers (http_Response ev))).
  { intros tk ev [= <-] [= ->]%list_elem_of_singleton. apply one_location_sample. }
  split; [exact Hl|].
  exact (@IngestWebMeasurement_deterministic range_ascending range_descending ascii_only_tables sample_asn sample_meas Hl).
Defined.
