(* ===== verification/Diff.v ===== *)
(** * Comparing the probe with the control

    [pkg/minipipeline/httpdiff.go] and [dnsdiff.go]: intersections and
    differences computed with a map of bit masks, one bit for the probe and one
    for the test helper. *)
From S2P Require Import Prelude GoString GoFloat PipeSet Observation.
From Stdlib Require Import Ascii.

Definition byProbe : Z := Z.shiftl 1 0.
Definition byTH : Z := Z.shiftl 1 1.

(** [m[key] |= bit] *)
Definition mark `{Countable K} (bit : Z) (m : gmap K Z) (key : K) : gmap K Z :=
  <[key := Z.lor (default 0 (m !! key)) bit]> m.

(** [(value & (byProbe | byTH)) == (byProbe | byTH)] *)
Definition in_both (value : Z) : bool := Z.land value (Z.lor byProbe byTH) =? Z.lor byProbe byTH.

(** ** HTTP *)

Definition ComputeHTTPDiffBodyProportionFactor (measurement control : Z) : float64 :=
  if control <=? measurement
  then float64_div (float64_of_int control) (float64_of_int measurement)
  else float64_div (float64_of_int measurement) (float64_of_int control).

Definition ComputeHTTPDiffStatusCodeMatch (measurement control : Z) : option bool :=
  let good := control =? measurement in
  if negb good && negb (Z.quot control 100 =? 2) then None else Some good.

Definition httpDiffCommonHeaders : gmap string bool :=
  list_to_map (map (λ key, (key, true))
    [ "date"; "content-type"; "server"; "cache-control"; "vary"; "set-cookie"; "location"; "expires";
      "x-powered-by"; "content-encoding"; "last-modified"; "accept-ranges"; "pragma";
      "x-frame-options"; "etag"; "x-content-type-options"; "age"; "via"; "p3p"; "x-xss-protection";
      "content-language"; "cf-ray"; "strict-transport-security"; "link"; "x-varnish" ]).

Section http.
Context `{RangeOrder} `{UnicodeTables}.

(** One of the two loops over the header keys. *)
Definition mark_uncommon (bit : Z) (matching : gmap string Z) (headers : list (string * bool)) :
    gmap string Z :=
  foldl (λ matching '(key, _),
    let key := ToLower key in
    match httpDiffCommonHeaders !! key with
    | None => mark bit matching key
    | Some _ => matching
    end) matching headers.

(** The maps of the arguments may be nil, which has no key. *)
Definition ComputeHTTPDiffUncommonHeadersIntersection (measurement control : gmap string bool) :
    gmap string bool :=
  let matching := mark_uncommon byProbe ∅ (range_map 8 measurement) in
  let matching := mark_uncommon byTH matching (range_map 9 control) in
  foldl (λ state '(key, value), if in_both value then <[key := true]> state else state)
    ∅ (range_map 10 matching).

Definition minWordLength : Z := 5.

Definition mark_words (bit : Z) (words : gmap string Z) (title : string) : gmap string Z :=
  foldl (λ words word,
    if minWordLength <=? Z.of_nat (String.length word) then mark bit words (ToLower word) else words)
    words (Split title " ").

Definition ComputeHTTPDiffTitleDifferentLongWords (measurement control : string) : gmap string bool :=
  let words := mark_words byProbe ∅ measurement in
  let words := mark_words byTH words control in
  foldl (λ state '(word, score), if negb (in_both score) then <[word := true]> state else state)
    ∅ (range_map 11 words).
End http.

(** ** DNS *)

Section dns.
Context `{RangeOrder}.

Definition DNSDiffFindCommonIPAddressIntersection (measurement control : Set_ string) : Set_ string :=
  let ipmap := foldl (mark byProbe) ∅ (Keys measurement) in
  let ipmap := foldl (mark byTH) ipmap (Keys control) in
  foldl (λ state '(key, value),
           if negb (String.eqb key "") && in_both value then Add state [key] else state)
    (NewSet []) (range_map 12 ipmap).

(** One of the two loops over the addresses. *)
Definition mark_asns (lookupper : GeoIPASNLookupper) (bit : Z) (asnmap : gmap Z Z)
    (addrs : list string) : gmap Z Z :=
  foldl (λ asnmap ipAddr,
    match lookupper ipAddr with
    | Val (asn, _) => if 0 <? asn then mark bit asnmap (wrap64 asn) else asnmap
    | Err _ => asnmap
    end) asnmap addrs.

Definition DNSDiffFindCommonASNsIntersection (lookupper : GeoIPASNLookupper)
    (measurement control : Set_ string) : Set_ Z :=
  let asnmap := mark_asns lookupper byProbe ∅ (Keys measurement) in
  let asnmap := mark_asns lookupper byTH asnmap (Keys control) in
  foldl (λ state '(key, value),
           if negb (key =? 0) && in_both value then Add state [key] else state)
    (NewSet []) (range_map 13 asnmap).
End dns.

(** ** The bit masks *)

Section masks.
Context `{Countable K}.
Implicit Types (m : gmap K Z) (keys : list K).

Lemma lookup_marks bit m keys k :
  foldl (mark bit) m keys !! k =
  if bool_decide (k ∈ keys) then Some (Z.lor (default 0 (m !! k)) bit) else m !! k.
Proof.
  revert m. induction keys as [|x keys IH]; intros m; simpl; [done|].
  rewrite IH. unfold mark. destruct (decide (k ∈ keys)), (decide (k = x)) as [->|];
    repeat case_bool_decide; try set_solver.
  - rewrite lookup_insert_eq. simpl. by rewrite <-Z.lor_assoc, Z.lor_diag.
  - by rewrite lookup_insert_ne.
  - by rewrite lookup_insert_eq.
  - by rewrite lookup_insert_ne.
Qed.

(** The two loops that fill the map. *)
Definition marked (keys1 keys2 : list K) : gmap K Z :=
  foldl (mark byTH) (foldl (mark byProbe) ∅ keys1) keys2.

Lemma marked_value keys1 keys2 k v :
  marked keys1 keys2 !! k = Some v →
  (k ∈ keys1 ∨ k ∈ keys2) ∧ (in_both v = true ↔ k ∈ keys1 ∧ k ∈ keys2).
Proof.
  unfold marked. rewrite !lookup_marks, lookup_empty.
  destruct (decide (k ∈ keys1)), (decide (k ∈ keys2)); repeat case_bool_decide; try done;
    intros [= <-]; (split; [by eauto|]); by split; [|intros []].
Qed.

Lemma marked_Some keys1 keys2 k :
  k ∈ keys1 ∨ k ∈ keys2 → is_Some (marked keys1 keys2 !! k).
Proof.
  unfold marked. rewrite !lookup_marks, lookup_empty.
  destruct (decide (k ∈ keys1)), (decide (k ∈ keys2)); repeat case_bool_decide; by eauto || intros [].
Qed.
End masks.

(** The last loop, that selects keys. *)
Lemma lookup_selected `{Countable K} (p : K * Z → bool) (l : list (K * Z)) k b :
  foldl (λ state kv, if p kv then <[kv.1 := true]> state else state) (∅ : gmap K bool) l !! k = Some b ↔
  b = true ∧ ∃ v, (k, v) ∈ l ∧ p (k, v) = true.
Proof.
  replace (foldl _ ∅ l) with (foldl (λ m key, <[key := true]> m) (∅ : gmap K bool) (filter p l).*1).
  2: { generalize (∅ : gmap K bool). induction l as [|kv l IH]; intros m; simpl; [done|].
       rewrite filter_cons. destruct (p kv); case_decide; try done; apply IH. }
  rewrite lookup_adds, lookup_empty. case_bool_decide as Hk.
  - apply list_elem_of_fmap in Hk as ([k' v] & -> & [Hp Hin]%list_elem_of_filter).
    split; [|by intros [-> _]]. intros [= <-]. split; [done|]. exists v. split; [done|by apply Is_true_true].
  - split; [done|]. intros (_ & v & Hin & Hp). exfalso. apply Hk, list_elem_of_fmap.
    exists (k, v). split; [done|]. apply list_elem_of_filter. split; [by apply Is_true_true|done].
Qed.

(** The keys of [marked keys1 keys2] that [p] selects, [p] being a test of the mask. *)
Lemma selected_marked `{RangeOrder} `{Countable K} site (p : K → Z → bool) keys1 keys2 k b :
  foldl (λ state '(k, v), if p k v then <[k := true]> state else state) (∅ : gmap K bool)
    (range_map site (marked keys1 keys2)) !! k = Some b ↔
  b = true ∧ ∃ v, marked keys1 keys2 !! k = Some v ∧ p k v = true.
Proof.
  rewrite (foldl_ext_elem _ (λ state kv, if p kv.1 kv.2 then <[kv.1 := true]> state else state))
    by (by intros ? [] _).
  rewrite (lookup_selected (λ kv, p kv.1 kv.2)). simpl. by setoid_rewrite range_map_elem.
Qed.

(** The same loop on a [Set]. *)
Lemma selected_marked_set `{RangeOrder} `{SetKey K} site (p : K → Z → bool) keys1 keys2 k :
  set_Contains (foldl (λ state '(k, v), if p k v then Add state [k] else state) (NewSet [])
    (range_map site (marked keys1 keys2))) k = true ↔
  ∃ v, marked keys1 keys2 !! k = Some v ∧ p k v = true.
Proof.
  set (l := range_map site _).
  assert (Hgen : ∀ s : Set_ K,
    set_Contains (foldl (λ state '(k, v), if p k v then Add state [k] else state) s l) k = true ↔
    set_Contains s k = true ∨ ∃ v, (k, v) ∈ l ∧ p k v = true).
  { induction l as [|[k' v] l IH]; intros s; csimpl.
    { split; [by left|]. intros [|(v & Hv & _)]; [done|by apply not_elem_of_nil in Hv]. }
    rewrite IH. setoid_rewrite elem_of_cons.
    destruct (p k' v) eqn:Hp.
    - rewrite Contains_Add, orb_true_iff, bool_decide_eq_true, list_elem_of_singleton. split.
      + intros [[->|Hx]|(v' & Hv & Hv')]; eauto.
      + intros [Hx|(v' & [[= -> ->]|Hv] & Hv')]; eauto.
    - split.
      + intros [Hx|(v' & Hv & Hv')]; eauto.
      + intros [Hx|(v' & [[= -> ->]|Hv] & Hv')]; eauto; congruence. }
  rewrite Hgen, Contains_NewSet. subst l. setoid_rewrite range_map_elem.
  rewrite bool_decide_eq_true. split; [|by right]. intros [Hx|]; [by apply not_elem_of_nil in Hx|done].
Qed.

(** ** What the comparisons compute *)

Section http_spec.
Context `{RangeOrder} `{UnicodeTables}.

#[local] Opaque httpDiffCommonHeaders.

(** A header that counts, in lower case. *)
Definition has_uncommon (headers : gmap string bool) (key : string) : Prop :=
  httpDiffCommonHeaders !! key = None ∧ ∃ name, is_Some (headers !! name) ∧ key = ToLower name.

Definition uncommon_keys (headers : list (string * bool)) : list string :=
  filter (λ key, httpDiffCommonHeaders !! key = None) (ToLower ∘ fst <$> headers).

Lemma mark_uncommon_marks bit m headers :
  mark_uncommon bit m headers = foldl (mark bit) m (uncommon_keys headers).
Proof.
  unfold uncommon_keys. revert m. induction headers as [|[key v] l IH]; intros m; csimpl; [done|].
  rewrite filter_cons. destruct (httpDiffCommonHeaders !! ToLower key) eqn:E; case_decide; try congruence;
    apply IH.
Qed.

Lemma elem_of_uncommon_keys site headers key :
  key ∈ uncommon_keys (range_map site headers) ↔ has_uncommon headers key.
Proof.
  unfold uncommon_keys, has_uncommon. rewrite list_elem_of_filter, list_elem_of_fmap.
  split; intros [Hu Hk]; (split; [done|]).
  - destruct Hk as ([name v] & -> & Hn%range_map_elem). exists name. by split; [exists v|].
  - destruct Hk as (name & [v Hv] & ->). exists (name, v). by rewrite range_map_elem.
Qed.

Lemma marked_uncommon measurement control :
  mark_uncommon byTH (mark_uncommon byProbe ∅ (range_map 8 measurement)) (range_map 9 control) =
  marked (uncommon_keys (range_map 8 measurement)) (uncommon_keys (range_map 9 control)).
Proof. by rewrite !mark_uncommon_marks. Qed.

(** The intersection of the uncommon headers contains exactly the lower
    case names that are not common headers and that both the probe and the
    control have, in some letter case. *)
Theorem UncommonHeadersIntersection_spec measurement control key b :
  ComputeHTTPDiffUncommonHeadersIntersection measurement control !! key = Some b ↔
  b = true ∧ has_uncommon measurement key ∧ has_uncommon control key.
Proof.
  unfold ComputeHTTPDiffUncommonHeadersIntersection. rewrite marked_uncommon.
  rewrite (selected_marked 10 (λ _ v, in_both v)).
  rewrite <-(elem_of_uncommon_keys 8 measurement), <-(elem_of_uncommon_keys 9 control).
  split; intros [-> Hv]; (split; [done|]).
  - destruct Hv as (v & [_ Hb]%marked_value & Hv). by apply Hb.
  - destruct (marked_Some (uncommon_keys (range_map 8 measurement))
      (uncommon_keys (range_map 9 control)) key) as [v Hv']; [tauto|].
    exists v. split; [done|]. by apply marked_value in Hv' as [_ ->].
Qed.

(** The long words of a title, in lower case. *)
Definition long_words (title : string) : list string :=
  ToLower <$> filter (λ word, minWordLength ≤ Z.of_nat (String.length word)) (Split title " ").

Lemma mark_words_marks bit m title :
  mark_words bit m title = foldl (mark bit) m (long_words title).
Proof.
  unfold mark_words, long_words. revert m.
  induction (Split title " ") as [|word l IH]; intros m; csimpl; [done|].
  rewrite filter_cons. destruct (Z.leb_spec minWordLength (Z.of_nat (String.length word)));
    case_decide; try lia; apply IH.
Qed.

(** The different long words are exactly the words of at least five bytes
    that one of the two titles has, ignoring case, and the other has not. *)
Theorem TitleDifferentLongWords_spec measurement control word b :
  ComputeHTTPDiffTitleDifferentLongWords measurement control !! word = Some b ↔
  b = true ∧ ((word ∈ long_words measurement ∧ (word ∉ long_words control)) ∨
              ((word ∉ long_words measurement) ∧ word ∈ long_words control)).
Proof.
  unfold ComputeHTTPDiffTitleDifferentLongWords. rewrite !mark_words_marks.
  change (foldl (mark byTH) _ _) with (marked (long_words measurement) (long_words control)).
  rewrite (selected_marked 11 (λ _ v, negb (in_both v))).
  destruct (decide (word ∈ long_words measurement)), (decide (word ∈ long_words control));
    split; intros [-> Hv]; (split; [done|]); try tauto;
    try (destruct (marked_Some (long_words measurement) (long_words control) word) as [v Hv'];
         [tauto|]; exists v; split; [done|]; apply negb_true_iff, not_true_is_false;
         apply marked_value in Hv' as [_ ->]; tauto);
    destruct Hv as (v & [Hor Hb]%marked_value & Hv); try tauto.
  apply negb_true_iff in Hv. rewrite (proj2 Hb) in Hv; [done|tauto].
Qed.
End http_spec.

Section dns_spec.
Context `{RangeOrder}.

Lemma IPAddressIntersection_Contains measurement control addr :
  set_Contains (DNSDiffFindCommonIPAddressIntersection measurement control) addr = true ↔
  addr ≠ "" ∧ set_Contains measurement addr = true ∧ set_Contains control addr = true.
Proof.
  unfold DNSDiffFindCommonIPAddressIntersection.
  change (foldl (mark byTH) _ _) with (marked (Keys measurement) (Keys control)).
  rewrite (selected_marked_set 12 (λ key value, negb (String.eqb key "") && in_both value)).
  rewrite <-!elem_of_Keys. split.
  - intros (v & [_ Hb]%marked_value & [Hne Hv]%andb_true_iff).
    apply negb_true_iff, String.eqb_neq in Hne. by split; [|apply Hb].
  - intros (Hne & H1 & H2).
    destruct (marked_Some (Keys measurement) (Keys control) addr) as [v Hv]; [tauto|].
    exists v. split; [done|]. apply marked_value in Hv as [_ Hb]. apply andb_true_iff.
    split; [by apply negb_true_iff, String.eqb_neq|by apply Hb].
Qed.

Definition asns_of (lookupper : GeoIPASNLookupper) (addrs : list string) : list Z :=
  omap (utilsGeoipxLookupASN lookupper) addrs.

Lemma mark_asns_marks lookupper bit m addrs :
  mark_asns lookupper bit m addrs = foldl (mark bit) m (asns_of lookupper addrs).
Proof.
  unfold mark_asns, asns_of. revert m. induction addrs as [|addr l IH]; intros m; csimpl; [done|].
  unfold utilsGeoipxLookupASN at 1.
  destruct (lookupper addr) as [[asn name]|]; [destruct (0 <? asn)|]; apply IH.
Qed.

(** An AS number, as an [int64], of an address of the set. *)
Definition has_asn (lookupper : GeoIPASNLookupper) (addrs : Set_ string) (asn : Z) : Prop :=
  ∃ addr, set_Contains addrs addr = true ∧ utilsGeoipxLookupASN lookupper addr = Some asn.

Lemma elem_of_asns_of lookupper addrs asn :
  asn ∈ asns_of lookupper (Keys addrs) ↔ has_asn lookupper addrs asn.
Proof.
  unfold asns_of, has_asn. rewrite list_elem_of_omap. by setoid_rewrite elem_of_Keys.
Qed.

Lemma ASNsIntersection_Contains lookupper measurement control asn :
  set_Contains (DNSDiffFindCommonASNsIntersection lookupper measurement control) asn = true ↔
  asn ≠ 0 ∧ has_asn lookupper measurement asn ∧ has_asn lookupper control asn.
Proof.
  unfold DNSDiffFindCommonASNsIntersection. rewrite !mark_asns_marks.
  change (foldl (mark byTH) _ _) with
    (marked (asns_of lookupper (Keys measurement)) (asns_of lookupper (Keys control))).
  rewrite (selected_marked_set 13 (λ key value, negb (key =? 0) && in_both value)).
  rewrite <-!elem_of_asns_of. split.
  - intros (v & [_ Hb]%marked_value & [Hne Hv]%andb_true_iff).
    apply negb_true_iff, Z.eqb_neq in Hne. by split; [|apply Hb].
  - intros (Hne & H1 & H2).
    destruct (marked_Some (asns_of lookupper (Keys measurement)) (asns_of lookupper (Keys control)) asn)
      as [v Hv]; [tauto|].
    exists v. split; [done|]. apply marked_value in Hv as [_ Hb]. apply andb_true_iff.
    split; [by apply negb_true_iff, Z.eqb_neq|by apply Hb].
Qed.

(** The two DNS comparisons compute set intersections: of the addresses,
    without the empty string, and of the nonzero AS numbers that the database
    gives to the addresses of each side. *)
Theorem DNSDiff_intersections lookupper measurement control :
  (∀ addr, set_Contains (DNSDiffFindCommonIPAddressIntersection measurement control) addr = true ↔
    addr ≠ "" ∧ set_Contains measurement addr = true ∧ set_Contains control addr = true) ∧
  (∀ asn, set_Contains (DNSDiffFindCommonASNsIntersection lookupper measurement control) asn = true ↔
    asn ≠ 0 ∧ has_asn lookupper measurement asn ∧ has_asn lookupper control asn).
Proof. split; [apply IPAddressIntersection_Contains|apply ASNsIntersection_Contains]. Qed.

(** The lookup is consistent with the control: a common address or AS number. *)
Definition consistent (lookupper : GeoIPASNLookupper) (measurement control : Set_ string) : Prop :=
  (∃ addr, addr ≠ "" ∧ set_Contains measurement addr = true ∧ set_Contains control addr = true) ∨
  (∃ asn, asn ≠ 0 ∧ has_asn lookupper measurement asn ∧ has_asn lookupper control asn).

Lemma intersections_nonempty lookupper measurement control :
  ((0 <? Len (DNSDiffFindCommonIPAddressIntersection measurement control))%nat = true ↔
    ∃ addr, addr ≠ "" ∧ set_Contains measurement addr = true ∧ set_Contains control addr = true) ∧
  ((0 <? Len (DNSDiffFindCommonASNsIntersection lookupper measurement control))%nat = true ↔
    ∃ asn, asn ≠ 0 ∧ has_asn lookupper measurement asn ∧ has_asn lookupper control asn).
Proof.
  rewrite !Nat.ltb_lt, !Len_pos. setoid_rewrite IPAddressIntersection_Contains.
  by setoid_rewrite ASNsIntersection_Contains.
Qed.
End dns_spec.
