(* ===== verification/Analysis.v ===== *)
(** * Analysis

    [pkg/minipipeline/analysis.go]: the metrics computed from the observations
    of a container.  A [*WebAnalysis] is threaded through the functions that
    update it; a [continue] is the end of a turn of the loop. *)
From S2P Require Import Prelude Failures GoSort GoString GoFloat GoNet Archival Bogon PipeSet.
From S2P Require Import Observation.
From S2P Require Import Diff.

Record WebAnalysis := mkAnalysis {
  wa_ControlExpectations : option WebObservationsControlExpectations;
  DNSLookupSuccess : Set_ Z;
  DNSLookupSuccessWithInvalidAddresses : Set_ Z;
  DNSLookupSuccessWithValidAddress : Set_ Z;
  DNSLookupSuccessWithBogonAddresses : Set_ Z;
  DNSLookupSuccessWithInvalidAddressesClassic : Set_ Z;
  DNSLookupSuccessWithValidAddressClassic : Set_ Z;
  DNSLookupUnexpectedFailure : Set_ Z;
  DNSLookupUnexplainedFailure : Set_ Z;
  DNSExperimentFailure : option string;
  DNSLookupExpectedFailure : Set_ Z;
  DNSLookupExpectedSuccess : Set_ Z;
  TCPConnectExpectedFailure : Set_ Z;
  TCPConnectUnexpectedFailure : Set_ Z;
  TCPConnectUnexpectedFailureDuringWebFetch : Set_ Z;
  TCPConnectUnexpectedFailureDuringConnectivityCheck : Set_ Z;
  TCPConnectUnexplainedFailure : Set_ Z;
  TCPConnectUnexplainedFailureDuringWebFetch : Set_ Z;
  TCPConnectUnexplainedFailureDuringConnectivityCheck : Set_ Z;
  TLSHandshakeExpectedFailure : Set_ Z;
  TLSHandshakeUnexpectedFailure : Set_ Z;
  TLSHandshakeUnexpectedFailureDuringWebFetch : Set_ Z;
  TLSHandshakeUnexpectedFailureDuringConnectivityCheck : Set_ Z;
  TLSHandshakeUnexplainedFailure : Set_ Z;
  TLSHandshakeUnexplainedFailureDuringWebFetch : Set_ Z;
  TLSHandshakeUnexplainedFailureDuringConnectivityCheck : Set_ Z;
  HTTPRoundTripUnexpectedFailure : Set_ Z;
  HTTPRoundTripUnexplainedFailure : Set_ Z;
  HTTPFinalResponseSuccessTLSWithoutControl : option Z;
  HTTPFinalResponseSuccessTLSWithControl : option Z;
  HTTPFinalResponseSuccessTCPWithoutControl : option Z;
  HTTPFinalResponseSuccessTCPWithControl : option Z;
  HTTPFinalResponseDiffBodyProportionFactor : option float64;
  HTTPFinalResponseDiffStatusCodeMatch : option bool;
  HTTPFinalResponseDiffTitleDifferentLongWords : option (gmap string bool);
  HTTPFinalResponseDiffUncommonHeadersIntersection : option (gmap string bool);
  Linear : list WebObservation;
}.

(** [&WebAnalysis{ControlExpectations: e}] *)
Definition newAnalysis (e : option WebObservationsControlExpectations) : WebAnalysis :=
  mkAnalysis e zeroSet zeroSet zeroSet zeroSet zeroSet zeroSet zeroSet zeroSet None zeroSet zeroSet
    zeroSet zeroSet zeroSet zeroSet zeroSet zeroSet zeroSet zeroSet zeroSet zeroSet zeroSet zeroSet
    zeroSet zeroSet zeroSet zeroSet None None None None None None None None [].

(** [wa.Field.Add(txid)] *)
Definition add1 (txid : Z) (sx : Set_ Z) : Set_ Z := Add sx [txid].

(** [!v.IsNone() && v.Unwrap()] and [!v.IsNone() && !v.Unwrap()] *)
Definition some_true (v : option bool) : bool := match v with Some b => b | None => false end.
Definition some_false (v : option bool) : bool := match v with Some b => negb b | None => false end.

(** [obs.TagDepth.IsNone() || obs.TagDepth.Unwrap() != 0] *)
Definition beyond_depth0 (obs : WebObservation) : bool :=
  match TagDepth obs with
  | None => true
  | Some depth => negb (depth =? 0)
  end.

(** [s != ""] *)
Definition nonempty (s : string) : bool := negb (String.eqb s "").

Section dns.
Context `{RangeOrder} (lookupper : GeoIPASNLookupper).
Implicit Types (wa : WebAnalysis) (already : Set_ Z) (obs : WebObservation).

(** A turn of the first loop of [dnsComputeSuccessMetrics]. *)
Definition dns_success_turn (st : WebAnalysis * Set_ Z) obs : outcome (WebAnalysis * Set_ Z) :=
  let '(wa, already) := st in
  txid ← Unwrap (DNSTransactionID obs);
  if set_Contains already txid then Ok (wa, already)
  else
    let already := add1 txid already in
    if beyond_depth0 obs then Ok (wa, already)
    else
      let wa := wa <| DNSLookupSuccess ::= add1 txid |> in
      let wa := if some_true (IPAddressBogon obs)
                then wa <| DNSLookupSuccessWithBogonAddresses ::= add1 txid |> else wa in
      if IsNone (ControlDNSResolvedAddrs obs) then Ok (wa, already)
      else
        measurement ← Unwrap (DNSResolvedAddrs obs);
        control ← Unwrap (ControlDNSResolvedAddrs obs);
        if (0 <? Len (DNSDiffFindCommonIPAddressIntersection measurement control))%nat then
          Ok (wa <| DNSLookupSuccessWithValidAddress ::= add1 txid |>, already)
        else if (0 <? Len (DNSDiffFindCommonASNsIntersection lookupper measurement control))%nat then
          Ok (wa <| DNSLookupSuccessWithValidAddress ::= add1 txid |>, already)
        else Ok (wa <| DNSLookupSuccessWithInvalidAddresses ::= add1 txid |>, already).

(** A turn of the second loop: a TLS handshake that succeeds shows that the
    address is valid. *)
Definition dns_undo_turn wa obs : outcome WebAnalysis :=
  if IsNone (TLSHandshakeFailure obs) then Ok wa
  else
    failure ← Unwrap (TLSHandshakeFailure obs);
    if nonempty failure then Ok wa
    else
      let txid := UnwrapOr (DNSTransactionID obs) 0 in
      if txid <=? 0 then Ok wa
      else
        Ok (wa <| DNSLookupSuccessWithInvalidAddresses ::= λ sx, Remove sx [txid] |>
              <| DNSLookupSuccessWithValidAddress ::= add1 txid |>).

Definition dnsComputeSuccessMetrics (c : WebObservationsContainer) wa : outcome WebAnalysis :=
  '(wa, _) ← foldM dns_success_turn (wa, zeroSet) (DNSLookupSuccesses c);
  foldM dns_undo_turn wa (range_map 14 (KnownTCPEndpoints c)).*2.

Definition dns_classic_turn (st : WebAnalysis * Set_ Z) obs : outcome (WebAnalysis * Set_ Z) :=
  let '(wa, already) := st in
  txid ← Unwrap (DNSTransactionID obs);
  if set_Contains already txid then Ok (wa, already)
  else
    let already := add1 txid already in
    if beyond_depth0 obs then Ok (wa, already)
    else if IsNone (ControlDNSResolvedAddrs obs) then Ok (wa, already)
    else
      measurement ← Unwrap (DNSResolvedAddrs obs);
      control ← Unwrap (ControlDNSResolvedAddrs obs);
      if (0 <? Len (DNSDiffFindCommonIPAddressIntersection measurement control))%nat then
        Ok (wa <| DNSLookupSuccessWithValidAddressClassic ::= add1 txid |>, already)
      else if (0 <? Len (DNSDiffFindCommonASNsIntersection lookupper measurement control))%nat then
        Ok (wa <| DNSLookupSuccessWithValidAddressClassic ::= add1 txid |>, already)
      else Ok (wa <| DNSLookupSuccessWithInvalidAddressesClassic ::= add1 txid |>, already).

Definition dnsComputeSuccessMetricsClassic (c : WebObservationsContainer) wa : outcome WebAnalysis :=
  fst <$> foldM dns_classic_turn (wa, zeroSet) (DNSLookupSuccesses c).

Definition dns_failure_turn (st : WebAnalysis * Set_ Z) obs : outcome (WebAnalysis * Set_ Z) :=
  let '(wa, already) := st in
  txid ← Unwrap (DNSTransactionID obs);
  if set_Contains already txid then Ok (wa, already)
  else
    let already := add1 txid already in
    if utilsDNSEngineIsDNSOverHTTPS obs then Ok (wa, already)
    else if utilsDNSLookupFailureIsDNSNoAnswerForAAAA obs then Ok (wa, already)
    else if beyond_depth0 obs then
      failure ← Unwrap (DNSLookupFailure obs);
      if nonempty failure then Ok (wa <| DNSLookupUnexplainedFailure ::= add1 txid |>, already)
      else Ok (wa, already)
    else
      failure ← Unwrap (DNSLookupFailure obs);
      let wa := if nonempty failure && IsNone (DNSExperimentFailure wa)
                then wa <| DNSExperimentFailure := DNSLookupFailure obs |> else wa in
      if IsNone (ControlDNSLookupFailure obs) then Ok (wa, already)
      else
        control ← Unwrap (ControlDNSLookupFailure obs);
        if nonempty failure && nonempty control then
          Ok (wa <| DNSLookupExpectedFailure ::= add1 txid |>, already)
        else if nonempty control then Ok (wa, already)
        else if nonempty failure then
          if String.eqb failure FailureDNSNoAnswer &&
             match ControlDNSResolvedAddrs obs with
             | None => false
             | Some addrs => (Len addrs <=? 0)%nat
             end
          then Ok (wa <| DNSLookupExpectedFailure ::= add1 txid |>, already)
          else Ok (wa <| DNSLookupUnexpectedFailure ::= add1 txid |>, already)
        else Ok (wa <| DNSLookupExpectedSuccess ::= add1 txid |>, already).

Definition dnsComputeFailureMetrics (c : WebObservationsContainer) wa : outcome WebAnalysis :=
  fst <$> foldM dns_failure_turn (wa, zeroSet) (DNSLookupFailures c).
End dns.

Section endpoints.
Context `{RangeOrder}.
Implicit Types (wa : WebAnalysis) (obs : WebObservation).

Definition tcp_turn wa obs : outcome WebAnalysis :=
  if IsNone (TCPConnectFailure obs) then Ok wa
  else
    failure ← Unwrap (TCPConnectFailure obs);
    if beyond_depth0 obs then
      if utilsTCPConnectFailureSeemsMisconfiguredIPv6 obs then Ok wa
      else if nonempty failure then
        txid ← Unwrap (EndpointTransactionID obs);
        let wa :=
          if some_true (TagFetchBody obs)
          then wa <| TCPConnectUnexplainedFailureDuringWebFetch ::= add1 txid |>
          else if some_false (TagFetchBody obs)
          then wa <| TCPConnectUnexplainedFailureDuringConnectivityCheck ::= add1 txid |>
          else wa in
        Ok (wa <| TCPConnectUnexplainedFailure ::= add1 txid |>)
      else Ok wa
    else if IsNone (ControlTCPConnectFailure obs) then Ok wa
    else
      control ← Unwrap (ControlTCPConnectFailure obs);
      if nonempty failure && nonempty control then
        txid ← Unwrap (EndpointTransactionID obs);
        Ok (wa <| TCPConnectExpectedFailure ::= add1 txid |>)
      else if nonempty control then Ok wa
      else if nonempty failure then
        if utilsTCPConnectFailureSeemsMisconfiguredIPv6 obs then Ok wa
        else
          txid ← Unwrap (EndpointTransactionID obs);
          let wa :=
            if some_true (TagFetchBody obs)
            then wa <| TCPConnectUnexpectedFailureDuringWebFetch ::= add1 txid |>
            else if some_false (TagFetchBody obs)
            then wa <| TCPConnectUnexpectedFailureDuringConnectivityCheck ::= add1 txid |>
            else wa in
          Ok (wa <| TCPConnectUnexpectedFailure ::= add1 txid |>)
      else Ok wa.

Definition tcpComputeMetrics (c : WebObservationsContainer) wa : outcome WebAnalysis :=
  foldM tcp_turn wa (range_map 15 (KnownTCPEndpoints c)).*2.

Definition tls_turn wa obs : outcome WebAnalysis :=
  if IsNone (TLSHandshakeFailure obs) then Ok wa
  else
    failure ← Unwrap (TLSHandshakeFailure obs);
    if beyond_depth0 obs then
      if nonempty failure then
        txid ← Unwrap (EndpointTransactionID obs);
        let wa :=
          if some_true (TagFetchBody obs)
          then wa <| TLSHandshakeUnexplainedFailureDuringWebFetch ::= add1 txid |>
          else if some_false (TagFetchBody obs)
          then wa <| TLSHandshakeUnexplainedFailureDuringConnectivityCheck ::= add1 txid |>
          else wa in
        Ok (wa <| TLSHandshakeUnexplainedFailure ::= add1 txid |>)
      else Ok wa
    else if IsNone (ControlTLSHandshakeFailure obs) then Ok wa
    else
      control ← Unwrap (ControlTLSHandshakeFailure obs);
      if nonempty failure && nonempty control then
        txid ← Unwrap (EndpointTransactionID obs);
        Ok (wa <| TLSHandshakeExpectedFailure ::= add1 txid |>)
      else if nonempty control then Ok wa
      else if nonempty failure then
        txid ← Unwrap (EndpointTransactionID obs);
        let wa :=
          if some_true (TagFetchBody obs)
          then wa <| TLSHandshakeUnexpectedFailureDuringWebFetch ::= add1 txid |>
          else if some_false (TagFetchBody obs)
          then wa <| TLSHandshakeUnexpectedFailureDuringConnectivityCheck ::= add1 txid |>
          else wa in
        Ok (wa <| TLSHandshakeUnexpectedFailure ::= add1 txid |>)
      else Ok wa.

Definition tlsComputeMetrics (c : WebObservationsContainer) wa : outcome WebAnalysis :=
  foldM tls_turn wa (range_map 16 (KnownTCPEndpoints c)).*2.

Definition http_failure_turn wa obs : outcome WebAnalysis :=
  if IsNone (HTTPFailure obs) then Ok wa
  else
    failure ← Unwrap (HTTPFailure obs);
    if IsNone (ControlHTTPFailure obs) then
      if nonempty failure then
        txid ← Unwrap (EndpointTransactionID obs);
        Ok (wa <| HTTPRoundTripUnexplainedFailure ::= add1 txid |>)
      else Ok wa
    else
      control ← Unwrap (ControlHTTPFailure obs);
      if nonempty failure && nonempty control then Ok wa
      else if nonempty control then Ok wa
      else if nonempty failure then
        txid ← Unwrap (EndpointTransactionID obs);
        Ok (wa <| HTTPRoundTripUnexpectedFailure ::= add1 txid |>)
      else Ok wa.

Definition httpComputeFailureMetrics (c : WebObservationsContainer) wa : outcome WebAnalysis :=
  foldM http_failure_turn wa (range_map 17 (KnownTCPEndpoints c)).*2.
End endpoints.

(** ** The final response

    The functions that compute the differences also return a code, negative
    when there is nothing to compare. *)
Section final.
Context `{RangeOrder} `{UnicodeTables}.
Implicit Types (wa : WebAnalysis) (obs : WebObservation).

Definition httpDiffBodyProportionFactor wa obs : Z * WebAnalysis :=
  if negb (UnwrapOr (HTTPResponseIsFinal obs) false) then (-1, wa)
  else
    let measurement := UnwrapOr (HTTPResponseBodyLength obs) 0 in
    if measurement <=? 0 then (-2, wa)
    else if UnwrapOr (HTTPResponseBodyIsTruncated obs) true then (-3, wa)
    else
      let control := UnwrapOr (ControlHTTPResponseBodyLength obs) 0 in
      if control <=? 0 then (-4, wa)
      else
        let proportion := ComputeHTTPDiffBodyProportionFactor measurement control in
        (0, wa <| HTTPFinalResponseDiffBodyProportionFactor := Some proportion |>).

Definition httpDiffStatusCodeMatch wa obs : Z * WebAnalysis :=
  if negb (UnwrapOr (HTTPResponseIsFinal obs) false) then (-1, wa)
  else
    let measurement := UnwrapOr (HTTPResponseStatusCode obs) 0 in
    if measurement <=? 0 then (-2, wa)
    else
      let control := UnwrapOr (ControlHTTPResponseStatusCode obs) 0 in
      if control <=? 0 then (-3, wa)
      else
        (0, wa <| HTTPFinalResponseDiffStatusCodeMatch :=
                    ComputeHTTPDiffStatusCodeMatch measurement control |>).

Definition httpDiffUncommonHeadersIntersection wa obs : Z * WebAnalysis :=
  if negb (UnwrapOr (HTTPResponseIsFinal obs) false) then (-1, wa)
  else if UnwrapOr (ControlHTTPResponseStatusCode obs) 0 <=? 0 then (-2, wa)
  else
    let measurement := UnwrapOr (HTTPResponseHeadersKeys obs) ∅ in
    let control := UnwrapOr (ControlHTTPResponseHeadersKeys obs) ∅ in
    let state := ComputeHTTPDiffUncommonHeadersIntersection measurement control in
    (Z.of_nat (size state),
     wa <| HTTPFinalResponseDiffUncommonHeadersIntersection := Some state |>).

Definition httpDiffTitleDifferentLongWords wa obs : Z * WebAnalysis :=
  if negb (UnwrapOr (HTTPResponseIsFinal obs) false) then (-1, wa)
  else if UnwrapOr (ControlHTTPResponseStatusCode obs) 0 <=? 0 then (-2, wa)
  else
    let measurement := UnwrapOr (HTTPResponseTitle obs) "" in
    let control := UnwrapOr (ControlHTTPResponseTitle obs) "" in
    let state := ComputeHTTPDiffTitleDifferentLongWords measurement control in
    (Z.of_nat (size state), wa <| HTTPFinalResponseDiffTitleDifferentLongWords := Some state |>).

Definition httpHandleFinalResponse wa obs : outcome WebAnalysis :=
  if IsNone (ControlHTTPFailure obs) then
    if match TLSHandshakeFailure obs with Some f => String.eqb f "" | None => false end
    then Ok (wa <| HTTPFinalResponseSuccessTLSWithoutControl := EndpointTransactionID obs |>)
    else Ok (wa <| HTTPFinalResponseSuccessTCPWithoutControl := EndpointTransactionID obs |>)
  else
    wa ← (match TLSHandshakeFailure obs with
          | Some f =>
              _ ← Assert (String.eqb f "") "expected to see TLS handshake success here";
              Ok (wa <| HTTPFinalResponseSuccessTLSWithControl := EndpointTransactionID obs |>)
          | None => Ok (wa <| HTTPFinalResponseSuccessTCPWithControl := EndpointTransactionID obs |>)
          end);
    let '(_, wa) := httpDiffBodyProportionFactor wa obs in
    let '(_, wa) := httpDiffStatusCodeMatch wa obs in
    let '(_, wa) := httpDiffUncommonHeadersIntersection wa obs in
    let '(_, wa) := httpDiffTitleDifferentLongWords wa obs in
    Ok wa.

(** The loop returns after the first final response. *)
Fixpoint first_final wa (l : list WebObservation) : outcome WebAnalysis :=
  match l with
  | [] => Ok wa
  | obs :: l =>
      if negb (some_true (HTTPResponseIsFinal obs)) then first_final wa l
      else httpHandleFinalResponse wa obs
  end.

Definition httpComputeFinalResponseMetrics (c : WebObservationsContainer) wa : outcome WebAnalysis :=
  first_final wa (range_map 18 (KnownTCPEndpoints c)).*2.
End final.

(** ** The whole analysis *)

Definition AnalyzeWebObservationsWithoutLinearAnalysis `{RangeOrder} `{UnicodeTables}
    (lookupper : GeoIPASNLookupper) (container : WebObservationsContainer) : outcome WebAnalysis :=
  let analysis := newAnalysis (ControlExpectations container) in
  analysis ← dnsComputeSuccessMetrics lookupper container analysis;
  analysis ← dnsComputeSuccessMetricsClassic lookupper container analysis;
  analysis ← dnsComputeFailureMetrics container analysis;
  analysis ← tcpComputeMetrics container analysis;
  analysis ← tlsComputeMetrics container analysis;
  analysis ← httpComputeFailureMetrics container analysis;
  httpComputeFinalResponseMetrics container analysis.

(** *** The linear analysis *)

Definition defaultFailureValue : string := "unknown_failure".

(** The comparison that [sort.SliceStable] is given. *)
Definition linear_less (left right : WebObservation) : bool :=
  if UnwrapOr (TagDepth right) (-1) <? UnwrapOr (TagDepth left) (-1) then true
  else if UnwrapOr (TagDepth left) (-1) <? UnwrapOr (TagDepth right) (-1) then false
  else if type_rank (Type_ right) <? type_rank (Type_ left) then true
  else if type_rank (Type_ left) <? type_rank (Type_ right) then false
  else if String.ltb (UnwrapOr (Failure left) defaultFailureValue)
                     (UnwrapOr (Failure right) defaultFailureValue) then true
  else if String.ltb (UnwrapOr (Failure right) defaultFailureValue)
                     (UnwrapOr (Failure left) defaultFailureValue) then false
  else TransactionID right <? TransactionID left.

Definition NewLinearWebAnalysis `{RangeOrder} `{StableSort} (input : WebObservationsContainer) :
    list WebObservation :=
  let output := DNSLookupFailures input ++ DNSLookupSuccesses input ++
                (range_map 19 (KnownTCPEndpoints input)).*2 in
  SliceStable linear_less output.

Definition AnalyzeWebObservationsWithLinearAnalysis `{RangeOrder} `{UnicodeTables} `{StableSort}
    (lookupper : GeoIPASNLookupper) (container : WebObservationsContainer) : outcome WebAnalysis :=
  analysis ← AnalyzeWebObservationsWithoutLinearAnalysis lookupper container;
  Ok (analysis <| Linear := NewLinearWebAnalysis container |>).
