(* ===== verification/AnalysisFacts.v ===== *)
(** * Analysis: what the metrics are

    The abstract specification classifies every transaction on its own, as a
    [verdict]; the theorems say that the sets the code builds are the
    transactions of each verdict, that no step panics, and that the order of
    map iterations does not matter. *)
From S2P Require Import Prelude Failures GoSort GoString GoFloat GoNet Archival Bogon PipeSet.
From S2P Require Import Observation.
From S2P Require Import Samples ObservationFacts Diff Analysis.

(** ** The specification *)

(** What an operation of the probe says about the network, given the control. *)
Inductive verdict := Quiet | Expected | Unexpected | Unexplained.

#[export] Instance verdict_eq_dec : EqDecision verdict.
Proof. solve_decision. Defined.

(** [probe] and [control] are the failures, the empty string being success;
    at depth zero there may be control information.  An [excused] failure is
    one that the configuration of the probe explains. *)
Definition verdict_of (depth0 excused : bool) (probe control : option string) : verdict :=
  match probe with
  | None | Some "" => Quiet
  | Some _ =>
      if negb depth0 then if excused then Quiet else Unexplained
      else match control with
           | None => Quiet
           | Some "" => if excused then Quiet else Unexpected
           | Some _ => Expected
           end
  end.

Definition tcp_verdict (obs : WebObservation) : verdict :=
  verdict_of (negb (beyond_depth0 obs)) (utilsTCPConnectFailureSeemsMisconfiguredIPv6 obs)
    (TCPConnectFailure obs) (ControlTCPConnectFailure obs).

Definition tls_verdict (obs : WebObservation) : verdict :=
  verdict_of (negb (beyond_depth0 obs)) false (TLSHandshakeFailure obs) (ControlTLSHandshakeFailure obs).

(** HTTP results are compared at any depth, with the final response. *)
Definition http_verdict (obs : WebObservation) : verdict :=
  match HTTPFailure obs, ControlHTTPFailure obs with
  | None, _ | Some "", _ => Quiet
  | Some _, None => Unexplained
  | Some _, Some "" => Unexpected
  | Some _, Some _ => Quiet
  end.

(** ** Loops that add to sets *)

Lemma Add_comm (sx : Set_ Z) x y : add1 x (add1 y sx) = add1 y (add1 x sx).
Proof.
  unfold add1, Add, state_map; simpl. do 2 f_equal.
  destruct (decide (x = y)) as [->|]; [done|]. by apply insert_insert_ne.
Qed.

Lemma Remove_comm (sx : Set_ Z) x y : Remove (Remove sx [x]) [y] = Remove (Remove sx [y]) [x].
Proof.
  unfold Remove; simpl. f_equal. destruct (state sx) as [m|]; [|done]. simpl. f_equal.
  apply delete_delete.
Qed.

Lemma Contains_add1 x (sx : Set_ Z) t : set_Contains (add1 x sx) t = bool_decide (t = x) || set_Contains sx t.
Proof.
  unfold add1. rewrite Contains_Add. f_equal. apply bool_decide_ext. by rewrite list_elem_of_singleton.
Qed.

Section projections.
Context {S A B : Type} (f : S → A → S).

(** A field that the loop does not write. *)
Lemma foldl_frame (p : S → B) s l : (∀ s x, p (f s x) = p s) → p (foldl f s l) = p s.
Proof. intros Hf. revert s. induction l as [|x l IH]; intros s; simpl; [done|]. by rewrite IH. Qed.

(** A set to which the loop adds the IDs of the elements that satisfy [b]. *)
Lemma foldl_adds (p : S → Set_ Z) (b : A → bool) (id : A → Z) s l t :
  (∀ s x, p (f s x) = if b x then add1 (id x) (p s) else p s) →
  set_Contains (p (foldl f s l)) t = true ↔
    set_Contains (p s) t = true ∨ ∃ x, x ∈ l ∧ b x = true ∧ id x = t.
Proof.
  intros Hf. revert s. induction l as [|x l IH]; intros s; simpl.
  - split; [by left|]. intros [?|(x & Hx & _)]; [done|by apply not_elem_of_nil in Hx].
  - rewrite IH, Hf. destruct (b x) eqn:Hb; setoid_rewrite elem_of_cons.
    + rewrite Contains_add1, orb_true_iff, bool_decide_eq_true. split.
      * intros [[->|Hs]|(y & ? & ? & ?)]; [right; exists x; eauto|by left|right; exists y; eauto].
      * intros [Hs|(y & [->|Hy] & ? & <-)]; eauto 6.
    + split.
      * intros [Hs|(y & ? & ? & ?)]; [by left|right; exists y; eauto].
      * intros [Hs|(y & [->|Hy] & ? & <-)]; [by left|congruence|eauto].
Qed.
End projections.

(** ** Endpoints *)

Definition endpoint_id (obs : WebObservation) : Z := default 0 (EndpointTransactionID obs).

Definition fetches (obs : WebObservation) (b : bool) : bool := bool_decide (TagFetchBody obs = Some b).

(** The effect of a verdict on the analysis. *)
Definition tcp_effect (wa : WebAnalysis) (obs : WebObservation) : WebAnalysis :=
  let txid := endpoint_id obs in
  match tcp_verdict obs, TagFetchBody obs with
  | Quiet, _ => wa
  | Expected, _ => wa <| TCPConnectExpectedFailure ::= add1 txid |>
  | Unexpected, Some true =>
      wa <| TCPConnectUnexpectedFailureDuringWebFetch ::= add1 txid |>
        <| TCPConnectUnexpectedFailure ::= add1 txid |>
  | Unexpected, Some false =>
      wa <| TCPConnectUnexpectedFailureDuringConnectivityCheck ::= add1 txid |>
        <| TCPConnectUnexpectedFailure ::= add1 txid |>
  | Unexpected, None => wa <| TCPConnectUnexpectedFailure ::= add1 txid |>
  | Unexplained, Some true =>
      wa <| TCPConnectUnexplainedFailureDuringWebFetch ::= add1 txid |>
        <| TCPConnectUnexplainedFailure ::= add1 txid |>
  | Unexplained, Some false =>
      wa <| TCPConnectUnexplainedFailureDuringConnectivityCheck ::= add1 txid |>
        <| TCPConnectUnexplainedFailure ::= add1 txid |>
  | Unexplained, None => wa <| TCPConnectUnexplainedFailure ::= add1 txid |>
  end.

Definition tls_effect (wa : WebAnalysis) (obs : WebObservation) : WebAnalysis :=
  let txid := endpoint_id obs in
  match tls_verdict obs, TagFetchBody obs with
  | Quiet, _ => wa
  | Expected, _ => wa <| TLSHandshakeExpectedFailure ::= add1 txid |>
  | Unexpected, Some true =>
      wa <| TLSHandshakeUnexpectedFailureDuringWebFetch ::= add1 txid |>
        <| TLSHandshakeUnexpectedFailure ::= add1 txid |>
  | Unexpected, Some false =>
      wa <| TLSHandshakeUnexpectedFailureDuringConnectivityCheck ::= add1 txid |>
        <| TLSHandshakeUnexpectedFailure ::= add1 txid |>
  | Unexpected, None => wa <| TLSHandshakeUnexpectedFailure ::= add1 txid |>
  | Unexplained, Some true =>
      wa <| TLSHandshakeUnexplainedFailureDuringWebFetch ::= add1 txid |>
        <| TLSHandshakeUnexplainedFailure ::= add1 txid |>
  | Unexplained, Some false =>
      wa <| TLSHandshakeUnexplainedFailureDuringConnectivityCheck ::= add1 txid |>
        <| TLSHandshakeUnexplainedFailure ::= add1 txid |>
  | Unexplained, None => wa <| TLSHandshakeUnexplainedFailure ::= add1 txid |>
  end.

Definition http_effect (wa : WebAnalysis) (obs : WebObservation) : WebAnalysis :=
  match http_verdict obs with
  | Unexpected => wa <| HTTPRoundTripUnexpectedFailure ::= add1 (endpoint_id obs) |>
  | Unexplained => wa <| HTTPRoundTripUnexplainedFailure ::= add1 (endpoint_id obs) |>
  | _ => wa
  end.

(** Case analysis on the probe's and the control's failure. *)
Ltac failure_cases f := destruct f as [[|? ?]|]; cbn.

Lemma tcp_turn_effect wa obs :
  is_Some (EndpointTransactionID obs) → tcp_turn wa obs = Ok (tcp_effect wa obs).
Proof.
  intros [txid Htx].
  unfold tcp_turn, tcp_effect, tcp_verdict, verdict_of, endpoint_id, some_true, some_false. rewrite Htx.
  failure_cases (TCPConnectFailure obs); try done; [by destruct (beyond_depth0 obs);
    [destruct (utilsTCPConnectFailureSeemsMisconfiguredIPv6 obs)|failure_cases (ControlTCPConnectFailure obs)]|].
  destruct (beyond_depth0 obs); cbn.
  - destruct (utilsTCPConnectFailureSeemsMisconfiguredIPv6 obs); [done|]. by destruct (TagFetchBody obs) as [[]|].
  - failure_cases (ControlTCPConnectFailure obs); try done.
    destruct (utilsTCPConnectFailureSeemsMisconfiguredIPv6 obs); [done|]. by destruct (TagFetchBody obs) as [[]|].
Qed.

Lemma tls_turn_effect wa obs :
  is_Some (EndpointTransactionID obs) → tls_turn wa obs = Ok (tls_effect wa obs).
Proof.
  intros [txid Htx].
  unfold tls_turn, tls_effect, tls_verdict, verdict_of, endpoint_id, some_true, some_false. rewrite Htx.
  failure_cases (TLSHandshakeFailure obs); try done;
    [by destruct (beyond_depth0 obs); [|failure_cases (ControlTLSHandshakeFailure obs)]|].
  destruct (beyond_depth0 obs); cbn.
  - by destruct (TagFetchBody obs) as [[]|].
  - failure_cases (ControlTLSHandshakeFailure obs); try done.
    by destruct (TagFetchBody obs) as [[]|].
Qed.

Lemma http_turn_effect wa obs :
  is_Some (EndpointTransactionID obs) → http_failure_turn wa obs = Ok (http_effect wa obs).
Proof.
  intros [txid Htx].
  unfold http_failure_turn, http_effect, http_verdict, endpoint_id. rewrite Htx.
  failure_cases (HTTPFailure obs); try done; failure_cases (ControlHTTPFailure obs); done.
Qed.

(** The order of the turns does not matter. *)
Lemma tcp_effect_comm wa x y : tcp_effect (tcp_effect wa x) y = tcp_effect (tcp_effect wa y) x.
Proof.
  unfold tcp_effect. destruct wa.
  destruct (tcp_verdict x), (tcp_verdict y), (TagFetchBody x) as [[]|], (TagFetchBody y) as [[]|];
    cbn; f_equal; apply Add_comm.
Qed.

Lemma tls_effect_comm wa x y : tls_effect (tls_effect wa x) y = tls_effect (tls_effect wa y) x.
Proof.
  unfold tls_effect. destruct wa.
  destruct (tls_verdict x), (tls_verdict y), (TagFetchBody x) as [[]|], (TagFetchBody y) as [[]|];
    cbn; f_equal; apply Add_comm.
Qed.

Lemma http_effect_comm wa x y : http_effect (http_effect wa x) y = http_effect (http_effect wa y) x.
Proof.
  unfold http_effect. destruct wa. destruct (http_verdict x), (http_verdict y); cbn; f_equal; apply Add_comm.
Qed.

(** The effect of a TLS handshake on the DNS verdicts. *)
Definition undoes (obs : WebObservation) : bool :=
  bool_decide (TLSHandshakeFailure obs = Some "") && (0 <? UnwrapOr (DNSTransactionID obs) 0).

Definition undo_effect (wa : WebAnalysis) (obs : WebObservation) : WebAnalysis :=
  let txid := UnwrapOr (DNSTransactionID obs) 0 in
  if undoes obs then
    wa <| DNSLookupSuccessWithInvalidAddresses ::= λ sx, Remove sx [txid] |>
      <| DNSLookupSuccessWithValidAddress ::= add1 txid |>
  else wa.

Lemma undo_turn_effect wa obs : dns_undo_turn wa obs = Ok (undo_effect wa obs).
Proof.
  unfold dns_undo_turn, undo_effect, undoes, nonempty.
  destruct (TLSHandshakeFailure obs) as [[|a s]|]; cbn; [|done|done].
  rewrite bool_decide_eq_true_2 by done. cbn.
  by destruct (Z.leb_spec (UnwrapOr (DNSTransactionID obs) 0) 0),
    (Z.ltb_spec 0 (UnwrapOr (DNSTransactionID obs) 0)); try lia.
Qed.

Lemma undo_effect_comm wa x y : undo_effect (undo_effect wa x) y = undo_effect (undo_effect wa y) x.
Proof.
  unfold undo_effect. destruct wa.
  destruct (undoes x), (undoes y); cbn; f_equal; apply Add_comm || apply Remove_comm.
Qed.

(** ** DNS lookups

    Only the first observation of each transaction counts. *)

Definition dns_id (obs : WebObservation) : Z := default 0 (DNSTransactionID obs).

Fixpoint firsts (seen : list Z) (l : list WebObservation) : list WebObservation :=
  match l with
  | [] => []
  | obs :: l =>
      if bool_decide (dns_id obs ∈ seen) then firsts seen l
      else obs :: firsts (dns_id obs :: seen) l
  end.

Lemma firsts_sublist seen l obs : obs ∈ firsts seen l → obs ∈ l ∧ dns_id obs ∉ seen.
Proof.
  revert seen. induction l as [|o l IH]; intros seen; simpl; [by intros ?%not_elem_of_nil|].
  case_bool_decide as Ho.
  - intros [? ?]%IH. set_solver.
  - intros [->|[? ?]%IH]%elem_of_cons; set_solver.
Qed.

(** The members of [firsts] are the observations that no earlier one of the
    same transaction precedes. *)
Lemma elem_of_firsts l obs :
  obs ∈ firsts [] l ↔
  ∃ before after, l = before ++ obs :: after ∧ dns_id obs ∉ dns_id <$> before.
Proof.
  cut (∀ seen, obs ∈ firsts seen l ↔
    ∃ before after, l = before ++ obs :: after ∧ (dns_id obs ∉ seen) ∧ dns_id obs ∉ dns_id <$> before).
  { intros ->. split; intros (b & a & Hl & Hs); exists b, a; set_solver. }
  induction l as [|o l IH]; intros seen; simpl.
  { split; [by intros ?%not_elem_of_nil|]. intros ([|? ?] & ? & [=] & _). }
  assert (Hcons : (∃ before after, o :: l = before ++ obs :: after ∧ (dns_id obs ∉ seen) ∧ dns_id obs ∉ dns_id <$> before)
    ↔ (o = obs ∧ (dns_id obs ∉ seen)) ∨
      (dns_id obs ≠ dns_id o ∧ ∃ before after, l = before ++ obs :: after ∧ (dns_id obs ∉ seen) ∧ dns_id obs ∉ dns_id <$> before)).
  { split.
    - intros ([|o' before] & after & [= -> ->] & Hs & Hb); [by left|right].
      rewrite fmap_cons, not_elem_of_cons in Hb. destruct Hb as [? ?]. split; [done|]. eauto.
    - intros [[-> Hs]|(Hne & before & after & -> & Hs & Hb)].
      + exists [], l. split_and!; [done|done|apply not_elem_of_nil].
      + exists (o :: before), after. split_and!; [done|done|]. rewrite fmap_cons, not_elem_of_cons. done. }
  rewrite Hcons. case_bool_decide as Ho.
  - rewrite IH. split.
    + intros (b & a & -> & Hs & Hb). right. split; [intros Heq; congruence|eauto].
    + intros [[-> Hs]|[_ Hx]]; [done|done].
  - rewrite elem_of_cons, IH. setoid_rewrite not_elem_of_cons. split.
    + intros [->|(b & a & -> & [Hne Hs] & Hb)]; [by left|right]. eauto 6.
    + intros [[-> Hs]|(Hne & b & a & -> & Hs & Hb)]; [by left|right]. eauto 8.
Qed.

(** A loop that skips the transactions it has already considered. *)
Lemma already_loop turn (effect : WebAnalysis → WebObservation → WebAnalysis) wa l :
  (∀ wa already obs, obs ∈ l → ∃ txid, DNSTransactionID obs = Some txid ∧
     turn (wa, already) obs =
       Ok (if set_Contains already txid then (wa, already) else (effect wa obs, add1 txid already))) →
  ∃ already, foldM turn (wa, zeroSet) l = Ok (foldl effect wa (firsts [] l), already).
Proof.
  intros Hturn.
  assert (Hz : ∀ t, set_Contains (zeroSet : Set_ Z) t = bool_decide (t ∈ ([] : list Z))).
  { intros t. by rewrite Contains_zero. }
  revert Hz. generalize (zeroSet : Set_ Z) as already. generalize ([] : list Z) as seen. revert wa.
  induction l as [|obs l IH]; intros wa seen already Ha; [by eexists|].
  destruct (Hturn wa already obs) as (txid & Htx & Hobs); [set_solver|].
  cbn [foldM]. rewrite Hobs. cbn [mbind outcome_bind firsts].
  assert (Hid : dns_id obs = txid) by (unfold dns_id; by rewrite Htx). rewrite Hid, Ha.
  case_bool_decide; (apply IH; [intros; apply Hturn; set_solver|]); [done|].
  intros t. rewrite Contains_add1, Ha. repeat case_bool_decide; set_solver.
Qed.

(** Cases on the conditions of the code, those of the records left alone. *)
Ltac conditions :=
  repeat match goal with
  | |- context [match ?x with _ => _ end] =>
      match type of x with
      | bool => destruct x eqn:?
      | verdict => destruct x eqn:?
      | option bool => destruct x as [[]|] eqn:?
      end
  end.

Section dns_effects.
Context `{RangeOrder} (lookupper : GeoIPASNLookupper).

(** The resolved addresses agree with the control's. *)
Definition dns_valid (obs : WebObservation) : bool :=
  match DNSResolvedAddrs obs, ControlDNSResolvedAddrs obs with
  | Some measurement, Some control =>
      (0 <? Len (DNSDiffFindCommonIPAddressIntersection measurement control))%nat ||
      (0 <? Len (DNSDiffFindCommonASNsIntersection lookupper measurement control))%nat
  | _, _ => false
  end.

Definition has_control (obs : WebObservation) : bool := negb (IsNone (ControlDNSResolvedAddrs obs)).

Definition success_effect (wa : WebAnalysis) (obs : WebObservation) : WebAnalysis :=
  if beyond_depth0 obs then wa
  else
    let txid := dns_id obs in
    let wa := wa <| DNSLookupSuccess ::= add1 txid |> in
    let wa := if some_true (IPAddressBogon obs)
              then wa <| DNSLookupSuccessWithBogonAddresses ::= add1 txid |> else wa in
    if negb (has_control obs) then wa
    else if dns_valid obs then wa <| DNSLookupSuccessWithValidAddress ::= add1 txid |>
    else wa <| DNSLookupSuccessWithInvalidAddresses ::= add1 txid |>.

Definition classic_effect (wa : WebAnalysis) (obs : WebObservation) : WebAnalysis :=
  if beyond_depth0 obs || negb (has_control obs) then wa
  else if dns_valid obs then wa <| DNSLookupSuccessWithValidAddressClassic ::= add1 (dns_id obs) |>
  else wa <| DNSLookupSuccessWithInvalidAddressesClassic ::= add1 (dns_id obs) |>.

Lemma success_turn_effect wa already obs :
  success_wf obs → ∃ txid, DNSTransactionID obs = Some txid ∧
    dns_success_turn lookupper (wa, already) obs =
      Ok (if set_Contains already txid then (wa, already) else (success_effect wa obs, add1 txid already)).
Proof.
  intros [[_ Htx _ _ _] _ (addrs & addr & Haddrs & _)]. exists (TransactionID obs). split; [done|].
  unfold dns_success_turn, success_effect, dns_valid, has_control, dns_id. rewrite Htx, Haddrs.
  cbn [Unwrap mbind outcome_bind default]. destruct (set_Contains already _); [done|].
  destruct (beyond_depth0 obs); [done|].
  destruct (ControlDNSResolvedAddrs obs) as [control|]; cbn [IsNone negb Unwrap mbind outcome_bind]; [|done].
  by conditions.
Qed.

Lemma classic_turn_effect wa already obs :
  success_wf obs → ∃ txid, DNSTransactionID obs = Some txid ∧
    dns_classic_turn lookupper (wa, already) obs =
      Ok (if set_Contains already txid then (wa, already) else (classic_effect wa obs, add1 txid already)).
Proof.
  intros [[_ Htx _ _ _] _ (addrs & addr & Haddrs & _)]. exists (TransactionID obs). split; [done|].
  unfold dns_classic_turn, classic_effect, dns_valid, has_control, dns_id. rewrite Htx, Haddrs.
  cbn [Unwrap mbind outcome_bind default]. destruct (set_Contains already _); [done|].
  destruct (beyond_depth0 obs); [done|].
  destruct (ControlDNSResolvedAddrs obs) as [control|]; cbn [IsNone negb Unwrap mbind outcome_bind]; [|done].
  by conditions.
Qed.
End dns_effects.

(** Failures of DNS over HTTPS, and AAAA lookups without an answer, say nothing
    about the URL. *)
Definition dns_ignored (obs : WebObservation) : bool :=
  utilsDNSEngineIsDNSOverHTTPS obs || utilsDNSLookupFailureIsDNSNoAnswerForAAAA obs.

(** A control that succeeds without addresses is read as one that had no
    answer, when the probe had none. *)
Definition dns_control (obs : WebObservation) : option string :=
  if bool_decide (DNSLookupFailure obs = Some FailureDNSNoAnswer) &&
     match ControlDNSResolvedAddrs obs with Some addrs => (Len addrs <=? 0)%nat | None => false end &&
     bool_decide (ControlDNSLookupFailure obs = Some "")
  then Some FailureDNSNoAnswer else ControlDNSLookupFailure obs.

Definition dns_verdict (obs : WebObservation) : verdict :=
  if dns_ignored obs then Quiet
  else verdict_of (negb (beyond_depth0 obs)) false (DNSLookupFailure obs) (dns_control obs).

Definition both_succeed (obs : WebObservation) : bool :=
  negb (dns_ignored obs) && negb (beyond_depth0 obs) &&
  bool_decide (DNSLookupFailure obs = Some "") && bool_decide (ControlDNSLookupFailure obs = Some "").

(** A failure of the first request of the measurement. *)
Definition experiment_failure (obs : WebObservation) : bool :=
  negb (dns_ignored obs) && negb (beyond_depth0 obs) &&
  match DNSLookupFailure obs with Some failure => nonempty failure | None => false end.

Definition failure_effect (wa : WebAnalysis) (obs : WebObservation) : WebAnalysis :=
  let txid := dns_id obs in
  let wa := if experiment_failure obs && IsNone (DNSExperimentFailure wa)
            then wa <| DNSExperimentFailure := DNSLookupFailure obs |> else wa in
  match dns_verdict obs with
  | Quiet => if both_succeed obs then wa <| DNSLookupExpectedSuccess ::= add1 txid |> else wa
  | Expected => wa <| DNSLookupExpectedFailure ::= add1 txid |>
  | Unexpected => wa <| DNSLookupUnexpectedFailure ::= add1 txid |>
  | Unexplained => wa <| DNSLookupUnexplainedFailure ::= add1 txid |>
  end.

Lemma failure_turn_effect wa already obs :
  dns_wf obs → ∃ txid, DNSTransactionID obs = Some txid ∧
    dns_failure_turn (wa, already) obs =
      Ok (if set_Contains already txid then (wa, already) else (failure_effect wa obs, add1 txid already)).
Proof.
  intros [_ Htx _ [f Hf] _]. exists (TransactionID obs). split; [done|].
  unfold dns_failure_turn, failure_effect, dns_verdict, verdict_of, both_succeed, experiment_failure,
    dns_control, dns_ignored, dns_id. rewrite Htx, Hf.
  cbn [Unwrap mbind outcome_bind default]. destruct (set_Contains already _); [done|].
  destruct (utilsDNSEngineIsDNSOverHTTPS obs); [done|].
  destruct (utilsDNSLookupFailureIsDNSNoAnswerForAAAA obs); [done|].
  destruct (beyond_depth0 obs); cbn [negb andb orb]; [by destruct f|].
  set (wa' := if nonempty f && IsNone (DNSExperimentFailure wa) then _ else wa). clearbody wa'.
  destruct (ControlDNSLookupFailure obs) as [[|a control]|]; cbn [IsNone Unwrap mbind outcome_bind].
  - rewrite (bool_decide_eq_true_2 (Some "" = Some "")), andb_true_r by done.
    destruct (String.eqb_spec f FailureDNSNoAnswer) as [->|Hne]; cbn [andb].
    + rewrite bool_decide_eq_true_2 by done. cbn [andb].
      by destruct (match ControlDNSResolvedAddrs obs with Some _ => _ | None => _ end).
    + rewrite (bool_decide_eq_false_2 (Some f = Some FailureDNSNoAnswer)) by congruence.
      by destruct f.
  - rewrite (bool_decide_eq_false_2 (Some (String a control) = Some "")), !andb_false_r by done.
    by destruct f.
  - rewrite (bool_decide_eq_false_2 (None = Some "")), !andb_false_r by done.
    by destruct f.
Qed.

(** ** The whole analysis *)

Definition endpoints (c : WebObservationsContainer) : list WebObservation :=
  (map_to_list (KnownTCPEndpoints c)).*2.

Lemma elem_of_endpoints c obs :
  obs ∈ endpoints c ↔ ∃ txid, KnownTCPEndpoints c !! txid = Some obs.
Proof.
  unfold endpoints. rewrite list_elem_of_fmap. split.
  - intros ([k o] & -> & Ho%elem_of_map_to_list). by exists k.
  - intros [k Ho]. exists (k, obs). by rewrite elem_of_map_to_list.
Qed.

Lemma endpoint_id_wf txid obs : endpoint_wf txid obs → endpoint_id obs = txid.
Proof. intros []. unfold endpoint_id. by rewrite ep_endpoint. Qed.

(** The transaction [txid] is that of an endpoint that satisfies [b]. *)
Lemma endpoints_with c (b : WebObservation → bool) txid :
  container_wf c →
  (∃ obs, obs ∈ endpoints c ∧ b obs = true ∧ endpoint_id obs = txid) ↔
  (∃ obs, KnownTCPEndpoints c !! txid = Some obs ∧ b obs = true).
Proof.
  intros Hc. split.
  - intros (obs & (k & Hk)%elem_of_endpoints & Hb & Hid).
    rewrite (endpoint_id_wf k obs) in Hid by (by eapply wf_endpoints). subst. eauto.
  - intros (obs & Hobs & Hb). exists obs. split_and!; [|done|by eapply endpoint_id_wf, wf_endpoints].
    apply elem_of_endpoints. eauto.
Qed.

(** A loop over the endpoints, in any order. *)
Lemma endpoints_loop `{RangeOrder} site turn (effect : WebAnalysis → WebObservation → WebAnalysis) c wa :
  (∀ wa obs, is_Some (EndpointTransactionID obs) → turn wa obs = Ok (effect wa obs)) →
  (∀ wa x y, effect (effect wa x) y = effect (effect wa y) x) →
  container_wf c →
  foldM turn wa (range_map site (KnownTCPEndpoints c)).*2 = Ok (foldl effect wa (endpoints c)).
Proof.
  intros Ht Hcomm Hc. rewrite (foldM_pure _ effect).
  - f_equal. apply foldl_permutation; [by intros|]. unfold endpoints. by rewrite range_map_perm.
  - intros wa' obs [k Hk]%range_map_values. apply Ht.
    exists k. by eapply ep_endpoint, wf_endpoints.
Qed.

Section metrics.
Context `{RangeOrder} `{UnicodeTables} (lookupper : GeoIPASNLookupper).

(** The analysis, the final response aside. *)
Definition metrics (c : WebObservationsContainer) : WebAnalysis :=
  let wa := newAnalysis (ControlExpectations c) in
  let wa := foldl (success_effect lookupper) wa (firsts [] (DNSLookupSuccesses c)) in
  let wa := foldl undo_effect wa (endpoints c) in
  let wa := foldl (classic_effect lookupper) wa (firsts [] (DNSLookupSuccesses c)) in
  let wa := foldl failure_effect wa (firsts [] (DNSLookupFailures c)) in
  let wa := foldl tcp_effect wa (endpoints c) in
  let wa := foldl tls_effect wa (endpoints c) in
  foldl http_effect wa (endpoints c).

Lemma analysis_metrics c :
  container_wf c →
  AnalyzeWebObservationsWithoutLinearAnalysis lookupper c =
  httpComputeFinalResponseMetrics c (metrics c).
Proof.
  intros Hc. pose proof Hc as [Hwf Hws _ _]. rewrite Forall_forall in Hwf, Hws.
  unfold AnalyzeWebObservationsWithoutLinearAnalysis, metrics.
  set (wa0 := newAnalysis _).
  unfold dnsComputeSuccessMetrics.
  destruct (already_loop (dns_success_turn lookupper) (success_effect lookupper) wa0 (DNSLookupSuccesses c))
    as [a1 ->]; [by intros; apply success_turn_effect, Hws|]. cbn [mbind outcome_bind].
  rewrite (endpoints_loop 14 _ undo_effect) by eauto using undo_turn_effect, undo_effect_comm.
  cbn [mbind outcome_bind]. unfold dnsComputeSuccessMetricsClassic.
  edestruct (already_loop (dns_classic_turn lookupper) (classic_effect lookupper))
    as [a2 ->]; [by intros; apply classic_turn_effect, Hws|]. cbn [mbind outcome_bind fmap outcome_fmap fst].
  unfold dnsComputeFailureMetrics.
  edestruct (already_loop dns_failure_turn failure_effect)
    as [a3 ->]; [by intros; apply failure_turn_effect, Hwf|]. cbn [mbind outcome_bind fmap outcome_fmap fst].
  unfold tcpComputeMetrics, tlsComputeMetrics, httpComputeFailureMetrics.
  rewrite (endpoints_loop 15 _ tcp_effect) by eauto using tcp_turn_effect, tcp_effect_comm.
  cbn [mbind outcome_bind].
  rewrite (endpoints_loop 16 _ tls_effect) by eauto using tls_turn_effect, tls_effect_comm.
  cbn [mbind outcome_bind].
  rewrite (endpoints_loop 17 _ http_effect) by eauto using http_turn_effect, http_effect_comm.
  done.
Qed.

(** The final response only writes its own fields. *)
Definition erase_final (wa : WebAnalysis) : WebAnalysis :=
  wa <| HTTPFinalResponseSuccessTLSWithoutControl := None |>
    <| HTTPFinalResponseSuccessTLSWithControl := None |>
    <| HTTPFinalResponseSuccessTCPWithoutControl := None |>
    <| HTTPFinalResponseSuccessTCPWithControl := None |>
    <| HTTPFinalResponseDiffBodyProportionFactor := None |>
    <| HTTPFinalResponseDiffStatusCodeMatch := None |>
    <| HTTPFinalResponseDiffTitleDifferentLongWords := None |>
    <| HTTPFinalResponseDiffUncommonHeadersIntersection := None |>.

Lemma http_diffs_erase wa obs :
  erase_final (httpDiffBodyProportionFactor wa obs).2 = erase_final wa ∧
  erase_final (httpDiffStatusCodeMatch wa obs).2 = erase_final wa ∧
  erase_final (httpDiffUncommonHeadersIntersection wa obs).2 = erase_final wa ∧
  erase_final (httpDiffTitleDifferentLongWords wa obs).2 = erase_final wa.
Proof.
  unfold httpDiffBodyProportionFactor, httpDiffStatusCodeMatch, httpDiffUncommonHeadersIntersection,
    httpDiffTitleDifferentLongWords. destruct wa. split_and!; repeat case_match; done.
Qed.

Lemma final_erase wa wa' obs :
  httpHandleFinalResponse wa obs = Ok wa' → erase_final wa' = erase_final wa.
Proof.
  unfold httpHandleFinalResponse. destruct (IsNone (ControlHTTPFailure obs)).
  { destruct wa. by repeat case_match; intros [= <-]. }
  intros (wa1 & Hwa1 & Hwa')%bind_Ok_inv.
  assert (He : erase_final wa1 = erase_final wa).
  { clear Hwa'. destruct (TLSHandshakeFailure obs) as [f|]; [|by destruct wa; simplify_eq].
    unfold Assert in Hwa1. destruct (String.eqb f ""); by destruct wa; simplify_eq/=. }
  revert Hwa'. destruct (httpDiffBodyProportionFactor wa1 obs) as [n2 wa2] eqn:E2.
  destruct (httpDiffStatusCodeMatch wa2 obs) as [n3 wa3] eqn:E3.
  destruct (httpDiffUncommonHeadersIntersection wa3 obs) as [n4 wa4] eqn:E4.
  destruct (httpDiffTitleDifferentLongWords wa4 obs) as [n5 wa5] eqn:E5. intros [= <-].
  destruct (http_diffs_erase wa1 obs) as (H2 & _). rewrite E2 in H2.
  destruct (http_diffs_erase wa2 obs) as (_ & H3 & _). rewrite E3 in H3.
  destruct (http_diffs_erase wa3 obs) as (_ & _ & H4 & _). rewrite E4 in H4.
  destruct (http_diffs_erase wa4 obs) as (_ & _ & _ & H5). rewrite E5 in H5.
  simpl in *. congruence.
Qed.

Lemma analysis_erase c wa :
  container_wf c → AnalyzeWebObservationsWithoutLinearAnalysis lookupper c = Ok wa →
  erase_final wa = erase_final (metrics c).
Proof.
  intros Hc. rewrite analysis_metrics by done. unfold httpComputeFinalResponseMetrics.
  generalize (metrics c) as wa0. induction (_.*2) as [|obs l IH]; intros wa0; simpl; [by intros [= <-]|].
  destruct (negb _); [apply IH|apply final_erase].
Qed.

(** A field other than those of the final response. *)
Lemma analysis_field {B} (p : WebAnalysis → B) c wa :
  (∀ wa, p (erase_final wa) = p wa) →
  container_wf c → AnalyzeWebObservationsWithoutLinearAnalysis lookupper c = Ok wa →
  p wa = p (metrics c).
Proof. intros Hp Hc Ha%analysis_erase; [|done]. by rewrite <-Hp, Ha. Qed.
End metrics.

(** ** The sets of the endpoints *)

(** [p] is a set that only the loop with [effect] writes, for the
    observations that satisfy [b]. *)
Record written_by (p : WebAnalysis → Set_ Z) (effect : WebAnalysis → WebObservation → WebAnalysis)
    (b : WebObservation → bool) : Prop := {
  wb_final wa : p (erase_final wa) = p wa;
  wb_new e : p (newAnalysis e) = zeroSet;
  wb_effect wa obs : p (effect wa obs) = if b obs then add1 (endpoint_id obs) (p wa) else p wa;
}.

Definition untouched (p : WebAnalysis → Set_ Z)
    (effect : WebAnalysis → WebObservation → WebAnalysis) : Prop :=
  ∀ wa obs, p (effect wa obs) = p wa.

Section endpoint_sets.
Context `{RangeOrder} `{UnicodeTables} (lookupper : GeoIPASNLookupper).

Lemma tcp_set p b c wa :
  written_by p tcp_effect b →
  untouched p (success_effect lookupper) → untouched p undo_effect →
  untouched p (classic_effect lookupper) → untouched p failure_effect →
  untouched p tls_effect → untouched p http_effect →
  container_wf c → AnalyzeWebObservationsWithoutLinearAnalysis lookupper c = Ok wa →
  ∀ t, set_Contains (p wa) t = true ↔ ∃ obs, KnownTCPEndpoints c !! t = Some obs ∧ b obs = true.
Proof.
  intros [Hfin Hnew Heff] H1 H2 H3 H4 H5 H6 Hc Ha t.
  rewrite (analysis_field lookupper p c wa Hfin Hc Ha). unfold metrics.
  rewrite (foldl_frame http_effect p) by apply H6. rewrite (foldl_frame tls_effect p) by apply H5.
  rewrite (foldl_adds tcp_effect p b endpoint_id) by apply Heff.
  rewrite (foldl_frame failure_effect p) by apply H4.
  rewrite (foldl_frame (classic_effect lookupper) p) by apply H3.
  rewrite (foldl_frame undo_effect p) by apply H2.
  rewrite (foldl_frame (success_effect lookupper) p) by apply H1.
  rewrite Hnew, Contains_zero, endpoints_with by done. naive_solver.
Qed.

Lemma tls_set p b c wa :
  written_by p tls_effect b →
  untouched p (success_effect lookupper) → untouched p undo_effect →
  untouched p (classic_effect lookupper) → untouched p failure_effect →
  untouched p tcp_effect → untouched p http_effect →
  container_wf c → AnalyzeWebObservationsWithoutLinearAnalysis lookupper c = Ok wa →
  ∀ t, set_Contains (p wa) t = true ↔ ∃ obs, KnownTCPEndpoints c !! t = Some obs ∧ b obs = true.
Proof.
  intros [Hfin Hnew Heff] H1 H2 H3 H4 H5 H6 Hc Ha t.
  rewrite (analysis_field lookupper p c wa Hfin Hc Ha). unfold metrics.
  rewrite (foldl_frame http_effect p) by apply H6.
  rewrite (foldl_adds tls_effect p b endpoint_id) by apply Heff.
  rewrite (foldl_frame tcp_effect p) by apply H5.
  rewrite (foldl_frame failure_effect p) by apply H4.
  rewrite (foldl_frame (classic_effect lookupper) p) by apply H3.
  rewrite (foldl_frame undo_effect p) by apply H2.
  rewrite (foldl_frame (success_effect lookupper) p) by apply H1.
  rewrite Hnew, Contains_zero, endpoints_with by done. naive_solver.
Qed.

Lemma http_set p b c wa :
  written_by p http_effect b →
  untouched p (success_effect lookupper) → untouched p undo_effect →
  untouched p (classic_effect lookupper) → untouched p failure_effect →
  untouched p tcp_effect → untouched p tls_effect →
  container_wf c → AnalyzeWebObservationsWithoutLinearAnalysis lookupper c = Ok wa →
  ∀ t, set_Contains (p wa) t = true ↔ ∃ obs, KnownTCPEndpoints c !! t = Some obs ∧ b obs = true.
Proof.
  intros [Hfin Hnew Heff] H1 H2 H3 H4 H5 H6 Hc Ha t.
  rewrite (analysis_field lookupper p c wa Hfin Hc Ha). unfold metrics.
  rewrite (foldl_adds http_effect p b endpoint_id) by apply Heff.
  rewrite (foldl_frame tls_effect p) by apply H6.
  rewrite (foldl_frame tcp_effect p) by apply H5.
  rewrite (foldl_frame failure_effect p) by apply H4.
  rewrite (foldl_frame (classic_effect lookupper) p) by apply H3.
  rewrite (foldl_frame undo_effect p) by apply H2.
  rewrite (foldl_frame (success_effect lookupper) p) by apply H1.
  rewrite Hnew, Contains_zero, endpoints_with by done. naive_solver.
Qed.
End endpoint_sets.

(** Who writes a given set. *)
Ltac not_written := intros; try (intros ?wa ?obs);
  unfold success_effect, undo_effect, classic_effect, failure_effect, tcp_effect, tls_effect, http_effect;
  cbv zeta; conditions; reflexivity.

Ltac is_written := split; [by intros []|done|]; intros ?wa ?obs;
  unfold success_effect, undo_effect, classic_effect, failure_effect, tcp_effect, tls_effect, http_effect, fetches;
  cbv zeta; conditions; rewrite ?andb_true_iff, ?andb_false_iff, ?bool_decide_eq_true, ?bool_decide_eq_false in *;
  destruct_and?; destruct_or?; simplify_eq; try congruence; reflexivity.

(** The sets of a layer, read together: a loop leaves all of them alone. *)
Definition tcp_part (wa : WebAnalysis) : list (Set_ Z) :=
  [ TCPConnectExpectedFailure wa; TCPConnectUnexpectedFailure wa;
    TCPConnectUnexpectedFailureDuringWebFetch wa; TCPConnectUnexpectedFailureDuringConnectivityCheck wa;
    TCPConnectUnexplainedFailure wa; TCPConnectUnexplainedFailureDuringWebFetch wa;
    TCPConnectUnexplainedFailureDuringConnectivityCheck wa ].

Definition tls_part (wa : WebAnalysis) : list (Set_ Z) :=
  [ TLSHandshakeExpectedFailure wa; TLSHandshakeUnexpectedFailure wa;
    TLSHandshakeUnexpectedFailureDuringWebFetch wa; TLSHandshakeUnexpectedFailureDuringConnectivityCheck wa;
    TLSHandshakeUnexplainedFailure wa; TLSHandshakeUnexplainedFailureDuringWebFetch wa;
    TLSHandshakeUnexplainedFailureDuringConnectivityCheck wa ].

Definition http_part (wa : WebAnalysis) : list (Set_ Z) :=
  [ HTTPRoundTripUnexpectedFailure wa; HTTPRoundTripUnexplainedFailure wa ].

Definition leaves (part : WebAnalysis → list (Set_ Z))
    (effect : WebAnalysis → WebObservation → WebAnalysis) : Prop :=
  ∀ wa obs, part (effect wa obs) = part wa.

Section leaves.
Context `{RangeOrder} (lookupper : GeoIPASNLookupper).

Lemma dns_leaves part :
  part = tcp_part ∨ part = tls_part ∨ part = http_part →
  leaves part (success_effect lookupper) ∧ leaves part undo_effect ∧
  leaves part (classic_effect lookupper) ∧ leaves part failure_effect.
Proof. intros [-> | [-> | ->]]; split_and!; not_written. Qed.

Lemma tcp_leaves : leaves tcp_part tls_effect ∧ leaves tcp_part http_effect.
Proof. split; not_written. Qed.

Lemma tls_leaves : leaves tls_part tcp_effect ∧ leaves tls_part http_effect.
Proof. split; not_written. Qed.

Lemma http_leaves : leaves http_part tcp_effect ∧ leaves http_part tls_effect.
Proof. split; not_written. Qed.

Lemma untouched_nth part i effect : leaves part effect → untouched (λ wa, nth i (part wa) zeroSet) effect.
Proof. intros Hl wa obs. by rewrite Hl. Qed.
End leaves.

(** The transactions of [c] whose endpoint satisfies [P]. *)
Definition transactions (c : WebObservationsContainer) (P : WebObservation → Prop) (sx : Set_ Z) : Prop :=
  ∀ txid, set_Contains sx txid = true ↔ ∃ obs, KnownTCPEndpoints c !! txid = Some obs ∧ P obs.

Lemma transactions_bool c (P : WebObservation → Prop) b sx :
  (∀ obs, b obs = true ↔ P obs) →
  (∀ t, set_Contains sx t = true ↔ ∃ obs, KnownTCPEndpoints c !! t = Some obs ∧ b obs = true) →
  transactions c P sx.
Proof. intros Hb Hs t. rewrite Hs. by setoid_rewrite Hb. Qed.

(** [member part i] is the set number [i] of a layer. *)
Definition member (part : WebAnalysis → list (Set_ Z)) (i : nat) (wa : WebAnalysis) : Set_ Z :=
  nth i (part wa) zeroSet.

Section layers.
Context `{RangeOrder} `{UnicodeTables} (lookupper : GeoIPASNLookupper).
Context (c : WebObservationsContainer) (wa : WebAnalysis).
Context (Hc : container_wf c)
  (Ha : AnalyzeWebObservationsWithoutLinearAnalysis lookupper c = Ok wa).

Lemma tcp_member i b P :
  (∀ obs, b obs = true ↔ P obs) → written_by (member tcp_part i) tcp_effect b →
  transactions c P (member tcp_part i wa).
Proof.
  intros Hb Hw. apply (transactions_bool _ _ b); [done|].
  destruct (dns_leaves lookupper tcp_part) as (? & ? & ? & ?); [by left|]. destruct tcp_leaves.
  by eapply tcp_set; eauto using untouched_nth; apply untouched_nth.
Qed.

Lemma tls_member i b P :
  (∀ obs, b obs = true ↔ P obs) → written_by (member tls_part i) tls_effect b →
  transactions c P (member tls_part i wa).
Proof.
  intros Hb Hw. apply (transactions_bool _ _ b); [done|].
  destruct (dns_leaves lookupper tls_part) as (? & ? & ? & ?); [by right; left|]. destruct tls_leaves.
  by eapply tls_set; eauto using untouched_nth; apply untouched_nth.
Qed.

Lemma http_member i b P :
  (∀ obs, b obs = true ↔ P obs) → written_by (member http_part i) http_effect b →
  transactions c P (member http_part i wa).
Proof.
  intros Hb Hw. apply (transactions_bool _ _ b); [done|].
  destruct (dns_leaves lookupper http_part) as (? & ? & ? & ?); [by right; right|]. destruct http_leaves.
  by eapply http_set; eauto using untouched_nth; apply untouched_nth.
Qed.
End layers.

(** Verdict tests, as booleans and as propositions. *)
Definition judged (v : WebObservation → verdict) (expected : verdict) (obs : WebObservation) : Prop :=
  v obs = expected.

Definition judged_fetch (v : WebObservation → verdict) (expected : verdict) (fetch : bool)
    (obs : WebObservation) : Prop := v obs = expected ∧ TagFetchBody obs = Some fetch.

Lemma judged_bool v expected obs : bool_decide (v obs = expected) = true ↔ judged v expected obs.
Proof. apply bool_decide_eq_true. Qed.

Lemma judged_fetch_bool v expected fetch obs :
  bool_decide (v obs = expected) && fetches obs fetch = true ↔ judged_fetch v expected fetch obs.
Proof. unfold fetches, judged_fetch. by rewrite andb_true_iff, !bool_decide_eq_true. Qed.

(** C32: once the analysis returns, each set of TCP connect results is the set of the
    transactions whose verdict it is named after; the sets named after a
    web fetch or a connectivity check split them by the fetch_body tag. *)
Theorem tcp_metrics_spec `{RangeOrder} `{UnicodeTables} lookupper c wa
    (Hc : container_wf c) (Ha : AnalyzeWebObservationsWithoutLinearAnalysis lookupper c = Ok wa) :
  transactions c (judged tcp_verdict Expected) (TCPConnectExpectedFailure wa) ∧
  transactions c (judged tcp_verdict Unexpected) (TCPConnectUnexpectedFailure wa) ∧
  transactions c (judged_fetch tcp_verdict Unexpected true) (TCPConnectUnexpectedFailureDuringWebFetch wa) ∧
  transactions c (judged_fetch tcp_verdict Unexpected false)
    (TCPConnectUnexpectedFailureDuringConnectivityCheck wa) ∧
  transactions c (judged tcp_verdict Unexplained) (TCPConnectUnexplainedFailure wa) ∧
  transactions c (judged_fetch tcp_verdict Unexplained true) (TCPConnectUnexplainedFailureDuringWebFetch wa) ∧
  transactions c (judged_fetch tcp_verdict Unexplained false)
    (TCPConnectUnexplainedFailureDuringConnectivityCheck wa).
Proof.
  split_and!;
    [ apply (tcp_member lookupper c wa Hc Ha 0 _ _ (judged_bool _ _))
    | apply (tcp_member lookupper c wa Hc Ha 1 _ _ (judged_bool _ _))
    | apply (tcp_member lookupper c wa Hc Ha 2 _ _ (judged_fetch_bool _ _ _))
    | apply (tcp_member lookupper c wa Hc Ha 3 _ _ (judged_fetch_bool _ _ _))
    | apply (tcp_member lookupper c wa Hc Ha 4 _ _ (judged_bool _ _))
    | apply (tcp_member lookupper c wa Hc Ha 5 _ _ (judged_fetch_bool _ _ _))
    | apply (tcp_member lookupper c wa Hc Ha 6 _ _ (judged_fetch_bool _ _ _)) ];
    is_written.
Qed.
