(* ===== verification/AnalysisTheorems.v ===== *)
(** * Analysis: theorems

    The TLS, HTTP and DNS sets, their disjointness, the absence of panics and
    the independence from the order of map iterations. *)
From S2P Require Import Prelude Failures GoSort GoString GoFloat GoNet Archival Bogon PipeSet.
From S2P Require Import Observation.
From S2P Require Import Samples ObservationFacts Diff Analysis AnalysisFacts.

(** C33: the sets of TLS handshakes and HTTP round trips are those of the
    transactions of each verdict. *)
Theorem tls_http_metrics_spec `{RangeOrder} `{UnicodeTables} lookupper c wa
    (Hc : container_wf c) (Ha : AnalyzeWebObservationsWithoutLinearAnalysis lookupper c = Ok wa) :
  transactions c (judged tls_verdict Expected) (TLSHandshakeExpectedFailure wa) ∧
  transactions c (judged tls_verdict Unexpected) (TLSHandshakeUnexpectedFailure wa) ∧
  transactions c (judged_fetch tls_verdict Unexpected true) (TLSHandshakeUnexpectedFailureDuringWebFetch wa) ∧
  transactions c (judged_fetch tls_verdict Unexpected false)
    (TLSHandshakeUnexpectedFailureDuringConnectivityCheck wa) ∧
  transactions c (judged tls_verdict Unexplained) (TLSHandshakeUnexplainedFailure wa) ∧
  transactions c (judged_fetch tls_verdict Unexplained true) (TLSHandshakeUnexplainedFailureDuringWebFetch wa) ∧
  transactions c (judged_fetch tls_verdict Unexplained false)
    (TLSHandshakeUnexplainedFailureDuringConnectivityCheck wa) ∧
  transactions c (judged http_verdict Unexpected) (HTTPRoundTripUnexpectedFailure wa) ∧
  transactions c (judged http_verdict Unexplained) (HTTPRoundTripUnexplainedFailure wa).
Proof.
  split_and!;
    [ apply (tls_member lookupper c wa Hc Ha 0 _ _ (judged_bool _ _))
    | apply (tls_member lookupper c wa Hc Ha 1 _ _ (judged_bool _ _))
    | apply (tls_member lookupper c wa Hc Ha 2 _ _ (judged_fetch_bool _ _ _))
    | apply (tls_member lookupper c wa Hc Ha 3 _ _ (judged_fetch_bool _ _ _))
    | apply (tls_member lookupper c wa Hc Ha 4 _ _ (judged_bool _ _))
    | apply (tls_member lookupper c wa Hc Ha 5 _ _ (judged_fetch_bool _ _ _))
    | apply (tls_member lookupper c wa Hc Ha 6 _ _ (judged_fetch_bool _ _ _))
    | apply (http_member lookupper c wa Hc Ha 0 _ _ (judged_bool _ _))
    | apply (http_member lookupper c wa Hc Ha 1 _ _ (judged_bool _ _)) ];
    is_written.
Qed.

(** ** DNS *)

(** Cases on the conditions of the effects of a successful lookup. *)
Ltac success_cases :=
  unfold success_effect, classic_effect; cbv zeta;
  repeat match goal with
  | |- context [beyond_depth0 ?o] => destruct (beyond_depth0 o)
  | |- context [has_control ?o] => destruct (has_control o)
  | |- context [dns_valid ?l ?o] => destruct (dns_valid l o)
  | |- context [some_true ?o] => destruct (some_true o)
  end; reflexivity.

(** The observation that counts for the DNS transaction [txid]. *)
Definition first_lookup (l : list WebObservation) (txid : Z) (obs : WebObservation) : Prop :=
  dns_id obs = txid ∧ ∃ before after, l = before ++ obs :: after ∧ txid ∉ dns_id <$> before.

Lemma first_lookup_firsts l txid obs : first_lookup l txid obs ↔ obs ∈ firsts [] l ∧ dns_id obs = txid.
Proof.
  unfold first_lookup. rewrite elem_of_firsts. split.
  - by intros [<- ?].
  - by intros [? <-].
Qed.

Lemma first_lookup_unique l txid obs1 obs2 :
  first_lookup l txid obs1 → first_lookup l txid obs2 → obs1 = obs2.
Proof.
  intros [H1 (b1 & a1 & Hl & Hb1)] [H2 (b2 & a2 & Hl2 & Hb2)]. rewrite Hl in Hl2. clear Hl.
  revert b2 Hl2 Hb2. induction b1 as [|o b1 IH]; intros [|o2 b2] [= <- Hl] Hb2; try done;
    rewrite ?fmap_cons, ?not_elem_of_cons in Hb1; rewrite ?fmap_cons, ?not_elem_of_cons in Hb2.
  - by destruct Hb2.
  - by destruct Hb1.
  - destruct Hb1, Hb2. by eapply IH.
Qed.

(** A loop that removes. *)
Lemma foldl_undo_invalid wa l t :
  set_Contains (DNSLookupSuccessWithInvalidAddresses (foldl undo_effect wa l)) t = true ↔
  set_Contains (DNSLookupSuccessWithInvalidAddresses wa) t = true ∧
  ¬ ∃ obs, obs ∈ l ∧ undoes obs = true ∧ UnwrapOr (DNSTransactionID obs) 0 = t.
Proof.
  revert wa. induction l as [|obs l IH]; intros wa; cbn [foldl].
  { split; [|by intros []]. intros ?. split; [done|]. by intros (? & ?%not_elem_of_nil & _). }
  assert (Heff : DNSLookupSuccessWithInvalidAddresses (undo_effect wa obs) =
    if undoes obs then Remove (DNSLookupSuccessWithInvalidAddresses wa) [UnwrapOr (DNSTransactionID obs) 0]
    else DNSLookupSuccessWithInvalidAddresses wa) by (unfold undo_effect; by destruct (undoes obs)).
  rewrite IH, Heff. setoid_rewrite elem_of_cons. destruct (undoes obs) eqn:Hu.
  - rewrite Contains_Remove, andb_true_iff, negb_true_iff, bool_decide_eq_false, list_elem_of_singleton.
    split.
    + intros [[Hne Hin] Hno]. split; [done|]. intros (o & [->|Ho] & Huo & Hid); [congruence|].
      apply Hno. eauto.
    + intros [Hin Hno]. split; [split; [|done]|].
      * intros ->. apply Hno. eauto.
      * intros (o & Ho & Huo & Hid). apply Hno. eauto.
  - split; intros [Hin Hno]; (split; [done|]).
    + intros (o & [->|Ho] & Huo & Hid); [congruence|]. apply Hno. eauto.
    + intros (o & Ho & Huo & Hid). apply Hno. eauto.
Qed.

Section dns.
Context `{RangeOrder} `{UnicodeTables} (lookupper : GeoIPASNLookupper).
Context (c : WebObservationsContainer) (wa : WebAnalysis).
Context (Hc : container_wf c)
  (Ha : AnalyzeWebObservationsWithoutLinearAnalysis lookupper c = Ok wa).

(** A TLS handshake with an address of the lookup [txid] succeeded. *)
Definition tls_proves (txid : Z) : Prop :=
  0 < txid ∧ ∃ k obs, KnownTCPEndpoints c !! k = Some obs ∧
    TLSHandshakeFailure obs = Some "" ∧ DNSTransactionID obs = Some txid.

Lemma tls_proves_undoes txid :
  (∃ obs, obs ∈ endpoints c ∧ undoes obs = true ∧ UnwrapOr (DNSTransactionID obs) 0 = txid) ↔
  tls_proves txid.
Proof.
  unfold undoes, tls_proves. split.
  - intros (obs & [k Hk]%elem_of_endpoints & [Hu Hpos]%andb_true_iff & <-).
    apply bool_decide_eq_true in Hu. apply Z.ltb_lt in Hpos. split; [done|].
    exists k, obs. destruct (DNSTransactionID obs); done.
  - intros (Hpos & k & obs & Hk & Ht & Hid). exists obs. rewrite elem_of_endpoints, Ht, Hid.
    split_and!; [eauto| |done]. rewrite bool_decide_eq_true_2 by done. by apply Z.ltb_lt.
Qed.

(** The lookups of the first request, before any redirect. *)
Definition judged_lookup (P : WebObservation → Prop) (txid : Z) : Prop :=
  ∃ obs, first_lookup (DNSLookupSuccesses c) txid obs ∧ TagDepth obs = Some 0 ∧ P obs.

Lemma beyond_depth0_false obs : beyond_depth0 obs = false ↔ TagDepth obs = Some 0.
Proof.
  unfold beyond_depth0. destruct (TagDepth obs) as [d|]; [|done].
  rewrite negb_false_iff, Z.eqb_eq. naive_solver.
Qed.

Lemma judged_lookup_firsts (b : WebObservation → bool) P txid :
  (∀ obs, b obs = true ↔ TagDepth obs = Some 0 ∧ P obs) →
  (∃ obs, obs ∈ firsts [] (DNSLookupSuccesses c) ∧ b obs = true ∧ dns_id obs = txid) ↔
  judged_lookup P txid.
Proof.
  intros Hb. unfold judged_lookup. setoid_rewrite first_lookup_firsts. split.
  - intros (obs & Hin & [? ?]%Hb & Hid). eauto 6.
  - intros (obs & [Hin Hid] & Ht & HP). exists obs. rewrite Hb. done.
Qed.

(** A set that only [success_effect] writes. *)
Lemma success_set p (b : WebObservation → bool) P txid :
  (∀ obs, b obs = true ↔ TagDepth obs = Some 0 ∧ P obs) →
  (∀ wa, p (erase_final wa) = p wa) → (∀ e, p (newAnalysis e) = zeroSet) →
  (∀ wa obs, p (success_effect lookupper wa obs) = if b obs then add1 (dns_id obs) (p wa) else p wa) →
  untouched p undo_effect → untouched p (classic_effect lookupper) → untouched p failure_effect →
  untouched p tcp_effect → untouched p tls_effect → untouched p http_effect →
  set_Contains (p wa) txid = true ↔ judged_lookup P txid.
Proof.
  intros Hb Hfin Hnew Heff H1 H2 H3 H4 H5 H6.
  rewrite (analysis_field lookupper p c wa Hfin Hc Ha). unfold metrics.
  rewrite (foldl_frame http_effect p) by apply H6. rewrite (foldl_frame tls_effect p) by apply H5.
  rewrite (foldl_frame tcp_effect p) by apply H4. rewrite (foldl_frame failure_effect p) by apply H3.
  rewrite (foldl_frame (classic_effect lookupper) p) by apply H2.
  rewrite (foldl_frame undo_effect p) by apply H1.
  rewrite (foldl_adds (success_effect lookupper) p b dns_id) by apply Heff.
  rewrite Hnew, Contains_zero, (judged_lookup_firsts b P) by done. naive_solver.
Qed.

(** The lookup has control information, and agrees or not with it. *)
Definition agrees (obs : WebObservation) : Prop :=
  ∃ measurement control, DNSResolvedAddrs obs = Some measurement ∧
    ControlDNSResolvedAddrs obs = Some control ∧ consistent lookupper measurement control.

Definition disagrees (obs : WebObservation) : Prop :=
  is_Some (ControlDNSResolvedAddrs obs) ∧ ¬ agrees obs.

Lemma dns_valid_agrees obs : dns_valid lookupper obs = true ↔ agrees obs.
Proof.
  unfold dns_valid, agrees, consistent.
  destruct (DNSResolvedAddrs obs) as [m|], (ControlDNSResolvedAddrs obs) as [k|];
    try (split; [done|]; intros (? & ? & ? & ? & _); done).
  destruct (intersections_nonempty lookupper m k) as [H1 H2]. rewrite orb_true_iff, H1, H2. split.
  - intros Hx. exists m, k. by split_and!.
  - by intros (? & ? & [= <-] & [= <-] & Hx).
Qed.

Lemma agrees_bool obs :
  negb (beyond_depth0 obs) && has_control obs && dns_valid lookupper obs = true ↔
  TagDepth obs = Some 0 ∧ agrees obs.
Proof.
  rewrite !andb_true_iff, negb_true_iff, beyond_depth0_false, dns_valid_agrees.
  unfold has_control, agrees. destruct (ControlDNSResolvedAddrs obs); naive_solver.
Qed.

Lemma disagrees_bool obs :
  negb (beyond_depth0 obs) && has_control obs && negb (dns_valid lookupper obs) = true ↔
  TagDepth obs = Some 0 ∧ disagrees obs.
Proof.
  rewrite !andb_true_iff, !negb_true_iff, beyond_depth0_false, <-not_true_iff_false, dns_valid_agrees.
  unfold has_control, disagrees. destruct (ControlDNSResolvedAddrs obs); simpl.
  - split; [intros [[] ?]; split; eauto|intros (? & ? & ?); eauto].
  - split; [by intros [[] ?]|by intros (? & [? ?] & ?)].
Qed.

Lemma valid_spec txid :
  set_Contains (DNSLookupSuccessWithValidAddress wa) txid = true ↔ judged_lookup agrees txid ∨ tls_proves txid.
Proof.
  rewrite (analysis_field lookupper DNSLookupSuccessWithValidAddress c wa (λ _, eq_refl) Hc Ha).
  unfold metrics.
  rewrite (foldl_frame http_effect DNSLookupSuccessWithValidAddress) by not_written.
  rewrite (foldl_frame tls_effect DNSLookupSuccessWithValidAddress) by not_written.
  rewrite (foldl_frame tcp_effect DNSLookupSuccessWithValidAddress) by not_written.
  rewrite (foldl_frame failure_effect DNSLookupSuccessWithValidAddress) by not_written.
  rewrite (foldl_frame (classic_effect lookupper) DNSLookupSuccessWithValidAddress) by not_written.
  rewrite (foldl_adds undo_effect DNSLookupSuccessWithValidAddress undoes
    (λ obs, UnwrapOr (DNSTransactionID obs) 0)), tls_proves_undoes
    by (intros; unfold undo_effect; by destruct (undoes _)).
  rewrite (foldl_adds (success_effect lookupper) DNSLookupSuccessWithValidAddress
    (λ obs, negb (beyond_depth0 obs) && has_control obs && dns_valid lookupper obs) dns_id)
    by (intros; success_cases).
  rewrite (judged_lookup_firsts _ agrees) by apply agrees_bool.
  change (set_Contains (DNSLookupSuccessWithValidAddress (newAnalysis _)) txid)
    with (set_Contains (zeroSet : Set_ Z) txid).
  rewrite Contains_zero. naive_solver.
Qed.

Lemma invalid_spec txid :
  set_Contains (DNSLookupSuccessWithInvalidAddresses wa) txid = true ↔
  judged_lookup disagrees txid ∧ ¬ tls_proves txid.
Proof.
  rewrite (analysis_field lookupper DNSLookupSuccessWithInvalidAddresses c wa (λ _, eq_refl) Hc Ha).
  unfold metrics.
  rewrite (foldl_frame http_effect DNSLookupSuccessWithInvalidAddresses) by not_written.
  rewrite (foldl_frame tls_effect DNSLookupSuccessWithInvalidAddresses) by not_written.
  rewrite (foldl_frame tcp_effect DNSLookupSuccessWithInvalidAddresses) by not_written.
  rewrite (foldl_frame failure_effect DNSLookupSuccessWithInvalidAddresses) by not_written.
  rewrite (foldl_frame (classic_effect lookupper) DNSLookupSuccessWithInvalidAddresses) by not_written.
  rewrite foldl_undo_invalid, tls_proves_undoes.
  rewrite (foldl_adds (success_effect lookupper) DNSLookupSuccessWithInvalidAddresses
    (λ obs, negb (beyond_depth0 obs) && has_control obs && negb (dns_valid lookupper obs)) dns_id)
    by (intros; success_cases).
  rewrite (judged_lookup_firsts _ disagrees) by apply disagrees_bool.
  change (set_Contains (DNSLookupSuccessWithInvalidAddresses (newAnalysis _)) txid)
    with (set_Contains (zeroSet : Set_ Z) txid).
  rewrite Contains_zero. naive_solver.
Qed.

Lemma classic_spec p (b : WebObservation → bool) P txid :
  (∀ obs, b obs = true ↔ TagDepth obs = Some 0 ∧ P obs) →
  (∀ wa, p (erase_final wa) = p wa) → (∀ e, p (newAnalysis e) = zeroSet) →
  (∀ wa obs, p (classic_effect lookupper wa obs) = if b obs then add1 (dns_id obs) (p wa) else p wa) →
  untouched p (success_effect lookupper) → untouched p undo_effect → untouched p failure_effect →
  untouched p tcp_effect → untouched p tls_effect → untouched p http_effect →
  set_Contains (p wa) txid = true ↔ judged_lookup P txid.
Proof.
  intros Hb Hfin Hnew Heff H1 H2 H3 H4 H5 H6.
  rewrite (analysis_field lookupper p c wa Hfin Hc Ha). unfold metrics.
  rewrite (foldl_frame http_effect p) by apply H6. rewrite (foldl_frame tls_effect p) by apply H5.
  rewrite (foldl_frame tcp_effect p) by apply H4. rewrite (foldl_frame failure_effect p) by apply H3.
  rewrite (foldl_adds (classic_effect lookupper) p b dns_id) by apply Heff.
  rewrite (foldl_frame undo_effect p) by apply H2.
  rewrite (foldl_frame (success_effect lookupper) p) by apply H1.
  rewrite Hnew, Contains_zero, (judged_lookup_firsts b P) by done. naive_solver.
Qed.
End dns.

(** the DNS sets of successful lookups. Only the first observation of a
    transaction before any redirect counts; it is flagged as a bogon after the
    first of its addresses; it is valid when it shares an address or an AS
    number with the control or when a TLS handshake with one of its addresses
    succeeds, and invalid when it has a control and is not valid; no
    transaction is both valid and invalid. *)
Theorem dns_success_metrics_spec `{RangeOrder} `{UnicodeTables} lookupper c wa
    (Hc : container_wf c) (Ha : AnalyzeWebObservationsWithoutLinearAnalysis lookupper c = Ok wa) txid :
  (set_Contains (DNSLookupSuccess wa) txid = true ↔ judged_lookup c (λ _, True) txid) ∧
  (set_Contains (DNSLookupSuccessWithBogonAddresses wa) txid = true ↔
     judged_lookup c (λ obs, IPAddressBogon obs = Some true) txid) ∧
  (set_Contains (DNSLookupSuccessWithValidAddress wa) txid = true ↔
     judged_lookup c (agrees lookupper) txid ∨ tls_proves c txid) ∧
  (set_Contains (DNSLookupSuccessWithInvalidAddresses wa) txid = true ↔
     judged_lookup c (disagrees lookupper) txid ∧ ¬ tls_proves c txid) ∧
  (set_Contains (DNSLookupSuccessWithValidAddressClassic wa) txid = true ↔
     judged_lookup c (agrees lookupper) txid) ∧
  (set_Contains (DNSLookupSuccessWithInvalidAddressesClassic wa) txid = true ↔
     judged_lookup c (disagrees lookupper) txid) ∧
  ¬ (set_Contains (DNSLookupSuccessWithValidAddress wa) txid = true ∧
     set_Contains (DNSLookupSuccessWithInvalidAddresses wa) txid = true).
Proof.
  assert (Hdis : ¬ (judged_lookup c (agrees lookupper) txid ∧ judged_lookup c (disagrees lookupper) txid)).
  { intros [(o1 & H1 & _ & Hv) (o2 & H2 & _ & _ & Hn)].
    by rewrite (first_lookup_unique _ _ _ _ H1 H2) in Hv. }
  rewrite (valid_spec lookupper c wa Hc Ha), (invalid_spec lookupper c wa Hc Ha).
  split_and!; [..|tauto]; try done.
  - apply (success_set lookupper c wa Hc Ha _ (λ obs, negb (beyond_depth0 obs)));
      [|by intros []|done| |by not_written..].
    + intros obs. rewrite negb_true_iff, beyond_depth0_false. tauto.
    + intros; success_cases.
  - apply (success_set lookupper c wa Hc Ha _ (λ obs, negb (beyond_depth0 obs) && some_true (IPAddressBogon obs)));
      [|by intros []|done| |by not_written..].
    + intros obs. rewrite andb_true_iff, negb_true_iff, beyond_depth0_false.
      destruct (IPAddressBogon obs) as [[]|]; simpl; intuition congruence.
    + intros; success_cases.
  - apply (classic_spec lookupper c wa Hc Ha _ _ _ _ (agrees_bool lookupper));
      [by intros []|done| |by not_written..].
    intros; success_cases.
  - apply (classic_spec lookupper c wa Hc Ha _ _ _ _ (disagrees_bool lookupper));
      [by intros []|done| |by not_written..].
    intros; success_cases.
Qed.
