(* ===== verification/AnalysisTotal.v ===== *)
(** * Analysis: DNS failures, absence of panics, order of map iterations *)
From S2P Require Import Prelude Failures GoSort GoString GoFloat GoNet Archival Bogon PipeSet.
From S2P Require Import Observation Samples ObservationFacts Diff Analysis AnalysisFacts.
From S2P Require Import AnalysisTheorems.

(** ** The sample, analysed *)

Definition sample_container : WebObservationsContainer :=
  match @IngestWebMeasurement range_ascending ascii_only_tables sample_asn sample_meas with
  | Ok (Val c) => c
  | _ => NewWebObservationsContainer
  end.

Lemma sample_container_wf : container_wf sample_container.
Proof.
  unfold sample_container.
  destruct (@IngestWebMeasurement_eq range_ascending ascii_only_tables sample_asn sample_meas _ eq_refl) as [-> _].
  2: { unfold no_nil. cbn. split_and!; set_solver. }
  destruct (@ingest_control_ok range_ascending ascii_only_tables sample_asn sample_test_keys)
    as ([c|err] & -> & Hr); [by destruct Hr|apply NewWebObservationsContainer_wf].
Qed.

Definition sample_wa : WebAnalysis :=
  value_or (newAnalysis None)
    (@AnalyzeWebObservationsWithoutLinearAnalysis range_ascending ascii_only_tables sample_asn
       sample_container).

Lemma sample_analysis_ok :
  @AnalyzeWebObservationsWithoutLinearAnalysis range_ascending ascii_only_tables sample_asn
    sample_container = Ok sample_wa.
Proof. apply value_or_Ok. vm_compute. by eexists. Qed.

Lemma tcp_metrics_spec_witness :
  transactions sample_container (judged tcp_verdict Unexpected) (TCPConnectUnexpectedFailure sample_wa) ∧
  set_Contains (TCPConnectUnexpectedFailure sample_wa) 4 = true.
Proof.
  split; [|by vm_compute].
  exact (proj1 (proj2 (@tcp_metrics_spec range_ascending ascii_only_tables sample_asn _ _
    sample_container_wf sample_analysis_ok))).
Defined.

Lemma tls_http_metrics_spec_witness :
  transactions sample_container (judged tls_verdict Expected) (TLSHandshakeExpectedFailure sample_wa).
Proof.
  exact (proj1 (@tls_http_metrics_spec range_ascending ascii_only_tables sample_asn _ _
    sample_container_wf sample_analysis_ok)).
Defined.

Lemma dns_success_metrics_spec_witness :
  (set_Contains (DNSLookupSuccess sample_wa) 1 = true ↔ judged_lookup sample_container (λ _, True) 1) ∧
  Keys (H0 := range_ascending) (DNSLookupSuccessWithValidAddress sample_wa) = [1; 3] ∧
  Keys (H0 := range_ascending) (DNSLookupSuccessWithBogonAddresses sample_wa) = [3].
Proof.
  split; [|by vm_compute].
  exact (proj1 (@dns_success_metrics_spec range_ascending ascii_only_tables sample_asn _ _
    sample_container_wf sample_analysis_ok 1)).
Defined.

(** ** Failed lookups *)

Section dns_failures.
Context `{RangeOrder} `{UnicodeTables} (lookupper : GeoIPASNLookupper).
Context (c : WebObservationsContainer) (wa : WebAnalysis).
Context (Hc : container_wf c)
  (Ha : AnalyzeWebObservationsWithoutLinearAnalysis lookupper c = Ok wa).

Definition judged_failure (P : WebObservation → Prop) (txid : Z) : Prop :=
  ∃ obs, first_lookup (DNSLookupFailures c) txid obs ∧ P obs.

Lemma failure_set p (b : WebObservation → bool) P txid :
  (∀ obs, b obs = true ↔ P obs) →
  (∀ wa, p (erase_final wa) = p wa) → (∀ e, p (newAnalysis e) = zeroSet) →
  (∀ wa obs, p (failure_effect wa obs) = if b obs then add1 (dns_id obs) (p wa) else p wa) →
  untouched p (success_effect lookupper) → untouched p undo_effect →
  untouched p (classic_effect lookupper) →
  untouched p tcp_effect → untouched p tls_effect → untouched p http_effect →
  set_Contains (p wa) txid = true ↔ judged_failure P txid.
Proof.
  intros Hb Hfin Hnew Heff H1 H2 H3 H4 H5 H6.
  rewrite (analysis_field lookupper p c wa Hfin Hc Ha). unfold metrics.
  rewrite (foldl_frame http_effect p) by apply H6. rewrite (foldl_frame tls_effect p) by apply H5.
  rewrite (foldl_frame tcp_effect p) by apply H4.
  rewrite (foldl_adds failure_effect p b dns_id) by apply Heff.
  rewrite (foldl_frame (classic_effect lookupper) p) by apply H3.
  rewrite (foldl_frame undo_effect p) by apply H2.
  rewrite (foldl_frame (success_effect lookupper) p) by apply H1.
  rewrite Hnew, Contains_zero. unfold judged_failure. setoid_rewrite first_lookup_firsts.
  setoid_rewrite Hb. naive_solver.
Qed.

(** The first failure wins. *)
Lemma experiment_failure_fold wa0 l :
  DNSExperimentFailure wa0 = None →
  DNSExperimentFailure (foldl failure_effect wa0 l) =
    (kx ← list_find (λ obs, experiment_failure obs = true) l; DNSLookupFailure kx.2).
Proof.
  assert (Heff : ∀ wa obs, DNSExperimentFailure (failure_effect wa obs) =
    if experiment_failure obs && IsNone (DNSExperimentFailure wa) then DNSLookupFailure obs
    else DNSExperimentFailure wa).
  { intros w obs. unfold failure_effect. cbv zeta. conditions; reflexivity. }
  assert (Hkeep : ∀ wa l f, DNSExperimentFailure wa = Some f →
    DNSExperimentFailure (foldl failure_effect wa l) = Some f).
  { intros w l' f. revert w. induction l' as [|obs l' IH]; intros w Hw; simpl; [done|].
    apply IH. by rewrite Heff, Hw, andb_false_r. }
  revert wa0. induction l as [|obs l IH]; intros wa0 Hwa0; csimpl; [done|].
  case_decide as He.
  - assert (Hf : is_Some (DNSLookupFailure obs)).
    { unfold experiment_failure in He. rewrite !andb_true_iff in He. destruct He as [_ He].
      by destruct (DNSLookupFailure obs); [eexists|]. }
    destruct Hf as [f Hf]. simpl. rewrite Hf. apply Hkeep. by rewrite Heff, He, Hwa0.
  - apply not_true_is_false in He. rewrite IH by by rewrite Heff, He.
    by destruct (list_find _ l) as [[]|].
Qed.

Lemma experiment_failure_spec :
  DNSExperimentFailure wa =
    (kx ← list_find (λ obs, experiment_failure obs = true) (firsts [] (DNSLookupFailures c));
     DNSLookupFailure kx.2).
Proof.
  rewrite (analysis_field lookupper DNSExperimentFailure c wa (λ _, eq_refl) Hc Ha). unfold metrics.
  rewrite (foldl_frame http_effect DNSExperimentFailure) by not_written.
  rewrite (foldl_frame tls_effect DNSExperimentFailure) by not_written.
  rewrite (foldl_frame tcp_effect DNSExperimentFailure) by not_written.
  apply experiment_failure_fold.
  rewrite (foldl_frame (classic_effect lookupper) DNSExperimentFailure) by not_written.
  rewrite (foldl_frame undo_effect DNSExperimentFailure) by not_written.
  by rewrite (foldl_frame (success_effect lookupper) DNSExperimentFailure) by not_written.
Qed.
End dns_failures.

Ltac failure_cases_all :=
  unfold failure_effect; cbv zeta;
  repeat match goal with
  | |- context [dns_verdict ?o] => destruct (dns_verdict o)
  | |- context [both_succeed ?o] => destruct (both_succeed o)
  | |- context [experiment_failure ?o && ?b] => destruct (experiment_failure o && b)
  end; reflexivity.

(** The DNS sets of failed lookups are those of the transactions of each
    verdict, lookups over HTTPS and AAAA lookups without an answer being
    ignored; the failure of the experiment is the first that counts. *)
Theorem dns_failure_metrics_spec `{RangeOrder} `{UnicodeTables} lookupper c wa
    (Hc : container_wf c) (Ha : AnalyzeWebObservationsWithoutLinearAnalysis lookupper c = Ok wa) txid :
  (set_Contains (DNSLookupExpectedFailure wa) txid = true ↔ judged_failure c (judged dns_verdict Expected) txid) ∧
  (set_Contains (DNSLookupUnexpectedFailure wa) txid = true ↔ judged_failure c (judged dns_verdict Unexpected) txid) ∧
  (set_Contains (DNSLookupUnexplainedFailure wa) txid = true ↔ judged_failure c (judged dns_verdict Unexplained) txid) ∧
  (set_Contains (DNSLookupExpectedSuccess wa) txid = true ↔
     judged_failure c (λ obs, dns_verdict obs = Quiet ∧ both_succeed obs = true) txid) ∧
  DNSExperimentFailure wa =
    (kx ← list_find (λ obs, experiment_failure obs = true) (firsts [] (DNSLookupFailures c));
     DNSLookupFailure kx.2).
Proof.
  split_and!; [..|by apply (experiment_failure_spec lookupper)].
  - apply (failure_set lookupper c wa Hc Ha _ _ _ _ (judged_bool _ _)); [by intros []|done| |by not_written..].
    intros; failure_cases_all.
  - apply (failure_set lookupper c wa Hc Ha _ _ _ _ (judged_bool _ _)); [by intros []|done| |by not_written..].
    intros; failure_cases_all.
  - apply (failure_set lookupper c wa Hc Ha _ _ _ _ (judged_bool _ _)); [by intros []|done| |by not_written..].
    intros; failure_cases_all.
  - apply (failure_set lookupper c wa Hc Ha _ (λ obs, bool_decide (dns_verdict obs = Quiet) && both_succeed obs));
      [|by intros []|done| |by not_written..].
    + intros obs. by rewrite andb_true_iff, bool_decide_eq_true.
    + intros; failure_cases_all.
Qed.

Lemma dns_failure_metrics_spec_witness :
  (set_Contains (DNSLookupUnexpectedFailure sample_wa) 2 = true ↔
     judged_failure sample_container (judged dns_verdict Unexpected) 2) ∧
  set_Contains (DNSLookupUnexpectedFailure sample_wa) 2 = true.
Proof.
  split; [|by vm_compute].
  exact (proj1 (proj2 (@dns_failure_metrics_spec range_ascending ascii_only_tables sample_asn _ _
    sample_container_wf sample_analysis_ok 2))).
Defined.

(** ** The final response *)

Definition is_final (obs : WebObservation) : Prop := HTTPResponseIsFinal obs = Some true.

Lemma first_final_none `{RangeOrder} `{UnicodeTables} wa l :
  (∀ obs, obs ∈ l → ¬ is_final obs) → first_final wa l = Ok wa.
Proof.
  induction l as [|obs l IH]; simpl; intros Hl; [done|].
  assert (Hno : ¬ is_final obs) by (apply Hl; set_solver). unfold is_final in Hno.
  destruct (HTTPResponseIsFinal obs) as [[]|]; try done; apply IH; set_solver.
Qed.

Lemma first_final_one `{RangeOrder} `{UnicodeTables} wa l obs :
  obs ∈ l → is_final obs → (∀ obs', obs' ∈ l → is_final obs' → obs' = obs) →
  first_final wa l = httpHandleFinalResponse wa obs.
Proof.
  intros Hin Hf Huniq. induction l as [|o l IH]; [by apply not_elem_of_nil in Hin|]. cbn [first_final].
  destruct (decide (HTTPResponseIsFinal o = Some true)) as [Ho|Ho].
  - rewrite Ho. simpl. f_equal. apply Huniq; [set_solver|done].
  - apply elem_of_cons in Hin as [->|Hin]; [done|].
    replace (some_true (HTTPResponseIsFinal o)) with false
      by (by destruct (HTTPResponseIsFinal o) as [[]|]). simpl. apply IH; [done|]. set_solver.
Qed.

(** A final response that is compared with the control did not fail its TLS handshake. *)
Definition final_after_tls (c : WebObservationsContainer) : Prop :=
  ∀ txid obs, KnownTCPEndpoints c !! txid = Some obs → is_final obs →
    is_Some (ControlHTTPFailure obs) → TLSHandshakeFailure obs = None ∨ TLSHandshakeFailure obs = Some "".

Lemma httpHandleFinalResponse_ok `{RangeOrder} `{UnicodeTables} wa obs :
  (is_Some (ControlHTTPFailure obs) → TLSHandshakeFailure obs = None ∨ TLSHandshakeFailure obs = Some "") →
  is_Ok (httpHandleFinalResponse wa obs).
Proof.
  unfold httpHandleFinalResponse. intros Htls.
  destruct (ControlHTTPFailure obs) as [f|]; simpl; [|by case_match; eexists].
  destruct Htls as [-> | ->]; [by eexists| |]; simpl.
  - destruct (httpDiffBodyProportionFactor _ obs) as [? wa2].
    destruct (httpDiffStatusCodeMatch wa2 obs) as [? wa3].
    destruct (httpDiffUncommonHeadersIntersection wa3 obs) as [? wa4].
    destruct (httpDiffTitleDifferentLongWords wa4 obs) as [? wa5]. by eexists.
  - destruct (httpDiffBodyProportionFactor _ obs) as [? wa2].
    destruct (httpDiffStatusCodeMatch wa2 obs) as [? wa3].
    destruct (httpDiffUncommonHeadersIntersection wa3 obs) as [? wa4].
    destruct (httpDiffTitleDifferentLongWords wa4 obs) as [? wa5]. by eexists.
Qed.

(** The assertion of [httpHandleFinalResponse] is the only panic of the loop. *)
Lemma first_final_ok `{RangeOrder} `{UnicodeTables} wa l :
  (∀ obs, obs ∈ l → is_final obs → is_Some (ControlHTTPFailure obs) →
     TLSHandshakeFailure obs = None ∨ TLSHandshakeFailure obs = Some "") →
  is_Ok (first_final wa l).
Proof.
  intros Hl. induction l as [|obs l IH]; cbn [first_final]; [by eexists|].
  destruct (some_true (HTTPResponseIsFinal obs)) eqn:Ht; simpl.
  - apply httpHandleFinalResponse_ok. apply Hl; [set_solver|].
    unfold is_final. by destruct (HTTPResponseIsFinal obs) as [[]|].
  - apply IH. set_solver.
Qed.

(** C31: on every container that ingestion may produce, the analysis returns:
    no optional value is read when it is empty. The only assertion in the code
    concerns the final response, which must not have failed its TLS handshake. *)
Theorem analysis_total `{RangeOrder} `{UnicodeTables} lookupper c
    (Hc : container_wf c) (Hfinal : final_after_tls c) :
  ∃ wa, AnalyzeWebObservationsWithoutLinearAnalysis lookupper c = Ok wa.
Proof.
  rewrite analysis_metrics by done. unfold httpComputeFinalResponseMetrics. apply first_final_ok.
  intros obs [k Hk]%range_map_values. by eapply Hfinal.
Qed.

Lemma sample_endpoint txid obs :
  KnownTCPEndpoints sample_container !! txid = Some obs →
  obs ∈ endpoints sample_container.
Proof. intros. apply elem_of_endpoints. eauto. Qed.

Lemma sample_final_after_tls : final_after_tls sample_container.
Proof.
  intros txid obs Hobs%sample_endpoint _ _.
  assert (Hall : forallb (λ o, match TLSHandshakeFailure o with None | Some "" => true | _ => false end)
    (endpoints sample_container) = true) by by vm_compute.
  rewrite forallb_forall in Hall. specialize (Hall obs). rewrite <-list_elem_of_In in Hall.
  specialize (Hall Hobs). destruct (TLSHandshakeFailure obs) as [[]|]; auto. discriminate Hall.
Qed.

Lemma analysis_total_witness :
  ∃ wa, @AnalyzeWebObservationsWithoutLinearAnalysis range_descending ascii_only_tables sample_asn
          sample_container = Ok wa.
Proof.
  exact (@analysis_total range_descending ascii_only_tables sample_asn sample_container
    sample_container_wf sample_final_after_tls).
Defined.

(** ** Analysis: independence from the order of map iterations, linear analysis *)

Section order.
Context (o1 o2 : RangeOrder) `{UnicodeTables} (lookupper : GeoIPASNLookupper).

Lemma dns_valid_order obs : @dns_valid o1 lookupper obs = @dns_valid o2 lookupper obs.
Proof. apply eq_true_iff_eq. by rewrite !dns_valid_agrees. Qed.

Lemma metrics_order c : @metrics o1 lookupper c = @metrics o2 lookupper c.
Proof.
  unfold metrics. do 4 f_equal.
  rewrite (foldl_ext_elem (@classic_effect o1 lookupper) (@classic_effect o2 lookupper)).
  - do 2 f_equal. apply foldl_ext_elem. intros wa obs _. unfold success_effect.
    by rewrite dns_valid_order.
  - intros wa obs _. unfold classic_effect. by rewrite dns_valid_order.
Qed.

Lemma UncommonHeaders_order measurement control :
  @ComputeHTTPDiffUncommonHeadersIntersection o1 _ measurement control =
  @ComputeHTTPDiffUncommonHeadersIntersection o2 _ measurement control.
Proof.
  apply map_eq. intros k. apply option_eq. intros b. rewrite !UncommonHeadersIntersection_spec. done.
Qed.

Lemma TitleWords_order measurement control :
  @ComputeHTTPDiffTitleDifferentLongWords o1 _ measurement control =
  @ComputeHTTPDiffTitleDifferentLongWords o2 _ measurement control.
Proof.
  apply map_eq. intros k. apply option_eq. intros b. rewrite !TitleDifferentLongWords_spec. done.
Qed.

Lemma httpHandleFinalResponse_order wa obs :
  @httpHandleFinalResponse o1 _ wa obs = @httpHandleFinalResponse o2 _ wa obs.
Proof.
  unfold httpHandleFinalResponse, httpDiffUncommonHeadersIntersection, httpDiffTitleDifferentLongWords.
  cbv zeta. by rewrite UncommonHeaders_order, TitleWords_order.
Qed.

(** At most one transaction got a final response. *)
Definition one_final (c : WebObservationsContainer) : Prop :=
  ∀ k1 k2 obs1 obs2, KnownTCPEndpoints c !! k1 = Some obs1 → KnownTCPEndpoints c !! k2 = Some obs2 →
    is_final obs1 → is_final obs2 → k1 = k2.

Lemma first_final_order wa c :
  one_final c →
  @httpComputeFinalResponseMetrics o1 _ c wa = @httpComputeFinalResponseMetrics o2 _ c wa.
Proof.
  intros Hone. unfold httpComputeFinalResponseMetrics.
  assert (Hmem : ∀ o obs, obs ∈ (@range_map o 18 Z WebObservation _ _ (KnownTCPEndpoints c)).*2 ↔
    obs ∈ endpoints c) by (intros; unfold endpoints; by rewrite range_map_perm).
  destruct (decide (Exists is_final (endpoints c))) as [Hex|Hno].
  - apply Exists_exists in Hex as (obs & Hin & Hf).
    assert (Huniq : ∀ obs', obs' ∈ endpoints c → is_final obs' → obs' = obs).
    { intros obs' [k' Hk']%elem_of_endpoints Hf'. apply elem_of_endpoints in Hin as [k Hk].
      rewrite (Hone k' k obs' obs) in Hk' by done. congruence. }
    rewrite !(first_final_one _ _ obs); rewrite ?Hmem; try done.
    + apply httpHandleFinalResponse_order.
    + intros obs'. rewrite Hmem. apply Huniq.
    + intros obs'. rewrite Hmem. apply Huniq.
  - assert (Hnone : ∀ obs, obs ∈ endpoints c → ¬ is_final obs).
    { intros obs Hin Hf. apply Hno, Exists_exists. eauto. }
    rewrite !first_final_none; [done|..]; intros obs; rewrite Hmem; apply Hnone.
Qed.
End order.

(** C35: the analysis of a container with at most one final response gives the
    same result under any two orders of map iterations. *)
Theorem analysis_deterministic (o1 o2 : RangeOrder) `{UnicodeTables} lookupper c
    (Hc : container_wf c) (Hone : one_final c) :
  @AnalyzeWebObservationsWithoutLinearAnalysis o1 _ lookupper c =
  @AnalyzeWebObservationsWithoutLinearAnalysis o2 _ lookupper c.
Proof.
  rewrite !analysis_metrics by done. rewrite (metrics_order o1 o2). by apply first_final_order.
Qed.

Lemma sample_one_final : one_final sample_container.
Proof.
  intros k1 k2 obs1 obs2 H1 H2 Hf1 Hf2.
  assert (Hk : ∀ k obs, KnownTCPEndpoints sample_container !! k = Some obs → is_final obs → k = 5).
  { intros k obs Hk Hf.
    assert (Hall : forallb (λ '(k, o), negb (some_true (HTTPResponseIsFinal o)) || (k =? 5))
      (map_to_list (KnownTCPEndpoints sample_container)) = true) by by vm_compute.
    rewrite forallb_forall in Hall. specialize (Hall (k, obs)).
    rewrite <-list_elem_of_In, elem_of_map_to_list in Hall. specialize (Hall Hk).
    rewrite Hf in Hall. by apply Z.eqb_eq. }
  by rewrite (Hk k1 obs1), (Hk k2 obs2).
Qed.

Lemma analysis_deterministic_witness :
  @AnalyzeWebObservationsWithoutLinearAnalysis range_ascending ascii_only_tables sample_asn sample_container =
  @AnalyzeWebObservationsWithoutLinearAnalysis range_descending ascii_only_tables sample_asn sample_container.
Proof.
  exact (@analysis_deterministic range_ascending range_descending ascii_only_tables sample_asn
    sample_container sample_container_wf sample_one_final).
Defined.

(** ** Linear analysis *)

(** The comparison is lexicographic: depth, descending; type, descending;
    failure; transaction ID, descending. *)
Lemma linear_less_lex :
  linear_less =
    lex (flip_less (by_key (λ obs, UnwrapOr (TagDepth obs) (-1)) Z.ltb))
      (lex (flip_less (by_key (λ obs, type_rank (Type_ obs)) Z.ltb))
        (lex (by_key (λ obs, UnwrapOr (Failure obs) defaultFailureValue) String.ltb)
          (flip_less (by_key TransactionID Z.ltb)))).
Proof. reflexivity. Qed.

#[export] Instance linear_less_swo : StrictWeakOrder linear_less.
Proof. rewrite linear_less_lex. apply _. Qed.

(** Observations that the comparison does not separate. *)
Lemma linear_incomparable x y :
  incomparable linear_less x y = true →
  UnwrapOr (TagDepth x) (-1) = UnwrapOr (TagDepth y) (-1) ∧ Type_ x = Type_ y ∧
  UnwrapOr (Failure x) defaultFailureValue = UnwrapOr (Failure y) defaultFailureValue ∧
  TransactionID x = TransactionID y.
Proof.
  rewrite incomparable_true. unfold linear_less.
  destruct (Z.ltb_spec (UnwrapOr (TagDepth y) (-1)) (UnwrapOr (TagDepth x) (-1))); [by intros []|].
  destruct (Z.ltb_spec (UnwrapOr (TagDepth x) (-1)) (UnwrapOr (TagDepth y) (-1))); [by intros []|].
  destruct (Z.ltb_spec (type_rank (Type_ y)) (type_rank (Type_ x))); [by intros []|].
  destruct (Z.ltb_spec (type_rank (Type_ x)) (type_rank (Type_ y))); [by intros []|].
  destruct (String.ltb (UnwrapOr (Failure x) _) _) eqn:E1; [by intros []|].
  destruct (String.ltb (UnwrapOr (Failure y) _) _) eqn:E2; [by intros []|].
  rewrite !Z.ltb_ge. intros []. split_and!; [lia| |by apply string_ltb_total|lia].
  assert (Ht : type_rank (Type_ x) = type_rank (Type_ y)) by lia.
  by destruct (Type_ x), (Type_ y).
Qed.

(** The linear analysis is a rearrangement of all the observations of the
    container, sorted by depth, type, failure and transaction ID, and stable:
    observations that agree on the four keep their order. *)
Theorem linear_sorts `{RangeOrder} `{StableSort} c :
  let input := DNSLookupFailures c ++ DNSLookupSuccesses c ++ (range_map 19 (KnownTCPEndpoints c)).*2 in
  NewLinearWebAnalysis c ≡ₚ DNSLookupFailures c ++ DNSLookupSuccesses c ++ endpoints c ∧
  ordered linear_less (NewLinearWebAnalysis c) ∧
  keeps_order linear_less input (NewLinearWebAnalysis c).
Proof.
  intros input. unfold NewLinearWebAnalysis. fold input.
  destruct (SliceStable_sorts linear_less input _) as [Hp Ho Hk].
  split_and!; [|done|done]. etrans; [exact Hp|]. subst input. unfold endpoints. by rewrite range_map_perm.
Qed.

Lemma all_equal_perm {A} (l1 l2 : list A) :
  (∀ x y, x ∈ l1 → y ∈ l1 → x = y) → l1 ≡ₚ l2 → l1 = l2.
Proof.
  intros Heq Hp. destruct l1 as [|x l1]; [by apply Permutation_nil_l in Hp|].
  assert (H1 : x :: l1 = replicate (length (x :: l1)) x).
  { symmetry. apply replicate_as_elem_of. split; [done|]. intros y Hy. apply Heq; [done|set_solver]. }
  assert (H2 : l2 = replicate (length l2) x).
  { symmetry. apply replicate_as_elem_of. split; [done|]. intros y Hy. apply Heq; [|set_solver].
    by rewrite Hp. }
  rewrite H1, H2. by rewrite <-(Permutation_length Hp).
Qed.

(** The linear analysis of a container that ingestion may produce does
    not depend on the order of map iterations, nor on which stable sorting
    algorithm is used. *)
Theorem linear_deterministic (o1 o2 : RangeOrder) (s1 s2 : StableSort) c (Hc : container_wf c) :
  @NewLinearWebAnalysis o1 s1 c = @NewLinearWebAnalysis o2 s2 c.
Proof.
  unfold NewLinearWebAnalysis.
  rewrite !(SliceStable_insertion_sort linear_less).
  rewrite <-!(SliceStable_insertion_sort (H := s1) linear_less).
  apply SliceStable_same; [apply _|by rewrite !range_map_perm|].
  intros z. rewrite !filter_app. do 2 f_equal.
  apply all_equal_perm; [|by rewrite !range_map_perm].
  intros x y [Hx [k Hk]%range_map_values]%list_elem_of_filter
    [Hy [k' Hk']%range_map_values]%list_elem_of_filter.
  apply linear_incomparable in Hx as (_ & _ & _ & Hx), Hy as (_ & _ & _ & Hy).
  pose proof (ep_txid _ _ (wf_endpoints _ Hc _ _ Hk)). pose proof (ep_txid _ _ (wf_endpoints _ Hc _ _ Hk')).
  assert (k = k') as <- by congruence. congruence.
Qed.

Lemma linear_deterministic_witness :
  @NewLinearWebAnalysis range_ascending go_insertion_sort sample_container =
  @NewLinearWebAnalysis range_descending go_insertion_sort sample_container ∧
  TransactionID <$> @NewLinearWebAnalysis range_descending go_insertion_sort sample_container = [5; 4; 3; 3; 1; 2].
Proof.
  split; [|by vm_compute].
  exact (linear_deterministic range_ascending range_descending go_insertion_sort go_insertion_sort
    sample_container sample_container_wf).
Defined.

(** ** A bogon that is not reported *)

(** A DNS lookup of the first request that resolves a bogon may be missing from
    the set of lookups with bogon addresses: only the first address, in
    alphabetical order, is looked at. *)
Theorem bogon_missed :
  ∃ c wa txid obs,
    @IngestWebMeasurement range_ascending ascii_only_tables sample_asn sample_mixed_meas = Ok (Val c) ∧
    @AnalyzeWebObservationsWithoutLinearAnalysis range_ascending ascii_only_tables sample_asn c = Ok wa ∧
    obs ∈ DNSLookupSuccesses c ∧ DNSTransactionID obs = Some txid ∧ TagDepth obs = Some 0 ∧
    IPAddressBogon obs = Some true ∧
    set_Contains (DNSLookupSuccess wa) txid = true ∧
    set_Contains (DNSLookupSuccessWithBogonAddresses wa) txid = false.
Proof.
  destruct (@IngestWebMeasurement range_ascending ascii_only_tables sample_asn sample_mixed_meas)
    as [[c|]|] eqn:Hc; vm_compute in Hc; [|discriminate Hc..].
  injection Hc as <-. eexists _, _, 1, _. split; [done|]. split; [by vm_compute|].
  split; [apply elem_of_cons; right; apply list_elem_of_singleton; reflexivity|].
  by vm_compute.
Qed.
