(* ===== verification/PipeSorting.v ===== *)
(** * Sorting, normalizing and filtering measurements

    [pkg/minipipeline/sorting.go], [normalize.go] and [classic.go]. *)
From S2P Require Import Prelude Failures GoSort GoString GoFloat GoNet Archival Bogon PipeSet.
From S2P Require Import Observation.
From S2P Require Import Samples ObservationFacts Analysis AnalysisFacts AnalysisTheorems.
From S2P Require Import AnalysisTotal.

(** ** [sorting.go]: the comparisons given to [sort.SliceStable] *)

Definition fsget (value : option string) : string :=
  match value with
  | None => ""
  | Some s => s
  end.

Definition dns_less (left right : ArchivalDNSLookupResult) : bool :=
  if String.ltb (dns_Engine left) (dns_Engine right) then true
  else if String.ltb (dns_Engine right) (dns_Engine left) then false
  else if dns_TransactionID left <? dns_TransactionID right then true
  else if dns_TransactionID right <? dns_TransactionID left then false
  else if String.ltb (dns_QueryType left) (dns_QueryType right) then true
  else if String.ltb (dns_QueryType right) (dns_QueryType left) then false
  else String.ltb (fsget (dns_Failure left)) (fsget (dns_Failure right)).

Definition net_less (left right : ArchivalNetworkEvent) : bool :=
  if String.ltb (net_Address left) (net_Address right) then true
  else if String.ltb (net_Address right) (net_Address left) then false
  else if net_TransactionID left <? net_TransactionID right then true
  else if net_TransactionID right <? net_TransactionID left then false
  else float64_lt (net_T left) (net_T right).

Definition tcp_less (left right : ArchivalTCPConnectResult) : bool :=
  if String.ltb (tcp_IP left) (tcp_IP right) then true
  else if String.ltb (tcp_IP right) (tcp_IP left) then false
  else if tcp_Port left <? tcp_Port right then true
  else if tcp_Port right <? tcp_Port left then false
  else if tcp_TransactionID left <? tcp_TransactionID right then true
  else if tcp_TransactionID right <? tcp_TransactionID left then false
  else float64_lt (tcp_T left) (tcp_T right).

Definition tls_less (left right : ArchivalTLSOrQUICHandshakeResult) : bool :=
  if String.ltb (tls_Address left) (tls_Address right) then true
  else if String.ltb (tls_Address right) (tls_Address left) then false
  else if tls_TransactionID left <? tls_TransactionID right then true
  else if tls_TransactionID right <? tls_TransactionID left then false
  else float64_lt (tls_T left) (tls_T right).

Definition SortDNSLookupResults `{StableSort} (inputs : list ArchivalDNSLookupResult) :=
  SliceStable dns_less inputs.

Definition SortNetworkEvents `{StableSort} (inputs : list ArchivalNetworkEvent) :=
  SliceStable net_less inputs.

Definition SortTCPConnectResults `{StableSort} (inputs : list ArchivalTCPConnectResult) :=
  SliceStable tcp_less inputs.

Definition SortTLSHandshakeResults `{StableSort} (inputs : list ArchivalTLSOrQUICHandshakeResult) :=
  SliceStable tls_less inputs.

(** ** [normalize.go]: every entry is updated in place *)

Definition NormalizeDNSLookupResults (values : list ArchivalDNSLookupResult) :=
  map (λ entry,
    let entry :=
      if String.eqb (dns_Engine entry) "udp" then entry <| dns_ResolverAddress := "1.1.1.1:53" |>
      else if String.eqb (dns_Engine entry) "doh"
      then entry <| dns_ResolverAddress := "https://dns.google/dns-query" |>
      else entry in
    entry <| dns_T0 := float64_zero |> <| dns_T := float64_zero |> <| dns_RawResponse := "" |>) values.

Definition NormalizeNetworkEvents (values : list ArchivalNetworkEvent) :=
  map (λ entry, entry <| net_T0 := float64_zero |> <| net_T := float64_zero |>) values.

Definition NormalizeTCPConnectResults (values : list ArchivalTCPConnectResult) :=
  map (λ entry, entry <| tcp_T0 := float64_zero |> <| tcp_T := float64_zero |>) values.

Definition NormalizeTLSHandshakeResults (values : list ArchivalTLSOrQUICHandshakeResult) :=
  map (λ entry, entry <| tls_T0 := float64_zero |> <| tls_T := float64_zero |>
                  <| tls_PeerCertificates := [] |>) values.

Definition maxStoreBody : Z := 12000.

Definition NormalizeHTTPRequestResults (values : list ArchivalHTTPRequestResult) :=
  map (λ entry,
    let entry := entry <| http_T0 := float64_zero |> <| http_T := float64_zero |> in
    if maxStoreBody <? Z.of_nat (String.length (resp_Body (http_Response entry))) then
      entry <| http_Response ::= λ resp, resp <| resp_Body := "" |> <| resp_BodyIsTruncated := true |> |>
    else entry) values.

(** ** [classic.go] *)

Section classic.
Context `{RangeOrder}.

(** A turn of the loop over the successful lookups; the address of a later
    lookup replaces the earlier one. *)
Definition classic_success (output : WebObservationsContainer) (entry : WebObservation) :
    outcome WebObservationsContainer :=
  if negb (utilsEngineIsGetaddrinfo (DNSEngine entry)) then Ok output
  else
    ipAddr ← Unwrap (IPAddress entry);
    let index := length (DNSLookupSuccesses output) in
    Ok (output <| DNSLookupSuccesses ::= λ l, l ++ [entry] |>
          <| knownIPAddresses ::= <[ipAddr := index]> |>).

Definition classic_endpoint (output : WebObservationsContainer) (entry : WebObservation) :
    outcome WebObservationsContainer :=
  ipAddr ← Unwrap (IPAddress entry);
  txid ← Unwrap (EndpointTransactionID entry);
  let origin := UnwrapOr (IPAddressOrigin entry) "" in
  if String.eqb origin IPAddressOriginTH then Ok output
  else if String.eqb origin IPAddressOriginDNS && IsNone (knownIPAddresses output !! ipAddr) then Ok output
  else if negb (UnwrapOr (TagFetchBody entry) false) then Ok output
  else Ok (output <| KnownTCPEndpoints ::= <[txid := entry]> |>).

Definition ClassicFilter (input : WebObservationsContainer) : outcome WebObservationsContainer :=
  let output := mkContainer [] [] ∅ None ∅ in
  let output :=
    foldl (λ output entry,
      if negb (utilsEngineIsGetaddrinfo (DNSEngine entry)) then output
      else output <| DNSLookupFailures ::= λ l, l ++ [entry] |>) output (DNSLookupFailures input) in
  output ← foldM classic_success output (DNSLookupSuccesses input);
  output ← foldM classic_endpoint output (range_map 20 (KnownTCPEndpoints input)).*2;
  Ok (output <| ControlExpectations := ControlExpectations input |>).
End classic.

(** ** Sorting *)

Lemma sort_equiv `{StableSort} {A} (less less' : A → A → bool) l :
  StrictWeakOrder less' → (∀ x y, x ∈ l → y ∈ l → less x y = less' x y) →
  SliceStable less l ≡ₚ l ∧ ordered less (SliceStable less l) ∧
  SliceStable less (SliceStable less l) = SliceStable less l.
Proof.
  intros Hswo Heq.
  assert (Hmem : ∀ x, x ∈ SliceStable less l → x ∈ l) by (intros x; by rewrite SliceStable_perm).
  rewrite (SliceStable_ext less less' (SliceStable less l)) by eauto.
  rewrite (SliceStable_ext less less' l) in Hmem |- * by done.
  destruct (SliceStable_sorts less' l _) as [Hp Ho Hk]. split_and!; [done| |].
  - clear Hk Hp. induction Ho as [|x l' Ho IH Hx]; constructor.
    + apply IH. set_solver.
    + rewrite Forall_forall in Hx |- *. intros y Hy. rewrite Heq; [by apply Hx|set_solver..].
  - apply (stable_unique less' (SliceStable less' l)); [by apply SliceStable_sorts|].
    by split.
Qed.

(** No timestamp is a NaN: JSON has no such number. *)
Definition numbers {A} (T : A → float64) (l : list A) : Prop := ∀ x, x ∈ l → is_NaN (T x) = false.

#[export] Instance dns_less_swo : StrictWeakOrder dns_less.
Proof.
  change dns_less with (lex (by_key dns_Engine String.ltb) (lex (by_key dns_TransactionID Z.ltb)
    (lex (by_key dns_QueryType String.ltb) (by_key (λ r, fsget (dns_Failure r)) String.ltb)))). apply _.
Qed.

Definition net_less' : ArchivalNetworkEvent → ArchivalNetworkEvent → bool :=
  lex (by_key net_Address String.ltb) (lex (by_key net_TransactionID Z.ltb)
    (by_key (λ r, float64_key (net_T r)) key_lt)).

Definition tcp_less' : ArchivalTCPConnectResult → ArchivalTCPConnectResult → bool :=
  lex (by_key tcp_IP String.ltb) (lex (by_key tcp_Port Z.ltb) (lex (by_key tcp_TransactionID Z.ltb)
    (by_key (λ r, float64_key (tcp_T r)) key_lt))).

Definition tls_less' : ArchivalTLSOrQUICHandshakeResult → ArchivalTLSOrQUICHandshakeResult → bool :=
  lex (by_key tls_Address String.ltb) (lex (by_key tls_TransactionID Z.ltb)
    (by_key (λ r, float64_key (tls_T r)) key_lt)).

(** On timestamps that are numbers, each of the four sorting functions
    returns a sorted rearrangement of its input, and sorting twice changes
    nothing. *)
Theorem Sort_sorts `{StableSort} dns net tcp tls
    (Hnet : numbers net_T net) (Htcp : numbers tcp_T tcp) (Htls : numbers tls_T tls) :
  (SortDNSLookupResults dns ≡ₚ dns ∧ ordered dns_less (SortDNSLookupResults dns) ∧
   SortDNSLookupResults (SortDNSLookupResults dns) = SortDNSLookupResults dns) ∧
  (SortNetworkEvents net ≡ₚ net ∧ ordered net_less (SortNetworkEvents net) ∧
   SortNetworkEvents (SortNetworkEvents net) = SortNetworkEvents net) ∧
  (SortTCPConnectResults tcp ≡ₚ tcp ∧ ordered tcp_less (SortTCPConnectResults tcp) ∧
   SortTCPConnectResults (SortTCPConnectResults tcp) = SortTCPConnectResults tcp) ∧
  (SortTLSHandshakeResults tls ≡ₚ tls ∧ ordered tls_less (SortTLSHandshakeResults tls) ∧
   SortTLSHandshakeResults (SortTLSHandshakeResults tls) = SortTLSHandshakeResults tls).
Proof.
  split_and!; try (apply (sort_equiv _ dns_less); [apply _|done]).
  all: try (apply (sort_equiv _ net_less'); [unfold net_less'; apply _|];
    intros x y Hx Hy; unfold net_less, net_less'; rewrite float64_lt_key by eauto; reflexivity).
  all: try (apply (sort_equiv _ tcp_less'); [unfold tcp_less'; apply _|];
    intros x y Hx Hy; unfold tcp_less, tcp_less'; rewrite float64_lt_key by eauto; reflexivity).
  all: apply (sort_equiv _ tls_less'); [unfold tls_less'; apply _|];
    intros x y Hx Hy; unfold tls_less, tls_less'; rewrite float64_lt_key by eauto; reflexivity.
Qed.

Lemma Sort_sorts_witness :
  numbers tcp_T (entries (tk_TCPConnect sample_test_keys)) ∧ numbers tls_T (entries (tk_TLSHandshakes sample_test_keys)) ∧
  @SortTCPConnectResults go_insertion_sort (entries (tk_TCPConnect sample_test_keys)) ≡ₚ entries (tk_TCPConnect sample_test_keys).
Proof.
  assert (H1 : numbers tcp_T (entries (tk_TCPConnect sample_test_keys))).
  { intros x [->|[->|[]%not_elem_of_nil]%elem_of_cons]%elem_of_cons; by vm_compute. }
  assert (H2 : numbers tls_T (entries (tk_TLSHandshakes sample_test_keys))).
  { intros x ->%list_elem_of_singleton. by vm_compute. }
  assert (H3 : numbers net_T []) by (intros x []%not_elem_of_nil).
  split; [exact H1|split; [exact H2|]].
  exact (proj1 (proj1 (proj2 (proj2 (@Sort_sorts go_insertion_sort [] [] _ _ H3 H1 H2))))).
Defined.

(** ** Normalizing *)

(** Normalizing twice changes nothing more, normalizing keeps the number
    and the transaction of the entries, and leaves no timestamp, raw DNS
    response, certificate or large body. *)
Theorem Normalize_idempotent dns net tcp tls http :
  NormalizeDNSLookupResults (NormalizeDNSLookupResults dns) = NormalizeDNSLookupResults dns ∧
  NormalizeNetworkEvents (NormalizeNetworkEvents net) = NormalizeNetworkEvents net ∧
  NormalizeTCPConnectResults (NormalizeTCPConnectResults tcp) = NormalizeTCPConnectResults tcp ∧
  NormalizeTLSHandshakeResults (NormalizeTLSHandshakeResults tls) = NormalizeTLSHandshakeResults tls ∧
  NormalizeHTTPRequestResults (NormalizeHTTPRequestResults http) = NormalizeHTTPRequestResults http ∧
  map dns_TransactionID (NormalizeDNSLookupResults dns) = map dns_TransactionID dns ∧
  map http_TransactionID (NormalizeHTTPRequestResults http) = map http_TransactionID http ∧
  Forall (λ r, dns_T0 r = float64_zero ∧ dns_T r = float64_zero ∧ dns_RawResponse r = "")
    (NormalizeDNSLookupResults dns) ∧
  Forall (λ r, http_T r = float64_zero ∧ Z.of_nat (String.length (resp_Body (http_Response r))) ≤ maxStoreBody)
    (NormalizeHTTPRequestResults http).
Proof.
  unfold NormalizeDNSLookupResults, NormalizeNetworkEvents, NormalizeTCPConnectResults,
    NormalizeTLSHandshakeResults, NormalizeHTTPRequestResults.
  rewrite !map_map. split_and!; try (apply map_ext; intros []; cbn; done).
  - apply map_ext. intros []; cbn. destruct (String.eqb dns_Engine "udp") eqn:E; cbn; rewrite ?E; [done|].
    destruct (String.eqb dns_Engine "doh") eqn:E'; cbn; by rewrite ?E, ?E'.
  - apply map_ext. intros [n a al f rq [b bt co hl h lo] t0 t tg tx]; cbn.
    destruct (maxStoreBody <? Z.of_nat (String.length b)) eqn:E; cbn; by rewrite ?E.
  - apply map_ext. intros r. by repeat case_match.
  - apply map_ext. intros r. by destruct (maxStoreBody <? _).
  - apply Forall_forall. intros r (r' & -> & _)%list_elem_of_fmap. by repeat case_match.
  - apply Forall_forall. intros r (r' & -> & _)%list_elem_of_fmap.
    destruct r' as [n a al f rq [b bt co hl h lo] t0 t tg tx]; cbn.
    destruct (Z.ltb_spec maxStoreBody (Z.of_nat (String.length b))); cbn; by split.
Qed.

(** ** The classic filter *)

Definition via_getaddrinfo (obs : WebObservation) : bool := utilsEngineIsGetaddrinfo (DNSEngine obs).

Definition getaddrinfo_only (l : list WebObservation) : list WebObservation :=
  filter (λ obs, via_getaddrinfo obs = true) l.

Lemma getaddrinfo_only_cons obs l :
  getaddrinfo_only (obs :: l) =
  if via_getaddrinfo obs then obs :: getaddrinfo_only l else getaddrinfo_only l.
Proof. unfold getaddrinfo_only. rewrite filter_cons. by destruct (via_getaddrinfo obs). Qed.

Lemma getaddrinfo_only_snoc obs l :
  getaddrinfo_only (l ++ [obs]) =
  getaddrinfo_only l ++ if via_getaddrinfo obs then [obs] else [].
Proof.
  induction l as [|o l IH]; [apply getaddrinfo_only_cons|].
  change ((o :: l) ++ [obs]) with (o :: (l ++ [obs])).
  rewrite !getaddrinfo_only_cons, IH. by destruct (via_getaddrinfo o).
Qed.

(** What the filter relies on; ingestion guarantees it ([classic_wf_container]). *)
Record classic_wf (c : WebObservationsContainer) : Prop := {
  cw_successes obs : obs ∈ DNSLookupSuccesses c → is_Some (IPAddress obs);
  cw_endpoints txid obs : KnownTCPEndpoints c !! txid = Some obs →
    is_Some (IPAddress obs) ∧ EndpointTransactionID obs = Some txid;
}.

Lemma classic_wf_container c : container_wf c → classic_wf c.
Proof.
  intros Hc. split.
  - intros obs Hobs. pose proof (wf_successes _ Hc) as Hs. rewrite Forall_forall in Hs.
    destruct (Hs obs Hobs) as [_ _ (? & ? & _ & -> & _)]. eauto.
  - intros txid obs Hobs%wf_endpoints; [|done]. by destruct Hobs.
Qed.

(** The endpoints that are kept. *)
Definition classic_keeps (c : WebObservationsContainer) (obs : WebObservation) : Prop :=
  TagFetchBody obs = Some true ∧
  UnwrapOr (IPAddressOrigin obs) "" ≠ IPAddressOriginTH ∧
  (UnwrapOr (IPAddressOrigin obs) "" = IPAddressOriginDNS →
   ∃ lookup, lookup ∈ DNSLookupSuccesses c ∧ via_getaddrinfo lookup = true ∧
     IPAddress lookup = IPAddress obs).

Section classic.
Context `{RangeOrder}.

Lemma classic_failures_loop out l :
  foldl (λ output entry,
    if negb (utilsEngineIsGetaddrinfo (DNSEngine entry)) then output
    else output <| DNSLookupFailures ::= λ l, l ++ [entry] |>) out l =
  out <| DNSLookupFailures ::= λ l', l' ++ getaddrinfo_only l |>.
Proof.
  revert out. induction l as [|obs l IH]; intros out; simpl.
  - destruct out. cbn. by rewrite app_nil_r.
  - rewrite IH, getaddrinfo_only_cons. unfold via_getaddrinfo.
    destruct (utilsEngineIsGetaddrinfo (DNSEngine obs)); simpl; [|done].
    destruct out. cbn. by rewrite <-app_assoc.
Qed.

(** The addresses known after the loop over the successful lookups. *)
Definition classic_known (l : list WebObservation) (known : gmap string nat) : Prop :=
  ∀ addr, is_Some (known !! addr) ↔ ∃ obs, obs ∈ l ∧ via_getaddrinfo obs = true ∧ IPAddress obs = Some addr.

Lemma classic_success_loop out l :
  (∀ obs, obs ∈ l → is_Some (IPAddress obs)) →
  DNSLookupSuccesses out = [] → knownIPAddresses out = ∅ →
  ∃ known, classic_known l known ∧
    foldM classic_success out l =
      Ok (out <| DNSLookupSuccesses := getaddrinfo_only l |> <| knownIPAddresses := known |>).
Proof.
  intros Hip Hs Hk.
  destruct (foldM_loop classic_success (λ pre out', ∃ known, classic_known pre known ∧
    out' = out <| DNSLookupSuccesses := getaddrinfo_only pre |> <| knownIPAddresses := known |>) out l)
    as (out' & Hfold & known & Hknown & ->).
  - exists ∅. split.
    + intros addr. rewrite lookup_empty. split; [by intros []|]. by intros (? & ?%not_elem_of_nil & _).
    + destruct out. cbn in *. by subst.
  - intros pre obs post s Hl (known & Hknown & ->). unfold classic_success.
    rewrite getaddrinfo_only_snoc. unfold via_getaddrinfo at 1.
    destruct (utilsEngineIsGetaddrinfo (DNSEngine obs)) eqn:Hg; simpl.
    + destruct (Hip obs) as [ip Hobs]; [set_solver|]. rewrite Hobs. simpl. eexists. split; [done|].
      exists (<[ip := length (getaddrinfo_only pre)]> known). split; [|by destruct out].
      intros addr. setoid_rewrite elem_of_app. setoid_rewrite list_elem_of_singleton.
      destruct (decide (addr = ip)) as [->|Hne].
      * rewrite lookup_insert_eq. split; [|by eauto]. intros _. exists obs. by split_and!; [right|..].
      * rewrite lookup_insert_ne, (Hknown addr) by done. split.
        -- intros (o & ? & ? & ?). exists o. by split_and!; [left|..].
        -- intros (o & [Ho| ->] & ? & Ha); [by exists o|congruence].
    + eexists. split; [done|]. exists known. split; [|by rewrite app_nil_r].
      intros addr. rewrite (Hknown addr). setoid_rewrite elem_of_app.
      setoid_rewrite list_elem_of_singleton. split.
      * intros (o & ? & ? & ?). exists o. by split_and!; [left|..].
      * intros (o & [Ho| ->] & Hgo & ?); [by exists o|]. unfold via_getaddrinfo in Hgo. congruence.
  - eauto.
Qed.

Lemma classic_endpoint_loop (c out : WebObservationsContainer) l :
  classic_wf c → l ≡ₚ (map_to_list (KnownTCPEndpoints c)).*2 → KnownTCPEndpoints out = ∅ →
  classic_known (DNSLookupSuccesses c) (knownIPAddresses out) →
  ∃ m, (∀ txid obs, m !! txid = Some obs ↔ KnownTCPEndpoints c !! txid = Some obs ∧ classic_keeps c obs) ∧
    foldM classic_endpoint out l = Ok (out <| KnownTCPEndpoints := m |>).
Proof.
  intros Hc Hl Hm Hknown.
  assert (Hin : ∀ obs, obs ∈ l ↔ ∃ k, KnownTCPEndpoints c !! k = Some obs).
  { intros obs. rewrite Hl, list_elem_of_fmap. split.
    - intros ([k o] & -> & Hk%elem_of_map_to_list). by exists k.
    - intros [k Hk]. exists (k, obs). by rewrite elem_of_map_to_list. }
  destruct (foldM_loop classic_endpoint (λ pre out', ∃ m,
    (∀ txid obs, m !! txid = Some obs ↔ KnownTCPEndpoints c !! txid = Some obs ∧ obs ∈ pre ∧ classic_keeps c obs) ∧
    out' = out <| KnownTCPEndpoints := m |>) out l) as (out' & Hfold & m & Hmm & ->).
  - exists ∅. split; [|by destruct out; cbn in *; subst].
    intros txid obs. rewrite lookup_empty. split; [done|]. by intros (_ & ?%not_elem_of_nil & _).
  - intros pre obs post s Hpre (m & Hmm & ->).
    destruct (proj1 (Hin obs)) as [k Hk]; [rewrite Hpre; set_solver|].
    destruct (cw_endpoints _ Hc k obs Hk) as [[ip Hip] Hid].
    unfold classic_endpoint. rewrite Hip, Hid. cbn [Unwrap mbind outcome_bind].
    assert (Hskip : ¬ classic_keeps c obs → ∀ txid obs', m !! txid = Some obs' ↔
      KnownTCPEndpoints c !! txid = Some obs' ∧ obs' ∈ pre ++ [obs] ∧ classic_keeps c obs').
    { intros Hno txid obs'. rewrite Hmm, elem_of_app, list_elem_of_singleton. naive_solver. }
    destruct (String.eqb_spec (UnwrapOr (IPAddressOrigin obs) "") IPAddressOriginTH) as [Hth|Hth].
    { eexists; split; [done|]. exists m. split; [|done]. apply Hskip. by intros (_ & ? & _). }
    destruct (String.eqb (UnwrapOr (IPAddressOrigin obs) "") IPAddressOriginDNS && _) eqn:Hdns.
    { apply andb_true_iff in Hdns as [Ho%String.eqb_eq Hno].
      eexists; split; [done|]. exists m. split; [|done]. apply Hskip.
      intros (_ & _ & Hex). destruct (Hex Ho) as (lookup & Hlk & Hg & Hlip). rewrite Hip in Hlip.
      destruct (proj2 (Hknown ip)) as [i Hi]; [eauto|].
      change (knownIPAddresses (out <| KnownTCPEndpoints := m |>)) with (knownIPAddresses out) in Hno.
      by rewrite Hi in Hno. }
    destruct (TagFetchBody obs) as [[]|] eqn:Htag; cbn [UnwrapOr negb];
      [|eexists; split; [done|]; exists m; (split; [|done]); apply Hskip; intros (? & _); congruence..].
    assert (Hkeep : classic_keeps c obs).
    { split_and!; [done|done|]. intros Ho. rewrite Ho, String.eqb_refl in Hdns. cbn [andb] in Hdns.
      change (knownIPAddresses (out <| KnownTCPEndpoints := m |>)) with (knownIPAddresses out) in Hdns.
      destruct (proj1 (Hknown ip)) as (lookup & ? & ? & Hlip).
      { by destruct (knownIPAddresses out !! ip); [eexists|]. }
      exists lookup. by rewrite Hip, Hlip. }
    eexists; split; [done|]. exists (<[k := obs]> m). split; [|by destruct out].
    intros txid obs'. rewrite elem_of_app, list_elem_of_singleton.
    destruct (decide (txid = k)) as [->|Hne].
    + rewrite lookup_insert_eq. split; [intros [= <-]; naive_solver|]. intros (Hk' & _). congruence.
    + rewrite lookup_insert_ne, Hmm by done. split; [naive_solver|].
      intros (Hk' & [?| ->] & ?); [done|]. exfalso. apply Hne.
      pose proof (cw_endpoints _ Hc _ _ Hk') as [_ ?]. congruence.
  - exists m. split; [|done]. intros txid obs. rewrite Hmm. split; [naive_solver|].
    intros [Ho Hkp]. split_and!; [done|apply Hin; eauto|done].
Qed.
End classic.

(** What the filter returns. *)
Definition classic_result (input output : WebObservationsContainer) : Prop :=
  DNSLookupFailures output = getaddrinfo_only (DNSLookupFailures input) ∧
  DNSLookupSuccesses output = getaddrinfo_only (DNSLookupSuccesses input) ∧
  (∀ txid obs, KnownTCPEndpoints output !! txid = Some obs ↔
     KnownTCPEndpoints input !! txid = Some obs ∧ classic_keeps input obs) ∧
  ControlExpectations output = ControlExpectations input ∧
  classic_known (DNSLookupSuccesses input) (knownIPAddresses output).

Lemma ClassicFilter_result `{RangeOrder} input :
  classic_wf input → ∃ output, ClassicFilter input = Ok output ∧ classic_result input output.
Proof.
  intros Hc. unfold ClassicFilter. rewrite classic_failures_loop.
  destruct (classic_success_loop ((mkContainer [] [] ∅ None ∅) <| DNSLookupFailures ::=
    λ l', l' ++ getaddrinfo_only (DNSLookupFailures input) |>) (DNSLookupSuccesses input))
    as (known & Hknown & ->); [by apply Hc|done|done|]. cbn [mbind outcome_bind].
  destruct (classic_endpoint_loop input
    ((mkContainer [] [] ∅ None ∅) <| DNSLookupFailures ::=
        λ l', l' ++ getaddrinfo_only (DNSLookupFailures input) |>
      <| DNSLookupSuccesses := getaddrinfo_only (DNSLookupSuccesses input) |>
      <| knownIPAddresses := known |>)
    (range_map 20 (KnownTCPEndpoints input)).*2) as (m & Hm & ->);
    [done|by rewrite range_map_perm|done|done|].
  cbn [mbind outcome_bind]. eexists; split; [done|]. by split_and!.
Qed.

Lemma getaddrinfo_only_elem obs l : obs ∈ getaddrinfo_only l ↔ via_getaddrinfo obs = true ∧ obs ∈ l.
Proof. unfold getaddrinfo_only. by rewrite list_elem_of_filter. Qed.

Lemma getaddrinfo_only_idemp l : getaddrinfo_only (getaddrinfo_only l) = getaddrinfo_only l.
Proof.
  induction l as [|obs l IH]; [done|]. rewrite getaddrinfo_only_cons.
  destruct (via_getaddrinfo obs) eqn:E; [|done]. by rewrite getaddrinfo_only_cons, E, IH.
Qed.

Lemma classic_keeps_output input output obs :
  classic_result input output → classic_keeps output obs ↔ classic_keeps input obs.
Proof.
  intros (_ & Hs & _). unfold classic_keeps. rewrite Hs. setoid_rewrite getaddrinfo_only_elem.
  split; intros (Ht & Ho & Hex); (split_and!; [done|done|]); intros Hdns;
    destruct (Hex Hdns) as (lookup & Hl & Hg & Hip); exists lookup; tauto.
Qed.

(** On a container that ingestion may produce, the classic filter does not
    panic and keeps exactly the lookups made with getaddrinfo and the endpoints
    that fetch a page, not discovered by the test helper and, when discovered by a
    lookup, resolved by getaddrinfo too; so it does not depend on the order
    of map iterations, and filtering the result again keeps all of it. *)
Theorem ClassicFilter_spec (o1 o2 : RangeOrder) input (Hc : container_wf input) :
  ∃ output output', @ClassicFilter o1 input = Ok output ∧ classic_result input output ∧
    @ClassicFilter o2 output = Ok output' ∧
    DNSLookupFailures output' = DNSLookupFailures output ∧
    DNSLookupSuccesses output' = DNSLookupSuccesses output ∧
    KnownTCPEndpoints output' = KnownTCPEndpoints output ∧
    ControlExpectations output' = ControlExpectations output.
Proof.
  apply classic_wf_container in Hc.
  destruct (@ClassicFilter_result o1 input Hc) as (output & Hout & Hr).
  assert (Hc' : classic_wf output).
  { destruct Hr as (Hf & Hs & He & _). split.
    - intros obs. rewrite Hs, getaddrinfo_only_elem. intros [_ Ho]. by eapply cw_successes.
    - intros txid obs [Ho _]%He. by eapply cw_endpoints. }
  destruct (@ClassicFilter_result o2 output Hc') as (output' & Hout' & Hr').
  exists output, output'. split_and!; try done;
    pose proof Hr as (Hf & Hs & He & Hx & _); pose proof Hr' as (Hf' & Hs' & He' & Hx' & _).
  - by rewrite Hf', Hf, getaddrinfo_only_idemp.
  - by rewrite Hs', Hs, getaddrinfo_only_idemp.
  - apply map_eq. intros txid. apply option_eq. intros obs.
    rewrite He', (classic_keeps_output input output), He by done. tauto.
  - done.
Qed.

Lemma ClassicFilter_spec_witness :
  ∃ output output', @ClassicFilter range_ascending sample_container = Ok output ∧
    classic_result sample_container output ∧ @ClassicFilter range_descending output = Ok output' ∧
    DNSLookupFailures output' = DNSLookupFailures output ∧
    DNSLookupSuccesses output' = DNSLookupSuccesses output ∧
    KnownTCPEndpoints output' = KnownTCPEndpoints output ∧
    ControlExpectations output' = ControlExpectations output.
Proof. exact (ClassicFilter_spec range_ascending range_descending sample_container sample_container_wf). Defined.
