(* ===== verification/LteTestKeys.v ===== *)
(** * Web Connectivity LTE: test keys

    [pkg/experiment/webconnectivitylte/testkeys.go], [summary.go] and
    [analysishttpdiff.go]: the results that the tasks of a measurement
    accumulate.  Each method of [*TestKeys] runs with the mutex locked, so that
    it is one atomic update; a method that mutates the test keys is a function
    from test keys to test keys and the tasks that run in parallel are an
    interleaving of such updates.  [NewTestKeys] allocates [DNSWoami], [DoH] and
    [Do53], which are never replaced: they are plain fields.  An [error] that is
    only stored or formatted is the failure string it is converted to. *)
From S2P Require Import Prelude Failures GoSort GoString GoFloat Archival PipeSet Observation.
From S2P Require Import Analysis.

Record ConnPriorityLogEntry := { cpl_Msg : string; cpl_T : float64 }.

(** [webconnectivityalgo.DNSWhoamiInfoEntry] *)
Record DNSWhoamiInfoEntry := { whoami_Address : string }.

Record DNSWhoamiInfo := {
  SystemV4 : list DNSWhoamiInfoEntry;
  UDPv4 : gmap string (list DNSWhoamiInfoEntry);
}.

Record TestKeysDoH := {
  doh_NetworkEvents : list ArchivalNetworkEvent;
  doh_Queries : list ArchivalDNSLookupResult;
  doh_Requests : list ArchivalHTTPRequestResult;
  doh_TCPConnect : list ArchivalTCPConnectResult;
  doh_TLSHandshakes : list ArchivalTLSOrQUICHandshakeResult;
}.

Record TestKeysDo53 := {
  do53_NetworkEvents : list ArchivalNetworkEvent;
  do53_Queries : list ArchivalDNSLookupResult;
}.

(** [model.OOAPIService] *)
Record OOAPIService := { svc_Address : string; svc_Type : string; svc_Front : string }.

(** [Blocking any] holds nil, the boolean false or a string. *)
Inductive blocking :=
  | BlockingNil
  | BlockingFalse
  | BlockingString (reason : string).

#[export] Instance blocking_eq_dec : EqDecision blocking.
Proof. solve_decision. Defined.

Record TestKeys := mkTestKeys {
  lte_Agent : string;
  lte_ClientResolver : string;
  lte_Retries : option Z;
  lte_SOCKSProxy : option string;
  lte_NetworkEvents : list ArchivalNetworkEvent;
  lte_DNSWoami : DNSWhoamiInfo;
  lte_DoH : TestKeysDoH;
  lte_Do53 : TestKeysDo53;
  lte_DNSDuplicateResponses : list ArchivalDNSLookupResult;
  lte_Queries : list ArchivalDNSLookupResult;
  lte_Requests : list ArchivalHTTPRequestResult;
  lte_TCPConnect : list ArchivalTCPConnectResult;
  lte_TLSHandshakes : list ArchivalTLSOrQUICHandshakeResult;
  lte_ControlRequest : option THRequest;
  lte_Control : option THResponse;
  lte_ConnPriorityLog : list ConnPriorityLogEntry;
  lte_ControlFailure : option string;
  lte_DNSFlags : Z;
  lte_DNSExperimentFailure : option string;
  lte_DNSConsistency : option string;
  lte_HTTPExperimentFailure : option string;
  lte_BlockingFlags : Z;
  lte_NullNullFlags : Z;
  lte_BodyProportion : float64;
  lte_BodyLengthMatch : option bool;
  lte_HeadersMatch : option bool;
  lte_StatusCodeMatch : option bool;
  lte_TitleMatch : option bool;
  lte_Blocking : blocking;
  lte_Accessible : option bool;
  lte_fundamentalFailure : option string;
  lte_testHelper : option OOAPIService;
}.

Definition NewTestKeys : TestKeys := {|
  lte_Agent := "redirect"; lte_ClientResolver := ""; lte_Retries := None; lte_SOCKSProxy := None;
  lte_NetworkEvents := []; lte_DNSWoami := {| SystemV4 := []; UDPv4 := ∅ |};
  lte_DoH := {| doh_NetworkEvents := []; doh_Queries := []; doh_Requests := [];
                doh_TCPConnect := []; doh_TLSHandshakes := [] |};
  lte_Do53 := {| do53_NetworkEvents := []; do53_Queries := [] |};
  lte_DNSDuplicateResponses := []; lte_Queries := []; lte_Requests := [];
  lte_TCPConnect := []; lte_TLSHandshakes := []; lte_ControlRequest := None; lte_Control := None;
  lte_ConnPriorityLog := []; lte_ControlFailure := None; lte_DNSFlags := 0;
  lte_DNSExperimentFailure := None; lte_DNSConsistency := None; lte_HTTPExperimentFailure := None;
  lte_BlockingFlags := 0; lte_NullNullFlags := 0; lte_BodyProportion := float64_zero;
  lte_BodyLengthMatch := None; lte_HeadersMatch := None; lte_StatusCodeMatch := None;
  lte_TitleMatch := None; lte_Blocking := BlockingNil; lte_Accessible := None;
  lte_fundamentalFailure := None; lte_testHelper := None;
|}.

(** ** Recording results *)

Section methods.
Implicit Types (tk : TestKeys).

Definition AppendNetworkEvents (v : list ArchivalNetworkEvent) tk : TestKeys :=
  tk <| lte_NetworkEvents ::= λ l, l ++ v |>.

Definition AppendDNSLateReplies (v : list ArchivalDNSLookupResult) tk : TestKeys :=
  tk <| lte_DNSDuplicateResponses ::= λ l, l ++ v |>.

Definition AppendQueries (v : list ArchivalDNSLookupResult) tk : TestKeys :=
  tk <| lte_Queries ::= λ l, l ++ v |>.

Definition PrependRequests (v : list ArchivalHTTPRequestResult) tk : TestKeys :=
  tk <| lte_Requests ::= λ l, v ++ l |>.

Definition AppendTCPConnectResults (v : list ArchivalTCPConnectResult) tk : TestKeys :=
  tk <| lte_TCPConnect ::= λ l, l ++ v |>.

Definition AppendTLSHandshakes (v : list ArchivalTLSOrQUICHandshakeResult) tk : TestKeys :=
  tk <| lte_TLSHandshakes ::= λ l, l ++ v |>.

Definition SetControlRequest (v : option THRequest) tk : TestKeys := tk <| lte_ControlRequest := v |>.

Definition SetControl (v : option THResponse) tk : TestKeys := tk <| lte_Control := v |>.

(** The argument is [tracex.NewFailure(err)]. *)
Definition SetControlFailure (failure : option string) tk : TestKeys :=
  tk <| lte_ControlFailure := failure |>.

Definition SetFundamentalFailure (err : option string) tk : TestKeys :=
  tk <| lte_fundamentalFailure := err |>.

Definition WithTestKeysDoH (f : TestKeysDoH → TestKeysDoH) tk : TestKeys := tk <| lte_DoH ::= f |>.

Definition WithTestKeysDo53 (f : TestKeysDo53 → TestKeysDo53) tk : TestKeys := tk <| lte_Do53 ::= f |>.

Definition WithDNSWhoami (fun_ : DNSWhoamiInfo → DNSWhoamiInfo) tk : TestKeys :=
  tk <| lte_DNSWoami ::= fun_ |>.

Definition AppendConnPriorityLogEntry (entry : ConnPriorityLogEntry) tk : TestKeys :=
  tk <| lte_ConnPriorityLog ::= λ l, l ++ [entry] |>.

Definition setTestHelper (th : option OOAPIService) tk : TestKeys := tk <| lte_testHelper := th |>.

Definition getTestHelper tk : option OOAPIService := lte_testHelper tk.
End methods.

(** ** The HTTP diff *)

Record analysisHTTPDiffStatus := {
  hds_BodyProportion : option float64;
  hds_BodyLengthMatch : option bool;
  hds_HeadersMatch : option bool;
  hds_StatusCodeMatch : option bool;
  hds_TitleMatch : option bool;
}.

Definition bodyProportionFactor : float64 := float64_0_7.

Definition newAnalysisHTTPDiffStatus (analysis : WebAnalysis) : analysisHTTPDiffStatus := {|
  hds_BodyProportion := HTTPFinalResponseDiffBodyProportionFactor analysis;
  hds_BodyLengthMatch :=
    (λ factor, float64_gt factor bodyProportionFactor)
      <$> HTTPFinalResponseDiffBodyProportionFactor analysis;
  hds_HeadersMatch :=
    (λ headers, 0 <? size headers)%nat <$> HTTPFinalResponseDiffUncommonHeadersIntersection analysis;
  hds_StatusCodeMatch := HTTPFinalResponseDiffStatusCodeMatch analysis;
  hds_TitleMatch :=
    (λ words, size words <=? 0)%nat <$> HTTPFinalResponseDiffTitleDifferentLongWords analysis;
|}.

(** What the algorithm reads, from the test keys or from a fresh status. *)
Class analysisHTTPDiffValuesProvider (P : Type) := {
  bodyLengthMatch : P → option bool;
  headersMatch : P → option bool;
  statusCodeMatch : P → option bool;
  titleMatch : P → option bool;
}.

#[export] Instance analysisHTTPDiffStatus_provider : analysisHTTPDiffValuesProvider analysisHTTPDiffStatus :=
  {| bodyLengthMatch := hds_BodyLengthMatch; headersMatch := hds_HeadersMatch;
     statusCodeMatch := hds_StatusCodeMatch; titleMatch := hds_TitleMatch |}.

#[export] Instance TestKeys_provider : analysisHTTPDiffValuesProvider TestKeys :=
  {| bodyLengthMatch := lte_BodyLengthMatch; headersMatch := lte_HeadersMatch;
     statusCodeMatch := lte_StatusCodeMatch; titleMatch := lte_TitleMatch |}.

Definition analysisHTTPDiffAlgorithm `{analysisHTTPDiffValuesProvider P} (p : P) : bool :=
  if some_true (statusCodeMatch p) then
    if some_true (bodyLengthMatch p) then false
    else if some_true (headersMatch p) then false
    else if some_true (titleMatch p) then false
    else true
  else true.

Definition setHTTPDiffValues (woa : WebAnalysis) (tk : TestKeys) : TestKeys :=
  let hds := newAnalysisHTTPDiffStatus woa in
  tk <| lte_BodyProportion := UnwrapOr (hds_BodyProportion hds) float64_zero |>
     <| lte_BodyLengthMatch := hds_BodyLengthMatch hds |>
     <| lte_HeadersMatch := hds_HeadersMatch hds |>
     <| lte_StatusCodeMatch := hds_StatusCodeMatch hds |>
     <| lte_TitleMatch := hds_TitleMatch hds |>.

(** ** The summary *)

Record SummaryKeys := { sk_Accessible : bool; sk_Blocking : string; sk_IsAnomaly : bool }.

Definition MeasurementSummaryKeys (tk : TestKeys) : SummaryKeys :=
  {| sk_Accessible := UnwrapOr (lte_Accessible tk) false;
     sk_Blocking := match lte_Blocking tk with BlockingString v => v | _ => "" end;
     sk_IsAnomaly := match lte_Blocking tk with BlockingString _ => true | _ => false end |}.

Definition Anomaly (sk : SummaryKeys) : bool := sk_IsAnomaly sk.
