(* ===== verification/LteClassic.v ===== *)
(** * Web Connectivity LTE: the classic analysis engine

    [pkg/experiment/webconnectivitylte/analysisclassic.go]: how the blocking
    reason and the accessibility follow from the observations that the system
    resolver leads to.  The loop over the linear analysis returns at the first
    entry that decides; the test keys are reached through an interface. *)
From S2P Require Import Prelude Failures GoSort GoString GoFloat GoNet Archival Bogon PipeSet.
From S2P Require Import Observation Samples ObservationFacts Analysis AnalysisFacts AnalysisTotal.
From S2P Require Import LteTestKeys.

#[export] Instance WebObservationType_eq_dec : EqDecision WebObservationType.
Proof. solve_decision. Defined.

(** [!v.IsNone() && v.Unwrap() != ""] and [!v.IsNone() && v.Unwrap() == ""] *)
Definition some_failure (v : option string) : bool :=
  match v with Some failure => nonempty failure | None => false end.
Definition some_success (v : option string) : bool :=
  match v with Some failure => negb (nonempty failure) | None => false end.

Definition analysisClassicDNSConsistency (woa : WebAnalysis) : option string :=
  if (Len (DNSLookupUnexpectedFailure woa) <=? 0)%nat &&
     (Len (DNSLookupSuccessWithInvalidAddressesClassic woa) <=? 0)%nat &&
     ((0 <? Len (DNSLookupSuccessWithValidAddressClassic woa))%nat ||
      (0 <? Len (DNSLookupExpectedFailure woa))%nat)
  then Some "consistent"
  else if (0 <? Len (DNSLookupSuccessWithInvalidAddressesClassic woa))%nat ||
          (0 <? Len (DNSLookupUnexpectedFailure woa))%nat ||
          ((0 <? Len (DNSLookupSuccess woa))%nat &&
           match wa_ControlExpectations woa with
           | None => false
           | Some expect => (Len (DNSAddresses expect) <=? 0)%nat
           end)
  then Some "inconsistent"
  else None.

(** ** The test keys, as the loop sees them *)

Class analysisClassicTestKeysProxy (T : Type) := {
  httpDiff : T → bool;
  setBlockingString : string → T → T;
  setBlockingNil : T → T;
  setBlockingFalse : T → T;
  setHTTPExperimentFailure : option string → T → T;
  setWebsiteDown : T → T;
}.

(** [!tk.DNSConsistency.IsNone() && tk.DNSConsistency.Unwrap() == "inconsistent"] *)
Definition dns_inconsistent (tk : TestKeys) : bool :=
  match lte_DNSConsistency tk with Some v => String.eqb v "inconsistent" | None => false end.

Definition tk_httpDiff (tk : TestKeys) : bool := analysisHTTPDiffAlgorithm tk.

Definition tk_setBlockingFalse (tk : TestKeys) : TestKeys :=
  tk <| lte_Blocking := BlockingFalse |> <| lte_Accessible := Some true |>.

Definition tk_setBlockingNil (tk : TestKeys) : TestKeys :=
  if dns_inconsistent tk
  then tk <| lte_Blocking := BlockingString "dns" |> <| lte_Accessible := Some false |>
  else tk <| lte_Blocking := BlockingNil |> <| lte_Accessible := None |>.

Definition tk_setBlockingString (value : string) (tk : TestKeys) : TestKeys :=
  let tk := if dns_inconsistent tk then tk <| lte_Blocking := BlockingString "dns" |>
            else tk <| lte_Blocking := BlockingString value |> in
  tk <| lte_Accessible := Some false |>.

Definition tk_setHTTPExperimentFailure (value : option string) (tk : TestKeys) : TestKeys :=
  tk <| lte_HTTPExperimentFailure := value |>.

Definition tk_setWebsiteDown (tk : TestKeys) : TestKeys :=
  if dns_inconsistent tk
  then tk <| lte_Blocking := BlockingString "dns" |> <| lte_Accessible := Some false |>
  else tk <| lte_Blocking := BlockingFalse |> <| lte_Accessible := Some false |>.

#[export] Instance TestKeys_proxy : analysisClassicTestKeysProxy TestKeys :=
  {| httpDiff := tk_httpDiff; setBlockingString := tk_setBlockingString;
     setBlockingNil := tk_setBlockingNil; setBlockingFalse := tk_setBlockingFalse;
     setHTTPExperimentFailure := tk_setHTTPExperimentFailure;
     setWebsiteDown := tk_setWebsiteDown |}.

(** ** The loop *)

(** The loop over the sorted keys, from [count]. *)
Fixpoint only_loopback (keys : list string) (count : Z) : bool :=
  match keys with
  | [] => 0 <? count
  | addr :: keys =>
      if IsNone (ParseIP addr) then only_loopback keys count
      else if negb (IsLoopback addr) then false
      else only_loopback keys (count + 1)
  end.

Definition analysisContainsOnlyLoopbackAddrs `{RangeOrder} (addrs : Set_ string) : bool :=
  only_loopback (Keys addrs) 0.

Section turn.
Context `{RangeOrder} {T : Type} `{analysisClassicTestKeysProxy T}.
Implicit Types (entry : WebObservation) (tk : T).

Definition is_type (type : WebObservationType) entry : bool := bool_decide (Type_ entry = type).

(** [tk.setX(); tk.setHTTPExperimentFailure(entry.Failure)] *)
Definition and_failure entry tk : T := setHTTPExperimentFailure (Failure entry) tk.

(** 1. The final response. *)
Definition classic_final entry tk : T :=
  if some_success (TLSHandshakeFailure entry) then setBlockingFalse tk
  else if IsNone (ControlHTTPFailure entry) then setBlockingNil tk
  else if negb (httpDiff tk) then setBlockingFalse tk
  else setBlockingString "http-diff" tk.

(** 2. A failed HTTP round trip. *)
Definition classic_http_failure entry tk : T :=
  match ControlHTTPFailure entry with
  | None => and_failure entry (setBlockingNil tk)
  | Some control =>
      if nonempty control then and_failure entry (setWebsiteDown tk)
      else and_failure entry (setBlockingString "http-failure" tk)
  end.

(** 3. A failed TLS handshake. *)
Definition classic_tls_failure entry tk : T :=
  match ControlTLSHandshakeFailure entry with
  | None =>
      if IsNone (ControlHTTPFailure entry) then and_failure entry (setBlockingNil tk)
      else and_failure entry (setBlockingString "http-failure" tk)
  | Some control =>
      if nonempty control then and_failure entry (setWebsiteDown tk)
      else and_failure entry (setBlockingString "http-failure" tk)
  end.

(** 4. A failed TCP connect. *)
Definition classic_tcp_failure entry tk : T :=
  match ControlTCPConnectFailure entry with
  | None =>
      if IsNone (ControlHTTPFailure entry) then and_failure entry (setBlockingNil tk)
      else and_failure entry (setBlockingString "http-failure" tk)
  | Some control =>
      if nonempty control then and_failure entry (setWebsiteDown tk)
      else and_failure entry (setBlockingString "tcp_ip" tk)
  end.

(** 5. A failed DNS lookup. *)
Definition classic_dns_failure entry tk : T :=
  match ControlDNSLookupFailure entry with
  | None =>
      if IsNone (ControlHTTPFailure entry) then and_failure entry (setBlockingFalse tk)
      else and_failure entry (setBlockingString "dns" tk)
  | Some control =>
      if nonempty control then and_failure entry (setWebsiteDown tk)
      else if bool_decide (Failure entry = Some FailureDNSNoAnswer) &&
              match ControlDNSResolvedAddrs entry with
              | None => false
              | Some addrs => (Len addrs <=? 0)%nat
              end
      then setWebsiteDown tk
      else and_failure entry (setBlockingString "dns" tk)
  end.

(** The guards that 6 and 7 share: both lookups succeeded, with the loopback
    test of each set of addresses. *)
Definition classic_dns_loopback entry : option (bool * bool) :=
  if is_type WebObservationTypeDNSLookup entry &&
     some_success (Failure entry) && some_success (ControlDNSLookupFailure entry)
  then
    match DNSResolvedAddrs entry, ControlDNSResolvedAddrs entry with
    | Some probe, Some control =>
        Some (analysisContainsOnlyLoopbackAddrs probe, analysisContainsOnlyLoopbackAddrs control)
    | _, _ => None
    end
  else None.

(** A turn of the loop; [None] is its end without a [return]. *)
Definition classic_turn entry tk : option T :=
  if some_true (HTTPResponseIsFinal entry) then Some (classic_final entry tk)
  else if is_type WebObservationTypeHTTPRoundTrip entry && some_failure (Failure entry)
  then Some (classic_http_failure entry tk)
  else if is_type WebObservationTypeTLSHandshake entry && some_failure (Failure entry)
  then Some (classic_tls_failure entry tk)
  else if is_type WebObservationTypeTCPConnect entry && some_failure (Failure entry)
  then Some (classic_tcp_failure entry tk)
  else if is_type WebObservationTypeDNSLookup entry && some_failure (Failure entry)
  then Some (classic_dns_failure entry tk)
  else match classic_dns_loopback entry with
       | Some (true, false) => Some (setBlockingString "dns" tk)
       | Some (true, true) => Some (setWebsiteDown tk)
       | _ => None
       end.

Fixpoint classic_loop (linear : list WebObservation) tk : T :=
  match linear with
  | [] => tk
  | entry :: linear =>
      match classic_turn entry tk with
      | Some tk' => tk'
      | None => classic_loop linear tk
      end
  end.

Definition analysisClassicComputeBlockingAccessible (woa : WebAnalysis) tk : T :=
  classic_loop (Linear woa) tk.
End turn.

(** ** Web Connectivity LTE: what the classic analysis concludes

    The loop decides at the first decisive observation; which values of
    [blocking] and [accessible] come out, and what each of them proves about the
    observations. *)

Lemma some_failure_spec v : some_failure v = true ↔ ∃ failure, v = Some failure ∧ failure ≠ "".
Proof.
  unfold some_failure, nonempty. destruct v as [failure|]; [|by split; [|intros (? & ? & _)]].
  rewrite negb_true_iff, String.eqb_neq. split; [eauto|]. by intros (? & [= ->] & ?).
Qed.

Lemma some_success_spec v : some_success v = true ↔ v = Some "".
Proof.
  unfold some_success, nonempty. destruct v as [failure|]; [|done].
  rewrite negb_involutive, String.eqb_eq. split; congruence.
Qed.

Lemma nonempty_spec s : nonempty s = true ↔ s ≠ "".
Proof. unfold nonempty. by rewrite negb_true_iff, String.eqb_neq. Qed.

Lemma nonempty_false s : nonempty s = false ↔ s = "".
Proof. unfold nonempty. by rewrite negb_false_iff, String.eqb_eq. Qed.

Lemma is_type_spec t entry : is_type t entry = true ↔ Type_ entry = t.
Proof. apply bool_decide_eq_true. Qed.

(** ** Loopback addresses *)

Lemma only_loopback_spec keys count :
  0 ≤ count →
  only_loopback keys count = true ↔
    (∀ addr, addr ∈ keys → is_Some (ParseIP addr) → IsLoopback addr = true) ∧
    (0 < count ∨ ∃ addr, addr ∈ keys ∧ is_Some (ParseIP addr)).
Proof.
  revert count. induction keys as [|a keys IH]; intros count Hc; cbn [only_loopback].
  - rewrite Z.ltb_lt. setoid_rewrite elem_of_nil. naive_solver.
  - setoid_rewrite elem_of_cons.
    destruct (ParseIP a) as [ip|] eqn:Ha; cbn [IsNone].
    + destruct (IsLoopback a) eqn:Hl; cbn [negb].
      * rewrite IH by lia. split.
        -- intros [Hall _]. split; [|right; exists a; split; [by left|by eexists]].
           intros addr [->|Hin] Hs; [done|by apply Hall].
        -- intros [Hall _]. split; [by intros addr Hin; apply Hall; right|left; lia].
      * split; [done|]. intros [Hall _]. rewrite <-Hl. apply Hall; [by left|by eexists].
    + rewrite IH by done. split.
      * intros [Hall Hex]. split.
        -- intros addr [->|Hin] Hs; [rewrite Ha in Hs; by destruct Hs|by apply Hall].
        -- destruct Hex as [?|(addr & ? & ?)]; [by left|right; eauto].
      * intros [Hall Hex]. split; [by intros addr Hin; apply Hall; right|].
        destruct Hex as [?|(addr & [->|Hin] & Hs)]; [by left|rewrite Ha in Hs; by destruct Hs|right; eauto].
Qed.

(** At least one IP address, and all IP addresses are loopback. *)
Definition loopback_only (addrs : Set_ string) : Prop :=
  (∃ addr, set_Contains addrs addr = true ∧ is_Some (ParseIP addr)) ∧
  ∀ addr, set_Contains addrs addr = true → is_Some (ParseIP addr) → IsLoopback addr = true.

Lemma loopback_only_spec `{RangeOrder} addrs :
  analysisContainsOnlyLoopbackAddrs addrs = true ↔ loopback_only addrs.
Proof.
  unfold analysisContainsOnlyLoopbackAddrs, loopback_only. rewrite only_loopback_spec by done.
  setoid_rewrite elem_of_Keys. split; [|tauto]. intros [Hall [?|Hex]]; [lia|tauto].
Qed.

(** ** The first decisive observation *)

(** Both the probe and the control resolved addresses. *)
Definition both_resolve (obs : WebObservation) (probe control : Set_ string) : Prop :=
  Type_ obs = WebObservationTypeDNSLookup ∧ Failure obs = Some "" ∧ ControlDNSLookupFailure obs = Some "" ∧
  DNSResolvedAddrs obs = Some probe ∧ ControlDNSResolvedAddrs obs = Some control.

Definition decisive (obs : WebObservation) : Prop :=
  is_final obs ∨ (∃ failure, Failure obs = Some failure ∧ failure ≠ "") ∨
  (∃ probe control, both_resolve obs probe control ∧ loopback_only probe).

Section loop.
Context `{RangeOrder} {T : Type} `{analysisClassicTestKeysProxy T}.
Implicit Types (obs : WebObservation) (tk : T).

Lemma some_true_final obs : some_true (HTTPResponseIsFinal obs) = true ↔ is_final obs.
Proof. unfold is_final. destruct (HTTPResponseIsFinal obs) as [[]|]; split; intros; try done; congruence. Qed.

Lemma dns_loopback_spec obs b1 b2 :
  classic_dns_loopback obs = Some (b1, b2) ↔
    ∃ probe control, both_resolve obs probe control ∧
      b1 = analysisContainsOnlyLoopbackAddrs probe ∧ b2 = analysisContainsOnlyLoopbackAddrs control.
Proof.
  unfold classic_dns_loopback, both_resolve. split.
  - destruct (is_type _ obs) eqn:Ht; [|done]. apply is_type_spec in Ht.
    destruct (some_success (Failure obs)) eqn:Hf; [|done]. apply some_success_spec in Hf.
    destruct (some_success (ControlDNSLookupFailure obs)) eqn:Hcf; [|done]. apply some_success_spec in Hcf.
    simpl. destruct (DNSResolvedAddrs obs) as [probe|], (ControlDNSResolvedAddrs obs) as [control|]; try done.
    intros [= <- <-]. by exists probe, control.
  - intros (probe & control & (Ht & Hf & Hcf & -> & ->) & -> & ->).
    apply is_type_spec in Ht. apply some_success_spec in Hf, Hcf. by rewrite Ht, Hf, Hcf.
Qed.

Lemma decisive_spec obs :
  decisive obs ↔ some_true (HTTPResponseIsFinal obs) = true ∨ some_failure (Failure obs) = true ∨
    ∃ b, classic_dns_loopback obs = Some (true, b).
Proof.
  unfold decisive. rewrite some_true_final, some_failure_spec. do 2 f_equiv. split.
  - intros (probe & control & Hb & Hl%loopback_only_spec). eexists. apply dns_loopback_spec. eauto.
  - intros (b & (probe & control & Hb & Hl & _)%dns_loopback_spec). exists probe, control.
    by rewrite <-loopback_only_spec, <-Hl.
Qed.

Lemma classic_turn_decisive obs tk :
  match classic_turn obs tk with None => ¬ decisive obs | Some _ => decisive obs end.
Proof.
  destruct (classic_turn obs tk) as [tk'|] eqn:E; rewrite decisive_spec; revert E; unfold classic_turn.
  - destruct (some_true (HTTPResponseIsFinal obs)); [auto|].
    destruct (some_failure (Failure obs)); [auto|]. rewrite !andb_false_r.
    destruct (classic_dns_loopback obs) as [[[] b]|]; [eauto|done..].
  - destruct (some_true (HTTPResponseIsFinal obs)); [done|].
    destruct (some_failure (Failure obs)).
    { rewrite !andb_true_r. unfold is_type. by destruct (Type_ obs). }
    rewrite !andb_false_r. destruct (classic_dns_loopback obs) as [[[] []]|]; try done; naive_solver.
Qed.

(** The loop is decided by the first decisive entry. *)
Lemma classic_loop_cases linear tk :
  (classic_loop linear tk = tk ∧ ∀ obs, obs ∈ linear → ¬ decisive obs) ∨
  (∃ pre obs post tk', linear = pre ++ obs :: post ∧ (∀ o, o ∈ pre → ¬ decisive o) ∧ decisive obs ∧
     classic_turn obs tk = Some tk' ∧ classic_loop linear tk = tk').
Proof.
  induction linear as [|obs linear IH]; cbn [classic_loop].
  - left. split; [done|]. by intros ? ?%not_elem_of_nil.
  - pose proof (classic_turn_decisive obs tk) as E. destruct (classic_turn obs tk) as [tk'|] eqn:Et.
    + right. exists [], obs, linear, tk'. split_and!; try done. by intros ? ?%not_elem_of_nil.
    + destruct IH as [[-> Hall]|(pre & o & post & tk' & -> & Hpre & Hd & Ht & Hl)].
      * left. split; [done|]. intros o [->|?]%elem_of_cons; auto.
      * right. exists (obs :: pre), o, post, tk'. split_and!; try done.
        intros o' [->|?]%elem_of_cons; auto.
Qed.

Lemma classic_loop_first pre obs post tk tk' :
  (∀ o, o ∈ pre → ¬ decisive o) → classic_turn obs tk = Some tk' →
  classic_loop (pre ++ obs :: post) tk = tk'.
Proof.
  intros Hpre Ht. induction pre as [|o pre IH]; cbn [app classic_loop]; [by rewrite Ht|].
  pose proof (classic_turn_decisive o tk) as Ho. destruct (classic_turn o tk); [|apply IH; set_solver].
  exfalso. apply (Hpre o); [by left|done].
Qed.
End loop.
