(* ===== verification/LteExt.v ===== *)
(** * Web Connectivity LTE: the extended analysis and the engine

    [pkg/experiment/webconnectivitylte/analysisext.go], [analysiscore.go] and the
    top level of [analysisclassic.go]: the flags computed from all observations,
    then the classic analysis of the observations rooted in [getaddrinfo]
    lookups, then [Finalize].  The text written to [info] is only printed and is
    not part of the state. *)
From S2P Require Import Prelude Failures GoSort GoString GoFloat GoNet Archival Bogon PipeSet.
From S2P Require Import Observation.
From S2P Require Import Analysis PipeSorting LteTestKeys LteClassic.

(** ** Flags *)

Definition AnalysisBlockingFlagDNSBlocking : Z := Z.shiftl 1 0.
Definition AnalysisBlockingFlagTCPIPBlocking : Z := Z.shiftl 1 1.
Definition AnalysisBlockingFlagTLSBlocking : Z := Z.shiftl 1 2.
Definition AnalysisBlockingFlagHTTPBlocking : Z := Z.shiftl 1 3.
Definition AnalysisBlockingFlagHTTPDiff : Z := Z.shiftl 1 4.
Definition AnalysisBlockingFlagSuccess : Z := Z.shiftl 1 5.

Definition AnalysisFlagNullNullExpectedDNSLookupFailure : Z := Z.shiftl 1 0.
Definition AnalysisFlagNullNullExpectedTCPConnectFailure : Z := Z.shiftl 1 1.
Definition AnalysisFlagNullNullExpectedTLSHandshakeFailure : Z := Z.shiftl 1 2.
Definition AnalysisFlagNullNullSuccessfulHTTPS : Z := Z.shiftl 1 3.
Definition AnalysisFlagNullNullUnexpectedDNSLookupSuccess : Z := Z.shiftl 1 4.

Definition AnalysisFlagDNSBogon : Z := Z.shiftl 1 0.
Definition AnalysisDNSFlagUnexpectedFailure : Z := Z.shiftl 1 1.
Definition AnalysisDNSFlagUnexpectedAddrs : Z := Z.shiftl 1 2.

(** ** The extended analysis *)

(** [failures.Len() > 0] *)
Definition some_members (failures : Set_ Z) : bool := (0 <? Len failures)%nat.

(** [tk.XFlags |= flag] *)
Definition flag_blocking (flag : Z) (tk : TestKeys) : TestKeys := tk <| lte_BlockingFlags ::= Z.lor flag |>.
Definition flag_dns (flag : Z) (tk : TestKeys) : TestKeys := tk <| lte_DNSFlags ::= Z.lor flag |>.
Definition flag_null (flag : Z) (tk : TestKeys) : TestKeys := tk <| lte_NullNullFlags ::= Z.lor flag |>.

Section ext.
Implicit Types (tk : TestKeys) (analysis : WebAnalysis).

Definition analysisExtDNS analysis tk : TestKeys :=
  let tk := if some_members (DNSLookupSuccessWithBogonAddresses analysis)
            then flag_dns AnalysisFlagDNSBogon tk else tk in
  let tk := if some_members (DNSLookupUnexpectedFailure analysis)
            then flag_dns AnalysisDNSFlagUnexpectedFailure
                   (flag_blocking AnalysisBlockingFlagDNSBlocking tk) else tk in
  if some_members (DNSLookupSuccessWithInvalidAddresses analysis)
  then flag_dns AnalysisDNSFlagUnexpectedAddrs (flag_blocking AnalysisBlockingFlagDNSBlocking tk)
  else tk.

Definition analysisExtEndpointFailure analysis tk : TestKeys :=
  let tk := if some_members (TCPConnectUnexpectedFailure analysis)
            then flag_blocking AnalysisBlockingFlagTCPIPBlocking tk else tk in
  let tk := if some_members (TLSHandshakeUnexpectedFailure analysis)
            then flag_blocking AnalysisBlockingFlagTLSBlocking tk else tk in
  if some_members (HTTPRoundTripUnexpectedFailure analysis)
  then flag_blocking AnalysisBlockingFlagHTTPBlocking tk else tk.

Definition analysisExtHTTPFinalResponse analysis tk : TestKeys :=
  if negb (IsNone (HTTPFinalResponseSuccessTCPWithoutControl analysis)) then tk
  else if negb (IsNone (HTTPFinalResponseSuccessTLSWithoutControl analysis)) then
    flag_blocking AnalysisBlockingFlagSuccess (flag_null AnalysisFlagNullNullSuccessfulHTTPS tk)
  else if negb (IsNone (HTTPFinalResponseSuccessTLSWithControl analysis)) then
    flag_blocking AnalysisBlockingFlagSuccess tk
  else if negb (IsNone (HTTPFinalResponseSuccessTCPWithControl analysis)) then
    if analysisHTTPDiffAlgorithm (newAnalysisHTTPDiffStatus analysis)
    then flag_blocking AnalysisBlockingFlagHTTPDiff tk
    else flag_blocking AnalysisBlockingFlagSuccess tk
  else tk.

(** No final response, but one for the control: the early returns of
    [analysisExtRedirectErrors]. *)
Definition explains_redirects analysis : bool :=
  if negb (IsNone (HTTPFinalResponseSuccessTCPWithoutControl analysis)) then false
  else if negb (IsNone (HTTPFinalResponseSuccessTLSWithoutControl analysis)) then false
  else if negb (IsNone (HTTPFinalResponseSuccessTLSWithControl analysis)) then false
  else if negb (IsNone (HTTPFinalResponseSuccessTCPWithControl analysis)) then false
  else
    match wa_ControlExpectations analysis with
    | None => false
    | Some expect =>
        match FinalResponseFailure expect with
        | None => false
        | Some failure => negb (nonempty failure)
        end
    end.

Definition analysisExtRedirectErrors analysis tk : TestKeys :=
  if negb (explains_redirects analysis) then tk
  else
    let tk := if some_members (DNSLookupUnexplainedFailure analysis)
              then flag_blocking AnalysisBlockingFlagDNSBlocking tk else tk in
    let tk := if some_members (TCPConnectUnexplainedFailure analysis)
              then flag_blocking AnalysisBlockingFlagTCPIPBlocking tk else tk in
    let tk := if some_members (TLSHandshakeUnexplainedFailure analysis)
              then flag_blocking AnalysisBlockingFlagTLSBlocking tk else tk in
    if some_members (HTTPRoundTripUnexplainedFailure analysis)
    then flag_blocking AnalysisBlockingFlagHTTPBlocking tk else tk.

Definition analysisExtExpectedFailures analysis tk : TestKeys :=
  let tk := if some_members (DNSLookupExpectedFailure analysis)
            then flag_null AnalysisFlagNullNullExpectedDNSLookupFailure tk else tk in
  let tk := if some_members (TCPConnectExpectedFailure analysis)
            then flag_null AnalysisFlagNullNullExpectedTCPConnectFailure tk else tk in
  let tk := if some_members (TLSHandshakeExpectedFailure analysis)
            then flag_null AnalysisFlagNullNullExpectedTLSHandshakeFailure tk else tk in
  match wa_ControlExpectations analysis with
  | None => tk
  | Some expect =>
      if (Len (DNSAddresses expect) <=? 0)%nat && some_members (DNSLookupSuccess analysis)
      then flag_null AnalysisFlagNullNullUnexpectedDNSLookupSuccess tk else tk
  end.

(** The five passes over the analysis, in the order of [analysisExtMain]. *)
Definition ext_flags analysis tk : TestKeys :=
  let tk := analysisExtDNS analysis tk in
  let tk := analysisExtEndpointFailure analysis tk in
  let tk := analysisExtRedirectErrors analysis tk in
  let tk := analysisExtHTTPFinalResponse analysis tk in
  analysisExtExpectedFailures analysis tk.

Definition analysisExtMain `{RangeOrder} `{UnicodeTables} (lookupper : GeoIPASNLookupper)
    (container : WebObservationsContainer) tk : outcome TestKeys :=
  analysis ← AnalyzeWebObservationsWithoutLinearAnalysis lookupper container;
  Ok (ext_flags analysis tk).

(** ** The engine *)

(** 6. set [DNSExperimentFailure] when there is a failure. *)
Definition setDNSExperimentFailure (woa : WebAnalysis) tk : TestKeys :=
  match DNSExperimentFailure woa with
  | Some value => if nonempty value then tk <| lte_DNSExperimentFailure := Some value |> else tk
  | None => tk
  end.

(** 1. The observations of the test keys; [runtimex.Try0] panics with the error. *)
Definition lte_observations `{RangeOrder} `{UnicodeTables} (lookupper : GeoIPASNLookupper) tk :
    outcome WebObservationsContainer :=
  let container := NewWebObservationsContainer in
  let container := IngestDNSLookupEvents lookupper container (lte_Queries tk) in
  let container := IngestTCPConnectEvents lookupper container (lte_TCPConnect tk) in
  let container := IngestTLSHandshakeEvents container (lte_TLSHandshakes tk) in
  let container := IngestHTTPRoundTripEvents container (lte_Requests tk) in
  match lte_ControlRequest tk, lte_Control tk with
  | Some req, Some resp =>
      ingested ← IngestControlMessages req resp container;
      match ingested with
      | Val container => Ok container
      | Err why => Panic why
      end
  | _, _ => Ok container
  end.

(** 5. to 8. What follows from the analysis of the classic observations. *)
Definition classic_results `{RangeOrder} (woa : WebAnalysis) tk : TestKeys :=
  let tk := tk <| lte_DNSConsistency := analysisClassicDNSConsistency woa |> in
  let tk := setDNSExperimentFailure woa tk in
  let tk := setHTTPDiffValues woa tk in
  analysisClassicComputeBlockingAccessible woa tk.

Definition analysisClassic `{RangeOrder} `{UnicodeTables} `{StableSort} (lookupper : GeoIPASNLookupper)
    tk : outcome TestKeys :=
  container ← lte_observations lookupper tk;
  tk ← analysisExtMain lookupper container tk;
  classic ← ClassicFilter container;
  woa ← AnalyzeWebObservationsWithLinearAnalysis lookupper classic;
  Ok (classic_results woa tk).

(** [geoipx.LookupASN] reads a database that is not part of the repository: the
    lookupper remains an argument. *)
Definition analysisEngineClassic `{RangeOrder} `{UnicodeTables} `{StableSort} (lookupper : GeoIPASNLookupper)
    tk : outcome TestKeys := analysisClassic lookupper tk.

Definition analysisToplevel `{RangeOrder} `{UnicodeTables} `{StableSort} (lookupper : GeoIPASNLookupper)
    tk : outcome TestKeys := analysisEngineClassic lookupper tk.

(** [tk.NetworkEvents[i].T < tk.NetworkEvents[j].T] *)
Definition event_less (left right : ArchivalNetworkEvent) : bool := float64_lt (net_T left) (net_T right).

Definition Finalize `{RangeOrder} `{UnicodeTables} `{StableSort} (lookupper : GeoIPASNLookupper)
    tk : outcome TestKeys :=
  tk ← analysisToplevel lookupper tk;
  Ok (tk <| lte_NetworkEvents ::= SliceStable event_less |>).
End ext.
