(* ===== verification/LteBlame.v ===== *)
(** * Web Connectivity LTE: the values of [blocking] and [accessible] *)
From S2P Require Import Prelude Failures GoSort GoString GoFloat GoNet Archival Bogon PipeSet.
From S2P Require Import Observation.
From S2P Require Import Samples ObservationFacts Analysis AnalysisFacts AnalysisTotal.
From S2P Require Import LteTestKeys LteClassic.

(** ** What a blocking reason proves *)

(** The operation of the observation failed. *)
Definition failed (obs : WebObservation) : Prop := ∃ failure, Failure obs = Some failure ∧ failure ≠ "".

(** The control succeeded: at the same operation or, when the control says
    nothing about it, the control has a result for the page. *)
Definition control_worked (control : option string) (obs : WebObservation) : Prop :=
  control = Some "" ∨ (control = None ∧ is_Some (ControlHTTPFailure obs)).

(** [no_answer obs]: the probe got no answer and the control no address, which
    is not a difference. *)
Definition no_answer (obs : WebObservation) : Prop :=
  Failure obs = Some FailureDNSNoAnswer ∧
  ∃ addrs, ControlDNSResolvedAddrs obs = Some addrs ∧ Len addrs = 0%nat.

(** The observation is evidence for a reason; [diff] tells whether the
    final response differs from the control's. *)
Inductive blames (diff : bool) (obs : WebObservation) : string → Prop :=
  | blames_http_diff :
      is_final obs → TLSHandshakeFailure obs ≠ Some "" → is_Some (ControlHTTPFailure obs) → diff = true →
      blames diff obs "http-diff"
  | blames_http :
      ¬ is_final obs → Type_ obs = WebObservationTypeHTTPRoundTrip → failed obs →
      ControlHTTPFailure obs = Some "" → blames diff obs "http-failure"
  | blames_tls :
      ¬ is_final obs → Type_ obs = WebObservationTypeTLSHandshake → failed obs →
      control_worked (ControlTLSHandshakeFailure obs) obs → blames diff obs "http-failure"
  | blames_tcp_redirect :
      ¬ is_final obs → Type_ obs = WebObservationTypeTCPConnect → failed obs →
      ControlTCPConnectFailure obs = None → is_Some (ControlHTTPFailure obs) →
      blames diff obs "http-failure"
  | blames_tcp :
      ¬ is_final obs → Type_ obs = WebObservationTypeTCPConnect → failed obs →
      ControlTCPConnectFailure obs = Some "" → blames diff obs "tcp_ip"
  | blames_dns :
      ¬ is_final obs → Type_ obs = WebObservationTypeDNSLookup → failed obs →
      control_worked (ControlDNSLookupFailure obs) obs →
      (ControlDNSLookupFailure obs = Some "" → ¬ no_answer obs) → blames diff obs "dns"
  | blames_loopback probe control :
      ¬ is_final obs → both_resolve obs probe control → loopback_only probe → ¬ loopback_only control →
      blames diff obs "dns".

(** The fields that the loop may write. *)
Definition with_verdict (tk : TestKeys) (b : blocking) (a : option bool) (f : option string) : TestKeys :=
  tk <| lte_Blocking := b |> <| lte_Accessible := a |> <| lte_HTTPExperimentFailure := f |>.

Lemma with_verdict_same tk :
  tk = with_verdict tk (lte_Blocking tk) (lte_Accessible tk) (lte_HTTPExperimentFailure tk).
Proof. by destruct tk. Qed.

(** The decision that an observation takes, given the comparison of the pages. *)
Inductive decision := Undecided | Reachable | Down | Blocked (reason : string).

Definition apply_decision (d : decision) (tk : TestKeys) : TestKeys :=
  match d with
  | Undecided => tk_setBlockingNil tk
  | Reachable => tk_setBlockingFalse tk
  | Down => tk_setWebsiteDown tk
  | Blocked reason => tk_setBlockingString reason tk
  end.

Definition decide_endpoint (control http : option string) (reason : string) : decision :=
  match control with
  | None => if IsNone http then Undecided else Blocked "http-failure"
  | Some control => if nonempty control then Down else Blocked reason
  end.

Definition decide_failure (obs : WebObservation) : decision :=
  let http := ControlHTTPFailure obs in
  match Type_ obs with
  | WebObservationTypeHTTPRoundTrip =>
      match http with
      | None => Undecided
      | Some control => if nonempty control then Down else Blocked "http-failure"
      end
  | WebObservationTypeTLSHandshake => decide_endpoint (ControlTLSHandshakeFailure obs) http "http-failure"
  | WebObservationTypeTCPConnect => decide_endpoint (ControlTCPConnectFailure obs) http "tcp_ip"
  | WebObservationTypeDNSLookup =>
      match ControlDNSLookupFailure obs with
      | None => if IsNone http then Reachable else Blocked "dns"
      | Some control =>
          if nonempty control then Down
          else if bool_decide (Failure obs = Some FailureDNSNoAnswer) &&
                  match ControlDNSResolvedAddrs obs with
                  | None => false
                  | Some addrs => (Len addrs <=? 0)%nat
                  end then Down else Blocked "dns"
      end
  end.

Definition decide_obs `{RangeOrder} (diff : bool) (obs : WebObservation) : option decision :=
  if some_true (HTTPResponseIsFinal obs) then
    Some (if some_success (TLSHandshakeFailure obs) then Reachable
          else if IsNone (ControlHTTPFailure obs) then Undecided
          else if negb diff then Reachable else Blocked "http-diff")
  else if some_failure (Failure obs) then Some (decide_failure obs)
  else match classic_dns_loopback obs with
       | Some (true, false) => Some (Blocked "dns")
       | Some (true, true) => Some Down
       | _ => None
       end.

(** A turn applies the decision; it may also record the failure. *)
Lemma classic_turn_decision `{RangeOrder} obs tk tk' :
  classic_turn obs tk = Some tk' →
  ∃ d, decide_obs (tk_httpDiff tk) obs = Some d ∧
    (tk' = apply_decision d tk ∨ tk' = tk_setHTTPExperimentFailure (Failure obs) (apply_decision d tk)).
Proof.
  unfold classic_turn, decide_obs, classic_final, decide_failure.
  destruct (some_true (HTTPResponseIsFinal obs)).
  { intros [= <-]. eexists; split; [done|]. left. by repeat case_match. }
  destruct (some_failure (Failure obs)) eqn:Ef.
  2: { rewrite !andb_false_r. destruct (classic_dns_loopback obs) as [[[] []]|]; try done;
       intros [= <-]; eexists; split; (done || by left). }
  rewrite !andb_true_r. unfold is_type.
  destruct (Type_ obs); simpl; intros [= <-]; eexists; (split; [done|]);
    unfold classic_http_failure, classic_tls_failure, classic_tcp_failure, classic_dns_failure,
      decide_endpoint, and_failure; repeat case_match; auto.
Qed.

Lemma failed_spec obs : some_failure (Failure obs) = true ↔ failed obs.
Proof. apply some_failure_spec. Qed.

Lemma endpoint_reason control http own reason :
  decide_endpoint control http own = Blocked reason ↔
    (control = Some "" ∧ reason = own) ∨ (control = None ∧ is_Some http ∧ reason = "http-failure").
Proof.
  unfold decide_endpoint. destruct control as [control|].
  - destruct (nonempty control) eqn:En; [apply nonempty_spec in En|apply nonempty_false in En as ->];
      split; intros; simplify_eq; naive_solver.
  - destruct http as [http|]; simpl; split; try done.
    + intros [= <-]. right. eauto.
    + by intros [[? _]|(_ & _ & ->)].
    + by intros [[? _]|(_ & [? ?] & _)].
Qed.

Lemma no_answer_spec obs :
  bool_decide (Failure obs = Some FailureDNSNoAnswer) &&
    match ControlDNSResolvedAddrs obs with None => false | Some addrs => (Len addrs <=? 0)%nat end = true ↔
  no_answer obs.
Proof.
  rewrite andb_true_iff, bool_decide_eq_true. unfold no_answer. f_equiv.
  destruct (ControlDNSResolvedAddrs obs) as [addrs|]; [|naive_solver].
  rewrite Nat.leb_le. split; [|naive_solver lia]. intros. exists addrs. split; [done|lia].
Qed.

Lemma dns_reason obs reason :
  Type_ obs = WebObservationTypeDNSLookup →
  decide_failure obs = Blocked reason ↔
    reason = "dns" ∧ control_worked (ControlDNSLookupFailure obs) obs ∧
    (ControlDNSLookupFailure obs = Some "" → ¬ no_answer obs).
Proof.
  intros Ht. unfold decide_failure, control_worked. rewrite Ht, <-no_answer_spec.
  destruct (ControlDNSLookupFailure obs) as [control|]; cbn [decide_endpoint].
  - destruct (nonempty control) eqn:En; [apply nonempty_spec in En|apply nonempty_false in En as ->];
      [naive_solver|]. destruct (bool_decide _ && _); naive_solver.
  - destruct (ControlHTTPFailure obs) as [http|]; simpl; [|split; [done|]].
    + split; [|naive_solver]. intros [= <-]. split_and!; [done|right; eauto|done].
    + intros (_ & [?|[_ [? ?]]] & _); done.
Qed.

(** A failed operation that is not the final response. *)
Lemma failure_blames diff obs reason :
  ¬ is_final obs → failed obs → decide_failure obs = Blocked reason ↔ blames diff obs reason.
Proof.
  intros Hnf Hfail. assert (Hnl : ∀ p c, ¬ both_resolve obs p c).
  { intros p c (_ & Hf & _). destruct Hfail as (f & Hf' & ?). congruence. }
  destruct (Type_ obs) eqn:Et.
  - rewrite dns_reason by done. split; [intros (-> & Hc & Hna); by apply blames_dns|].
    destruct 1; try congruence; try (by edestruct Hnl); auto.
  - unfold decide_failure. rewrite Et, endpoint_reason. split.
    + intros [[Hc ->]|(Hc & Hh & ->)]; [by apply blames_tcp|by apply blames_tcp_redirect].
    + destruct 1; try congruence; try (by edestruct Hnl); auto.
  - unfold decide_failure. rewrite Et, endpoint_reason. split.
    + intros [[Hc ->]|(Hc & Hh & ->)]; apply blames_tls; try done; [by left|by right].
    + destruct 1 as [| | ? ? ? [?|[? ?]] | | | | ]; try congruence; try (by edestruct Hnl); auto.
  - unfold decide_failure. rewrite Et.
    destruct (ControlHTTPFailure obs) as [http|] eqn:Eh.
    2: { split; [done|]. destruct 1; try congruence; try (by edestruct Hnl); auto. }
    destruct (nonempty http) eqn:En; [apply nonempty_spec in En|apply nonempty_false in En as ->].
    + split; [done|]. destruct 1; try congruence; try (by edestruct Hnl); auto.
    + split; [intros [= <-]; by apply blames_http|]. destruct 1; try congruence; try (by edestruct Hnl); auto.
Qed.

Lemma decide_blames `{RangeOrder} diff obs reason :
  decide_obs diff obs = Some (Blocked reason) ↔ blames diff obs reason.
Proof.
  unfold decide_obs. destruct (some_true (HTTPResponseIsFinal obs)) eqn:Efin.
  { apply some_true_final in Efin. split.
    - destruct (some_success (TLSHandshakeFailure obs)) eqn:Et; [done|].
      destruct (ControlHTTPFailure obs) as [http|] eqn:Eh; [|done]. destruct diff; [|done].
      intros [= <-]. apply blames_http_diff; [done| |by eexists|done].
      rewrite <-some_success_spec. congruence.
    - destruct 1 as [_ Ht [http Hh] -> | | | | | | ]; try done. rewrite <-some_success_spec in Ht.
      apply not_true_is_false in Ht. by rewrite Ht, Hh. }
  assert (Hnf : ¬ is_final obs) by (rewrite <-some_true_final; congruence).
  destruct (some_failure (Failure obs)) eqn:Ef.
  { apply failed_spec in Ef. rewrite <-(failure_blames diff) by done. split; congruence. }
  assert (Hnofail : ¬ failed obs) by (rewrite <-failed_spec; congruence). split.
  - destruct (classic_dns_loopback obs) as [[[] []]|] eqn:Ed; try done. intros [= <-].
    apply dns_loopback_spec in Ed as (probe & control & Hb & Hp & Hc).
    eapply blames_loopback; [done|exact Hb|by apply loopback_only_spec|].
    rewrite <-loopback_only_spec. congruence.
  - destruct 1 as [| | | | | |probe control _ Hb Hp Hc]; try done.
    apply loopback_only_spec in Hp. rewrite <-loopback_only_spec in Hc. apply not_true_is_false in Hc.
    assert (classic_dns_loopback obs = Some (true, false)) as ->; [|done].
    apply dns_loopback_spec. exists probe, control. by rewrite Hp, Hc.
Qed.

(** ** The verdict of the engine *)

Section verdict.
Context `{RangeOrder}.
Implicit Types (tk : TestKeys) (obs : WebObservation).

Lemma decision_failure d tk : lte_HTTPExperimentFailure (apply_decision d tk) = lte_HTTPExperimentFailure tk.
Proof.
  destruct d; unfold apply_decision, tk_setBlockingNil, tk_setBlockingString, tk_setWebsiteDown;
    by repeat case_match.
Qed.

Lemma keep_failure tk : tk <| lte_HTTPExperimentFailure := lte_HTTPExperimentFailure tk |> = tk.
Proof. by destruct tk. Qed.

(** The first decisive observation takes the decision. *)
Lemma loop_decision linear tk :
  (classic_loop linear tk = tk ∧ ∀ obs, obs ∈ linear → ¬ decisive obs) ∨
  (∃ pre obs post d f, linear = pre ++ obs :: post ∧ (∀ o, o ∈ pre → ¬ decisive o) ∧
     decide_obs (tk_httpDiff tk) obs = Some d ∧
     (f = lte_HTTPExperimentFailure tk ∨ f = Failure obs) ∧
     classic_loop linear tk = (apply_decision d tk) <| lte_HTTPExperimentFailure := f |>).
Proof.
  destruct (classic_loop_cases linear tk) as [?|(pre & obs & post & tk' & -> & Hpre & _ & Ht & ->)]; [by left|].
  right. apply classic_turn_decision in Ht as (d & Hd & [->| ->]).
  - exists pre, obs, post, d, (lte_HTTPExperimentFailure tk). split_and!; [done|done|done|by left|].
    by rewrite <-(decision_failure d tk), keep_failure.
  - exists pre, obs, post, d, (Failure obs). split_and!; auto.
Qed.

Lemma decide_decisive diff obs : is_Some (decide_obs diff obs) → decisive obs.
Proof.
  rewrite decisive_spec. unfold decide_obs. intros [d Hd].
  destruct (some_true _); [auto|]. destruct (some_failure _); [auto|].
  destruct (classic_dns_loopback obs) as [[[] b]|]; [eauto|done..].
Qed.

(** The decision of a list: the one of its first decisive observation. *)
Lemma first_decisive_unique {A} (P : A → Prop) pre1 x1 post1 pre2 x2 post2 :
  pre1 ++ x1 :: post1 = pre2 ++ x2 :: post2 →
  (∀ x, x ∈ pre1 → ¬ P x) → (∀ x, x ∈ pre2 → ¬ P x) → P x1 → P x2 → x1 = x2.
Proof.
  revert pre2. induction pre1 as [|y pre1 IH]; intros [|z pre2] Heq H1 H2 Hx1 Hx2; simplify_eq/=.
  - done.
  - exfalso. by apply (H2 z); [left|].
  - exfalso. by apply (H1 x2); [left|].
  - apply (IH pre2); try done; intros x Hx; [apply H1|apply H2]; by right.
Qed.
End verdict.

(** The values of the pair of fields. *)
Inductive allowed : blocking → option bool → Prop :=
  | allowed_unknown : allowed BlockingNil None
  | allowed_reachable : allowed BlockingFalse (Some true)
  | allowed_down : allowed BlockingFalse (Some false)
  | allowed_blocked reason : reason ∈ ["dns"; "tcp_ip"; "http-failure"; "http-diff"] →
      allowed (BlockingString reason) (Some false).

Lemma blames_reason diff obs reason :
  blames diff obs reason → reason ∈ ["dns"; "tcp_ip"; "http-failure"; "http-diff"].
Proof. destruct 1; set_solver. Qed.

(** C2: whatever the analysis, only seven combinations of [blocking] and
    [accessible] come out of the classic engine; with an inconsistent DNS the only
    reason is "dns" and an undetermined or down website is reported as
    blocked; nothing else than these two fields and the HTTP failure is
    written. *)
Theorem classic_verdict_allowed `{RangeOrder} (woa : WebAnalysis) tk
    (Hstart : lte_Blocking tk = BlockingNil ∧ lte_Accessible tk = None) :
  let tk' := analysisClassicComputeBlockingAccessible woa tk in
  allowed (lte_Blocking tk') (lte_Accessible tk') ∧
  (dns_inconsistent tk = true → (∃ obs, obs ∈ Linear woa ∧ decisive obs) →
     (lte_Blocking tk' = BlockingString "dns" ∧ lte_Accessible tk' = Some false) ∨
     (lte_Blocking tk' = BlockingFalse ∧ lte_Accessible tk' = Some true)) ∧
  tk' = with_verdict tk (lte_Blocking tk') (lte_Accessible tk') (lte_HTTPExperimentFailure tk').
Proof.
  intros tk'. subst tk'. unfold analysisClassicComputeBlockingAccessible. destruct Hstart as [Hb Ha].
  destruct (loop_decision (Linear woa) tk) as [[-> Hno]|(pre & obs & post & d & f & Hl & Hpre & Hd & Hf & ->)].
  { split_and!; [rewrite Hb, Ha; constructor| |by destruct tk].
    intros _ (obs & Hin & Hdec). by destruct (Hno obs). }
  assert (Hreason : ∀ reason, d = Blocked reason → reason ∈ ["dns"; "tcp_ip"; "http-failure"; "http-diff"]).
  { intros reason ->. apply decide_blames in Hd. by eapply blames_reason. }
  clear Hd Hl Hpre Hf. destruct d as [| | |reason]; cbn [apply_decision];
    unfold tk_setBlockingNil, tk_setBlockingFalse, tk_setWebsiteDown, tk_setBlockingString;
    destruct (dns_inconsistent tk) eqn:Edns; destruct tk; simpl in *;
    (split_and!; [constructor; set_solver|naive_solver|done]).
Qed.

(** C1: when the DNS is not inconsistent, the engine gives a blocking reason
    exactly when the first decisive observation of the linear analysis is
    evidence for it: an operation that failed in the probe and worked for the
    control, a final page that differs from the control's, or a lookup that
    only gives loopback addresses. *)
Theorem classic_blame `{RangeOrder} (woa : WebAnalysis) tk reason
    (Hstart : lte_Blocking tk = BlockingNil) (Hdns : dns_inconsistent tk = false) :
  lte_Blocking (analysisClassicComputeBlockingAccessible woa tk) = BlockingString reason ↔
    ∃ pre obs post, Linear woa = pre ++ obs :: post ∧ (∀ o, o ∈ pre → ¬ decisive o) ∧
      blames (tk_httpDiff tk) obs reason.
Proof.
  unfold analysisClassicComputeBlockingAccessible.
  destruct (loop_decision (Linear woa) tk) as [[-> Hno]|(pre & obs & post & d & f & Hl & Hpre & Hd & Hf & ->)].
  - rewrite Hstart. split; [done|]. intros (pre & obs & post & Hl & _ & Hb).
    apply decide_blames in Hb. destruct (Hno obs); [rewrite Hl; set_solver|].
    eapply decide_decisive. eauto.
  - assert (Hb : lte_Blocking ((apply_decision d tk) <| lte_HTTPExperimentFailure := f |>) = BlockingString reason
      ↔ d = Blocked reason).
    { destruct d; unfold apply_decision, tk_setBlockingNil, tk_setBlockingFalse,
        tk_setWebsiteDown, tk_setBlockingString; rewrite ?Hdns; simpl; unfold constant; split; congruence. }
    rewrite Hb. clear Hb. split.
    + intros ->. exists pre, obs, post. split_and!; try done. by apply decide_blames.
    + intros (pre' & obs' & post' & Hl' & Hpre' & Hb%decide_blames).
      rewrite Hl in Hl'. assert (obs = obs') as <-.
      { eapply (first_decisive_unique decisive); try done; eapply decide_decisive; eauto. }
      congruence.
Qed.

(** A DNS that works, a TCP connect that fails and works for the control. *)
Definition blamed_obs : WebObservation :=
  zeroObs <| TagDepth := Some 0 |> <| Type_ := WebObservationTypeTCPConnect |>
          <| Failure := Some FailureConnectionRefused |> <| ControlTCPConnectFailure := Some "" |>.

Definition blamed_wa : WebAnalysis :=
  (newAnalysis None) <| Linear := [blamed_obs; zeroObs <| Failure := Some "" |>] |>.

Lemma classic_verdict_allowed_witness :
  let tk' := @analysisClassicComputeBlockingAccessible range_ascending _ _ blamed_wa NewTestKeys in
  allowed (lte_Blocking tk') (lte_Accessible tk') ∧ lte_Blocking tk' = BlockingString "tcp_ip".
Proof.
  split; [|by vm_compute].
  exact (proj1 (@classic_verdict_allowed range_ascending blamed_wa NewTestKeys (conj eq_refl eq_refl))).
Defined.

Lemma classic_blame_witness :
  ∃ pre obs post, Linear blamed_wa = pre ++ obs :: post ∧ (∀ o, o ∈ pre → ¬ decisive o) ∧
    blames (tk_httpDiff NewTestKeys) obs "tcp_ip".
Proof.
  apply (proj1 (@classic_blame range_ascending blamed_wa NewTestKeys "tcp_ip" eq_refl eq_refl)).
  by vm_compute.
Defined.

(** ** HTTPS success *)

Definition depth_of (obs : WebObservation) : Z := UnwrapOr (TagDepth obs) (-1).

(** What precedes a successful HTTP observation of the last redirect. *)
Lemma before_http_success o obs :
  linear_less obs o = false → depth_of o ≤ depth_of obs →
  Type_ obs = WebObservationTypeHTTPRoundTrip → Failure obs = Some "" →
  Type_ o = WebObservationTypeHTTPRoundTrip ∧ Failure o = Some "".
Proof.
  unfold linear_less, depth_of. intros Hless Hdepth Ht Hf. rewrite Ht, Hf in Hless. cbn [UnwrapOr type_rank] in Hless.
  destruct (Z.ltb_spec (UnwrapOr (TagDepth o) (-1)) (UnwrapOr (TagDepth obs) (-1))); [done|].
  destruct (Z.ltb_spec (UnwrapOr (TagDepth obs) (-1)) (UnwrapOr (TagDepth o) (-1))); [lia|].
  destruct (Type_ o); try done. split; [done|]. simpl in Hless.
  destruct (Failure o) as [[|c s]|]; done.
Qed.

(** An HTTPS page that was fetched at the last redirect makes the website
    reachable and not blocked, whatever else failed and even with an
    inconsistent DNS, provided that it is the only final response. *)
Theorem https_final_reachable `{RangeOrder} `{StableSort} c (woa : WebAnalysis) tk txid obs
    (Hc : container_wf c) (Hlinear : Linear woa = NewLinearWebAnalysis c)
    (Hobs : KnownTCPEndpoints c !! txid = Some obs) (Hfinal : is_final obs)
    (Hunique : ∀ o, o ∈ Linear woa → is_final o → o = obs)
    (Hlast : ∀ o, o ∈ Linear woa → depth_of o ≤ depth_of obs)
    (Htls : TLSHandshakeFailure obs = Some "")
    (Hhttp : Type_ obs = WebObservationTypeHTTPRoundTrip ∧ Failure obs = Some "") :
  analysisClassicComputeBlockingAccessible woa tk = tk_setBlockingFalse tk.
Proof.
  destruct Hhttp as [Htype Hok].
  assert (Hin : obs ∈ Linear woa).
  { rewrite Hlinear. unfold NewLinearWebAnalysis. rewrite SliceStable_perm, !elem_of_app. right. right.
    apply range_map_values. eauto. }
  assert (Hord : ordered linear_less (Linear woa)) by (rewrite Hlinear; apply SliceStable_sorts, _).
  assert (Hdec : decisive obs) by by left.
  unfold analysisClassicComputeBlockingAccessible.
  destruct (classic_loop_cases (Linear woa) tk) as [[_ Hno]|(pre & o & post & tk' & Hl & Hpre & Hd & Ht & ->)];
    [by destruct (Hno obs)|].
  assert (Ho : o = obs).
  { rewrite Hl in Hin. apply elem_of_app in Hin as [Hin|[->|Hin]%elem_of_cons];
      [by destruct (Hpre obs)|done|].
    apply Hunique; [rewrite Hl; set_solver|]. destruct Hd as [?|Hd]; [done|exfalso].
    destruct (before_http_success o obs) as [Hto Hfo].
    - rewrite Hl in Hord. apply StronglySorted_app in Hord as (_ & _ & Hord).
      apply StronglySorted_inv in Hord as [_ Hall]. rewrite Forall_forall in Hall. by apply Hall.
    - apply Hlast. rewrite Hl. set_solver.
    - done.
    - done.
    - destruct Hd as [(f & Hf & Hne)|(p & q & (Hdns & _) & _)]; congruence. }
  subst o. unfold classic_turn, classic_final in Ht. rewrite Hfinal, Htls in Ht. by injection Ht.
Qed.

(** *** The sample *)

Definition sample_final : WebObservation := default zeroObs (KnownTCPEndpoints sample_container !! 5).

Definition sample_linear : list WebObservation :=
  @NewLinearWebAnalysis range_ascending go_insertion_sort sample_container.

Lemma sample_final_lookup : KnownTCPEndpoints sample_container !! 5 = Some sample_final.
Proof. unfold sample_final. destruct (_ !! 5) eqn:E; [done|]. by vm_compute in E. Qed.

Lemma sample_linear_elem o : o ∈ sample_linear →
  Type_ o = WebObservationTypeDNSLookup ∨ KnownTCPEndpoints sample_container !! TransactionID o = Some o.
Proof.
  unfold sample_linear, NewLinearWebAnalysis. rewrite SliceStable_perm, !elem_of_app.
  destruct sample_container_wf as [Hf Hs He _]. rewrite Forall_forall in Hf, Hs.
  intros [Ho|[Ho|[k Ho]%range_map_values]]; [left..|right].
  - by destruct (Hf o Ho).
  - by destruct (Hs o Ho) as [[]].
  - by rewrite (ep_txid _ _ (He _ _ Ho)).
Qed.

Definition sample_linear_check (o : WebObservation) : bool :=
  (depth_of o <=? depth_of sample_final) &&
  (negb (some_true (HTTPResponseIsFinal o)) ||
   ((TransactionID o =? 5) && negb (is_type WebObservationTypeDNSLookup o))).

Lemma sample_linear_checked o : o ∈ sample_linear → sample_linear_check o = true.
Proof.
  assert (Hall : forallb sample_linear_check sample_linear = true) by by vm_compute.
  rewrite forallb_forall in Hall. intros Ho. apply Hall. by rewrite <-list_elem_of_In.
Qed.

Lemma sample_final_unique o : o ∈ sample_linear → is_final o → o = sample_final.
Proof.
  intros Ho Hfin. apply some_true_final in Hfin. pose proof (sample_linear_checked o Ho) as Hcheck.
  unfold sample_linear_check in Hcheck. rewrite Hfin in Hcheck.
  apply andb_prop in Hcheck as [_ [Htx Hty]%andb_prop].
  apply Z.eqb_eq in Htx. apply sample_linear_elem in Ho as [Ho|Ho].
  - exfalso. rewrite (proj2 (is_type_spec _ _) Ho) in Hty. discriminate Hty.
  - rewrite Htx in Ho. apply (inj Some). etrans; [symmetry; exact Ho|exact sample_final_lookup].
Qed.

Lemma sample_final_last o : o ∈ sample_linear → depth_of o ≤ depth_of sample_final.
Proof. intros Ho. apply sample_linear_checked, andb_prop in Ho as [Ho _]. by apply Z.leb_le. Qed.

Lemma sample_final_facts : is_final sample_final ∧ TLSHandshakeFailure sample_final = Some "" ∧
  Type_ sample_final = WebObservationTypeHTTPRoundTrip ∧ Failure sample_final = Some "".
Proof. split_and!; by vm_compute. Qed.

Definition sample_linear_wa : WebAnalysis := (newAnalysis None) <| Linear := sample_linear |>.

Lemma https_final_reachable_witness :
  @analysisClassicComputeBlockingAccessible range_descending _ _ sample_linear_wa NewTestKeys =
  tk_setBlockingFalse NewTestKeys.
Proof.
  destruct sample_final_facts as (Hfin & Htls & Hhttp).
  exact (@https_final_reachable range_descending go_insertion_sort sample_container
    sample_linear_wa NewTestKeys 5 sample_final sample_container_wf
    (linear_deterministic range_ascending range_descending go_insertion_sort go_insertion_sort
      sample_container sample_container_wf)
    sample_final_lookup Hfin sample_final_unique sample_final_last Htls Hhttp).
Defined.
