(* ===== verification/LteEngine.v ===== *)
(** * Web Connectivity LTE: flags, DNS consistency and the whole engine *)
From S2P Require Import Prelude Failures GoSort GoString GoFloat GoNet GoURL Archival Bogon PipeSet.
From S2P Require Import Observation Samples ObservationFacts Analysis AnalysisFacts AnalysisTotal.
From S2P Require Import PipeSorting LteTestKeys LteClassic LteExt.
From Stdlib Require Import Btauto.

(** ** Sets *)

Definition has_member (sx : Set_ Z) : Prop := ∃ txid, set_Contains sx txid = true.

Lemma some_members_spec sx : some_members sx = true ↔ has_member sx.
Proof.
  unfold some_members, has_member, Len, set_Contains. rewrite Nat.ltb_lt.
  setoid_rewrite bool_decide_eq_true. split.
  - intros Hs. destruct (map_choose (state_map sx)) as (k & x & Hk); [|eauto].
    intros E. rewrite E, map_size_empty in Hs. lia.
  - intros [k [x Hk]]. destruct (size (state_map sx)) eqn:E; [|lia].
    apply map_size_empty_iff in E. rewrite E in Hk. done.
Qed.

Lemma Len_positive sx : (0 <? Len sx)%nat = true ↔ has_member sx.
Proof. apply some_members_spec. Qed.

Lemma Len_zero sx : (Len sx <=? 0)%nat = true ↔ ¬ has_member sx.
Proof. rewrite <-Len_positive, Nat.leb_le, Nat.ltb_lt. lia. Qed.

(** ** DNS consistency *)

(** The control is known and resolved no address. *)
Definition control_empty (woa : WebAnalysis) : Prop :=
  ∃ expect, wa_ControlExpectations woa = Some expect ∧ Len (DNSAddresses expect) = 0%nat.

Lemma control_empty_spec woa :
  match wa_ControlExpectations woa with
  | None => false
  | Some expect => (Len (DNSAddresses expect) <=? 0)%nat
  end = true ↔ control_empty woa.
Proof.
  unfold control_empty. destruct (wa_ControlExpectations woa) as [expect|]; [|naive_solver].
  rewrite Nat.leb_le. split; [|naive_solver lia]. intros. exists expect. split; [done|lia].
Qed.

(** The DNS is consistent when no lookup failed unexpectedly or gave
    invalid addresses, and some lookup gave a valid address or failed as it did
    for the control; it is inconsistent when some lookup failed unexpectedly or
    gave invalid addresses, or when the probe resolved addresses, none of
    which could be validated, of a domain for which the control found none;
    otherwise nothing is said. *)
Theorem DNSConsistency_spec woa :
  let suspicious := has_member (DNSLookupUnexpectedFailure woa) ∨
                    has_member (DNSLookupSuccessWithInvalidAddressesClassic woa) in
  let confirmed := has_member (DNSLookupSuccessWithValidAddressClassic woa) ∨
                   has_member (DNSLookupExpectedFailure woa) in
  let ghost := has_member (DNSLookupSuccess woa) ∧ control_empty woa in
  (analysisClassicDNSConsistency woa = Some "consistent" ↔ ¬ suspicious ∧ confirmed) ∧
  (analysisClassicDNSConsistency woa = Some "inconsistent" ↔ suspicious ∨ (¬ confirmed ∧ ghost)) ∧
  (analysisClassicDNSConsistency woa = None ↔ ¬ suspicious ∧ ¬ confirmed ∧ ¬ ghost).
Proof.
  cbn zeta. rewrite <-!Len_positive, <-!control_empty_spec. unfold analysisClassicDNSConsistency.
  destruct (Nat.leb_spec (Len (DNSLookupUnexpectedFailure woa)) 0),
    (Nat.ltb_spec 0 (Len (DNSLookupUnexpectedFailure woa))); try lia;
  destruct (Nat.leb_spec (Len (DNSLookupSuccessWithInvalidAddressesClassic woa)) 0),
    (Nat.ltb_spec 0 (Len (DNSLookupSuccessWithInvalidAddressesClassic woa))); try lia;
  destruct (0 <? Len (DNSLookupSuccessWithValidAddressClassic woa))%nat,
    (0 <? Len (DNSLookupExpectedFailure woa))%nat, (0 <? Len (DNSLookupSuccess woa))%nat,
    (match wa_ControlExpectations woa with None => _ | Some _ => _ end); simpl; split_and!; naive_solver.
Qed.

(** ** Flags *)

Definition when (b : bool) (flag : Z) : Z := if b then flag else 0.

Lemma testbit_when b k i : 0 ≤ k → Z.testbit (when b (Z.shiftl 1 k)) i = b && (i =? k).
Proof.
  intros Hk. unfold when. destruct b; [|by rewrite Z.testbit_0_l].
  rewrite Z.shiftl_1_l. simpl. destruct (Z.eqb_spec i k) as [->|Hne].
  - by apply Z.pow2_bits_true.
  - by apply Z.pow2_bits_false.
Qed.

(** The final response, as the engine ranks the four cases. *)
Inductive final_case := NoFinal | FinalNoControl | FinalSecure (control : bool) | FinalCompared.

Definition final_case_of (wa : WebAnalysis) : final_case :=
  if negb (IsNone (HTTPFinalResponseSuccessTCPWithoutControl wa)) then FinalNoControl
  else if negb (IsNone (HTTPFinalResponseSuccessTLSWithoutControl wa)) then FinalSecure false
  else if negb (IsNone (HTTPFinalResponseSuccessTLSWithControl wa)) then FinalSecure true
  else if negb (IsNone (HTTPFinalResponseSuccessTCPWithControl wa)) then FinalCompared
  else NoFinal.

Definition compared_different (wa : WebAnalysis) : bool :=
  match final_case_of wa with
  | FinalCompared => analysisHTTPDiffAlgorithm (newAnalysisHTTPDiffStatus wa)
  | _ => false
  end.

Definition final_succeeds (wa : WebAnalysis) : bool :=
  match final_case_of wa with
  | FinalSecure _ => true
  | FinalCompared => negb (analysisHTTPDiffAlgorithm (newAnalysisHTTPDiffStatus wa))
  | _ => false
  end.

Definition raised_dns (wa : WebAnalysis) : list (bool * Z) :=
  [ (some_members (DNSLookupSuccessWithBogonAddresses wa), 0);
    (some_members (DNSLookupUnexpectedFailure wa), 1);
    (some_members (DNSLookupSuccessWithInvalidAddresses wa), 2) ].

Definition flags_of (l : list (bool * Z)) (z : Z) : Z :=
  foldr (λ '(b, k) z, Z.lor (when b (Z.shiftl 1 k)) z) z l.

Lemma testbit_flags_of l z i :
  Forall (λ bk, 0 ≤ bk.2) l →
  Z.testbit (flags_of l z) i = existsb (λ '(b, k), b && (i =? k)) l || Z.testbit z i.
Proof.
  induction 1 as [|[b k] l Hk _ IH]; [done|]. simpl in *.
  by rewrite Z.lor_spec, testbit_when, IH, orb_assoc.
Qed.

(** *** How the flags of the test keys change *)

Lemma flag_blocking_Blocking z tk : lte_BlockingFlags (flag_blocking z tk) = Z.lor z (lte_BlockingFlags tk).
Proof. by destruct tk. Qed.
Lemma flag_blocking_DNS z tk : lte_DNSFlags (flag_blocking z tk) = lte_DNSFlags tk.
Proof. by destruct tk. Qed.
Lemma flag_blocking_Null z tk : lte_NullNullFlags (flag_blocking z tk) = lte_NullNullFlags tk.
Proof. by destruct tk. Qed.
Lemma flag_dns_Blocking z tk : lte_BlockingFlags (flag_dns z tk) = lte_BlockingFlags tk.
Proof. by destruct tk. Qed.
Lemma flag_dns_DNS z tk : lte_DNSFlags (flag_dns z tk) = Z.lor z (lte_DNSFlags tk).
Proof. by destruct tk. Qed.
Lemma flag_dns_Null z tk : lte_NullNullFlags (flag_dns z tk) = lte_NullNullFlags tk.
Proof. by destruct tk. Qed.
Lemma flag_null_Blocking z tk : lte_BlockingFlags (flag_null z tk) = lte_BlockingFlags tk.
Proof. by destruct tk. Qed.
Lemma flag_null_DNS z tk : lte_DNSFlags (flag_null z tk) = lte_DNSFlags tk.
Proof. by destruct tk. Qed.
Lemma flag_null_Null z tk : lte_NullNullFlags (flag_null z tk) = Z.lor z (lte_NullNullFlags tk).
Proof. by destruct tk. Qed.

Create Rewrite HintDb flags.
#[export] Hint Rewrite flag_blocking_Blocking flag_blocking_DNS flag_blocking_Null flag_dns_Blocking flag_dns_DNS
  flag_dns_Null flag_null_Blocking flag_null_DNS flag_null_Null : flags.

(** Rewrite with these equations, then compare the bits. *)
Ltac same_bits :=
  autorewrite with flags; cbn [flags_of foldr when]; apply Z.bits_inj'; intros i _;
  rewrite ?Z.lor_spec, ?Z.testbit_0_l;
  unfold AnalysisBlockingFlagDNSBlocking, AnalysisBlockingFlagTCPIPBlocking, AnalysisBlockingFlagTLSBlocking,
    AnalysisBlockingFlagHTTPBlocking, AnalysisBlockingFlagHTTPDiff, AnalysisBlockingFlagSuccess,
    AnalysisFlagNullNullExpectedDNSLookupFailure, AnalysisFlagNullNullExpectedTCPConnectFailure,
    AnalysisFlagNullNullExpectedTLSHandshakeFailure, AnalysisFlagNullNullSuccessfulHTTPS,
    AnalysisFlagNullNullUnexpectedDNSLookupSuccess, AnalysisFlagDNSBogon,
    AnalysisDNSFlagUnexpectedFailure, AnalysisDNSFlagUnexpectedAddrs;
  btauto.

Section stages.
Implicit Types (wa : WebAnalysis) (tk : TestKeys).

(** The flags after a pass, as a list of conditional bits. *)
Definition flags_step (b d n : list (bool * Z)) (pass : TestKeys → TestKeys) : Prop :=
  ∀ tk, lte_BlockingFlags (pass tk) = flags_of b (lte_BlockingFlags tk) ∧
        lte_DNSFlags (pass tk) = flags_of d (lte_DNSFlags tk) ∧
        lte_NullNullFlags (pass tk) = flags_of n (lte_NullNullFlags tk).

Lemma flags_step_compose b1 d1 n1 b2 d2 n2 pass1 pass2 :
  flags_step b1 d1 n1 pass1 → flags_step b2 d2 n2 pass2 →
  flags_step (b2 ++ b1) (d2 ++ d1) (n2 ++ n1) (λ tk, pass2 (pass1 tk)).
Proof.
  intros H1 H2 tk. destruct (H1 tk) as (Hb & Hd & Hn), (H2 (pass1 tk)) as (-> & -> & ->).
  rewrite Hb, Hd, Hn. unfold flags_of. by rewrite !foldr_app.
Qed.

Definition explained wa (sx : Set_ Z) : bool := explains_redirects wa && some_members sx.

Lemma ExtDNS_flags wa :
  flags_step [(some_members (DNSLookupUnexpectedFailure wa), 0);
              (some_members (DNSLookupSuccessWithInvalidAddresses wa), 0)]
    (raised_dns wa) [] (analysisExtDNS wa).
Proof.
  intros tk. unfold analysisExtDNS, raised_dns.
  destruct (some_members (DNSLookupSuccessWithBogonAddresses wa)),
    (some_members (DNSLookupUnexpectedFailure wa)),
    (some_members (DNSLookupSuccessWithInvalidAddresses wa)); split_and!; same_bits.
Qed.

Lemma ExtEndpointFailure_flags wa :
  flags_step [(some_members (TCPConnectUnexpectedFailure wa), 1);
              (some_members (TLSHandshakeUnexpectedFailure wa), 2);
              (some_members (HTTPRoundTripUnexpectedFailure wa), 3)]
    [] [] (analysisExtEndpointFailure wa).
Proof.
  intros tk. unfold analysisExtEndpointFailure.
  destruct (some_members (TCPConnectUnexpectedFailure wa)),
    (some_members (TLSHandshakeUnexpectedFailure wa)),
    (some_members (HTTPRoundTripUnexpectedFailure wa)); split_and!; same_bits.
Qed.

Lemma ExtRedirectErrors_flags wa :
  flags_step [(explained wa (DNSLookupUnexplainedFailure wa), 0);
              (explained wa (TCPConnectUnexplainedFailure wa), 1);
              (explained wa (TLSHandshakeUnexplainedFailure wa), 2);
              (explained wa (HTTPRoundTripUnexplainedFailure wa), 3)]
    [] [] (analysisExtRedirectErrors wa).
Proof.
  intros tk. unfold analysisExtRedirectErrors, explained.
  destruct (explains_redirects wa); simpl; [|split_and!; same_bits].
  destruct (some_members (DNSLookupUnexplainedFailure wa)),
    (some_members (TCPConnectUnexplainedFailure wa)),
    (some_members (TLSHandshakeUnexplainedFailure wa)),
    (some_members (HTTPRoundTripUnexplainedFailure wa)); split_and!; same_bits.
Qed.

Definition secure_without_control wa : bool :=
  match final_case_of wa with FinalSecure control => negb control | _ => false end.

Lemma ExtHTTPFinalResponse_flags wa :
  flags_step [(compared_different wa, 4); (final_succeeds wa, 5)] [] [(secure_without_control wa, 3)]
    (analysisExtHTTPFinalResponse wa).
Proof.
  intros tk. unfold analysisExtHTTPFinalResponse, compared_different, final_succeeds,
    secure_without_control, final_case_of.
  destruct (IsNone (HTTPFinalResponseSuccessTCPWithoutControl wa)),
    (IsNone (HTTPFinalResponseSuccessTLSWithoutControl wa)),
    (IsNone (HTTPFinalResponseSuccessTLSWithControl wa)),
    (IsNone (HTTPFinalResponseSuccessTCPWithControl wa)), (analysisHTTPDiffAlgorithm _);
    cbn [negb]; split_and!; same_bits.
Qed.

Definition ghost_addresses wa : bool :=
  match wa_ControlExpectations wa with
  | None => false
  | Some expect => (Len (DNSAddresses expect) <=? 0)%nat && some_members (DNSLookupSuccess wa)
  end.

Lemma ExtExpectedFailures_flags wa :
  flags_step [] []
    [(some_members (DNSLookupExpectedFailure wa), 0); (some_members (TCPConnectExpectedFailure wa), 1);
     (some_members (TLSHandshakeExpectedFailure wa), 2); (ghost_addresses wa, 4)]
    (analysisExtExpectedFailures wa).
Proof.
  intros tk. unfold analysisExtExpectedFailures, ghost_addresses.
  destruct (some_members (DNSLookupExpectedFailure wa)), (some_members (TCPConnectExpectedFailure wa)),
    (some_members (TLSHandshakeExpectedFailure wa)); destruct (wa_ControlExpectations wa);
    try destruct (_ && _); split_and!; same_bits.
Qed.
End stages.

(** ** What the flags mean *)

(** The control fetched the page, the probe has no final response. *)
Definition page_missing (wa : WebAnalysis) : Prop :=
  HTTPFinalResponseSuccessTCPWithoutControl wa = None ∧ HTTPFinalResponseSuccessTLSWithoutControl wa = None ∧
  HTTPFinalResponseSuccessTLSWithControl wa = None ∧ HTTPFinalResponseSuccessTCPWithControl wa = None ∧
  ∃ expect, wa_ControlExpectations wa = Some expect ∧ FinalResponseFailure expect = Some "".

Lemma page_missing_spec wa : explains_redirects wa = true ↔ page_missing wa.
Proof.
  unfold explains_redirects, page_missing.
  destruct (HTTPFinalResponseSuccessTCPWithoutControl wa), (HTTPFinalResponseSuccessTLSWithoutControl wa),
    (HTTPFinalResponseSuccessTLSWithControl wa), (HTTPFinalResponseSuccessTCPWithControl wa); simpl;
    try (split; [done|intros (? & ? & ? & ? & _); done]).
  destruct (wa_ControlExpectations wa) as [expect|]; [|split; [done|naive_solver]].
  destruct (FinalResponseFailure expect) as [f|] eqn:Ef; [|split; [done|naive_solver]].
  rewrite negb_true_iff, nonempty_false. split; [intros ->; eauto 10|].
  intros (_ & _ & _ & _ & ? & [= <-] & Hf). congruence.
Qed.

(** Why a bit of [x_blocking_flags] is set. *)
Inductive blocking_evidence (wa : WebAnalysis) : Z → Prop :=
  | ev_dns_failure : has_member (DNSLookupUnexpectedFailure wa) → blocking_evidence wa 0
  | ev_dns_addrs : has_member (DNSLookupSuccessWithInvalidAddresses wa) → blocking_evidence wa 0
  | ev_tcp : has_member (TCPConnectUnexpectedFailure wa) → blocking_evidence wa 1
  | ev_tls : has_member (TLSHandshakeUnexpectedFailure wa) → blocking_evidence wa 2
  | ev_http : has_member (HTTPRoundTripUnexpectedFailure wa) → blocking_evidence wa 3
  | ev_missing bit sx : page_missing wa → has_member sx →
      (bit, sx) ∈ [(0, DNSLookupUnexplainedFailure wa); (1, TCPConnectUnexplainedFailure wa);
                   (2, TLSHandshakeUnexplainedFailure wa); (3, HTTPRoundTripUnexplainedFailure wa)] →
      blocking_evidence wa bit
  | ev_diff : compared_different wa = true → blocking_evidence wa 4
  | ev_success : final_succeeds wa = true → blocking_evidence wa 5.

Lemma ext_flags_all wa :
  flags_step
    ((([(compared_different wa, 4); (final_succeeds wa, 5)] ++
       [(explained wa (DNSLookupUnexplainedFailure wa), 0);
        (explained wa (TCPConnectUnexplainedFailure wa), 1);
        (explained wa (TLSHandshakeUnexplainedFailure wa), 2);
        (explained wa (HTTPRoundTripUnexplainedFailure wa), 3)]) ++
      [(some_members (TCPConnectUnexpectedFailure wa), 1);
       (some_members (TLSHandshakeUnexpectedFailure wa), 2);
       (some_members (HTTPRoundTripUnexpectedFailure wa), 3)]) ++
     [(some_members (DNSLookupUnexpectedFailure wa), 0);
      (some_members (DNSLookupSuccessWithInvalidAddresses wa), 0)])
    (raised_dns wa)
    ([(some_members (DNSLookupExpectedFailure wa), 0); (some_members (TCPConnectExpectedFailure wa), 1);
      (some_members (TLSHandshakeExpectedFailure wa), 2); (ghost_addresses wa, 4)] ++
     [(secure_without_control wa, 3)]) (ext_flags wa).
Proof.
  intros tk. unfold ext_flags.
  pose proof (flags_step_compose _ _ _ _ _ _ _ _ (ExtDNS_flags wa) (ExtEndpointFailure_flags wa)) as H1.
  pose proof (flags_step_compose _ _ _ _ _ _ _ _ H1 (ExtRedirectErrors_flags wa)) as H2.
  pose proof (flags_step_compose _ _ _ _ _ _ _ _ H2 (ExtHTTPFinalResponse_flags wa)) as H3.
  pose proof (flags_step_compose _ _ _ _ _ _ _ _ H3 (ExtExpectedFailures_flags wa)) as H4.
  exact (H4 tk).
Qed.

Lemma explained_spec wa sx : explained wa sx = true ↔ page_missing wa ∧ has_member sx.
Proof. unfold explained. by rewrite andb_true_iff, page_missing_spec, some_members_spec. Qed.

(** The conditional bits that are set. *)
Lemma flags_of_bits l i :
  Forall (λ bk, 0 ≤ bk.2) l →
  Z.testbit (flags_of l 0) i = true ↔ (true, i) ∈ l.
Proof.
  intros Hl. rewrite testbit_flags_of, Z.testbit_0_l, orb_false_r by done.
  rewrite existsb_exists. setoid_rewrite <-list_elem_of_In. split.
  - intros ([b k] & Hin & [-> ->%Z.eqb_eq]%andb_prop). done.
  - intros Hin. exists (true, i). split; [done|]. by rewrite Z.eqb_refl.
Qed.

(** Why a bit of [x_dns_flags] is set. *)
Inductive dns_evidence (wa : WebAnalysis) : Z → Prop :=
  | ev_bogons : has_member (DNSLookupSuccessWithBogonAddresses wa) → dns_evidence wa 0
  | ev_unexpected : has_member (DNSLookupUnexpectedFailure wa) → dns_evidence wa 1
  | ev_addrs : has_member (DNSLookupSuccessWithInvalidAddresses wa) → dns_evidence wa 2.

(** Why a bit of [x_null_null_flags] is set: the probe and the control fail alike,
    the page came over HTTPS without any result of the control, or the probe
    resolved a domain for which the control found no address. *)
Inductive null_evidence (wa : WebAnalysis) : Z → Prop :=
  | ev_dns_alike : has_member (DNSLookupExpectedFailure wa) → null_evidence wa 0
  | ev_tcp_alike : has_member (TCPConnectExpectedFailure wa) → null_evidence wa 1
  | ev_tls_alike : has_member (TLSHandshakeExpectedFailure wa) → null_evidence wa 2
  | ev_secure : final_case_of wa = FinalSecure false → null_evidence wa 3
  | ev_ghost : has_member (DNSLookupSuccess wa) → control_empty wa → null_evidence wa 4.

Lemma secure_without_control_spec wa : secure_without_control wa = true ↔ final_case_of wa = FinalSecure false.
Proof. unfold secure_without_control. destruct (final_case_of wa) as [| |[]|]; simpl; naive_solver. Qed.

Lemma ghost_addresses_spec wa : ghost_addresses wa = true ↔ has_member (DNSLookupSuccess wa) ∧ control_empty wa.
Proof.
  unfold ghost_addresses. rewrite <-control_empty_spec, <-some_members_spec.
  destruct (wa_ControlExpectations wa); [rewrite andb_true_iff|]; naive_solver.
Qed.

Lemma blocking_bits wa bit :
  Z.testbit (lte_BlockingFlags (ext_flags wa NewTestKeys)) bit = true ↔ blocking_evidence wa bit.
Proof.
  destruct (ext_flags_all wa NewTestKeys) as (-> & _ & _). change (lte_BlockingFlags NewTestKeys) with 0.
  rewrite flags_of_bits by (repeat constructor; done). split.
  - simpl. rewrite !elem_of_cons.
    intros [E|[E|[E|[E|[E|[E|[E|[E|[E|[E|[E|E]]]]]]]]]]]; try (by apply not_elem_of_nil in E);
      injection E as E ->; symmetry in E;
      first [by apply ev_diff|by apply ev_success|
        apply explained_spec in E as [? ?]; eapply ev_missing; [done|done|set_solver]|
        apply some_members_spec in E; by constructor].
  - destruct 1 as [E|E|E|E|E|? ? E Hm Hin|E|E]; try apply some_members_spec in E.
    6: { rewrite !elem_of_cons in Hin.
         destruct Hin as [[= -> ->]|[[= -> ->]|[[= -> ->]|[[= -> ->]|Hin]]]];
           [..|by apply not_elem_of_nil in Hin];
           rewrite <-(proj2 (explained_spec wa _) (conj E Hm)); set_solver. }
    all: rewrite <-E; set_solver.
Qed.

Lemma dns_bits wa bit : Z.testbit (lte_DNSFlags (ext_flags wa NewTestKeys)) bit = true ↔ dns_evidence wa bit.
Proof.
  destruct (ext_flags_all wa NewTestKeys) as (_ & -> & _). change (lte_DNSFlags NewTestKeys) with 0.
  rewrite flags_of_bits by (repeat constructor; done). unfold raised_dns. split.
  - rewrite !elem_of_cons. intros [E|[E|[E|E]]]; [..|by apply not_elem_of_nil in E];
      injection E as E ->; symmetry in E; apply some_members_spec in E; by constructor.
  - destruct 1 as [E|E|E]; apply some_members_spec in E; rewrite <-E; set_solver.
Qed.

Lemma null_bits wa bit :
  Z.testbit (lte_NullNullFlags (ext_flags wa NewTestKeys)) bit = true ↔ null_evidence wa bit.
Proof.
  destruct (ext_flags_all wa NewTestKeys) as (_ & _ & ->). change (lte_NullNullFlags NewTestKeys) with 0.
  rewrite flags_of_bits by (repeat constructor; done). split.
  - simpl. rewrite !elem_of_cons. intros [E|[E|[E|[E|[E|E]]]]]; [..|by apply not_elem_of_nil in E];
      injection E as E ->; symmetry in E;
      first [apply ghost_addresses_spec in E as [? ?]; by apply ev_ghost
            |apply secure_without_control_spec in E; by apply ev_secure
            |apply some_members_spec in E; by constructor].
  - destruct 1 as [E|E|E|E|E E']; try apply some_members_spec in E.
    4: apply secure_without_control_spec in E.
    5: pose proof (proj2 (ghost_addresses_spec wa) (conj (proj1 (some_members_spec _) E) E')) as G; rewrite <-G.
    1-4: rewrite <-E.
    all: set_solver.
Qed.

(** C36: on fresh test keys, the extended analysis sets exactly the flags for which
    there is evidence, bit by bit, of each of the three words: the blocking
    flags, the DNS flags and the flags of a measurement without a verdict;
    every other bit is zero, and a page cannot both differ from the control's
    and be a success. *)
Theorem ext_flags_spec `{RangeOrder} `{UnicodeTables} lookupper c wa
    (Hwa : AnalyzeWebObservationsWithoutLinearAnalysis lookupper c = Ok wa) :
  ∃ tk, analysisExtMain lookupper c NewTestKeys = Ok tk ∧
    (∀ bit, Z.testbit (lte_BlockingFlags tk) bit = true ↔ blocking_evidence wa bit) ∧
    ¬ (blocking_evidence wa 4 ∧ blocking_evidence wa 5) ∧
    (∀ bit, Z.testbit (lte_DNSFlags tk) bit = true ↔ dns_evidence wa bit) ∧
    (∀ bit, Z.testbit (lte_NullNullFlags tk) bit = true ↔ null_evidence wa bit).
Proof.
  unfold analysisExtMain. rewrite Hwa. eexists; split; [done|].
  split_and!; [apply blocking_bits| |apply dns_bits|apply null_bits].
  intros [H4 H5]. inversion H4 as [| | | | |? ? _ _ Hin| |]; [set_solver|]; subst.
  inversion H5 as [| | | | |? ? _ _ Hin| |]; [set_solver|].
  unfold compared_different, final_succeeds in *. destruct (final_case_of wa); try done.
  by destruct (analysisHTTPDiffAlgorithm _).
Qed.

Lemma ext_flags_spec_witness :
  ∃ tk, @analysisExtMain range_ascending ascii_only_tables sample_asn sample_container NewTestKeys = Ok tk ∧
    (∀ bit, Z.testbit (lte_BlockingFlags tk) bit = true ↔ blocking_evidence sample_wa bit) ∧
    lte_BlockingFlags tk = 35.
Proof.
  destruct (@ext_flags_spec range_ascending ascii_only_tables sample_asn _ _ sample_analysis_ok)
    as (tk & Htk & Hbits & _).
  exists tk. split_and!; [exact Htk|exact Hbits|].
  assert (Hc : lte_BlockingFlags <$> @analysisExtMain range_ascending ascii_only_tables sample_asn
    sample_container NewTestKeys = Ok 35) by by vm_compute.
  rewrite Htk in Hc. by injection Hc.
Defined.
