(* ===== verification/LteFinalize.v ===== *)
(** * Web Connectivity LTE: the engine runs to completion

    [Finalize] on the test keys that the tasks of a measurement leave. *)
From S2P Require Import Prelude Failures GoSort GoString GoFloat GoNet GoURL Archival Bogon PipeSet.
From S2P Require Import Observation Samples ObservationFacts Analysis AnalysisFacts AnalysisTotal.
From S2P Require Import PipeSorting LteTestKeys LteClassic LteExt LteBlame.

(** The part of the test keys that the minipipeline reads. *)
Definition as_measurement (tk : TestKeys) : WebMeasurementTestKeys := {|
  tk_Control := lte_Control tk; tk_NetworkEvents := Some <$> lte_NetworkEvents tk; tk_Queries := Some <$> lte_Queries tk;
  tk_Requests := Some <$> lte_Requests tk; tk_TCPConnect := Some <$> lte_TCPConnect tk;
  tk_TLSHandshakes := Some <$> lte_TLSHandshakes tk; tk_QUICHandshakes := [];
  tk_XControlRequest := lte_ControlRequest tk;
|}.

Lemma as_measurement_entries tk :
  entries (tk_Queries (as_measurement tk)) = lte_Queries tk ∧ entries (tk_Requests (as_measurement tk)) = lte_Requests tk ∧
  entries (tk_TCPConnect (as_measurement tk)) = lte_TCPConnect tk ∧
  entries (tk_TLSHandshakes (as_measurement tk)) = lte_TLSHandshakes tk.
Proof. split_and!; apply entries_Some. Qed.

(** ** Pages and handshakes *)

(** A page is only fetched on a connection whose handshake succeeded. *)
Definition pages_after_handshakes (tk : TestKeys) : Prop :=
  ∀ hs r, hs ∈ lte_TLSHandshakes tk → r ∈ lte_Requests tk →
    tls_TransactionID hs = http_TransactionID r → http_Failure r = None →
    utilsStringPointerToString (tls_Failure hs) = "".

Section provenance.
Context `{RangeOrder} `{UnicodeTables}.
Implicit Types (c : WebObservationsContainer) (obs : WebObservation).

Definition each_endpoint (P : Z → WebObservation → Prop) c : Prop :=
  ∀ txid obs, KnownTCPEndpoints c !! txid = Some obs → P txid obs.

Lemma each_endpoint_insert (P : Z → WebObservation → Prop) c txid obs :
  each_endpoint P c → P txid obs → each_endpoint P (c <| KnownTCPEndpoints ::= <[txid := obs]> |>).
Proof.
  intros Hc Ho k o. cbn. rewrite lookup_insert_Some. intros [[<- <-]|[_ Hk]]; [done|by apply Hc].
Qed.

(** Where the failure of a handshake and a final response come from. *)
Definition handshake_of (evs : list ArchivalTLSOrQUICHandshakeResult) (txid : Z) obs : Prop :=
  TLSHandshakeFailure obs = None ∨
  ∃ hs, hs ∈ evs ∧ tls_TransactionID hs = txid ∧
    TLSHandshakeFailure obs = Some (utilsStringPointerToString (tls_Failure hs)).

Definition page_of (evs : list ArchivalHTTPRequestResult) (txid : Z) obs : Prop :=
  is_final obs → ∃ r, r ∈ evs ∧ http_TransactionID r = txid ∧ http_Failure r = None.

Definition no_page obs : Prop := HTTPResponseIsFinal obs = None.

Lemma IngestTCPConnectEvents_provenance lookupper c evs :
  each_endpoint (λ _ obs, TLSHandshakeFailure obs = None ∧ no_page obs) c →
  each_endpoint (λ _ obs, TLSHandshakeFailure obs = None ∧ no_page obs) (IngestTCPConnectEvents lookupper c evs).
Proof.
  intros Hc. apply (foldl_inv _ (each_endpoint _)); [done|]. intros c' ev _ Hc'.
  by apply each_endpoint_insert.
Qed.

Lemma IngestTLSHandshakeEvents_provenance c evs :
  each_endpoint (λ _ obs, TLSHandshakeFailure obs = None ∧ no_page obs) c →
  each_endpoint (λ txid obs, handshake_of evs txid obs ∧ no_page obs) (IngestTLSHandshakeEvents c evs).
Proof.
  intros Hc. apply (foldl_inv _ (each_endpoint _)).
  - intros k o Ho. destruct (Hc k o Ho). split; [by left|done].
  - intros c' ev Hev Hc'. destruct (KnownTCPEndpoints c' !! _) as [obs|] eqn:E; [|done].
    apply each_endpoint_insert; [done|]. destruct (Hc' _ _ E) as [_ Hp]. split; [|done].
    right. exists ev. by split_and!.
Qed.

Lemma IngestHTTPRoundTripEvents_provenance hss c evs :
  each_endpoint (λ txid obs, handshake_of hss txid obs ∧ no_page obs) c →
  each_endpoint (λ txid obs, handshake_of hss txid obs ∧ page_of evs txid obs)
    (IngestHTTPRoundTripEvents c evs).
Proof.
  intros Hc. apply (foldl_inv _ (each_endpoint _)).
  - intros k o Ho. destruct (Hc k o Ho) as [Hh Hp]. split; [done|]. intros Hf.
    unfold is_final, no_page in *. congruence.
  - intros c' ev Hev Hc'. destruct (KnownTCPEndpoints c' !! _) as [obs|] eqn:E; [|done].
    apply each_endpoint_insert; [done|]. destruct (Hc' _ _ E) as [Hh Hp].
    destruct (http_Failure ev) as [failure|] eqn:Ef; split; try done. intros _. eauto.
Qed.

Lemma NoEndpoint_provenance : each_endpoint (λ _ obs, TLSHandshakeFailure obs = None ∧ no_page obs)
  NewWebObservationsContainer.
Proof. intros k o Ho. cbn in Ho. by rewrite lookup_empty in Ho. Qed.

Lemma each_endpoint_same P c c' : KnownTCPEndpoints c' = KnownTCPEndpoints c →
  each_endpoint P c → each_endpoint P c'.
Proof. intros E Hc k o. rewrite E. apply Hc. Qed.

Lemma IngestDNSLookupEvents_endpoints lookupper c evs :
  KnownTCPEndpoints (IngestDNSLookupEvents lookupper c evs) = KnownTCPEndpoints c.
Proof.
  unfold IngestDNSLookupEvents, ingestDNSLookupSuccesses, ingestDNSLookupFailures.
  apply (foldl_inv _ (λ c', KnownTCPEndpoints c' = KnownTCPEndpoints c)).
  - apply (foldl_inv _ (λ c', KnownTCPEndpoints c' = KnownTCPEndpoints c)); [done|].
    intros c' ev _ <-. by destruct (dns_Failure ev).
  - intros c' ev _ <-. destruct (dns_Failure ev); [done|].
    apply (foldl_inv _ (λ c'', KnownTCPEndpoints c'' = KnownTCPEndpoints c')); [done|].
    intros c'' addr _ <-. unfold ingest_address. destruct c'' as [? ? ? ? known]. cbn. by destruct (known !! addr).
Qed.

Lemma probe_container_provenance lookupper tk :
  each_endpoint (λ txid obs, handshake_of (entries (tk_TLSHandshakes tk)) txid obs ∧ page_of (entries (tk_Requests tk)) txid obs)
    (probe_container lookupper tk).
Proof.
  apply IngestHTTPRoundTripEvents_provenance, IngestTLSHandshakeEvents_provenance,
    IngestTCPConnectEvents_provenance.
  eapply each_endpoint_same; [apply IngestDNSLookupEvents_endpoints|apply NoEndpoint_provenance].
Qed.

(** The control does not change these fields. *)
Lemma erase_endpoint c c' txid obs :
  erase_container c = erase_container c' → KnownTCPEndpoints c !! txid = Some obs →
  ∃ obs', KnownTCPEndpoints c' !! txid = Some obs' ∧ erase_control obs = erase_control obs'.
Proof.
  intros He Hobs. assert (E : (erase_control <$> KnownTCPEndpoints c) !! txid =
    (erase_control <$> KnownTCPEndpoints c') !! txid)
    by exact (f_equal (λ c, KnownTCPEndpoints c !! txid) He).
  rewrite !lookup_fmap, Hobs in E. simpl in E. destruct (KnownTCPEndpoints c' !! txid) as [obs'|]; [|done].
  exists obs'. split; [done|]. by apply (inj Some) in E.
Qed.

Lemma erase_fields obs obs' : erase_control obs = erase_control obs' →
  TLSHandshakeFailure obs = TLSHandshakeFailure obs' ∧ HTTPResponseIsFinal obs = HTTPResponseIsFinal obs'.
Proof.
  intros E. split; [exact (f_equal TLSHandshakeFailure E)|exact (f_equal HTTPResponseIsFinal E)].
Qed.

Lemma observations_final_after_tls lookupper tk c :
  pages_after_handshakes tk →
  erase_container c = erase_container (probe_container lookupper (as_measurement tk)) →
  final_after_tls c.
Proof.
  intros Htk He txid obs Hobs Hfin _. destruct (erase_endpoint _ _ _ _ He Hobs) as (obs' & Hobs' & E).
  apply erase_fields in E as [-> E]. unfold is_final in Hfin. rewrite E in Hfin.
  destruct (probe_container_provenance lookupper (as_measurement tk) _ _ Hobs') as [Hh Hp].
  destruct (as_measurement_entries tk) as (_ & Er & _ & Eh). rewrite Eh in Hh. rewrite Er in Hp.
  destruct (Hp Hfin) as (r & Hr & Hrtx & Hrf). destruct Hh as [?|(hs & Hhs & Htx & ->)]; [by left|right].
  f_equal. apply (Htk hs r); try done. congruence.
Qed.

(** ** The observations *)

(** The control request was made from a URL. *)
Definition control_url_parses (tk : TestKeys) : Prop :=
  ∀ req, lte_ControlRequest tk = Some req → is_Some (url_Parse (thr_HTTPRequest req)).

Lemma lte_observations_ok lookupper tk :
  control_url_parses tk →
  ∃ c, lte_observations lookupper tk = Ok c ∧ container_wf c ∧
    erase_container c = erase_container (probe_container lookupper (as_measurement tk)).
Proof.
  intros Hurl. unfold lte_observations.
  replace (IngestHTTPRoundTripEvents _ _) with (probe_container lookupper (as_measurement tk))
    by (unfold probe_container; by destruct (as_measurement_entries tk) as (-> & -> & -> & ->)).
  pose proof (probe_container_wf lookupper (as_measurement tk)) as Hc.
  destruct (lte_ControlRequest tk) as [req|] eqn:Hreq, (lte_Control tk) as [resp|]; eauto.
  destruct (IngestControlMessages_ok req resp _ Hc) as ([c|err] & -> & Hr); simpl; [by eauto|].
  destruct (Hurl req Hreq). congruence.
Qed.
End provenance.

(** ** The analysis of the classic observations *)

Lemma known_exists successes : Forall success_wf successes → ∃ known, known_wf successes known.
Proof.
  induction successes as [|obs successes IH] using rev_ind; intros Hs; [by exists ∅|].
  apply Forall_app in Hs as [Hs Hobs]. destruct (IH Hs) as [known Hk]. apply Forall_cons in Hobs as [Hobs _].
  destruct Hobs as [_ _ (? & addr & _ & Ha & _)]. eexists. by eapply known_wf_snoc.
Qed.

(** The analysis does not read [knownIPAddresses]. *)
Lemma analysis_forgets_known `{RangeOrder} `{UnicodeTables} lookupper c known :
  AnalyzeWebObservationsWithoutLinearAnalysis lookupper c =
  AnalyzeWebObservationsWithoutLinearAnalysis lookupper (c <| knownIPAddresses := known |>).
Proof. by destruct c. Qed.

Lemma analysis_returns `{RangeOrder} `{UnicodeTables} lookupper c :
  Forall dns_wf (DNSLookupFailures c) → Forall success_wf (DNSLookupSuccesses c) →
  (∀ txid obs, KnownTCPEndpoints c !! txid = Some obs → endpoint_wf txid obs) → final_after_tls c →
  is_Ok (AnalyzeWebObservationsWithoutLinearAnalysis lookupper c).
Proof.
  intros Hf Hs He Hfin. destruct (known_exists _ Hs) as [known Hk].
  rewrite (analysis_forgets_known _ _ known), analysis_metrics by (destruct c; by split).
  unfold httpComputeFinalResponseMetrics. apply first_final_ok.
  intros obs [k Ho]%range_map_values. destruct c. by eapply Hfin.
Qed.

Lemma Forall_getaddrinfo P l : Forall P l → Forall P (getaddrinfo_only l).
Proof. rewrite !Forall_forall. intros Hl obs [_ ?]%getaddrinfo_only_elem. auto. Qed.

Lemma classic_returns `{RangeOrder} `{UnicodeTables} `{StableSort} lookupper c :
  container_wf c → final_after_tls c →
  ∃ classic woa, ClassicFilter c = Ok classic ∧ classic_result c classic ∧
    AnalyzeWebObservationsWithLinearAnalysis lookupper classic = Ok woa ∧
    Linear woa = NewLinearWebAnalysis classic.
Proof.
  intros Hc Hfin. destruct (ClassicFilter_result c (classic_wf_container _ Hc)) as (classic & Hcl & Hr).
  pose proof Hr as (Hf & Hs & He & _). destruct Hc as [Wf Ws We _].
  destruct (analysis_returns lookupper classic) as [wa Hwa].
  - rewrite Hf. by apply Forall_getaddrinfo.
  - rewrite Hs. by apply Forall_getaddrinfo.
  - intros txid obs [Ho _]%He. by apply We.
  - intros txid obs [Ho _]%He. by eapply Hfin.
  - eexists _, _. unfold AnalyzeWebObservationsWithLinearAnalysis. rewrite Hwa. by split_and!.
Qed.

(** ** Finalize *)

(** The measurement data: every field that the analysis has no business with. *)
Definition data (tk : TestKeys) : TestKeys :=
  tk <| lte_NetworkEvents := [] |> <| lte_DNSFlags := 0 |> <| lte_BlockingFlags := 0 |>
     <| lte_NullNullFlags := 0 |> <| lte_DNSExperimentFailure := None |> <| lte_DNSConsistency := None |>
     <| lte_HTTPExperimentFailure := None |> <| lte_BodyProportion := float64_zero |>
     <| lte_BodyLengthMatch := None |> <| lte_HeadersMatch := None |> <| lte_StatusCodeMatch := None |>
     <| lte_TitleMatch := None |> <| lte_Blocking := BlockingNil |> <| lte_Accessible := None |>.

(** The parts of the state that the classic loop starts from. *)
Definition started (tk : TestKeys) : TestKeys * list ArchivalNetworkEvent * blocking * option bool :=
  (data tk, lte_NetworkEvents tk, lte_Blocking tk, lte_Accessible tk).

Lemma ext_flags_started wa tk : started (ext_flags wa tk) = started tk.
Proof.
  assert (Hb : ∀ f tk, started (flag_blocking f tk) = started tk) by by intros f [].
  assert (Hd : ∀ f tk, started (flag_dns f tk) = started tk) by by intros f [].
  assert (Hn : ∀ f tk, started (flag_null f tk) = started tk) by by intros f [].
  assert (H1 : ∀ tk, started (analysisExtDNS wa tk) = started tk)
    by (intros; unfold analysisExtDNS; repeat case_match; by rewrite ?Hb, ?Hd, ?Hb, ?Hd, ?Hb).
  assert (H2 : ∀ tk, started (analysisExtEndpointFailure wa tk) = started tk)
    by (intros; unfold analysisExtEndpointFailure; repeat case_match; by rewrite ?Hb).
  assert (H3 : ∀ tk, started (analysisExtRedirectErrors wa tk) = started tk)
    by (intros; unfold analysisExtRedirectErrors; repeat case_match; by rewrite ?Hb).
  assert (H4 : ∀ tk, started (analysisExtHTTPFinalResponse wa tk) = started tk)
    by (intros; unfold analysisExtHTTPFinalResponse; repeat case_match; by rewrite ?Hb, ?Hn).
  assert (H5 : ∀ tk, started (analysisExtExpectedFailures wa tk) = started tk)
    by (intros; unfold analysisExtExpectedFailures; repeat case_match; by rewrite ?Hn).
  unfold ext_flags. by rewrite H5, H4, H3, H2, H1.
Qed.

Lemma classic_results_started `{RangeOrder} woa tk :
  lte_Blocking tk = BlockingNil → lte_Accessible tk = None →
  let tk' := classic_results woa tk in
  data tk' = data tk ∧ lte_NetworkEvents tk' = lte_NetworkEvents tk ∧
  allowed (lte_Blocking tk') (lte_Accessible tk') ∧
  lte_DNSConsistency tk' = analysisClassicDNSConsistency woa.
Proof.
  intros Hb Ha. unfold classic_results, analysisClassicComputeBlockingAccessible.
  set (tk1 := setHTTPDiffValues woa _).
  assert (H1 : data tk1 = data tk ∧ lte_NetworkEvents tk1 = lte_NetworkEvents tk ∧
    lte_Blocking tk1 = BlockingNil ∧ lte_Accessible tk1 = None ∧
    lte_DNSConsistency tk1 = analysisClassicDNSConsistency woa).
  { subst tk1. unfold setHTTPDiffValues, setDNSExperimentFailure. destruct tk; cbn in Hb, Ha; subst.
    destruct (DNSExperimentFailure woa) as [f|]; [destruct (nonempty f)|]; done. }
  clearbody tk1. destruct H1 as (<- & <- & Hb1 & Ha1 & <-).
  destruct (loop_decision (Linear woa) tk1) as [[-> _]|(? & obs & ? & d & f & _ & _ & Hd & _ & ->)].
  { split_and!; try done. rewrite Hb1, Ha1. constructor. }
  assert (Hreason : ∀ reason, d = Blocked reason → reason ∈ ["dns"; "tcp_ip"; "http-failure"; "http-diff"]).
  { intros reason ->. apply decide_blames in Hd. by eapply blames_reason. }
  clear Hd. destruct tk1, d; unfold apply_decision, tk_setBlockingNil, tk_setBlockingFalse, tk_setWebsiteDown,
    tk_setBlockingString; try destruct (dns_inconsistent _); (split_and!; [done|done|constructor; set_solver|done]).
Qed.

#[export] Instance event_less_swo : StrictWeakOrder (by_key (λ e, float64_key (net_T e)) key_lt).
Proof. apply _. Qed.

Lemma Finalize_returns `{RangeOrder} `{UnicodeTables} `{StableSort} lookupper tk
    (Hurl : control_url_parses tk) (Hpages : pages_after_handshakes tk)
    (Hfresh : lte_Blocking tk = BlockingNil ∧ lte_Accessible tk = None)
    (Htimes : numbers net_T (lte_NetworkEvents tk)) :
  ∃ tk', Finalize lookupper tk = Ok tk' ∧ data tk' = data tk ∧
    stable_sort_of (by_key (λ e, float64_key (net_T e)) key_lt) (lte_NetworkEvents tk) (lte_NetworkEvents tk') ∧
    allowed (lte_Blocking tk') (lte_Accessible tk').
Proof.
  destruct (lte_observations_ok lookupper tk Hurl) as (c & Hc & Hwf & He).
  pose proof (observations_final_after_tls lookupper tk c Hpages He) as Hfin.
  destruct (analysis_returns lookupper c) as [wa Hwa]; [apply Hwf|apply Hwf|apply Hwf|done|].
  destruct (classic_returns lookupper c Hwf Hfin) as (classic & woa & Hcl & _ & Hwoa & _).
  pose proof (ext_flags_started wa tk) as Hst. destruct Hfresh as [Hfb Hfa].
  assert (Hd : data (ext_flags wa tk) = data tk) by exact (f_equal (λ x, x.1.1.1) Hst).
  assert (Hn : lte_NetworkEvents (ext_flags wa tk) = lte_NetworkEvents tk) by exact (f_equal (λ x, x.1.1.2) Hst).
  assert (Hb : lte_Blocking (ext_flags wa tk) = lte_Blocking tk) by exact (f_equal (λ x, x.1.2) Hst).
  assert (Ha : lte_Accessible (ext_flags wa tk) = lte_Accessible tk) by exact (f_equal snd Hst).
  destruct (classic_results_started woa (ext_flags wa tk)) as (Hd' & Hn' & Hall & _); [congruence..|].
  unfold Finalize, analysisToplevel, analysisEngineClassic, analysisClassic, analysisExtMain.
  rewrite Hc. cbn [mbind outcome_bind]. rewrite Hwa. cbn [mbind outcome_bind]. rewrite Hcl.
  cbn [mbind outcome_bind]. rewrite Hwoa. cbn [mbind outcome_bind].
  eexists; split; [done|]. rewrite <-Hd, <-Hd', <-Hn, <-Hn'. split_and!.
  - by destruct (classic_results woa (ext_flags wa tk)).
  - change (lte_NetworkEvents _) with (SliceStable event_less (lte_NetworkEvents (classic_results woa (ext_flags wa tk)))) at 2.
    rewrite (SliceStable_ext event_less (by_key (λ e, float64_key (net_T e)) key_lt)).
    + apply SliceStable_sorts, _.
    + rewrite Hn', Hn. intros x y Hx Hy. apply float64_lt_key; by apply Htimes.
  - done.
Qed.

(** C3: [Finalize] does not panic when the control request is a URL and pages
    were only fetched on connections whose handshake succeeded.  It leaves the
    data alone, except that the network events are sorted by time (stably) when
    the times are numbers, and its verdict is one of the allowed ones. *)
Theorem Finalize_total `{RangeOrder} `{UnicodeTables} `{StableSort} lookupper tk
    (Hurl : control_url_parses tk) (Hpages : pages_after_handshakes tk)
    (Hfresh : lte_Blocking tk = BlockingNil ∧ lte_Accessible tk = None)
    (Htimes : numbers net_T (lte_NetworkEvents tk)) :
  ∃ tk', Finalize lookupper tk = Ok tk' ∧ data tk' = data tk ∧
    stable_sort_of (by_key (λ e, float64_key (net_T e)) key_lt) (lte_NetworkEvents tk) (lte_NetworkEvents tk') ∧
    allowed (lte_Blocking tk') (lte_Accessible tk').
Proof. by apply Finalize_returns. Qed.

(** *** The sample *)

Definition sample_event (t : Z) : ArchivalNetworkEvent :=
  {| net_Address := "93.184.216.34:443"; net_Failure := None; net_NumBytes := 0; net_Operation := "read";
     net_Proto := "tcp"; net_T0 := float64_zero; net_T := float64_of_int t; net_TransactionID := 5;
     net_Tags := [] |}.

Definition sample_lte : TestKeys :=
  NewTestKeys <| lte_NetworkEvents := [sample_event 2; sample_event 1] |>
    <| lte_Queries := entries (tk_Queries sample_test_keys) |> <| lte_Requests := entries (tk_Requests sample_test_keys) |>
    <| lte_TCPConnect := entries (tk_TCPConnect sample_test_keys) |>
    <| lte_TLSHandshakes := entries (tk_TLSHandshakes sample_test_keys) |>
    <| lte_ControlRequest := Some sample_th_request |> <| lte_Control := Some sample_th_response |>.

Lemma sample_lte_pages : pages_after_handshakes sample_lte.
Proof. intros hs r Hhs _ _ _. cbn in Hhs. apply list_elem_of_singleton in Hhs as ->. done. Qed.

Lemma sample_lte_times : numbers net_T (lte_NetworkEvents sample_lte).
Proof.
  intros e He. cbn in He. apply elem_of_cons in He as [->|He]; [done|].
  by apply list_elem_of_singleton in He as ->.
Qed.

Lemma sample_lte_url : control_url_parses sample_lte.
Proof. intros req [= <-]. vm_compute. by eexists. Qed.

Lemma sample_verdict tk' :
  @Finalize range_descending ascii_only_tables go_insertion_sort sample_asn sample_lte = Ok tk' →
  lte_Blocking tk' = BlockingFalse ∧ lte_Accessible tk' = Some true.
Proof.
  assert (Hc : (λ tk, (lte_Blocking tk, lte_Accessible tk)) <$>
    @Finalize range_descending ascii_only_tables go_insertion_sort sample_asn sample_lte =
    Ok (BlockingFalse, Some true)) by by vm_compute.
  destruct (Finalize _ _) as [tk|why]; [|discriminate Hc]. intros Htk.
  apply (f_equal (value_or NewTestKeys)) in Htk. cbn [value_or] in Htk. subst tk'.
  injection Hc as Hb Ha. by split.
Qed.

Lemma Finalize_total_witness :
  ∃ tk', @Finalize range_descending ascii_only_tables go_insertion_sort sample_asn sample_lte = Ok tk' ∧
    data tk' = data sample_lte ∧ lte_Blocking tk' = BlockingFalse ∧ lte_Accessible tk' = Some true.
Proof.
  destruct (@Finalize_total range_descending ascii_only_tables go_insertion_sort sample_asn sample_lte
    sample_lte_url sample_lte_pages (conj eq_refl eq_refl) sample_lte_times) as (tk' & Htk & Hd & _).
  exists tk'. split; [exact Htk|]. split; [exact Hd|]. exact (sample_verdict tk' Htk).
Defined.
