(* ===== verification/LteRecording.v ===== *)
(** * Web Connectivity LTE: what concurrent tasks record

    The tasks of a measurement run in goroutines that share the test keys.
    Every method locks the mutex, so that an execution is an interleaving of
    the updates of the tasks. *)
From S2P Require Import Prelude Failures GoFloat Archival LteTestKeys.

(** The updates that the tasks perform. *)
Inductive update :=
  | UNetworkEvents (v : list ArchivalNetworkEvent)
  | ULateReplies (v : list ArchivalDNSLookupResult)
  | UQueries (v : list ArchivalDNSLookupResult)
  | URequests (v : list ArchivalHTTPRequestResult)
  | UTCPConnect (v : list ArchivalTCPConnectResult)
  | UTLSHandshakes (v : list ArchivalTLSOrQUICHandshakeResult)
  | UPriorityLog (entry : ConnPriorityLogEntry).

Definition perform (tk : TestKeys) (u : update) : TestKeys :=
  match u with
  | UNetworkEvents v => AppendNetworkEvents v tk
  | ULateReplies v => AppendDNSLateReplies v tk
  | UQueries v => AppendQueries v tk
  | URequests v => PrependRequests v tk
  | UTCPConnect v => AppendTCPConnectResults v tk
  | UTLSHandshakes v => AppendTLSHandshakes v tk
  | UPriorityLog entry => AppendConnPriorityLogEntry entry tk
  end.

(** The steps of an execution: some task performs its next update. *)
Inductive interleaving {A} : list (list A) → list A → Prop :=
  | interleaving_done tasks : Forall (λ task, task = []) tasks → interleaving tasks []
  | interleaving_step before u task after rest :
      interleaving (before ++ task :: after) rest →
      interleaving (before ++ (u :: task) :: after) (u :: rest).

(** What an update adds to each list. *)
Definition events_of u := match u with UNetworkEvents v => v | _ => [] end.
Definition late_of u := match u with ULateReplies v => v | _ => [] end.
Definition queries_of u := match u with UQueries v => v | _ => [] end.
Definition requests_of u := match u with URequests v => v | _ => [] end.
Definition connects_of u := match u with UTCPConnect v => v | _ => [] end.
Definition handshakes_of u := match u with UTLSHandshakes v => v | _ => [] end.
Definition log_of u := match u with UPriorityLog entry => [entry] | _ => [] end.

Lemma interleaving_perm {A} (tasks : list (list A)) run : interleaving tasks run → run ≡ₚ concat tasks.
Proof.
  induction 1 as [tasks Hall|before u task after rest _ IH].
  - induction Hall as [|task tasks -> _ IH]; [done|]. exact IH.
  - rewrite IH, !concat_app. simpl. by rewrite Permutation_middle.
Qed.

(** The updates of a task keep their order. *)
Lemma interleaving_task {A} (tasks : list (list A)) run task :
  interleaving tasks run → task ∈ tasks → sublist task run.
Proof.
  intros Hi. revert task. induction Hi as [tasks Hall|before u t after rest _ IH]; intros task Hin.
  - rewrite Forall_forall in Hall. by rewrite (Hall task Hin).
  - rewrite elem_of_app, elem_of_cons in Hin. destruct Hin as [Hin|[->|Hin]].
    + apply sublist_cons, IH. set_solver.
    + apply sublist_skip, IH. set_solver.
    + apply sublist_cons, IH. set_solver.
Qed.

(** A list that grows at its end, or at its front. *)
Lemma perform_appends {B} (p : TestKeys → list B) (added : update → list B) tk run :
  (∀ tk u, p (perform tk u) = p tk ++ added u) →
  p (foldl perform tk run) = p tk ++ (run ≫= added).
Proof.
  intros Hp. revert tk. induction run as [|u run IH]; intros tk; cbn; [by rewrite app_nil_r|].
  by rewrite IH, Hp, <-app_assoc.
Qed.

Lemma perform_prepends tk run :
  lte_Requests (foldl perform tk run) = (reverse run ≫= requests_of) ++ lte_Requests tk.
Proof.
  revert tk. induction run as [|u run IH]; intros tk; [done|]. cbn [foldl].
  rewrite IH, reverse_cons, bind_app. cbn. rewrite app_nil_r, <-app_assoc. f_equal. by destruct u.
Qed.

(** The requests of a task are, from the last one, a subsequence of the list. *)
Definition recorded (tasks : list (list update)) (tk : TestKeys) : Prop :=
  lte_NetworkEvents tk ≡ₚ concat tasks ≫= events_of ∧
  lte_DNSDuplicateResponses tk ≡ₚ concat tasks ≫= late_of ∧
  lte_Queries tk ≡ₚ concat tasks ≫= queries_of ∧
  lte_Requests tk ≡ₚ concat tasks ≫= requests_of ∧
  lte_TCPConnect tk ≡ₚ concat tasks ≫= connects_of ∧
  lte_TLSHandshakes tk ≡ₚ concat tasks ≫= handshakes_of ∧
  lte_ConnPriorityLog tk ≡ₚ concat tasks ≫= log_of.

Lemma sublist_bind {A B} (f : A → list B) l1 l2 : sublist l1 l2 → sublist (l1 ≫= f) (l2 ≫= f).
Proof.
  induction 1 as [|x l1 l2 _ IH|x l1 l2 _ IH]; cbn; [constructor|by apply sublist_app|].
  by apply sublist_inserts_l.
Qed.

Lemma sublist_rev {A} (l1 l2 : list A) : sublist l1 l2 → sublist (reverse l1) (reverse l2).
Proof.
  induction 1 as [|x l1 l2 _ IH|x l1 l2 _ IH]; [constructor|..]; rewrite ?reverse_cons.
  - by apply sublist_app.
  - by apply sublist_inserts_r.
Qed.

(** however the tasks interleave, the test keys end up with everything
    that the tasks recorded and nothing else; what one task records keeps its
    order, from the last request to the first one for requests. *)
Theorem recording_complete tasks run (Hrun : interleaving tasks run) :
  let tk := foldl perform NewTestKeys run in
  recorded tasks tk ∧
  (∀ task, task ∈ tasks →
     sublist (task ≫= events_of) (lte_NetworkEvents tk) ∧
     sublist (task ≫= queries_of) (lte_Queries tk) ∧
     sublist (task ≫= connects_of) (lte_TCPConnect tk) ∧
     sublist (task ≫= handshakes_of) (lte_TLSHandshakes tk) ∧
     sublist (reverse task ≫= requests_of) (lte_Requests tk)).
Proof.
  intros tk.
  assert (Hall : lte_NetworkEvents tk = run ≫= events_of ∧ lte_DNSDuplicateResponses tk = run ≫= late_of ∧
    lte_Queries tk = run ≫= queries_of ∧ lte_Requests tk = reverse run ≫= requests_of ∧
    lte_TCPConnect tk = run ≫= connects_of ∧ lte_TLSHandshakes tk = run ≫= handshakes_of ∧
    lte_ConnPriorityLog tk = run ≫= log_of).
  { subst tk. rewrite perform_prepends, app_nil_r.
    rewrite (perform_appends lte_NetworkEvents events_of), (perform_appends lte_DNSDuplicateResponses late_of),
      (perform_appends lte_Queries queries_of), (perform_appends lte_TCPConnect connects_of),
      (perform_appends lte_TLSHandshakes handshakes_of), (perform_appends lte_ConnPriorityLog log_of);
      [by split_and!|intros ? []; cbn; by rewrite ?app_nil_r..]. }
  destruct Hall as (He & Hl & Hq & Hr & Hc & Hh & Hp). split.
  - unfold recorded. rewrite He, Hl, Hq, Hr, Hc, Hh, Hp.
    assert (Hperm : run ≡ₚ concat tasks) by by apply interleaving_perm.
    rewrite reverse_Permutation. by split_and!; apply bind_Permutation.
  - intros task Hin. pose proof (interleaving_task _ _ _ Hrun Hin) as Hs.
    rewrite He, Hq, Hr, Hc, Hh. split_and!; apply sublist_bind; try done. by apply sublist_rev.
Qed.

Lemma recording_complete_witness :
  let u1 := UQueries [] in let u2 := UNetworkEvents [] in
  interleaving [[u1; u2]; [u2]] [u1; u2; u2] ∧ recorded [[u1; u2]; [u2]] (foldl perform NewTestKeys [u1; u2; u2]).
Proof.
  assert (Hi : interleaving [[UQueries []; UNetworkEvents []]; [UNetworkEvents []]]
    [UQueries []; UNetworkEvents []; UNetworkEvents []]).
  { apply (interleaving_step [] _ _ [_]). apply (interleaving_step [[_]] _ [] []).
    apply (interleaving_step [] _ [] [_]). constructor. by repeat constructor. }
  split; [exact Hi|exact (proj1 (recording_complete _ _ Hi))].
Defined.
