(* ===== verification/LtePriority.v ===== *)
(** * Web Connectivity LTE: the priority selector

    [pkg/experiment/webconnectivitylte/priority.go]: which of the connections
    that are ready may fetch the page.  The selector goroutine and the
    connections that ask for permission are a transition system: [select]
    statements are the choice between steps, the request channel is a rendezvous
    and the response channel holds one answer.  The text of the log is not modelled. *)
From S2P Require Import Prelude GoString.

(** ** Addresses and flags ([dnscache.go]) *)

Record DNSEntry := { entry_Addr : string; entry_Flags : Z }.

Definition DNSAddrFlagSystemResolver : Z := Z.shiftl 1 0.
Definition DNSAddrFlagUDP : Z := Z.shiftl 1 1.
Definition DNSAddrFlagHTTPS : Z := Z.shiftl 1 2.

Record prioritySelector := mkSelector {
  ps_m : gmap string Z;
  ps_nhttps : Z;
  ps_nsystem : Z;
  ps_nudp : Z;
}.

(** The request of a connection; requests are compared by pointer, which is the
    number of the connection here. *)
Record priorityRequest := mkRequest { req_conn : nat; req_addr : string }.

Definition has_flag (flags flag : Z) : bool := negb (Z.land flags flag =? 0).

(** A turn of the loop of [newPrioritySelector]. *)
Definition count_addr (ps : prioritySelector) (addr : DNSEntry) : prioritySelector :=
  let flags := entry_Flags addr in
  let ps := ps <| ps_m ::= <[entry_Addr addr := flags]> |> in
  let ps := if has_flag flags DNSAddrFlagSystemResolver
            then ps <| ps_nsystem ::= λ n, wrap64 (n + 1) |> else ps in
  let ps := if has_flag flags DNSAddrFlagUDP then ps <| ps_nudp ::= λ n, wrap64 (n + 1) |> else ps in
  if has_flag flags DNSAddrFlagHTTPS then ps <| ps_nhttps ::= λ n, wrap64 (n + 1) |> else ps.

Definition newPrioritySelector (addrs : list DNSEntry) : prioritySelector :=
  foldl count_addr (mkSelector ∅ 0 0 0) addrs.

(** An unknown address has no flags: reading a map gives zero. *)
Definition isHighestPriority (ps : prioritySelector) (r : priorityRequest) : bool :=
  let flags := default 0 (ps_m ps !! req_addr r) in
  if 0 <? ps_nsystem ps then has_flag flags DNSAddrFlagSystemResolver
  else if 0 <? ps_nudp ps then has_flag flags DNSAddrFlagUDP
  else if 0 <? ps_nhttps ps then has_flag flags DNSAddrFlagHTTPS
  else true.

Fixpoint first_highest (ps : prioritySelector) (reqs : list priorityRequest) : option priorityRequest :=
  match reqs with
  | [] => None
  | r :: reqs => if isHighestPriority ps r then Some r else first_highest ps reqs
  end.

Definition findHighestPriority (ps : prioritySelector) (reqs : list priorityRequest) :
    outcome priorityRequest :=
  _ ← Assert (0 <? length reqs)%nat "findHighestPriority wants a non-empty reqs slice";
  match first_highest ps reqs with
  | Some r => Ok r
  | None =>
      match reqs with
      | r :: _ => Ok r
      | [] => Panic "index out of range"
      end
  end.

(** The first lines of [permissionToFetch]: the request for an address. *)
Definition permission_request (conn : nat) (address : string) : outcome priorityRequest :=
  match SplitHostPort address with
  | Err err => Panic ("net.SplitHostPort failed: " +:+ err)
  | Val (ipAddr, _) => Ok (mkRequest conn ipAddr)
  end.

(** ** The transition system *)

(** The selector goroutine. *)
Inductive selector_state :=
  | AwaitFirst
  | Collecting (requests : list priorityRequest)
  | Returned.

(** A connection inside [permissionToFetch]: before the first [select], in the
    inner [select] (with the content of its response channel), and after the
    return. *)
Inductive connection :=
  | Asking
  | Waiting (resp : option bool)
  | Permission (granted : bool) (resp : option bool).

Record system := mkSystem {
  sys_selector : selector_state;
  sys_conns : gmap nat (string * connection);
}.

(** [r.resp <- v]: the channel has room for the answer. *)
Definition answer (v : bool) (c : connection) : connection :=
  match c with
  | Asking => Asking
  | Waiting _ => Waiting (Some v)
  | Permission granted _ => Permission granted (Some v)
  end.

Definition respond (v : bool) (r : priorityRequest) (conns : gmap nat (string * connection)) :
    gmap nat (string * connection) :=
  alter (λ '(addr, c), (addr, answer v c)) (req_conn r) conns.

(** [for _, r := range requests { if highPrio != r { r.resp <- false } }] *)
Definition deny_others (high : priorityRequest) (requests : list priorityRequest)
    (conns : gmap nat (string * connection)) : gmap nat (string * connection) :=
  foldl (λ conns r, if Nat.eqb (req_conn high) (req_conn r) then conns else respond false r conns)
    conns requests.

(** The selector after it received [r]. *)
Definition receive (ps : prioritySelector) (r : priorityRequest) (s : system) : system :=
  match sys_selector s with
  | AwaitFirst =>
      if isHighestPriority ps r then mkSystem Returned (respond true r (sys_conns s))
      else s <| sys_selector := Collecting [r] |>
  | Collecting requests => s <| sys_selector := Collecting (requests ++ [r]) |>
  | Returned => s
  end.

Definition listening (st : selector_state) : Prop := st ≠ Returned.

Inductive step (ps : prioritySelector) : system → system → Prop :=
  (* a connection calls permissionToFetch *)
  | step_ask s conn addr :
      sys_conns s !! conn = None →
      step ps s (s <| sys_conns ::= <[conn := (addr, Asking)]> |>)
  (* case ps.ch <- r, with the selector at case r := <-ps.ch *)
  | step_send s conn addr :
      sys_conns s !! conn = Some (addr, Asking) → listening (sys_selector s) →
      step ps s (receive ps (mkRequest conn addr) (s <| sys_conns ::= <[conn := (addr, Waiting None)]> |>))
  (* timed out sending *)
  | step_send_timeout s conn addr :
      sys_conns s !! conn = Some (addr, Asking) →
      step ps s (s <| sys_conns ::= <[conn := (addr, Permission false None)]> |>)
  (* timed out receiving *)
  | step_receive_timeout s conn addr resp :
      sys_conns s !! conn = Some (addr, Waiting resp) →
      step ps s (s <| sys_conns ::= <[conn := (addr, Permission false resp)]> |>)
  (* case v := <-r.resp *)
  | step_receive s conn addr v :
      sys_conns s !! conn = Some (addr, Waiting (Some v)) →
      step ps s (s <| sys_conns ::= <[conn := (addr, Permission v None)]> |>)
  (* case <-ctx.Done() *)
  | step_cancel s :
      listening (sys_selector s) → step ps s (s <| sys_selector := Returned |>)
  (* case <-expired.C, then the rest of selector *)
  | step_expire s requests high :
      sys_selector s = Collecting requests → findHighestPriority ps requests = Ok high →
      step ps s (mkSystem Returned (deny_others high requests (respond true high (sys_conns s)))).

Inductive reachable (ps : prioritySelector) : system → Prop :=
  | reachable_start : reachable ps (mkSystem AwaitFirst ∅)
  | reachable_step s s' : reachable ps s → step ps s s' → reachable ps s'.

(** ** Lemmas *)

Lemma first_highest_Some ps reqs r :
  first_highest ps reqs = Some r → r ∈ reqs ∧ isHighestPriority ps r = true.
Proof.
  induction reqs as [|r' reqs IH]; cbn; [done|].
  destruct (isHighestPriority ps r') eqn:E; [intros [= ->]|intros ?%IH]; set_solver.
Qed.

Lemma first_highest_None ps reqs :
  first_highest ps reqs = None ↔ ∀ r, r ∈ reqs → isHighestPriority ps r = false.
Proof.
  induction reqs as [|r' reqs IH]; cbn; [by split; [intros _ ? ?%not_elem_of_nil|]|].
  setoid_rewrite elem_of_cons. destruct (isHighestPriority ps r') eqn:E.
  - split; [done|]. intros Hall. rewrite Hall in E by auto. done.
  - rewrite IH. naive_solver.
Qed.

(** The request with the highest priority: the first one of highest priority, or
    the first one. *)
Lemma findHighestPriority_ok ps reqs :
  reqs ≠ [] → ∃ high, findHighestPriority ps reqs = Ok high ∧ high ∈ reqs ∧
    (isHighestPriority ps high = true ∨
     ((∀ r, r ∈ reqs → isHighestPriority ps r = false) ∧ head reqs = Some high)).
Proof.
  intros Hne. unfold findHighestPriority.
  destruct reqs as [|r0 reqs]; [done|]. cbn [length Nat.ltb Nat.leb Assert mbind outcome_bind].
  destruct (first_highest ps (r0 :: reqs)) as [r|] eqn:E.
  - apply first_highest_Some in E as [? ?]. eauto.
  - exists r0. split_and!; [done|set_solver|]. right. by split; [apply first_highest_None|].
Qed.

(** The connections that hold a permission, read or not. *)
Definition granted (c : connection) : Prop :=
  match c with
  | Asking => False
  | Waiting resp => resp = Some true
  | Permission g resp => g = true ∨ resp = Some true
  end.

(** No answer was sent to the connection. *)
Definition unanswered (c : connection) : Prop :=
  match c with
  | Asking => True
  | Waiting resp => resp = None
  | Permission g resp => g = false ∧ resp = None
  end.

(** It was told that it may not fetch and has not read it yet. *)
Definition denied (c : connection) : Prop := c = Waiting (Some false).

Lemma unanswered_not_granted c : unanswered c → ¬ granted c.
Proof. destruct c as [|resp|g resp]; cbn; [tauto|intros ->; done|intros [-> ->] [?|?]; done]. Qed.

Lemma unanswered_not_denied c : unanswered c → ¬ denied c.
Proof. by destruct c as [|[]|]. Qed.

(** ** What the answers do to the connections *)

Section respond.
Implicit Types (conns : gmap nat (string * connection)) (r : priorityRequest).

Lemma respond_same v r conns addr c :
  conns !! req_conn r = Some (addr, c) → respond v r conns !! req_conn r = Some (addr, answer v c).
Proof. intros Hc. unfold respond. by rewrite lookup_alter_eq, Hc. Qed.

Lemma respond_other v r conns k : k ≠ req_conn r → respond v r conns !! k = conns !! k.
Proof. intros Hk. unfold respond. by apply lookup_alter_ne. Qed.

(** The connections after the final loop of the selector. *)
Lemma deny_others_lookup high requests conns k :
  NoDup (req_conn <$> requests) →
  deny_others high requests conns !! k =
    if bool_decide (k ∈ req_conn <$> requests) && negb (Nat.eqb (req_conn high) k)
    then (λ '(addr, c), (addr, answer false c)) <$> conns !! k
    else conns !! k.
Proof.
  unfold deny_others. revert conns. induction requests as [|r requests IH]; intros conns Hnd; [done|].
  rewrite fmap_cons in Hnd |- *. apply NoDup_cons in Hnd as [Hr Hnd]. cbn [foldl]. rewrite IH by done.
  destruct (decide (k = req_conn r)) as [->|Hne].
  - rewrite (bool_decide_false (_ ∈ req_conn <$> requests)) by done.
    rewrite bool_decide_true by set_solver. cbn [andb].
    destruct (Nat.eqb (req_conn high) (req_conn r)); [done|]. cbn [negb]. unfold respond. rewrite lookup_alter_eq. by destruct (conns !! req_conn r) as [[]|].
  - rewrite (bool_decide_ext (k ∈ req_conn <$> requests) (k ∈ req_conn r :: (req_conn <$> requests)))
      by (rewrite elem_of_cons; naive_solver).
    assert (E : (if Nat.eqb (req_conn high) (req_conn r) then conns else respond false r conns) !! k = conns !! k)
      by (destruct (Nat.eqb (req_conn high) (req_conn r)); [done|by apply respond_other]).
    by rewrite E.
Qed.
End respond.

(** ** The invariant *)

(** The connections that the selector collected. *)
Record collected (s : system) (requests : list priorityRequest) : Prop := {
  col_nonempty : requests ≠ [];
  col_distinct : NoDup (req_conn <$> requests);
  col_known r : r ∈ requests → ∃ c, sys_conns s !! req_conn r = Some (req_addr r, c) ∧ c ≠ Asking;
}.

(** A granted connection has the highest priority, or nobody who was denied has. *)
Definition justified (ps : prioritySelector) (s : system) : Prop :=
  ∀ conn addr c, sys_conns s !! conn = Some (addr, c) → granted c →
    isHighestPriority ps (mkRequest conn addr) = true ∨
    ∀ conn' addr' c', sys_conns s !! conn' = Some (addr', c') → denied c' →
      isHighestPriority ps (mkRequest conn' addr') = false.

Definition one_granted (s : system) : Prop :=
  ∀ conn1 addr1 c1 conn2 addr2 c2,
    sys_conns s !! conn1 = Some (addr1, c1) → granted c1 →
    sys_conns s !! conn2 = Some (addr2, c2) → granted c2 → conn1 = conn2.

Definition no_answers (s : system) : Prop :=
  ∀ conn addr c, sys_conns s !! conn = Some (addr, c) → unanswered c.

Definition invariant (ps : prioritySelector) (s : system) : Prop :=
  match sys_selector s with
  | AwaitFirst => no_answers s
  | Collecting requests => no_answers s ∧ collected s requests
  | Returned => one_granted s ∧ justified ps s
  end.

Lemma no_answers_fine ps s : no_answers s → one_granted s ∧ justified ps s.
Proof.
  intros Hs. split.
  - intros ? ? ? ? ? ? H1 G1. destruct (unanswered_not_granted _ (Hs _ _ _ H1) G1).
  - intros ? ? ? H1 G1. destruct (unanswered_not_granted _ (Hs _ _ _ H1) G1).
Qed.

(** A connection that changes its own state, without gaining a permission or
    a denial. *)
Lemma invariant_move ps s conn addr c c' :
  invariant ps s →
  (sys_conns s !! conn = Some (addr, c) ∨ (sys_conns s !! conn = None ∧ c = Asking)) →
  (unanswered c → unanswered c') → (c ≠ Asking → c' ≠ Asking) →
  (granted c' → granted c) → (denied c' → denied c) →
  invariant ps (s <| sys_conns ::= <[conn := (addr, c')]> |>).
Proof.
  intros Hinv Hc Hu Hask Hg Hd.
  assert (Hback : ∀ k a x, <[conn := (addr, c')]> (sys_conns s) !! k = Some (a, x) →
    (k = conn ∧ a = addr ∧ x = c') ∨ (k ≠ conn ∧ sys_conns s !! k = Some (a, x))).
  { intros k a x. rewrite lookup_insert_Some. naive_solver. }
  assert (Hprev : granted c ∨ denied c → sys_conns s !! conn = Some (addr, c)).
  { intros Hx. destruct Hc as [?|[_ ->]]; [done|]. by destruct Hx as [[]|[=]]. }
  assert (Hna : no_answers s → no_answers (s <| sys_conns ::= <[conn := (addr, c')]> |>)).
  { intros Hs k a x [(-> & -> & ->)|[_ Hx]]%Hback; [|by eapply Hs].
    apply Hu. destruct Hc as [Hc|[_ ->]]; [by eapply Hs|done]. }
  unfold invariant in *. cbn [sys_selector]. destruct s as [st conns]. cbn in *.
  destruct st as [|requests|].
  - by apply Hna.
  - destruct Hinv as [Hs [Hne Hnd Hkn]]. split; [by apply Hna|]. split; [done|done|].
    intros r Hr. destruct (Hkn r Hr) as (x & Hx & Hxa). cbn.
    destruct (decide (req_conn r = conn)) as [<-|Hk]; [|rewrite lookup_insert_ne by done; eauto].
    rewrite lookup_insert_eq. destruct Hc as [Hc|[Hc _]]; [|by cbn in *; congruence].
    cbn in *. rewrite Hx in Hc. injection Hc as <- <-. eauto.
  - destruct Hinv as [Hone Hjust]. split.
    + intros k1 a1 x1 k2 a2 x2 H1 G1 H2 G2.
      apply Hback in H1 as [(-> & -> & ->)|[? H1]], H2 as [(-> & -> & ->)|[? H2]]; [done|..].
      * eapply (Hone conn _ c); try done; auto.
      * eapply (Hone _ _ _ conn _ c); try done; auto.
      * by eapply Hone.
    + intros k a x Hx G.
      assert (Hx' : ∃ x', sys_conns (mkSystem Returned conns) !! k = Some (a, x') ∧ granted x').
      { apply Hback in Hx as [(-> & -> & ->)|[? Hx]]; [exists c|exists x]; split; auto. }
      destruct Hx' as (x' & Hx' & G'). destruct (Hjust _ _ _ Hx' G') as [?|Hj]; [by left|right].
      intros k' a' y Hy Dy. apply Hback in Hy as [(-> & -> & ->)|[? Hy]]; [|by eapply Hj].
      eapply Hj; [apply Hprev|]; auto.
Qed.

(** ** Preservation *)

(** The selector receives the request of a connection that was asking. *)
Lemma invariant_send ps s conn addr :
  invariant ps s → sys_conns s !! conn = Some (addr, Asking) → listening (sys_selector s) →
  invariant ps (receive ps (mkRequest conn addr) (s <| sys_conns ::= <[conn := (addr, Waiting None)]> |>)).
Proof.
  destruct s as [st conns]. unfold invariant, listening, receive. cbn. intros Hinv Hc Hst.
  assert (Hna : no_answers (mkSystem st conns) → ∀ st',
    no_answers (mkSystem st' (<[conn := (addr, Waiting None)]> conns))).
  { intros Hs st' k a x. cbn. rewrite lookup_insert_Some.
    intros [[-> [= -> <-]]|[_ Hx]]; [done|by eapply (Hs k a x)]. }
  destruct st as [|requests|]; [| |done].
  - destruct (isHighestPriority ps (mkRequest conn addr)) eqn:Hp; cbn.
    + assert (Hg : ∀ k a x, respond true (mkRequest conn addr) (<[conn:=(addr, Waiting None)]> conns) !! k =
        Some (a, x) → (k = conn ∧ a = addr ∧ x = Waiting (Some true)) ∨ unanswered x).
      { intros k a x. destruct (decide (k = conn)) as [->|Hk].
        - rewrite (respond_same _ (mkRequest conn addr) _ addr (Waiting None)) by apply lookup_insert_eq.
          intros [= <- <-]. by left.
        - rewrite respond_other, lookup_insert_ne by done. intros Hx. right. by eapply Hinv. }
      split.
      * intros k1 a1 x1 k2 a2 x2 [(-> & _)|U1]%Hg G1 [(-> & _)|U2]%Hg G2; [done|..];
          by edestruct unanswered_not_granted.
      * intros k a x [(-> & -> & ->)|U]%Hg G; [by left|by edestruct unanswered_not_granted].
    + split; [by apply Hna|]. split; [done|apply NoDup_singleton|].
      intros r ->%list_elem_of_singleton. cbn. rewrite lookup_insert_eq. eauto.
  - destruct Hinv as [Hs [Hne Hnd Hkn]]. split; [by eapply Hna|].
    assert (Hfresh : conn ∉ req_conn <$> requests).
    { intros (r & -> & Hr)%list_elem_of_fmap. destruct (Hkn r Hr) as (x & Hx & ?). cbn in Hx. congruence. }
    split.
    + by destruct requests.
    + rewrite fmap_app. apply NoDup_app. split_and!; [done| |apply NoDup_singleton].
      intros k Hk ->%list_elem_of_singleton. done.
    + intros r [Hr| ->%list_elem_of_singleton]%elem_of_app; cbn.
      * destruct (Hkn r Hr) as (x & Hx & ?). rewrite lookup_insert_ne; [eauto|].
        intros ->. apply Hfresh, list_elem_of_fmap. eauto.
      * rewrite lookup_insert_eq. eauto.
Qed.

(** The time is over: one permission, the other requests are denied. *)
Lemma expire_lookup high requests conns k a x :
  NoDup (req_conn <$> requests) → high ∈ requests →
  (deny_others high requests (respond true high conns)) !! k = Some (a, x) →
  ∃ c, conns !! k = Some (a, c) ∧
    ((k = req_conn high ∧ x = answer true c) ∨
     (k ≠ req_conn high ∧ (k ∈ req_conn <$> requests) ∧ x = answer false c) ∨
     ((k ∉ req_conn <$> requests) ∧ x = c)).
Proof.
  intros Hnd Hh. rewrite deny_others_lookup by done.
  destruct (Nat.eqb_spec (req_conn high) k) as [<-|Hk]; cbn [negb].
  - rewrite andb_false_r. unfold respond. rewrite lookup_alter_eq.
    intros ([a' c] & Hc & [= -> ->])%fmap_Some. exists c. auto.
  - rewrite andb_true_r, respond_other by done. case_bool_decide as Hin.
    + intros ([a' c] & Hc & [= -> ->])%fmap_Some. exists c. naive_solver.
    + intros Hc. exists x. auto.
Qed.

Lemma answer_false c : unanswered c → ¬ granted (answer false c).
Proof. destruct c as [|resp|g resp]; cbn; [tauto|done|]. intros [-> _] [?|?]; done. Qed.

Lemma invariant_expire ps s requests high :
  invariant ps s → sys_selector s = Collecting requests → findHighestPriority ps requests = Ok high →
  invariant ps (mkSystem Returned (deny_others high requests (respond true high (sys_conns s)))).
Proof.
  intros Hinv Hst Hfind. unfold invariant in Hinv. rewrite Hst in Hinv.
  destruct Hinv as [Hs [Hne Hnd Hkn]].
  destruct (findHighestPriority_ok ps requests Hne) as (high' & Hfind' & Hin & Hprio).
  rewrite Hfind in Hfind'. injection Hfind' as <-.
  assert (Hg : ∀ k a x, deny_others high requests (respond true high (sys_conns s)) !! k = Some (a, x) →
    granted x → k = req_conn high ∧ a = req_addr high).
  { intros k a x Hx G. destruct (expire_lookup _ _ _ _ _ _ Hnd Hin Hx) as (c & Hc & Hcases).
    pose proof (Hs _ _ _ Hc) as U. destruct Hcases as [[-> ->]|[(_ & _ & ->)|[_ ->]]].
    - destruct (Hkn high Hin) as (c' & Hc' & _). rewrite Hc in Hc'. by injection Hc' as -> _.
    - by destruct (answer_false c U).
    - by destruct (unanswered_not_granted c U). }
  split; cbn.
  - intros k1 a1 x1 k2 a2 x2 H1 G1 H2 G2. destruct (Hg _ _ _ H1 G1), (Hg _ _ _ H2 G2). congruence.
  - intros k a x Hx G. destruct (Hg _ _ _ Hx G) as [-> ->]. destruct Hprio as [Hp|[Hnone _]].
    + left. by destruct high.
    + right. intros k' a' x' Hx' D.
      destruct (expire_lookup _ _ _ _ _ _ Hnd Hin Hx') as (c & Hc & Hcases).
      pose proof (Hs _ _ _ Hc) as U. destruct Hcases as [[-> ->]|[(_ & Hk & ->)|[_ ->]]].
      * by destruct c as [| |].
      * apply list_elem_of_fmap in Hk as (r & -> & Hr). destruct (Hkn r Hr) as (c' & Hc' & _).
        rewrite Hc in Hc'. injection Hc' as -> _. rewrite <-(Hnone r Hr). by destruct r.
      * by destruct (unanswered_not_denied c U).
Qed.

Lemma invariant_step ps s s' : step ps s s' → invariant ps s → invariant ps s'.
Proof.
  destruct 1 as [s conn addr Hc|s conn addr Hc Hl|s conn addr Hc|s conn addr resp Hc|s conn addr v Hc|s Hl
    |s requests high Hst Hfind]; intros Hinv.
  - eapply (invariant_move _ _ _ _ Asking); try done. by right.
  - by apply invariant_send.
  - eapply (invariant_move _ _ _ _ Asking); try done; [by left|]. by intros [[=]|[=]].
  - eapply (invariant_move _ _ _ _ (Waiting resp)); try done; [by left|].
    by intros [[=]|?].
  - eapply (invariant_move _ _ _ _ (Waiting (Some v))); try done; [by left|].
    by intros [->|[=]].
  - destruct s as [st conns]. unfold invariant in *. cbn in *.
    apply (no_answers_fine ps (mkSystem Returned conns)).
    destruct st as [|requests|]; [done|by destruct Hinv|done].
  - by eapply invariant_expire.
Qed.

Lemma reachable_invariant ps s : reachable ps s → invariant ps s.
Proof.
  induction 1 as [|s s' _ IH Hstep]; [|by eapply invariant_step].
  intros k a x Hk. cbn in Hk. by rewrite lookup_empty in Hk.
Qed.

Lemma reachable_fine ps s : reachable ps s → one_granted s ∧ justified ps s.
Proof.
  intros Hs%reachable_invariant. unfold invariant in Hs.
  destruct (sys_selector s); [|destruct Hs|done]; by apply no_answers_fine.
Qed.

(** C9: in every reachable state at most one connection holds the permission
    to fetch the page; it has the highest priority unless no connection that
    was denied has it; and when the extra time expires the selector does
    not panic: one of the requests it collected gets the permission. *)
Theorem permission_once ps s (Hs : reachable ps s) :
  one_granted s ∧ justified ps s ∧
  (∀ requests, sys_selector s = Collecting requests →
     ∃ high c, findHighestPriority ps requests = Ok high ∧ high ∈ requests ∧
       sys_conns s !! req_conn high = Some (req_addr high, c) ∧
       deny_others high requests (respond true high (sys_conns s)) !! req_conn high =
         Some (req_addr high, answer true c)).
Proof.
  destruct (reachable_fine ps s Hs) as [Hone Hjust]. apply reachable_invariant in Hs.
  split_and!; [done|done|]. intros requests Hst.
  unfold invariant in Hs. rewrite Hst in Hs. destruct Hs as [_ [Hne Hnd Hkn]].
  destruct (findHighestPriority_ok ps requests Hne) as (high & Hfind & Hin & _).
  destruct (Hkn high Hin) as (c & Hc & _). exists high, c. split_and!; try done.
  rewrite deny_others_lookup, Nat.eqb_refl, andb_false_r by done. by apply respond_same.
Qed.

(** Two connections to addresses of unknown origin and of the system resolver. *)
Definition sample_selector : prioritySelector :=
  newPrioritySelector [ {| entry_Addr := "93.184.216.34"; entry_Flags := 1 |};
                        {| entry_Addr := "10.0.0.1"; entry_Flags := 0 |} ].

Definition sample_collecting : system :=
  mkSystem (Collecting [mkRequest 1 "10.0.0.1"]) {[ 1%nat := ("10.0.0.1", Waiting None) ]}.

Lemma permission_once_witness :
  reachable sample_selector sample_collecting ∧ one_granted sample_collecting.
Proof.
  assert (Hr : reachable sample_selector sample_collecting).
  { set (asking := mkSystem AwaitFirst {[ 1%nat := ("10.0.0.1", Asking) ]}).
    apply (reachable_step _ asking).
    - apply (reachable_step _ (mkSystem AwaitFirst ∅)); [apply reachable_start|].
      exact (step_ask _ (mkSystem AwaitFirst ∅) 1 "10.0.0.1" eq_refl).
    - assert (E : sample_collecting = receive sample_selector (mkRequest 1 "10.0.0.1")
        (asking <| sys_conns ::= <[1%nat := ("10.0.0.1", Waiting None)]> |>)) by by vm_compute.
      rewrite E. by apply step_send. }
  split; [exact Hr|exact (proj1 (permission_once _ _ Hr))].
Defined.
