(* ===== verification/GoRegexp.v ===== *)
(** * Regular expressions

    Go's [regexp] for the expressions without unbounded repetition: the match that
    [ReplaceAllFunc] replaces is the leftmost one, and among those the first one a
    backtracking search with greedy repetitions finds.  The text is read one UTF-8 rune at a
    time.  [denotes] says which texts an expression matches; the search is proved to find
    a match exactly when there is one. *)
From S2P Require Import Prelude GoString WebTitle.
From Stdlib Require Import Ascii.

(** ** Text as runes *)

(** A rune is the bytes it is encoded with. *)
Fixpoint runes_fuel (fuel : nat) (s : string) : list string :=
  match fuel, s with
  | S fuel, String _ _ =>
      let w := rune_width s in string_take w s :: runes_fuel fuel (string_drop w s)
  | _, _ => []
  end.

(** Every rune has at least one byte. *)
Definition runes (s : string) : list string := runes_fuel (String.length s) s.

Definition text (l : list string) : string := foldr String.append "" l.

(** ** Expressions *)

Inductive regex :=
  | RClass (p : string → bool)
  | RBegin
  | REnd
  | RSeq (r1 r2 : regex)
  | RAlt (r1 r2 : regex)
  | RRepeat (min max : nat) (r : regex).

Definition ROpt (r : regex) : regex := RRepeat 0 1 r.

(** One ASCII character of a set. *)
Definition ascii_class (p : ascii → bool) (rune : string) : bool :=
  match rune with
  | String c "" => is_ascii c && p c
  | _ => false
  end.

Definition RChar (c : ascii) : regex := RClass (ascii_class (Ascii.eqb c)).

(** A literal. *)
Fixpoint RLit (c : ascii) (s : string) : regex :=
  match s with
  | "" => RChar c
  | String c' s => RSeq (RChar c) (RLit c' s)
  end.

(** A choice among several expressions. *)
Fixpoint RAlts (r : regex) (rs : list regex) : regex :=
  match rs with
  | [] => r
  | r' :: rs => RAlt r (RAlts r' rs)
  end.

Fixpoint RSeqs (r : regex) (rs : list regex) : regex :=
  match rs with
  | [] => r
  | r' :: rs => RSeq r (RSeqs r' rs)
  end.

(** A position: whether it is the beginning of the text, and what follows. *)
Definition position : Type := bool * list string.

(** [r] matches from a position up to another one. *)
Inductive denotes : regex → position → position → Prop :=
  | denotes_class p b c s : p c = true → denotes (RClass p) (b, c :: s) (false, s)
  | denotes_begin s : denotes RBegin (true, s) (true, s)
  | denotes_end b : denotes REnd (b, []) (b, [])
  | denotes_seq r1 r2 x y z : denotes r1 x y → denotes r2 y z → denotes (RSeq r1 r2) x z
  | denotes_left r1 r2 x y : denotes r1 x y → denotes (RAlt r1 r2) x y
  | denotes_right r1 r2 x y : denotes r2 x y → denotes (RAlt r1 r2) x y
  | denotes_stop max r x : denotes (RRepeat 0 max r) x x
  | denotes_more min max r x y z :
      denotes r x y → denotes (RRepeat (pred min) max r) y z → denotes (RRepeat min (S max) r) x z.

(** ** The backtracking search *)

Section search.
Context {A : Type}.

(** [orElse]: the second choice when the first one fails. *)
Definition or_else (first second : option A) : option A :=
  match first with Some a => Some a | None => second end.

Fixpoint search (r : regex) (x : position) (k : position → option A) : option A :=
  match r with
  | RClass p =>
      match x.2 with
      | c :: s => if p c then k (false, s) else None
      | [] => None
      end
  | RBegin => if x.1 then k x else None
  | REnd => match x.2 with [] => k x | _ => None end
  | RSeq r1 r2 => search r1 x (λ y, search r2 y k)
  | RAlt r1 r2 => or_else (search r1 x k) (search r2 x k)
  | RRepeat min max r =>
      (fix repeat (max min : nat) (x : position) {struct max} : option A :=
         match max, min with
         | O, O => k x
         | O, S _ => None
         | S max, O => or_else (search r x (λ y, repeat max O y)) (k x)
         | S max, S min => search r x (λ y, repeat max min y)
         end) max min x
  end.

(** The search answers with the continuation of a match, and fails only when
    the continuation fails after every match. *)
Lemma search_sound r : ∀ x k a, search r x k = Some a → ∃ y, denotes r x y ∧ k y = Some a.
Proof.
  induction r as [p| | |r1 IH1 r2 IH2|r1 IH1 r2 IH2|min max r IH]; intros [b s] k a; cbn.
  - destruct s as [|c s]; [done|]. destruct (p c) eqn:E; [|done]. eexists. split; [by apply denotes_class|done].
  - destruct b; [|done]. eexists. split; [apply denotes_begin|done].
  - destruct s as [|c s]; [|done]. eexists. split; [apply denotes_end|done].
  - intros (y & Hy & (z & Hz & Hk)%IH2)%IH1. exists z. split; [by eapply denotes_seq|done].
  - destruct (search r1 (b, s) k) as [a'|] eqn:E; cbn.
    + intros [= ->]. apply IH1 in E as (y & Hy & Hk). exists y. split; [by apply denotes_left|done].
    + intros (y & Hy & Hk)%IH2. exists y. split; [by apply denotes_right|done].
  - generalize (b, s). revert min. induction max as [|max IHm]; intros min x; destruct min as [|min].
    + exists x. split; [apply denotes_stop|done].
    + done.
    + cbn. destruct (search r x _) as [a'|] eqn:E; cbn.
      * intros [= ->]. apply IH in E as (y & Hy & (z & Hz & Hk)%IHm). exists z. split; [by eapply denotes_more|done].
      * intros Hk. exists x. split; [apply denotes_stop|done].
    + cbn. intros (y & Hy & (z & Hz & Hk)%IHm)%IH. exists z. split; [by eapply denotes_more|done].
Qed.

Lemma or_else_None (first second : option A) : or_else first second = None ↔ first = None ∧ second = None.
Proof. destruct first; naive_solver. Qed.

Lemma search_complete r : ∀ x k y, search r x k = None → denotes r x y → k y = None.
Proof.
  induction r as [p| | |r1 IH1 r2 IH2|r1 IH1 r2 IH2|min max r IH]; intros x k y Hs Hd.
  - inversion Hd as [? ? ? ? E| | | | | | |]; subst. cbn in Hs. by rewrite E in Hs.
  - by inversion Hd; subst.
  - by inversion Hd; subst.
  - inversion Hd as [| | |? ? ? z ? Hd1 Hd2| | | |]; subst. cbn in Hs.
    eapply IH2; [|exact Hd2]. exact (IH1 _ _ _ Hs Hd1).
  - cbn in Hs. apply or_else_None in Hs as [Hs1 Hs2]. inversion Hd; subst; [by eapply IH1|by eapply IH2].
  - cbn in Hs. revert min x Hs Hd. induction max as [|max IHm]; intros min x Hs Hd.
    + inversion Hd; subst. done.
    + inversion Hd as [| | | | | |? ? ?|? ? ? ? z ? Hd1 Hd2]; subst.
      * by apply or_else_None in Hs as [_ Hs].
      * destruct min as [|min]; [apply or_else_None in Hs as [Hs _]|];
          (eapply IHm; [|exact Hd2]; exact (IH _ _ _ Hs Hd1)).
Qed.
End search.

(** Where the match at a position ends. *)
Definition match_at (r : regex) (x : position) : option position := search r x Some.

Lemma match_at_None r x : match_at r x = None ↔ ∀ y, ¬ denotes r x y.
Proof.
  split.
  - intros Hs y Hd. by apply (search_complete _ _ _ _ Hs) in Hd.
  - intros Hn. destruct (match_at r x) as [y|] eqn:E; [|done].
    apply search_sound in E as (y' & Hd & _). by apply Hn in Hd.
Qed.

Lemma match_at_Some r x y : match_at r x = Some y → denotes r x y.
Proof. intros (y' & Hd & [= ->])%search_sound. done. Qed.

(** A match takes a piece of the text. *)
Lemma denotes_suffix r x y : denotes r x y → ∃ m, x.2 = m ++ y.2.
Proof.
  induction 1 as [p b c s| | |r1 r2 x y z _ [m1 E1] _ [m2 E2]|? ? ? ? _ IH|? ? ? ? _ IH|
    |min max r x y z _ [m1 E1] _ [m2 E2]]; try done.
  - by exists [c].
  - by exists [].
  - by exists [].
  - exists (m1 ++ m2). by rewrite E1, E2, app_assoc.
  - by exists [].
  - exists (m1 ++ m2). by rewrite E1, E2, app_assoc.
Qed.

(** ** [ReplaceAllFunc] *)

(** The matched runes, by the length of what is left. *)
Definition matched (before after : list string) : list string :=
  take (length before - length after) before.

(** For an expression that matches no empty text: [fuel] bounds the number of runes. *)
Fixpoint replace_all (fuel : nat) (r : regex) (f : list string → list string) (x : position) : list string :=
  match fuel with
  | O => x.2
  | S fuel =>
      match match_at r x with
      | Some y => f (matched x.2 y.2) ++ replace_all fuel r f y
      | None =>
          match x.2 with
          | [] => []
          | c :: s => c :: replace_all fuel r f (false, s)
          end
      end
  end.

Definition ReplaceAllFunc (r : regex) (f : list string → list string) (s : list string) : list string :=
  replace_all (S (length s)) r f (true, s).

(** The text does not change when the expression matches nowhere. *)
Lemma replace_all_none fuel r f b s :
  (∀ pre post y, s = pre ++ post → ¬ denotes r (match pre with [] => b | _ => false end, post) y) →
  replace_all fuel r f (b, s) = s.
Proof.
  revert b s. induction fuel as [|fuel IH]; intros b s Hn; [done|]. cbn [replace_all].
  assert (E : match_at r (b, s) = None) by (apply match_at_None; intros y; by apply (Hn [] s)).
  rewrite E. cbn. destruct s as [|c s]; [done|]. f_equal. apply IH.
  intros pre post y -> . specialize (Hn (c :: pre) post y eq_refl). by destruct pre.
Qed.

(** Whether the position after [pre] is still the beginning of the text. *)
Definition begins (b : bool) (pre : list string) : bool := match pre with [] => b | _ => false end.

(** No match starts inside of [pre], which [s] follows. *)
Definition no_match_in (r : regex) (b : bool) (pre s : list string) : Prop :=
  ∀ pre1 post1 y, pre = pre1 ++ post1 → post1 ≠ [] → ¬ denotes r (begins b pre1, post1 ++ s) y.

(** What replacing every match means: the leftmost match [m], chosen as the
    package does, is replaced by what [f] relates it to, and the text
    after the match is treated in the same way, until there is no match. *)
Inductive replaced (r : regex) (f : list string → list string → Prop) : bool → list string → list string → Prop :=
  | replaced_none b s : no_match_in r b s [] → (∀ y, ¬ denotes r (begins b s, []) y) → replaced r f b s s
  | replaced_match b pre m s b' m' out :
      no_match_in r b pre (m ++ s) → match_at r (begins b pre, m ++ s) = Some (b', s) → m ≠ [] →
      f m m' → replaced r f b' s out →
      replaced r f b (pre ++ m ++ s) (pre ++ m' ++ out).

(** The least number of runes that a match takes. *)
Fixpoint min_len (r : regex) : nat :=
  match r with
  | RClass _ => 1
  | RBegin | REnd => 0
  | RSeq r1 r2 => min_len r1 + min_len r2
  | RAlt r1 r2 => min (min_len r1) (min_len r2)
  | RRepeat low _ r => low * min_len r
  end.

Lemma denotes_len r x y : denotes r x y → (length y.2 + min_len r ≤ length x.2)%nat.
Proof.
  induction 1 as [| | | | | | |low high r x y z _ IH1 _ IH2]; cbn [min_len length snd] in *; try lia.
  destruct low as [|low]; cbn [pred] in *; [lia|]. cbn [Nat.mul]. lia.
Qed.

Lemma begins_cons b c pre : begins b (c :: pre) = begins false pre.
Proof. by destruct pre. Qed.

(** [ReplaceAllFunc] replaces every match, for an expression that takes at least one rune. *)
Lemma replace_all_replaced fuel r f b s :
  (0 < min_len r)%nat → (length s < fuel)%nat → replaced r (λ m m', m' = f m) b s (replace_all fuel r f (b, s)).
Proof.
  intros Hr. revert b s. induction fuel as [|fuel IH]; intros b s Hf; [lia|]. cbn [replace_all].
  destruct (match_at r (b, s)) as [[b' s']|] eqn:E; cbn [snd].
  - pose proof (match_at_Some _ _ _ E) as Hd. pose proof (denotes_len _ _ _ Hd) as Hl. cbn in Hl.
    destruct (denotes_suffix _ _ _ Hd) as [m Em]. cbn in Em. subst s.
    assert (Hm : m ≠ []) by (intros ->; cbn in Hl; lia).
    assert (Ematched : matched (m ++ s') s' = m).
    { unfold matched. rewrite length_app. replace (length m + length s' - length s')%nat with (length m) by lia.
      apply take_app_length. }
    rewrite Ematched. apply (replaced_match r _ b [] m s' b'); [|exact E|done|done|apply IH; lia].
    intros pre1 post1 y [-> ->]%symmetry%app_nil; done.
  - rewrite match_at_None in E. destruct s as [|c s].
    + apply replaced_none; [|by apply E]. intros pre1 post1 y [-> ->]%symmetry%app_nil; done.
    + assert (Hstep : ∀ pre s', s = pre ++ s' → no_match_in r false pre s' → no_match_in r b (c :: pre) s').
      { intros pre s' -> Hn pre1 post1 y Epre Hp Hd. destruct pre1 as [|c1 pre1].
        - cbn in Epre, Hd. subst post1. by apply E in Hd.
        - injection Epre as -> Epre. rewrite begins_cons in Hd. by apply (Hn pre1 post1 y Epre Hp). }
      cbn [length] in Hf. specialize (IH false s ltac:(lia)).
      remember (replace_all fuel r f (false, s)) as result eqn:Er. clear Er.
      inversion IH as [b0 s0 Hn Hend Eb Es Eo|b0 pre m s' b' m' out Hn Hm Hne Hfm Hout Eb Es Eo]; subst.
      * apply replaced_none; [apply Hstep; [by rewrite app_nil_r|done]|]. by rewrite begins_cons.
      * rewrite !app_comm_cons. apply (replaced_match r _ b (c :: pre) m s' b'); try done.
        { by apply Hstep. }
        by rewrite begins_cons.
Qed.

Lemma ReplaceAllFunc_replaced r f s :
  (0 < min_len r)%nat → replaced r (λ m m', m' = f m) true s (ReplaceAllFunc r f s).
Proof. intros Hr. apply replace_all_replaced; [done|lia]. Qed.

Lemma replaced_impl r (f g : list string → list string → Prop) b s out :
  (∀ b pre m s' b' m', match_at r (begins b pre, m ++ s') = Some (b', s') → m ≠ [] → f m m' → g m m') →
  replaced r f b s out → replaced r g b s out.
Proof.
  intros Hfg. induction 1 as [|b pre m s b' m' out Hn Hm Hne Hf _ IH]; [by apply replaced_none|].
  apply (replaced_match r g b pre m s b'); try done. by eapply Hfg.
Qed.

(** An expression without anchors matches the same piece of text anywhere. *)
Fixpoint anchor_free (r : regex) : bool :=
  match r with
  | RClass _ => true
  | RBegin | REnd => false
  | RSeq r1 r2 | RAlt r1 r2 => anchor_free r1 && anchor_free r2
  | RRepeat _ _ r => anchor_free r
  end.

Lemma denotes_local r x y :
  denotes r x y → anchor_free r = true →
  ∃ m, x.2 = m ++ y.2 ∧ ∀ b t, ∃ b', denotes r (b, m ++ t) (b', t).
Proof.
  induction 1 as [p b c s Hp| | |r1 r2 x y z _ IH1 _ IH2|r1 r2 x y _ IH|r1 r2 x y _ IH|max r x
    |min max r x y z _ IH1 _ IH2]; cbn [anchor_free]; rewrite ?andb_true_iff; intros Ha; try done.
  - exists [c]. split; [done|]. intros b' t. exists false. by apply denotes_class.
  - destruct IH1 as (m1 & E1 & L1), IH2 as (m2 & E2 & L2); [tauto..|]. exists (m1 ++ m2).
    split; [by rewrite E1, E2, app_assoc|]. intros b t. rewrite <-app_assoc.
    destruct (L1 b (m2 ++ t)) as [b1 H1], (L2 b1 t) as [b2 H2]. exists b2. by eapply denotes_seq.
  - destruct IH as (m & E & L); [tauto|]. exists m. split; [done|]. intros b t.
    destruct (L b t) as [b' Hd]. exists b'. by apply denotes_left.
  - destruct IH as (m & E & L); [tauto|]. exists m. split; [done|]. intros b t.
    destruct (L b t) as [b' Hd]. exists b'. by apply denotes_right.
  - exists []. split; [done|]. intros b t. exists b. apply denotes_stop.
  - destruct IH1 as (m1 & E1 & L1), IH2 as (m2 & E2 & L2); [done..|]. exists (m1 ++ m2).
    split; [by rewrite E1, E2, app_assoc|]. intros b t. rewrite <-app_assoc.
    destruct (L1 b (m2 ++ t)) as [b1 H1], (L2 b1 t) as [b2 H2]. exists b2. by eapply denotes_more.
Qed.

Lemma matched_app m s : matched (m ++ s) s = m.
Proof.
  unfold matched. rewrite length_app.
  replace (length m + length s - length s)%nat with (length m) by lia. apply take_app_length.
Qed.

(** The runes of a string are its bytes. *)
Lemma rune_width_pos s : (0 < rune_width s)%nat.
Proof. unfold rune_width. repeat case_match; lia. Qed.

Lemma text_runes_fuel fuel s : (String.length s ≤ fuel)%nat → text (runes_fuel fuel s) = s.
Proof.
  revert s. induction fuel as [|fuel IH]; intros [|c s] Hf; try done; [cbn in Hf; lia|].
  cbn [runes_fuel text foldr]. fold (text (runes_fuel fuel (string_drop (rune_width (String c s)) (String c s)))).
  rewrite IH; [apply string_take_drop|].
  pose proof (rune_width_pos (String c s)) as Hw.
  destruct (rune_width (String c s)) as [|w]; [lia|]. cbn [string_drop].
  assert (Hd : ∀ n t, (String.length (string_drop n t) ≤ String.length t)%nat).
  { induction n as [|n IHn]; intros [|c' t]; cbn; try lia. rewrite IHn. lia. }
  rewrite Hd. cbn in Hf. lia.
Qed.

Lemma text_runes s : text (runes s) = s.
Proof. by apply text_runes_fuel. Qed.

Lemma text_app l1 l2 : text (l1 ++ l2) = text l1 +:+ text l2.
Proof. induction l1 as [|x l1 IH]; cbn; [done|]. unfold text in IH. by rewrite IH, append_assoc. Qed.
