(* ===== verification/Scrubber.v ===== *)
(** * Scrubbing addresses

    [pkg/scrubber/scrubber.go]: IP addresses and endpoints are removed from the text of
    errors before it is submitted. *)
From S2P Require Import Prelude GoString GoRegexp.
From Stdlib Require Import Ascii.

(** ** The patterns *)

Definition in_range (lo hi c : ascii) : bool := ((N_of_ascii lo <=? N_of_ascii c) && (N_of_ascii c <=? N_of_ascii hi))%N.

Definition is_digit (c : ascii) : bool := in_range "0" "9" c.
Definition is_hex (c : ascii) : bool := is_digit c || in_range "a" "f" c || in_range "A" "F" c.

(** [\w], [\s] *)
Definition is_word (c : ascii) : bool :=
  is_digit c || in_range "a" "z" c || in_range "A" "Z" c || Ascii.eqb c "_".
Definition is_space (c : ascii) : bool :=
  Ascii.eqb c " " || existsb (λ n, (N_of_ascii c =? n)%N) [9; 10; 12; 13]%N.

Definition digit : regex := RClass (ascii_class is_digit).
Definition hex : regex := RClass (ascii_class is_hex).
Definition space : regex := RClass (ascii_class is_space).

(** [[^\w:]]: any other rune. *)
Definition not_word_or_colon : regex :=
  RClass (λ rune, negb (ascii_class (λ c, is_word c || Ascii.eqb c ":") rune)).

Definition ipv4Address : regex :=
  let n := RRepeat 1 3 digit in
  let dot := RChar "." in
  RSeqs n [dot; n; dot; n; dot; n].

Definition colon : regex := RAlts (RChar ":") [RLit "%" "3a"; RLit "%" "3A"].

Definition hex4 : regex := RRepeat 0 4 hex.

Definition ipv6Address : regex := RSeq (RRepeat 5 7 (RSeq hex4 colon)) (ROpt hex4).

Definition ipv6Compressed : regex :=
  RSeqs (RRepeat 0 5 (RSeq hex4 colon))
    [ROpt hex4; RRepeat 2 2 colon; RRepeat 0 5 (RSeq hex4 colon); ROpt hex4].

Definition ipv6Full : regex :=
  RAlts (RSeq ipv6Address ipv4Address) [RSeq ipv6Compressed ipv4Address; ipv6Address; ipv6Compressed].

Definition optionalPort : regex := ROpt (RSeq (RChar ":") (RRepeat 1 5 digit)).

Definition addressPattern : regex :=
  RSeq (RAlts ipv4Address [RSeqs (RChar "[") [ipv6Full; RChar "]"]; ipv6Full]) optionalPort.

Definition fullAddrPattern : regex :=
  RSeqs (RAlts RBegin [space; not_word_or_colon])
    [addressPattern; RAlts space [RSeq (RChar ":") space; not_word_or_colon; REnd]].

(** ** Scrubbing *)

Definition scrubbed : list string := runes "[scrubbed]".

Definition scrubberPatterns : list regex := [fullAddrPattern].

Definition ScrubRunes (b : list string) : list string :=
  foldl (λ scrubbedBytes pattern,
    ReplaceAllFunc pattern (λ b, ReplaceAllFunc addressPattern (λ _, scrubbed) b) scrubbedBytes)
    b scrubberPatterns.

Definition ScrubString (s : string) : string := text (ScrubRunes (runes s)).

(** The examples of the unit tests. *)
Example scrub_logs :
  ScrubString "http: TLS handshake error from 129.97.208.23:38310: " = "http: TLS handshake error from [scrubbed]: " ∧
  ScrubString "(1:2:3:4:c:d:e:f) {1:2:3:4:c:d:e:f}" = "([scrubbed]) {[scrubbed]}" ∧
  ScrubString "2019/05/08 15:37:31 starting" = "2019/05/08 15:37:31 starting" ∧
  ScrubString "wss://snowflake.torproject.net/?client_ip=6201%3ac8%3A3004%3A%3A1234" =
    "wss://snowflake.torproject.net/?client_ip=[scrubbed]" ∧
  ScrubString "panic serving [1%3A2%3A3%3A%3Ad%3Ae%3Af]:55: xxx" = "panic serving [scrubbed]: xxx".
Proof. split_and!; vm_compute; reflexivity. Qed.

Example scrub_addresses :
  Forall (λ addr, ScrubString addr = "[scrubbed]")
    ["1.2.3.4"; "255.255.255.255:65535"; "1:2:3:4:c:d:e:f"; "[1111:2222:3333:4444:CCCC:DDDD:EEEE:FFFF]:65535";
     "::f"; "1:2:3::"; "1:2:3::d:e:f"; "1:2:3:d:e:f::"; "[1::]:58344"; "::ffff:255.255.255.255";
     "[::ffff:0:255.255.255.255]"; "[2001:db8:3:4::192.0.2.33]"].
Proof. repeat constructor; vm_compute; reflexivity. Qed.

(** ** What scrubbing does *)

(** What becomes of a delimited address: its leftmost address, which starts after
    at most the delimiter, is replaced by the marker, and so is every further address
    in what follows of it. *)
Definition hidden (m m' : list string) : Prop :=
  ∃ d1 address d2 b d2',
    m = d1 ++ address ++ d2 ∧ m' = d1 ++ scrubbed ++ d2' ∧ (length d1 ≤ 1)%nat ∧ address ≠ [] ∧
    no_match_in addressPattern true d1 (address ++ d2) ∧
    match_at addressPattern (begins true d1, address ++ d2) = Some (b, d2) ∧
    replaced addressPattern (λ _ marker, marker = scrubbed) b d2 d2'.

Lemma addressPattern_anchor_free : anchor_free addressPattern = true.
Proof. reflexivity. Qed.

(** A delimited address contains an address, after at most one rune. *)
Lemma full_contains_address b s y :
  denotes fullAddrPattern (b, s) y →
  ∃ d1 m d2, matched s y.2 = d1 ++ m ++ d2 ∧ (length d1 ≤ 1)%nat ∧
    ∀ b' t, ∃ b'', denotes addressPattern (b', m ++ t) (b'', t).
Proof.
  intros Hd. unfold fullAddrPattern in Hd. cbn [RSeqs] in Hd.
  inversion Hd as [| | |r1 r2 x0 x1 z0 Hd1 Hd23| | | |]; subst.
  inversion Hd23 as [| | |r1 r2 x2 x3 z1 Hd2 Hd3| | | |]; subst.
  destruct (denotes_suffix _ _ _ Hd1) as [d1 E1], (denotes_suffix _ _ _ Hd3) as [d2 E3].
  destruct (denotes_local _ _ _ Hd2 addressPattern_anchor_free) as (m & E2 & L).
  exists d1, m, d2. cbn in E1. split_and!; [rewrite E1, E2, E3, !app_assoc; apply matched_app| |done].
  assert (Hlen : (length s ≤ S (length x1.2))%nat).
  { clear -Hd1. cbn [RAlts] in Hd1. inversion Hd1 as [| | | |? ? ? ? H1|? ? ? ? H1| |]; subst.
    - inversion H1; subst. cbn. lia.
    - inversion H1 as [| | | |? ? ? ? H2|? ? ? ? H2| |]; subst; inversion H2; subst; cbn; lia. }
  rewrite E1, length_app in Hlen. lia.
Qed.

(** The prefix of a text before its first match. *)
Lemma no_match_before r pre m s pre' post y :
  no_match_in r true pre (m ++ s) → pre ++ m ++ s = pre' ++ post → denotes r (begins true pre', post) y →
  (length pre ≤ length pre')%nat.
Proof.
  intros Hn E Hd. destruct (decide (length pre ≤ length pre')%nat) as [|Hlt]; [done|]. exfalso.
  assert (Epre : pre = pre' ++ drop (length pre') pre).
  { rewrite <-(take_drop (length pre') pre) at 1. f_equal.
    apply (f_equal (take (length pre'))) in E. rewrite take_app_length in E.
    rewrite take_app_le in E by lia. done. }
  assert (Hne : drop (length pre') pre ≠ []).
  { intros E0. rewrite E0, app_nil_r in Epre. rewrite Epre in Hlt. lia. }
  apply (Hn _ _ y Epre Hne). rewrite Epre, <-!app_assoc in E. apply app_inv_head in E. by rewrite E.
Qed.

Lemma inner_hidden b m s b' :
  match_at fullAddrPattern (b, m ++ s) = Some (b', s) →
  hidden m (ReplaceAllFunc addressPattern (λ _, scrubbed) m).
Proof.
  intros Hm. apply match_at_Some, full_contains_address in Hm as (d1 & a & d2 & Em & Hd1 & L).
  cbn in Em. rewrite matched_app in Em. subst m.
  destruct (L (begins true d1) d2) as [b'' Ha].
  pose proof (ReplaceAllFunc_replaced addressPattern (λ _, scrubbed) (d1 ++ a ++ d2)
    ltac:(by vm_compute; lia)) as Hr.
  remember (d1 ++ a ++ d2) as m eqn:Em. remember (ReplaceAllFunc _ _ m) as m' eqn:Em'. clear Em'.
  remember true as b0 eqn:Eb in Hr. destruct Hr as [b0 m Hn Hend|b0 pre m0 s0 b1 m0' out Hn Hmatch Hne Hf Hout]; subst b0.
  - exfalso. destruct (decide (a ++ d2 = [])) as [E0|Hne].
    + rewrite E0, app_nil_r in Em. subst d1. rewrite E0 in Ha. by apply Hend in Ha.
    + apply (Hn d1 (a ++ d2) (b'', d2)); [done|done|]. by rewrite app_nil_r.
  - exists pre, m0, s0, b1, out. split_and!; [done|by rewrite Hf| |done|done|done|].
    + pose proof (no_match_before _ _ _ _ _ _ _ Hn Em Ha). lia.
    + eapply replaced_impl; [|exact Hout]. naive_solver.
Qed.

(** C39: scrubbing replaces every match of the pattern of delimited addresses, from
    the left: a text in which none occurs is not changed; otherwise what precedes
    the leftmost one is kept, in the delimited address that the package matches
    there the leftmost address becomes the marker (after at most the one
    rune of the delimiter), and the text after the match is scrubbed in the same way. *)
Theorem scrub_spec s :
  ∃ out, ScrubString s = text out ∧ replaced fullAddrPattern hidden true (runes s) out.
Proof.
  exists (ScrubRunes (runes s)). split; [done|]. unfold ScrubRunes, scrubberPatterns. cbn [foldl].
  eapply replaced_impl; [|apply ReplaceAllFunc_replaced; vm_compute; lia].
  intros b pre m s' b' m' Hm _ ->. by eapply inner_hidden.
Qed.

(** In particular: no delimited address, no change. *)
Lemma scrub_unchanged s :
  (∀ pre post y, runes s = pre ++ post → ¬ denotes fullAddrPattern (begins true pre, post) y) → ScrubString s = s.
Proof.
  intros Hno. unfold ScrubString, ScrubRunes, scrubberPatterns. cbn [foldl]. unfold ReplaceAllFunc at 1.
  rewrite replace_all_none; [apply text_runes|]. intros pre post y E. by apply Hno.
Qed.

(** The delimiter that ends an address is not available to start the next one:
    an address that follows after a single space stays in the text. *)
Theorem scrub_leak :
  ScrubString "dial 1.2.3.4 5.6.7.8 refused" = "dial [scrubbed] 5.6.7.8 refused".
Proof. vm_compute. reflexivity. Qed.
