(* ===== verification/NetErrors.v ===== *)
(** * Errors and failure strings

    [pkg/netxlite]: [errno.go], [errno_linux.go], [operations.go], [classify.go],
    [errwrapper.go], [quirks.go], and [pkg/measurexlite/failure.go].  Every error ends up in a
    measurement as a failure string of the OONI specification. *)
From S2P Require Import Prelude Failures GoString GoNet Bogon WebTitle GoRegexp Scrubber.
From Stdlib Require Import Ascii.

(** ** Error values of Go *)

(** The error numbers that [errno_linux.go] knows. *)
Inductive errno :=
  | ECONNREFUSED | ECONNRESET | EHOSTUNREACH | ETIMEDOUT | EAFNOSUPPORT | EADDRINUSE | EADDRNOTAVAIL
  | EISCONN | EFAULT | EBADF | ECONNABORTED | EALREADY | EDESTADDRREQ | EINTR | EINVAL | EMSGSIZE
  | ENETDOWN | ENETRESET | ENETUNREACH | ENOBUFS | ENOPROTOOPT | ENOTSOCK | ENOTCONN | EWOULDBLOCK
  | EACCES | EPROTONOSUPPORT | EPROTOTYPE | OtherErrno.

#[export] Instance errno_eq_dec : EqDecision errno.
Proof. solve_decision. Defined.

(** An error: a value without children (its identity, the values its [Is] method
    equates it to, its message), an error with a message of its own around another one, [errors.Join],
    [ErrGetaddrinfo] of [getaddrinfo.go], and the types that the classifiers look for; an error of
    [crypto/x509] holds the bytes of its certificate. *)
#[warnings="-register-all"]
Inductive error :=
  | ErrValue (id : string) (also : list string) (msg : string)
  | ErrAround (msg : string) (err : error)
  | ErrJoin (errs : list error)
  | ErrWrapper (Failure Operation : string) (WrappedErr : error)
  | ErrGetaddrinfo (Code : Z) (Underlying : error)
  | ErrErrno (n : errno) (msg : string)
  | ErrX509Hostname (msg raw : string)
  | ErrX509UnknownAuthority (msg raw : string)
  | ErrX509CertificateInvalid (msg raw : string)
  | ErrQUICVersionNegotiation (msg : string)
  | ErrQUICStatelessReset (msg : string)
  | ErrQUICHandshakeTimeout (msg : string)
  | ErrQUICIdleTimeout (msg : string)
  | ErrQUICTransport (ErrorCode : Z) (ErrorMessage msg : string).

(** [strings.Join(l, "\n")] *)
Definition newline : string := String (Ascii.ascii_of_N 10) "".
Fixpoint join_lines (l : list string) : string :=
  match l with
  | [] => ""
  | [s] => s
  | s :: l => s +:+ newline +:+ join_lines l
  end.

(** [err.Error()] *)
Fixpoint Error (err : error) : string :=
  match err with
  | ErrValue _ _ msg | ErrAround msg _ | ErrErrno _ msg | ErrX509Hostname msg _ | ErrX509UnknownAuthority msg _
  | ErrX509CertificateInvalid msg _ | ErrQUICVersionNegotiation msg | ErrQUICStatelessReset msg
  | ErrQUICHandshakeTimeout msg | ErrQUICIdleTimeout msg | ErrQUICTransport _ _ msg => msg
  | ErrJoin errs => join_lines (map Error errs)
  | ErrWrapper failure _ _ => failure
  | ErrGetaddrinfo _ err => Error err
  end.

(** The errors that [errors.Is] and [errors.As] visit, in order. *)
Fixpoint tree (err : error) : list error :=
  err ::
  match err with
  | ErrAround _ err => tree err
  | ErrWrapper _ _ err => tree err
  | ErrGetaddrinfo _ err => tree err
  | ErrJoin errs => concat (map tree errs)
  | _ => []
  end.

(** [errors.Is(err, target)] for a target compared by identity. *)
Definition errors_Is (err : error) (target : string) : bool :=
  existsb (λ e, match e with
                | ErrValue id also _ => bool_decide (id = target) || bool_decide (target ∈ also)
                | _ => false
                end) (tree err).

(** [errors.As]: the first error that [f] accepts. *)
Definition errors_As {A} (f : error → option A) (err : error) : option A := head (omap f (tree err)).

Definition as_ErrWrapper (e : error) : option (string * string * error) :=
  match e with ErrWrapper failure operation err => Some (failure, operation, err) | _ => None end.
Definition as_Errno (e : error) : option errno := match e with ErrErrno n _ => Some n | _ => None end.

(** Whether the error has a value of a type. *)
Definition has (f : error → bool) (err : error) : bool := existsb f (tree err).

(** ** [getaddrinfo.go] *)

Definition as_ErrGetaddrinfo (e : error) : option Z :=
  match e with ErrGetaddrinfo code _ => Some code | _ => None end.

Definition ErrorToGetaddrinfoRetvalOrZero (err : option error) : Z :=
  match err ≫= errors_As as_ErrGetaddrinfo with
  | Some code => code
  | None => 0
  end.

(** ** [errno_linux.go] *)

Definition errno_failure (n : errno) : string :=
  match n with
  | ECONNREFUSED => FailureConnectionRefused
  | ECONNRESET => FailureConnectionReset
  | EHOSTUNREACH => FailureHostUnreachable
  | ETIMEDOUT => FailureTimedOut
  | EAFNOSUPPORT => FailureAddressFamilyNotSupported
  | EADDRINUSE => FailureAddressInUse
  | EADDRNOTAVAIL => FailureAddressNotAvailable
  | EISCONN => FailureAlreadyConnected
  | EFAULT => FailureBadAddress
  | EBADF => FailureBadFileDescriptor
  | ECONNABORTED => FailureConnectionAborted
  | EALREADY => FailureConnectionAlreadyInProgress
  | EDESTADDRREQ => FailureDestinationAddressRequired
  | EINTR => FailureInterrupted
  | EINVAL => FailureInvalidArgument
  | EMSGSIZE => FailureMessageSize
  | ENETDOWN => FailureNetworkDown
  | ENETRESET => FailureNetworkReset
  | ENETUNREACH => FailureNetworkUnreachable
  | ENOBUFS => FailureNoBufferSpace
  | ENOPROTOOPT => FailureNoProtocolOption
  | ENOTSOCK => FailureNotASocket
  | ENOTCONN => FailureNotConnected
  | EWOULDBLOCK => FailureOperationWouldBlock
  | EACCES => FailurePermissionDenied
  | EPROTONOSUPPORT => FailureProtocolNotSupported
  | EPROTOTYPE => FailureWrongProtocolType
  | OtherErrno => ""
  end.

Definition classifySyscallError (err : error) : string :=
  match errors_As as_Errno err with
  | None => ""
  | Some n => errno_failure n
  end.

(** ** [operations.go] *)

Definition ResolveOperation : string := "resolve".
Definition ConnectOperation : string := "connect".
Definition DNSRoundTripOperation : string := "dns_round_trip".
Definition TLSHandshakeOperation : string := "tls_handshake".
Definition QUICHandshakeOperation : string := "quic_handshake".
Definition HTTPRoundTripOperation : string := "http_round_trip".
Definition TopLevelOperation : string := "top_level".

(** ** [classify.go] *)

Definition FailureUnknown : string := "unknown_failure".
Definition DNSNoSuchHostSuffix : string := "no such host".
Definition DNSServerMisbehavingSuffix : string := "server misbehaving".
Definition DNSNoAnswerSuffix : string := "no answer from DNS server".

(** The identities of the errors that are compared by identity. *)
Definition context_Canceled : string := "context.Canceled".
Definition ErrDNSBogon : error := ErrValue "ErrDNSBogon" [] "dns: detected bogon address".
Definition ErrOODNSRefused : error := ErrValue "ErrOODNSRefused" [] "ooniresolver: refused".
Definition ErrOODNSServfail : error := ErrValue "ErrOODNSServfail" [] "ooniresolver: servfail".
Definition ErrOODNSNoSuchHost : error :=
  ErrValue "ErrOODNSNoSuchHost" [] ("ooniresolver: " +:+ DNSNoSuchHostSuffix).
Definition ErrOODNSMisbehaving : error :=
  ErrValue "ErrOODNSMisbehaving" [] ("ooniresolver: " +:+ DNSServerMisbehavingSuffix).
Definition ErrOODNSNoAnswer : error :=
  ErrValue "ErrOODNSNoAnswer" [] ("ooniresolver: " +:+ DNSNoAnswerSuffix).
Definition ErrAndroidDNSCacheNoData : error :=
  ErrValue "ErrAndroidDNSCacheNoData" [] FailureAndroidDNSCacheNoData.

Definition classifyWithStringSuffix (err : error) : string :=
  let s := Error err in
  if HasSuffix s "operation was canceled" then FailureInterrupted
  else if HasSuffix s "EOF" then FailureEOFError
  else if HasSuffix s "context deadline exceeded" then FailureGenericTimeoutError
  else if HasSuffix s "transaction is timed out" then FailureGenericTimeoutError
  else if HasSuffix s "i/o timeout" then FailureGenericTimeoutError
  else if HasSuffix s "TLS handshake timeout" then FailureGenericTimeoutError
  else if HasSuffix s DNSNoSuchHostSuffix then FailureDNSNXDOMAINError
  else if HasSuffix s DNSServerMisbehavingSuffix then FailureDNSServerMisbehaving
  else if HasSuffix s DNSNoAnswerSuffix then FailureDNSNoAnswer
  else if HasSuffix s "use of closed network connection" then FailureConnectionAlreadyClosed
  else "".

(** [var errwrapper *ErrWrapper; if errors.As(err, &errwrapper) { return errwrapper.Error() }] *)
Definition already_wrapped (err : error) (classify : string) : string :=
  match errors_As as_ErrWrapper err with
  | Some (failure, _, _) => failure
  | None => classify
  end.

Definition ClassifyGenericError (err : error) : string :=
  already_wrapped err (
    if negb (bool_decide (classifySyscallError err = "")) then classifySyscallError err
    else if errors_Is err context_Canceled then FailureInterrupted
    else if negb (bool_decide (classifyWithStringSuffix err = "")) then classifyWithStringSuffix err
    else if bool_decide (Error err = FailureUnknown) then FailureUnknown
    else ScrubString (FailureUnknown +:+ ": " +:+ Error err)).

Definition quicTLSAlertHandshakeFailure : Z := 40.
Definition quicTLSAlertBadCertificate : Z := 42.
Definition quicTLSAlertUnsupportedCertificate : Z := 43.
Definition quicTLSAlertCertificateRevoked : Z := 44.
Definition quicTLSAlertCertificateExpired : Z := 45.
Definition quicTLSAlertCertificateUnknown : Z := 46.
Definition quicTLSAlertUnknownCA : Z := 48.
Definition quicTLSAlertDecryptError : Z := 51.
Definition quicTLSUnrecognizedName : Z := 112.

Definition quicIsCertificateError (alert : Z) : bool :=
  (alert =? quicTLSAlertBadCertificate) || (alert =? quicTLSAlertUnsupportedCertificate) ||
  (alert =? quicTLSAlertCertificateExpired) || (alert =? quicTLSAlertCertificateRevoked) ||
  (alert =? quicTLSAlertCertificateUnknown).

Section quic.
(** The transport error codes of the [quic-go] library. *)
Context (quic_ConnectionRefused quic_InternalError : Z).

(** What a transport error is classified as, if it is. *)
Definition classify_transport_error (ErrorCode : Z) (ErrorMessage : string) : string :=
  let errCode := ErrorCode mod 256 in
  if ErrorCode =? quic_ConnectionRefused then FailureConnectionRefused
  else if quicIsCertificateError errCode then FailureSSLInvalidCertificate
  else if (errCode =? quicTLSAlertDecryptError) || (errCode =? quicTLSAlertHandshakeFailure)
  then FailureSSLFailedHandshake
  else if errCode =? quicTLSAlertUnknownCA then FailureSSLUnknownAuthority
  else if errCode =? quicTLSUnrecognizedName then FailureSSLInvalidHostname
  else if ErrorCode =? quic_InternalError then failuresMap ErrorMessage
  else "".

Definition ClassifyQUICHandshakeError (err : error) : string :=
  already_wrapped err (
    if has (λ e, match e with ErrQUICVersionNegotiation _ => true | _ => false end) err then FailureQUICIncompatibleVersion
    else if has (λ e, match e with ErrQUICStatelessReset _ => true | _ => false end) err then FailureConnectionReset
    else if has (λ e, match e with ErrQUICHandshakeTimeout _ => true | _ => false end) err then FailureGenericTimeoutError
    else if has (λ e, match e with ErrQUICIdleTimeout _ => true | _ => false end) err then FailureGenericTimeoutError
    else
      match errors_As (λ e, match e with ErrQUICTransport code msg _ => Some (code, msg) | _ => None end) err with
      | Some (code, msg) =>
          let failure := classify_transport_error code msg in
          if negb (bool_decide (failure = "")) then failure else ClassifyGenericError err
      | None => ClassifyGenericError err
      end).
End quic.

Definition ClassifyResolverError (err : error) : string :=
  already_wrapped err (
    if errors_Is err "ErrDNSBogon" then FailureDNSBogonError
    else if errors_Is err "ErrOODNSRefused" then FailureDNSRefusedError
    else if errors_Is err "ErrOODNSServfail" then FailureDNSServfailError
    else if errors_Is err "ErrDNSReplyWithWrongQueryID" then FailureDNSReplyWithWrongQueryID
    else if errors_Is err "ErrAndroidDNSCacheNoData" then FailureAndroidDNSCacheNoData
    else ClassifyGenericError err).

Definition ClassifyTLSHandshakeError (err : error) : string :=
  already_wrapped err (
    if has (λ e, match e with ErrX509Hostname _ _ => true | _ => false end) err then FailureSSLInvalidHostname
    else if has (λ e, match e with ErrX509UnknownAuthority _ _ => true | _ => false end) err then FailureSSLUnknownAuthority
    else if has (λ e, match e with ErrX509CertificateInvalid _ _ => true | _ => false end) err then FailureSSLInvalidCertificate
    else if HasSuffix (Error err) "tls: unrecognized name" then FailureSSLInvalidHostname
    else if HasSuffix (Error err) "tls: alert(112)" then FailureSSLInvalidHostname
    else ClassifyGenericError err).

(** ** [errwrapper.go] *)

Definition classifyOperation (ew_Operation operation : string) : string :=
  if bool_decide (ew_Operation = ConnectOperation) then ew_Operation
  else if bool_decide (ew_Operation = HTTPRoundTripOperation) then ew_Operation
  else if bool_decide (ew_Operation = ResolveOperation) then ew_Operation
  else if bool_decide (ew_Operation = TLSHandshakeOperation) then ew_Operation
  else if bool_decide (ew_Operation = QUICHandshakeOperation) then ew_Operation
  else if bool_decide (ew_Operation = "quic_handshake_start") then QUICHandshakeOperation
  else if bool_decide (ew_Operation = "quic_handshake_done") then QUICHandshakeOperation
  else operation.

(** A nil classifier and a nil error are [None]. *)
Definition NewErrWrapper (c : option (error → string)) (op : string) (err : option error) : outcome error :=
  match err ≫= errors_As as_ErrWrapper, err with
  | Some (failure, operation, _), Some err =>
      Ok (ErrWrapper failure (classifyOperation operation op) err)
  | _, _ =>
      match c with
      | None => Panic "nil classifier"
      | Some c =>
          if bool_decide (op = "") then Panic "empty op"
          else
            match err with
            | None => Panic "nil err"
            | Some err => Ok (ErrWrapper (c err) op err)
            end
      end
  end.

Definition MaybeNewErrWrapper (c : option (error → string)) (op : string) (err : option error) :
    outcome (option error) :=
  match err with
  | Some _ => Some <$> NewErrWrapper c op err
  | None => Ok None
  end.

Definition NewTopLevelGenericErrWrapper (err : option error) : outcome error :=
  NewErrWrapper (Some ClassifyGenericError) TopLevelOperation err.

(** ** [measurexlite/failure.go] *)

Definition NewFailure (err : option error) : outcome (option string) :=
  match err with
  | None => Ok None
  | Some err =>
      errWrapper ← match errors_As as_ErrWrapper err with
        | Some w => Ok (Some w)
        | None => e ← NewTopLevelGenericErrWrapper (Some err); Ok (errors_As as_ErrWrapper e)
        end;
      match errWrapper with
      | None => Panic "we should have an ErrWrapper here"
      | Some (failure, _, _) =>
          if bool_decide (failure = "") then Ok (Some "unknown_failure: errWrapper.Failure is empty")
          else Ok (Some failure)
      end
  end.

(** ** [quirks.go] *)

Definition errReduceErrorsEmptyList : error :=
  ErrValue "errReduceErrorsEmptyList" [] "bug: reduceErrors given an empty list".

(** The first known error of a list. *)
Definition known_error (err : error) : bool :=
  negb (IsNone (errors_As as_ErrWrapper err)) && negb (HasPrefix (Error err) "unknown_failure").

Definition quirkReduceErrors (errorslist : list error) : error :=
  match errorslist with
  | [] => errReduceErrorsEmptyList
  | first :: _ =>
      match List.find known_error errorslist with
      | Some err => err
      | None => first
      end
  end.

Definition quirkSortIPAddrs (addrs : list string) : list string :=
  let keep (p : string → bool) (out : list string) :=
    foldl (λ out addr, if p addr then out ++ [addr] else out) out addrs in
  let valid addr := negb (IsNone (ParseIP addr)) in
  keep (λ addr, valid addr && isIPv6 addr) (keep (λ addr, valid addr && negb (isIPv6 addr)) []).

(** ** What failure strings look like

    Every classifier gives a failure of the specification or an unknown failure, and
    wrapping an error again keeps its failure and its major operation. *)

(** ** Scrubbing keeps the prefix of unknown failures *)

Lemma runes_fuel_ascii fuel c s :
  is_ascii c = true → runes_fuel (S fuel) (String c s) = String c "" :: runes_fuel fuel s.
Proof.
  intros Hc. assert (Hw : rune_width (String c s) = 1%nat).
  { unfold rune_width. destruct s as [|c1 rest]; [done|].
    assert (Hlo : ∀ lo hi, (128 <= lo)%N → byte_in lo hi c = false).
    { intros lo hi Hlo. unfold byte_in, is_ascii in *. apply N.ltb_lt in Hc.
      destruct (N.leb_spec lo (N_of_ascii c)); [lia|done]. }
    rewrite (Hlo 194%N 223%N) by lia. destruct rest as [|c2 rest]; [done|].
    rewrite (Hlo 224%N 239%N) by lia. destruct rest as [|c3 rest]; [done|].
    by rewrite (Hlo 240%N 244%N) by lia. }
  cbn [runes_fuel]. rewrite Hw. cbn [string_take string_drop]. by destruct s.
Qed.

Lemma runes_ascii p s :
  string_forallb is_ascii p = true → runes (p +:+ s) = runes p ++ runes s.
Proof.
  unfold runes. induction p as [|c p IH]; [done|]. intros Hp. cbn [string_forallb] in Hp.
  apply andb_true_iff in Hp as [Hc Hp]. rewrite append_cons. cbn [String.length].
  rewrite !runes_fuel_ascii by done. cbn [app]. by rewrite IH.
Qed.

(** A prefix in which nothing matches is copied. *)
Lemma replace_all_skip fuel r f b pre s :
  (∀ pre1 post1, pre = pre1 ++ post1 → post1 ≠ [] →
     match_at r (match pre1 with [] => b | _ => false end, post1 ++ s) = None) →
  (length pre ≤ fuel)%nat →
  ∃ rest, replace_all fuel r f (b, pre ++ s) = pre ++ rest.
Proof.
  revert b fuel. induction pre as [|c pre IH]; intros b fuel Hn Hf; [by eexists|].
  destruct fuel as [|fuel]; [cbn in Hf; lia|]. cbn [replace_all].
  rewrite (Hn [] (c :: pre)) by done. cbn [snd app].
  destruct (IH false fuel) as [rest ->]; [|cbn in Hf; lia|by exists rest].
  intros pre1 post1 -> Hp. specialize (Hn (c :: pre1) post1 eq_refl Hp). by destruct pre1.
Qed.

Lemma HasPrefix_text l rest p : text l = p → HasPrefix (text (l ++ rest)) p = true.
Proof. intros <-. rewrite text_app. apply HasPrefix_app. Qed.

(** No address starts inside of the prefix, whatever follows. *)
Lemma unknown_no_address (tail : list string) pre1 post1 :
  runes FailureUnknown = pre1 ++ post1 → post1 ≠ [] →
  match_at fullAddrPattern (match pre1 with [] => true | _ => false end, post1 ++ tail) = None.
Proof.
  intros E Hne. set (l := runes FailureUnknown) in *.
  assert (Hl : l = ["u"; "n"; "k"; "n"; "o"; "w"; "n"; "_"; "f"; "a"; "i"; "l"; "u"; "r"; "e"]) by by vm_compute.
  rewrite Hl in E. clear Hl l.
  do 15 (destruct pre1 as [|? pre1]; [cbn [app] in E; subst post1; vm_compute; reflexivity
                                     |cbn [app] in E; injection E as <- E]).
  destruct pre1, post1; done.
Qed.

Lemma scrub_unknown s : HasPrefix (ScrubString (FailureUnknown +:+ s)) FailureUnknown = true.
Proof.
  unfold ScrubString, ScrubRunes, scrubberPatterns. cbn [foldl]. unfold ReplaceAllFunc at 1.
  rewrite runes_ascii by by vm_compute.
  destruct (replace_all_skip (S (length (runes FailureUnknown ++ runes s))) fullAddrPattern
    (λ b, ReplaceAllFunc addressPattern (λ _, scrubbed) b) true (runes FailureUnknown) (runes s)) as [rest ->].
  - intros pre1 post1. apply unknown_no_address.
  - rewrite length_app. lia.
  - apply HasPrefix_text, text_runes.
Qed.

(** ** Failure strings *)

(** The strings that the specification allows. *)
Definition failure_ok (s : string) : Prop := s ∈ failures ∨ HasPrefix s FailureUnknown = true.

(** The wrappers inside of an error have such failures. *)
Definition wrappers_ok (err : error) : Prop :=
  ∀ failure operation e, ErrWrapper failure operation e ∈ tree err → failure_ok failure.

Lemma errors_As_Some {A} (f : error → option A) err a :
  errors_As f err = Some a → ∃ e, e ∈ tree err ∧ f e = Some a.
Proof. unfold errors_As. intros H%head_Some_elem_of. by apply list_elem_of_omap in H. Qed.

Lemma in_failures s : bool_decide (s ∈ failures) = true → failure_ok s.
Proof. intros H%bool_decide_eq_true. by left. Qed.

Lemma already_wrapped_ok err s :
  wrappers_ok err → (errors_As as_ErrWrapper err = None → failure_ok s) → failure_ok (already_wrapped err s).
Proof.
  intros Hw Hs. unfold already_wrapped. destruct (errors_As as_ErrWrapper err) as [[[failure op] e]|] eqn:E; [|by apply Hs].
  apply errors_As_Some in E as (w & Hin & E). destruct w; try done. cbn in E. injection E as -> -> ->. by eapply Hw.
Qed.

Lemma as_ErrWrapper_self failure operation e :
  errors_As as_ErrWrapper (ErrWrapper failure operation e) = Some (failure, operation, e).
Proof. done. Qed.

Ltac known_failure := by apply in_failures; vm_compute.

Lemma suffix_ok err : classifyWithStringSuffix err ≠ "" → failure_ok (classifyWithStringSuffix err).
Proof.
  unfold classifyWithStringSuffix. cbv zeta.
  repeat (destruct (HasSuffix _ _); [intros _; known_failure|]). done.
Qed.

Lemma errno_ok n : errno_failure n ≠ "" → failure_ok (errno_failure n).
Proof. destruct n; cbn [errno_failure]; first [intros _; known_failure | done]. Qed.

Lemma syscall_ok err : classifySyscallError err ≠ "" → failure_ok (classifySyscallError err).
Proof. unfold classifySyscallError. destruct (errors_As as_Errno err); [apply errno_ok|done]. Qed.

Lemma generic_ok err : wrappers_ok err → failure_ok (ClassifyGenericError err).
Proof.
  intros Hw. apply already_wrapped_ok; [done|]. intros _.
  destruct (bool_decide_reflect (classifySyscallError err = "")) as [_|Hne]; [cbn [negb]|by apply syscall_ok].
  destruct (errors_Is err context_Canceled); [known_failure|].
  destruct (bool_decide_reflect (classifyWithStringSuffix err = "")) as [_|Hne]; [cbn [negb]|by apply suffix_ok].
  destruct (bool_decide (Error err = FailureUnknown)); [by right|]. right. apply (scrub_unknown (": " +:+ Error err)).
Qed.

Lemma failuresMap_ok s : failuresMap s ≠ "" → failure_ok (failuresMap s).
Proof. unfold failuresMap. case_bool_decide; [by left|done]. Qed.

Lemma transport_ok refused internal code msg :
  classify_transport_error refused internal code msg ≠ "" → failure_ok (classify_transport_error refused internal code msg).
Proof.
  unfold classify_transport_error. cbv zeta.
  repeat (match goal with |- context [if ?b then _ else _] => destruct b end; [first [apply failuresMap_ok | intros _; known_failure]|]);
    first [done | apply failuresMap_ok].
Qed.

Lemma resolver_ok err : wrappers_ok err → failure_ok (ClassifyResolverError err).
Proof.
  intros Hw. pose proof (generic_ok err Hw) as Hg. apply already_wrapped_ok; [done|]. intros _.
  repeat (match goal with |- context [if ?b then _ else _] => destruct b end; [known_failure|]). done.
Qed.

Lemma tls_ok err : wrappers_ok err → failure_ok (ClassifyTLSHandshakeError err).
Proof.
  intros Hw. pose proof (generic_ok err Hw) as Hg. apply already_wrapped_ok; [done|]. intros _.
  repeat (match goal with |- context [if ?b then _ else _] => destruct b end; [known_failure|]). done.
Qed.

(** The failure that [NewFailure] returns; it never panics. *)
Definition failure_of (err : option error) : option string :=
  match NewFailure err with Ok failure => failure | Panic _ => None end.

Lemma NewFailure_Ok err : NewFailure err = Ok (failure_of err).
Proof.
  unfold failure_of. destruct err as [err|]; [|done]. unfold NewFailure, NewTopLevelGenericErrWrapper, NewErrWrapper.
  cbn [mbind option_bind]. destruct (errors_As as_ErrWrapper err) as [[[failure op] e]|] eqn:E; cbn [mbind outcome_bind].
  - by case_bool_decide.
  - rewrite (bool_decide_false (TopLevelOperation = "")) by done. cbn [mbind outcome_bind]. rewrite as_ErrWrapper_self.
    by case_bool_decide.
Qed.

Lemma failure_of_Some err : is_Some (failure_of (Some err)).
Proof.
  unfold failure_of, NewFailure, NewTopLevelGenericErrWrapper, NewErrWrapper.
  cbn [mbind option_bind]. destruct (errors_As as_ErrWrapper err) as [[[failure op] e]|] eqn:E; cbn [mbind outcome_bind].
  - case_bool_decide; by eexists.
  - rewrite (bool_decide_false (TopLevelOperation = "")) by done. cbn [mbind outcome_bind]. rewrite as_ErrWrapper_self.
    case_bool_decide; by eexists.
Qed.

Lemma failure_of_None err : failure_of err = None ↔ err = None.
Proof. destruct err as [err|]; [|done]. destruct (failure_of_Some err) as [f ->]. done. Qed.

Lemma failure_of_ok err f : wrappers_ok err → failure_of (Some err) = Some f → failure_ok f.
Proof.
  intros Hw. unfold failure_of, NewFailure, NewTopLevelGenericErrWrapper, NewErrWrapper.
  cbn [mbind option_bind]. destruct (errors_As as_ErrWrapper err) as [[[failure op] e]|] eqn:E; cbn [mbind outcome_bind].
  - apply errors_As_Some in E as (w & Hin & E). destruct w; try done. cbn in E. injection E as -> -> ->.
    case_bool_decide; intros [= <-]; [by right|by eapply Hw].
  - rewrite (bool_decide_false (TopLevelOperation = "")) by done. cbn [mbind outcome_bind]. rewrite as_ErrWrapper_self.
    case_bool_decide; intros [= <-]; [by right|by apply generic_ok].
Qed.

(** Wrapping an error with an operation and a classifier never panics, and keeps the failures inside. *)
Lemma NewErrWrapper_ok c op err :
  op ≠ "" → wrappers_ok err → failure_ok (c err) →
  ∃ e, NewErrWrapper (Some c) op (Some err) = Ok e ∧ wrappers_ok e ∧ is_Some (errors_As as_ErrWrapper e).
Proof.
  intros Hop Hw Hc. unfold NewErrWrapper. cbn [mbind option_bind].
  assert (Hin : ∀ f o, failure_ok f → wrappers_ok (ErrWrapper f o err)).
  { intros f o Hf f' o' e' Hin. cbn [tree] in Hin. apply elem_of_cons in Hin as [[= -> -> ->]|Hin]; [done|by eapply Hw]. }
  destruct (errors_As as_ErrWrapper err) as [[[failure o] e]|] eqn:E.
  - eexists. split_and!; [done| |by eexists]. apply Hin.
    apply errors_As_Some in E as (w & Hw' & E). destruct w; try done. cbn in E. injection E as -> -> ->. by eapply Hw.
  - rewrite bool_decide_false by done. eexists. split_and!; [done| |by eexists]. by apply Hin.
Qed.

(** When nothing inside is wrapped, the wrappers inside are fine. *)
Lemma unwrapped_ok err : errors_As as_ErrWrapper err = None → wrappers_ok err.
Proof.
  intros E failure op e Hin. exfalso. apply eq_None_not_Some in E. apply E. unfold errors_As.
  assert (Hin' : (failure, op, e) ∈ omap as_ErrWrapper (tree err)) by (apply list_elem_of_omap; eauto).
  destruct (omap as_ErrWrapper (tree err)); [by apply not_elem_of_nil in Hin'|by eexists].
Qed.

(** A failure of the first wrapper in the tree, and without one a failure of
    the specification or an unknown one. *)
Definition kept_or_ok (err : error) (s : string) : Prop :=
  match errors_As as_ErrWrapper err with
  | Some (failure, _, _) => s = failure
  | None => failure_ok s
  end.

Lemma already_wrapped_kept err s : (wrappers_ok err → failure_ok (already_wrapped err s)) → kept_or_ok err (already_wrapped err s).
Proof.
  unfold kept_or_ok, already_wrapped. destruct (errors_As as_ErrWrapper err) as [[[failure op] e]|] eqn:E; [done|].
  intros H. by apply H, unwrapped_ok.
Qed.

Lemma quic_ok refused internal err : wrappers_ok err → failure_ok (ClassifyQUICHandshakeError refused internal err).
Proof.
  intros Hw. pose proof (generic_ok err Hw) as Hg. apply already_wrapped_ok; [done|]. intros _.
  do 4 (match goal with |- context [if ?b then _ else _] => destruct b end; [known_failure|]).
  destruct (errors_As _ err) as [[code msg]|]; [|done]. cbv zeta.
  destruct (bool_decide_reflect (classify_transport_error refused internal code msg = "")) as [_|Hne]; [done|].
  by apply transport_ok.
Qed.

(** C38: for every error tree: when an error inside is already wrapped, each classifier returns the failure
    of the first wrapper as it is; otherwise it returns a failure string of the specification or one that
    starts with [unknown_failure]. So does [NewFailure], which never panics, returns nil only for a nil error
    and replaces the empty failure of a wrapper by an unknown failure. *)
Theorem failure_strings err refused internal :
  kept_or_ok err (ClassifyGenericError err) ∧ kept_or_ok err (ClassifyResolverError err) ∧
  kept_or_ok err (ClassifyTLSHandshakeError err) ∧ kept_or_ok err (ClassifyQUICHandshakeError refused internal err) ∧
  NewFailure None = Ok None ∧
  ∃ s, NewFailure (Some err) = Ok (Some s) ∧ s ≠ "" ∧
    match errors_As as_ErrWrapper err with
    | Some ("", _, _) => HasPrefix s FailureUnknown = true
    | _ => kept_or_ok err s
    end.
Proof.
  split_and!; [by apply already_wrapped_kept, generic_ok|by apply already_wrapped_kept, resolver_ok
              |by apply already_wrapped_kept, tls_ok|by apply already_wrapped_kept, quic_ok|done|].
  rewrite NewFailure_Ok. destruct (failure_of_Some err) as [s E]. exists s. rewrite E. split; [done|].
  pose proof (failure_of_ok err s) as Hok. revert E.
  unfold failure_of, NewFailure, NewTopLevelGenericErrWrapper, NewErrWrapper, kept_or_ok.
  cbn [mbind option_bind]. destruct (errors_As as_ErrWrapper err) as [[[failure op] e]|] eqn:Ew; cbn [mbind outcome_bind].
  - case_bool_decide as Hf; intros [= <-]; [by subst failure|]. split; [done|]. by destruct failure.
  - rewrite (bool_decide_false (TopLevelOperation = "")) by done. cbn [mbind outcome_bind]. rewrite as_ErrWrapper_self.
    pose proof (generic_ok err (unwrapped_ok err Ew)) as Hg.
    case_bool_decide as Hf; intros [= <-]; (split; [done|]); [by right|exact Hg].
Qed.

(** ** Wrapping an error several times *)

Definition major_operation (op : string) : bool :=
  bool_decide (op ∈ [ConnectOperation; HTTPRoundTripOperation; ResolveOperation;
                     TLSHandshakeOperation; QUICHandshakeOperation]).

(** The operation after another layer: a major one stays. *)
Definition next_operation (current op : string) : string :=
  if major_operation current then current
  else if bool_decide (current ∈ ["quic_handshake_start"; "quic_handshake_done"]) then QUICHandshakeOperation
  else op.

Lemma classifyOperation_next current op : classifyOperation current op = next_operation current op.
Proof.
  unfold classifyOperation, next_operation, major_operation.
  repeat case_bool_decide; subst; set_solver.
Qed.

(** The layers around an error, from the inside. *)
Definition wrap_layers (err : error) (layers : list ((error → string) * string)) : outcome error :=
  foldM (λ err '(c, op), NewErrWrapper (Some c) op (Some err)) err layers.

Lemma wrap_layers_cons err c op layers :
  wrap_layers err ((c, op) :: layers) = (err ← NewErrWrapper (Some c) op (Some err); wrap_layers err layers).
Proof. done. Qed.

Lemma NewErrWrapper_fresh c op err :
  errors_As as_ErrWrapper err = None → op ≠ "" → NewErrWrapper (Some c) op (Some err) = Ok (ErrWrapper (c err) op err).
Proof. intros Herr Hop. unfold NewErrWrapper. simpl. rewrite Herr. by rewrite bool_decide_false. Qed.

Lemma NewErrWrapper_again c op failure operation e :
  NewErrWrapper (Some c) op (Some (ErrWrapper failure operation e)) =
  Ok (ErrWrapper failure (next_operation operation op) (ErrWrapper failure operation e)).
Proof. unfold NewErrWrapper. simpl. by rewrite classifyOperation_next. Qed.

(** Wrapping an error that is not wrapped yet by any number of layers gives
    the failure of the innermost layer's classifier, which is the only one consulted, and the
    operation of the innermost layer with a major operation, or of the outermost layer if there is none. *)
Theorem wrapping_keeps_failure err c op layers (Herr : errors_As as_ErrWrapper err = None) (Hop : op ≠ "") :
  ∃ inner, wrap_layers err ((c, op) :: layers) =
           Ok (ErrWrapper (c err) (foldl next_operation op layers.*2) inner).
Proof.
  rewrite wrap_layers_cons, NewErrWrapper_fresh by done. cbn [mbind outcome_bind].
  generalize (c err). intros failure. clear Herr Hop. revert op err.
  induction layers as [|[c' op'] layers IH]; intros op err; [by eexists|].
  rewrite wrap_layers_cons, NewErrWrapper_again. exact (IH _ _).
Qed.

Lemma wrapping_keeps_failure_witness :
  let err := ErrErrno ECONNREFUSED "connection refused" in
  errors_As as_ErrWrapper err = None ∧ ConnectOperation ≠ "" ∧
  ∃ inner, wrap_layers err [(ClassifyGenericError, ConnectOperation); (ClassifyTLSHandshakeError, TopLevelOperation)] =
    Ok (ErrWrapper "connection_refused" "connect" inner).
Proof.
  intros err. assert (H1 : errors_As as_ErrWrapper err = None) by reflexivity.
  assert (H2 : ConnectOperation ≠ "") by discriminate.
  split; [exact H1|]. split; [exact H2|].
  exact (wrapping_keeps_failure err ClassifyGenericError ConnectOperation [(ClassifyTLSHandshakeError, TopLevelOperation)] H1 H2).
Defined.
