(* ===== verification/GoHTTP.v ===== *)
(** * Time, HTTP messages and TLS states

    What the code uses of [time], [net/http] and [crypto/tls]. *)
From S2P Require Import Prelude GoString GoFloat GoURL NetErrors.
From Stdlib Require Import SpecFloat Ascii.

(** ** [time]: an instant and a duration are counts of nanoseconds *)

Abbreviation Time := Z.
Abbreviation Duration := Z.

Definition minDuration : Duration := - 2 ^ 63.
Definition maxDuration : Duration := 2 ^ 63 - 1.

(** [t.Sub(u)] saturates. *)
Definition time_Sub (t u : Time) : Duration := Z.max minDuration (Z.min maxDuration (t - u)).

Definition float64_add (a b : float64) : float64 := SFadd float64_prec float64_emax a b.

(** [d.Seconds()] *)
Definition Seconds (d : Duration) : float64 :=
  let sec := Z.quot d 1000000000 in
  let nsec := Z.rem d 1000000000 in
  float64_add (float64_of_int sec) (float64_div (float64_of_int nsec) (float64_of_int 1000000000)).

(** ** [crypto/tls] *)

(** [PeerCertificates] are the raw bytes of the certificates. *)
Record ConnectionState := mkState {
  state_Version : Z;
  state_CipherSuite : Z;
  state_NegotiatedProtocol : string;
  state_PeerCertificates : list string;
}.

Definition empty_ConnectionState : ConnectionState := mkState 0 0 "" [].

(** [RootCAs] is whether the pool is set. *)
Record tls_Config := mkTLSConfig {
  cfg_NextProtos : list string;
  cfg_ServerName : string;
  cfg_InsecureSkipVerify : bool;
  cfg_RootCAs : bool;
}.

(** ** [net/http] *)

Abbreviation Header := (gmap string (list string)).

(** [h.Get] and [h.Set] of a canonical key. *)
Definition header_Get (h : Header) (key : string) : string :=
  match h !! key with
  | Some (value :: _) => value
  | _ => ""
  end.

Definition header_Set (h : Header) (key value : string) : Header := <[key := [value]]> h.

Record Request := mkRequest {
  r_Method : string;
  r_URL : URL;
  r_Header : Header;
  r_Host : string;
}.

(** The body is read apart; [Request] is nil for a response that was made by hand. *)
Record Response := mkResponse {
  StatusCode : Z;
  r_RespHeader : Header;
  r_Request : option Request;
}.

Definition ErrNoLocation : error := ErrValue "ErrNoLocation" [] "http: no Location header in response".

(** [resp.Location()]: [parse_error] gives the error of [url.Parse] for a string that it refuses. *)
Definition Location (parse_error : string → error) (resp : Response) : result error URL :=
  let lv := header_Get (r_RespHeader resp) "Location" in
  if String.eqb lv "" then Err ErrNoLocation
  else
    match (match r_Request resp with
           | Some req => url_Parse_ref (r_URL req) lv
           | None => url_Parse lv
           end) with
    | Some u => Val u
    | None => Err (parse_error lv)
    end.

(** [removeEmptyPort]: a colon at the end without a port. *)
Definition removeEmptyPort (host : string) : string :=
  if (match LastIndexByte host ":" with
      | Some i => match LastIndexByte host "]" with Some j => (j <? i)%nat | None => true end
      | None => false
      end) then (if HasSuffix host ":" then string_take (String.length host - 1) host else host)
  else host.

(** [http.NewRequestWithContext] with the method GET, no body and a context that is not nil. *)
Definition NewRequest (parse_error : string → error) (rawURL : string) : result error Request :=
  match url_Parse rawURL with
  | None => Err (parse_error rawURL)
  | Some u =>
      let u := u <| Host := removeEmptyPort (Host u) |> in
      Val (mkRequest "GET" u ∅ (Host u))
  end.
