(* ===== verification/LteFlow.v ===== *)
(** * Web Connectivity LTE: the algorithms it shares

    [pkg/webconnectivityalgo]: which DNS-over-HTTPS server to use and when, which DNS-over-UDP
    server, and the cache of the addresses from which resolvers query.  Random
    numbers and the clock are arguments. *)
From S2P Require Import Prelude Failures GoString GoNet GoURL Archival Bogon PipeSet Observation.
From S2P Require Import LteTestKeys LtePriority NetErrors GoHTTP.
From Stdlib Require Import Ascii.

(** ** [dnsoverhttps.go] *)

(** The zero time is [None]. *)
Record OpportunisticDNSOverHTTPSURLProvider := mkProvider {
  doh_interval : Duration;
  doh_t : option Time;
  doh_urls : list string;
}.

Definition NewOpportunisticDNSOverHTTPSURLProvider (urls : list string) : OpportunisticDNSOverHTTPSURLProvider :=
  mkProvider 0 None urls.

(** [shuffle] permutes the URLs, [random] is [rnd.Uint32()]; their sum is the one of [uint32]. *)
Definition MaybeNextURL (now : Time) (shuffle : list string → list string) (random : Z)
    (o : OpportunisticDNSOverHTTPSURLProvider) : option string * OpportunisticDNSOverHTTPSURLProvider :=
  if (0 <? length (doh_urls o))%nat &&
     match doh_t o with None => true | Some t => doh_interval o <? time_Sub now t end then
    let urls := shuffle (doh_urls o) in
    (head urls, mkProvider ((20 + random mod 20) mod 2 ^ 32 * 1000000000) (Some now) urls)
  else (None, o).

(** ** [dnsoverudp.go] *)

Definition dnsOverUDPResolverAddressIPv4 : list string :=
  ["8.8.8.8"; "8.8.4.4"; "9.9.9.9"; "149.112.112.112"; "1.1.1.1"; "1.0.0.1"; "208.67.222.222"; "208.67.220.220"].

(** [random n] is [rand.Intn(n)]. *)
Definition RandomDNSOverUDPResolverEndpointIPv4 (random : nat → nat) : outcome string :=
  match dnsOverUDPResolverAddressIPv4 !! random (length dnsOverUDPResolverAddressIPv4) with
  | Some addr => Ok (JoinHostPort addr "53")
  | None => Panic "index out of range"
  end.

(** ** [dnswhoami.go] *)

Record dnsWhoamiInfoTimedEntry := mkTimedEntry { timed_Addr : string; timed_T : Time }.

Abbreviation DNSWhoamiService := (gmap string dnsWhoamiInfoTimedEntry).

Definition whoami_validity : Duration := 45 * 1000000000.

Definition lockAndGet (svc : DNSWhoamiService) (now : Time) (serverAddr : string) : option DNSWhoamiInfoEntry :=
  match svc !! serverAddr with
  | None => None
  | Some entry =>
      if whoami_validity <? time_Sub now (timed_T entry) then None else Some {| whoami_Address := timed_Addr entry |}
  end.

Definition lockAndUpdate (svc : DNSWhoamiService) (now : Time) (serverAddr whoamiAddr : string) : DNSWhoamiService :=
  <[serverAddr := mkTimedEntry whoamiAddr now]> svc.

(** What [lookup] returns after its lookup: the entries and the address to remember. *)
Definition whoami_result (res : result error (list string)) : list DNSWhoamiInfoEntry * option string :=
  match res with
  | Err _ => ([], None)
  | Val addrs =>
      match addrs with
      | [] => ([], None)
      | addr :: _ => ([{| whoami_Address := addr |}], Some addr)
      end
  end.

(** ** Web Connectivity LTE: redirects, identifiers, tags, filters and the control

    The small components of [pkg/experiment/webconnectivitylte] that the flows
    share: [redirects.go], [idgenerator.go], [dnscache.go], [tags.go],
    [ipfiltering.go], the status test of [httpredirect.go] and [control.go].
    Atomic counters and locked maps are explicit state: each method is one
    atomic update. *)

(** ** Redirects *)

Record NumRedirects := { nr_count : Z }.

Definition NewNumRedirects (n : Z) : NumRedirects := {| nr_count := wrap64 (0 + n) |}.

Definition CanFollowOneMoreRedirect (nr : NumRedirects) : bool * NumRedirects :=
  let count := wrap64 (nr_count nr - 1) in
  (0 <=? count, {| nr_count := count |}).

(** The answers of [k] calls, by whatever goroutines. *)
Fixpoint ask_redirects (k : nat) (nr : NumRedirects) : list bool :=
  match k with
  | O => []
  | S k => let '(b, nr) := CanFollowOneMoreRedirect nr in b :: ask_redirects k nr
  end.

Definition httpRedirectIsRedirect (StatusCode : Z) : bool :=
  (StatusCode =? 301) || (StatusCode =? 302) || (StatusCode =? 307) || (StatusCode =? 308).

(** ** Identifiers *)

Definition idGeneratorGetaddrinfoOffset : Z := 10000.
Definition idGeneratorDNSOverUDPOffset : Z := 20000.
Definition idGeneratorDNSOverHTTPSOffset : Z := 30000.
Definition idGeneratorEndpointCleartextOffset : Z := 40000.
Definition idGeneratorEndpointSecureOffset : Z := 50000.

Record IDGenerator := mkIDGenerator {
  id_getaddrinfo : Z;
  id_dnsOverUDP : Z;
  id_dnsOverHTTPS : Z;
  id_endpointCleartext : Z;
  id_endpointSecure : Z;
}.

Definition NewIDGenerator : IDGenerator := mkIDGenerator 0 0 0 0 0.

Definition NewIDForGetaddrinfo (idgen : IDGenerator) : Z * IDGenerator :=
  let n := wrap64 (id_getaddrinfo idgen + 1) in
  (wrap64 (n + idGeneratorGetaddrinfoOffset), idgen <| id_getaddrinfo := n |>).

Definition NewIDForDNSOverUDP (idgen : IDGenerator) : Z * IDGenerator :=
  let n := wrap64 (id_dnsOverUDP idgen + 1) in
  (wrap64 (n + idGeneratorDNSOverUDPOffset), idgen <| id_dnsOverUDP := n |>).

Definition NewIDForDNSOverHTTPS (idgen : IDGenerator) : Z * IDGenerator :=
  let n := wrap64 (id_dnsOverHTTPS idgen + 1) in
  (wrap64 (n + idGeneratorDNSOverHTTPSOffset), idgen <| id_dnsOverHTTPS := n |>).

Definition NewIDForEndpointCleartext (idgen : IDGenerator) : Z * IDGenerator :=
  let n := wrap64 (id_endpointCleartext idgen + 1) in
  (wrap64 (n + idGeneratorEndpointCleartextOffset), idgen <| id_endpointCleartext := n |>).

Definition NewIDForEndpointSecure (idgen : IDGenerator) : Z * IDGenerator :=
  let n := wrap64 (id_endpointSecure idgen + 1) in
  (wrap64 (n + idGeneratorEndpointSecureOffset), idgen <| id_endpointSecure := n |>).

(** ** The DNS cache *)

Record DNSCache := { cache_values : gmap string (list DNSEntry) }.

Definition NewDNSCache : DNSCache := {| cache_values := ∅ |}.

Definition cache_Get (c : DNSCache) (domain : string) : list DNSEntry * bool :=
  (default [] (cache_values c !! domain), negb (IsNone (cache_values c !! domain))).

Definition cache_Set (c : DNSCache) (domain : string) (values : list DNSEntry) : DNSCache :=
  {| cache_values := <[domain := values]> (cache_values c) |}.

(** ** Tags *)

(** [ps] is nil when the flow may not fetch the body. *)
Definition generateTagsForEndpoints {PS} (depth : Z) (ps : option PS) (classic : bool) : list string :=
  (if classic then ["classic"] else []) ++
  (if depth <? 1 then ["tcptls_experiment"] else []) ++
  ["depth=" +:+ Itoa depth] ++
  ["fetch_body=" +:+ format_bool (negb (IsNone ps))].

(** ** Endpoints that may be contacted *)

Definition errNotAllowedToConnect : string := "webconnectivity: not allowed to connect".

(** The error wraps [errNotAllowedToConnect]; [None] is nil. *)
Definition allowedToConnect (endpoint : string) : option string :=
  match SplitHostPort endpoint with
  | Err err => Some (errNotAllowedToConnect +:+ ": " +:+ addr_error err endpoint)
  | Val (addr, _) =>
      if IsLoopback addr then Some (errNotAllowedToConnect +:+ ": is loopback") else None
  end.

(** ** The control *)

(** The endpoints that the test helper is asked to measure. *)
Definition control_endpoints (URL : URL) (Addresses : list string) : list string :=
  Addresses ≫= λ address,
    let port := Port URL in
    if negb (String.eqb port "") then [JoinHostPort address port]
    else [JoinHostPort address "443"; JoinHostPort address "80"].

(** [model.HTTPHeaderAccept], [HTTPHeaderAcceptLanguage] and
    [HTTPHeaderUserAgent] are arguments; [URLString] is [c.URL.String()]. *)
Definition control_request (accept language agent URLString : string) (URL : URL)
    (Addresses : list string) : THRequest := {|
  thr_HTTPRequest := URLString;
  thr_HTTPRequestHeaders :=
    {[ "Accept" := [accept]; "Accept-Language" := [language]; "User-Agent" := [agent] ]};
  thr_TCPConnect := control_endpoints URL Addresses;
  thr_XQUICEnabled := false;
|}.

Definition inProbe : Z := Z.shiftl 1 0.
Definition inTH : Z := Z.shiftl 1 1.

Definition classify_addrs (bit : Z) (mapping : gmap string Z) (addrs : list string) : gmap string Z :=
  foldl (λ mapping addr, <[addr := Z.lor (default 0 (mapping !! addr)) bit]> mapping) mapping addrs.

(** The addresses that both flows of [maybeStartExtraMeasurements] are started
    with, in the order of the iteration over the map. *)
Definition maybeStartExtraMeasurements `{RangeOrder} (Addresses thAddrs : list string) : list DNSEntry :=
  let mapping := classify_addrs inTH (classify_addrs inProbe ∅ Addresses) thAddrs in
  let thOnlyAddrs :=
    (filter (λ '(addr, flags), Z.land flags inProbe = 0) (range_map 21 mapping)).*1 in
  map (λ addr, {| entry_Addr := addr; entry_Flags := 0 |}) thOnlyAddrs.
