(* ===== verification/LteFlowFacts.v ===== *)
(** * Web Connectivity LTE: redirects, identifiers, tags and extra measurements *)
From S2P Require Import Prelude Failures GoString GoNet GoURL Archival Bogon PipeSet Observation.
From S2P Require Import LteTestKeys.
From S2P Require Import LtePriority LteFlow.
From Stdlib Require Import Ascii.

(** ** Redirects *)

Lemma ask_redirects_from k n :
  int64_min ≤ n - Z.of_nat k → n ≤ int64_max →
  ask_redirects k {| nr_count := n |} =
    replicate (k `min` Z.to_nat n) true ++ replicate (k - Z.to_nat n) false.
Proof.
  revert n. induction k as [|k IH]; intros n Hlo Hhi; [done|]. cbn [ask_redirects CanFollowOneMoreRedirect nr_count].
  rewrite wrap64_id by (unfold is_int64, int64_min, int64_max in *; lia).
  rewrite IH by (unfold int64_min, int64_max in *; lia).
  destruct (Z.leb_spec 0 (n - 1)).
  - replace (Z.to_nat n) with (S (Z.to_nat (n - 1))) by lia. by rewrite <-Nat.succ_min_distr.
  - replace (Z.to_nat n) with 0%nat by lia. replace (Z.to_nat (n - 1)) with 0%nat by lia.
    by rewrite !Nat.min_0_r, Nat.sub_0_r.
Qed.

(** With a budget of [n] redirects, whatever goroutines ask, the first [n]
    requests are granted and the following ones are not, as long as fewer than
    2^63 requests are made beyond the budget (then the counter would wrap). *)
Theorem redirects_bounded n k
    (Hn : 0 ≤ n ≤ int64_max) (Hk : Z.of_nat k ≤ n + 2 ^ 63) :
  ask_redirects k (NewNumRedirects n) =
    replicate (k `min` Z.to_nat n) true ++ replicate (k - Z.to_nat n) false.
Proof.
  unfold NewNumRedirects. rewrite Z.add_0_l, wrap64_id by (unfold is_int64, int64_min, int64_max in *; lia).
  apply ask_redirects_from; unfold int64_min, int64_max in *; lia.
Qed.

Lemma redirects_bounded_witness :
  ask_redirects 12 (NewNumRedirects 10) = replicate 10 true ++ replicate 2 false.
Proof. exact (redirects_bounded 10 12 ltac:(unfold int64_max; lia) ltac:(lia)). Defined.

(** ** Identifiers *)

Inductive id_kind := KGetaddrinfo | KDNSOverUDP | KDNSOverHTTPS | KEndpointCleartext | KEndpointSecure.

#[export] Instance id_kind_eq_dec : EqDecision id_kind.
Proof. solve_decision. Defined.

Definition NewID (k : id_kind) (idgen : IDGenerator) : Z * IDGenerator :=
  match k with
  | KGetaddrinfo => NewIDForGetaddrinfo idgen
  | KDNSOverUDP => NewIDForDNSOverUDP idgen
  | KDNSOverHTTPS => NewIDForDNSOverHTTPS idgen
  | KEndpointCleartext => NewIDForEndpointCleartext idgen
  | KEndpointSecure => NewIDForEndpointSecure idgen
  end.

(** The namespace of a kind starts after its offset. *)
Definition offset (k : id_kind) : Z :=
  match k with
  | KGetaddrinfo => 10000
  | KDNSOverUDP => 20000
  | KDNSOverHTTPS => 30000
  | KEndpointCleartext => 40000
  | KEndpointSecure => 50000
  end.

Definition counter (k : id_kind) (idgen : IDGenerator) : Z :=
  match k with
  | KGetaddrinfo => id_getaddrinfo idgen
  | KDNSOverUDP => id_dnsOverUDP idgen
  | KDNSOverHTTPS => id_dnsOverHTTPS idgen
  | KEndpointCleartext => id_endpointCleartext idgen
  | KEndpointSecure => id_endpointSecure idgen
  end.

(** The IDs that a sequence of calls returns, with the method called. *)
Fixpoint new_ids (kinds : list id_kind) (idgen : IDGenerator) : list (id_kind * Z) :=
  match kinds with
  | [] => []
  | k :: kinds => let '(id, idgen) := NewID k idgen in (k, id) :: new_ids kinds idgen
  end.

Definition calls (k : id_kind) (kinds : list id_kind) : Z := Z.of_nat (length (filter (k =.) kinds)).

Lemma NewID_spec k idgen :
  0 ≤ counter k idgen < 2 ^ 62 →
  (NewID k idgen).1 = offset k + counter k idgen + 1 ∧
  ∀ k', counter k' (NewID k idgen).2 = counter k' idgen + (if decide (k = k') then 1 else 0).
Proof.
  intros Hc.
  assert (Hw : ∀ z, 0 ≤ z < 2 ^ 63 → wrap64 z = z)
    by (intros; apply wrap64_id; unfold is_int64, int64_min, int64_max; lia).
  split.
  - destruct k; cbn in Hc |- *; rewrite (Hw (_ + 1)) by lia; rewrite Hw;
      unfold idGeneratorGetaddrinfoOffset, idGeneratorDNSOverUDPOffset, idGeneratorDNSOverHTTPSOffset,
        idGeneratorEndpointCleartextOffset, idGeneratorEndpointSecureOffset in *; lia.
  - intros k'. destruct (decide (k = k')) as [<-|Hne].
    + destruct k; cbn [counter NewID snd] in Hc |- *; apply Hw; lia.
    + rewrite Z.add_0_r. by destruct k, k'.
Qed.

Lemma calls_cons k k' kinds : calls k (k' :: kinds) = (if decide (k = k') then 1 else 0) + calls k kinds.
Proof. unfold calls. rewrite filter_cons. destruct (decide (k = k')); cbn [length]; lia. Qed.

Lemma new_ids_range kinds idgen :
  (∀ k, 0 ≤ counter k idgen ∧ counter k idgen + calls k kinds ≤ 10000) →
  (∀ k id, (k, id) ∈ new_ids kinds idgen →
     offset k + counter k idgen < id ≤ offset k + counter k idgen + calls k kinds) ∧
  NoDup (new_ids kinds idgen).*2.
Proof.
  revert idgen. induction kinds as [|k kinds IH]; intros idgen Hc; cbn [new_ids].
  { split; [by intros ? ? ?%not_elem_of_nil|constructor]. }
  pose proof (Hc k) as Hck. assert (0 ≤ calls k kinds) by (unfold calls; lia).
  rewrite calls_cons, decide_True in Hck by done.
  destruct (NewID_spec k idgen) as [Hid Hcount]; [lia|]. destruct (NewID k idgen) as [id idgen']. cbn in Hid, Hcount.
  destruct (IH idgen') as [Hrange Hnd].
  { intros k'. rewrite Hcount. pose proof (Hc k') as Hk'. rewrite calls_cons in Hk'.
    destruct (decide (k' = k)), (decide (k = k')); simplify_eq; lia. }
  split.
  - intros k' id' [[= -> ->]|Hin]%elem_of_cons.
    + rewrite calls_cons, decide_True by done. lia.
    + apply Hrange in Hin. rewrite Hcount in Hin. rewrite calls_cons.
      destruct (decide (k' = k)), (decide (k = k')); simplify_eq; lia.
  - rewrite fmap_cons. apply NoDup_cons. split; [|done].
    intros ([k' id'] & Heq & Hin)%list_elem_of_fmap. cbn in Heq. subst id'. apply Hrange in Hin.
    rewrite Hcount in Hin. pose proof (Hc k') as Hk'. rewrite calls_cons in Hk'.
    destruct (decide (k = k')) as [<-|Hne]; [lia|]. rewrite decide_False in Hk' by congruence.
    destruct k, k'; try congruence; cbn [offset] in *; lia.
Qed.

(** As long as no method is called more than ten thousand times, the IDs
    are distinct, whatever the order of the calls, and each one lies in
    the namespace of its method; the next call of a method can
    return an ID of another namespace. *)
Theorem ids_distinct kinds (Hcalls : ∀ k, calls k kinds ≤ 10000) :
  let ids := new_ids kinds NewIDGenerator in
  NoDup ids.*2 ∧ (∀ k id, (k, id) ∈ ids → offset k < id ≤ offset k + 10000) ∧
  (NewID KGetaddrinfo (mkIDGenerator 10000 0 0 0 0)).1 = (NewID KDNSOverUDP NewIDGenerator).1.
Proof.
  intros ids. destruct (new_ids_range kinds NewIDGenerator) as [Hrange Hnd].
  { intros k. pose proof (Hcalls k). destruct k; cbn; lia. }
  split_and!; [done| |done]. intros k id Hin. apply Hrange in Hin. pose proof (Hcalls k).
  destruct k; cbn in *; lia.
Qed.

Lemma ids_distinct_witness :
  NoDup (new_ids [KGetaddrinfo; KDNSOverUDP; KGetaddrinfo] NewIDGenerator).*2 ∧
  (new_ids [KGetaddrinfo; KDNSOverUDP; KGetaddrinfo] NewIDGenerator).*2 = [10001; 20001; 10002].
Proof.
  split; [|done]. refine (proj1 (ids_distinct [KGetaddrinfo; KDNSOverUDP; KGetaddrinfo] _)).
  intros []; vm_compute; discriminate.
Defined.

(** ** Tags *)

(** The analysis reads back, from the tags of an endpoint, the depth and the
    permission to fetch the body that the flow was started with. *)
Theorem tags_roundtrip {PS} depth (ps : option PS) classic (Hdepth : is_int64 depth) :
  let tags := generateTagsForEndpoints depth ps classic in
  utilsExtractTagDepth tags = Some depth ∧
  utilsExtractTagFetchBody tags = Some (negb (IsNone ps)).
Proof.
  intros tags. subst tags. unfold generateTagsForEndpoints.
  assert (Hd : utilsExtractTagDepth ["depth=" +:+ Itoa depth; "fetch_body=" +:+ format_bool (negb (IsNone ps))] =
    Some depth).
  { unfold utilsExtractTagDepth. cbn [foldl]. rewrite HasPrefix_app, TrimPrefix_app, ParseInt64_Itoa by done.
    by destruct ps. }
  assert (Hf : utilsExtractTagFetchBody ["depth=" +:+ Itoa depth; "fetch_body=" +:+ format_bool (negb (IsNone ps))] =
    Some (negb (IsNone ps))).
  { unfold utilsExtractTagFetchBody. cbn [foldl]. rewrite (HasPrefix_app "fetch_body="), TrimPrefix_app.
    by destruct ps. }
  destruct classic, (depth <? 1); exact (conj Hd Hf).
Qed.

Lemma tags_roundtrip_witness :
  utilsExtractTagDepth (generateTagsForEndpoints 3 (@None nat) true) = Some 3 ∧
  utilsExtractTagFetchBody (generateTagsForEndpoints 3 (@None nat) true) = Some false.
Proof. exact (tags_roundtrip 3 (@None nat) true ltac:(unfold is_int64, int64_min, int64_max; lia)). Defined.

(** ** Endpoints *)

(** An endpoint made of an address and a port may be contacted exactly
    when the address is not a loopback one; strings that are not endpoints are
    refused. *)
Theorem allowedToConnect_spec host port endpoint
    (Hhost : plain host) (Hport : plain port) (Hcolon : ContainsByte port ":" = false) :
  (allowedToConnect (JoinHostPort host port) = None ↔ IsLoopback host = false) ∧
  (allowedToConnect endpoint = None →
     ∃ host port, SplitHostPort endpoint = Val (host, port) ∧ IsLoopback host = false).
Proof.
  unfold allowedToConnect. rewrite SplitHostPort_JoinHostPort by done. split.
  - by destruct (IsLoopback host).
  - destruct (SplitHostPort endpoint) as [[host' port']|err]; [|done].
    destruct (IsLoopback host') eqn:E; [done|]. eauto.
Qed.

Lemma allowedToConnect_spec_witness :
  (allowedToConnect (JoinHostPort "::1" "443") = None ↔ IsLoopback "::1" = false) ∧
  is_Some (allowedToConnect "[::1]:443") ∧ allowedToConnect "10.0.0.1:443" = None.
Proof.
  split; [|split; [vm_compute; by eexists|done]].
  exact (proj1 (allowedToConnect_spec "::1" "443" "" (conj eq_refl eq_refl) (conj eq_refl eq_refl) eq_refl)).
Defined.

(** ** Extra measurements *)

Lemma lookup_classify bit mapping addrs addr :
  0 ≤ bit → default 0 (classify_addrs (Z.shiftl 1 bit) mapping addrs !! addr) =
    if decide (addr ∈ addrs) then Z.lor (default 0 (mapping !! addr)) (Z.shiftl 1 bit)
    else default 0 (mapping !! addr).
Proof.
  intros Hb. unfold classify_addrs. revert mapping. induction addrs as [|a addrs IH]; intros mapping; cbn [foldl].
  { by rewrite decide_False by apply not_elem_of_nil. }
  rewrite IH. destruct (decide (addr = a)) as [->|Hne].
  - rewrite lookup_insert_eq. cbn [default from_option id]. rewrite (decide_True (P := a ∈ a :: addrs)) by set_solver.
    destruct (decide (a ∈ addrs)); [|done]. by rewrite <-Z.lor_assoc, Z.lor_diag.
  - rewrite lookup_insert_ne by done.
    by rewrite (decide_ext (addr ∈ a :: addrs) (addr ∈ addrs)) by (rewrite elem_of_cons; naive_solver).
Qed.

Lemma dom_classify bit mapping addrs addr :
  is_Some (classify_addrs bit mapping addrs !! addr) ↔ addr ∈ addrs ∨ is_Some (mapping !! addr).
Proof.
  unfold classify_addrs. revert mapping. induction addrs as [|a addrs IH]; intros mapping; cbn [foldl].
  { split; [by right|]. intros [?%not_elem_of_nil|?]; done. }
  rewrite IH, lookup_insert_is_Some, elem_of_cons. destruct (decide (a = addr)); naive_solver.
Qed.

(** The extra measurements are started once for each address that the test
    helper found and the probe did not, with no flags, whatever the order of
    the map iteration. *)
Theorem extra_measurements_spec `{RangeOrder} Addresses thAddrs :
  let extra := maybeStartExtraMeasurements Addresses thAddrs in
  NoDup (map entry_Addr extra) ∧
  (∀ e, e ∈ extra → entry_Flags e = 0) ∧
  (∀ addr, addr ∈ map entry_Addr extra ↔ addr ∈ thAddrs ∧ addr ∉ Addresses).
Proof.
  intros extra. subst extra. unfold maybeStartExtraMeasurements.
  set (mapping := classify_addrs inTH (classify_addrs inProbe ∅ Addresses) thAddrs).
  set (thOnly := filter _ _).
  assert (Hids : map entry_Addr (map (λ addr, {| entry_Addr := addr; entry_Flags := 0 |}) thOnly.*1) = thOnly.*1)
    by (rewrite map_map; apply map_id).
  rewrite Hids. split_and!.
  - eapply (sublist_NoDup _ (range_map 21 mapping).*1).
    + rewrite range_map_perm. apply NoDup_fst_map_to_list.
    + apply fmap_sublist, sublist_filter.
  - intros e (addr & -> & _)%list_elem_of_fmap. done.
  - intros addr.
    assert (Hflags : ∀ flags, mapping !! addr = Some flags →
      (Z.land flags inProbe = 0 ↔ addr ∉ Addresses)).
    { intros flags Hf. pose proof (lookup_classify 1 (classify_addrs inProbe ∅ Addresses) thAddrs addr) as Hm.
      change (Z.shiftl 1 1) with inTH in Hm. fold mapping in Hm. rewrite Hf in Hm. cbn [default from_option id] in Hm.
      pose proof (lookup_classify 0 ∅ Addresses addr) as Hp. change (Z.shiftl 1 0) with inProbe in Hp.
      rewrite lookup_empty in Hp. cbn [default from_option id] in Hp.
      rewrite Hm, Hp by done. destruct (decide (addr ∈ thAddrs)), (decide (addr ∈ Addresses)); by vm_compute. }
    assert (Hdom : is_Some (mapping !! addr) ↔ addr ∈ thAddrs ∨ addr ∈ Addresses).
    { subst mapping. rewrite !dom_classify, lookup_empty. split; [intros [?|[?|[? [=]]]]; auto|]. intros [?|?]; auto. }
    rewrite list_elem_of_fmap. split.
    + intros ([a flags] & -> & [Hz Hin]%list_elem_of_filter). cbn in *. apply range_map_elem in Hin.
      apply (Hflags flags Hin) in Hz. split; [|done]. destruct Hdom as [[?|?] _]; eauto. done.
    + intros [Hth Hno]. destruct (proj2 Hdom (or_introl Hth)) as [flags Hf]. exists (addr, flags). split; [done|].
      apply list_elem_of_filter. split; [by apply Hflags|by apply range_map_elem].
Qed.

(** *** Endpoints and their parts *)

Lemma get_drop n s i : String.get i (string_drop n s) = String.get (n + i) s.
Proof. revert s. induction n as [|n IH]; intros [|x s]; cbn; try done; by destruct i. Qed.

Lemma ContainsByte_get s c : ContainsByte s c = false ↔ ∀ i, String.get i s ≠ Some c.
Proof.
  induction s as [|x s IH]; [by split|]. rewrite ContainsByte_cons, orb_false_iff, IH. split.
  - intros [Hx Hs] [|i]; cbn; [intros [= ->]; by rewrite Ascii.eqb_refl in Hx|apply Hs].
  - intros Hs. split; [|intros i; apply (Hs (S i))]. apply Ascii.eqb_neq. intros ->. by apply (Hs 0%nat).
Qed.

Lemma IndexByte_get s c k : IndexByte s c = Some k → ∀ i, (i < k)%nat → String.get i s ≠ Some c.
Proof.
  revert k. induction s as [|x s IH]; intros k; [done|]. cbn. destruct (Ascii.eqb_spec x c) as [->|Hx].
  - intros [= <-] i Hi. lia.
  - destruct (IndexByte s c) as [k'|] eqn:E; [|done]. intros [= <-] [|i] Hi; cbn; [by intros [= ->]|]. apply (IH k'); [done|lia].
Qed.

Lemma LastIndexByte_get s c k : LastIndexByte s c = Some k → ∀ i, (k < i)%nat → String.get i s ≠ Some c.
Proof.
  revert k. induction s as [|x s IH]; intros k; [done|]. cbn. destruct (LastIndexByte s c) as [k'|] eqn:E.
  - intros [= <-] [|i] Hi; [lia|]. cbn. apply (IH k'); [done|lia].
  - destruct (Ascii.eqb_spec x c) as [->|Hx]; [|done]. intros [= <-] [|i] Hi; [lia|]. cbn.
    clear IH Hi. revert i. induction s as [|y s IH]; intros i; [done|]. cbn in E.
    destruct (LastIndexByte s c); [done|]. destruct (Ascii.eqb_spec y c); [done|]. destruct i as [|i]; cbn; [congruence|by apply IH].
Qed.

Lemma get_substring n m s i c : String.get i (String.substring n m s) = Some c → (i < m)%nat ∧ String.get (i + n) s = Some c.
Proof.
  intros Hi. destruct (Nat.lt_ge_cases i m) as [Hlt|Hge].
  - split; [done|]. by rewrite <-(String.substring_correct1 s n m i Hlt).
  - by rewrite String.substring_correct2 in Hi.
Qed.

(** The parts of an endpoint have no bracket and the port no colon, so that they can be joined again. *)
Lemma SplitHostPort_parts s host port :
  SplitHostPort s = Val (host, port) → plain host ∧ plain port ∧ ContainsByte port ":" = false.
Proof.
  unfold SplitHostPort. destruct (LastIndexByte s ":") as [i|] eqn:Ei; [|done].
  pose proof (LastIndexByte_get s ":" i Ei) as Hlast.
  assert (Hcolon : ContainsByte (string_drop (S i) s) ":" = false)
    by (apply ContainsByte_get; intros k; rewrite get_drop; apply Hlast; lia).
  assert (Hfin : ∀ n m j k, (j ≤ n)%nat → (j ≤ S i)%nat → (k ≤ S i)%nat →
    (∀ a, (a < m)%nat → String.get (a + n) s ≠ Some "]"%char) →
    (if ContainsByte (string_drop j s) "[" then Err "unexpected '[' in address"
     else if ContainsByte (string_drop k s) "]" then Err "unexpected ']' in address"
     else Val (String.substring n m s, string_drop (S i) s)) = Val (host, port) →
    plain host ∧ plain port ∧ ContainsByte port ":" = false).
  { intros n m j k Hj Hj' Hk Hclose.
    destruct (ContainsByte (string_drop j s) "[") eqn:E1; [done|].
    destruct (ContainsByte (string_drop k s) "]") eqn:E2; [done|]. intros Heq.
    assert (host = String.substring n m s ∧ port = string_drop (S i) s) as [-> ->] by (split; congruence). clear Heq.
    rewrite ContainsByte_get in E1, E2. setoid_rewrite get_drop in E1. setoid_rewrite get_drop in E2.
    unfold plain. rewrite !ContainsByte_get in *. split_and!.
    - intros a [_ Ha]%get_substring. apply (E1 (a + n - j)%nat). rewrite <-Ha. f_equal. lia.
    - intros a [Hm Ha]%get_substring. by apply (Hclose a).
    - intros a Ha. rewrite get_drop in Ha. apply (E1 (S i + a - j)%nat). rewrite <-Ha. f_equal. lia.
    - intros a Ha. rewrite get_drop in Ha. apply (E2 (S i + a - k)%nat). rewrite <-Ha. f_equal. lia.
    - done. }
  destruct (String.prefix "[" s) eqn:Ep.
  - destruct (IndexByte s "]") as [closing|] eqn:Ec; [|done].
    destruct (Nat.eqb _ _); [done|]. destruct (Nat.eqb_spec (S closing) i) as [Hi|]; [|by destruct (String.prefix ":" (string_drop (S closing) s))].
    apply Hfin; [lia..|]. intros a Ha. apply (IndexByte_get _ _ _ Ec). lia.
  - destruct (ContainsByte (String.substring 0 i s) ":"); [done|].
    destruct (ContainsByte s "]") eqn:Es.
    + destruct (ContainsByte (string_drop 0 s) "["); [done|].
      assert (E0 : string_drop 0 s = s) by by destruct s. by rewrite E0, Es.
    + apply Hfin; [lia..|]. rewrite ContainsByte_get in Es. intros a _. apply Es.
Qed.

Lemma SplitHostPort_rejoin s host port :
  SplitHostPort s = Val (host, port) → SplitHostPort (JoinHostPort host port) = Val (host, port).
Proof. intros (? & ? & ?)%SplitHostPort_parts. by apply SplitHostPort_JoinHostPort. Qed.

Lemma allowedToConnect_host address host port :
  allowedToConnect address = None → SplitHostPort address = Val (host, port) → IsLoopback host = false.
Proof. unfold allowedToConnect. intros Ha E. rewrite E in Ha. by destruct (IsLoopback host). Qed.
