(* ===== verification/NetDNS.v ===== *)
(** * DNS messages

    [netxlite/dnsencoder.go] and [dnsdecoder.go]: queries and responses on top of the
    messages of the [miekg/dns] library, whose constants and wire format are arguments
    ([Miekg]); its records are the ones that the code looks at. *)
From S2P Require Import Prelude Failures GoString GoNet NetErrors.

(** ** The library *)

Inductive SVCBKeyValue :=
  | SVCBAlpn (Alpn : list string)
  | SVCBIPv4Hint (Hint : list IP)
  | SVCBIPv6Hint (Hint : list IP)
  | SVCBOther.

Inductive RR :=
  | RR_A (A : IP)
  | RR_AAAA (AAAA : IP)
  | RR_CNAME (Target : string)
  | RR_NS (Ns : string)
  | RR_HTTPS (Value : list SVCBKeyValue)
  | RR_other.

Record Question := mkQuestion { Name : string; Qtype : Z; Qclass : Z }.

(** [dns.Msg]: [msg_Padding] is the length of the padding option of the EDNS0 record, if there is one. *)
Record Msg := mkMsg {
  msg_Id : Z;
  msg_Response : bool;
  msg_RecursionDesired : bool;
  msg_Rcode : Z;
  msg_Question : list Question;
  msg_Answer : list RR;
  msg_Edns0 : option (Z * bool);
  msg_Padding : option Z;
}.

Class Miekg := {
  TypeA : Z; TypeAAAA : Z; TypeANY : Z; TypeHTTPS : Z; TypeNS : Z;
  TypeToString : Z → string;
  ClassINET : Z;
  RcodeSuccess : Z; RcodeNameError : Z; RcodeRefused : Z; RcodeServerFailure : Z;
  Fqdn : string → string;
  Msg_Len : Msg → Z;
  Msg_Pack : Msg → result error string;
  Msg_Unpack : string → result error Msg;
}.

(** The numbers of RFC 1035, 3596, 9460 and their names. *)
Class MiekgNumbers (M : Miekg) : Prop := {
  types_NoDup : NoDup [TypeA; TypeAAAA; TypeANY; TypeHTTPS; TypeNS];
  TypeToString_A : TypeToString TypeA = "A";
  TypeToString_AAAA : TypeToString TypeAAAA = "AAAA";
  TypeToString_ANY : TypeToString TypeANY = "ANY";
  rcodes_NoDup : NoDup [RcodeSuccess; RcodeNameError; RcodeRefused; RcodeServerFailure];
}.

(** ** Queries *)

Record DNSQuery := mkQuery {
  q_bytesCalls : Z;
  q_domain : string;
  q_kind : Z;
  q_id : Z;
  q_memoizedBytes : string;
  q_padding : bool;
}.

Definition dnsPaddingDesiredBlockSize : Z := 128.
Definition dnsEDNS0MaxResponseSize : Z := 4096.
Definition dnsDNSSECEnabled : bool := true.

(** [id] is the result of [dns.Id()]. *)
Definition Encode (id : Z) (domain : string) (qtype : Z) (padding : bool) : DNSQuery :=
  {| q_bytesCalls := 0; q_domain := domain; q_kind := qtype; q_id := id;
     q_memoizedBytes := ""; q_padding := padding |}.

Section miekg.
Context `{Miekg}.

(** The message: with padding, the arithmetic is the one of [uint]. *)
Definition query_msg (q : DNSQuery) : Msg :=
  let question := {| Name := Fqdn (q_domain q); Qtype := q_kind q; Qclass := ClassINET |} in
  let query := mkMsg (q_id q) false true 0 [question] [] None None in
  if q_padding q then
    let query := query <| msg_Edns0 := Some (dnsEDNS0MaxResponseSize, dnsDNSSECEnabled) |> in
    let remainder := (dnsPaddingDesiredBlockSize - (Msg_Len query + 4)) mod 2 ^ 64 mod dnsPaddingDesiredBlockSize in
    query <| msg_Padding := Some remainder |>
  else query.

Definition query_bytes (q : DNSQuery) : result error string := Msg_Pack (query_msg q).

(** [Bytes]: the encoding is computed once. *)
Definition query_Bytes (q : DNSQuery) : result error string * DNSQuery :=
  if (String.length (q_memoizedBytes q) <=? 0)%nat then
    let q := q <| q_bytesCalls ::= λ n, wrap64 (n + 1) |> in
    match query_bytes q with
    | Err err => (Err err, q)
    | Val data => let q := q <| q_memoizedBytes := data |> in (Val (q_memoizedBytes q), q)
    end
  else (Val (q_memoizedBytes q), q).

(** ** Responses *)

Record dnsResponse := { r_bytes : string; r_msg : Msg; r_query : DNSQuery }.

Definition ErrDNSReplyWithWrongQueryID : error :=
  ErrValue "ErrDNSReplyWithWrongQueryID" [] FailureDNSReplyWithWrongQueryID.
Definition ErrDNSIsQuery : error :=
  ErrValue "ErrDNSIsQuery" [] "ooresolver: expected response but received query".

Definition dnsDecoderWrapError (err : error) : outcome error :=
  NewErrWrapper (Some ClassifyResolverError) ResolveOperation (Some err).

Definition wrapped {A} (err : error) : outcome (result error A) :=
  err ← dnsDecoderWrapError err; Ok (Err err).

Definition DecodeResponse (data : string) (query : DNSQuery) : outcome (result error dnsResponse) :=
  match Msg_Unpack data with
  | Err err => wrapped err
  | Val reply =>
      if negb (msg_Response reply) then wrapped ErrDNSIsQuery
      else if negb (msg_Id reply =? q_id query) then wrapped ErrDNSReplyWithWrongQueryID
      else Ok (Val {| r_bytes := data; r_msg := reply; r_query := query |})
  end.

(** [None] is nil. *)
Definition rcodeToError (r : dnsResponse) : outcome (option error) :=
  let rcode := msg_Rcode (r_msg r) in
  if rcode =? RcodeSuccess then Ok None
  else if rcode =? RcodeNameError then Some <$> dnsDecoderWrapError ErrOODNSNoSuchHost
  else if rcode =? RcodeRefused then Some <$> dnsDecoderWrapError ErrOODNSRefused
  else if rcode =? RcodeServerFailure then Some <$> dnsDecoderWrapError ErrOODNSServfail
  else Some <$> dnsDecoderWrapError ErrOODNSMisbehaving.

(** The answers of a successful response. *)
Definition decoding {A} (r : dnsResponse) (decode : list RR → outcome (result error A)) : outcome (result error A) :=
  rcode ← rcodeToError r;
  match rcode with
  | Some err => Ok (Err err)
  | None => decode (msg_Answer (r_msg r))
  end.

Record HTTPSSvc := { svc_ALPN : list string; svc_IPv4 : list string; svc_IPv6 : list string }.

Definition https_value (out : HTTPSSvc) (v : SVCBKeyValue) : HTTPSSvc :=
  match v with
  | SVCBAlpn alpn => out <| svc_ALPN := alpn |>
  | SVCBIPv4Hint hint => out <| svc_IPv4 ::= λ l, l ++ map ip_String hint |>
  | SVCBIPv6Hint hint => out <| svc_IPv6 ::= λ l, l ++ map ip_String hint |>
  | SVCBOther => out
  end.

Definition https_answer (out : HTTPSSvc) (answer : RR) : HTTPSSvc :=
  match answer with
  | RR_HTTPS value => foldl https_value out value
  | _ => out
  end.

Definition DecodeHTTPS (r : dnsResponse) : outcome (result error HTTPSSvc) :=
  decoding r (λ answers,
    let out := foldl https_answer {| svc_ALPN := []; svc_IPv4 := []; svc_IPv6 := [] |} answers in
    if (length (svc_IPv4 out) <=? 0)%nat && (length (svc_IPv6 out) <=? 0)%nat then wrapped ErrOODNSNoAnswer
    else Ok (Val out)).

Definition lookup_answer (kind : Z) (addrs : list string) (answer : RR) : list string :=
  if kind =? TypeA then match answer with RR_A ip => addrs ++ [ip_String ip] | _ => addrs end
  else if kind =? TypeAAAA then match answer with RR_AAAA ip => addrs ++ [ip_String ip] | _ => addrs end
  else addrs.

Definition DecodeLookupHost (r : dnsResponse) : outcome (result error (list string)) :=
  decoding r (λ answers,
    let addrs := foldl (lookup_answer (q_kind (r_query r))) [] answers in
    if (length addrs <=? 0)%nat then wrapped ErrOODNSNoAnswer else Ok (Val addrs)).

Definition DecodeNS (r : dnsResponse) : outcome (result error (list string)) :=
  decoding r (λ answers,
    let out := foldl (λ out answer, match answer with RR_NS ns => out ++ [ns] | _ => out end) [] answers in
    if (length out <? 1)%nat then wrapped ErrOODNSNoAnswer else Ok (Val out)).

Fixpoint first_cname (answers : list RR) : option string :=
  match answers with
  | [] => None
  | RR_CNAME target :: _ => Some target
  | _ :: answers => first_cname answers
  end.

Definition DecodeCNAME (r : dnsResponse) : outcome (result error string) :=
  decoding r (λ answers,
    match first_cname answers with
    | Some target => Ok (Val target)
    | None => wrapped ErrOODNSNoAnswer
    end).

(** ** [model.DNSResponse] *)

(** What the methods of a response return. *)
Record DNSResponse := {
  resp_Bytes : string;
  resp_Rcode : Z;
  resp_DecodeHTTPS : outcome (result error HTTPSSvc);
  resp_DecodeLookupHost : outcome (result error (list string));
  resp_DecodeNS : outcome (result error (list string));
  resp_DecodeCNAME : outcome (result error string);
}.

Definition miekg_DNSResponse (r : dnsResponse) : DNSResponse := {|
  resp_Bytes := r_bytes r;
  resp_Rcode := msg_Rcode (r_msg r);
  resp_DecodeHTTPS := DecodeHTTPS r;
  resp_DecodeLookupHost := DecodeLookupHost r;
  resp_DecodeNS := DecodeNS r;
  resp_DecodeCNAME := DecodeCNAME r;
|}.
End miekg.

(** ** [dnsovergetaddrinfo.go] *)

Definition ErrNoDNSTransport : error :=
  ErrValue "ErrNoDNSTransport" [] "operation requires a DNS transport".

Record dnsOverGetaddrinfoResponse := { ga_addrs : list string; ga_cname : string; ga_query : DNSQuery }.

Definition getaddrinfo_DNSResponse (r : dnsOverGetaddrinfoResponse) : DNSResponse := {|
  resp_Bytes := "";
  resp_Rcode := 0;
  resp_DecodeHTTPS := Ok (Err ErrNoDNSTransport);
  resp_DecodeLookupHost :=
    Ok (if (length (ga_addrs r) <=? 0)%nat then Err ErrOODNSNoAnswer else Val (ga_addrs r));
  resp_DecodeNS := Ok (Err ErrNoDNSTransport);
  resp_DecodeCNAME := Ok (if String.eqb (ga_cname r) "" then Err ErrOODNSNoAnswer else Val (ga_cname r));
|}.

(** How [lookup] ends: the context is done, or [lookupfn] returned before. *)
Inductive getaddrinfo_result :=
  | GetaddrinfoDone (ctx_err : error)
  | GetaddrinfoOut (addrs : list string) (cname : string)
  | GetaddrinfoErr (err : error).

Definition getaddrinfo_lookup (out : getaddrinfo_result) : result error (list string * string) :=
  match out with
  | GetaddrinfoDone err | GetaddrinfoErr err => Err err
  | GetaddrinfoOut addrs cname => Val (addrs, cname)
  end.

Definition getaddrinfo_RoundTrip `{Miekg} (lookupfn : string → getaddrinfo_result) (query : DNSQuery) :
    result error DNSResponse :=
  if negb (q_kind query =? TypeANY) then Err ErrNoDNSTransport
  else
    match getaddrinfo_lookup (lookupfn (q_domain query)) with
    | Err err => Err err
    | Val (addrs, cname) =>
        Val (getaddrinfo_DNSResponse {| ga_addrs := addrs; ga_cname := cname; ga_query := query |})
    end.

(** ** [dnstransport.go]: the transport that wraps the errors *)

Definition errwrap_RoundTrip {A} (res : result error A) : outcome (result error A) :=
  match res with
  | Err err => err ← NewErrWrapper (Some ClassifyResolverError) DNSRoundTripOperation (Some err); Ok (Err err)
  | Val resp => Ok (Val resp)
  end.

(** The numbers of the DNS; nothing can be packed or unpacked. *)
Definition sample_miekg : Miekg := {|
  TypeA := 1; TypeAAAA := 28; TypeANY := 255; TypeHTTPS := 65; TypeNS := 2;
  TypeToString := λ t, if t =? 1 then "A" else if t =? 28 then "AAAA" else if t =? 255 then "ANY" else "TYPE";
  ClassINET := 1; RcodeSuccess := 0; RcodeNameError := 3; RcodeRefused := 5; RcodeServerFailure := 2;
  Fqdn := λ s, (s +:+ ".")%string; Msg_Len := λ _, 0; Msg_Pack := λ _, Val ""; Msg_Unpack := λ _, Err (ErrValue "" [] "bad message");
|}.
