(* ===== verification/Tracing.v ===== *)
(** * Measurement tracing

    [pkg/measurexlite]: a trace collects in buffered channels what the network primitives
    observe while they run, and turns it into archival data; [pkg/throttling] samples the
    bytes received.  A channel that is full drops the event.  The clock is a function
    of the number of readings so far: nothing is assumed about it. *)
From S2P Require Import Prelude GoString GoFloat GoNet Bogon Archival NetErrors NetDNS GoURL GoHTTP.
From Stdlib Require Import Ascii.

(** ** Buffered channels *)

Record channel (A : Type) := mkChan { chan_cap : nat; chan_buf : list A }.
Arguments mkChan {A}.
Arguments chan_cap {A}.
Arguments chan_buf {A}.

(** [select { case ch <- x: default: }]: whether it was sent. *)
Definition try_send {A} (ch : channel A) (x : A) : channel A * bool :=
  if (length (chan_buf ch) <? chan_cap ch)%nat then (mkChan (chan_cap ch) (chan_buf ch ++ [x]), true)
  else (ch, false).

Definition send_or_drop {A} (ch : channel A) (x : A) : channel A := fst (try_send ch x).

(** [for { select { case ev := <-ch: out = append(out, ev); default: return } }] *)
Fixpoint drain_loop {A} (buf out : list A) : list A :=
  match buf with
  | [] => out
  | ev :: buf => drain_loop buf (out ++ [ev])
  end.

Definition drain {A} (ch : channel A) : list A * channel A := (drain_loop (chan_buf ch) [], mkChan (chan_cap ch) []).

(** The network and the string of a [net.Addr]; [None] is nil. *)
Abbreviation Addr := (option (string * string)).

(** ** The trace ([trace.go]) *)

Record Trace := mkTrace {
  tx_index : Z;
  tx_bytesReceivedMap : gmap string Z;
  tx_dnsLookup : channel ArchivalDNSLookupResult;
  tx_delayedDNSResponse : channel ArchivalDNSLookupResult;
  tx_networkEvent : channel ArchivalNetworkEvent;
  tx_tcpConnect : channel ArchivalTCPConnectResult;
  tx_tlsHandshake : channel ArchivalTLSOrQUICHandshakeResult;
  tx_quicHandshake : channel ArchivalTLSOrQUICHandshakeResult;
  tx_tags : list string;
  tx_timeNow : nat → Time;
  tx_readings : nat;
  tx_zeroTime : Time;
}.

Definition NetworkEventBufferSize : nat := 64.
Definition DNSLookupBufferSize : nat := 8.
Definition DelayedDNSResponseBufferSize : nat := 8.
Definition TCPConnectBufferSize : nat := 8.
Definition TLSHandshakeBufferSize : nat := 8.
Definition QUICHandshakeBufferSize : nat := 8.

Definition NewTrace (timeNow : nat → Time) (index : Z) (zeroTime : Time) (tags : list string) : Trace := {|
  tx_index := index;
  tx_bytesReceivedMap := ∅;
  tx_dnsLookup := mkChan DNSLookupBufferSize [];
  tx_delayedDNSResponse := mkChan DelayedDNSResponseBufferSize [];
  tx_networkEvent := mkChan NetworkEventBufferSize [];
  tx_tcpConnect := mkChan TCPConnectBufferSize [];
  tx_tlsHandshake := mkChan TLSHandshakeBufferSize [];
  tx_quicHandshake := mkChan QUICHandshakeBufferSize [];
  tx_tags := tags;
  tx_timeNow := timeNow;
  tx_readings := 0;
  tx_zeroTime := zeroTime;
|}.

Definition TimeNow (tx : Trace) : Time * Trace :=
  (tx_timeNow tx (tx_readings tx), tx <| tx_readings ::= S |>).

Definition TimeSince (tx : Trace) (t0 : Time) : Duration * Trace :=
  let '(now, tx) := TimeNow tx in (time_Sub now t0, tx).

Definition copyAndNormalizeTags (tags : list string) : list string :=
  [] ++ (if (length tags <=? 0)%nat then [] else tags).

Definition Tags (tx : Trace) : list string := copyAndNormalizeTags (tx_tags tx).

(** ** Archival data *)

Definition NewArchivalNetworkEvent (index : Z) (started : Duration) (operation network address : string)
    (count : Z) (err : option error) (finished : Duration) (tags : list string) : outcome ArchivalNetworkEvent :=
  failure ← NewFailure err;
  Ok {| net_Address := address; net_Failure := failure; net_NumBytes := count; net_Operation := operation;
        net_Proto := network; net_T0 := Seconds started; net_T := Seconds finished;
        net_TransactionID := index; net_Tags := copyAndNormalizeTags tags |}.

Definition NewAnnotationArchivalNetworkEvent (index : Z) (time : Duration) (operation : string)
    (tags : list string) : outcome ArchivalNetworkEvent :=
  NewArchivalNetworkEvent index time operation "" "" 0 None time tags.

Definition archivalSplitHostPort (endpoint : string) : string * string :=
  match SplitHostPort endpoint with
  | Err _ => ("", "")
  | Val (addr, port) => (addr, port)
  end.

(** [strconv.Atoi] and the range of a port. *)
Definition archivalPortToString (sport : string) : Z :=
  match ParseInt64 sport with
  | None => 0
  | Some port => if (port <? 0) || (65535 <? port) then 0 else port
  end.

Definition NewArchivalTCPConnectResult (index : Z) (started : Duration) (address : string)
    (err : option error) (finished : Duration) (tags : list string) : outcome ArchivalTCPConnectResult :=
  let '(ip, port) := archivalSplitHostPort address in
  failure ← NewFailure err;
  Ok {| tcp_IP := ip; tcp_Port := archivalPortToString port;
        tcp_Status := {| status_Blocked := None; status_Failure := failure; status_Success := IsNone err |};
        tcp_T0 := Seconds started; tcp_T := Seconds finished; tcp_Tags := copyAndNormalizeTags tags;
        tcp_TransactionID := index |}.

(** *** TLS *)

Definition tlsVersionString : list (Z * string) :=
  [(769, "TLSv1"); (770, "TLSv1.1"); (771, "TLSv1.2"); (772, "TLSv1.3"); (0, "")].

Definition tlsCipherSuiteString : list (Z * string) :=
  [(5, "TLS_RSA_WITH_RC4_128_SHA"); (10, "TLS_RSA_WITH_3DES_EDE_CBC_SHA");
   (47, "TLS_RSA_WITH_AES_128_CBC_SHA"); (53, "TLS_RSA_WITH_AES_256_CBC_SHA");
   (60, "TLS_RSA_WITH_AES_128_CBC_SHA256"); (156, "TLS_RSA_WITH_AES_128_GCM_SHA256");
   (157, "TLS_RSA_WITH_AES_256_GCM_SHA384"); (49159, "TLS_ECDHE_ECDSA_WITH_RC4_128_SHA");
   (49161, "TLS_ECDHE_ECDSA_WITH_AES_128_CBC_SHA"); (49162, "TLS_ECDHE_ECDSA_WITH_AES_256_CBC_SHA");
   (49169, "TLS_ECDHE_RSA_WITH_RC4_128_SHA"); (49170, "TLS_ECDHE_RSA_WITH_3DES_EDE_CBC_SHA");
   (49171, "TLS_ECDHE_RSA_WITH_AES_128_CBC_SHA"); (49172, "TLS_ECDHE_RSA_WITH_AES_256_CBC_SHA");
   (49187, "TLS_ECDHE_ECDSA_WITH_AES_128_CBC_SHA256"); (49191, "TLS_ECDHE_RSA_WITH_AES_128_CBC_SHA256");
   (49199, "TLS_ECDHE_RSA_WITH_AES_128_GCM_SHA256"); (49195, "TLS_ECDHE_ECDSA_WITH_AES_128_GCM_SHA256");
   (49200, "TLS_ECDHE_RSA_WITH_AES_256_GCM_SHA384"); (49196, "TLS_ECDHE_ECDSA_WITH_AES_256_GCM_SHA384");
   (52392, "TLS_ECDHE_RSA_WITH_CHACHA20_POLY1305"); (52393, "TLS_ECDHE_ECDSA_WITH_CHACHA20_POLY1305");
   (4865, "TLS_AES_128_GCM_SHA256"); (4866, "TLS_AES_256_GCM_SHA384");
   (4867, "TLS_CHACHA20_POLY1305_SHA256"); (0, "")].

Fixpoint table_lookup (table : list (Z * string)) (value : Z) : option string :=
  match table with
  | [] => None
  | (key, str) :: table => if value =? key then Some str else table_lookup table value
  end.

Definition TLSVersionString (value : Z) : string :=
  match table_lookup tlsVersionString value with
  | Some str => str
  | None => "TLS_VERSION_UNKNOWN_" +:+ Itoa value
  end.

Definition TLSCipherSuiteString (value : Z) : string :=
  match table_lookup tlsCipherSuiteString value with
  | Some str => str
  | None => "TLS_CIPHER_SUITE_UNKNOWN_" +:+ Itoa value
  end.

Definition as_X509Hostname (e : error) : option string := match e with ErrX509Hostname _ raw => Some raw | _ => None end.
Definition as_X509UnknownAuthority (e : error) : option string :=
  match e with ErrX509UnknownAuthority _ raw => Some raw | _ => None end.
Definition as_X509CertificateInvalid (e : error) : option string :=
  match e with ErrX509CertificateInvalid _ raw => Some raw | _ => None end.

Definition TLSPeerCerts (state : ConnectionState) (err : option error) : list string :=
  match err ≫= errors_As as_X509Hostname with
  | Some raw => [raw]
  | None =>
      match err ≫= errors_As as_X509UnknownAuthority with
      | Some raw => [raw]
      | None =>
          match err ≫= errors_As as_X509CertificateInvalid with
          | Some raw => [raw]
          | None => foldl (λ out cert, out ++ [cert]) [] (state_PeerCertificates state)
          end
      end
  end.

Definition NewArchivalTLSOrQUICHandshakeResult (index : Z) (started : Duration) (network address : string)
    (config : tls_Config) (state : ConnectionState) (err : option error) (finished : Duration)
    (tags : list string) : outcome ArchivalTLSOrQUICHandshakeResult :=
  failure ← NewFailure err;
  Ok {| tls_Network := network; tls_Address := address;
        tls_CipherSuite := TLSCipherSuiteString (state_CipherSuite state); tls_Failure := failure;
        tls_SoError := None; tls_NegotiatedProtocol := state_NegotiatedProtocol state;
        tls_NoTLSVerify := cfg_InsecureSkipVerify config; tls_PeerCertificates := TLSPeerCerts state err;
        tls_ServerName := cfg_ServerName config; tls_OuterServerName := ""; tls_ECHConfig := "";
        tls_T0 := Seconds started; tls_T := Seconds finished; tls_Tags := copyAndNormalizeTags tags;
        tls_TLSVersion := TLSVersionString (state_Version state); tls_TransactionID := index |}.

(** *** DNS *)

Definition archival_answer (asn : Z) (org AnswerType Hostname IPv4 IPv6 : string) : ArchivalDNSAnswer :=
  {| ans_ASN := asn; ans_ASOrgName := org; ans_AnswerType := AnswerType; ans_Hostname := Hostname;
     ans_IPv4 := IPv4; ans_IPv6 := IPv6; ans_TTL := None |}.

Section dns.
(** [geoipx.LookupASN], which returns sensible values with its error. *)
Context (LookupASN : string → Z * string).

Definition address_answer (out : list ArchivalDNSAnswer) (addr : string) : list ArchivalDNSAnswer :=
  match IsIPv6 addr with
  | Err _ => out
  | Val ipv6 =>
      let '(asn, org) := LookupASN addr in
      out ++ [if ipv6 then archival_answer asn org "AAAA" "" "" addr else archival_answer asn org "A" "" addr ""]
  end.

Definition newArchivalDNSAnswers (addrs : list string) (resp : option DNSResponse) : outcome (list ArchivalDNSAnswer) :=
  let out := foldl address_answer [] addrs in
  match resp with
  | None => Ok out
  | Some resp =>
      cname ← resp_DecodeCNAME resp;
      match cname with
      | Val cname => Ok (if String.eqb cname "" then out else out ++ [archival_answer 0 "" "CNAME" cname "" ""])
      | Err _ => Ok out
      end
  end.

Definition maybeResponseRcode (resp : option DNSResponse) : Z := match resp with Some r => resp_Rcode r | None => 0 end.
Definition maybeRawResponse (resp : option DNSResponse) : string := match resp with Some r => resp_Bytes r | None => "" end.

(** [reso] is the [Network] and the [Address] of the resolver or transport. *)
Definition NewArchivalDNSLookupResultFromRoundTrip `{Miekg} (index : Z) (started : Duration)
    (reso : string * string) (query : DNSQuery) (response : option DNSResponse) (addrs : list string)
    (err : option error) (finished : Duration) (tags : list string) : outcome ArchivalDNSLookupResult :=
  answers ← newArchivalDNSAnswers addrs response;
  failure ← NewFailure err;
  Ok {| dns_Answers := answers; dns_Engine := reso.1; dns_Failure := failure;
        dns_GetaddrinfoError := ErrorToGetaddrinfoRetvalOrZero err; dns_Hostname := q_domain query;
        dns_QueryType := TypeToString (q_kind query); dns_RawResponse := maybeRawResponse response;
        dns_Rcode := maybeResponseRcode response; dns_ResolverHostname := None; dns_ResolverPort := None;
        dns_ResolverAddress := reso.2; dns_T0 := Seconds started; dns_T := Seconds finished;
        dns_Tags := copyAndNormalizeTags tags; dns_TransactionID := index |}.
End dns.

(** *** HTTP *)

Section http.
Context (parse_error : string → error).

(** [ArchivalNewHTTPHeadersList]: the keys in order. *)
Definition ArchivalNewHTTPHeadersList (source : Header) : list (string * string) :=
  foldl (λ out key, out ++ map (λ value, (key, value)) (default [] (source !! key))) []
    (merge_sort String.le (map_to_list source).*1).

(** Each key with its first value, if it has one. *)
Definition ArchivalNewHTTPHeadersMap (header : Header) : gmap string string := omap head header.

Definition httpResponseBodyIsTruncated (body : string) (maxSnapSize : Z) : bool :=
  if (0 <? Z.of_nat (String.length body)) && (0 <? maxSnapSize)
  then maxSnapSize <=? Z.of_nat (String.length body) else false.

Definition httpResponseLocations (resp : option Response) : list string :=
  match resp with
  | None => []
  | Some resp =>
      match Location parse_error resp with
      | Err _ => []
      | Val loc => [url_String loc]
      end
  end.

Definition NewArchivalHTTPRequestResult (index : Z) (started : Duration) (network address alpn transport : string)
    (req : option Request) (resp : option Response) (maxRespBodySize : Z) (body : string)
    (err : option error) (finished : Duration) (tags : list string) : outcome ArchivalHTTPRequestResult :=
  failure ← NewFailure err;
  Ok {| http_Network := network; http_Address := address; http_ALPN := alpn; http_Failure := failure;
        http_Request := {|
          req_Body := ""; req_BodyIsTruncated := false;
          req_HeadersList := ArchivalNewHTTPHeadersList (default ∅ (r_Header <$> req));
          req_Headers := ArchivalNewHTTPHeadersMap (default ∅ (r_Header <$> req));
          req_Method := default "" (r_Method <$> req);
          req_Tor := {| tor_ExitIP := None; tor_ExitName := None; tor_IsTor := false |};
          req_Transport := transport;
          req_URL := default "" ((λ req, url_String (r_URL req)) <$> req) |};
        http_Response := {|
          resp_Body := body; resp_BodyIsTruncated := httpResponseBodyIsTruncated body maxRespBodySize;
          resp_Code := default 0 (StatusCode <$> resp);
          resp_HeadersList := ArchivalNewHTTPHeadersList (default ∅ (r_RespHeader <$> resp));
          resp_Headers := ArchivalNewHTTPHeadersMap (default ∅ (r_RespHeader <$> resp));
          resp_Locations := httpResponseLocations resp |};
        http_T0 := Seconds started; http_T := Seconds finished; http_Tags := copyAndNormalizeTags tags;
        http_TransactionID := index |}.
End http.

(** ** The callbacks of [model.Trace] *)

Section callbacks.
Implicit Types (tx : Trace).

Definition post_networkEvent tx (ev : ArchivalNetworkEvent) : Trace :=
  tx <| tx_networkEvent ::= λ ch, send_or_drop ch ev |>.

(** [dialer.go] *)
Definition OnConnectDone tx (started : Time) (network domain remoteAddr : string) (err : option error)
    (finished : Time) : outcome Trace :=
  if bool_decide (network ∈ ["tcp"; "tcp4"; "tcp6"]) then
    connect ← NewArchivalTCPConnectResult (tx_index tx) (time_Sub started (tx_zeroTime tx)) remoteAddr err
      (time_Sub finished (tx_zeroTime tx)) (tx_tags tx);
    let tx := tx <| tx_tcpConnect ::= λ ch, send_or_drop ch connect |> in
    ev ← NewArchivalNetworkEvent (tx_index tx) (time_Sub started (tx_zeroTime tx)) ConnectOperation "tcp"
      remoteAddr 0 err (time_Sub finished (tx_zeroTime tx)) (tx_tags tx);
    Ok (post_networkEvent tx ev)
  else Ok tx.

Definition TCPConnects tx : list ArchivalTCPConnectResult * Trace :=
  let '(out, ch) := drain (tx_tcpConnect tx) in (out, tx <| tx_tcpConnect := ch |>).

(** [tls.go] *)
Definition OnTLSHandshakeStart tx (now : Time) (remoteAddr : string) : outcome Trace :=
  let t := time_Sub now (tx_zeroTime tx) in
  ev ← NewArchivalNetworkEvent (tx_index tx) t "tls_handshake_start" "tcp" remoteAddr 0 None t (tx_tags tx);
  Ok (post_networkEvent tx ev).

Definition OnTLSHandshakeDone tx (started : Time) (remoteAddr : string) (config : tls_Config)
    (state : ConnectionState) (err : option error) (finished : Time) : outcome Trace :=
  let t := time_Sub finished (tx_zeroTime tx) in
  handshake ← NewArchivalTLSOrQUICHandshakeResult (tx_index tx) (time_Sub started (tx_zeroTime tx)) "tcp"
    remoteAddr config state err t (tx_tags tx);
  let tx := tx <| tx_tlsHandshake ::= λ ch, send_or_drop ch handshake |> in
  ev ← NewArchivalNetworkEvent (tx_index tx) t "tls_handshake_done" "tcp" remoteAddr 0 None t (tx_tags tx);
  Ok (post_networkEvent tx ev).

Definition TLSHandshakes tx : list ArchivalTLSOrQUICHandshakeResult * Trace :=
  let '(out, ch) := drain (tx_tlsHandshake tx) in (out, tx <| tx_tlsHandshake := ch |>).

(** [quic.go]: [state] is the state of the connection, if there is one. *)
Definition OnQUICHandshakeStart tx (now : Time) : outcome Trace :=
  ev ← NewAnnotationArchivalNetworkEvent (tx_index tx) (time_Sub now (tx_zeroTime tx)) "quic_handshake_start" (tx_tags tx);
  Ok (post_networkEvent tx ev).

Definition OnQUICHandshakeDone tx (started : Time) (remoteAddr : string) (qconn : option ConnectionState)
    (config : tls_Config) (err : option error) (finished : Time) : outcome Trace :=
  let t := time_Sub finished (tx_zeroTime tx) in
  let state := default empty_ConnectionState qconn in
  handshake ← NewArchivalTLSOrQUICHandshakeResult (tx_index tx) (time_Sub started (tx_zeroTime tx)) "udp"
    remoteAddr config state err t (tx_tags tx);
  let tx := tx <| tx_quicHandshake ::= λ ch, send_or_drop ch handshake |> in
  ev ← NewAnnotationArchivalNetworkEvent (tx_index tx) t "quic_handshake_done" (tx_tags tx);
  Ok (post_networkEvent tx ev).

Definition QUICHandshakes tx : list ArchivalTLSOrQUICHandshakeResult * Trace :=
  let '(out, ch) := drain (tx_quicHandshake tx) in (out, tx <| tx_quicHandshake := ch |>).

Definition NetworkEvents tx : list ArchivalNetworkEvent * Trace :=
  let '(out, ch) := drain (tx_networkEvent tx) in (out, tx <| tx_networkEvent := ch |>).

(** [FirstNetworkEventOrNil], [FirstTCPConnectOrNil], [FirstTLSHandshakeOrNil], ... *)
Definition first_or_nil {A} (events : list A * Trace) : option A * Trace :=
  let '(ev, tx) := events in (if (length ev <? 1)%nat then None else head ev, tx).

(** [dns.go] *)
Definition OnDNSRoundTripForLookupHost `{Miekg} (LookupASN : string → Z * string) tx (started : Time)
    (reso : string * string) (query : DNSQuery) (response : option DNSResponse) (addrs : list string)
    (err : option error) (finished : Time) : outcome Trace :=
  let t := time_Sub finished (tx_zeroTime tx) in
  lookup ← NewArchivalDNSLookupResultFromRoundTrip LookupASN (tx_index tx)
    (time_Sub started (tx_zeroTime tx)) reso query response addrs err t (tx_tags tx);
  Ok (tx <| tx_dnsLookup ::= λ ch, send_or_drop ch lookup |>).

Definition DNSLookupsFromRoundTrip tx : list ArchivalDNSLookupResult * Trace :=
  let '(out, ch) := drain (tx_dnsLookup tx) in (out, tx <| tx_dnsLookup := ch |>).

Definition ErrDelayedDNSResponseBufferFull : error :=
  ErrValue "ErrDelayedDNSResponseBufferFull" [] "measurexlite: the delayed-DNS-response channel buffer is full".

Definition OnDelayedDNSResponse `{Miekg} (LookupASN : string → Z * string) tx (started : Time)
    (txp : string * string) (query : DNSQuery) (response : option DNSResponse) (addrs : list string)
    (err : option error) (finished : Time) : outcome (option error * Trace) :=
  let t := time_Sub finished (tx_zeroTime tx) in
  lookup ← NewArchivalDNSLookupResultFromRoundTrip LookupASN (tx_index tx)
    (time_Sub started (tx_zeroTime tx)) txp query response addrs err t (tx_tags tx);
  let '(ch, sent) := try_send (tx_delayedDNSResponse tx) lookup in
  Ok (if sent then None else Some ErrDelayedDNSResponseBufferFull, tx <| tx_delayedDNSResponse := ch |>).

(** The reads of [DelayedDNSResponseWithTimeout] when nobody writes any more: while
    the context is not done a turn of the loop takes an event if there is one and
    waits otherwise; [patience] is the number of turns that still take an event
    before the context is done (when both are ready, [select] may do either).
    Then the rest is drained. *)
Fixpoint read_loop {A} (patience : nat) (buf out : list A) : list A :=
  match patience, buf with
  | S patience, ev :: buf => read_loop patience buf (out ++ [ev])
  | _, _ => drain_loop buf out
  end.

Definition DelayedDNSResponseWithTimeout (patience : nat) tx : list ArchivalDNSLookupResult * Trace :=
  let ch := tx_delayedDNSResponse tx in
  (read_loop patience (chan_buf ch) [], tx <| tx_delayedDNSResponse := mkChan (chan_cap ch) [] |>).

(** [emitResolveStart] and [emiteResolveDone] *)
Definition emit_annotation tx (operation : string) : outcome Trace :=
  let '(now, tx) := TimeSince tx (tx_zeroTime tx) in
  ev ← NewAnnotationArchivalNetworkEvent (tx_index tx) now operation (tx_tags tx);
  Ok (post_networkEvent tx ev).

Definition emitResolveStart tx : outcome Trace := emit_annotation tx "resolve_start".
Definition emiteResolveDone tx : outcome Trace := emit_annotation tx "resolve_done".

(** ** Connections ([conn.go]) *)

Definition ReadOperation : string := "read".
Definition WriteOperation : string := "write".
Definition ReadFromOperation : string := "read_from".
Definition WriteToOperation : string := "write_to".

Definition safeRemoteAddrNetwork (addr : Addr) : string := default "" (fst <$> addr).
Definition safeRemoteAddrString (addr : Addr) : string := default "" (snd <$> addr).

Definition normalize_network (network : string) : string :=
  if bool_decide (network ∈ ["udp"; "udp4"; "udp6"]) then "udp"
  else if bool_decide (network ∈ ["tcp"; "tcp4"; "tcp6"]) then "tcp"
  else network.

Definition updateBytesReceivedMapNetConn tx (network address : string) (count : Z) : Trace :=
  let key := address +:+ " " +:+ normalize_network network in
  tx <| tx_bytesReceivedMap ::= λ m, <[key := wrap64 (default 0 (m !! key) + count)]> m |>.

(** [CloneBytesReceivedMap] copies the map entry by entry. *)
Definition CloneBytesReceivedMap `{RangeOrder} tx : gmap string Z :=
  foldl (λ out '(key, value), <[key := value]> out) ∅ (range_map 30 (tx_bytesReceivedMap tx)).

(** The event that an operation which returned [count] and [err] leaves. *)
Definition io_event tx (started : Duration) (operation network address : string) (count : Z)
    (err : option error) : outcome Trace :=
  let '(finished, tx) := TimeSince tx (tx_zeroTime tx) in
  ev ← NewArchivalNetworkEvent (tx_index tx) started operation network address count err finished (tx_tags tx);
  Ok (post_networkEvent tx ev).

(** An operation of the wrapped connection: what it returns, and the trace, which it may use too. *)
Abbreviation io_operation A := (Trace → outcome (A * Trace)).

(** [Read] and [Write] of [connTrace]. *)
Definition connTrace_Read (remote : Addr) (read : io_operation (Z * option error)) : io_operation (Z * option error) := λ tx,
  let network := safeRemoteAddrNetwork remote in
  let addr := safeRemoteAddrString remote in
  let '(started, tx) := TimeSince tx (tx_zeroTime tx) in
  '((count, err), tx) ← read tx;
  tx ← io_event tx started ReadOperation network addr count err;
  Ok ((count, err), updateBytesReceivedMapNetConn tx network addr count).

Definition connTrace_Write (remote : Addr) (write : io_operation (Z * option error)) : io_operation (Z * option error) := λ tx,
  let network := safeRemoteAddrNetwork remote in
  let addr := safeRemoteAddrString remote in
  let '(started, tx) := TimeSince tx (tx_zeroTime tx) in
  '((count, err), tx) ← write tx;
  tx ← io_event tx started WriteOperation network addr count err;
  Ok ((count, err), tx).

(** [ReadFrom] and [WriteTo] of [udpLikeConnTrace]. *)
Definition maybeUpdateBytesReceivedMapUDPLikeConn tx (addr : Addr) (count : Z) : Trace :=
  match addr with
  | Some (network, address) => updateBytesReceivedMapNetConn tx network address count
  | None => tx
  end.

Definition udpLikeConnTrace_ReadFrom (read : io_operation (Z * Addr * option error)) :
    io_operation (Z * Addr * option error) := λ tx,
  let '(started, tx) := TimeSince tx (tx_zeroTime tx) in
  '((count, addr, err), tx) ← read tx;
  tx ← io_event tx started ReadFromOperation "udp" (safeRemoteAddrString addr) count err;
  Ok ((count, addr, err), maybeUpdateBytesReceivedMapUDPLikeConn tx addr count).

(** [addr.String()] panics when [addr] is nil. *)
Definition udpLikeConnTrace_WriteTo (addr : Addr) (write : io_operation (Z * option error)) :
    io_operation (Z * option error) := λ tx,
  let '(started, tx) := TimeSince tx (tx_zeroTime tx) in
  match addr with
  | None => Panic "invalid memory address or nil pointer dereference"
  | Some (_, address) =>
      '((count, err), tx) ← write tx;
      tx ← io_event tx started WriteToOperation "udp" address count err;
      Ok ((count, err), tx)
  end.
End callbacks.

(** ** Throttling ([throttling.go]) *)

(** The sampler is its queue; the trace it samples is passed along. *)
Abbreviation Sampler := (list ArchivalNetworkEvent).

Definition BytesReceivedCumulativeOperation : string := "bytes_received_cumulative".

(** The event of an entry of the map, if its key has the format that is expected. *)
Definition sample_entry (tx : Trace) (now : float64) (key : string) (count : Z) : option ArchivalNetworkEvent :=
  match Split key " " with
  | [address; network] =>
      Some {| net_Address := address; net_Failure := None; net_NumBytes := count;
              net_Operation := BytesReceivedCumulativeOperation; net_Proto := network; net_T0 := now; net_T := now;
              net_TransactionID := tx_index tx; net_Tags := Tags tx |}
  | _ => None
  end.

Definition collectSnapshot `{RangeOrder} (smpl : Sampler) (tx : Trace) (stats : gmap string Z) : Sampler * Trace :=
  let '(now, tx) := TimeSince tx (tx_zeroTime tx) in
  (foldl (λ q '(key, count),
      match sample_entry tx (Seconds now) key count with Some ev => q ++ [ev] | None => q end)
    smpl (range_map 31 stats), tx).

(** A tick of [mainLoop]. *)
Definition sampler_tick `{RangeOrder} (smpl : Sampler) (tx : Trace) : Sampler * Trace :=
  collectSnapshot smpl tx (CloneBytesReceivedMap tx).

Definition ExtractSamples `{RangeOrder} (smpl : Sampler) (tx : Trace) : list ArchivalNetworkEvent * (Sampler * Trace) :=
  let '(q, tx) := collectSnapshot smpl tx (CloneBytesReceivedMap tx) in
  (q, ([], tx)).
