(* ===== verification/TracingFacts.v ===== *)
(** * Measurement tracing: what a trace keeps

    A trace refines a log without bounds: whatever is observed, each buffer holds the first
    events of the log, in order, and the counters of bytes are the sums of what was read.
    What a lookup or a connect leaves is read back by the ingestion of the minipipeline. *)
From S2P Require Import Prelude GoString GoNet Bogon Archival NetErrors NetDNS GoURL.
From S2P Require Import GoHTTP Tracing.
From S2P Require Import GoFloat PipeSet Observation.
From Stdlib Require Import SpecFloat.

#[local] Arguments NewArchivalNetworkEvent : simpl never.
#[local] Arguments NewArchivalTCPConnectResult : simpl never.
#[local] Arguments NewArchivalTLSOrQUICHandshakeResult : simpl never.
#[local] Arguments NewArchivalDNSLookupResultFromRoundTrip : simpl never.
#[local] Arguments time_Sub : simpl never.

(** ** Times are numbers *)

Definition signed (sx : bool) (f : float64) : Prop :=
  f = S754_zero sx ∨ (∃ m e, f = S754_finite sx m e) ∨ f = S754_infinity sx.

Lemma iter_pos_inv {A} (f : A → A) (P : A → Prop) n x : (∀ x, P x → P (f x)) → P x → P (iter_pos f n x).
Proof. intros Hf. revert x. induction n as [n IH|n IH|]; intros x Hx; cbn; auto. Qed.

Lemma shr_nonneg m e l : 0 <= m → 0 <= shr_m (shr_fexp float64_prec float64_emax m e l).1.
Proof.
  intros Hm. unfold shr_fexp, shr.
  assert (Hrec : 0 <= shr_m (shr_record_of_loc m l)) by by destruct l as [|[]].
  destruct (fexp _ _ _ - e) as [|p|p]; cbn [fst]; [done| |done].
  apply (iter_pos_inv shr_1 (λ mrs, 0 <= shr_m mrs)); [|done].
  intros [m' r s] Hm'. cbn in *. destruct m' as [|[q|q|]|q]; cbn; lia.
Qed.

Lemma binary_round_aux_signed sx m e l : 0 <= m → signed sx (binary_round_aux float64_prec float64_emax sx m e l).
Proof.
  intros Hm. unfold binary_round_aux.
  destruct (shr_fexp _ _ m e l) as [mrs1 e1] eqn:E1.
  pose proof (shr_nonneg m e l Hm) as H1. rewrite E1 in H1. cbn [fst] in H1.
  set (m1 := round_nearest_even _ _).
  assert (Hm1 : 0 <= m1) by (subst m1; unfold round_nearest_even; destruct (loc_of_shr_record mrs1) as [|[]]; try destruct (Z.even _); lia).
  destruct (shr_fexp _ _ m1 e1 _) as [mrs2 e2] eqn:E2.
  pose proof (shr_nonneg m1 e1 loc_Exact Hm1) as H2. rewrite E2 in H2. cbn [fst] in H2.
  destruct (shr_m mrs2) as [|p|p]; [by left| |lia].
  destruct (e2 <=? _); right; [left; by eexists _, _|by right].
Qed.

Lemma float64_of_int_signed z : z ≠ 0 → signed (z <? 0) (float64_of_int z).
Proof.
  intros Hz. unfold float64_of_int, binary_normalize. destruct z as [|p|p]; [done|..]; unfold binary_round.
  all: destruct (shl_align p 0 _) as [mz ez]; by apply binary_round_aux_signed.
Qed.

Lemma div_signed z : z ≠ 0 → signed (z <? 0) (float64_div (float64_of_int z) (float64_of_int 1000000000)).
Proof.
  intros Hz. set (b := float64_of_int 1000000000).
  assert (Hb : ∃ mb eb, b = S754_finite false mb eb) by (subst b; vm_compute; by eexists _, _).
  clearbody b. destruct Hb as (mb & eb & ->).
  destruct (float64_of_int_signed z Hz) as [E|[(m & e & E)|E]]; rewrite E; unfold float64_div, SFdiv; rewrite ?xorb_false_r.
  - by left.
  - destruct (SFdiv_core_binary _ _ _ _ _ _) as [[mz ez] lz] eqn:Ed. apply binary_round_aux_signed.
    unfold SFdiv_core_binary in Ed.
    match type of Ed with (let '(_, _) := Z.div_eucl ?n ?d in _) = _ =>
      pose proof (Z.div_pos n d) as Hq; unfold Z.div in Hq; destruct (Z.div_eucl n d) as [q r] end.
    injection Ed as <- _ _. apply Hq; [|done]. destruct (e - eb - _); [done|apply Z.shiftl_nonneg; lia|done].
  - right. by right.
Qed.

Lemma add_signed sx a b : signed sx a → signed sx b → is_NaN (float64_add a b) = false.
Proof.
  intros [->|[(m & e & ->)| ->]] [->|[(m' & e' & ->)| ->]]; unfold float64_add, SFadd; try done; try (by destruct sx).
  unfold binary_normalize, binary_round.
  match goal with |- is_NaN match ?z with _ => _ end = _ => destruct z as [|p|p] end; [done|..].
  all: destruct (shl_align p _ _) as [mz ez].
  all: match goal with |- is_NaN (binary_round_aux _ _ ?b ?m ?e ?l) = _ =>
    destruct (binary_round_aux_signed b m e l) as [->|[(? & ? & ->)| ->]] end; done.
Qed.

Lemma Seconds_number d : is_NaN (Seconds d) = false.
Proof.
  unfold Seconds. set (sec := Z.quot d 1000000000). set (nsec := Z.rem d 1000000000).
  assert (Hz : is_NaN (float64_of_int 0) = false) by done.
  destruct (decide (sec = 0)) as [->|Hs], (decide (nsec = 0)) as [->|Hn].
  - vm_compute. done.
  - destruct (div_signed nsec Hn) as [E|[(? & ? & E)|E]]; rewrite E; by destruct (nsec <? 0).
  - change (float64_div (float64_of_int 0) (float64_of_int 1000000000)) with (S754_zero false).
    destruct (float64_of_int_signed sec Hs) as [E|[(? & ? & E)|E]]; rewrite E; by destruct (sec <? 0).
  - apply (add_signed (sec <? 0)); [by apply float64_of_int_signed|].
    assert (E : (sec <? 0) = (nsec <? 0)).
    { subst sec nsec. pose proof (Z.quot_rem' d 1000000000). destruct (Z.leb_spec 0 d).
      - pose proof (Z.rem_nonneg d 1000000000). pose proof (Z.quot_pos d 1000000000). lia.
      - pose proof (Z.rem_nonpos d 1000000000). pose proof (Z.quot_opp_l d 1000000000). pose proof (Z.quot_pos (- d) 1000000000). lia. }
    rewrite E. by apply div_signed.
Qed.

(** ** Events as pure functions *)

Definition network_event (index : Z) (started : Duration) (operation network address : string)
    (count : Z) (err : option error) (finished : Duration) (tags : list string) : ArchivalNetworkEvent :=
  {| net_Address := address; net_Failure := failure_of err; net_NumBytes := count; net_Operation := operation;
     net_Proto := network; net_T0 := Seconds started; net_T := Seconds finished;
     net_TransactionID := index; net_Tags := tags |}.

#[local] Arguments network_event : simpl never.

Lemma copy_tags tags : copyAndNormalizeTags tags = tags.
Proof. by destruct tags. Qed.

Lemma network_event_eq index started operation network address count err finished tags :
  NewArchivalNetworkEvent index started operation network address count err finished tags =
  Ok (network_event index started operation network address count err finished tags).
Proof. unfold NewArchivalNetworkEvent. rewrite NewFailure_Ok, copy_tags. done. Qed.

Definition connect_event (index : Z) (started : Duration) (address : string) (err : option error)
    (finished : Duration) (tags : list string) : ArchivalTCPConnectResult :=
  {| tcp_IP := (archivalSplitHostPort address).1; tcp_Port := archivalPortToString (archivalSplitHostPort address).2;
     tcp_Status := {| status_Blocked := None; status_Failure := failure_of err; status_Success := IsNone err |};
     tcp_T0 := Seconds started; tcp_T := Seconds finished; tcp_Tags := tags; tcp_TransactionID := index |}.

Lemma connect_event_eq index started address err finished tags :
  NewArchivalTCPConnectResult index started address err finished tags =
  Ok (connect_event index started address err finished tags).
Proof.
  unfold NewArchivalTCPConnectResult, connect_event. rewrite NewFailure_Ok, copy_tags.
  by destruct (archivalSplitHostPort address).
Qed.

Definition handshake_event (index : Z) (started : Duration) (network address : string) (config : tls_Config)
    (state : ConnectionState) (err : option error) (finished : Duration) (tags : list string) :
    ArchivalTLSOrQUICHandshakeResult :=
  {| tls_Network := network; tls_Address := address;
     tls_CipherSuite := TLSCipherSuiteString (state_CipherSuite state); tls_Failure := failure_of err;
     tls_SoError := None; tls_NegotiatedProtocol := state_NegotiatedProtocol state;
     tls_NoTLSVerify := cfg_InsecureSkipVerify config; tls_PeerCertificates := TLSPeerCerts state err;
     tls_ServerName := cfg_ServerName config; tls_OuterServerName := ""; tls_ECHConfig := "";
     tls_T0 := Seconds started; tls_T := Seconds finished; tls_Tags := tags;
     tls_TLSVersion := TLSVersionString (state_Version state); tls_TransactionID := index |}.

Lemma handshake_event_eq index started network address config state err finished tags :
  NewArchivalTLSOrQUICHandshakeResult index started network address config state err finished tags =
  Ok (handshake_event index started network address config state err finished tags).
Proof. unfold NewArchivalTLSOrQUICHandshakeResult. rewrite NewFailure_Ok, copy_tags. done. Qed.

(** A response whose [DecodeCNAME] does not panic, as all of them. *)
Definition cname_answers (resp : option DNSResponse) : list ArchivalDNSAnswer :=
  match resp with
  | Some resp =>
      match resp_DecodeCNAME resp with
      | Ok (Val cname) => if String.eqb cname "" then [] else [archival_answer 0 "" "CNAME" cname "" ""]
      | _ => []
      end
  | None => []
  end.

Definition response_ok (resp : option DNSResponse) : Prop :=
  match resp with Some resp => is_Ok (resp_DecodeCNAME resp) | None => True end.

Section lookup.
Context `{Miekg} (LookupASN : string → Z * string).

Definition lookup_event (index : Z) (started : Duration) (reso : string * string) (query : DNSQuery)
    (response : option DNSResponse) (addrs : list string) (err : option error) (finished : Duration)
    (tags : list string) : ArchivalDNSLookupResult :=
  {| dns_Answers := foldl (address_answer LookupASN) [] addrs ++ cname_answers response; dns_Engine := reso.1;
     dns_Failure := failure_of err; dns_GetaddrinfoError := ErrorToGetaddrinfoRetvalOrZero err;
     dns_Hostname := q_domain query; dns_QueryType := TypeToString (q_kind query);
     dns_RawResponse := maybeRawResponse response; dns_Rcode := maybeResponseRcode response;
     dns_ResolverHostname := None; dns_ResolverPort := None; dns_ResolverAddress := reso.2;
     dns_T0 := Seconds started; dns_T := Seconds finished; dns_Tags := tags; dns_TransactionID := index |}.

Lemma lookup_event_eq index started reso query response addrs err finished tags :
  response_ok response →
  NewArchivalDNSLookupResultFromRoundTrip LookupASN index started reso query response addrs err finished tags =
  Ok (lookup_event index started reso query response addrs err finished tags).
Proof.
  intros Hr. unfold NewArchivalDNSLookupResultFromRoundTrip, newArchivalDNSAnswers, lookup_event.
  rewrite NewFailure_Ok, copy_tags. destruct response as [resp|]; cbn in Hr |- *; [|by rewrite app_nil_r].
  destruct Hr as [[cname|err'] ->]; cbn; [destruct (String.eqb cname "")|]; cbn; by rewrite ?app_nil_r.
Qed.
End lookup.

(** ** What is observed *)

Inductive observed :=
  | OConnect (started : Time) (network domain remoteAddr : string) (err : option error) (finished : Time)
  | OTLSStart (now : Time) (remoteAddr : string)
  | OTLSDone (started : Time) (remoteAddr : string) (config : tls_Config) (state : ConnectionState)
      (err : option error) (finished : Time)
  | OQUICStart (now : Time)
  | OQUICDone (started : Time) (remoteAddr : string) (qconn : option ConnectionState) (config : tls_Config)
      (err : option error) (finished : Time)
  | OLookup (started : Time) (reso : string * string) (query : DNSQuery) (response : option DNSResponse)
      (addrs : list string) (err : option error) (finished : Time)
  | ODelayed (started : Time) (reso : string * string) (query : DNSQuery) (response : option DNSResponse)
      (addrs : list string) (err : option error) (finished : Time)
  | ORead (remote : Addr) (count : Z) (err : option error)
  | OWrite (remote : Addr) (count : Z) (err : option error)
  | OResolveStart
  | OResolveDone.

Section run.
Context `{Miekg} (LookupASN : string → Z * string).

Definition observe (tx : Trace) (o : observed) : outcome Trace :=
  match o with
  | OConnect started network domain remoteAddr err finished =>
      OnConnectDone tx started network domain remoteAddr err finished
  | OTLSStart now remoteAddr => OnTLSHandshakeStart tx now remoteAddr
  | OTLSDone started remoteAddr config state err finished =>
      OnTLSHandshakeDone tx started remoteAddr config state err finished
  | OQUICStart now => OnQUICHandshakeStart tx now
  | OQUICDone started remoteAddr qconn config err finished =>
      OnQUICHandshakeDone tx started remoteAddr qconn config err finished
  | OLookup started reso query response addrs err finished =>
      OnDNSRoundTripForLookupHost LookupASN tx started reso query response addrs err finished
  | ODelayed started reso query response addrs err finished =>
      '(_, tx) ← OnDelayedDNSResponse LookupASN tx started reso query response addrs err finished; Ok tx
  | ORead remote count err => '(_, tx) ← connTrace_Read remote (λ tx, Ok ((count, err), tx)) tx; Ok tx
  | OWrite remote count err => '(_, tx) ← connTrace_Write remote (λ tx, Ok ((count, err), tx)) tx; Ok tx
  | OResolveStart => emitResolveStart tx
  | OResolveDone => emiteResolveDone tx
  end.

Definition observed_ok (o : observed) : Prop :=
  match o with
  | OLookup _ _ _ response _ _ _ | ODelayed _ _ _ response _ _ _ => response_ok response
  | _ => True
  end.

(** ** The log: what the trace would hold without bounds *)

Record log := mkLog {
  lg_dns : list ArchivalDNSLookupResult;
  lg_delayed : list ArchivalDNSLookupResult;
  lg_net : list ArchivalNetworkEvent;
  lg_tcp : list ArchivalTCPConnectResult;
  lg_tls : list ArchivalTLSOrQUICHandshakeResult;
  lg_quic : list ArchivalTLSOrQUICHandshakeResult;
  lg_readings : nat;
}.

Definition empty_log : log := mkLog [] [] [] [] [] [] 0.

Context (timeNow : nat → Time) (index : Z) (zeroTime : Time) (tags : list string).

Definition since (t : Time) : Duration := time_Sub t zeroTime.
(** The time of the reading [k] from now. *)
Definition reading (lg : log) (k : nat) : Duration := since (timeNow (lg_readings lg + k)).

Definition log_net (lg : log) (started : Duration) (operation network address : string) (count : Z)
    (err : option error) (finished : Duration) : log :=
  lg <| lg_net ::= λ l, l ++ [network_event index started operation network address count err finished tags] |>.

Definition record (lg : log) (o : observed) : log :=
  match o with
  | OConnect started network domain remoteAddr err finished =>
      if bool_decide (network ∈ ["tcp"; "tcp4"; "tcp6"]) then
        log_net (lg <| lg_tcp ::= λ l, l ++ [connect_event index (since started) remoteAddr err (since finished) tags] |>)
          (since started) ConnectOperation "tcp" remoteAddr 0 err (since finished)
      else lg
  | OTLSStart now remoteAddr => log_net lg (since now) "tls_handshake_start" "tcp" remoteAddr 0 None (since now)
  | OTLSDone started remoteAddr config state err finished =>
      log_net (lg <| lg_tls ::= λ l, l ++ [handshake_event index (since started) "tcp" remoteAddr config state err
                                            (since finished) tags] |>)
        (since finished) "tls_handshake_done" "tcp" remoteAddr 0 None (since finished)
  | OQUICStart now => log_net lg (since now) "quic_handshake_start" "" "" 0 None (since now)
  | OQUICDone started remoteAddr qconn config err finished =>
      log_net (lg <| lg_quic ::= λ l, l ++ [handshake_event index (since started) "udp" remoteAddr config
                                              (default empty_ConnectionState qconn) err (since finished) tags] |>)
        (since finished) "quic_handshake_done" "" "" 0 None (since finished)
  | OLookup started reso query response addrs err finished =>
      lg <| lg_dns ::= λ l, l ++ [lookup_event LookupASN index (since started) reso query response addrs err
                                    (since finished) tags] |>
  | ODelayed started reso query response addrs err finished =>
      lg <| lg_delayed ::= λ l, l ++ [lookup_event LookupASN index (since started) reso query response addrs err
                                        (since finished) tags] |>
  | ORead remote count err =>
      (log_net lg (reading lg 0) ReadOperation (safeRemoteAddrNetwork remote) (safeRemoteAddrString remote) count err
        (reading lg 1)) <| lg_readings ::= λ n, (n + 2)%nat |>
  | OWrite remote count err =>
      (log_net lg (reading lg 0) WriteOperation (safeRemoteAddrNetwork remote) (safeRemoteAddrString remote) count err
        (reading lg 1)) <| lg_readings ::= λ n, (n + 2)%nat |>
  | OResolveStart =>
      (log_net lg (reading lg 0) "resolve_start" "" "" 0 None (reading lg 0)) <| lg_readings ::= S |>
  | OResolveDone =>
      (log_net lg (reading lg 0) "resolve_done" "" "" 0 None (reading lg 0)) <| lg_readings ::= S |>
  end.

(** The bytes read from a key of the map. *)
Definition read_from (key : string) (o : observed) : Z :=
  match o with
  | ORead remote count _ =>
      if bool_decide (safeRemoteAddrString remote +:+ " " +:+ normalize_network (safeRemoteAddrNetwork remote) = key)
      then count else 0
  | _ => 0
  end.

Definition bytes_read (key : string) (os : list observed) : Z := foldr (λ o n, read_from key o + n) 0 os.

(** ** The refinement *)

Definition holds {A} (cap : nat) (ch : channel A) (events : list A) : Prop :=
  chan_cap ch = cap ∧ chan_buf ch = take cap events.

Record refines (tx : Trace) (lg : log) : Prop := {
  ref_index : tx_index tx = index;
  ref_zero : tx_zeroTime tx = zeroTime;
  ref_tags : tx_tags tx = tags;
  ref_now : tx_timeNow tx = timeNow;
  ref_readings : tx_readings tx = lg_readings lg;
  ref_dns : holds DNSLookupBufferSize (tx_dnsLookup tx) (lg_dns lg);
  ref_delayed : holds DelayedDNSResponseBufferSize (tx_delayedDNSResponse tx) (lg_delayed lg);
  ref_net : holds NetworkEventBufferSize (tx_networkEvent tx) (lg_net lg);
  ref_tcp : holds TCPConnectBufferSize (tx_tcpConnect tx) (lg_tcp lg);
  ref_tls : holds TLSHandshakeBufferSize (tx_tlsHandshake tx) (lg_tls lg);
  ref_quic : holds QUICHandshakeBufferSize (tx_quicHandshake tx) (lg_quic lg);
}.

Lemma holds_send {A} cap (ch : channel A) events x :
  holds cap ch events → holds cap (send_or_drop ch x) (events ++ [x]).
Proof.
  intros [Hc Hb]. unfold send_or_drop, try_send. rewrite Hc, Hb.
  destruct (Nat.ltb_spec (length (take cap events)) cap) as [Hlt|Hge]; cbn; (split; [done|]); cbn.
  - rewrite length_take in Hlt. rewrite !take_ge; [done|rewrite length_app; cbn; lia|lia].
  - rewrite length_take in Hge. rewrite Hb, take_app_le by lia. done.
Qed.

Ltac refine_step := first [assumption | by apply holds_send | done].

Lemma observe_refines tx lg o :
  refines tx lg → observed_ok o → ∃ tx', observe tx o = Ok tx' ∧ refines tx' (record lg o).
Proof.
  intros [] Ho. destruct tx, lg. cbn in *. subst.
  destruct o; cbn [observe record observed_ok] in *.
  - unfold OnConnectDone. case_bool_decide; [|eexists; split; [done|by split]].
    rewrite connect_event_eq. cbn. rewrite network_event_eq. eexists. split; [done|]. split; cbn; refine_step.
  - unfold OnTLSHandshakeStart. rewrite network_event_eq. eexists. split; [done|]. split; cbn; refine_step.
  - unfold OnTLSHandshakeDone. rewrite handshake_event_eq. cbn. rewrite network_event_eq. eexists.
    split; [done|]. split; cbn; refine_step.
  - unfold OnQUICHandshakeStart, NewAnnotationArchivalNetworkEvent. rewrite network_event_eq. eexists.
    split; [done|]. split; cbn; refine_step.
  - unfold OnQUICHandshakeDone, NewAnnotationArchivalNetworkEvent. rewrite handshake_event_eq. cbn.
    rewrite network_event_eq. eexists. split; [done|]. split; cbn; refine_step.
  - unfold OnDNSRoundTripForLookupHost. rewrite lookup_event_eq by done. eexists. split; [done|]. split; cbn; refine_step.
  - unfold OnDelayedDNSResponse. rewrite lookup_event_eq by done. cbn.
    match goal with |- context [try_send ?ch ?x] => pose proof (holds_send _ ch _ x ltac:(eassumption)) as Hs;
      unfold send_or_drop in Hs; destruct (try_send ch x) as [ch' sent] end.
    eexists. split; [done|]. split; cbn; first [refine_step | exact Hs].
  - unfold connTrace_Read, io_event, TimeSince, TimeNow. cbn. rewrite network_event_eq. eexists. split; [done|].
    split; cbn; unfold reading, since; cbn; rewrite ?Nat.add_0_r, ?Nat.add_1_r; try refine_step. lia.
  - unfold connTrace_Write, io_event, TimeSince, TimeNow. cbn. rewrite network_event_eq. eexists. split; [done|].
    split; cbn; unfold reading, since; cbn; rewrite ?Nat.add_0_r, ?Nat.add_1_r; try refine_step. lia.
  - unfold emitResolveStart, emit_annotation, NewAnnotationArchivalNetworkEvent, TimeSince, TimeNow. cbn.
    rewrite network_event_eq. eexists. split; [done|].
    split; cbn; unfold reading, since; cbn; rewrite ?Nat.add_0_r; refine_step.
  - unfold emiteResolveDone, emit_annotation, NewAnnotationArchivalNetworkEvent, TimeSince, TimeNow. cbn.
    rewrite network_event_eq. eexists. split; [done|].
    split; cbn; unfold reading, since; cbn; rewrite ?Nat.add_0_r; refine_step.
Qed.

Lemma NewTrace_refines : refines (NewTrace timeNow index zeroTime tags) empty_log.
Proof. by split. Qed.
End run.

(** ** Reading the log back *)

Lemma drain_loop_app {A} (buf out : list A) : drain_loop buf out = out ++ buf.
Proof.
  revert out. induction buf as [|x buf IH]; intros out; cbn; [by rewrite app_nil_r|]. by rewrite IH, <-app_assoc.
Qed.

Lemma read_loop_app {A} patience (buf out : list A) : read_loop patience buf out = out ++ buf.
Proof.
  revert buf out. induction patience as [|n IH]; intros buf out; [apply drain_loop_app|].
  destruct buf as [|x buf]; [apply drain_loop_app|]. cbn [read_loop]. by rewrite IH, <-app_assoc.
Qed.

Lemma drain_take {A} (ch : channel A) cap events : holds cap ch events → fst (drain ch) = take cap events.
Proof. intros [_ <-]. unfold drain. cbn [fst]. by rewrite drain_loop_app. Qed.

Lemma read_take {A} patience (ch : channel A) cap events :
  holds cap ch events → read_loop patience (chan_buf ch) [] = take cap events.
Proof. intros [_ <-]. apply read_loop_app. Qed.

Lemma wrap64_add a b : wrap64 (wrap64 a + b) = wrap64 (a + b).
Proof.
  unfold wrap64. f_equal.
  replace ((a + 2 ^ 63) mod 2 ^ 64 - 2 ^ 63 + b + 2 ^ 63) with ((a + 2 ^ 63) mod 2 ^ 64 + b) by lia.
  rewrite Zplus_mod_idemp_l. f_equal. lia.
Qed.

Section theorems.
Context `{Miekg} (LookupASN : string → Z * string).

Definition bytes_of (tx : Trace) (key : string) : Z := default 0 (tx_bytesReceivedMap tx !! key).

Lemma observe_bytes tx o tx' key :
  observe LookupASN tx o = Ok tx' → bytes_of tx key = wrap64 (bytes_of tx key) →
  bytes_of tx' key = wrap64 (bytes_of tx key + read_from key o).
Proof.
  intros Ho Hw. destruct o; cbn [observe read_from] in *; try rewrite Z.add_0_r, <-Hw.
  - unfold OnConnectDone in Ho. case_bool_decide; [|by injection Ho as <-].
    rewrite connect_event_eq in Ho. cbn in Ho. rewrite network_event_eq in Ho. cbn in Ho. by injection Ho as <-.
  - unfold OnTLSHandshakeStart in Ho. rewrite network_event_eq in Ho. by injection Ho as <-.
  - unfold OnTLSHandshakeDone in Ho. rewrite handshake_event_eq in Ho. cbn in Ho. rewrite network_event_eq in Ho.
    by injection Ho as <-.
  - unfold OnQUICHandshakeStart, NewAnnotationArchivalNetworkEvent in Ho. rewrite network_event_eq in Ho. by injection Ho as <-.
  - unfold OnQUICHandshakeDone, NewAnnotationArchivalNetworkEvent in Ho. rewrite handshake_event_eq in Ho. cbn in Ho.
    rewrite network_event_eq in Ho. by injection Ho as <-.
  - unfold OnDNSRoundTripForLookupHost in Ho. destruct (NewArchivalDNSLookupResultFromRoundTrip _ _ _ _ _ _ _ _ _ _); [|done].
    by injection Ho as <-.
  - unfold OnDelayedDNSResponse in Ho. destruct (NewArchivalDNSLookupResultFromRoundTrip _ _ _ _ _ _ _ _ _ _); [|done].
    cbn in Ho. destruct (try_send _ _). by injection Ho as <-.
  - unfold connTrace_Read, io_event, TimeSince, TimeNow in Ho. cbn in Ho. rewrite network_event_eq in Ho. cbn in Ho.
    injection Ho as <-. unfold bytes_of, updateBytesReceivedMapNetConn. cbn. case_bool_decide as E.
    + subst key. rewrite lookup_insert_eq. done.
    + rewrite lookup_insert_ne, Z.add_0_r by done. exact Hw.
  - unfold connTrace_Write, io_event, TimeSince, TimeNow in Ho. cbn in Ho. rewrite network_event_eq in Ho. cbn in Ho.
    by injection Ho as <-.
  - unfold emitResolveStart, emit_annotation, NewAnnotationArchivalNetworkEvent, TimeSince, TimeNow in Ho. cbn in Ho.
    rewrite network_event_eq in Ho. by injection Ho as <-.
  - unfold emiteResolveDone, emit_annotation, NewAnnotationArchivalNetworkEvent, TimeSince, TimeNow in Ho. cbn in Ho.
    rewrite network_event_eq in Ho. by injection Ho as <-.
Qed.

(** C37: whatever is observed, in whatever order, tracing never panics; draining the trace then gives the
    first events of the unbounded log, in the order in which they happened: 64 network events and 8 of each other
    kind (connects, handshakes, lookups and delayed responses, however long one waits for the latter), the rest is
    lost; and the counter of an endpoint is the sum of the bytes read from it, modulo 2^64. *)
Theorem trace_refines_log timeNow index zeroTime tags os (Hos : Forall observed_ok os) :
  ∃ tx, foldM (observe LookupASN) (NewTrace timeNow index zeroTime tags) os = Ok tx ∧
    let lg := foldl (record LookupASN timeNow index zeroTime tags) empty_log os in
    fst (NetworkEvents tx) = take NetworkEventBufferSize (lg_net lg) ∧
    fst (TCPConnects tx) = take TCPConnectBufferSize (lg_tcp lg) ∧
    fst (TLSHandshakes tx) = take TLSHandshakeBufferSize (lg_tls lg) ∧
    fst (QUICHandshakes tx) = take QUICHandshakeBufferSize (lg_quic lg) ∧
    fst (DNSLookupsFromRoundTrip tx) = take DNSLookupBufferSize (lg_dns lg) ∧
    (∀ patience, fst (DelayedDNSResponseWithTimeout patience tx) = take DelayedDNSResponseBufferSize (lg_delayed lg)) ∧
    ∀ key, bytes_of tx key = wrap64 (bytes_read key os).
Proof.
  assert (Hrun : ∀ os, Forall observed_ok os → ∀ tx lg,
    refines timeNow index zeroTime tags tx lg → (∀ key, bytes_of tx key = wrap64 (bytes_of tx key)) →
    ∃ tx', foldM (observe LookupASN) tx os = Ok tx' ∧
      refines timeNow index zeroTime tags tx' (foldl (record LookupASN timeNow index zeroTime tags) lg os) ∧
      ∀ key, bytes_of tx' key = wrap64 (bytes_of tx key + bytes_read key os)).
  { clear os Hos. induction 1 as [|o os Ho Hos IH]; intros tx lg Hr Hw; cbn [foldM foldl bytes_read foldr].
    - exists tx. split_and!; [done..|]. intros key. by rewrite Z.add_0_r.
    - destruct (observe_refines LookupASN _ _ _ _ tx lg o Hr Ho) as (tx1 & E & Hr1). rewrite E. cbn [mbind outcome_bind].
      assert (Hb : ∀ key, bytes_of tx1 key = wrap64 (bytes_of tx key + read_from key o)) by (intros key; by eapply observe_bytes).
      destruct (IH tx1 _ Hr1) as (tx' & E' & Hr' & Hb').
      { intros key. rewrite Hb. pose proof (wrap64_add (bytes_of tx key + read_from key o) 0) as Hz. by rewrite !Z.add_0_r in Hz. }
      exists tx'. split_and!; [done..|]. intros key. rewrite Hb', Hb, wrap64_add. f_equal. unfold bytes_read. lia. }
  destruct (Hrun os Hos _ _ (NewTrace_refines timeNow index zeroTime tags)) as (tx & E & Hr & Hb); [done|].
  exists tx. split; [done|]. cbv zeta. destruct Hr.
  unfold NetworkEvents, TCPConnects, TLSHandshakes, QUICHandshakes, DNSLookupsFromRoundTrip.
  split_and!; try (match goal with |- context [drain ?ch] => destruct (drain ch) as [out ch'] eqn:Ed end; cbn [fst];
    change out with (fst (out, ch')); rewrite <-Ed; by apply drain_take).
  { intros patience. by apply read_take. }
  intros key. rewrite Hb. f_equal.
Qed.
End theorems.

(** Nine connects: the trace has room for eight. *)
Definition sample_observed : list observed :=
  [OResolveStart; ORead (Some ("tcp", "93.184.216.34:443")) 512 None] ++
  replicate 9 (OConnect 1 "tcp" "example.org" "93.184.216.34:443" None 2).

Lemma trace_refines_log_witness : ∃ tx,
  foldM (@observe sample_miekg (λ _, (0, ""))) (NewTrace Z.of_nat 1 0 []) sample_observed = Ok tx ∧
  length (fst (TCPConnects tx)) = 8%nat ∧ bytes_of tx "93.184.216.34:443 tcp" = 512.
Proof.
  destruct (@trace_refines_log sample_miekg (λ _, (0, "")) Z.of_nat 1 0 [] sample_observed) as (tx & E & _ & Htcp & _ & _ & _ & _ & Hb).
  { by repeat constructor. }
  exists tx. split; [exact E|]. split.
  - transitivity (length (take TCPConnectBufferSize (lg_tcp (foldl (@record sample_miekg (λ _, (0, "")) Z.of_nat 1 0 []) empty_log sample_observed))));
      [exact (f_equal length Htcp)|vm_compute; reflexivity].
  - transitivity (wrap64 (bytes_read "93.184.216.34:443 tcp" sample_observed)); [exact (Hb _)|vm_compute; reflexivity].
Defined.
