(* ===== verification/NetPrimitives.v ===== *)
(** * Network primitives

    [pkg/netxlite]: [dialer.go], [tls.go], [resolvercore.go], [resolverparallel.go],
    [resolverserial.go], [resolvercache.go], [dnsoverudp.go] and [dnsoverhttps.go], with the
    trace of [pkg/measurexlite] bound to the context.  A computation takes the trace and
    returns a result and the trace.  What the network answers is an argument, which
    may depend on how often the clock was read: the same question may get another answer
    later.  Timeouts, byte counting and debug logging are not modelled: a timeout is an error
    that the network answers. *)
From S2P Require Import Prelude GoString GoNet Bogon Archival NetErrors NetDNS GoURL GoHTTP Tracing.

(** ** Computations on a trace *)

Definition traced (A : Type) : Type := Trace → outcome (A * Trace).

#[export] Instance traced_ret : MRet traced := λ A a tx, Ok (a, tx).
#[export] Instance traced_bind : MBind traced := λ A B f m tx, '(a, tx) ← m tx; f a tx.

Definition lift {A} (m : outcome A) : traced A := λ tx, a ← m; Ok (a, tx).
Definition callback (f : Trace → outcome Trace) : traced unit := λ tx, tx ← f tx; Ok (tt, tx).
Definition clock : traced Time := λ tx, Ok (TimeNow tx).

(** What the environment answers now. *)
Definition ask {A} (answers : nat → A) : traced A := λ tx, Ok (answers (tx_readings tx), tx).

(** An error is wrapped, a value is passed on. *)
Definition wrap_err {A} (classify : error → string) (op : string) (res : result error A) : outcome (result error A) :=
  match res with
  | Err err => err ← NewErrWrapper (Some classify) op (Some err); Ok (Err err)
  | Val v => Ok (Val v)
  end.

Definition error_of {A} (res : result error A) : option error :=
  match res with Err err => Some err | Val _ => None end.

(** ** Connections *)

Inductive Conn :=
  | SystemConn (id : nat) (remote : Addr)
  | dialerErrWrapperConn (conn : Conn)
  | connTrace (conn : Conn).

Fixpoint RemoteAddr (c : Conn) : Addr :=
  match c with
  | SystemConn _ remote => remote
  | dialerErrWrapperConn c | connTrace c => RemoteAddr c
  end.

(** [Read] and [Write] of a connection whose socket returned [raw]. *)
Definition errwrap_io (op : string) (res : Z * option error) : outcome (Z * option error) :=
  match res with
  | (count, Some err) => err ← NewErrWrapper (Some ClassifyGenericError) op (Some err); Ok (0, Some err)
  | (count, None) => Ok (count, None)
  end.

Fixpoint conn_Read (c : Conn) (raw : Z * option error) : traced (Z * option error) :=
  match c with
  | SystemConn _ _ => mret raw
  | dialerErrWrapperConn c => res ← conn_Read c raw; lift (errwrap_io ReadOperation res)
  | connTrace c => connTrace_Read (RemoteAddr c) (conn_Read c raw)
  end.

Fixpoint conn_Write (c : Conn) (raw : Z * option error) : traced (Z * option error) :=
  match c with
  | SystemConn _ _ => mret raw
  | dialerErrWrapperConn c => res ← conn_Write c raw; lift (errwrap_io WriteOperation res)
  | connTrace c => connTrace_Write (RemoteAddr c) (conn_Write c raw)
  end.

(** ** Resolvers and dialers *)

Record model_Resolver := mkResolver {
  LookupHost : string → traced (result error (list string));
  r_Network : string;
  r_Address : string;
}.

Definition Dialer : Type := string → string → traced (result error Conn).

Definition ErrNoResolver : error := ErrValue "ErrNoResolver" [] "no configured resolver".
Definition NullResolver : model_Resolver := mkResolver (λ _, mret (Err ErrNoResolver)) "null" "".

(** *** [dialer.go] *)

Definition dialerErrWrapper (d : Dialer) : Dialer := λ network address,
  res ← d network address;
  match res with
  | Err err => lift (wrap_err ClassifyGenericError ConnectOperation (Err err))
  | Val conn => mret (Val (dialerErrWrapperConn conn))
  end.

Definition dialer_lookupHost (Resolver : model_Resolver) (hostname : string) : traced (result error (list string)) :=
  if negb (IsNone (ParseIP hostname)) then mret (Val [hostname]) else LookupHost Resolver hostname.

(** The loop of [DialContext]. *)
Fixpoint dial_addrs (d : Dialer) (network onlyhost onlyport : string) (addrs : list string)
    (errorslist : list error) : traced (result error Conn) :=
  match addrs with
  | [] => mret (Err (quirkReduceErrors errorslist))
  | addr :: addrs =>
      let target := JoinHostPort addr onlyport in
      started ← clock;
      res ← d network target;
      finished ← clock;
      res ← lift (wrap_err ClassifyGenericError ConnectOperation res);
      _ ← callback (λ tx, OnConnectDone tx started network onlyhost target (error_of res) finished);
      match res with
      | Val conn => mret (Val (connTrace (dialerErrWrapperConn conn)))
      | Err err => dial_addrs d network onlyhost onlyport addrs (errorslist ++ [err])
      end
  end.

(** The error of [net.SplitHostPort]. *)
Definition AddrError (err address : string) : error := ErrValue "AddrError" [] (addr_error err address).

Definition dialerResolverWithTracing (d : Dialer) (Resolver : model_Resolver) : Dialer := λ network address,
  match SplitHostPort address with
  | Err err => mret (Err (AddrError err address))
  | Val (onlyhost, onlyport) =>
      addrs ← dialer_lookupHost Resolver onlyhost;
      match addrs with
      | Err err => mret (Err err)
      | Val addrs => dial_addrs d network onlyhost onlyport (quirkSortIPAddrs addrs) []
      end
  end.

Definition WrapDialer (resolver : model_Resolver) (baseDialer : Dialer) (wrappers : list (option (Dialer → Dialer))) : Dialer :=
  let outDialer := foldl (λ outDialer wrapper,
      match wrapper with None => outDialer | Some wrap => wrap outDialer end)
    (dialerErrWrapper baseDialer) wrappers in
  dialerResolverWithTracing outDialer resolver.

(** [dialerSystem]: what the system answers to connect. *)
Definition dialerSystem (connect : nat → string → string → result error (nat * Addr)) : Dialer := λ network address,
  res ← ask (λ now, connect now network address);
  mret (match res with Err err => Err err | Val (id, remote) => Val (SystemConn id remote) end).

(** [NewDialerWithoutResolver], of the network and of a trace. *)
Definition NewDialerWithoutResolver (connect : nat → string → string → result error (nat * Addr)) : Dialer :=
  WrapDialer NullResolver (dialerSystem connect) [].

(** [None] is the connection that was already used. *)
Definition ErrNoConnReuse : error := ErrValue "ErrNoConnReuse" [] "cannot reuse connection".
Definition dialerSingleUse_DialContext (conn : option Conn) : result error Conn * option Conn :=
  match conn with
  | None => (Err ErrNoConnReuse, None)
  | Some conn => (Val conn, None)
  end.

(** *** [tls.go] *)

(** A TLS connection: the connection it uses and its state. *)
Record TLSConn := mkTLSConn { tlsconn_conn : Conn; ConnectionState_ : ConnectionState }.

Definition MaybeTLSConnectionState (conn : option TLSConn) : ConnectionState :=
  match conn with None => empty_ConnectionState | Some conn => ConnectionState_ conn end.

Definition ErrInvalidTLSVersion : error := ErrValue "ErrInvalidTLSVersion" [] "invalid TLS version".

(** The minimum and the maximum version that are configured, if they are changed. *)
Definition ConfigureTLSVersion (version : string) : result error (option (Z * Z)) :=
  if String.eqb version "TLSv1.3" then Val (Some (772, 772))
  else if String.eqb version "TLSv1.2" then Val (Some (771, 771))
  else if String.eqb version "TLSv1.1" then Val (Some (770, 770))
  else if String.eqb version "TLSv1.0" || String.eqb version "TLSv1" then Val (Some (769, 769))
  else if String.eqb version "" then Val None
  else Err ErrInvalidTLSVersion.

Section tls.
(** [newConn], and the handshake of the TLS library with the state it leads to. *)
Context (newConn : Conn → tls_Config → result error unit).
Context (HandshakeContext : nat → Conn → tls_Config → result error ConnectionState).

Definition tlsHandshakerConfigurable_Handshake (conn : Conn) (config : tls_Config) : traced (result error TLSConn) :=
  let config := if cfg_RootCAs config then config else config <| cfg_RootCAs := true |> in
  match newConn conn config with
  | Err err => mret (Err err)
  | Val _ =>
      match RemoteAddr conn with
      | None => lift (Panic "invalid memory address or nil pointer dereference")
      | Some (_, remoteAddr) =>
          started ← clock;
          _ ← callback (λ tx, OnTLSHandshakeStart tx started remoteAddr);
          res ← ask (λ now, HandshakeContext now conn config);
          res ← lift (wrap_err ClassifyTLSHandshakeError TLSHandshakeOperation res);
          finished ← clock;
          let state := match res with Val state => state | Err _ => empty_ConnectionState end in
          _ ← callback (λ tx, OnTLSHandshakeDone tx started remoteAddr config state (error_of res) finished);
          match res with
          | Err err => mret (Err err)
          | Val state => mret (Val (mkTLSConn conn state))
          end
      end
  end.

(** [config] of [tlsDialer]. *)
Definition tlsDialer_config (Config : option tls_Config) (host port : string) : tls_Config :=
  let config := default (mkTLSConfig [] "" false false) Config in
  let config := if String.eqb (cfg_ServerName config) "" then config <| cfg_ServerName := host |> else config in
  if (length (cfg_NextProtos config) <=? 0)%nat then
    if String.eqb port "443" then config <| cfg_NextProtos := ["h2"; "http/1.1"] |>
    else if String.eqb port "853" then config <| cfg_NextProtos := ["dot"] |>
    else config
  else config.

Definition DialTLSContext (Config : option tls_Config) (d : Dialer) (network address : string) : traced (result error TLSConn) :=
  match SplitHostPort address with
  | Err err => mret (Err (AddrError err address))
  | Val (host, port) =>
      conn ← d network address;
      match conn with
      | Err err => mret (Err err)
      | Val conn => tlsHandshakerConfigurable_Handshake conn (tlsDialer_config Config host port)
      end
  end.
End tls.

(** *** Transports *)

Record DNSTransport := mkTransport {
  RoundTrip : DNSQuery → traced (result error DNSResponse);
  RequiresPadding : bool;
  t_Network : string;
  t_Address : string;
}.

Definition wrapDNSTransport (txp : DNSTransport) : DNSTransport :=
  mkTransport
    (λ query, res ← RoundTrip txp query; lift (wrap_err ClassifyResolverError DNSRoundTripOperation res))
    (RequiresPadding txp) (t_Network txp) (t_Address txp).

Section resolvers.
Context `{Miekg}.
Context (LookupASN : string → Z * string).
(** [dns.Id()] and [idnax.ToASCII]. *)
Context (newId : nat → Z).
Context (ToASCII : string → result error string).

(** A traced round trip of a transport, which both [resolverSystem] and [ParallelResolver] do. *)
Definition round_trip (txp : DNSTransport) (hostname : string) (qtype : Z) (padding : bool) :
    traced (result error (list string)) :=
  id ← ask newId;
  let query := Encode id hostname qtype padding in
  started ← clock;
  res ← RoundTrip txp query;
  finished ← clock;
  let reso := (t_Network txp, t_Address txp) in
  match res with
  | Err err =>
      _ ← callback (λ tx, OnDNSRoundTripForLookupHost LookupASN tx started reso query None [] (Some err) finished);
      mret (Err err)
  | Val response =>
      addrs ← lift (resp_DecodeLookupHost response);
      _ ← callback (λ tx, OnDNSRoundTripForLookupHost LookupASN tx started reso query (Some response)
            (match addrs with Val addrs => addrs | Err _ => [] end) (error_of addrs) finished);
      mret addrs
  end.

(** *** [resolvercore.go] *)

Definition resolverSystem (txp : DNSTransport) : model_Resolver :=
  mkResolver (λ hostname, round_trip txp hostname TypeANY false) (t_Network txp) (t_Address txp).

Definition resolverErrWrapper (r : model_Resolver) : model_Resolver :=
  mkResolver (λ hostname,
    res ← LookupHost r hostname; lift (wrap_err ClassifyResolverError ResolveOperation res))
    (r_Network r) (r_Address r).

Definition ResolverShortCircuitIPAddr (r : model_Resolver) : model_Resolver :=
  mkResolver (λ hostname, if negb (IsNone (ParseIP hostname)) then mret (Val [hostname]) else LookupHost r hostname)
    (r_Network r) (r_Address r).

Definition resolverIDNA (r : model_Resolver) : model_Resolver :=
  mkResolver (λ hostname,
    match ToASCII hostname with
    | Err err => mret (Err err)
    | Val host => LookupHost r host
    end) (r_Network r) (r_Address r).

Definition WrapResolver (resolver : model_Resolver) : model_Resolver :=
  resolverIDNA (ResolverShortCircuitIPAddr (resolverErrWrapper resolver)).

(** *** [resolverparallel.go] *)

(** Which of the two goroutines finishes first; the clock is arbitrary, so that the events of
    the other one may have any time. *)
Context (aaaa_first : nat → bool).

Definition parallel_LookupHost (txp : DNSTransport) (hostname : string) : traced (result error (list string)) :=
  swap ← ask aaaa_first;
  let lookup qtype := round_trip txp hostname qtype (RequiresPadding txp) in
  '(ares, aaaares) ← (if swap : bool then
      aaaares ← lookup TypeAAAA; ares ← lookup TypeA; mret (ares, aaaares)
    else ares ← lookup TypeA; aaaares ← lookup TypeAAAA; mret (ares, aaaares));
  mret (match ares, aaaares with
        | Err err, Err _ => Err err
        | _, _ =>
            let addrs := match ares with Val l => l | Err _ => [] end ++ match aaaares with Val l => l | Err _ => [] end in
            if (length addrs <? 1)%nat then Err ErrOODNSNoAnswer else Val addrs
        end).

Definition ParallelResolver (txp : DNSTransport) : model_Resolver :=
  mkResolver (parallel_LookupHost txp) (t_Network txp) (t_Address txp).

(** *** [resolverserial.go] *)

(** [errors.As(err, &operr)] for a [*net.OpError] that has timed out. *)
Context (op_timeout : error → bool).

Definition lookupHostWithoutRetry (txp : DNSTransport) (hostname : string) (qtype : Z) : traced (result error (list string)) :=
  id ← ask newId;
  let query := Encode id hostname qtype (RequiresPadding txp) in
  res ← RoundTrip txp query;
  match res with
  | Err err => mret (Err err)
  | Val response => lift (resp_DecodeLookupHost response)
  end.

(** The turns of the loop, with the errors so far; the number of timeouts is returned too. *)
Fixpoint retry_loop (i : nat) (txp : DNSTransport) (hostname : string) (qtype : Z) (errorslist : list error)
    (NumTimeouts : Z) : traced (result error (list string) * Z) :=
  match i with
  | O =>
      match errorslist with
      | [] => lift (Panic "index out of range")
      | err :: _ => mret (Err err, NumTimeouts)
      end
  | S i =>
      res ← lookupHostWithoutRetry txp hostname qtype;
      match res with
      | Val replies => mret (Val replies, NumTimeouts)
      | Err err =>
          let errorslist := errorslist ++ [err] in
          if op_timeout err then retry_loop i txp hostname qtype errorslist (wrap64 (NumTimeouts + 1))
          else
            match errorslist with
            | [] => lift (Panic "index out of range")
            | first :: _ => mret (Err first, NumTimeouts)
            end
      end
  end.

Definition lookupHostWithRetry (txp : DNSTransport) (hostname : string) (qtype : Z) (NumTimeouts : Z) :
    traced (result error (list string) * Z) := retry_loop 3 txp hostname qtype [] NumTimeouts.

Definition serial_LookupHost (txp : DNSTransport) (hostname : string) (NumTimeouts : Z) :
    traced (result error (list string) * Z) :=
  '(resA, n) ← lookupHostWithRetry txp hostname TypeA NumTimeouts;
  '(resAAAA, n) ← lookupHostWithRetry txp hostname TypeAAAA n;
  mret (match resA, resAAAA with
        | Err err, Err _ => Err err
        | _, _ =>
            let addrs := match resA with Val l => l | Err _ => [] end ++ match resAAAA with Val l => l | Err _ => [] end in
            if (length addrs <? 1)%nat then Err ErrOODNSNoAnswer else Val addrs
        end, n).

(** *** [resolvercache.go] *)

Definition cache_LookupHost (readOnly : bool) (r : model_Resolver) (cache : gmap string (list string)) (hostname : string) :
    traced (result error (list string) * gmap string (list string)) :=
  match cache !! hostname with
  | Some entry => mret (Val entry, cache)
  | None =>
      res ← LookupHost r hostname;
      match res with
      | Err err => mret (Err err, cache)
      | Val entry => mret (Val entry, if readOnly then cache else <[hostname := entry]> cache)
      end
  end.

(** ** The resolvers of a trace ([measurexlite/dns.go]) *)

(** The deferred event comes last, whatever the lookup returns. *)
Definition resolverTrace (r : model_Resolver) : model_Resolver :=
  mkResolver (λ hostname,
    _ ← callback emitResolveStart;
    res ← LookupHost r hostname;
    _ ← callback emiteResolveDone;
    mret res) (r_Network r) (r_Address r).

Definition NewStdlibResolver (txp : DNSTransport) : model_Resolver :=
  resolverTrace (WrapResolver (resolverSystem (wrapDNSTransport txp))).

Definition NewParallelResolver (txp : DNSTransport) : model_Resolver :=
  resolverTrace (WrapResolver (ParallelResolver (wrapDNSTransport txp))).

(** *** [dnsovergetaddrinfo.go] *)

Definition GetaddrinfoTransport (network : string) (lookupfn : nat → string → getaddrinfo_result) : DNSTransport :=
  mkTransport (λ query, ask (λ now, getaddrinfo_RoundTrip (lookupfn now) query)) false network "".

(** *** [dnsoverudp.go] *)

Section udp.
(** What the socket answers to a write, and the datagram that a read returns. *)
Context (udp_write : nat → string → Z * option error).
Context (udp_read : nat → string * option error).

(** [recv]: [recv_data] is the datagram and the error of the socket. *)
Definition recv (query : DNSQuery) (conn : Conn) (data : string * option error) : traced (result error DNSResponse) :=
  '(count, err) ← conn_Read conn (Z.of_nat (String.length data.1), data.2);
  match err with
  | Some err => mret (Err err)
  | None =>
      res ← lift (DecodeResponse (string_take (Z.to_nat count) data.1) query);
      mret (match res with Err err => Err err | Val r => Val (miekg_DNSResponse r) end)
  end.

Definition udp_RoundTrip (d : Dialer) (Endpoint : string) (query : DNSQuery) : traced (result error DNSResponse) :=
  match fst (query_Bytes query) with
  | Err err => mret (Err err)
  | Val rawQuery =>
      conn ← d "udp" Endpoint;
      match conn with
      | Err err => mret (Err err)
      | Val conn =>
          raw ← ask (λ now, udp_write now rawQuery);
          '(_, err) ← conn_Write conn raw;
          match err with
          | Some err => mret (Err err)
          | None => data ← ask udp_read; recv query conn data
          end
      end
  end.

Definition UDPTransport (d : Dialer) (Endpoint : string) : DNSTransport :=
  mkTransport (udp_RoundTrip d Endpoint) false "udp" Endpoint.

(** [ownConnAndSendRecvLoop]: [datagrams] arrive before the deadline of the connection. *)
Fixpoint ownConnAndSendRecvLoop (Endpoint : string) (conn : Conn) (query : DNSQuery)
    (datagrams : list (string * option error)) : traced unit :=
  match datagrams with
  | [] => mret tt
  | data :: datagrams =>
      started ← clock;
      res ← recv query conn data;
      finished ← clock;
      match res with
      | Err _ => mret tt
      | Val resp =>
          addrs ← lift (resp_DecodeLookupHost resp);
          failed ← (λ tx, OnDelayedDNSResponse LookupASN tx started ("udp", Endpoint) query (Some resp)
            (match addrs with Val addrs => addrs | Err _ => [] end) (error_of addrs) finished);
          match failed with
          | Some _ => mret tt
          | None => ownConnAndSendRecvLoop Endpoint conn query datagrams
          end
      end
  end.
End udp.

(** *** [dnsoverhttps.go] *)

(** What the HTTP client answers to a POST: the status, the headers and how reading the body ends; it
    connects with the same trace.  [parse_error] is the error of [url.Parse]. *)
Definition doh_RoundTrip (parse_error : string → error)
    (Do : string → string → traced (result error (Z * Header * result error string)))
    (URL : string) (query : DNSQuery) : traced (result error DNSResponse) :=
  match fst (query_Bytes query) with
  | Err err => mret (Err err)
  | Val rawQuery =>
      if IsNone (url_Parse URL) then mret (Err (parse_error URL))
      else
        resp ← Do URL rawQuery;
        match resp with
        | Err err => mret (Err err)
        | Val (code, header, body) =>
            if negb (code =? 200) then mret (Err (ErrValue "" [] "doh: server returned error"))
            else if negb (String.eqb (header_Get header "Content-Type") "application/dns-message")
            then mret (Err (ErrValue "" [] "doh: invalid content-type"))
            else
              match body with
              | Err err => err ← lift (NewTopLevelGenericErrWrapper (Some err)); mret (Err err)
              | Val rawResponse =>
                  res ← lift (DecodeResponse rawResponse query);
                  mret (match res with Err err => Err err | Val r => Val (miekg_DNSResponse r) end)
              end
        end
  end.

Definition DoHTransport (parse_error : string → error)
    (Do : string → string → traced (result error (Z * Header * result error string))) (URL : string) : DNSTransport :=
  mkTransport (doh_RoundTrip parse_error Do URL) true "doh" URL.
End resolvers.
