(* ===== verification/NetPrimitivesFacts.v ===== *)
(** * Network primitives: what they return and what they leave in the trace

    Total correctness of computations on a trace, and the contracts of the primitives: none of
    them panics, whatever the network answers, and each one returns what the code promises. *)
From S2P Require Import Prelude GoString GoNet Bogon Archival NetErrors NetDNS GoURL.
From S2P Require Import GoHTTP Tracing TracingFacts.
From S2P Require Import GoFloat NetPrimitives.

(** ** Total correctness *)

(** From a trace with [P] the computation returns, with [Q]. *)
Definition triple {A} (P : Trace → Prop) (m : traced A) (Q : A → Trace → Prop) : Prop :=
  ∀ tx, P tx → ∃ a tx', m tx = Ok (a, tx') ∧ Q a tx'.

Section rules.
Context {A B : Type}.
Implicit Types (P : Trace → Prop).

Lemma triple_ret P (a : A) (Q : A → Trace → Prop) : (∀ tx, P tx → Q a tx) → triple P (mret a) Q.
Proof. intros HQ tx Htx. exists a, tx. auto. Qed.

Lemma triple_bind P (m : traced A) (f : A → traced B) (R : A → Trace → Prop) Q :
  triple P m R → (∀ a, triple (R a) (f a) Q) → triple P (m ≫= f) Q.
Proof.
  intros Hm Hf tx Htx. destruct (Hm tx Htx) as (a & tx1 & E & HR). destruct (Hf a tx1 HR) as (b & tx2 & E2 & HQ).
  exists b, tx2. split; [|done]. unfold mbind, traced_bind. by rewrite E.
Qed.

Lemma triple_weaken P P' (m : traced A) (Q Q' : A → Trace → Prop) :
  triple P m Q → (∀ tx, P' tx → P tx) → (∀ a tx, Q a tx → Q' a tx) → triple P' m Q'.
Proof. intros Hm HP HQ tx Htx. destruct (Hm tx (HP tx Htx)) as (a & tx' & E & Hq). exists a, tx'. auto. Qed.

(** What does not depend on the trace. *)
Lemma triple_pure P (X : Prop) (m : traced A) (Q : A → Trace → Prop) :
  (X → triple P m Q) → triple (λ tx, P tx ∧ X) m Q.
Proof. intros Hm tx [Htx HX]. by apply Hm. Qed.

Lemma triple_lift P (m : outcome A) a (Q : A → Trace → Prop) : m = Ok a → (∀ tx, P tx → Q a tx) → triple P (lift m) Q.
Proof. intros -> HQ tx Htx. exists a, tx. unfold lift. auto. Qed.

Lemma triple_ask P (answers : nat → A) (Q : A → Trace → Prop) :
  (∀ tx now, P tx → Q (answers now) tx) → triple P (ask answers) Q.
Proof. intros HQ tx Htx. eexists _, tx. unfold ask. auto. Qed.
End rules.

Lemma triple_callback P f (Q : unit → Trace → Prop) :
  (∀ tx, P tx → ∃ tx', f tx = Ok tx' ∧ Q tt tx') → triple P (callback f) Q.
Proof. intros Hf tx Htx. destruct (Hf tx Htx) as (tx' & E & HQ). exists tt, tx'. unfold callback. by rewrite E. Qed.

(** An invariant of the trace that the events of a computation keep. *)
Record trace_invariant (I : Trace → Prop) : Prop := {
  inv_readings : ∀ tx, I tx → I (tx <| tx_readings ::= S |>);
  inv_networkEvent : ∀ tx ev, is_NaN (net_T ev) = false → I tx → I (post_networkEvent tx ev);
  inv_bytes : ∀ tx m, I tx → I (tx <| tx_bytesReceivedMap := m |>);
}.

Lemma triple_clock I : trace_invariant I → triple I clock (λ _, I).
Proof. intros HI tx Htx. eexists _, _. split; [done|]. by apply HI. Qed.

(** ** Wrapping errors never panics *)

Lemma NewErrWrapper_Ok c op err : op ≠ "" → ∃ f o, NewErrWrapper (Some c) op (Some err) = Ok (ErrWrapper f o err).
Proof.
  intros Hop. unfold NewErrWrapper. cbn [mbind option_bind]. destruct (errors_As as_ErrWrapper err) as [[[f o] e]|].
  - by eexists _, _.
  - rewrite bool_decide_false by done. by eexists _, _.
Qed.

Lemma wrap_err_Ok {A} c op (res : result error A) :
  op ≠ "" → ∃ res', wrap_err c op res = Ok res' ∧
    match res, res' with Val v, Val v' => v = v' | Err err, Err err' => ∃ f o, err' = ErrWrapper f o err | _, _ => False end.
Proof.
  intros Hop. destruct res as [v|err]; cbn; [by exists (Val v)|].
  destruct (NewErrWrapper_Ok c op err Hop) as (f & o & ->). eexists. split; [done|]. by eexists _, _.
Qed.

Lemma triple_wrap {A} P c op (res : result error A) (Q : result error A → Trace → Prop) :
  op ≠ "" →
  (∀ tx, P tx → match res with Val v => Q (Val v) tx | Err err => ∀ f o, Q (Err (ErrWrapper f o err)) tx end) →
  triple P (lift (wrap_err c op res)) Q.
Proof.
  intros Hop HQ. destruct (wrap_err_Ok c op res Hop) as (res' & E & Hres). apply (triple_lift _ _ res'); [done|].
  intros tx Htx. specialize (HQ tx Htx). destruct res as [v|err], res' as [v'|err']; try done.
  - by subst.
  - destruct Hres as (f & o & ->). apply HQ.
Qed.

(** ** Connections *)

Lemma io_event_Ok I tx started op network address count err :
  trace_invariant I → I tx → ∃ tx', io_event tx started op network address count err = Ok tx' ∧ I tx'.
Proof.
  intros HI Htx. unfold io_event, TimeSince, TimeNow. rewrite network_event_eq. eexists.
  split; [done|]. apply HI; [apply Seconds_number|by apply HI].
Qed.

Lemma errwrap_io_Ok op res : op ≠ "" → is_Ok (errwrap_io op res).
Proof.
  intros Hop. destruct res as [count [err|]]; cbn; [|by eexists].
  destruct (NewErrWrapper_Ok ClassifyGenericError op err Hop) as (f & o & ->). by eexists.
Qed.

Lemma conn_Read_ok I c raw : trace_invariant I → triple I (conn_Read c raw) (λ _, I).
Proof.
  intros HI. induction c as [id remote|c IH|c IH]; cbn [conn_Read].
  - by apply triple_ret.
  - eapply triple_bind; [exact IH|]. intros res. destruct (errwrap_io_Ok ReadOperation res) as [r E]; [done|].
    by apply (triple_lift _ _ r).
  - intros tx Htx. unfold connTrace_Read, TimeSince, TimeNow.
    destruct (IH (tx <| tx_readings ::= S |>)) as ([count err] & tx1 & E & H1); [by apply HI|].
    rewrite E. cbn [mbind outcome_bind].
    match goal with |- context [io_event tx1 ?a ?b ?c ?d ?e ?f] =>
      destruct (io_event_Ok I tx1 a b c d e f HI H1) as (tx2 & -> & H2) end.
    eexists _, _. split; [done|]. unfold updateBytesReceivedMapNetConn.
    destruct HI as [_ _ Hb]. destruct tx2. cbn. apply (Hb _ _ H2).
Qed.

Lemma conn_Write_ok I c raw : trace_invariant I → triple I (conn_Write c raw) (λ _, I).
Proof.
  intros HI. induction c as [id remote|c IH|c IH]; cbn [conn_Write].
  - by apply triple_ret.
  - eapply triple_bind; [exact IH|]. intros res. destruct (errwrap_io_Ok WriteOperation res) as [r E]; [done|].
    by apply (triple_lift _ _ r).
  - intros tx Htx. unfold connTrace_Write, TimeSince, TimeNow.
    destruct (IH (tx <| tx_readings ::= S |>)) as ([count err] & tx1 & E & H1); [by apply HI|].
    rewrite E. cbn [mbind outcome_bind].
    match goal with |- context [io_event tx1 ?a ?b ?c ?d ?e ?f] =>
      destruct (io_event_Ok I tx1 a b c d e f HI H1) as (tx2 & -> & H2) end.
    by eexists _, _.
Qed.

(** ** The trace of a flow

    What the trace of a flow holds: the TCP connects satisfy [C] and the TLS handshakes [H], both
    have the transaction of the trace, and all the times are numbers. *)
Record flow_trace (i : Z) (C : ArchivalTCPConnectResult → Prop) (H : ArchivalTLSOrQUICHandshakeResult → Prop)
    (tx : Trace) : Prop := {
  ft_index : tx_index tx = i;
  ft_net ev : ev ∈ chan_buf (tx_networkEvent tx) → is_NaN (net_T ev) = false;
  ft_tcp ev : ev ∈ chan_buf (tx_tcpConnect tx) → C ev;
  ft_tls ev : ev ∈ chan_buf (tx_tlsHandshake tx) → H ev;
}.

Lemma send_elem {A} (ch : channel A) x y : y ∈ chan_buf (send_or_drop ch x) → y ∈ chan_buf ch ∨ y = x.
Proof.
  unfold send_or_drop, try_send. destruct (_ <? _)%nat; cbn; [|by left].
  rewrite elem_of_app, list_elem_of_singleton. done.
Qed.

Lemma flow_trace_new timeNow i zeroTime tags C H : flow_trace i C H (NewTrace timeNow i zeroTime tags).
Proof. split; [done|..]; intros ev []%elem_of_nil. Qed.

Lemma flow_trace_invariant i C H : trace_invariant (flow_trace i C H).
Proof.
  split; intros tx; [intros [] | intros ev Hn [] | intros m []]; split; try done.
  intros ev' [?| ->]%send_elem; auto.
Qed.

Lemma flow_trace_mono i (C C' : _ → Prop) (H H' : _ → Prop) tx :
  (∀ ev, C ev → C' ev) → (∀ ev, H ev → H' ev) → flow_trace i C H tx → flow_trace i C' H' tx.
Proof. intros HC HH []. split; auto. Qed.

Lemma OnConnectDone_ok i (C : ArchivalTCPConnectResult → Prop) H tx started network domain remoteAddr err finished :
  flow_trace i C H tx →
  (C (connect_event i (time_Sub started (tx_zeroTime tx)) remoteAddr err (time_Sub finished (tx_zeroTime tx)) (tx_tags tx))) →
  ∃ tx', OnConnectDone tx started network domain remoteAddr err finished = Ok tx' ∧ flow_trace i C H tx'.
Proof.
  intros [Hi Hn Htcp Htls] HC. unfold OnConnectDone. case_bool_decide; [|by eexists].
  rewrite connect_event_eq. cbn [mbind outcome_bind]. rewrite network_event_eq. eexists. split; [done|].
  rewrite Hi in *. split; [done| | |done].
  - intros ev [?| ->]%send_elem; [auto|apply Seconds_number].
  - intros ev [?| ->]%send_elem; [auto|exact HC].
Qed.

Lemma OnTLSHandshakeStart_ok I tx now remoteAddr :
  trace_invariant I → I tx → ∃ tx', OnTLSHandshakeStart tx now remoteAddr = Ok tx' ∧ I tx'.
Proof.
  intros HI Htx. unfold OnTLSHandshakeStart. rewrite network_event_eq. eexists. split; [done|].
  apply HI; [apply Seconds_number|done].
Qed.

Lemma OnTLSHandshakeDone_ok i C (H : ArchivalTLSOrQUICHandshakeResult → Prop) tx started remoteAddr config state err finished :
  flow_trace i C H tx →
  (H (handshake_event i (time_Sub started (tx_zeroTime tx)) "tcp" remoteAddr config state err
        (time_Sub finished (tx_zeroTime tx)) (tx_tags tx))) →
  ∃ tx', OnTLSHandshakeDone tx started remoteAddr config state err finished = Ok tx' ∧ flow_trace i C H tx'.
Proof.
  intros [Hi Hn Htcp Htls] HH. unfold OnTLSHandshakeDone. rewrite handshake_event_eq. cbn [mbind outcome_bind].
  rewrite network_event_eq. eexists. split; [done|]. rewrite Hi in *. split; [done| |done|].
  - intros ev [?| ->]%send_elem; [auto|apply Seconds_number].
  - intros ev [?| ->]%send_elem; [auto|exact HH].
Qed.

(** ** Dialing *)

(** The connects that are recorded while [address] is dialed are to its host. *)
Definition connects_to (C : ArchivalTCPConnectResult → Prop) (i : Z) (address : string) : Prop :=
  ∀ host port started err finished tags, SplitHostPort address = Val (host, port) →
    C (connect_event i started (JoinHostPort host port) err finished tags).

Definition connected (res : result error Conn) : Prop :=
  match res with Val conn => is_Some (RemoteAddr conn) | Err _ => True end.

(** What the system connects has a remote address. *)
Definition good_connect (connect : nat → string → string → result error (nat * Addr)) : Prop :=
  ∀ now network address id remote, connect now network address = Val (id, remote) → is_Some remote.

Lemma dialerSystem_ok connect I network address :
  good_connect connect → triple I (dialerErrWrapper (dialerSystem connect) network address) (λ res tx, I tx ∧ connected res).
Proof.
  intros Hc. unfold dialerErrWrapper, dialerSystem. eapply triple_bind.
  - eapply (triple_bind _ _ _ (λ res tx, I tx ∧ match res with Val (_, remote) => is_Some remote | Err _ => True end)).
    + apply triple_ask. intros tx now Htx. split; [done|]. destruct (connect now network address) as [[id remote]|err] eqn:E; [|done].
      by eapply Hc.
    + intros res. apply (triple_ret _ _ (λ res tx, I tx ∧ connected res)). intros tx [Htx Hres].
      by destruct res as [[id remote]|err].
  - intros [conn|err]; [by apply triple_ret|]. apply triple_wrap; [done|]. by intros tx [Htx _].
Qed.

Lemma dial_addrs_ok connect i C H network host port addrs errs :
  good_connect connect →
  (∀ addr started err finished tags, addr ∈ addrs → C (connect_event i started (JoinHostPort addr port) err finished tags)) →
  triple (flow_trace i C H) (dial_addrs (dialerErrWrapper (dialerSystem connect)) network host port addrs errs)
    (λ res tx, flow_trace i C H tx ∧ connected res).
Proof.
  intros Hc. revert errs. induction addrs as [|addr addrs IH]; intros errs HC; cbn [dial_addrs].
  { apply triple_ret. by intros tx Htx. }
  eapply triple_bind; [apply triple_clock, flow_trace_invariant|]. intros started. cbn beta.
  eapply triple_bind; [by apply dialerSystem_ok|]. intros res. cbn beta.
  apply triple_pure. intros Hres.
  eapply triple_bind; [apply triple_clock, flow_trace_invariant|]. intros finished. cbn beta.
  eapply (triple_bind _ _ _ (λ res tx, flow_trace i C H tx ∧ connected res)).
  { apply triple_wrap; [done|]. intros tx Htx. by destruct res. }
  clear res Hres. intros res. apply triple_pure. intros Hres.
  eapply (triple_bind _ _ _ (λ _, flow_trace i C H)).
  { apply triple_callback. intros tx Htx. apply OnConnectDone_ok; [done|]. apply HC. left. }
  intros _. destruct res as [conn|err]; [by apply triple_ret|]. apply IH. intros. apply HC. by right.
Qed.

Lemma dial_ok connect i C H network address :
  good_connect connect → connects_to C i address →
  triple (flow_trace i C H) (NewDialerWithoutResolver connect network address) (λ res tx, flow_trace i C H tx ∧ connected res).
Proof.
  intros Hc HC. unfold NewDialerWithoutResolver, WrapDialer, dialerResolverWithTracing. cbn [foldl].
  destruct (SplitHostPort address) as [[host port]|err] eqn:E; [|by apply triple_ret].
  unfold dialer_lookupHost. destruct (negb (IsNone (ParseIP host))).
  - apply (triple_bind _ _ _ (λ res tx, flow_trace i C H tx ∧ res = Val [host])); [by apply triple_ret|].
    intros res. apply triple_pure. intros ->.
    apply dial_addrs_ok; [done|]. intros addr started err finished tags Hin.
    assert (addr = host) as ->; [|by apply HC].
    apply list_elem_of_singleton. revert Hin. unfold quirkSortIPAddrs. cbn [foldl].
    destruct (negb _ && negb _), (negb _ && _); set_solver.
  - apply (triple_bind _ _ _ (λ res tx, flow_trace i C H tx ∧ res = Err ErrNoResolver)); [by apply triple_ret|].
    intros res. apply triple_pure. intros ->. by apply triple_ret.
Qed.

(** ** TLS handshakes *)

(** The handshakes that are recorded fail exactly when no connection is returned. *)
Lemma handshake_ok newConn HandshakeContext conn config i C :
  is_Some (RemoteAddr conn) →
  triple (flow_trace i C (λ _, False)) (tlsHandshakerConfigurable_Handshake newConn HandshakeContext conn config)
    (λ res tx, flow_trace i C (λ hs, tls_TransactionID hs = i ∧ (∀ c, res = Val c → tls_Failure hs = None)) tx).
Proof.
  intros [[network remoteAddr] Hconn]. unfold tlsHandshakerConfigurable_Handshake.
  set (cfg := if cfg_RootCAs config then config else _). clearbody cfg.
  destruct (newConn conn cfg) as [_|err]; [rewrite Hconn|].
  2: { apply triple_ret. intros tx. by apply flow_trace_mono. }
  eapply triple_bind; [apply triple_clock, flow_trace_invariant|]. intros started. cbn beta.
  eapply (triple_bind _ _ _ (λ _, flow_trace i C (λ _, False))).
  { apply triple_callback. intros tx. apply OnTLSHandshakeStart_ok, flow_trace_invariant. }
  intros _. eapply (triple_bind _ _ _ (λ _, flow_trace i C (λ _, False))); [by apply triple_ask|]. intros res.
  eapply (triple_bind _ _ _ (λ _, flow_trace i C (λ _, False))).
  { apply triple_wrap; [done|]. intros tx Htx. by destruct res. }
  clear res. intros res. eapply triple_bind; [apply triple_clock, flow_trace_invariant|]. intros finished. cbn beta.
  set (state := match res with Val _ => _ | Err _ => _ end).
  eapply (triple_bind _ _ _ (λ _, flow_trace i C
    (λ hs, tls_TransactionID hs = i ∧ (∀ v, res = Val v → tls_Failure hs = None)))).
  { apply triple_callback. intros tx Htx. apply OnTLSHandshakeDone_ok; [by eapply flow_trace_mono, Htx|].
    split; [done|]. by intros v ->. }
  intros _. destruct res as [v|err]; apply triple_ret; intros tx; apply flow_trace_mono; try done.
  - intros hs [Hi Hf]. split; [done|]. intros _ _. by apply (Hf v).
  - by intros hs [Hi _].
Qed.

(** ** Lookups *)

Definition total {A} (m : traced A) : Prop := triple (λ _, True) m (λ _ _, True).

Lemma total_Ok {A} (m : traced A) tx : total m → ∃ a tx', m tx = Ok (a, tx').
Proof. intros Hm. destruct (Hm tx I) as (a & tx' & E & _). by exists a, tx'. Qed.

Lemma total_bind {A B} (m : traced A) (f : A → traced B) : total m → (∀ a, total (f a)) → total (m ≫= f).
Proof. intros Hm Hf. eapply triple_bind; [exact Hm|exact Hf]. Qed.

Lemma total_ret {A} (a : A) : total (mret a).
Proof. by apply triple_ret. Qed.

Lemma total_clock : total clock.
Proof. intros tx _. by eexists _, _. Qed.

Lemma total_ask {A} (answers : nat → A) : total (ask answers).
Proof. by apply triple_ask. Qed.

Lemma total_lift {A} (m : outcome A) : is_Ok m → total (lift m).
Proof. intros [a E]. by eapply triple_lift. Qed.

Lemma total_wrap {A} c op (res : result error A) : op ≠ "" → total (lift (wrap_err c op res)).
Proof. intros Hop. apply triple_wrap; [done|]. intros tx _. by destruct res. Qed.

Lemma total_callback f : (∀ tx, is_Ok (f tx)) → total (callback f).
Proof. intros Hf. apply triple_callback. intros tx _. destruct (Hf tx) as [tx' E]. by exists tx'. Qed.

Lemma true_invariant : trace_invariant (λ _, True).
Proof. by split. Qed.

Lemma dial_total connect network address : total (NewDialerWithoutResolver connect network address).
Proof.
  unfold NewDialerWithoutResolver, WrapDialer, dialerResolverWithTracing. cbn [foldl].
  destruct (SplitHostPort address) as [[host port]|err]; [|apply total_ret].
  apply total_bind; [unfold dialer_lookupHost; destruct (negb _); apply total_ret|]. intros [addrs|err]; [|apply total_ret].
  generalize (@nil error) as errs. induction (quirkSortIPAddrs addrs) as [|addr l IH]; intros errs; cbn [dial_addrs]; [apply total_ret|].
  apply total_bind; [apply total_clock|]. intros started. apply total_bind.
  { unfold dialerErrWrapper, dialerSystem. apply total_bind.
    - apply total_bind; [apply total_ask|]. intros res. apply total_ret.
    - intros [conn|err]; [apply total_ret|by apply total_wrap]. }
  intros res. apply total_bind; [apply total_clock|]. intros finished. apply total_bind; [by apply total_wrap|].
  clear res. intros res. apply total_bind.
  - apply total_callback. intros tx. unfold OnConnectDone. case_bool_decide; [|by eexists].
    rewrite connect_event_eq. cbn [mbind outcome_bind]. rewrite network_event_eq. by eexists.
  - intros _. destruct res as [conn|err]; [apply total_ret|apply IH].
Qed.

Section lookups.
Context `{Miekg}.
Context (LookupASN : string → Z * string).

(** The decoders of a response do not panic. *)
Definition good_response (resp : DNSResponse) : Prop :=
  is_Ok (resp_DecodeLookupHost resp) ∧ is_Ok (resp_DecodeCNAME resp).

Definition good_answer (res : result error DNSResponse) : Prop :=
  match res with Val resp => good_response resp | Err _ => True end.

Definition good_transport (txp : DNSTransport) : Prop :=
  ∀ query, triple (λ _, True) (RoundTrip txp query) (λ res _, good_answer res).

Definition good_resolver (r : model_Resolver) : Prop := ∀ hostname, total (LookupHost r hostname).

Lemma dnsDecoderWrapError_Ok err : is_Ok (dnsDecoderWrapError err).
Proof. destruct (NewErrWrapper_Ok ClassifyResolverError ResolveOperation err) as (f & o & E); [done|]. by eexists. Qed.

Lemma wrapped_Ok {A} err : is_Ok (wrapped (A := A) err).
Proof. unfold wrapped. destruct (dnsDecoderWrapError_Ok err) as [e ->]. by eexists. Qed.

Lemma rcodeToError_Ok r : is_Ok (rcodeToError r).
Proof.
  unfold rcodeToError. repeat case_match; try (by eexists);
    match goal with |- is_Ok (_ <$> dnsDecoderWrapError ?e) => destruct (dnsDecoderWrapError_Ok e) as [e' ->] end; by eexists.
Qed.

Lemma decoding_Ok {A} r (decode : list RR → outcome (result error A)) :
  (∀ l, is_Ok (decode l)) → is_Ok (decoding r decode).
Proof.
  intros Hd. unfold decoding. destruct (rcodeToError_Ok r) as [[err|] ->]; [by eexists|]. apply Hd.
Qed.

Lemma miekg_response_good r : good_response (miekg_DNSResponse r).
Proof.
  split; apply decoding_Ok; intros l; cbn beta zeta; case_match; first [apply wrapped_Ok | by eexists].
Qed.

Lemma getaddrinfo_response_good r : good_response (getaddrinfo_DNSResponse r).
Proof. split; by eexists. Qed.

Lemma DecodeResponse_Ok data query : is_Ok (DecodeResponse data query).
Proof. unfold DecodeResponse. repeat case_match; first [apply wrapped_Ok | by eexists]. Qed.

Lemma wrapDNSTransport_good txp : good_transport txp → good_transport (wrapDNSTransport txp).
Proof.
  intros Ht query. cbn [RoundTrip wrapDNSTransport]. eapply triple_bind; [apply Ht|]. intros res. cbn beta.
  apply triple_wrap; [done|]. by intros tx Hres; destruct res.
Qed.

Lemma lookup_event_total tx started reso query response addrs err finished :
  response_ok response → is_Ok (OnDNSRoundTripForLookupHost LookupASN tx started reso query response addrs err finished).
Proof. intros Hr. unfold OnDNSRoundTripForLookupHost. rewrite lookup_event_eq by done. by eexists. Qed.

Context (newId : nat → Z) (ToASCII : string → result error string).

Lemma round_trip_total txp hostname qtype padding :
  good_transport txp → total (round_trip LookupASN newId txp hostname qtype padding).
Proof.
  intros Ht. unfold round_trip. apply total_bind; [apply total_ask|]. intros id.
  apply total_bind; [apply total_clock|]. intros started. eapply triple_bind; [apply Ht|]. intros res. cbn beta.
  apply (triple_weaken (λ tx, True ∧ good_answer res) _ _ (λ _ _, True)); [|done..].
  apply triple_pure. intros Hres. apply total_bind; [apply total_clock|]. intros finished. destruct res as [response|err].
  - destruct Hres as [Hl Hc]. apply total_bind; [by apply total_lift|]. intros addrs.
    apply total_bind; [|intros; apply total_ret]. apply total_callback. intros tx. by apply lookup_event_total.
  - apply total_bind; [|intros; apply total_ret]. apply total_callback. intros tx. by apply lookup_event_total.
Qed.

Lemma emit_annotation_Ok tx op : is_Ok (emit_annotation tx op).
Proof. unfold emit_annotation, NewAnnotationArchivalNetworkEvent, TimeSince, TimeNow. rewrite network_event_eq. by eexists. Qed.

Lemma WrapResolver_good r : good_resolver r → good_resolver (WrapResolver ToASCII r).
Proof.
  intros Hr hostname. unfold WrapResolver, resolverIDNA, ResolverShortCircuitIPAddr, resolverErrWrapper. cbn [LookupHost].
  destruct (ToASCII hostname) as [host|err]; [|apply total_ret]. destruct (negb _); [apply total_ret|].
  apply total_bind; [apply Hr|]. intros res. by apply total_wrap.
Qed.

Lemma resolverTrace_good r : good_resolver r → good_resolver (resolverTrace r).
Proof.
  intros Hr hostname. cbn [LookupHost resolverTrace]. apply total_bind; [apply total_callback; intros; apply emit_annotation_Ok|].
  intros _. apply total_bind; [apply Hr|]. intros res.
  apply total_bind; [apply total_callback; intros; apply emit_annotation_Ok|]. intros _. apply total_ret.
Qed.

Lemma NewStdlibResolver_good txp : good_transport txp → good_resolver (NewStdlibResolver LookupASN newId ToASCII txp).
Proof.
  intros Ht. apply resolverTrace_good, WrapResolver_good. intros hostname.
  cbn [LookupHost resolverSystem]. apply round_trip_total, wrapDNSTransport_good, Ht.
Qed.

Lemma NewParallelResolver_good aaaa_first txp :
  good_transport txp → good_resolver (NewParallelResolver LookupASN newId ToASCII aaaa_first txp).
Proof.
  intros Ht. apply resolverTrace_good, WrapResolver_good. intros hostname. cbn [LookupHost ParallelResolver].
  assert (Hl : ∀ qtype, total (round_trip LookupASN newId (wrapDNSTransport txp) hostname qtype
    (RequiresPadding (wrapDNSTransport txp)))) by (intros; apply round_trip_total, wrapDNSTransport_good, Ht).
  unfold parallel_LookupHost. cbn zeta. apply total_bind; [apply total_ask|]. intros swap. apply total_bind.
  - destruct swap; (apply total_bind; [apply Hl|]; intros ?; apply total_bind; [apply Hl|]; intros ?; apply total_ret).
  - intros [ares aaaares]. apply total_ret.
Qed.

(** *** The transports *)

Lemma GetaddrinfoTransport_good network lookupfn : good_transport (GetaddrinfoTransport network lookupfn).
Proof.
  intros query. cbn [RoundTrip GetaddrinfoTransport]. apply triple_ask. intros tx now _. unfold getaddrinfo_RoundTrip.
  repeat case_match; try done. apply getaddrinfo_response_good.
Qed.

Lemma recv_good query conn data : triple (λ _, True) (recv query conn data) (λ res _, good_answer res).
Proof.
  unfold recv. eapply triple_bind; [apply conn_Read_ok, true_invariant|]. intros [count [err|]]; [by apply triple_ret|].
  eapply triple_bind; [apply total_lift, DecodeResponse_Ok|]. intros [r|err]; apply triple_ret; [|done].
  intros tx _. apply miekg_response_good.
Qed.

Lemma UDPTransport_good udp_write udp_read connect Endpoint :
  good_transport (UDPTransport udp_write udp_read (NewDialerWithoutResolver connect) Endpoint).
Proof.
  intros query. cbn [RoundTrip UDPTransport]. unfold udp_RoundTrip.
  destruct (fst (query_Bytes query)) as [rawQuery|err]; [|by apply triple_ret].
  eapply triple_bind; [apply dial_total|]. intros [conn|err]; [|by apply triple_ret].
  eapply triple_bind; [apply total_ask|]. intros raw. cbn beta.
  eapply triple_bind; [apply conn_Write_ok, true_invariant|]. intros [count [err|]]; [by apply triple_ret|].
  eapply triple_bind; [apply total_ask|]. intros data. apply recv_good.
Qed.

Lemma DoHTransport_good parse_error Do URL :
  (∀ url body tx, is_Ok (Do url body tx)) → good_transport (DoHTransport parse_error Do URL).
Proof.
  intros HDo query. cbn [RoundTrip DoHTransport]. unfold doh_RoundTrip.
  destruct (fst (query_Bytes query)) as [rawQuery|err]; [|by apply triple_ret].
  destruct (IsNone (url_Parse URL)); [by apply triple_ret|].
  assert (Hd : total (Do URL rawQuery)).
  { intros tx _. destruct (HDo URL rawQuery tx) as [[a tx'] E]. by exists a, tx'. }
  eapply triple_bind; [exact Hd|]. intros [[[code header] body]|err]; [|by apply triple_ret].
  destruct (negb (code =? 200)); [by apply triple_ret|]. destruct (negb (String.eqb _ _)); [by apply triple_ret|].
  destruct body as [rawResponse|err].
  - eapply triple_bind; [apply total_lift, DecodeResponse_Ok|]. intros [r|err]; apply triple_ret; [|done].
    intros tx _. apply miekg_response_good.
  - eapply triple_bind; [apply (total_lift (NewTopLevelGenericErrWrapper (Some err)))|by intros e; apply triple_ret].
    destruct (NewErrWrapper_Ok ClassifyGenericError TopLevelOperation err) as (f & o & E); [done|]. by exists (ErrWrapper f o err).
Qed.

Lemma ownConnAndSendRecvLoop_total Endpoint conn query datagrams :
  total (ownConnAndSendRecvLoop LookupASN Endpoint conn query datagrams).
Proof.
  induction datagrams as [|data datagrams IH]; cbn [ownConnAndSendRecvLoop]; [apply total_ret|].
  apply total_bind; [apply total_clock|]. intros started. eapply triple_bind; [apply recv_good|]. intros res. cbn beta.
  apply (triple_weaken (λ tx, True ∧ good_answer res) _ _ (λ _ _, True)); [|done..].
  apply triple_pure. intros Hres. apply total_bind; [apply total_clock|]. intros finished. destruct res as [resp|err]; [|apply total_ret].
  destruct Hres as [Hl Hc]. apply total_bind; [by apply total_lift|]. intros addrs. apply total_bind.
  - intros tx _. unfold OnDelayedDNSResponse. rewrite lookup_event_eq by done. cbn [mbind outcome_bind].
    destruct (try_send _ _). by eexists _, _.
  - intros [e|]; [apply total_ret|exact IH].
Qed.
End lookups.
