(* ===== verification/InputParser.v ===== *)
(** * The input of the experiments

    [pkg/inputparser]: an input string becomes a URL with an accepted scheme and a host in ASCII.
    The IDNA conversion of [idnax.ToASCII] is an argument.  An error is its identity
    and the text that comes after it. *)
From S2P Require Import Prelude GoString GoURL.

Record Config := mkConfig {
  AcceptedSchemes : list string;
  AllowEndpoints : bool;
  DefaultScheme : string;
}.

Inductive parse_error :=
  | ErrEmptyDefaultScheme
  | ErrEmptyHostname
  | ErrIDNAToASCII (err : string)
  | ErrInvalidEndpoint
  | ErrURLParse
  | ErrUnsupportedScheme.

#[export] Instance parse_error_eq_dec : EqDecision parse_error.
Proof. solve_decision. Defined.

#[export] Instance Userinfo_eq_dec : EqDecision Userinfo.
Proof. solve_decision. Defined.

#[export] Instance URL_eq_dec : EqDecision URL.
Proof. solve_decision. Defined.

Definition isSchemeOK (config : Config) (URL : URL) : bool :=
  existsb (String.eqb (Scheme URL)) (AcceptedSchemes config) ||
  (AllowEndpoints config && String.eqb (Scheme URL) (DefaultScheme config)).

(** A URL with no other field than the scheme and the opaque part is an endpoint. *)
Definition maybeEndpointToURL (config : Config) (URL : URL) : result parse_error GoURL.URL :=
  let expect := (simple_URL (Scheme URL) "" "" "") <| Opaque := Opaque URL |> in
  if negb (bool_decide (URL = expect)) then Err ErrInvalidEndpoint
  else if String.eqb (DefaultScheme config) "" then Err ErrEmptyDefaultScheme
  else Val (simple_URL (DefaultScheme config) (JoinHostPort (Scheme expect) (Opaque expect)) "" "").

Section parse.
Context (ToASCII : string → result string string).

Definition maybeConvertHostnameToASCII (URL : URL) : result parse_error GoURL.URL :=
  let hostname := Hostname URL in
  match ToASCII hostname with
  | Err err => Err (ErrIDNAToASCII err)
  | Val asciiHostname =>
      Val (if negb (String.eqb asciiHostname hostname) then
             URL <| Host := if negb (String.eqb (Port URL) "") then JoinHostPort asciiHostname (Port URL)
                            else asciiHostname |>
           else URL)
  end.

Definition Parse (config : Config) (input : string) : outcome (result parse_error URL) :=
  _ ← Assert (negb (String.eqb input "")) "passed empty input";
  Ok match url_Parse input with
     | None => Err ErrURLParse
     | Some URL =>
         match (if String.eqb (Hostname URL) "" then
                  if negb (AllowEndpoints config) then Err ErrEmptyHostname
                  else maybeEndpointToURL config URL
                else Val URL) with
         | Err err => Err err
         | Val URL =>
             if negb (isSchemeOK config URL) then Err ErrUnsupportedScheme
             else maybeConvertHostnameToASCII URL
         end
     end.
End parse.

(** The configuration of Web Connectivity. *)
Definition web_connectivity_config : Config := mkConfig ["http"; "https"] false "".

Example Parse_examples :
  map (λ input, match Parse (λ s, Val s) web_connectivity_config input with
                | Ok (Val u) => Val (url_String u)
                | Ok (Err err) => Err (Some err)
                | Panic _ => Err None
                end) ["https://x.org/a?b"; "x.org:80"; "ftp://x.org"; "http://"; "http://[::1"; ""] =
  [Val "https://x.org/a?b"; Err (Some ErrEmptyHostname); Err (Some ErrUnsupportedScheme);
   Err (Some ErrEmptyHostname); Err (Some ErrURLParse); Err None].
Proof. vm_compute. reflexivity. Qed.
