(* ===== verification/Overlapped.v ===== *)
(** * Calling equivalent endpoints

    [pkg/httpclientx]: a call to one endpoint ([do], [getRaw], [postJSON] and the
    nil safety of their results), and the overlapped calls of several equivalent
    endpoints: [Map] as a transition system of its loop and the goroutines it
    starts, [OverlappedReduce].  Time is abstract: the ticker may tick while it runs. *)
From S2P Require Import Prelude Failures GoString NetErrors LteTestKeys.

(** ** One call *)

Record Endpoint := mkEndpoint { epnt_URL : string; epnt_Host : string }.

Definition NewEndpoint (URL : string) : Endpoint := mkEndpoint URL "".
Definition WithHostOverride (e : Endpoint) (host : string) : Endpoint := mkEndpoint (epnt_URL e) host.

(** The body of the loop; an unknown type is skipped. *)
Definition service_endpoint (svc : OOAPIService) : option Endpoint :=
  let epnt := NewEndpoint (svc_Address svc) in
  if bool_decide (svc_Type svc = "cloudfront") then Some (WithHostOverride epnt (svc_Front svc))
  else if bool_decide (svc_Type svc = "https") then Some epnt
  else None.

Definition NewEndpointFromModelOOAPIServices (svcs : list OOAPIService) : list Endpoint :=
  foldl (λ epnts svc, match service_endpoint svc with Some epnt => epnts ++ [epnt] | None => epnts end) [] svcs.

Definition DefaultMaxResponseBodySize : Z := Z.shiftl 1 24.

Definition maxResponseBodySize (MaxResponseBodySize : Z) : Z :=
  if MaxResponseBodySize <=? 0 then DefaultMaxResponseBodySize else MaxResponseBodySize.

Definition ErrTruncated : error := ErrValue "ErrTruncated" [] "httpapi: truncated response body".
Definition ErrIsNil : error := ErrValue "ErrIsNil" [] "nil map, pointer, or slice".
Definition ErrRequestFailed (StatusCode : Z) : error := ErrValue "ErrRequestFailed" [] "httpx: request failed".

(** A stream of bytes: what it gives, and how it ends. *)
Record reader := mkReader { rd_bytes : string; rd_end : option error }.

(** [io.ReadAll(io.LimitReader(r, n))]; the end is not seen when the limit is reached first. *)
Definition read_limited (r : reader) (n : Z) : string * option error :=
  if n <=? Z.of_nat (String.length (rd_bytes r)) then (string_take (Z.to_nat n) (rd_bytes r), None)
  else (rd_bytes r, rd_end r).

Definition io_EOF : string := "io.EOF".

(** [netxlite.ReadAllContext], where [ctx_Err] is set when the context is done first. *)
Definition ReadAllContext (ctx_Err : option error) (r : reader) (limit : Z) : outcome (result error string) :=
  match ctx_Err with
  | Some err => Err <$> NewTopLevelGenericErrWrapper (Some err)
  | None =>
      let '(data, err) := read_limited r limit in
      match err with
      | Some err => if errors_Is err io_EOF then Ok (Val data) else Err <$> NewTopLevelGenericErrWrapper (Some err)
      | None => Ok (Val data)
      end
  end.

Record http_response := mkResponse {
  rs_StatusCode : Z;
  rs_gzip : bool;
  rs_Body : reader;
}.

(** [do]: [client_Do] is the answer of the HTTP client, [gzip_NewReader] decompresses. *)
Definition do (MaxResponseBodySize : Z) (gzip_NewReader : reader → result error reader)
    (ctx_Err : option error) (client_Do : result error http_response) : outcome (result error string) :=
  match client_Do with
  | Err err => Ok (Err err)
  | Val resp =>
      match (if rs_gzip resp then gzip_NewReader (rs_Body resp) else Val (rs_Body resp)) with
      | Err err => Ok (Err err)
      | Val baseReader =>
          let max := maxResponseBodySize MaxResponseBodySize in
          rawrespbody ← ReadAllContext ctx_Err baseReader (wrap64 (max + 1));
          match rawrespbody with
          | Err err => Ok (Err err)
          | Val rawrespbody =>
              if max <? Z.of_nat (String.length rawrespbody) then Ok (Err ErrTruncated)
              else if negb (rs_StatusCode resp =? 200) then Ok (Err (ErrRequestFailed (rs_StatusCode resp)))
              else Ok (Val rawrespbody)
          end
      end
  end.

(** [NilSafetyErrorIfNil] for a pointer, a map or a slice. *)
Definition NilSafetyErrorIfNil {A} (value : option A) : result error (option A) :=
  match value with
  | None => Err ErrIsNil
  | Some _ => Val value
  end.

(** [postJSON] after the request is made: [json_Unmarshal] decodes a pointer, which [null] makes nil. *)
Definition postJSON {Input Output} (json_Unmarshal : string → result error (option Output))
    (input : option Input) (json_Marshal : Input → result error string)
    (send : string → outcome (result error string)) : outcome (result error (option Output)) :=
  match NilSafetyErrorIfNil input with
  | Err err => Ok (Err err)
  | Val _ =>
      match input with
      | None => Ok (Err ErrIsNil)
      | Some value =>
          match json_Marshal value with
          | Err err => Ok (Err err)
          | Val rawreqbody =>
              rawrespbody ← send rawreqbody;
              match rawrespbody with
              | Err err => Ok (Err err)
              | Val rawrespbody =>
                  match json_Unmarshal rawrespbody with
                  | Err err => Ok (Err err)
                  | Val output => Ok (NilSafetyErrorIfNil output)
                  end
              end
          end
      end
  end.

(** ** Overlapped calls *)

Section overlapped.
Context {Output : Type}.

Record OverlappedErrorOr := mkErrorOr { oeo_Index : nat; oeo_Result : result error Output }.

Definition ErrGenericOverlappedFailure : error :=
  ErrValue "ErrGenericOverlappedFailure" [] "overlapped: generic failure".

(** The errors before the first success, and the first success. *)
Fixpoint first_success (results : list OverlappedErrorOr) (errorv : list error) :
    result (list error) (Output * nat) :=
  match results with
  | [] => Err errorv
  | res :: results =>
      match oeo_Result res with
      | Val value => Val (value, oeo_Index res)
      | Err err => first_success results (errorv ++ [err])
      end
  end.

Definition OverlappedReduce (results : list OverlappedErrorOr) : result error (Output * nat) :=
  match first_success results [] with
  | Val success => Val success
  | Err errorv =>
      let errorv := if (length errorv <=? 0)%nat then errorv ++ [ErrGenericOverlappedFailure] else errorv in
      Err (ErrJoin errorv)
  end.

(** A goroutine of [transact]: running the call, or at the write of its result. *)
Inductive transaction :=
  | Running (idx : nat)
  | Writing (res : OverlappedErrorOr).

Definition transaction_index (t : transaction) : nat :=
  match t with Running idx => idx | Writing res => oeo_Index res end.

(** The loop: at its condition, or at [select]. *)
Inductive loop_at := AtTop | AtSelect.

Record overlapped := mkOverlapped {
  ov_at : loop_at;
  ov_idx : nat;
  ov_goroutines : list transaction;
  ov_results : list OverlappedErrorOr;
  ov_ticking : bool;
  (* a tick waits in [ticker.C], where [Stop] leaves it *)
  ov_tick : bool;
  ov_cancelled : bool;
}.

Definition overlapped_start : overlapped := mkOverlapped AtTop 0 [] [] true false false.

(** [runs idx res]: [RunFunc] may answer [res] for the endpoint [idx]; [n] is [len(epnts)]. *)
Inductive overlapped_step (n : nat) (runs : nat → result error Output → Prop) : overlapped → overlapped → Prop :=
  (* go ovx.transact(ctx, idx, epnts[idx], output) *)
  | step_spawn s :
      ov_at s = AtTop → (length (ov_results s) < n)%nat → (ov_idx s < n)%nat →
      overlapped_step n runs s (s <| ov_at := AtSelect |> <| ov_idx ::= S |>
                                  <| ov_goroutines ::= λ l, l ++ [Running (ov_idx s)] |>)
  (* else { ticker.Stop() } *)
  | step_stop s :
      ov_at s = AtTop → (length (ov_results s) < n)%nat → (n ≤ ov_idx s)%nat →
      overlapped_step n runs s (s <| ov_at := AtSelect |> <| ov_ticking := false |>)
  (* value, err := ovx.RunFunc(ctx, epnt) *)
  | step_finish s before idx after res :
      ov_goroutines s = before ++ Running idx :: after → runs idx res →
      overlapped_step n runs s (s <| ov_goroutines := before ++ Writing (mkErrorOr idx res) :: after |>)
  (* case res := <-output *)
  | step_receive s before res after :
      ov_at s = AtSelect → ov_goroutines s = before ++ Writing res :: after →
      overlapped_step n runs s
        (let s := s <| ov_at := AtTop |> <| ov_goroutines := before ++ after |>
                    <| ov_results ::= λ l, l ++ [res] |> in
         match oeo_Result res with
         | Val _ => s <| ov_ticking := false |> <| ov_cancelled := true |>
         | Err _ => s
         end)
  (* the ticker ticks; a tick that finds another one is lost *)
  | step_tick s :
      ov_ticking s = true → ov_tick s = false →
      overlapped_step n runs s (s <| ov_tick := true |>)
  (* case <-ticker.C *)
  | step_ticked s :
      ov_at s = AtSelect → ov_tick s = true →
      overlapped_step n runs s (s <| ov_at := AtTop |> <| ov_tick := false |>).

Inductive overlapped_reachable (n : nat) (runs : nat → result error Output → Prop) : overlapped → Prop :=
  | overlapped_init : overlapped_reachable n runs overlapped_start
  | overlapped_next s s' :
      overlapped_reachable n runs s → overlapped_step n runs s s' → overlapped_reachable n runs s'.

(** The loop is over. *)
Definition overlapped_done (n : nat) (s : overlapped) : Prop := ov_at s = AtTop ∧ (n ≤ length (ov_results s))%nat.

(** ** The invariant *)

Record overlapped_inv (n : nat) (runs : nat → result error Output → Prop) (s : overlapped) : Prop := {
  oi_bound : (ov_idx s ≤ n)%nat;
  oi_indices : (transaction_index <$> ov_goroutines s) ++ (oeo_Index <$> ov_results s) ≡ₚ seq 0 (ov_idx s);
  oi_writing res : Writing res ∈ ov_goroutines s → runs (oeo_Index res) (oeo_Result res);
  oi_results : Forall (λ res, runs (oeo_Index res) (oeo_Result res)) (ov_results s);
  oi_select : ov_at s = AtSelect → (length (ov_results s) < ov_idx s)%nat;
}.

Section facts.
Context (n : nat) (runs : nat → result error Output → Prop).

Lemma overlapped_step_inv s s' : overlapped_inv n runs s → overlapped_step n runs s s' → overlapped_inv n runs s'.
Proof.
  intros [Hb Hi Hw Hr Hs] Hstep.
  assert (Hcount : (length (ov_goroutines s) + length (ov_results s) = ov_idx s)%nat).
  { apply Permutation_length in Hi. by rewrite length_app, !length_fmap, length_seq in Hi. }
  destruct Hstep as [s Hat Hl Hidx|s Hat Hl Hidx|s b i a res Hg Hrun|s b res a Hat Hg|s Ht Hb'|s Hat Ht];
    destruct s as [at_ idx gs rs ticking tick can]; cbn [ov_at ov_idx ov_goroutines ov_results ov_ticking ov_tick] in *; try subst at_; try subst gs.
  - split; cbn; unfold apply_update, constant; try done; try lia.
    + change (0%nat :: seq 1 idx) with (seq 0 (S idx)). rewrite fmap_app, seq_S, <-Hi. cbn. solve_Permutation.
    + intros res. rewrite elem_of_app, list_elem_of_singleton. intros [?|?]; [by apply Hw|done].
  - split; cbn; unfold apply_update, constant; try done; try lia.
  - split; cbn; unfold apply_update, constant; try done.
    + rewrite <-Hi, !fmap_app. done.
    + intros res'. rewrite elem_of_app, elem_of_cons. intros Hin. 
      destruct Hin as [?|[[= ->]|?]]; [apply Hw; set_solver|done|apply Hw; set_solver].
  - assert (Hres : runs (oeo_Index res) (oeo_Result res)) by (apply Hw; set_solver).
    assert (Hperm : (transaction_index <$> b ++ a) ++ (oeo_Index <$> rs ++ [res]) ≡ₚ seq 0 idx).
    { rewrite <-Hi, !fmap_app. cbn. solve_Permutation. }
    destruct (oeo_Result res) as [v|e] eqn:Er; split; cbn; unfold apply_update, constant; try done;
      try (intros res' Hin; apply Hw; set_solver); (apply Forall_app; split; [done|constructor; [by rewrite Er|done]]).
  - split; cbn; unfold apply_update, constant; try done.
  - split; cbn; unfold apply_update, constant; try done.
Qed.

Lemma overlapped_reachable_inv s : overlapped_reachable n runs s → overlapped_inv n runs s.
Proof.
  induction 1 as [|s s' _ IH Hs]; [|by eapply overlapped_step_inv].
  split; cbn; [lia|done|by intros res ?%not_elem_of_nil|constructor|done].
Qed.

(** ** Termination and progress *)

Definition transaction_weight (t : transaction) : nat := match t with Running _ => 3 | Writing _ => 2 end.

Definition overlapped_measure (s : overlapped) : nat :=
  6 * (n - ov_idx s) + sum_list_with transaction_weight (ov_goroutines s) +
  match ov_at s, ov_ticking s, ov_tick s with
  | AtSelect, true, false => 6
  | AtSelect, true, true => 5
  | AtTop, true, false => 4
  | AtTop, _, true => 3
  | AtSelect, false, true => 2
  | AtTop, false, false => 1
  | AtSelect, false, false => 0
  end.

Lemma overlapped_measure_step s s' : overlapped_step n runs s s' → (overlapped_measure s' < overlapped_measure s)%nat.
Proof.
  intros Hstep. unfold overlapped_measure.
  destruct Hstep as [s Hat Hl Hidx|s Hat Hl Hidx|s b i a res Hg Hrun|s b res a Hat Hg|s Ht Hb|s Hat Ht];
    destruct s as [at_ idx gs rs ticking tick can]; cbn [ov_at ov_idx ov_goroutines ov_results ov_ticking ov_tick] in *; subst;
    try destruct (oeo_Result res); cbn; unfold apply_update, constant; rewrite ?sum_list_with_app; cbn; repeat case_match; simplify_eq; lia.
Qed.

Lemma overlapped_terminates s : Acc (λ s' s, overlapped_step n runs s s') s.
Proof.
  remember (overlapped_measure s) as m eqn:E. revert s E. induction m as [m IH] using lt_wf_ind. intros s ->.
  constructor. intros s' Hs. eapply IH; [|done]. by apply overlapped_measure_step.
Qed.

Lemma overlapped_progress s :
  overlapped_reachable n runs s → (∀ i, (i < n)%nat → ∃ res, runs i res) → ¬ overlapped_done n s →
  ∃ s', overlapped_step n runs s s'.
Proof.
  intros Hr Htotal Hnd. apply overlapped_reachable_inv in Hr as [Hb Hi _ _ Hs].
  destruct (ov_at s) eqn:Hat.
  - assert (Hl : (length (ov_results s) < n)%nat).
    { destruct (Nat.lt_ge_cases (length (ov_results s)) n); [done|]. by destruct Hnd. }
    destruct (Nat.lt_ge_cases (ov_idx s) n); eexists; [by apply step_spawn|by apply step_stop].
  - specialize (Hs eq_refl). assert (Hlen := Permutation_length Hi).
    rewrite length_app, !length_fmap, length_seq in Hlen.
    destruct (ov_goroutines s) as [|t gs] eqn:Hg; [cbn in Hlen; lia|].
    assert (Ht : (transaction_index t < n)%nat).
    { assert (Hin : transaction_index t ∈ seq 0 (ov_idx s)) by (rewrite <-Hi; set_solver).
      apply elem_of_seq in Hin. lia. }
    destruct t as [i|res].
    + destruct (Htotal i Ht) as [res Hres]. eexists. by apply (step_finish _ _ _ [] i gs res).
    + eexists. by apply (step_receive _ _ _ [] res gs).
Qed.

(** ** The results *)

Lemma first_success_spec results errorv :
  match first_success results errorv with
  | Val (value, i) => ∃ pre post, results = pre ++ mkErrorOr i (Val value) :: post ∧
      ∀ r, r ∈ pre → ∃ err, oeo_Result r = Err err
  | Err errors => ∃ errs, errors = errorv ++ errs ∧ oeo_Result <$> results = Err <$> errs
  end.
Proof.
  revert errorv. induction results as [|[i res] results IH]; intros errorv; cbn [first_success oeo_Result oeo_Index].
  - exists []. by rewrite app_nil_r.
  - destruct res as [v|e].
    + exists [], results. split; [done|]. by intros r ?%not_elem_of_nil.
    + specialize (IH (errorv ++ [e])). destruct (first_success results (errorv ++ [e])) as [[v j]|errors].
      * destruct IH as (pre & post & -> & Hpre). exists (mkErrorOr i (Err e) :: pre), post. split; [done|].
        intros r [->|Hr]%elem_of_cons; [by eexists|by apply Hpre].
      * destruct IH as (errs & -> & E). exists (e :: errs). split; [by rewrite <-app_assoc|]. cbn. by rewrite E.
Qed.

(** C27: the overlapped calls terminate and never deadlock, provided that each call returns (a tick may be left in the stopped ticker); at
    the end every endpoint was called exactly once and no goroutine is left; the answer is
    the first success that arrived, with the index of its endpoint, or all the errors joined (a
    generic failure without endpoints). *)
Theorem Overlapped_Run_spec s (Hs : overlapped_reachable n runs s) (Htotal : ∀ i, (i < n)%nat → ∃ res, runs i res) :
  Acc (λ s' s, overlapped_step n runs s s') s ∧
  (¬ overlapped_done n s → ∃ s', overlapped_step n runs s s') ∧
  (overlapped_done n s →
     oeo_Index <$> ov_results s ≡ₚ seq 0 n ∧ ov_goroutines s = [] ∧
     match OverlappedReduce (ov_results s) with
     | Val (value, i) => (i < n)%nat ∧ runs i (Val value) ∧
         ∃ pre post, ov_results s = pre ++ mkErrorOr i (Val value) :: post ∧ ∀ r, r ∈ pre → ∃ err, oeo_Result r = Err err
     | Err err => ∃ errs, oeo_Result <$> ov_results s = Err <$> errs ∧
         err = ErrJoin (if decide (n = 0%nat) then [ErrGenericOverlappedFailure] else errs)
     end).
Proof.
  split; [apply overlapped_terminates|]. split; [by apply overlapped_progress|]. intros [Hat Hlen].
  destruct (overlapped_reachable_inv s Hs) as [Hb Hi _ Hr _].
  assert (Hcount := Permutation_length Hi). rewrite length_app, !length_fmap, length_seq in Hcount.
  assert (Hg : ov_goroutines s = []) by (apply length_zero_iff_nil; lia).
  rewrite Hg in Hi, Hcount. cbn in Hi, Hcount. assert (Hn : ov_idx s = n) by lia. rewrite Hn in Hi.
  split; [done|]. split; [done|]. unfold OverlappedReduce.
  pose proof (first_success_spec (ov_results s) []) as Hf.
  destruct (first_success (ov_results s) []) as [[value i]|errors].
  - destruct Hf as (pre & post & E & Hpre). rewrite Forall_forall in Hr.
    assert (Hin : mkErrorOr i (Val value) ∈ ov_results s) by (rewrite E; set_solver).
    split_and!; [|by apply (Hr _ Hin)|by exists pre, post].
    assert (Hseq : i ∈ seq 0 n) by (rewrite <-Hi; apply list_elem_of_fmap; by exists (mkErrorOr i (Val value))).
    apply elem_of_seq in Hseq. lia.
  - destruct Hf as (errs & -> & E). exists errs. split; [done|].
    assert (Hle : length errs = n).
    { apply (f_equal length) in E. rewrite !length_fmap in E. lia. }
    cbn [app]. destruct errs as [|e errs]; cbn in Hle |- *; [by rewrite decide_True by lia|by rewrite decide_False by lia].
Qed.
End facts.
End overlapped.
Arguments OverlappedErrorOr : clear implicits.
Arguments overlapped : clear implicits.

(** ** The test helper that answered *)

(** For services of a known type, the index of the overlapped calls is the index of the
    service that answered. *)
Lemma service_index svcs (Hknown : Forall (λ svc, svc_Type svc = "https" ∨ svc_Type svc = "cloudfront") svcs) i :
  NewEndpointFromModelOOAPIServices svcs !! i = svcs !! i ≫= service_endpoint.
Proof.
  unfold NewEndpointFromModelOOAPIServices.
  assert (E : ∀ acc, foldl (λ epnts svc, match service_endpoint svc with Some epnt => epnts ++ [epnt] | None => epnts end) acc svcs =
    acc ++ omap service_endpoint svcs).
  { clear. induction svcs as [|svc svcs IH]; intros acc; cbn; [by rewrite app_nil_r|].
    rewrite IH. destruct (service_endpoint svc); [by rewrite <-app_assoc|done]. }
  rewrite E. cbn [app]. clear E. revert i. induction Hknown as [|svc svcs Hsvc _ IH]; intros i; [by destruct i|].
  assert (Hs : ∃ epnt, service_endpoint svc = Some epnt).
  { unfold service_endpoint. destruct Hsvc as [-> | ->]; by eexists. }
  destruct Hs as [epnt Hs]. cbn [omap list_omap]. rewrite Hs. destruct i as [|i]; cbn; [by rewrite Hs|apply IH].
Qed.

(** Where the answer of [OverlappedReduce] comes from. *)
Lemma OverlappedReduce_spec {Output} (results : list (OverlappedErrorOr Output)) :
  match OverlappedReduce results with
  | Val (value, i) => mkErrorOr i (Val value) ∈ results
  | Err err => ∃ errs, err = ErrJoin errs ∧
      ∀ e, e ∈ errs → e = ErrGenericOverlappedFailure ∨ ∃ r, r ∈ results ∧ oeo_Result r = Err e
  end.
Proof.
  unfold OverlappedReduce. pose proof (first_success_spec results []) as Hf.
  destruct (first_success results []) as [[value i]|errors].
  - destruct Hf as (pre & post & -> & _). set_solver.
  - destruct Hf as (errs & -> & E). cbn [app]. eexists. split; [done|]. intros e He.
    assert (Hin : e ∈ errs ∨ e = ErrGenericOverlappedFailure) by (destruct errs; cbn in He; set_solver).
    destruct Hin as [Hin|]; [right|by left].
    assert (Hr : (Err e : result error Output) ∈ oeo_Result <$> results) by (rewrite E; apply list_elem_of_fmap; by exists e).
    apply list_elem_of_fmap in Hr as (r & Hr & Hin'). by exists r.
Qed.

Lemma Overlapped_Run_spec_witness :
  let runs := λ (i : nat) (res : result error string), res = Val "ok" in
  overlapped_reachable 2 runs overlapped_start ∧ (∀ i, (i < 2)%nat → ∃ res, runs i res) ∧
  ∃ s', overlapped_step 2 runs overlapped_start s'.
Proof.
  intros runs. assert (Hr : overlapped_reachable 2 runs overlapped_start) by constructor.
  assert (Ht : ∀ i, (i < 2)%nat → ∃ res, runs i res) by (intros i _; eexists; reflexivity).
  split; [exact Hr|]. split; [exact Ht|].
  destruct (Overlapped_Run_spec 2 runs overlapped_start Hr Ht) as (_ & Hp & _). apply Hp. intros [_ Hl]. cbn in Hl. lia.
Defined.

(** ** What one call returns *)

Lemma string_length_take_le n s : (String.length (string_take n s) ≤ n)%nat.
Proof. revert s. induction n as [|n IH]; intros [|c s]; cbn; try lia. specialize (IH s). lia. Qed.

Lemma string_length_take_lt n s : (n ≤ String.length s)%nat → String.length (string_take n s) = n.
Proof. revert s. induction n as [|n IH]; intros [|c s]; cbn; try lia. intros Hs. rewrite IH; lia. Qed.

Lemma NewTopLevel_some err : ∃ e, NewTopLevelGenericErrWrapper (Some err) = Ok e.
Proof.
  unfold NewTopLevelGenericErrWrapper, NewErrWrapper. simpl.
  destruct (errors_As as_ErrWrapper err) as [[[]]|]; by eexists.
Qed.

Lemma maxResponseBodySize_range limit : limit ≤ int64_max → 0 < maxResponseBodySize limit ≤ int64_max.
Proof.
  unfold maxResponseBodySize. destruct (Z.leb_spec limit 0); [|lia]. intros _.
  by vm_compute.
Qed.

(** Reading one byte more than the maximum tells a body that fits from a longer one. *)
Lemma ReadAll_fits ctx_Err r max :
  0 < max →
  ∃ res, ReadAllContext ctx_Err r (max + 1) = Ok res ∧
    ∀ body, res = Val body → Z.of_nat (String.length body) ≤ max →
      body = rd_bytes r ∧ (rd_end r = None ∨ ∃ err, rd_end r = Some err ∧ errors_Is err io_EOF = true).
Proof.
  intros Hmax. unfold ReadAllContext. destruct ctx_Err as [err|].
  { destruct (NewTopLevel_some err) as [e ->]. eexists. by split. }
  unfold read_limited. destruct (Z.leb_spec (max + 1) (Z.of_nat (String.length (rd_bytes r)))) as [Hl|Hl].
  - eexists. split; [done|]. intros body [= <-] Hb. rewrite string_length_take_lt in Hb by lia. lia.
  - destruct (rd_end r) as [err|] eqn:Er; [|eexists; split; [done|]; intros body [= <-] _; by auto].
    destruct (errors_Is err io_EOF) eqn:Ee.
    + eexists. split; [done|]. intros body [= <-] _. split; [done|]. right. by exists err.
    + destruct (NewTopLevel_some err) as [e ->]. eexists. by split.
Qed.

(** A call never panics, and returns a body only for a response with status 200 whose (decompressed)
    body was read to its end without an error and is not larger than the limit. *)
Theorem do_spec limit gunzip ctx_Err client_Do (Hlimit : limit < int64_max) :
  ∃ res, do limit gunzip ctx_Err client_Do = Ok res ∧
    ∀ body, res = Val body →
      ∃ resp r, client_Do = Val resp ∧ rs_StatusCode resp = 200 ∧
        (if rs_gzip resp then gunzip (rs_Body resp) = Val r else r = rs_Body resp) ∧
        body = rd_bytes r ∧ (rd_end r = None ∨ ∃ err, rd_end r = Some err ∧ errors_Is err io_EOF = true) ∧
        Z.of_nat (String.length body) ≤ maxResponseBodySize limit.
Proof.
  unfold do. destruct client_Do as [resp|err]; [|eexists; by split].
  destruct (if rs_gzip resp then gunzip (rs_Body resp) else Val (rs_Body resp)) as [r|err] eqn:Er; [|eexists; by split].
  assert (Hmax : 0 < maxResponseBodySize limit < int64_max).
  { unfold maxResponseBodySize. destruct (Z.leb_spec limit 0); [by vm_compute|lia]. }
  set (max := maxResponseBodySize limit) in *.
  rewrite wrap64_id by (unfold is_int64, int64_min, int64_max in *; lia).
  destruct (ReadAll_fits ctx_Err r max) as (res & -> & Hres); [lia|]. cbn [mbind outcome_bind].
  destruct res as [body|err]; [|eexists; by split].
  destruct (Z.ltb_spec max (Z.of_nat (String.length body))) as [Hl|Hl]; [eexists; by split|].
  destruct (Z.eqb_spec (rs_StatusCode resp) 200) as [Hc|Hc]; cbn [negb]; [|eexists; by split].
  eexists. split; [done|]. intros body' [= <-]. destruct (Hres body eq_refl Hl) as [Hb Hend].
  exists resp, r. split_and!; try done. destruct (rs_gzip resp); [done|by injection Er].
Qed.

Lemma do_spec_witness :
  let resp := mkResponse 200 false (mkReader "{}" None) in
  0 < int64_max ∧ do 0 (λ r, Val r) None (Val resp) = Ok (Val "{}").
Proof.
  intros resp. assert (H : 0 < int64_max) by reflexivity. split; [exact H|].
  destruct (do_spec 0 (λ r, Val r) None (Val resp) H) as (res & E & _).
  vm_compute in E. injection E as <-. vm_compute. reflexivity.
Defined.
