(* ===== verification/LteControl.v ===== *)
(** * Web Connectivity LTE: calling the test helper

    [webconnectivityalgo/calltesthelpers.go] and [Run] of [control.go]: the request goes to the
    overlapped endpoints of the test helpers, the response and the helper that gave it
    are recorded in the test keys. *)
From S2P Require Import Prelude Failures GoString GoURL GoNet Archival LteTestKeys LtePriority.
From S2P Require Import LteFlow NetErrors.
From S2P Require Import GoRegexp Scrubber Overlapped.

(** ** [tracex.NewFailure] and [tracex.NewFailedOperation] *)

Definition NewFailureStr (err : option error) : outcome string :=
  match err with
  | None => Ok ""
  | Some err =>
      errWrapper ← match errors_As as_ErrWrapper err with
        | Some w => Ok (Some w)
        | None => e ← NewTopLevelGenericErrWrapper (Some err); Ok (errors_As as_ErrWrapper e)
        end;
      match errWrapper with
      | None => Panic "we should have an ErrWrapper here"
      | Some (failure, _, _) =>
          Ok (if bool_decide (failure = "") then "unknown_failure: errWrapper.Failure is empty" else failure)
      end
  end.

Definition ToFailure (fs : string) : option string :=
  if negb (bool_decide (fs = "")) then Some fs else None.

Definition tracex_NewFailure (err : option error) : outcome (option string) := ToFailure <$> NewFailureStr err.

Definition UnknownOperation : string := "unknown".

Definition NewFailedOperation (err : option error) : option string :=
  match err with
  | None => None
  | Some err =>
      match errors_As as_ErrWrapper err with
      | Some (_, operation, _) => if negb (bool_decide (operation = "")) then Some operation else Some UnknownOperation
      | None => Some UnknownOperation
      end
  end.

(** ** Calling the test helpers *)

Definition ErrNoAvailableTestHelpers : error :=
  ErrValue "ErrNoAvailableTestHelpers" [] "no available helpers".

Section call.
(** The results that [Map] collects for the endpoints, in their order of arrival. *)
Context (overlapped_Map : list Endpoint → list (OverlappedErrorOr (option THResponse))).

Definition CallWebConnectivityTestHelper (testhelpers : list OOAPIService) :
    outcome (result error (option THResponse * nat)) :=
  if (length testhelpers <=? 0)%nat then Ok (Err ErrNoAvailableTestHelpers)
  else
    match OverlappedReduce (overlapped_Map (NewEndpointFromModelOOAPIServices testhelpers)) with
    | Err err => Ok (Err err)
    | Val (cresp, idx) =>
        _ ← Assert (idx <? length testhelpers)%nat "idx out of bounds";
        _ ← Assert (negb (IsNone cresp)) "out is nil";
        Ok (Val (cresp, idx))
    end.

(** [Run], with the DNS entries that the extra measurements are started with, if they are. *)
Definition control_Run `{RangeOrder} (creq : THRequest) (TestHelpers : list OOAPIService)
    (Addresses : list string) (tk : TestKeys) : outcome (TestKeys * option (list DNSEntry)) :=
  let tk := SetControlRequest (Some creq) tk in
  called ← CallWebConnectivityTestHelper TestHelpers;
  match called with
  | Err err =>
      err ← NewTopLevelGenericErrWrapper (Some err);
      failure ← tracex_NewFailure (Some err);
      Ok (SetControlFailure failure tk, None)
  | Val (cresp, idx) =>
      _ ← Assert (negb (IsNone cresp)) "cresp is nil";
      let tk := SetControl cresp tk in
      _ ← Assert (idx <? length TestHelpers)%nat "idx out of bounds";
      let tk := setTestHelper (TestHelpers !! idx) tk in
      resp ← Unwrap cresp;
      Ok (tk, Some (maybeStartExtraMeasurements Addresses (thdns_Addrs (th_DNS resp))))
  end.
End call.

(** ** What is recorded *)

(** The results of finished overlapped calls to endpoints that do not answer nil ([postJSON])
    and whose errors have failure strings of the specification, if they are wrapped. *)
Definition map_results (overlapped_Map : list Endpoint → list (OverlappedErrorOr (option THResponse)))
    (epnts : list Endpoint) : Prop :=
  ∃ runs s, overlapped_reachable (length epnts) runs s ∧ overlapped_done (length epnts) s ∧
    overlapped_Map epnts = ov_results s ∧
    (∀ i v, runs i (Val v) → v ≠ None) ∧ (∀ i err, runs i (Err err) → wrappers_ok err).

Lemma wrappers_ok_join errs : (∀ e, e ∈ errs → wrappers_ok e) → wrappers_ok (ErrJoin errs).
Proof.
  intros He f op e Hin. cbn [tree] in Hin. apply elem_of_cons in Hin as [?|Hin]; [done|].
  apply list_elem_of_In, in_concat in Hin as (l & Hl & Hin). apply in_map_iff in Hl as (e' & <- & He').
  eapply (He e'); by apply list_elem_of_In.
Qed.

Lemma postJSON_not_nil {Input Output} unmarshal (input : option Input) marshal send (v : option Output) :
  postJSON unmarshal input marshal send = Ok (Val v) → v ≠ None.
Proof.
  unfold postJSON. destruct input as [value|]; [|done]. cbn [NilSafetyErrorIfNil].
  destruct (marshal value) as [raw|]; [|done]. destruct (send raw) as [[body|]|]; cbn; [|done..].
  destruct (unmarshal body) as [[o|]|]; cbn; [|done..]. by intros [= <-].
Qed.

Lemma endpoints_length svcs : (length (NewEndpointFromModelOOAPIServices svcs) ≤ length svcs)%nat.
Proof.
  unfold NewEndpointFromModelOOAPIServices.
  cut (∀ acc, (length (foldl (λ epnts svc, match service_endpoint svc with Some epnt => epnts ++ [epnt] | None => epnts end) acc svcs)
    ≤ length acc + length svcs)%nat); [intros Hc; by rewrite Hc|].
  induction svcs as [|svc svcs IH]; intros acc; cbn; [lia|]. rewrite IH.
  destruct (service_endpoint svc); rewrite ?length_app; cbn; lia.
Qed.

(** The failure that is stored for an error. *)
Lemma control_failure err :
  wrappers_ok err → ∃ e failure, NewTopLevelGenericErrWrapper (Some err) = Ok e ∧
    tracex_NewFailure (Some e) = Ok (Some failure) ∧ failure_ok failure.
Proof.
  intros Hw. unfold NewTopLevelGenericErrWrapper, NewErrWrapper. cbn [mbind option_bind].
  assert (Hend : ∀ f op inner, failure_ok f → ∃ failure,
    tracex_NewFailure (Some (ErrWrapper f op inner)) = Ok (Some failure) ∧ failure_ok failure).
  { intros f op inner Hf. unfold tracex_NewFailure, NewFailureStr. rewrite as_ErrWrapper_self. cbn [mbind outcome_bind fmap outcome_fmap].
    unfold ToFailure. destruct (bool_decide_reflect (f = "")) as [->|Hne].
    - eexists. split; [done|]. by right.
    - rewrite bool_decide_false by done. by exists f. }
  destruct (errors_As as_ErrWrapper err) as [[[f op] e]|] eqn:E.
  - apply errors_As_Some in E as (w & Hin & E). destruct w; try done. cbn in E. injection E as -> -> ->.
    destruct (Hend f (classifyOperation op TopLevelOperation) err (Hw _ _ _ Hin)) as (failure & ? & ?). by eexists _, _.
  - rewrite (bool_decide_false (TopLevelOperation = "")) by done.
    destruct (Hend (ClassifyGenericError err) TopLevelOperation err (generic_ok err Hw)) as (failure & ? & ?). by eexists _, _.
Qed.

Lemma map_results_reduce overlapped_Map epnts :
  map_results overlapped_Map epnts →
  match OverlappedReduce (overlapped_Map epnts) with
  | Val (cresp, idx) => is_Some cresp ∧ (idx < length epnts)%nat
  | Err err => wrappers_ok err
  end.
Proof.
  intros (runs & s & Hr & Hdone & -> & Hnil & Hw).
  destruct (overlapped_reachable_inv _ _ _ Hr) as [Hb Hi _ Hres _]. rewrite Forall_forall in Hres.
  pose proof (OverlappedReduce_spec (ov_results s)) as Hspec.
  destruct (OverlappedReduce (ov_results s)) as [[cresp idx]|err].
  - split; [apply not_eq_None_Some; exact (Hnil _ _ (Hres _ Hspec))|].
    assert (Hseq : idx ∈ seq 0 (ov_idx s)).
    { rewrite <-Hi, elem_of_app. right. apply list_elem_of_fmap. by exists (mkErrorOr idx (Val cresp)). }
    apply elem_of_seq in Hseq. lia.
  - destruct Hspec as (errs & -> & Herrs). apply wrappers_ok_join. intros e [-> |(r & Hin & E)]%Herrs.
    + intros f op e Hin. cbn in Hin. by apply list_elem_of_singleton in Hin.
    + apply (Hw (oeo_Index r)). rewrite <-E. by apply Hres.
Qed.

(** the control measurement never panics; it records either a failure string of the
    specification and no response, or the response that arrived first without error, a test helper of the list, and starts
    the extra measurements; when every helper has a known type, the recorded helper is the one whose endpoint answered. *)
Theorem control_Run_spec `{RangeOrder} overlapped_Map creq TestHelpers Addresses tk
    (Hmap : map_results overlapped_Map (NewEndpointFromModelOOAPIServices TestHelpers)) :
  ∃ tk' extra, control_Run overlapped_Map creq TestHelpers Addresses tk = Ok (tk', extra) ∧
    lte_ControlRequest tk' = Some creq ∧
    match extra with
    | None => (∃ failure, lte_ControlFailure tk' = Some failure ∧ failure_ok failure) ∧ lte_Control tk' = lte_Control tk
    | Some _ => ∃ resp idx svc, lte_Control tk' = Some resp ∧
        OverlappedReduce (overlapped_Map (NewEndpointFromModelOOAPIServices TestHelpers)) = Val (Some resp, idx) ∧
        TestHelpers !! idx = Some svc ∧ lte_testHelper tk' = Some svc ∧
        (Forall (λ svc, svc_Type svc = "https" ∨ svc_Type svc = "cloudfront") TestHelpers →
         NewEndpointFromModelOOAPIServices TestHelpers !! idx = service_endpoint svc)
    end.
Proof.
  unfold control_Run, CallWebConnectivityTestHelper.
  assert (Hfail : ∀ err, wrappers_ok err → ∃ tk',
    (err ← NewTopLevelGenericErrWrapper (Some err); failure ← tracex_NewFailure (Some err);
     Ok (SetControlFailure failure (SetControlRequest (Some creq) tk), @None (list DNSEntry))) = Ok (tk', None) ∧
    lte_ControlRequest tk' = Some creq ∧
    (∃ failure, lte_ControlFailure tk' = Some failure ∧ failure_ok failure) ∧ lte_Control tk' = lte_Control tk).
  { intros err Hw. destruct (control_failure err Hw) as (e & failure & -> & Hf & Hok). cbn [mbind outcome_bind].
    rewrite Hf. cbn [mbind outcome_bind]. eexists. split_and!; [done..| |done]. by exists failure. }
  destruct (Nat.leb_spec (length TestHelpers) 0) as [Hlen|Hlen]; cbn [mbind outcome_bind].
  { destruct (Hfail ErrNoAvailableTestHelpers) as (tk' & E & Hr & Hf & Hc).
    { intros f op e Hin. cbn in Hin. by apply list_elem_of_singleton in Hin. }
    exists tk', None. by split_and!. }
  pose proof (map_results_reduce overlapped_Map (NewEndpointFromModelOOAPIServices TestHelpers) Hmap) as Hred.
  destruct (OverlappedReduce (overlapped_Map (NewEndpointFromModelOOAPIServices TestHelpers))) as [[cresp idx]|err] eqn:Er.
  2: { destruct (Hfail err Hred) as (tk' & E & Hr & Hf & Hc). exists tk', None. by split_and!. }
  destruct Hred as [[resp ->] Hidx]. pose proof (endpoints_length TestHelpers) as Hle.
  assert (Hlt : (idx <? length TestHelpers)%nat = true) by (apply Nat.ltb_lt; lia).
  rewrite Hlt. cbn [Assert mbind outcome_bind IsNone negb]. rewrite Hlt. cbn [Assert mbind outcome_bind Unwrap].
  eexists _, _. split; [done|]. split; [done|].
  destruct (lookup_lt_is_Some_2 TestHelpers idx) as [svc Hsvc]; [lia|].
  exists resp, idx, svc. split_and!; [done..|]. intros Hknown. rewrite service_index, Hsvc by done. done.
Qed.

Lemma control_Run_spec_witness :
  let request := {| thr_HTTPRequest := "https://x.org/"; thr_HTTPRequestHeaders := ∅;
                    thr_TCPConnect := []; thr_XQUICEnabled := false |} in
  let svcs := [{| svc_Address := "https://th.example"; svc_Type := "https"; svc_Front := "" |}] in
  let overlapped_Map := λ _ : list Endpoint, [mkErrorOr 0 (Err (ErrValue "EOF" [] "EOF") : result error (option THResponse))] in
  map_results overlapped_Map (NewEndpointFromModelOOAPIServices svcs) ∧
  ∃ tk' extra, @control_Run overlapped_Map range_ascending request svcs [] NewTestKeys = Ok (tk', extra) ∧
    lte_ControlRequest tk' = Some request.
Proof.
  intros request svcs overlapped_Map.
  assert (Hmap : map_results overlapped_Map (NewEndpointFromModelOOAPIServices svcs)).
  { exists (λ _ res, res = Err (ErrValue "EOF" [] "EOF")).
    exists (mkOverlapped AtTop 1 [] [mkErrorOr 0 (Err (ErrValue "EOF" [] "EOF"))] true false false).
    split_and!; [|split; first [reflexivity | apply Nat.leb_le; vm_compute; reflexivity]|done|by intros i v [=]|].
    - set (r := mkErrorOr 0 (Err (ErrValue "EOF" [] "EOF"))).
      apply (overlapped_next _ _ (mkOverlapped AtSelect 1 [Writing r] [] true false false));
        [apply (overlapped_next _ _ (mkOverlapped AtSelect 1 [Running 0] [] true false false));
           [apply (overlapped_next _ _ overlapped_start); [apply overlapped_init|]|]|].
      + apply (step_spawn _ _ overlapped_start); first [reflexivity | apply Nat.ltb_lt; vm_compute; reflexivity].
      + by apply (step_finish _ _ (mkOverlapped AtSelect 1 [Running 0] [] true false false) [] 0 []).
      + by apply (step_receive _ _ (mkOverlapped AtSelect 1 [Writing r] [] true false false) [] r []).
    - intros i err [= ->] f op e Hin. cbn in Hin. by apply list_elem_of_singleton in Hin. }
  split; [exact Hmap|].
  destruct (@control_Run_spec range_ascending overlapped_Map request svcs [] NewTestKeys Hmap) as (tk' & extra & E & Hr & _).
  exists tk', extra. split; [exact E|exact Hr].
Defined.

(** A helper of another type before the one that answered is recorded in its place. *)
Theorem wrong_test_helper `{RangeOrder} creq resp tk :
  let onion := {| svc_Address := "http://abc.onion"; svc_Type := "onion"; svc_Front := "" |} in
  let https := {| svc_Address := "https://th.example"; svc_Type := "https"; svc_Front := "" |} in
  let overlapped_Map := λ _ : list Endpoint, [mkErrorOr 0 (Val (Some resp))] in
  NewEndpointFromModelOOAPIServices [onion; https] = [NewEndpoint "https://th.example"] ∧
  ∃ tk' extra, control_Run overlapped_Map creq [onion; https] [] tk = Ok (tk', extra) ∧
    lte_testHelper tk' = Some onion.
Proof. intros onion https overlapped_Map. split; [done|]. by eexists _, _. Qed.
