(* ===== verification/LteTasks.v ===== *)
(** * Web Connectivity LTE: the tasks

    [dnsresolvers.go], [cleartextflow.go], [secureflow.go], [httpredirect.go] and [Run] of
    [control.go] as programs.  A program is a tree of atomic actions: a method of an object that the
    tasks share, a question to the network, the start of a goroutine.  The fields of the
    task structs that point to shared objects (the test keys, the identifiers, the DNS cache, the
    redirect counter, the wait group, the cookie jar, the DNS-over-HTTPS provider) are not
    fields here: they are the state that the actions update ([LtePool.v]).  The trace of a task is its own.
    Reading a page and sampling the bytes received run in goroutines that use this trace: the
    network answers with the order of their events. *)
From S2P Require Import Prelude Failures GoString GoNet GoURL GoHTTP Archival NetErrors NetDNS.
From S2P Require Import Tracing NetPrimitives.
From S2P Require Import LteTestKeys LtePriority LteFlow Overlapped LteControl.
From Stdlib Require Import Ascii.

(** ** The task structs *)

Record DNSResolvers := mkDNSResolvers {
  res_Domain : string;
  res_Depth : Z;
  res_URL : URL;
  res_ZeroTime : Time;
  res_CookieJar : bool;
  res_Referer : string;
  res_Session : bool;
  res_TestHelpers : list OOAPIService;
  res_UDPAddress : string;
}.

(** The fields that [CleartextFlow] and [SecureFlow] share; [PrioSelector] is the number of a selector. *)
Record CleartextFlow := mkCleartextFlow {
  fl_Address : string;
  fl_Classic : bool;
  fl_Depth : Z;
  fl_ZeroTime : Time;
  fl_CookieJar : bool;
  fl_FollowRedirects : bool;
  fl_HostHeader : string;
  fl_PrioSelector : option nat;
  fl_Referer : string;
  fl_UDPAddress : string;
  fl_URLPath : string;
  fl_URLRawQuery : string;
}.

Record SecureFlow := mkSecureFlow { sf_flow : CleartextFlow; sf_ALPN : list string; sf_SNI : string }.

(** [ExtraMeasurementsStarter] is the [DNSResolvers] that started the control. *)
Record Control := mkControl {
  ctl_Addresses : list string;
  ctl_ExtraMeasurementsStarter : DNSResolvers;
  ctl_PrioSelector : nat;
  ctl_TestHelpers : list OOAPIService;
  ctl_URL : URL;
}.

Inductive lookup_kind :=
  | LookupSystem
  | LookupUDP (udpAddress : string)
  | LookupHTTPS
  | WhoamiSystemV4
  | WhoamiUDPv4 (udpAddress : string).

(** What [go] starts. *)
Inductive goroutine :=
  | GoResolvers (t : DNSResolvers)
  | GoLookup (t : DNSResolvers) (kind : lookup_kind) (out : nat)
  | GoLateReplies (trace : Trace)
  | GoCleartext (t : CleartextFlow) (index : Z)
  | GoSecure (t : SecureFlow) (index : Z)
  | GoControl (c : Control).

(** The two types of channels of [run] and their elements. *)
Inductive chan_type := ChanAddrs | ChanWhoami.

Definition chan_elem (ct : chan_type) : Type :=
  match ct with ChanAddrs => list string | ChanWhoami => list DNSWhoamiInfoEntry end.

Inductive id_kind := IDGetaddrinfo | IDOverUDP | IDOverHTTPS | IDCleartext | IDSecure.

(** ** Programs *)

Inductive action : Type → Type :=
  (* an answer of the network or the clock *)
  | Env {A} (possible : A → Prop) : action A
  (* a method of the test keys *)
  | Update (f : TestKeys → TestKeys) : action unit
  | NewID (kind : id_kind) : action Z
  | CacheGet (domain : string) : action (list DNSEntry * bool)
  | CacheSet (domain : string) (values : list DNSEntry) : action unit
  | CanFollow : action bool
  | JarCookies (u : URL) : action (list string)
  | JarSetCookies (u : URL) (cookies : list string) : action unit
  | NextURL (now : Time) (shuffle : list string → list string) (random : Z) : action (option string)
  | WhoamiGet (now : Time) (name : string) : action (option DNSWhoamiInfoEntry)
  | WhoamiUpdate (now : Time) (name addr : string) : action unit
  | WgAdd : action unit
  | WgDone : action unit
  | MakeChan (ct : chan_type) : action nat
  | ChanSend (ct : chan_type) (ch : nat) (v : chan_elem ct) : action unit
  | ChanRecv (ct : chan_type) (ch : nat) : action (chan_elem ct)
  | NewSelector (addrs : list DNSEntry) : action nat
  (* ask a selector for permission, and wait for what [permissionToFetch] returns *)
  | AskPermission (ps : nat) (ipAddr : string) : action nat
  | AwaitPermission (ps : nat) (conn : nat) : action bool
  | Go (g : goroutine) : action unit.

Inductive task (A : Type) : Type :=
  | Ret (a : A)
  | Act {B} (e : action B) (k : B → task A)
  | Crash (why : string).
Arguments Ret {A} a.
Arguments Act {A B} e k.
Arguments Crash {A} why.

#[export] Instance task_ret : MRet task := λ A a, Ret a.
#[export] Instance task_bind : MBind task := λ A B f,
  fix bind (m : task A) : task B :=
    match m with
    | Ret a => f a
    | Act e k => Act e (λ b, bind (k b))
    | Crash why => Crash why
    end.

Definition act {B} (e : action B) : task B := Act e Ret.
Definition local {A} (m : outcome A) : task A := match m with Ok a => Ret a | Panic why => Crash why end.
Definition env (A : Type) : task A := act (Env (λ _ : A, True)).

(** [for _, x := range l { body }] *)
Fixpoint for_each {A} (l : list A) (body : A → task unit) : task unit :=
  match l with
  | [] => mret tt
  | x :: l => _ ← body x; for_each l body
  end.

(** [log] of the selectors: any text. *)
Definition ps_log : task unit := entry ← env ConnPriorityLogEntry; act (Update (AppendConnPriorityLogEntry entry)).

(** ** [httpredirect.go] *)

Definition errHTTPValidateRedirectMissingRequest : error :=
  ErrValue "errHTTPValidateRedirectMissingRequest" [] "httpValidateRedirect: missing request".
Definition ErrTooManyRedirects : error := ErrValue "ErrTooManyRedirects" [] "stopped after too many redirects".
(** A wrapper whose [WrappedErr] is nil. *)
Definition nil_error : error := ErrValue "nil" [] "".

Definition httpValidateRedirect (parse_error : string → error) (resp : Response) : option error :=
  match r_Request resp with
  | None => Some errHTTPValidateRedirectMissingRequest
  | Some _ =>
      match Location parse_error resp with
      | Err err => Some err
      | Val location =>
          if String.eqb (Host location) ""
          then Some (ErrWrapper FailureHTTPInvalidRedirectLocationHost HTTPRoundTripOperation nil_error)
          else None
      end
  end.

(** ** [iox.go] *)

(** [StreamAllContext] of a limited reader: [data] and [err] are everything that the body gives. *)
Definition StreamAllContext (limit : Z) (data : string) (err : option error) : outcome (string * option error) :=
  let body := string_take (Z.to_nat limit) data in
  if limit <=? Z.of_nat (String.length data) then Ok (body, None)
  else
    match err with
    | Some err =>
        if errors_Is err "EOF" then Ok (body, None)
        else err ← NewTopLevelGenericErrWrapper (Some err); Ok (body, Some err)
    | None => Ok (body, None)
    end.

(** ** The endpoint flows *)

(** The events of the goroutines that use a trace: reads, writes and ticks of the sampler. *)
Inductive io_step :=
  | IORead (raw : Z * option error)
  | IOWrite (raw : Z * option error)
  | IOTick.

Section tasks.
Context `{RangeOrder} `{Miekg}.
Context (LookupASN : string → Z * string).
Context (ToASCII : string → result error string).
Context (parse_error : string → error).
(** The headers of [model/http.go] and the cookies of a response. *)
Context (HTTPHeaderAccept HTTPHeaderAcceptLanguage HTTPHeaderUserAgent : string).
Context (resp_Cookies : Response → list string).

Definition run_io (conn : Conn) (st : Sampler * Trace) (step : io_step) : outcome (Sampler * Trace) :=
  let '(smpl, tx) := st in
  match step with
  | IORead raw => '(_, tx) ← conn_Read conn raw tx; Ok (smpl, tx)
  | IOWrite raw => '(_, tx) ← conn_Write conn raw tx; Ok (smpl, tx)
  | IOTick => Ok (sampler_tick smpl tx)
  end.

(** The sampler ticks while an operation runs. *)
Definition ticks (st : Sampler * Trace) : task (Sampler * Trace) :=
  n ← env nat; mret (Nat.iter n (λ st, sampler_tick st.1 st.2) st).

(** [AddCookie] *)
Definition AddCookie (h : Header) (cookie : string) : Header :=
  let c := header_Get h "Cookie" in
  header_Set h "Cookie" (if String.eqb c "" then cookie else c +:+ "; " +:+ cookie).

(** [urlHost] of both flows, for their scheme and its port. *)
Definition urlHost (t : CleartextFlow) (scheme default_port default_scheme : string) : result error string :=
  match SplitHostPort (fl_Address t) with
  | Err err => Err (AddrError err (fl_Address t))
  | Val (addr, port) =>
      let urlHost := if String.eqb (fl_HostHeader t) "" then addr else fl_HostHeader t in
      if String.eqb port default_port && String.eqb scheme default_scheme then Val urlHost
      else Val (JoinHostPort urlHost port)
  end.

Definition newHTTPRequest (t : CleartextFlow) (urlScheme default_port : string) : task (result error Request) :=
  match urlHost t urlScheme default_port urlScheme with
  | Err err => mret (Err err)
  | Val urlHost =>
      let httpURL := simple_URL urlScheme urlHost (fl_URLPath t) (fl_URLRawQuery t) in
      match NewRequest parse_error (url_String httpURL) with
      | Err err => mret (Err err)
      | Val httpReq =>
          let h := header_Set (r_Header httpReq) "Host" (fl_HostHeader t) in
          let h := header_Set h "Accept" HTTPHeaderAccept in
          let h := header_Set h "Accept-Language" HTTPHeaderAcceptLanguage in
          let h := header_Set h "Referer" (fl_Referer t) in
          let h := header_Set h "User-Agent" HTTPHeaderUserAgent in
          let httpReq := httpReq <| r_Header := h |> <| r_Host := fl_HostHeader t |> in
          if fl_CookieJar t then
            cookies ← act (JarCookies httpURL);
            mret (Val (httpReq <| r_Header ::= λ h, foldl AddCookie h cookies |>))
          else mret (Val httpReq)
      end
  end.

Definition maxbody : Z := Z.shiftl 1 19.

(** The event that marks the start or the end of the transaction. *)
Definition http_mark (tx : Trace) (operation network address : string) : task (Duration * Trace) :=
  let '(now, tx) := TimeSince tx (tx_zeroTime tx) in
  ev ← local (NewArchivalNetworkEvent (tx_index tx) now operation network address 0 None now (Tags tx));
  _ ← act (Update (AppendNetworkEvents [ev]));
  mret (now, tx).

(** [httpTransaction] of both flows; a response holds the request it answers. *)
Definition httpTransaction (t : CleartextFlow) (network address alpn : string) (conn : Conn) (req : Request)
    (st : Sampler * Trace) : task (option Response * option error * (Sampler * Trace)) :=
  let '(smpl, tx) := st in
  '(started, tx) ← http_mark tx "http_transaction_start" network address;
  '(steps, answer) ← act (Env (λ a : list io_step * result error Response,
      match a.2 with Val resp => r_Request resp = Some req | Err _ => True end));
  '(smpl, tx) ← local (foldM (run_io conn) (smpl, tx) steps);
  '(resp, body, err, st) ←
    match answer with
    | Err err =>
        err ← local (NewTopLevelGenericErrWrapper (Some err));
        mret (None, "", Some err, (smpl, tx))
    | Val resp =>
        let cookies := resp_Cookies resp in
        _ ← (if fl_CookieJar t && (0 <? length cookies)%nat then act (JarSetCookies (r_URL req) cookies) else mret tt);
        '(steps, data, err) ← env (list io_step * string * option error);
        st ← local (foldM (run_io conn) (smpl, tx) steps);
        '(body, err) ← local (StreamAllContext maxbody data err);
        mret (Some resp, body, err, st)
    end;
  err ←
    match err, resp with
    | None, Some resp =>
        if httpRedirectIsRedirect (StatusCode resp) then
          match httpValidateRedirect parse_error resp with
          | Some err => mret (Some err)
          | None =>
              if fl_FollowRedirects t then
                can ← act CanFollow;
                mret (if can : bool then None else Some ErrTooManyRedirects)
              else mret None
          end
        else mret None
    | _, _ => mret err
    end;
  let '(smpl, tx) := st in
  '(finished, tx) ← http_mark tx "http_transaction_done" network address;
  ev ← local (NewArchivalHTTPRequestResult parse_error (tx_index tx) started network address alpn "tcp"
    (Some req) resp maxbody body err finished (Tags tx));
  _ ← act (Update (PrependRequests [ev]));
  mret (resp, err, (smpl, tx)).

Definition maybeFollowRedirects (t : CleartextFlow) (resp : Response) : task unit :=
  if fl_FollowRedirects t && httpRedirectIsRedirect (StatusCode resp) then
    match Location parse_error resp with
    | Err _ => mret tt
    | Val location =>
        referer ← local (match r_Request resp with
          | Some req => Ok (url_String (r_URL req))
          | None => Panic "invalid memory address or nil pointer dereference"
          end);
        _ ← act WgAdd;
        act (Go (GoResolvers (mkDNSResolvers (Hostname location) (wrap64 (fl_Depth t + 1)) location (fl_ZeroTime t)
          (fl_CookieJar t) referer false [] (fl_UDPAddress t))))
    end
  else mret tt.

(** The deferred calls, the last one first. *)
Definition flow_deferred (st : Sampler * Trace) : task unit :=
  let '(smpl, tx) := st in
  let '(events, tx) := NetworkEvents tx in
  _ ← act (Update (AppendNetworkEvents events));
  let '(samples, _) := ExtractSamples smpl tx in
  act (Update (AppendNetworkEvents samples)).

(** [permissionToFetch], with the entry it logs when it returns. *)
Definition permissionToFetch (ps : nat) (address : string) : task bool :=
  match SplitHostPort address with
  | Err err => Crash ("net.SplitHostPort failed: " +:+ err)
  | Val (ipAddr, _) =>
      conn ← act (AskPermission ps ipAddr);
      granted ← act (AwaitPermission ps conn);
      _ ← ps_log;
      mret granted
  end.

Definition allowed_to_fetch (t : CleartextFlow) : task bool :=
  match fl_PrioSelector t with
  | None => mret false
  | Some ps => permissionToFetch ps (fl_Address t)
  end.

(** What both flows do once they may fetch the page. *)
Definition fetch (t : CleartextFlow) (urlScheme default_port alpn : string) (conn : Conn) (st : Sampler * Trace) : task unit :=
  httpReq ← newHTTPRequest t urlScheme default_port;
  match httpReq with
  | Err err =>
      _ ← (if String.eqb (fl_Referer t) "" then act (Update (SetFundamentalFailure (Some (Error err)))) else mret tt);
      flow_deferred st
  | Val httpReq =>
      '(httpResp, err, st) ← httpTransaction t "tcp" (fl_Address t) alpn conn httpReq st;
      match err, httpResp with
      | None, Some httpResp => _ ← maybeFollowRedirects t httpResp; flow_deferred st
      | _, _ => flow_deferred st
      end
  end.

(** The sockets that the system connects have a remote address. *)
Definition connects (connect : nat → string → string → result error (nat * Addr)) : Prop :=
  ∀ now network address id remote, connect now network address = Val (id, remote) → is_Some remote.

(** The trace and the TCP connect with which both flows start. *)
Definition flow_connect (t : CleartextFlow) (index : Z) : task (result error Conn * (Sampler * Trace)) :=
  timeNow ← env (nat → Time);
  let tx := NewTrace timeNow index (fl_ZeroTime t)
    (generateTagsForEndpoints (fl_Depth t) (fl_PrioSelector t) (fl_Classic t)) in
  connect ← act (Env connects);
  '(tcpConn, tx) ← local (NewDialerWithoutResolver connect "tcp" (fl_Address t) tx);
  st ← ticks ([], tx);
  let '(results, tx) := TCPConnects st.2 in
  _ ← act (Update (AppendTCPConnectResults results));
  mret (tcpConn, (st.1, tx)).

Definition CleartextFlow_Run (t : CleartextFlow) (index : Z) : task unit :=
  match allowedToConnect (fl_Address t) with
  | Some _ => mret tt
  | None =>
      '(tcpConn, st) ← flow_connect t index;
      match tcpConn with
      | Err _ => flow_deferred st
      | Val tcpConn =>
          permitted ← allowed_to_fetch t;
          if permitted : bool then fetch t "http" "80" "" tcpConn st else flow_deferred st
      end
  end.

Definition alpn (t : SecureFlow) : list string :=
  if (0 <? length (sf_ALPN t))%nat then sf_ALPN t else ["h2"; "http/1.1"].

Definition sni (t : SecureFlow) : result error string :=
  if negb (String.eqb (sf_SNI t) "") then Val (sf_SNI t)
  else
    match SplitHostPort (fl_Address (sf_flow t)) with
    | Err err => Err (AddrError err (fl_Address (sf_flow t)))
    | Val (addr, _) => Val addr
    end.

Definition SecureFlow_Run (sf : SecureFlow) (index : Z) : task unit :=
  let t := sf_flow sf in
  match allowedToConnect (fl_Address t) with
  | Some _ => mret tt
  | None =>
      '(tcpConn, st) ← flow_connect t index;
      match tcpConn with
      | Err _ => flow_deferred st
      | Val tcpConn =>
          match sni sf with
          | Err err =>
              _ ← act (Update (SetFundamentalFailure (Some (Error err))));
              flow_deferred st
          | Val tlsSNI =>
              let tlsConfig := mkTLSConfig (alpn sf) tlsSNI false false in
              newConn ← env (Conn → tls_Config → result error unit);
              handshake ← env (nat → Conn → tls_Config → result error ConnectionState);
              '(tlsConn, tx) ← local (tlsHandshakerConfigurable_Handshake newConn handshake tcpConn tlsConfig st.2);
              st ← ticks (st.1, tx);
              let '(results, tx) := TLSHandshakes st.2 in
              let st := (st.1, tx) in
              _ ← act (Update (AppendTLSHandshakes results));
              match tlsConn with
              | Err _ => flow_deferred st
              | Val tlsConn =>
                  let alpn := state_NegotiatedProtocol (MaybeTLSConnectionState (Some tlsConn)) in
                  permitted ← allowed_to_fetch t;
                  if permitted : bool then fetch t "https" "443" alpn tcpConn st else flow_deferred st
              end
          end
      end
  end.

(** ** [dnsresolvers.go] *)

Definition has_system_flag (addr : DNSEntry) : bool := has_flag (entry_Flags addr) DNSAddrFlagSystemResolver.

Definition start_cleartext (t : CleartextFlow) : task unit :=
  _ ← act WgAdd;
  index ← act (NewID IDCleartext);
  act (Go (GoCleartext t index)).

Definition start_secure (t : SecureFlow) : task unit :=
  _ ← act WgAdd;
  index ← act (NewID IDSecure);
  act (Go (GoSecure t index)).

Definition endpoint_flow (t : DNSResolvers) (ps : option nat) (scheme port : string) (addr : DNSEntry) : CleartextFlow := {|
  fl_Address := JoinHostPort (entry_Addr addr) port;
  fl_Classic := has_system_flag addr;
  fl_Depth := res_Depth t;
  fl_ZeroTime := res_ZeroTime t;
  fl_CookieJar := res_CookieJar t;
  fl_FollowRedirects := String.eqb (Scheme (res_URL t)) scheme;
  fl_HostHeader := Host (res_URL t);
  fl_PrioSelector := ps;
  fl_Referer := res_Referer t;
  fl_UDPAddress := res_UDPAddress t;
  fl_URLPath := Path (res_URL t);
  fl_URLRawQuery := RawQuery (res_URL t);
|}.

(** The flows that each function starts. *)
Definition cleartext_flows (t : DNSResolvers) (ps : nat) (addresses : list DNSEntry) : list CleartextFlow :=
  if negb (String.eqb (Scheme (res_URL t)) "http") then []
  else
    let port := if negb (String.eqb (Port (res_URL t)) "") then Port (res_URL t) else "80" in
    map (endpoint_flow t (Some ps) "http" port) addresses.

Definition startCleartextFlows (t : DNSResolvers) (ps : nat) (addresses : list DNSEntry) : task unit :=
  for_each (cleartext_flows t ps addresses) start_cleartext.

Definition secure_flows (t : DNSResolvers) (ps : nat) (addresses : list DNSEntry) : list SecureFlow :=
  let https := String.eqb (Scheme (res_URL t)) "https" in
  let ps := if https then Some ps else None in
  let urlPort := Port (res_URL t) in
  if negb (String.eqb urlPort "") && negb https then []
  else
    let port := if negb (String.eqb urlPort "") then urlPort else "443" in
    map (λ addr, mkSecureFlow (endpoint_flow t ps "https" port addr) ["h2"; "http/1.1"] (Hostname (res_URL t))) addresses.

Definition startSecureFlows (t : DNSResolvers) (ps : nat) (addresses : list DNSEntry) : task unit :=
  for_each (secure_flows t ps addresses) start_secure.

Definition maybeStartControlFlow (t : DNSResolvers) (ps : nat) (addresses : list DNSEntry) : task unit :=
  if res_Session t && (0 <? length (res_TestHelpers t))%nat then
    _ ← act WgAdd;
    act (Go (GoControl (mkControl (map entry_Addr addresses) t ps (res_TestHelpers t) (res_URL t))))
  else mret tt.

(** The addresses of a resolver are merged: an address keeps the flags of all the resolvers that found it. *)
Definition merge_addrs (flag : Z) (merged : gmap string DNSEntry) (addrs : list string) : gmap string DNSEntry :=
  foldl (λ merged addr,
    let entry := default {| entry_Addr := ""; entry_Flags := 0 |} (merged !! addr) in
    <[addr := {| entry_Addr := addr; entry_Flags := Z.lor (entry_Flags entry) flag |}]> merged) merged addrs.

Definition merge_all (systemAddrs udpAddrs httpsAddrs : list string) : list DNSEntry :=
  let merged := merge_addrs DNSAddrFlagSystemResolver ∅ systemAddrs in
  let merged := merge_addrs DNSAddrFlagUDP merged udpAddrs in
  let merged := merge_addrs DNSAddrFlagHTTPS merged httpsAddrs in
  foldl (λ entries '(_, entry), entries ++ [entry]) [] (range_map 32 merged).

Definition udpAddress (t : DNSResolvers) : task string :=
  if negb (String.eqb (res_UDPAddress t) "") then mret (res_UDPAddress t)
  else
    random ← act (Env (λ random : nat → nat, ∀ n, (0 < n)%nat → (random n < n)%nat));
    local (RandomDNSOverUDPResolverEndpointIPv4 random).

Definition lookup_chan (kind : lookup_kind) : chan_type :=
  match kind with LookupSystem | LookupUDP _ | LookupHTTPS => ChanAddrs | WhoamiSystemV4 | WhoamiUDPv4 _ => ChanWhoami end.

Definition start_lookup (t : DNSResolvers) (kind : lookup_kind) : task nat :=
  out ← act (MakeChan (lookup_chan kind)); _ ← act (Go (GoLookup t kind out)); mret out.

(** [run] *)
Definition DNSResolvers_run (t : DNSResolvers) : task (list DNSEntry) :=
  udpAddress ← udpAddress t;
  systemOut ← start_lookup t LookupSystem;
  udpOut ← start_lookup t (LookupUDP udpAddress);
  httpsOut ← start_lookup t LookupHTTPS;
  whoamiSystemV4Out ← start_lookup t WhoamiSystemV4;
  whoamiUDPv4Out ← start_lookup t (WhoamiUDPv4 udpAddress);
  systemAddrs ← act (ChanRecv ChanAddrs systemOut);
  udpAddrs ← act (ChanRecv ChanAddrs udpOut);
  httpsAddrs ← act (ChanRecv ChanAddrs httpsOut);
  whoamiSystemV4 ← act (ChanRecv ChanWhoami whoamiSystemV4Out);
  whoamiUDPv4 ← act (ChanRecv ChanWhoami whoamiUDPv4Out);
  _ ← act (Update (WithDNSWhoami (λ di, di <| SystemV4 := whoamiSystemV4 |>
                                           <| UDPv4 ::= <[udpAddress := whoamiUDPv4]> |>)));
  mret (merge_all systemAddrs udpAddrs httpsAddrs).

Definition DNSResolvers_Run (t : DNSResolvers) : task unit :=
  '(addresses, found) ← act (CacheGet (res_Domain t));
  addresses ← (if found : bool then mret addresses
    else addresses ← DNSResolvers_run t; _ ← act (CacheSet (res_Domain t) addresses); mret addresses);
  _ ← ps_log;
  ps ← act (NewSelector addresses);
  _ ← startCleartextFlows t ps addresses;
  _ ← startSecureFlows t ps addresses;
  maybeStartControlFlow t ps addresses.

(** *** The lookups *)

Definition depth_tag (t : DNSResolvers) : string := "depth=" +:+ Itoa (res_Depth t).

Definition new_trace (t : DNSResolvers) (index : Z) (tags : list string) : task Trace :=
  timeNow ← env (nat → Time); mret (NewTrace timeNow index (res_ZeroTime t) tags).

Definition addrs_of (res : result error (list string)) : list string :=
  match res with Val addrs => addrs | Err _ => [] end.

Definition lookupHostSystem (t : DNSResolvers) (out : nat) : task unit :=
  index ← act (NewID IDGetaddrinfo);
  tx ← new_trace t index ["classic"; depth_tag t];
  network ← env string;
  lookupfn ← env (nat → string → getaddrinfo_result);
  newId ← env (nat → Z);
  let reso := NewStdlibResolver LookupASN newId ToASCII (GetaddrinfoTransport network lookupfn) in
  '(addrs, tx) ← local (LookupHost reso (res_Domain t) tx);
  let '(queries, _) := DNSLookupsFromRoundTrip tx in
  _ ← act (Update (AppendQueries queries));
  act (ChanSend ChanAddrs out (addrs_of addrs)).

(** [do53SplitQueries] and [dohSplitQueries] *)
Definition split_queries (proper : string → bool) (input : list ArchivalDNSLookupResult) :
    list ArchivalDNSLookupResult * list ArchivalDNSLookupResult :=
  foldl (λ '(mine, other) query,
    if proper (dns_Engine query) then (mine ++ [query], other) else (mine, other ++ [query])) ([], []) input.

Definition do53SplitQueries := split_queries (λ engine, String.eqb engine "udp" || String.eqb engine "tcp").
Definition dohSplitQueries := split_queries (λ engine, String.eqb engine "doh").

(** What the network does in a lookup over UDP. *)
Record udp_env := mkUDPEnv {
  ue_newId : nat → Z;
  ue_connect : nat → string → string → result error (nat * Addr);
  ue_write : nat → string → Z * option error;
  ue_read : nat → string * option error;
  ue_aaaa_first : nat → bool;
}.

Definition lookupHostUDP (t : DNSResolvers) (udpAddress : string) (out : nat) : task unit :=
  index ← act (NewID IDOverUDP);
  tx ← new_trace t index [depth_tag t];
  net ← env udp_env;
  let dialer := NewDialerWithoutResolver (ue_connect net) in
  let reso := NewParallelResolver LookupASN (ue_newId net) ToASCII (ue_aaaa_first net)
    (UDPTransport (ue_write net) (ue_read net) dialer udpAddress) in
  '(addrs, tx) ← local (LookupHost reso (res_Domain t) tx);
  let '(queries, tx) := DNSLookupsFromRoundTrip tx in
  let '(do53, other) := do53SplitQueries queries in
  _ ← act (Update (AppendQueries do53));
  let '(events, tx) := NetworkEvents tx in
  _ ← act (Update (WithTestKeysDo53 (λ tkd, tkd <| do53_Queries ::= λ l, l ++ other |>
                                                 <| do53_NetworkEvents ::= λ l, l ++ events |>)));
  _ ← act (ChanSend ChanAddrs out (addrs_of addrs));
  _ ← act WgAdd;
  act (Go (GoLateReplies tx)).

(** [waitForLateReplies]: the loops of the transport post to the trace, which
    [DelayedDNSResponseWithTimeout] drains from time to time. *)
Definition late_batch (st : list ArchivalDNSLookupResult * Trace) (batch : Conn * string * DNSQuery * list (string * option error)) :
    outcome (list ArchivalDNSLookupResult * Trace) :=
  let '(events, tx) := st in
  let '(conn, endpoint, query, datagrams) := batch in
  '(_, tx) ← ownConnAndSendRecvLoop LookupASN endpoint conn query datagrams tx;
  let '(out, ch) := drain (tx_delayedDNSResponse tx) in
  Ok (events ++ out, tx <| tx_delayedDNSResponse := ch |>).

Definition waitForLateReplies (tx : Trace) : task unit :=
  batches ← env (list (Conn * string * DNSQuery * list (string * option error)));
  '(events, _) ← local (foldM late_batch ([], tx) batches);
  act (Update (AppendDNSLateReplies events)).

(** An HTTP client uses the trace of its context but does not panic. *)
Definition calm (Do : string → string → Trace → outcome (result error (Z * Header * result error string) * Trace)) : Prop :=
  ∀ url body tx, is_Ok (Do url body tx).

Definition lookupHostDNSOverHTTPS (t : DNSResolvers) (out : nat) : task unit :=
  now ← env Time;
  shuffle ← act (Env (λ shuffle : list string → list string, ∀ l, shuffle l ≡ₚ l));
  random ← act (Env (λ random : Z, 0 <= random < 2 ^ 32));
  next ← act (NextURL now shuffle random);
  match next with
  | None => act (ChanSend ChanAddrs out [])
  | Some URL =>
      index ← act (NewID IDOverHTTPS);
      tx ← new_trace t index [depth_tag t];
      newId ← env (nat → Z);
      aaaa_first ← env (nat → bool);
      Do ← act (Env calm);
      let reso := NewParallelResolver LookupASN newId ToASCII aaaa_first (DoHTransport parse_error Do URL) in
      '(addrs, tx) ← local (LookupHost reso (res_Domain t) tx);
      let '(queries, tx) := DNSLookupsFromRoundTrip tx in
      let '(doh, other) := dohSplitQueries queries in
      _ ← act (Update (AppendQueries doh));
      let '(events, tx) := NetworkEvents tx in
      let '(connects, tx) := TCPConnects tx in
      let '(handshakes, tx) := TLSHandshakes tx in
      _ ← act (Update (WithTestKeysDoH (λ tkdh, tkdh <| doh_Queries ::= λ l, l ++ other |>
        <| doh_NetworkEvents ::= λ l, l ++ events |> <| doh_TCPConnect ::= λ l, l ++ connects |>
        <| doh_TLSHandshakes ::= λ l, l ++ handshakes |>)));
      act (ChanSend ChanAddrs out (addrs_of addrs))
  end.

(** [lookup] of the whoami service, for a resolver that answers [res]. *)
Definition whoami_lookup (name : string) (out : nat) : task unit :=
  now ← env Time;
  mentry ← act (WhoamiGet now name);
  match mentry with
  | Some entry => act (ChanSend ChanWhoami out [entry])
  | None =>
      res ← env (result error (list string));
      let '(entries, addr) := whoami_result res in
      _ ← match addr with Some addr => act (WhoamiUpdate now name addr) | None => mret tt end;
      act (ChanSend ChanWhoami out entries)
  end.

Definition lookup_body (t : DNSResolvers) (kind : lookup_kind) (out : nat) : task unit :=
  match kind with
  | LookupSystem => lookupHostSystem t out
  | LookupUDP udpAddress => lookupHostUDP t udpAddress out
  | LookupHTTPS => lookupHostDNSOverHTTPS t out
  | WhoamiSystemV4 => whoami_lookup "system:///" out
  | WhoamiUDPv4 udpAddress => whoami_lookup udpAddress out
  end.

(** ** [control.go] *)

(** The calls of the test helpers that may happen are those of [map_results]. *)
Definition Control_Run (c : Control) : task unit :=
  let creq := control_request HTTPHeaderAccept HTTPHeaderAcceptLanguage HTTPHeaderUserAgent (url_String (ctl_URL c))
    (ctl_URL c) (ctl_Addresses c) in
  _ ← act (Update (SetControlRequest (Some creq)));
  overlapped_Map ← act (Env (λ overlapped_Map : list Endpoint → list (OverlappedErrorOr (option THResponse)),
    map_results overlapped_Map (NewEndpointFromModelOOAPIServices (ctl_TestHelpers c))));
  called ← local (CallWebConnectivityTestHelper overlapped_Map (ctl_TestHelpers c));
  match called with
  | Err err =>
      err ← local (NewTopLevelGenericErrWrapper (Some err));
      failure ← local (tracex_NewFailure (Some err));
      act (Update (SetControlFailure failure))
  | Val (cresp, idx) =>
      _ ← local (Assert (negb (IsNone cresp)) "cresp is nil");
      _ ← act (Update (SetControl cresp));
      _ ← local (Assert (idx <? length (ctl_TestHelpers c))%nat "idx out of bounds");
      _ ← act (Update (setTestHelper (ctl_TestHelpers c !! idx)));
      resp ← local (Unwrap cresp);
      let thOnly := maybeStartExtraMeasurements (ctl_Addresses c) (thdns_Addrs (th_DNS resp)) in
      _ ← startCleartextFlows (ctl_ExtraMeasurementsStarter c) (ctl_PrioSelector c) thOnly;
      startSecureFlows (ctl_ExtraMeasurementsStarter c) (ctl_PrioSelector c) thOnly
  end.

(** ** Goroutines *)

(** Each of them ends with its deferred [WaitGroup.Done], apart from the lookups, which their parent waits for. *)
Definition with_done (m : task unit) : task unit := _ ← m; act WgDone.

Definition body (g : goroutine) : task unit :=
  match g with
  | GoResolvers t => with_done (DNSResolvers_Run t)
  | GoLookup t kind out => lookup_body t kind out
  | GoLateReplies trace => with_done (waitForLateReplies trace)
  | GoCleartext t index => with_done (CleartextFlow_Run t index)
  | GoSecure t index => with_done (SecureFlow_Run t index)
  | GoControl c => with_done (Control_Run c)
  end.
End tasks.
