(* ===== verification/LtePool.v ===== *)
(** * Web Connectivity LTE: the tasks of a measurement together

    [measurer.go]: the tasks of [LteTasks.v] run in parallel on the objects that they share.  An action
    is one atomic update of the shared state; a message passes when its sender and its receiver
    are both ready; the selectors move by themselves, as in [LtePriority.v], and so does the wait of
    [Run].  The choice between the steps is the scheduler's.  The wait group counts in [Z]. *)
From S2P Require Import Prelude Failures GoString GoNet GoURL GoHTTP Archival NetErrors NetDNS.
From S2P Require Import Tracing NetPrimitives InputParser.
From S2P Require Import GoSort PipeSet Observation LteTestKeys LteClassic LteExt LtePriority.
From S2P Require Import LteFlow LteControl LteTasks.

(** [cookiejar.Jar] with the list of public suffixes. *)
Class CookieJar := {
  Jar : Type;
  NewJar : Jar;
  Cookies : Jar → URL → list string;
  SetCookies : URL → list string → Jar → Jar;
}.

(** ** The objects that the tasks share *)

(** [wg.Wait()] in [Run]: not called yet, asleep, about to be woken by the [Done] that brought the counter
    to zero, awake, and back in [Run]. *)
Inductive waiter :=
  | NotWaiting
  | Parked
  | Releasing
  | Woken
  | WaitReturned.

#[export] Instance waiter_eq_dec : EqDecision waiter.
Proof. solve_decision. Defined.

Record shared `{CookieJar} := mkShared {
  sh_tk : TestKeys;
  sh_ids : IDGenerator;
  sh_cache : DNSCache;
  sh_redirects : NumRedirects;
  sh_jar : Jar;
  sh_doh : OpportunisticDNSOverHTTPSURLProvider;
  sh_whoami : DNSWhoamiService;
  sh_wg : Z;
  sh_waiter : waiter;
  (* how many channels were made *)
  sh_chans : nat;
  sh_selectors : list (prioritySelector * system);
}.

Section pool.
Context `{CookieJar}.

(** [wg.Done()]: at zero it wakes [Run] up, if it waits. *)
Definition wg_done (s : shared) : shared :=
  s <| sh_wg ::= λ n, n - 1 |>
    <| sh_waiter ::= λ w, match w with Parked => if sh_wg s - 1 =? 0 then Releasing else Parked | _ => w end |>.

(** The steps of [wg.Wait()] on the counter [n]. *)
Definition wait_step (n : Z) (w w' : waiter) : Prop :=
  match w with
  | NotWaiting => w' = if n =? 0 then WaitReturned else Parked
  | Releasing => w' = Woken
  | Woken => n = 0 ∧ w' = WaitReturned
  | Parked | WaitReturned => False
  end.

Definition new_id (kind : id_kind) : IDGenerator → Z * IDGenerator :=
  match kind with
  | IDGetaddrinfo => NewIDForGetaddrinfo
  | IDOverUDP => NewIDForDNSOverUDP
  | IDOverHTTPS => NewIDForDNSOverHTTPS
  | IDCleartext => NewIDForEndpointCleartext
  | IDSecure => NewIDForEndpointSecure
  end.

(** An action that a task does by itself: its result, the state after it and what it starts.
    Where [Add] and [Done] panic ([pool_panics]) they do nothing. *)
Definition perform {B} (e : action B) : shared → B → shared → list goroutine → Prop :=
  match e in action B return shared → B → shared → list goroutine → Prop with
  | Env possible => λ s b s' gs, possible b ∧ s' = s ∧ gs = []
  | Update f => λ s _ s' gs, s' = s <| sh_tk ::= f |> ∧ gs = []
  | NewID kind => λ s b s' gs, b = (new_id kind (sh_ids s)).1 ∧ s' = s <| sh_ids := (new_id kind (sh_ids s)).2 |> ∧ gs = []
  | CacheGet domain => λ s b s' gs, b = cache_Get (sh_cache s) domain ∧ s' = s ∧ gs = []
  | CacheSet domain values => λ s _ s' gs, s' = s <| sh_cache ::= λ c, cache_Set c domain values |> ∧ gs = []
  | CanFollow => λ s b s' gs,
      b = (CanFollowOneMoreRedirect (sh_redirects s)).1 ∧
      s' = s <| sh_redirects := (CanFollowOneMoreRedirect (sh_redirects s)).2 |> ∧ gs = []
  | JarCookies u => λ s b s' gs, b = Cookies (sh_jar s) u ∧ s' = s ∧ gs = []
  | JarSetCookies u cookies => λ s _ s' gs, s' = s <| sh_jar ::= SetCookies u cookies |> ∧ gs = []
  | NextURL now shuffle random => λ s b s' gs,
      b = (MaybeNextURL now shuffle random (sh_doh s)).1 ∧
      s' = s <| sh_doh := (MaybeNextURL now shuffle random (sh_doh s)).2 |> ∧ gs = []
  | WhoamiGet now name => λ s b s' gs, b = lockAndGet (sh_whoami s) now name ∧ s' = s ∧ gs = []
  | WhoamiUpdate now name addr => λ s _ s' gs, s' = s <| sh_whoami ::= λ svc, lockAndUpdate svc now name addr |> ∧ gs = []
  | WgAdd => λ s _ s' gs, sh_waiter s ≠ Releasing ∧ s' = s <| sh_wg ::= λ n, n + 1 |> ∧ gs = []
  | WgDone => λ s _ s' gs, 0 < sh_wg s ∧ s' = wg_done s ∧ gs = []
  | MakeChan _ => λ s b s' gs, b = sh_chans s ∧ s' = s <| sh_chans ::= S |> ∧ gs = []
  | ChanSend _ _ _ => λ _ _ _ _, False
  | ChanRecv _ _ => λ _ _ _ _, False
  | NewSelector addrs => λ s b s' gs,
      b = length (sh_selectors s) ∧
      s' = s <| sh_selectors ::= λ l, l ++ [(newPrioritySelector addrs, mkSystem AwaitFirst ∅)] |> ∧ gs = []
  | AskPermission ps ipAddr => λ s b s' gs, ∃ p sys,
      sh_selectors s !! ps = Some (p, sys) ∧ sys_conns sys !! b = None ∧
      s' = s <| sh_selectors ::= <[ps := (p, sys <| sys_conns ::= <[b := (ipAddr, Asking)]> |>)]> |> ∧ gs = []
  | AwaitPermission ps conn => λ s b s' gs, ∃ p sys addr resp,
      sh_selectors s !! ps = Some (p, sys) ∧ sys_conns sys !! conn = Some (addr, Permission b resp) ∧ s' = s ∧ gs = []
  | Go g => λ s _ s' gs, s' = s ∧ gs = [g]
  end.

(** A task that goes on alone. *)
Definition task_step (s : shared) (t : task unit) (s' : shared) (t' : task unit) (gs : list goroutine) : Prop :=
  match t with
  | Act e k => ∃ b, perform e s b s' gs ∧ t' = k b
  | Ret _ | Crash _ => False
  end.

(** [ch <- v] in the first task and [<-ch] in the second one. *)
Definition rendezvous (t1 t2 t1' t2' : task unit) : Prop :=
  match t1, t2 with
  | Act e1 k1, Act e2 k2 =>
      match e1 in action B return (B → task unit) → Prop with
      | ChanSend ct ch v => λ k1,
          match e2 in action B return (B → task unit) → Prop with
          | ChanRecv ct' ch' => λ k2, ∃ E : ct = ct', ch = ch' ∧ t1' = k1 tt ∧ t2' = k2 (eq_rect ct chan_elem v ct' E)
          | _ => λ _, False
          end k2
      | _ => λ _, False
      end k1
  | _, _ => False
  end.

(** A step of a selector, which does not add connections: the tasks do. *)
Definition selector_step (ps : prioritySelector) (sys sys' : system) : Prop :=
  step ps sys sys' ∧ dom (sys_conns sys') = dom (sys_conns sys).

(** ** The pool: the shared state and the tasks *)

Context (run : goroutine → task unit).

Definition pool : Type := shared * list (task unit).

(** A step, with the goroutines that it starts. *)
Inductive pool_step : pool → list goroutine → pool → Prop :=
  | pool_task s s' l1 t t' l2 gs :
      task_step s t s' t' gs →
      pool_step (s, l1 ++ t :: l2) gs (s', l1 ++ t' :: l2 ++ map run gs)
  | pool_message s l1 t1 t1' l2 t2 t2' l3 :
      rendezvous t1 t2 t1' t2' ∨ rendezvous t2 t1 t2' t1' →
      pool_step (s, l1 ++ t1 :: l2 ++ t2 :: l3) [] (s, l1 ++ t1' :: l2 ++ t2' :: l3)
  | pool_selector s ts i ps sys sys' :
      sh_selectors s !! i = Some (ps, sys) → selector_step ps sys sys' →
      pool_step (s, ts) [] (s <| sh_selectors ::= <[i := (ps, sys')]> |>, ts)
  | pool_wait s ts w :
      wait_step (sh_wg s) (sh_waiter s) w →
      pool_step (s, ts) [] (s <| sh_waiter := w |>, ts).

(** When the next step of a task, or of the wait, is a panic. *)
Inductive pool_panics : pool → string → Prop :=
  | panics_crash s ts why : Crash why ∈ ts → pool_panics (s, ts) why
  | panics_negative s ts k : Act WgDone k ∈ ts → sh_wg s <= 0 → pool_panics (s, ts) "sync: negative WaitGroup counter"
  | panics_misuse s ts k :
      Act WgAdd k ∈ ts → sh_waiter s = Releasing → pool_panics (s, ts) "sync: WaitGroup misuse: Add called concurrently with Wait"
  | panics_reused s ts :
      sh_waiter s = Woken → sh_wg s ≠ 0 → pool_panics (s, ts) "sync: WaitGroup is reused before previous Wait has returned".

(** The steps through pools that satisfy [P], with all the goroutines they start. *)
Inductive pool_run (P : pool → Prop) : pool → list goroutine → pool → Prop :=
  | run_here p : P p → pool_run P p [] p
  | run_step p1 gs p2 gs' p3 : pool_run P p1 gs p2 → pool_step p2 gs' p3 → P p3 → pool_run P p1 (gs ++ gs') p3.

(** The wait group counts nobody. *)
Definition waited (p : pool) : Prop := sh_wg p.1 = 0.
End pool.

(** ** [measurer.go] *)

(** What the measurer reads of the session, of the measurement and of its configuration. *)
Record ExperimentArgs := mkExperimentArgs {
  arg_Input : string;
  arg_MeasurementStartTimeSaved : Time;
  arg_ResolverIP : string;
  arg_TestHelpers : list OOAPIService;
  arg_DNSOverUDPResolver : string;
}.

Definition experiment_urls : list string :=
  ["https://mozilla.cloudflare-dns.com/dns-query"; "https://dns.nextdns.io/dns-query"; "https://dns.google/dns-query";
   "https://dns.quad9.net/dns-query"].

Inductive run_error :=
  | NoInput
  | ParseError (err : parse_error)
  | ContextError
  | FundamentalFailure (failure : string).

(** The extensions that are registered and their versions. *)
Definition registerExtensions (extensions : gmap string Z) : gmap string Z :=
  foldl (λ m '(name, v), <[name := v]> m) extensions
    [("httpt", 0); ("dnst", 0); ("netevents", 0); ("tcpconnect", 0); ("tlshandshake", 0); ("tunnel", 0)].

Section measurer.
Context `{CookieJar}.
Context (ToASCII : string → result string string).
(** The provider of the measurer and the whoami service of the process live longer than the measurement. *)
Context (provider : OpportunisticDNSOverHTTPSURLProvider) (whoami : DNSWhoamiService).

(** [Run] up to the wait: the shared objects and the first task. *)
Definition Measurer_Start (args : ExperimentArgs) : outcome (result run_error (shared * DNSResolvers)) :=
  if String.eqb (arg_Input args) "" then Ok (Err NoInput)
  else
    parsed ← Parse ToASCII web_connectivity_config (arg_Input args);
    match parsed with
    | Err err => Ok (Err (ParseError err))
    | Val URL =>
        let tk := NewTestKeys <| lte_ClientResolver := arg_ResolverIP args |> in
        failure ← tracex_NewFailure (Some ErrNoAvailableTestHelpers);
        let tk := if (length (arg_TestHelpers args) <? 1)%nat then SetControlFailure failure tk else tk in
        Ok (Val (mkShared _ tk NewIDGenerator NewDNSCache (NewNumRedirects 10) NewJar provider whoami 0 NotWaiting 0 [],
          {| res_Domain := Hostname URL; res_Depth := 0; res_URL := URL;
             res_ZeroTime := arg_MeasurementStartTimeSaved args; res_CookieJar := true; res_Referer := "";
             res_Session := true; res_TestHelpers := arg_TestHelpers args;
             res_UDPAddress := arg_DNSOverUDPResolver args |}))
    end.

(** [resos.Start(ctx)] *)
Definition start_pool (run : goroutine → task unit) (s : shared) (t : DNSResolvers) : pool :=
  (s <| sh_wg ::= λ n, n + 1 |>, [run (GoResolvers t)]).

(** [Run] after the wait: the test keys, the test helper that is recorded and what is returned;
    [cancelled] tells whether the context was cancelled. *)
Definition Measurer_Finish `{RangeOrder} `{UnicodeTables} `{StableSort} (lookupper : GeoIPASNLookupper)
    (cancelled : bool) (s : shared) : outcome (TestKeys * option OOAPIService * option run_error) :=
  if cancelled then Ok (sh_tk s, None, Some ContextError)
  else
    tk ← Finalize lookupper (sh_tk s);
    Ok (tk, getTestHelper tk, FundamentalFailure <$> lte_fundamentalFailure tk).
End measurer.
