(* ===== verification/LteLogic.v ===== *)
(** * Web Connectivity LTE: a logic for the tasks

    Weakest preconditions for the programs of [LteTasks.v].  A task holds resources: units of the wait
    group, permissions to follow a redirect, channels on which it must send or receive, the
    permission of a selector to fetch the page, the transaction identifiers that nobody else uses.  An action may use the resources of its
    task only, starting a goroutine moves some of them to it, and a task ends
    with no duty left.  What follows for the pool is in [LteAdequacy.v]. *)
From S2P Require Import Prelude Failures GoString GoURL GoHTTP Archival Tracing NetPrimitives.
From S2P Require Import Observation LteTestKeys LtePriority LteFlow LteTasks LteFinalize.

#[export] Instance chan_type_eq_dec : EqDecision chan_type.
Proof. solve_decision. Defined.

(** ** Resources *)

(** A connection that a selector knows: the selector, the connection and its address. *)
Definition ticket : Type := nat * nat * string.

Record resources := mkResources {
  (* the goroutines that the task starts have a lower rank *)
  level : nat;
  (* redirects that it may follow *)
  credits : nat;
  (* units of the wait group *)
  wgs : nat;
  (* channels on which it has to send, and those from which it has to receive, in order *)
  owed : list (chan_type * nat);
  inbox : list (chan_type * nat);
  (* how many selectors it knows of *)
  sels : nat;
  (* the permission that it asked for, and the one that it got and did not use yet *)
  asked : option ticket;
  pass : option ticket;
  (* transaction identifiers that are its own *)
  ids : list Z;
}.

Definition final (_ : unit) (r : resources) : Prop := owed r = [] ∧ inbox r = [] ∧ wgs r = 0%nat.

(** Its parent waits for it, or the wait group does. *)
Definition busy (r : resources) : Prop := (0 < wgs r)%nat ∨ owed r ≠ [].

Definition rank (g : goroutine) : nat :=
  match g with
  | GoResolvers _ => 3
  | GoControl _ => 2
  | GoLookup _ _ _ => 1
  | GoLateReplies _ | GoCleartext _ _ | GoSecure _ _ => 0
  end.

Definition is_resolvers (g : goroutine) : bool := match g with GoResolvers _ => true | _ => false end.

(** What a goroutine starts with; [n] selectors exist. *)
Definition seed (n : nat) (g : goroutine) : resources :=
  match g with
  | GoResolvers _ | GoControl _ | GoLateReplies _ => mkResources (rank g) 0 1 [] [] n None None []
  | GoLookup _ kind out => mkResources (rank g) 0 0 [(lookup_chan kind, out)] [] n None None []
  | GoCleartext _ i | GoSecure _ i => mkResources (rank g) 0 1 [] [] n None None [i]
  end.

(** What remains to the task that starts it. *)
Definition spend (g : goroutine) (r r' : resources) : Prop :=
  match g with
  | GoResolvers _ => ∃ c w, credits r = S c ∧ wgs r = S w ∧ r' = (r <| credits := c |> <| wgs := w |>)
  | GoControl _ | GoLateReplies _ => ∃ w, wgs r = S w ∧ r' = (r <| wgs := w |>)
  | GoLookup _ kind out => ∃ l, owed r = (lookup_chan kind, out) :: l ∧ r' = (r <| owed := l |>)
  | GoCleartext _ i | GoSecure _ i =>
      ∃ w l, wgs r = S w ∧ ids r = i :: l ∧ r' = (r <| wgs := w |> <| ids := l |>)
  end.

Definition flow_ok (n : nat) (t : CleartextFlow) : Prop := ∀ ps, fl_PrioSelector t = Some ps → (ps < n)%nat.

(** ** Transactions *)

(** The transactions [mine] have no request yet and no handshake that failed. *)
Definition owns (mine : list Z) (tk : TestKeys) : Prop :=
  (∀ r, r ∈ lte_Requests tk → http_TransactionID r ∉ mine) ∧
  (∀ hs, hs ∈ lte_TLSHandshakes tk → tls_TransactionID hs ∈ mine → tls_Failure hs = None).

(** What is added belongs to the transactions [mine]. *)
Definition adds_only (mine : list Z) (tk tk' : TestKeys) : Prop :=
  (∀ r, r ∈ lte_Requests tk' → r ∈ lte_Requests tk ∨ http_TransactionID r ∈ mine) ∧
  (∀ hs, hs ∈ lte_TLSHandshakes tk' → hs ∈ lte_TLSHandshakes tk ∨ tls_TransactionID hs ∈ mine).

(** Every page has a transaction of its own, whose handshake did not fail. *)
Definition pages_ok (tk : TestKeys) : Prop :=
  pages_after_handshakes tk ∧ NoDup (http_TransactionID <$> lte_Requests tk).

(** An update of a task whose transactions are [mine] before and [mine'] after. *)
Definition tracked (mine mine' : list Z) (f : TestKeys → TestKeys) : Prop :=
  ∀ tk, owns mine tk → pages_ok tk → owns mine' (f tk) ∧ pages_ok (f tk) ∧ adds_only mine tk (f tk).

(** ** Permissions *)

(** The permission for [addr] was to fetch this page. *)
Definition page_of (addr : string) (req : ArchivalHTTPRequestResult) : Prop :=
  ∃ port, SplitHostPort (http_Address req) = Val (addr, port).

(** An update that adds a page takes the permission of the task. *)
Definition pays (f : TestKeys → TestKeys) (mine mine' : option ticket) : Prop :=
  (mine' = mine ∧ ∀ tk, lte_Requests (f tk) = lte_Requests tk) ∨
  ∃ ps conn addr req, mine = Some (ps, conn, addr) ∧ mine' = None ∧ page_of addr req ∧
    ∀ tk, lte_Requests (f tk) = req :: lte_Requests tk.

(** ** Weakest preconditions *)

Section logic.
(** What every update keeps. *)
Context (Inv : TestKeys → Prop).

(** The control may store its request for this URL. *)
Definition request_allowed (u : URL) : Prop :=
  ∀ tk creq, thr_HTTPRequest creq = url_String u → Inv tk → Inv (SetControlRequest (Some creq) tk).

Definition goroutine_ok (n : nat) (g : goroutine) : Prop :=
  match g with
  | GoResolvers t => res_Session t = true → request_allowed (res_URL t)
  | GoControl c => (ctl_PrioSelector c < n)%nat ∧ request_allowed (ctl_URL c)
  | GoCleartext t _ => flow_ok n t
  | GoSecure sf _ => flow_ok n (sf_flow sf)
  | GoLookup _ _ _ | GoLateReplies _ => True
  end.

Definition action_wp {B} (e : action B) (r : resources) : (B → resources → Prop) → Prop :=
  match e in action B return (B → resources → Prop) → Prop with
  | Env possible => λ Φ, (∃ b, possible b) ∧ ∀ b, possible b → Φ b r
  | Update f => λ Φ, busy r ∧ (∀ tk, Inv tk → Inv (f tk)) ∧
      ∃ mine' pass', mine' ⊆+ ids r ∧ tracked (ids r) mine' f ∧ pays f (pass r) pass' ∧
        Φ tt (r <| ids := mine' |> <| pass := pass' |>)
  | NewID (IDCleartext | IDSecure) => λ Φ, ∀ n, Φ n (r <| ids ::= cons n |>)
  | NewID _ => λ Φ, ∀ n, Φ n r
  | CacheGet _ => λ Φ, ∀ b, Φ b r
  | CacheSet _ _ => λ Φ, Φ tt r
  | CanFollow => λ Φ, Φ true (r <| credits ::= S |>) ∧ Φ false r
  | JarCookies _ => λ Φ, ∀ b, Φ b r
  | JarSetCookies _ _ => λ Φ, Φ tt r
  | NextURL _ _ _ => λ Φ, ∀ b, Φ b r
  | WhoamiGet _ _ => λ Φ, ∀ b, Φ b r
  | WhoamiUpdate _ _ _ => λ Φ, Φ tt r
  (* only the lookups may not be awaited *)
  | WgAdd => λ Φ, (busy r ∨ level r = 1%nat) ∧ Φ tt (r <| wgs ::= S |>)
  | WgDone => λ Φ, inbox r = [] ∧ ∃ w, wgs r = S w ∧ Φ tt (r <| wgs := w |>)
  | MakeChan ct => λ Φ, (0 < wgs r)%nat ∧
      ∀ n, Φ n (r <| owed ::= cons (ct, n) |> <| inbox ::= λ l, l ++ [(ct, n)] |>)
  | ChanSend ct ch _ => λ Φ, owed r = [(ct, ch)] ∧ inbox r = [] ∧ Φ tt (r <| owed := [] |>)
  | ChanRecv ct ch => λ Φ, owed r = [] ∧ ∃ l, inbox r = (ct, ch) :: l ∧ ∀ v, Φ v (r <| inbox := l |>)
  | NewSelector _ => λ Φ, ∀ n, (sels r ≤ n)%nat → Φ n (r <| sels := S n |>)
  | AskPermission ps addr => λ Φ, (ps < sels r)%nat ∧ ∀ conn, Φ conn (r <| asked := Some (ps, conn, addr) |>)
  | AwaitPermission ps conn => λ Φ, ∃ addr, asked r = Some (ps, conn, addr) ∧
      ∀ b : bool, Φ b (r <| asked := None |> <| pass := if b then Some (ps, conn, addr) else pass r |>)
  | Go g => λ Φ, goroutine_ok (sels r) g ∧ (is_resolvers g = true ∨ (rank g < level r)%nat) ∧
      ∃ r', spend g r r' ∧ (inbox r' = [] ∨ (0 < wgs r')%nat) ∧ Φ tt r'
  end.

Fixpoint wp {A} (t : task A) (r : resources) (Q : A → resources → Prop) : Prop :=
  match t with
  | Ret a => Q a r
  | Act e k => action_wp e r (λ b r', wp (k b) r' Q)
  | Crash _ => False
  end.

(** ** Rules *)

Lemma action_wp_mono {B} (e : action B) r (Φ Ψ : B → resources → Prop) :
  action_wp e r Φ → (∀ b r', Φ b r' → Ψ b r') → action_wp e r Ψ.
Proof. destruct e as [| |[]| | | | | | | | | | | | | | | | |]; cbn; naive_solver. Qed.

Lemma wp_mono {A} (t : task A) r (Q Q' : A → resources → Prop) :
  wp t r Q → (∀ a r', Q a r' → Q' a r') → wp t r Q'.
Proof.
  revert r. induction t as [a|B e k IH|why]; intros r Hwp HQ; cbn in *; [by apply HQ| |done].
  eapply action_wp_mono; [exact Hwp|]. intros b r' Hb. by eapply IH.
Qed.

Lemma wp_bind {A B} (m : task A) (f : A → task B) r (Q : B → resources → Prop) :
  wp m r (λ a r', wp (f a) r' Q) → wp (m ≫= f) r Q.
Proof.
  revert r. induction m as [a|C e k IH|why]; intros r Hwp; cbn in *; [done| |done].
  eapply action_wp_mono; [exact Hwp|]. intros b r' Hb. by apply IH.
Qed.

Lemma wp_ret {A} (a : A) r (Q : A → resources → Prop) : Q a r → wp (mret a) r Q.
Proof. done. Qed.

Lemma wp_act {B} (e : action B) r (Q : B → resources → Prop) : action_wp e r Q → wp (act e) r Q.
Proof. done. Qed.

Lemma wp_local {A} (m : outcome A) a r (Q : A → resources → Prop) : m = Ok a → Q a r → wp (local m) r Q.
Proof. by intros ->. Qed.

Lemma wp_env A `{Inhabited A} r (Q : A → resources → Prop) : (∀ a, Q a r) → wp (env A) r Q.
Proof. intros HQ. split; [by exists inhabitant|intros a _; exact (HQ a)]. Qed.

(** A loop whose body gives back what it takes. *)
Lemma wp_for_each {A} (l : list A) (body : A → task unit) r (Q : unit → resources → Prop) :
  (∀ x, x ∈ l → wp (body x) r (λ _ r', r' = r)) → Q tt r → wp (for_each l body) r Q.
Proof.
  intros Hbody HQ. induction l as [|x l IH]; [done|]. cbn [for_each]. apply wp_bind.
  eapply wp_mono; [apply Hbody; by left|]. intros _ r' ->. apply IH. intros y Hy. apply Hbody. by right.
Qed.
End logic.
