(* ===== verification/LteAdequacy.v ===== *)
(** * Web Connectivity LTE: from the tasks to the pool

    The programs of a pool whose goroutines have a weakest precondition ([LteLogic.v]) never get stuck, do not
    deadlock and stop; the resources of the tasks add up to the state that they share. *)
From S2P Require Import Prelude Failures GoString GoURL GoHTTP Archival Tracing NetPrimitives.
From S2P Require Import GoSort PipeSet Observation LteTestKeys LtePriority LteFlow LteTasks.
From S2P Require Import LteFinalize LtePool LteLogic.

(** ** A selector forgets no connection and takes back no permission *)

Definition kept_connection (c c' : connection) : Prop :=
  ∀ v resp, c = Permission v resp → ∃ resp', c' = Permission v resp'.

Definition kept_connections (conns conns' : gmap nat (string * connection)) : Prop :=
  ∀ k addr c, conns !! k = Some (addr, c) → ∃ c', conns' !! k = Some (addr, c') ∧ kept_connection c c'.

#[export] Instance kept_connections_preorder : PreOrder kept_connections.
Proof.
  split.
  - intros conns k addr c Hc. exists c. split; [done|]. intros v resp ->. by eexists.
  - intros c1 c2 c3 H12 H23 k addr c Hc. destruct (H12 k addr c Hc) as (c' & Hc' & Hk).
    destruct (H23 k addr c' Hc') as (c'' & Hc'' & Hk'). exists c''. split; [done|]. intros v resp E.
    destruct (Hk v resp E) as [resp' E']. by apply (Hk' v resp').
Qed.

Lemma respond_kept v r conns : kept_connections conns (respond v r conns).
Proof.
  intros k addr c Hc. unfold respond. destruct (decide (req_conn r = k)) as [<-|Hne].
  - exists (answer v c). rewrite lookup_alter_eq, Hc. split; [done|]. intros g resp ->. by eexists.
  - exists c. rewrite lookup_alter_ne by done. split; [done|]. intros g resp ->. by eexists.
Qed.

Lemma deny_others_kept high requests conns : kept_connections conns (deny_others high requests conns).
Proof.
  unfold deny_others. revert conns. induction requests as [|r requests IH]; intros conns; [reflexivity|]. cbn [foldl].
  refine (transitivity _ (IH _)). destruct (Nat.eqb _ _); [reflexivity|apply respond_kept].
Qed.

Lemma insert_kept conns k addr c c' :
  conns !! k = None ∨ (conns !! k = Some (addr, c) ∧ ∀ v resp, c ≠ Permission v resp) →
  kept_connections conns (<[k := (addr, c')]> conns).
Proof.
  intros Hk k' addr' x Hx. destruct (decide (k = k')) as [<-|Hne].
  - destruct Hk as [Hk|[Hk Hc]]; [congruence|]. rewrite Hk in Hx. injection Hx as <- <-. rewrite lookup_insert_eq.
    exists c'. split; [done|]. intros v resp E. by destruct (Hc v resp).
  - exists x. rewrite lookup_insert_ne by done. split; [done|]. intros v resp ->. by eexists.
Qed.

Lemma step_kept ps sys sys' : step ps sys sys' → kept_connections (sys_conns sys) (sys_conns sys').
Proof.
  destruct 1 as [[st conns] conn addr Hc|[st conns] conn addr Hc _|[st conns] conn addr Hc|[st conns] conn addr resp Hc
    |[st conns] conn addr v Hc|[st conns] _|[st conns] requests high _ _]; cbn in *.
  - apply (insert_kept _ _ _ Asking). by left.
  - assert (Hk : kept_connections conns (<[conn := (addr, Waiting None)]> conns)) by (apply (insert_kept _ _ _ Asking); by right).
    unfold receive. destruct st; cbn; [destruct (isHighestPriority _ _); cbn|..]; try exact Hk.
    exact (transitivity Hk (respond_kept true (mkRequest conn addr) _)).
  - apply (insert_kept _ _ _ Asking). by right.
  - apply (insert_kept _ _ _ (Waiting resp)). by right.
  - apply (insert_kept _ _ _ (Waiting (Some v))). by right.
  - reflexivity.
  - exact (transitivity (respond_kept true high conns) (deny_others_kept high requests _)).
Qed.

Section adequacy.
Context `{CookieJar}.
Context (run : goroutine → task unit) (Inv : TestKeys → Prop).
Implicit Types (s : shared) (r : resources) (rs : list resources).

(** ** What the resources of all the tasks say of the shared state *)

(** The selector of the ticket knows its connection, which is in the state [c]. *)
Definition connection_at s (k : ticket) (c : connection) : Prop :=
  let '(ps, conn, addr) := k in ∃ p sys, sh_selectors s !! ps = Some (p, sys) ∧ sys_conns sys !! conn = Some (addr, c).

Definition known s (k : ticket) : Prop := ∃ c, connection_at s k c.
Definition permitted s (k : ticket) : Prop := ∃ resp, connection_at s k (Permission true resp).

Definition local_ok s r : Prop :=
  (inbox r ≠ [] → (0 < wgs r)%nat) ∧ (sels r ≤ length (sh_selectors s))%nat ∧
  (∀ k, asked r = Some k → known s k) ∧ (∀ k, pass r = Some k → permitted s k).

Definition tickets r : list ticket := option_list (asked r) ++ option_list (pass r).

(** The permission [k] was used for the page [req]. *)
Definition paid s (req : ArchivalHTTPRequestResult) (k : ticket) : Prop := permitted s k ∧ page_of k.2 req.

(** Every page has a permission of its own, which no task holds any more. *)
Definition pages_paid s rs : Prop :=
  ∃ used, Forall2 (paid s) (lte_Requests (sh_tk s)) used ∧ NoDup (used ++ (rs ≫= tickets)).

(** [Run] sleeps only while the wait group counts somebody, and is woken when it counts nobody. *)
Definition waiter_ok s : Prop :=
  match sh_waiter s with Parked => 0 < sh_wg s | Releasing => sh_wg s = 0 | _ => True end.

(** The identifiers of flows that were given out. *)
Definition issued s (i : Z) : Prop :=
  idGeneratorEndpointCleartextOffset < i <= idGeneratorEndpointCleartextOffset + id_endpointCleartext (sh_ids s) ∨
  idGeneratorEndpointSecureOffset < i <= idGeneratorEndpointSecureOffset + id_endpointSecure (sh_ids s).

(** The identifiers of cleartext flows stay below those of secure flows. *)
Definition few_flows s : Prop := id_endpointCleartext (sh_ids s) < 10000 ∧ id_endpointSecure (sh_ids s) < 2 ^ 62.

Definition in_range s : Prop :=
  0 <= id_endpointCleartext (sh_ids s) ∧ 0 <= id_endpointSecure (sh_ids s) ∧ few_flows s.

Record ids_ok s rs : Prop := {
  ids_range : in_range s;
  ids_nodup : NoDup (rs ≫= ids);
  ids_issued : ∀ i, i ∈ rs ≫= ids → issued s i;
  ids_owned : owns (rs ≫= ids) (sh_tk s);
  ids_requests : ∀ req, req ∈ lte_Requests (sh_tk s) → issued s (http_TransactionID req);
  ids_handshakes : ∀ hs, hs ∈ lte_TLSHandshakes (sh_tk s) → issued s (tls_TransactionID hs);
  ids_pages : pages_ok (sh_tk s);
}.

(** [strict] when the run starts few flows. *)
Record resources_ok (strict : Prop) s rs : Prop := {
  ok_wg : sh_wg s = Z.of_nat (sum_list_with wgs rs);
  ok_peers : rs ≫= owed ≡ₚ rs ≫= inbox;
  ok_distinct : NoDup (rs ≫= inbox);
  ok_made : Forall (λ c, (c.2 < sh_chans s)%nat) (rs ≫= inbox);
  ok_local : Forall (local_ok s) rs;
  ok_selectors : Forall (λ sel, reachable sel.1 sel.2) (sh_selectors s);
  ok_tk : Inv (sh_tk s);
  ok_pages : pages_paid s rs;
  ok_waiter : waiter_ok s;
  ok_ids : strict → ids_ok s rs;
}.

(** ** What an action does to them *)

Record chan_moves s s' r r' (new : list resources) : Prop := {
  cm_peers : ∃ made, owed r' ++ (new ≫= owed) ≡ₚ made ++ owed r ∧ inbox r' ++ (new ≫= inbox) ≡ₚ made ++ inbox r ∧
    NoDup made ∧ Forall (λ c, (sh_chans s ≤ c.2 < sh_chans s')%nat) made;
  cm_mono : (sh_chans s ≤ sh_chans s')%nat;
}.

Record id_moves s s' r r' (new : list resources) : Prop := {
  im_mono : in_range s → few_flows s' → in_range s' ∧ ∀ i, issued s i → issued s' i;
  im_ids : ∃ fresh kept, ids r' ++ (new ≫= ids) ⊆+ fresh ++ kept ∧ kept ⊆+ ids r ∧ NoDup fresh ∧
    (in_range s → few_flows s' → ∀ i, i ∈ fresh → ¬ issued s i ∧ issued s' i) ∧
    (owns (ids r) (sh_tk s) → pages_ok (sh_tk s) →
     owns kept (sh_tk s') ∧ pages_ok (sh_tk s') ∧ adds_only (ids r) (sh_tk s) (sh_tk s'));
}.

(** The pages that are added are paid with tickets of the task, which may also get new ones. *)
Record page_moves s s' r r' : Prop := {
  pm_kept : (∀ k, known s k → known s' k) ∧ (∀ k, permitted s k → permitted s' k);
  pm_pages : ∃ reqs used fresh, lte_Requests (sh_tk s') = reqs ++ lte_Requests (sh_tk s) ∧ Forall2 (paid s') reqs used ∧
    NoDup fresh ∧ Forall (λ k, ¬ known s k) fresh ∧ used ++ tickets r' ⊆+ fresh ++ tickets r;
}.

(** The redirects that may still be followed, as long as the counter does not wrap around. *)
Definition redirects_left s : Z := Z.max 0 (nr_count (sh_redirects s)).
Definition unwrapped s : Prop := int64_min < nr_count (sh_redirects s) <= int64_max.
Definition resolvers_in (gs : list goroutine) : nat := length (List.filter is_resolvers gs).

(** The goroutines [gs] are started. *)
Record moves s s' r r' (gs : list goroutine) : Prop := {
  mv_level : level r' = level r;
  mv_started : Forall (λ g, goroutine_ok Inv (sels r) g ∧ (is_resolvers g = true ∨ (rank g < level r)%nat)) gs;
  mv_credits : unwrapped s →
    redirects_left s' + Z.of_nat (credits r' + resolvers_in gs) <= redirects_left s + Z.of_nat (credits r);
  mv_wg : sh_wg s' + Z.of_nat (wgs r) = sh_wg s + Z.of_nat (wgs r' + sum_list_with wgs (seed (sels r) <$> gs));
  mv_chans : chan_moves s s' r r' (seed (sels r) <$> gs);
  mv_local : local_ok s' r';
  mv_others : ∀ r0, local_ok s r0 → local_ok s' r0;
  mv_selectors : Forall (λ sel, reachable sel.1 sel.2) (sh_selectors s) → Forall (λ sel, reachable sel.1 sel.2) (sh_selectors s');
  mv_tk : Inv (sh_tk s) → Inv (sh_tk s');
  mv_ids : id_moves s s' r r' (seed (sels r) <$> gs);
  mv_pages : page_moves s s' r r';
  mv_waiter : waiter_ok s → waiter_ok s';
}.

(** *** Parts that stay *)

Lemma chan_moves_same s s' r r' : sh_chans s' = sh_chans s → owed r' = owed r → inbox r' = inbox r → chan_moves s s' r r' [].
Proof.
  intros Hs Ho Hi. split; [|lia]. exists []. cbn. rewrite !app_nil_r, Ho, Hi. split_and!; try done. by apply NoDup_nil_2.
Qed.

Lemma selectors_kept s s' :
  (∀ ps p sys, sh_selectors s !! ps = Some (p, sys) →
     ∃ sys', sh_selectors s' !! ps = Some (p, sys') ∧ kept_connections (sys_conns sys) (sys_conns sys')) →
  (∀ k, known s k → known s' k) ∧ (∀ k, permitted s k → permitted s' k).
Proof.
  intros Hsel.
  assert (Hc : ∀ k c, connection_at s k c → ∃ c', connection_at s' k c' ∧ kept_connection c c').
  { intros [[ps conn] addr] c (p & sys & Hp & Hconn). destruct (Hsel ps p sys Hp) as (sys' & Hp' & Hk).
    destruct (Hk conn addr c Hconn) as (c' & Hc' & Hk'). exists c'. split; [by exists p, sys'|done]. }
  split.
  - intros k [c Hk]. destruct (Hc k c Hk) as (c' & Hk' & _). by exists c'.
  - intros k [resp Hk]. destruct (Hc k _ Hk) as (c' & Hk' & Hkept). destruct (Hkept true resp eq_refl) as [resp' ->]. by exists resp'.
Qed.

Lemma same_selectors_kept s s' :
  sh_selectors s' = sh_selectors s → (∀ k, known s k → known s' k) ∧ (∀ k, permitted s k → permitted s' k).
Proof. intros E. apply selectors_kept. intros ps p sys Hp. exists sys. rewrite E. split; [done|reflexivity]. Qed.

Lemma page_moves_same s s' r r' :
  sh_selectors s' = sh_selectors s → lte_Requests (sh_tk s') = lte_Requests (sh_tk s) → tickets r' ⊆+ tickets r →
  page_moves s s' r r'.
Proof.
  intros Hsel Hreq Ht. split; [by apply same_selectors_kept|]. exists [], [], []. split_and!; [done|constructor..|done].
Qed.

Lemma waiter_same s s' : sh_wg s' = sh_wg s → sh_waiter s' = sh_waiter s → waiter_ok s → waiter_ok s'.
Proof. unfold waiter_ok. by intros -> ->. Qed.

Lemma id_moves_same s s' r r' new :
  sh_ids s' = sh_ids s → sh_tk s' = sh_tk s → ids r' ++ (new ≫= ids) ⊆+ ids r → id_moves s s' r r' new.
Proof.
  intros Hs Htk Hids. split.
  - unfold in_range, few_flows, issued. rewrite Hs. by intros.
  - exists [], (ids r). rewrite Htk. split_and!; try done; [by apply NoDup_nil_2|intros; set_solver|].
    intros Ho Hp. split_and!; try done. split; intros; by left.
Qed.

Lemma local_same s s' r r' :
  sh_selectors s' = sh_selectors s → (inbox r' ≠ [] → (0 < wgs r')%nat) → sels r' = sels r → asked r' = asked r → pass r' = pass r →
  local_ok s r → local_ok s' r'.
Proof.
  intros E Hi Hs Ha Hp (_ & ? & ? & ?). destruct (same_selectors_kept s s' E). unfold local_ok. rewrite E, Hs, Ha, Hp.
  split_and!; auto.
Qed.

Lemma others_same s s' : sh_selectors s' = sh_selectors s → ∀ r0, local_ok s r0 → local_ok s' r0.
Proof. intros E r0 Hr0. apply (local_same s s' r0); try done. apply Hr0. Qed.

Lemma moves_quiet s s' r :
  sh_tk s' = sh_tk s → sh_ids s' = sh_ids s → sh_wg s' = sh_wg s → sh_chans s' = sh_chans s →
  sh_selectors s' = sh_selectors s → sh_redirects s' = sh_redirects s → sh_waiter s' = sh_waiter s →
  local_ok s r → moves s s' r r [].
Proof.
  intros Htk Hids Hwg Hch Hsel Hred Hwait Hr. split; try done.
  - unfold redirects_left. rewrite Hred. cbn. lia.
  - cbn. lia.
  - by apply chan_moves_same.
  - apply (local_same s s' r); try done. apply Hr.
  - by apply others_same.
  - by rewrite Hsel.
  - by rewrite Htk.
  - apply id_moves_same; [done..|]. by rewrite app_nil_r.
  - apply page_moves_same; [done|by rewrite Htk|done].
  - by apply waiter_same.
Qed.

(** Resources that only the task itself uses. *)
Lemma moves_private s s' r r' :
  moves s s' r r [] → level r' = level r → credits r' = credits r → wgs r' = wgs r → owed r' = owed r →
  inbox r' = inbox r → ids r' = ids r → local_ok s' r' → page_moves s s' r r' → moves s s' r r' [].
Proof.
  intros [_ _ Hcr Hwg [Hp Hm] _ ? ? ? [Hmono Hids] _ ?] Hl Hc Hw Ho Hi Hown Hr Hpages. split; try done.
  - by rewrite Hc.
  - cbn in *. by rewrite Hw.
  - split; [|done]. by rewrite Ho, Hi.
  - split; [done|]. by rewrite Hown.
Qed.

(** The selectors change, without losing a connection. *)
Lemma moves_selectors s r r' sels' :
  level r' = level r → credits r' = credits r → wgs r' = wgs r → owed r' = owed r → inbox r' = inbox r → ids r' = ids r →
  let s' := s <| sh_selectors := sels' |> in
  local_ok s' r' → (∀ r0, local_ok s r0 → local_ok s' r0) →
  (Forall (λ sel, reachable sel.1 sel.2) (sh_selectors s) → Forall (λ sel, reachable sel.1 sel.2) sels') →
  page_moves s s' r r' → moves s s' r r' [].
Proof.
  intros Hl Hc Hw Ho Hi Hids s' Hr Hothers Hsel Hpages. split; try done.
  - rewrite Hc. change (redirects_left s') with (redirects_left s). cbn. lia.
  - change (sh_wg s') with (sh_wg s). cbn. lia.
  - by apply chan_moves_same.
  - apply id_moves_same; [done..|]. by rewrite Hids, app_nil_r.
Qed.

Lemma local_selectors s r sels' :
  local_ok s r → (length (sh_selectors s) ≤ length sels')%nat →
  (∀ ps p sys, sh_selectors s !! ps = Some (p, sys) →
     ∃ sys', sels' !! ps = Some (p, sys') ∧ kept_connections (sys_conns sys) (sys_conns sys')) →
  local_ok (s <| sh_selectors := sels' |>) r.
Proof.
  intros (Hi & Hn & Ha & Hp) Hlen Hsel. destruct (selectors_kept s (s <| sh_selectors := sels' |>)) as [Hk1 Hk2].
  { by destruct s. }
  split_and!; [done|exact (Nat.le_trans _ _ _ Hn Hlen)|auto..].
Qed.

(** *** Every action *)

Lemma NewID_quiet s r ids' :
  id_endpointCleartext ids' = id_endpointCleartext (sh_ids s) → id_endpointSecure ids' = id_endpointSecure (sh_ids s) →
  local_ok s r → moves s (s <| sh_ids := ids' |>) r r [].
Proof.
  intros Hc Hs Hr. split; try done.
  - destruct s, r. unfold redirects_left. cbn. lia.
  - destruct s, r. cbn. clear. lia.
  - by apply chan_moves_same.
  - split; [unfold in_range, few_flows, issued; change (sh_ids (s <| sh_ids := ids' |>)) with ids'; by rewrite Hc, Hs|].
    exists [], (ids r). cbn. rewrite app_nil_r. split_and!; try done; [by apply NoDup_nil_2|intros; set_solver|].
    intros Ho Hp. split_and!; try done. split; intros; by left.
  - by apply page_moves_same.
Qed.

(** The identifiers of the flows that may be given out before those of the others run out. *)
Lemma NewID_fresh s r n ids' :
  (in_range s → few_flows (s <| sh_ids := ids' |>) →
   in_range (s <| sh_ids := ids' |>) ∧ (∀ i, issued s i → issued (s <| sh_ids := ids' |>) i) ∧
   ¬ issued s n ∧ issued (s <| sh_ids := ids' |>) n) →
  local_ok s r → moves s (s <| sh_ids := ids' |>) r (r <| ids ::= cons n |>) [].
Proof.
  intros Hids Hr. split; try done.
  - destruct s, r. unfold redirects_left. cbn. lia.
  - destruct s, r. cbn. clear. lia.
  - by apply chan_moves_same.
  - split; [intros H1 H2; by destruct (Hids H1 H2) as (? & ? & _)|].
    exists [n], (ids r). cbn. rewrite app_nil_r. split_and!; try done; [by apply NoDup_singleton| |].
    + intros H1 H2 i ->%list_elem_of_singleton. by destruct (Hids H1 H2) as (_ & _ & ?).
    + intros Ho Hp. split_and!; try done. split; intros; by left.
  - by apply page_moves_same.
Qed.

Lemma NewID_moves s kind r :
  local_ok s r →
  moves s (s <| sh_ids := (new_id kind (sh_ids s)).2 |>) r
    (match kind with IDCleartext | IDSecure => r <| ids ::= cons (new_id kind (sh_ids s)).1 |> | _ => r end) [].
Proof.
  intros Hr. destruct kind; try by apply NewID_quiet.
  all: apply NewID_fresh; [|done]; destruct s as [tk [i1 i2 i3 i4 i5]]; cbn in *; unfold in_range, few_flows, issued; cbn; intros (H1 & H2 & H3 & H4) [H5 H6].
  all: unfold idGeneratorEndpointCleartextOffset, idGeneratorEndpointSecureOffset, constant in *.
  1: pose proof (wrap64_id (i4 + 1)) as E; pose proof (wrap64_id (i4 + 1 + 40000)) as E2.
  2: pose proof (wrap64_id (i5 + 1)) as E; pose proof (wrap64_id (i5 + 1 + 50000)) as E2.
  all: unfold is_int64, int64_min, int64_max in E, E2; rewrite E in * by lia; rewrite E2 by lia; split_and!; lia.
Qed.

Lemma Update_moves s r f mine' pass' :
  (∀ tk, Inv tk → Inv (f tk)) → mine' ⊆+ ids r → tracked (ids r) mine' f → pays f (pass r) pass' → local_ok s r →
  moves s (s <| sh_tk ::= f |>) r (r <| ids := mine' |> <| pass := pass' |>) [].
Proof.
  intros HInv Hsub Ht Hpays Hr. split; try done.
  - destruct s, r. unfold redirects_left. cbn. lia.
  - destruct s, r. cbn. clear. lia.
  - by apply chan_moves_same.
  - destruct Hr as (? & ? & ? & Hpass). split_and!; [done..|]. intros k. cbn.
    destruct Hpays as [[-> _]|(? & ? & ? & ? & _ & -> & _)]; [apply Hpass|done].
  - apply HInv.
  - split; [done|]. exists [], mine'. cbn. rewrite app_nil_r.
    split_and!; try done; [by apply NoDup_nil_2|intros; set_solver|]. exact (Ht (sh_tk s)).
  - destruct Hpays as [[-> Hsame]|(ps & conn & addr & req & Hpass & -> & Hpage & Hadd)].
    { by apply page_moves_same; [|apply Hsame|]. }
    split; [by apply same_selectors_kept|]. exists [req], [(ps, conn, addr)], [].
    split_and!; [apply Hadd| |constructor..|].
    + constructor; [|constructor]. split; [|exact Hpage]. exact (proj2 (proj2 (proj2 Hr)) _ Hpass).
    + unfold tickets. cbn. rewrite Hpass, app_nil_r. by rewrite Permutation_app_comm.
Qed.

Lemma spend_moves s r r' g :
  spend g r r' → goroutine_ok Inv (sels r) g → (is_resolvers g = true ∨ (rank g < level r)%nat) →
  (inbox r' = [] ∨ (0 < wgs r')%nat) → local_ok s r → moves s s r r' [g].
Proof.
  intros Hsp Hg Hrank Hi (Hin & Hsel & Hask & Hpass). destruct r as [lv c w ow inb n a b own]. cbn in *.
  assert (Hparts : level r' = lv ∧ inbox r' = inb ∧ sels r' = n ∧ asked r' = a ∧ pass r' = b ∧
    c = (credits r' + resolvers_in [g])%nat ∧ w = (wgs r' + wgs (seed n g))%nat ∧ ow = owed (seed n g) ++ owed r' ∧ own = ids (seed n g) ++ ids r' ∧ inbox (seed n g) = [])
    by (destruct g; cbn in Hsp |- *; repeat match type of Hsp with ∃ _, _ => destruct Hsp as [? Hsp] end;
        destruct_and?; subst; cbn; unfold constant; split_and!; try done; lia).
  destruct Hparts as (Hl & <- & <- & <- & <- & -> & -> & -> & -> & Hseed). split; cbn [fmap list_fmap level sels]; try (by intros).
  - by apply Forall_singleton.
  - cbn. lia.
  - split; [|done]. exists []. cbn. rewrite Hseed, !app_nil_r. split_and!; try done; [|by apply NoDup_nil_2].
    by rewrite (Permutation_app_comm (owed (seed _ _))).
  - split_and!; [|done..]. destruct Hi; [done|]. by intros.
  - apply id_moves_same; [done..|]. cbn. rewrite app_nil_r, (Permutation_app_comm (ids (seed _ _))). done.
  - by apply page_moves_same.
Qed.

Lemma WgAdd_moves s r : sh_waiter s ≠ Releasing → local_ok s r → moves s (s <| sh_wg ::= λ n, n + 1 |>) r (r <| wgs ::= S |>) [].
Proof.
  intros Hw Hr. split; try done.
  - destruct s, r. unfold redirects_left. cbn. lia.
  - destruct s, r. cbn. lia.
  - by apply chan_moves_same.
  - destruct Hr as (Hi & ? & ? & ?). split_and!; [|done..]. intros _. cbn. lia.
  - apply id_moves_same; [done..|]. by rewrite app_nil_r.
  - by apply page_moves_same.
  - destruct s as [? ? ? ? ? ? ? n w]. unfold waiter_ok. cbn in *. destruct w; [done|lia|done..].
Qed.

Lemma WgDone_moves s r w :
  wgs r = S w → inbox r = [] → 0 < sh_wg s → local_ok s r → moves s (wg_done s) r (r <| wgs := w |>) [].
Proof.
  intros Hw Hi Hpos Hr. split; try done.
  - destruct s, r. unfold redirects_left. cbn. lia.
  - destruct s, r. cbn in *. unfold constant. lia.
  - by apply chan_moves_same.
  - destruct Hr as (? & ? & ? & ?). split_and!; [|done..]. intros Hne. by destruct Hne.
  - apply id_moves_same; [done..|]. by rewrite app_nil_r.
  - by apply page_moves_same.
  - destruct s as [? ? ? ? ? ? ? n wt]. unfold waiter_ok, wg_done. cbn in *. destruct wt; cbn; try done; [|lia].
    intros _. destruct (Z.eqb_spec (n - 1) 0); cbn; lia.
Qed.

Lemma MakeChan_moves s r ct :
  (0 < wgs r)%nat → local_ok s r →
  moves s (s <| sh_chans ::= S |>) r
    (r <| owed ::= cons (ct, sh_chans s) |> <| inbox ::= λ l, l ++ [(ct, sh_chans s)] |>) [].
Proof.
  intros Hw Hr. split; try done.
  - destruct s, r. unfold redirects_left. cbn. lia.
  - destruct s, r. cbn. clear. lia.
  - split; [|change (sh_chans (s <| sh_chans ::= S |>)) with (S (sh_chans s)); lia].
    exists [(ct, sh_chans s)]. change (sh_chans (s <| sh_chans ::= S |>)) with (S (sh_chans s)).
    destruct r. cbn. rewrite !app_nil_r. split_and!; [done| |by apply NoDup_singleton|].
    + by rewrite Permutation_app_comm.
    + apply Forall_singleton. cbn. lia.
  - destruct Hr as (? & ? & ? & ?). by split_and!.
  - apply id_moves_same; [done..|]. by rewrite app_nil_r.
  - by apply page_moves_same.
Qed.

Lemma NewSelector_moves s r addrs :
  local_ok s r →
  moves s (s <| sh_selectors ::= λ l, l ++ [(newPrioritySelector addrs, mkSystem AwaitFirst ∅)] |>) r
    (r <| sels := S (length (sh_selectors s)) |>) [].
Proof.
  intros Hr. set (sel := (newPrioritySelector addrs, mkSystem AwaitFirst ∅)).
  assert (Hkept : ∀ ps p sys, sh_selectors s !! ps = Some (p, sys) →
    ∃ sys', (sh_selectors s ++ [sel]) !! ps = Some (p, sys') ∧ kept_connections (sys_conns sys) (sys_conns sys')).
  { intros ps p sys Hps. exists sys. split; [by apply lookup_app_l_Some|reflexivity]. }
  assert (Hgrow : ∀ r0, local_ok s r0 → local_ok (s <| sh_selectors := sh_selectors s ++ [sel] |>) r0).
  { intros r0 H0. apply local_selectors; [done|rewrite length_app; lia|done]. }
  apply moves_selectors; try done.
  - destruct (Hgrow r Hr) as (? & ? & ? & ?). split_and!; [done| |done..].
    change (S (length (sh_selectors s)) ≤ length (sh_selectors s ++ [sel]))%nat. rewrite length_app. cbn. lia.
  - intros Hall. apply Forall_app. split; [done|]. apply Forall_singleton. apply reachable_start.
  - split; [apply selectors_kept; by destruct s|]. exists [], [], []. by split_and!; [|constructor..|].
Qed.

Lemma selector_kept s i ps sys sys' :
  sh_selectors s !! i = Some (ps, sys) → kept_connections (sys_conns sys) (sys_conns sys') →
  ∀ j p sys0, sh_selectors s !! j = Some (p, sys0) →
    ∃ sys1, <[i := (ps, sys')]> (sh_selectors s) !! j = Some (p, sys1) ∧ kept_connections (sys_conns sys0) (sys_conns sys1).
Proof.
  intros Hsel Hkept j p sys0 Hj. destruct (decide (i = j)) as [<-|Hne].
  - exists sys'. rewrite list_lookup_insert_eq by (by eapply lookup_lt_Some). rewrite Hsel in Hj. by injection Hj as -> ->.
  - exists sys0. rewrite list_lookup_insert_ne by done. by split.
Qed.

(** A selector gets a connection of the task. *)
Lemma selector_moves s r r' i ps sys sys' :
  level r' = level r → credits r' = credits r → wgs r' = wgs r → owed r' = owed r → inbox r' = inbox r → ids r' = ids r → sels r' = sels r →
  sh_selectors s !! i = Some (ps, sys) → (reachable ps sys → reachable ps sys') →
  kept_connections (sys_conns sys) (sys_conns sys') → pass r' = pass r →
  (∃ conn addr, asked r' = Some (i, conn, addr) ∧ sys_conns sys !! conn = None ∧ is_Some (sys_conns sys' !! conn) ∧
    ∀ x, sys_conns sys' !! conn = Some x → x.1 = addr) →
  local_ok s r → moves s (s <| sh_selectors ::= <[i := (ps, sys')]> |>) r r' [].
Proof.
  intros Hl Hc Hw Ho Hi Hids Hsels Hsel Hreach Hkept Hpass (conn & addr & Hask & Hnew & [[addr' c] Hconn] & Haddr) Hr.
  pose proof (Haddr _ Hconn) as E. cbn in E. subst addr'.
  pose proof (selector_kept s i ps sys sys' Hsel Hkept) as Hall.
  assert (Hgrow : ∀ r0, local_ok s r0 → local_ok (s <| sh_selectors := <[i := (ps, sys')]> (sh_selectors s) |>) r0).
  { intros r0 H0. apply local_selectors; [done|by rewrite length_insert|done]. }
  apply moves_selectors; try done.
  - destruct (Hgrow r Hr) as (H1 & H2 & H3 & H4). rewrite <-Hi, <-Hw in H1. rewrite <-Hsels in H2. rewrite <-Hpass in H4.
    split_and!; [done..| |done]. rewrite Hask. intros k [= <-]. exists c, ps, sys'. split; [|done].
    change (<[i := (ps, sys')]> (sh_selectors s) !! i = Some (ps, sys')).
    apply list_lookup_insert_eq. by eapply lookup_lt_Some.
  - intros Hall0. apply Forall_insert; [done|]. apply Hreach.
    exact (proj1 (Forall_lookup _ _) Hall0 i (ps, sys) Hsel).
  - split; [apply selectors_kept; by destruct s|]. exists [], [], [(i, conn, addr)].
    split_and!; [done|constructor|apply NoDup_singleton| |].
    + apply Forall_singleton. intros (c' & p & sys0 & Hp & Hc'). rewrite Hsel in Hp. injection Hp as <- <-. congruence.
    + unfold tickets. rewrite Hask, Hpass. cbn. apply submseteq_skip, submseteq_inserts_l. done.
Qed.

(** A permission takes a redirect from those that are left. *)
Lemma CanFollow_left nr :
  int64_min < nr_count nr <= int64_max →
  Z.max 0 (nr_count (CanFollowOneMoreRedirect nr).2) + (if (CanFollowOneMoreRedirect nr).1 then 1 else 0) <= Z.max 0 (nr_count nr).
Proof.
  intros Hr. unfold CanFollowOneMoreRedirect. cbn. rewrite wrap64_id by (unfold is_int64, int64_min, int64_max in *; lia).
  destruct (Z.leb_spec 0 (nr_count nr - 1)); lia.
Qed.

Lemma CanFollow_moves s r :
  local_ok s r →
  moves s (s <| sh_redirects := (CanFollowOneMoreRedirect (sh_redirects s)).2 |>) r
    (if (CanFollowOneMoreRedirect (sh_redirects s)).1 then r <| credits ::= S |> else r) [].
Proof.
  intros Hr. set (b := (CanFollowOneMoreRedirect (sh_redirects s)).1). split; try (by destruct b).
  - intros Hu. pose proof (CanFollow_left (sh_redirects s) Hu) as Hleft. fold b in Hleft.
    unfold redirects_left. change (sh_redirects (s <| sh_redirects := ?x |>)) with x.
    change (resolvers_in []) with 0%nat. destruct r as [lv c w ow inb n a g own], b; cbn -[CanFollowOneMoreRedirect Z.max Z.of_nat] in *; lia.
  - destruct b, r, s; cbn; lia.
  - apply chan_moves_same; by destruct b.
  - apply id_moves_same; [done..|]. rewrite app_nil_r. by destruct b.
  - apply page_moves_same; [done..|]. by destruct b.
Qed.

Lemma action_moves {B} (e : action B) s b s' gs r (Φ : B → resources → Prop) :
  local_ok s r → action_wp Inv e r Φ → perform e s b s' gs → ∃ r', Φ b r' ∧ moves s s' r r' gs.
Proof.
  intros Hr Hwp Hp. destruct e; cbn [action_wp perform] in Hwp, Hp.
  - destruct Hwp as [_ Hwp], Hp as (? & -> & ->). exists r. split; [auto|by apply moves_quiet].
  - destruct Hwp as (_ & HInv & mine' & pass' & Hsub & Ht & Hpays & Hwp), Hp as (-> & ->). destruct b.
    eexists. split; [exact Hwp|by apply Update_moves].
  - destruct Hp as (-> & -> & ->). pose proof (NewID_moves s kind r Hr) as Hm.
    eexists. split; [|exact Hm]. destruct kind; apply Hwp.
  - destruct Hp as (-> & -> & ->). exists r. split; [auto|by apply moves_quiet].
  - destruct Hp as (-> & ->), b. exists r. split; [auto|by apply moves_quiet].
  - destruct Hp as (-> & -> & ->), Hwp as [Ht Hf]. eexists. split; [|by apply CanFollow_moves].
    by destruct (CanFollowOneMoreRedirect (sh_redirects s)).1.
  - destruct Hp as (-> & -> & ->). exists r. split; [auto|by apply moves_quiet].
  - destruct Hp as (-> & ->), b. exists r. split; [auto|by apply moves_quiet].
  - destruct Hp as (-> & -> & ->). exists r. split; [auto|by apply moves_quiet].
  - destruct Hp as (-> & -> & ->). exists r. split; [auto|by apply moves_quiet].
  - destruct Hp as (-> & ->), b. exists r. split; [auto|by apply moves_quiet].
  - destruct Hp as (? & -> & ->), b, Hwp as [_ Hwp]. eexists. split; [exact Hwp|by apply WgAdd_moves].
  - destruct Hp as (? & -> & ->), b, Hwp as (Hi & w & Hw & Hwp). eexists. split; [exact Hwp|by apply WgDone_moves].
  - destruct Hp as (-> & -> & ->), Hwp as [Hw Hwp]. eexists. split; [apply Hwp|by apply MakeChan_moves].
  - done.
  - done.
  - destruct Hp as (-> & -> & ->). eexists. split; [apply Hwp, Hr|by apply NewSelector_moves].
  - destruct Hp as (p & sys & Hps & Hfresh & -> & ->), Hwp as [_ Hwp]. eexists. split; [apply Hwp|].
    assert (Hstep : step p sys (sys <| sys_conns ::= <[b := (ipAddr, Asking)]> |>)) by by apply step_ask.
    eapply selector_moves; try done.
    + intros Hreach. by eapply reachable_step.
    + by eapply step_kept.
    + exists b, ipAddr. cbn. rewrite lookup_insert_eq. split_and!; [done..|]. by intros x [= <-].
  - destruct Hp as (p & sys & addr & resp & Hps & Hc & -> & ->), Hwp as (addr' & Hask & Hwp). eexists. split; [apply Hwp|].
    destruct Hr as (Hi & Hn & Ha & Hpass).
    assert (Hper : b = true → permitted s (ps, conn, addr')).
    { intros ->. destruct (Ha _ Hask) as (c & p' & sys0 & Hp & Hconn). rewrite Hps in Hp. injection Hp as <- <-.
      rewrite Hc in Hconn. injection Hconn as -> _. by exists resp, p, sys. }
    apply moves_private; try done; [by apply moves_quiet| |].
    + split_and!; [done..|]. intros k. cbn. destruct b; [|apply Hpass]. intros [= <-]. by apply Hper.
    + apply page_moves_same; [done..|]. unfold tickets. cbn. rewrite Hask. destruct b; cbn; [|by apply submseteq_cons].
      apply submseteq_skip, submseteq_nil_l.
  - destruct Hp as (-> & ->), b, Hwp as (Hg & Hrank & r' & Hsp & Hi & Hwp). exists r'. split; [done|by apply (spend_moves s r r')].
Qed.

(** ** What the steps do to all the resources *)

(** The order of the tasks does not matter. *)
#[export] Instance ids_ok_proper s : Proper ((≡ₚ) ==> impl) (ids_ok s).
Proof.
  intros rs rs' Hp [H1 H2 H3 [H4 H4'] H5 H6 H7].
  assert (E : rs ≫= ids ≡ₚ rs' ≫= ids) by by apply bind_Permutation.
  split; try done; [by rewrite <-E|by intros i; rewrite <-E; apply H3|].
  split; [intros req Hreq; rewrite <-E; by apply H4|]. intros hs Hhs. rewrite <-E. by apply H4'.
Qed.

#[export] Instance resources_ok_proper strict s : Proper ((≡ₚ) ==> impl) (resources_ok strict s).
Proof.
  intros rs rs' Hp [H1 H2 H3 H4 H5 H6 H7 (used & H8 & H8') H9 H10].
  assert (Et : rs ≫= tickets ≡ₚ rs' ≫= tickets) by by apply bind_Permutation.
  assert (Eo : rs ≫= owed ≡ₚ rs' ≫= owed) by by apply bind_Permutation.
  assert (Ei : rs ≫= inbox ≡ₚ rs' ≫= inbox) by by apply bind_Permutation.
  split; try done; try (rewrite <-?Eo, <-?Ei, <-?Hp; done). exists used. split; [done|]. by rewrite <-Et.
Qed.

Lemma submseteq_nodup {A} (l k : list A) : l ⊆+ k → NoDup k → NoDup l.
Proof. intros (l' & ->)%submseteq_Permutation. rewrite NoDup_app. tauto. Qed.

Lemma owns_app l1 l2 tk : owns (l1 ++ l2) tk ↔ owns l1 tk ∧ owns l2 tk.
Proof. unfold owns. setoid_rewrite elem_of_app. naive_solver. Qed.

Lemma owns_submseteq l1 l2 tk : l1 ⊆+ l2 → owns l2 tk → owns l1 tk.
Proof.
  intros Hsub [Hr Hh]. split.
  - intros req Hreq Hin. apply (Hr req Hreq). by eapply elem_of_submseteq.
  - intros hs Hhs Hin. apply (Hh hs Hhs). by eapply elem_of_submseteq.
Qed.

(** What other tasks add does not concern these transactions. *)
Lemma owns_others mine others tk tk' :
  adds_only mine tk tk' → (∀ i, i ∈ others → i ∉ mine) → owns others tk → owns others tk'.
Proof.
  intros [Hr Hh] Hd [Ho1 Ho2]. split.
  - intros req [Hreq|Hreq]%Hr Hin; [by apply (Ho1 req)|by apply (Hd _ Hin)].
  - intros hs [Hhs|Hhs]%Hh Hin; [by apply Ho2|by destruct (Hd _ Hin)].
Qed.

Lemma moves_ids s s' r r' new others :
  id_moves s s' r r' new → few_flows s' → ids_ok s (r :: others) → ids_ok s' (r' :: new ++ others).
Proof.
  intros [Hmono (fresh & kept & Hsub & Hkept & Hnd & Hfresh & Htk)] Hfew [Hrange Hdup Hiss Hown Hreq Hhs Hpages].
  destruct (Hmono Hrange Hfew) as [Hrange' Hiss']. specialize (Hfresh Hrange Hfew).
  rewrite bind_cons in *.
  apply NoDup_app in Hdup as (Hdr & Hdisj & Hdo). apply owns_app in Hown as [Hor Hoo].
  destruct (Htk Hor Hpages) as (Hok & Hp' & Hadd).
  assert (Hall : (ids r' ++ (new ≫= ids)) ++ (others ≫= ids) ⊆+ fresh ++ (kept ++ (others ≫= ids)))
    by (rewrite (assoc_L (++) fresh); by apply submseteq_app).
  assert (Ebind : (r' :: new ++ others) ≫= ids = (ids r' ++ (new ≫= ids)) ++ (others ≫= ids))
    by by rewrite bind_cons, bind_app, (assoc_L (++)).
  assert (Hold : ∀ i, i ∈ kept ++ (others ≫= ids) → issued s i).
  { intros i Hi. apply Hiss. rewrite elem_of_app in Hi |- *. destruct Hi as [Hi|Hi]; [left|by right]. by eapply elem_of_submseteq. }
  assert (Hevents : (∀ req, req ∈ lte_Requests (sh_tk s') → issued s (http_TransactionID req)) ∧
    ∀ hs, hs ∈ lte_TLSHandshakes (sh_tk s') → issued s (tls_TransactionID hs)).
  { destruct Hadd as [Ha1 Ha2]. split.
    - intros req [?|Hin]%Ha1; [auto|]. apply Hiss, elem_of_app. by left.
    - intros hs [?|Hin]%Ha2; [auto|]. apply Hiss, elem_of_app. by left. }
  split; rewrite ?Ebind; try done.
  - eapply submseteq_nodup; [exact Hall|]. apply NoDup_app. split_and!; [done| |].
    + intros i [Hni _]%Hfresh Hi. by apply Hni, Hold.
    + apply NoDup_app. split_and!; [by eapply submseteq_nodup| |done]. intros i Hi. apply Hdisj. by eapply elem_of_submseteq.
  - intros i Hi. eapply elem_of_submseteq in Hi; [|exact Hall]. apply elem_of_app in Hi as [Hi|Hi]; [by apply Hfresh|auto].
  - eapply owns_submseteq; [exact Hall|]. rewrite !owns_app. split_and!; [|done|].
    + destruct Hevents as [He1 He2]. split.
      * intros req Hr Hin. by destruct (Hfresh _ Hin) as [[] _]; apply He1.
      * intros hs Hh Hin. by destruct (Hfresh _ Hin) as [[] _]; apply He2.
    + eapply owns_others; [exact Hadd| |done]. intros i Hi Hin. by apply (Hdisj i).
  - intros req Hr. by apply Hiss', Hevents.
  - intros hs Hh. by apply Hiss', Hevents.
Qed.

Lemma seed_inbox n gs : (seed n <$> gs) ≫= inbox = [].
Proof. induction gs as [|g gs IH]; [done|]. cbn. rewrite IH. by destruct g. Qed.

Lemma seed_tickets n gs : (seed n <$> gs) ≫= tickets = [].
Proof. induction gs as [|g gs IH]; [done|]. cbn. rewrite IH. by destruct g. Qed.

(** The tickets that are used up are the task's own. *)
Lemma moves_pages s s' r r' new others :
  page_moves s s' r r' → Forall (local_ok s) (r :: others) → new ≫= tickets = [] →
  pages_paid s (r :: others) → pages_paid s' (r' :: new ++ others).
Proof.
  intros [[Hk Hp] (reqs & used' & fresh & Hreq & Hpaid & Hnd & Hfresh & Hsub)] Hlocal Hnew (used & Hused & Hdup).
  exists (used' ++ used). rewrite bind_cons, bind_app, Hnew in *. rewrite app_nil_l.
  assert (Hpaid' : Forall2 (paid s') (lte_Requests (sh_tk s)) used).
  { eapply Forall2_impl; [exact Hused|]. intros req k [? ?]. split; [by apply Hp|done]. }
  split; [rewrite Hreq; by apply Forall2_app|].
  assert (Hall : (used' ++ used) ++ tickets r' ++ (others ≫= tickets) ⊆+ fresh ++ used ++ tickets r ++ (others ≫= tickets)).
  { assert (E1 : (used' ++ used) ++ tickets r' ++ (others ≫= tickets) ≡ₚ (used' ++ tickets r') ++ (used ++ (others ≫= tickets))) by solve_Permutation.
    assert (E2 : fresh ++ used ++ tickets r ++ (others ≫= tickets) ≡ₚ (fresh ++ tickets r) ++ (used ++ (others ≫= tickets))) by solve_Permutation.
    rewrite E1, E2. by apply submseteq_app. }
  eapply submseteq_nodup; [exact Hall|]. apply NoDup_app. split_and!; [done| |done].
  intros k Hin Hin'. rewrite Forall_forall in Hfresh. apply (Hfresh k Hin).
  rewrite !elem_of_app in Hin'. rewrite Forall_forall in Hlocal.
  assert (Hpk : permitted s k → known s k) by (intros [resp ?]; by eexists).
  assert (Htk : ∀ r0, local_ok s r0 → k ∈ tickets r0 → known s k).
  { intros r0 (_ & _ & Ha & Hb) [Hx|Hx]%elem_of_app.
    - apply Ha. destruct (asked r0); [by apply list_elem_of_singleton in Hx as ->|by apply elem_of_nil in Hx].
    - apply Hpk, Hb. destruct (pass r0); [by apply list_elem_of_singleton in Hx as ->|by apply elem_of_nil in Hx]. }
  destruct Hin' as [Hin'|[Hin'|Hin']].
  - apply Hpk. apply list_elem_of_lookup in Hin' as [i Hi]. by destruct (Forall2_lookup_r _ _ _ _ _ Hused Hi) as (? & _ & []).
  - apply (Htk r); [apply Hlocal; left|done].
  - apply list_elem_of_bind in Hin' as (r0 & Hx & Hr0). apply (Htk r0); [apply Hlocal; by right|done].
Qed.

Lemma moves_ok strict s s' r r' gs others :
  moves s s' r r' gs → (strict → few_flows s') → resources_ok strict s (r :: others) →
  resources_ok strict s' (r' :: (seed (sels r) <$> gs) ++ others).
Proof.
  intros [_ _ _ Hwg [(made & Ho & Hi & Hnd & Hmade) Hchans] Hlocal Hothers Hselectors Htk Hids Hpages Hwaiter] Hfew
    [Kwg Kpeers Kdist Kmade Klocal Ksel Ktk Kpages Kwaiter Kids].
  pose proof (moves_pages s s' r r' _ others Hpages Klocal (seed_tickets (sels r) gs) Kpages) as Kpages'.
  set (new := seed (sels r) <$> gs) in *.
  rewrite !bind_cons in *. rewrite Forall_app in Kmade. destruct Kmade as [Kmade Kmade'].
  assert (Eo : (r' :: new ++ others) ≫= owed ≡ₚ made ++ owed r ++ (others ≫= owed))
    by by rewrite bind_cons, bind_app, !(assoc_L (++)), Ho.
  assert (Ei : (r' :: new ++ others) ≫= inbox ≡ₚ made ++ inbox r ++ (others ≫= inbox))
    by by rewrite bind_cons, bind_app, !(assoc_L (++)), Hi.
  split; try done.
  - assert (E : ∀ x l, sum_list_with wgs (x :: l) = (wgs x + sum_list_with wgs l)%nat) by done.
    rewrite E in *. rewrite sum_list_with_app. lia.
  - by rewrite Eo, Ei, Kpeers.
  - rewrite Ei. apply NoDup_app. split_and!; [done| |done]. intros c Hc Hc'.
    rewrite Forall_forall in Hmade. specialize (Hmade c Hc).
    assert (Hb : (c.2 < sh_chans s)%nat) by (apply elem_of_app in Hc' as [Hc'|Hc']; [exact (proj1 (Forall_forall _ _) Kmade c Hc')|exact (proj1 (Forall_forall _ _) Kmade' c Hc')]).
    lia.
  - rewrite Ei, !Forall_app. split_and!; [eapply Forall_impl; [exact Hmade|]|eapply Forall_impl; [exact Kmade|]|eapply Forall_impl; [exact Kmade'|]];
      intros c Hc; cbn beta in Hc; lia.
  - apply Forall_cons in Klocal as [Kr Kl]. apply Forall_cons. split; [done|]. apply Forall_app. split.
    + apply Forall_fmap, Forall_true. intros g. destruct (Hothers r Kr) as (_ & Hn & _). by destruct g.
    + eapply Forall_impl; [exact Kl|]. exact Hothers.
  - auto.
  - auto.
  - auto.
  - intros Hs. eapply moves_ids; [exact Hids|auto|auto].
Qed.

(** A message is delivered. *)
Lemma message_ok strict s r1 r2 others c l :
  owed r1 = [c] → inbox r2 = c :: l → owed r2 = [] →
  resources_ok strict s (r1 :: r2 :: others) →
  resources_ok strict s ((r1 <| owed := [] |>) :: (r2 <| inbox := l |>) :: others).
Proof.
  intros Ho Hi Ho2 [Kwg Kpeers Kdist Kmade Klocal Ksel Ktk Kpages Kwaiter Kids].
  destruct r1 as [lv1 c1 w1 ow1 inb1 n1 a1 g1 own1], r2 as [lv2 c2 w2 ow2 inb2 n2 a2 g2 own2]. cbn in Ho, Hi, Ho2. subst.
  rewrite !bind_cons in *. cbn [owed inbox] in *.
  assert (Hperm : inb1 ++ (c :: l) ++ (others ≫= inbox) ≡ₚ c :: inb1 ++ l ++ (others ≫= inbox)) by (symmetry; exact (Permutation_middle inb1 (l ++ (others ≫= inbox)) c)).
  rewrite Hperm in Kpeers, Kdist, Kmade.
  apply NoDup_cons in Kdist as [_ Kdist]. apply Forall_cons in Kmade as [_ Kmade].
  split; rewrite ?bind_cons; try done.
  - cbn in *. by apply (inj (cons c)) in Kpeers.
  - rewrite !Forall_cons in *. destruct Klocal as (H1 & (H2 & H3 & H4) & H5). split_and!; try done.
    split; [|done]. intros _. by apply H2.
  - intros Hs. destruct (Kids Hs). by split.
Qed.

Lemma message_wp t1 t2 t1' t2' r1 r2 :
  rendezvous t1 t2 t1' t2' → wp Inv t1 r1 final → wp Inv t2 r2 final →
  ∃ c l, owed r1 = [c] ∧ inbox r2 = c :: l ∧ owed r2 = [] ∧
    wp Inv t1' (r1 <| owed := [] |>) final ∧ wp Inv t2' (r2 <| inbox := l |>) final.
Proof.
  intros Hr H1 H2. destruct t1 as [|B1 e1 k1|], t2 as [|B2 e2 k2|]; try done.
  destruct e1; try done. destruct e2; try done. cbn in Hr. destruct Hr as (E & <- & -> & ->).
  destruct E. cbn in H1, H2. destruct H1 as (Ho & _ & H1), H2 as (Ho2 & l & Hi & H2).
  eexists _, l. split_and!; [done..|apply H2].
Qed.
End adequacy.
