(* ===== verification/LtePoolFacts.v ===== *)
(** * Web Connectivity LTE: every pool of well-behaved tasks

    Preservation, progress and termination for a pool whose goroutines have the weakest
    preconditions of [LteLogic.v]. *)
From S2P Require Import Prelude Failures GoString GoURL GoHTTP Archival Tracing NetPrimitives.
From S2P Require Import GoSort PipeSet Observation LteTestKeys LtePriority LteFlow LteTasks.
From S2P Require Import LteFinalize LtePool LteLogic LteAdequacy.
From Stdlib Require Import Wellfounded.

(** ** Programs end

    A configuration lists tasks with a level; a step continues a task
    and adds tasks of lower levels. *)
Definition continues (t t' : task unit) : Prop :=
  match t with Act e k => ∃ b, t' = k b | Ret _ | Crash _ => False end.

Abbreviation config := (list (task unit * nat)).

Definition config_step (c c' : config) : Prop :=
  ∃ t t' n new others, c ≡ₚ (t, n) :: others ∧ c' ≡ₚ (t', n) :: new ++ others ∧ continues t t' ∧
    Forall (λ x, (x.2 < n)%nat) new.

Abbreviation ends := (Acc (flip config_step)).

#[local] Instance ends_proper : Proper ((≡ₚ) ==> impl) ends.
Proof.
  intros c c' Hp [Hc]. split. intros c'' (t & t' & n & new & others & H1 & H2 & H3 & H4). apply Hc.
  exists t, t', n, new, others. by rewrite Hp.
Qed.

Lemma ends_app c1 c2 : ends c1 → ends c2 → ends (c1 ++ c2).
Proof.
  intros H1. revert c2. induction H1 as [c1 H1 IH1]. intros c2 H2. induction H2 as [c2 H2 IH2].
  split. intros c (t & t' & n & new & others & Hc & Hc' & Ht & Hnew).
  assert (Hin : (t, n) ∈ c1 ++ c2) by (apply (proj2 (elem_of_Permutation_proper (t, n) _ _ Hc)); left).
  apply elem_of_app in Hin as [Hin|Hin]; apply elem_of_Permutation in Hin as [rest Hrest].
  - rewrite Hrest in Hc. cbn in Hc. apply (inj (cons _)) in Hc.
    rewrite Hc', <-Hc, (assoc_L (++)). apply (IH1 ((t', n) :: new ++ rest)); [|by split].
    exists t, t', n, new, rest. by split_and!.
  - rewrite Hrest, <-Permutation_middle in Hc. apply (inj (cons _)) in Hc.
    assert (E : c ≡ₚ c1 ++ (t', n) :: new ++ rest).
    { rewrite Hc', <-Hc, <-Permutation_middle. constructor. rewrite !(assoc_L (++)).
      apply Permutation_app_tail, Permutation_app_comm. }
    rewrite E. apply IH2. exists t, t', n, new, rest. by split_and!.
Qed.

Lemma ends_all c : ends c.
Proof.
  assert (Hnil : ends []).
  { split. intros c1 (t & t' & n & new & others & Hc & _). by apply Permutation_nil_cons in Hc. }
  assert (Hone : ∀ n t, ends [(t, n)]).
  { intros n. induction (lt_wf n) as [n _ IHn]. intros t. induction t as [[]|B e k IHt|why]; split;
      intros c1 (t & t' & m & new & others & Hc & Hc' & Ht & Hnew);
      apply Permutation_singleton_l in Hc; injection Hc as <- <- <-; cbn in Ht; [done| |done].
    destruct Ht as [b ->]. rewrite Hc', app_nil_r.
    assert (Hends : ends new).
    { clear Hc'. induction Hnew as [|[t' m] new Hm _ IH]; [done|]. by apply (ends_app [_]); [apply IHn|]. }
    by apply (ends_app [_]). }
  induction c as [|[t n] c IH]; [done|]. by apply (ends_app [_]).
Qed.

(** ** Selectors settle

    Each step of a selector that does not add a connection moves a connection forward or returns. *)
Definition weight (c : connection) : nat :=
  match c with Asking => 2 | Waiting _ => 1 | Permission _ _ => 0 end.

Definition conns_weight (conns : gmap nat (string * connection)) : nat :=
  map_fold (λ _ x n, (weight x.2 + n)%nat) 0%nat conns.

#[local] Arguments conns_weight : simpl never.
#[local] Arguments respond : simpl never.
#[local] Arguments deny_others : simpl never.

Definition selector_weight (sys : system) : nat :=
  (conns_weight (sys_conns sys) + match sys_selector sys with Returned => 0 | _ => 1 end)%nat.

Lemma conns_weight_insert conns k x :
  conns_weight (<[k := x]> conns) = (weight x.2 + conns_weight (delete k conns))%nat.
Proof.
  rewrite <-insert_delete_eq. unfold conns_weight. rewrite map_fold_insert_L; [done| |apply lookup_delete_eq].
  intros. lia.
Qed.

Lemma conns_weight_delete conns k x :
  conns !! k = Some x → conns_weight conns = (weight x.2 + conns_weight (delete k conns))%nat.
Proof. intros Hk. by rewrite <-conns_weight_insert, insert_id. Qed.

Lemma conns_weight_move conns k x x' :
  conns !! k = Some x → (conns_weight (<[k := x']> conns) + weight x.2 = conns_weight conns + weight x'.2)%nat.
Proof. intros Hk. rewrite conns_weight_insert, (conns_weight_delete _ _ _ Hk). lia. Qed.

Lemma respond_weight v r conns : conns_weight (respond v r conns) = conns_weight conns.
Proof.
  unfold respond. destruct (conns !! req_conn r) as [[addr c]|] eqn:E.
  - rewrite (alter_alt_Some _ _ _ _ E). pose proof (conns_weight_move conns _ _ (addr, answer v c) E) as Hm.
    cbn beta iota. cbn [snd] in Hm. destruct c; cbn [answer weight] in Hm |- *; lia.
  - by rewrite alter_id' by done.
Qed.

Lemma deny_others_weight high requests conns : conns_weight (deny_others high requests conns) = conns_weight conns.
Proof.
  unfold deny_others. revert conns. induction requests as [|r requests IH]; intros conns; [done|]. cbn [foldl].
  rewrite IH. destruct (Nat.eqb _ _); [done|apply respond_weight].
Qed.

Lemma selector_step_weight ps sys sys' : selector_step ps sys sys' → (selector_weight sys' < selector_weight sys)%nat.
Proof.
  intros [Hstep Hdom]. unfold selector_weight.
  assert (Hmove : ∀ st (conns : gmap nat (string * connection)) k addr c c', conns !! k = Some (addr, c) →
    (weight c' < weight c)%nat →
    (conns_weight (sys_conns (mkSystem st (<[k := (addr, c')]> conns))) < conns_weight conns)%nat).
  { intros st conns k addr c c' Hk Hw. pose proof (conns_weight_move conns k _ (addr, c') Hk). cbn in *. lia. }
  destruct Hstep as [s conn addr Hc|s conn addr Hc Hl|s conn addr Hc|s conn addr resp Hc|s conn addr v Hc|s Hl
    |s requests high Hst Hfind]; destruct s as [st conns]; cbn in *.
  - exfalso. apply not_elem_of_dom in Hc. set_solver.
  - pose proof (Hmove st conns conn addr Asking (Waiting None) Hc) as Hm. cbn in Hm.
    unfold receive. destruct st; cbn; [destruct (isHighestPriority _ _); cbn; rewrite ?respond_weight| |done]; lia.
  - pose proof (Hmove st conns conn addr Asking (Permission false None) Hc) as Hm. cbn in Hm. lia.
  - pose proof (Hmove st conns conn addr (Waiting resp) (Permission false resp) Hc) as Hm. cbn in Hm. lia.
  - pose proof (Hmove st conns conn addr (Waiting (Some v)) (Permission v None) Hc) as Hm. cbn in Hm. lia.
  - destruct st; [lia..|done].
  - rewrite deny_others_weight, respond_weight, Hst. lia.
Qed.

(** The steps that [wg.Wait()] still takes. *)
Definition waiter_weight (w : waiter) : nat :=
  match w with NotWaiting => 4 | Parked => 3 | Releasing => 2 | Woken => 1 | WaitReturned => 0 end.

Lemma wait_step_weight n w w' : wait_step n w w' → (waiter_weight w' < waiter_weight w)%nat.
Proof.
  destruct w; cbn; [|done| | |done].
  - intros ->. destruct (n =? 0); cbn; lia.
  - intros ->. cbn. lia.
  - intros [_ ->]. cbn. lia.
Qed.

(** What may still happen while no task moves. *)
Definition idle_weight `{CookieJar} (s : shared) : nat :=
  (sum_list_with (λ sel, selector_weight sel.2) (sh_selectors s) + waiter_weight (sh_waiter s))%nat.

Lemma sum_list_with_insert_lt {A} (f : A → nat) (l : list A) i x y :
  l !! i = Some x → (f y < f x)%nat → (sum_list_with f (<[i := y]> l) < sum_list_with f l)%nat.
Proof.
  revert i. induction l as [|z l IH]; intros [|i]; cbn; try done.
  - intros [= ->]. lia.
  - intros Hi Hlt. apply (proj1 (Nat.add_lt_mono_l _ _ _)). exact (IH i Hi Hlt).
Qed.

(** ** The steps of a pool *)

Section pool.
Context `{CookieJar}.
Context (run : goroutine → task unit) (Inv : TestKeys → Prop).
Hypothesis run_ok : ∀ n g, goroutine_ok Inv n g → wp Inv (run g) (seed n g) final.
Implicit Types (s : shared) (r : resources) (rs : list resources) (ts : list (task unit)).

Definition typed (t : task unit) (r : resources) : Prop := wp Inv t r final.

Definition configuration ts rs : config := zip_with (λ t r, (t, level r)) ts rs.

Definition total_left s rs : Z := redirects_left s + Z.of_nat (sum_list_with credits rs).

(** What a step that starts no [DNSResolvers] does to programs, selectors and the wait. *)
Definition advances s ts rs s' ts' rs' : Prop :=
  Relation_Operators.clos_trans _ (flip config_step) (configuration ts' rs') (configuration ts rs) ∨
  (ts' = ts ∧ rs' = rs ∧ (idle_weight s' < idle_weight s)%nat).

Lemma task_typed s t s' t' gs r :
  task_step s t s' t' gs → typed t r → local_ok s r →
  ∃ r', typed t' r' ∧ continues t t' ∧ moves Inv s s' r r' gs.
Proof.
  intros Hstep Ht Hr. destruct t as [|B e k|]; try done. destruct Hstep as (b & Hp & ->).
  destruct (action_moves Inv e s b s' gs r _ Hr Ht Hp) as (r' & Ht' & Hm). exists r'. split_and!; [done| |done]. by exists b.
Qed.

Lemma configuration_app ts1 ts2 rs1 rs2 :
  length ts1 = length rs1 → configuration (ts1 ++ ts2) (rs1 ++ rs2) = configuration ts1 rs1 ++ configuration ts2 rs2.
Proof. apply zip_with_app. Qed.

Lemma started_config n gs lv :
  Forall (λ g, goroutine_ok Inv n g ∧ (is_resolvers g = true ∨ (rank g < lv)%nat)) gs → resolvers_in gs = 0%nat →
  Forall (λ x, (x.2 < lv)%nat) (configuration (map run gs) (seed n <$> gs)).
Proof.
  induction 1 as [|g gs [_ Hg] Hgs IH]; [constructor|]. unfold resolvers_in. cbn. intros Hn. constructor.
  - assert (E : level (seed n g) = rank g) by by destruct g. cbn. rewrite E. destruct Hg as [Hg|]; [|done].
    by rewrite Hg in Hn.
  - apply IH. destruct (is_resolvers g); [done|exact Hn].
Qed.

Lemma started_typed n gs lv :
  Forall (λ g, goroutine_ok Inv n g ∧ (is_resolvers g = true ∨ (rank g < lv)%nat)) gs →
  Forall2 typed (map run gs) (seed n <$> gs).
Proof. induction 1 as [|g gs [Hg _] _ IH]; [constructor|]. constructor; [by apply run_ok|done]. Qed.

Lemma seeds_credits n gs : sum_list_with credits (seed n <$> gs) = 0%nat.
Proof. induction gs as [|g gs IH]; [done|]. cbn in *. rewrite IH. by destruct g. Qed.

Lemma task_advances s t t' l1 l2 r r' rs1 rs2 gs s' :
  length l1 = length rs1 → length l2 = length rs2 → continues t t' → moves Inv s s' r r' gs → resolvers_in gs = 0%nat →
  config_step (configuration (l1 ++ t :: l2) (rs1 ++ r :: rs2))
    (configuration (l1 ++ t' :: l2 ++ map run gs) (rs1 ++ r' :: rs2 ++ (seed (sels r) <$> gs))).
Proof.
  intros H1 H2 Ht Hm Hgs. exists t, t', (level r), (configuration (map run gs) (seed (sels r) <$> gs)),
    (configuration l1 rs1 ++ configuration l2 rs2).
  rewrite !configuration_app by done. cbn [configuration zip_with]. fold (configuration l2 rs2).
  fold (configuration (l2 ++ map run gs) (rs2 ++ (seed (sels r) <$> gs))). rewrite configuration_app by done.
  rewrite (mv_level _ _ _ _ _ _ Hm). split_and!; [by rewrite Permutation_middle| |done|].
  - rewrite <-Permutation_middle. constructor.
    by rewrite (assoc_L (++)), (Permutation_app_comm (_ ++ _) (configuration (map run gs) _)).
  - eapply started_config; [exact (mv_started _ _ _ _ _ _ Hm)|done].
Qed.

Lemma message_advances t1 t2 t1' t2' l1 l2 l3 r1 r2 r1' r2' rs1 rs2 rs3 :
  length l1 = length rs1 → length l2 = length rs2 → continues t1 t1' → continues t2 t2' →
  level r1' = level r1 → level r2' = level r2 →
  Relation_Operators.clos_trans _ (flip config_step) (configuration (l1 ++ t1' :: l2 ++ t2' :: l3) (rs1 ++ r1' :: rs2 ++ r2' :: rs3))
    (configuration (l1 ++ t1 :: l2 ++ t2 :: l3) (rs1 ++ r1 :: rs2 ++ r2 :: rs3)).
Proof.
  intros H1 H2 Ht1 Ht2 Hl1 Hl2.
  assert (E : ∀ t1 t2 r1 r2, configuration (l1 ++ t1 :: l2 ++ t2 :: l3) (rs1 ++ r1 :: rs2 ++ r2 :: rs3) =
    configuration l1 rs1 ++ (t1, level r1) :: configuration l2 rs2 ++ (t2, level r2) :: configuration l3 rs3).
  { intros. rewrite configuration_app by done. cbn [configuration zip_with]. f_equal. f_equal. by apply configuration_app. }
  rewrite !E, Hl1, Hl2. set (c1 := configuration l1 rs1). set (c2 := configuration l2 rs2). set (c3 := configuration l3 rs3).
  assert (Hp : ∀ x y : task unit * nat, c1 ++ x :: c2 ++ y :: c3 ≡ₚ y :: c1 ++ x :: c2 ++ c3).
  { intros x y. change (x :: c2 ++ y :: c3) with ((x :: c2) ++ y :: c3).
    by rewrite (assoc_L (++)), <-Permutation_middle, <-(assoc_L (++)). }
  apply (Relation_Operators.t_trans _ _ _ (c1 ++ (t1', level r1) :: c2 ++ (t2, level r2) :: c3)); apply Relation_Operators.t_step.
  - exists t2, t2', (level r2), [], (c1 ++ (t1', level r1) :: c2 ++ c3). cbn [app].
    by split_and!; [apply Hp..|done|constructor].
  - exists t1, t1', (level r1), [], (c1 ++ c2 ++ (t2, level r2) :: c3). cbn [app].
    split_and!; [symmetry; apply Permutation_middle..|done|constructor].
Qed.

Lemma rendezvous_continues t1 t2 t1' t2' : rendezvous t1 t2 t1' t2' → continues t1 t1' ∧ continues t2 t2'.
Proof.
  intros Hr. destruct t1 as [|B1 e1 k1|], t2 as [|B2 e2 k2|]; try done.
  destruct e1; try done. destruct e2; try done. destruct Hr as (E & <- & -> & ->). split; by eexists.
Qed.

(** One step of a selector, seen from its tasks. *)
Lemma selector_ok strict s rs i ps sys sys' :
  sh_selectors s !! i = Some (ps, sys) → selector_step ps sys sys' →
  resources_ok Inv strict s rs → resources_ok Inv strict (s <| sh_selectors ::= <[i := (ps, sys')]> |>) rs.
Proof.
  change (s <| sh_selectors ::= <[i := (ps, sys')]> |>) with (s <| sh_selectors := <[i := (ps, sys')]> (sh_selectors s) |>).
  intros Hi [Hstep Hdom] [Kwg Kpeers Kdist Kmade Klocal Ksel Ktk (used & Hused & Hnd) Kwaiter Kids].
  pose proof (selector_kept s i ps sys sys' Hi (step_kept _ _ _ Hstep)) as Hkept. split; try done.
  - eapply Forall_impl; [exact Klocal|]. intros r Hr. apply local_selectors; [done|by rewrite length_insert|done].
  - apply Forall_insert; [done|]. eapply reachable_step; [|exact Hstep].
    exact (proj1 (Forall_lookup _ _) Ksel i (ps, sys) Hi).
  - exists used. split; [|done]. eapply Forall2_impl; [exact Hused|]. intros req k [Hk ?]. split; [|done].
    refine (proj2 (selectors_kept s _ _) k Hk). by destruct s.
  - intros Hs. destruct (Kids Hs). by split.
Qed.

(** One step of the wait, which the tasks do not see. *)
Lemma wait_ok strict s rs w :
  wait_step (sh_wg s) (sh_waiter s) w → resources_ok Inv strict s rs → resources_ok Inv strict (s <| sh_waiter := w |>) rs.
Proof.
  intros Hstep [Kwg Kpeers Kdist Kmade Klocal Ksel Ktk Kpages Kwaiter Kids]. split; try done.
  - assert (Hpos : 0 <= sh_wg s) by lia. clear - Hpos Hstep Kwaiter.
    destruct s as [? ? ? ? ? ? ? n w0]. unfold waiter_ok in *. cbn in *. destruct w0; cbn in Hstep; try done.
    + subst w. destruct (Z.eqb_spec n 0); [done|]. unfold constant. lia.
    + by subst w.
    + by destruct Hstep as [_ ->].
  - intros Hs. destruct (Kids Hs). by split.
Qed.

Lemma seeds_level n (gs : list goroutine) : level <$> (seed n <$> gs) = rank <$> gs.
Proof. induction gs as [|g gs IH]; [done|]. cbn in *. rewrite IH. by destruct g. Qed.

Lemma step_typed strict s ts gs s' ts' rs :
  pool_step run (s, ts) gs (s', ts') → Forall2 typed ts rs → resources_ok Inv strict s rs → (strict → few_flows s') →
  ∃ rs', Forall2 typed ts' rs' ∧ resources_ok Inv strict s' rs' ∧ level <$> rs' = (level <$> rs) ++ (rank <$> gs) ∧
    (unwrapped s → total_left s' rs' + Z.of_nat (resolvers_in gs) <= total_left s rs) ∧
    (resolvers_in gs = 0%nat → advances s ts rs s' ts' rs').
Proof.
  intros Hstep Hts Hrs Hfew. inversion Hstep; subst.
  - apply Forall2_app_inv_l in Hts as (rs1 & rs0 & Hts1 & Hts0 & ->).
    apply Forall2_cons_inv_l in Hts0 as (r & rs2 & Ht & Hts2 & ->).
    rename t into t0, t' into t1.
    assert (Hperm : ∀ x new, x :: new ++ (rs1 ++ rs2) ≡ₚ rs1 ++ x :: rs2 ++ new)
      by (intros x new; by rewrite (Permutation_app_comm new), <-(assoc_L (++)), Permutation_middle).
    pose proof (Hperm r []) as Hp0. rewrite app_nil_l, app_nil_r in Hp0. rewrite <-Hp0 in Hrs.
    assert (Hr : local_ok s r) by exact (Forall_inv (ok_local _ _ _ _ Hrs)).
    destruct (task_typed s t0 s' t1 gs r) as (r' & Ht' & Hc & Hm); [done..|].
    exists (rs1 ++ r' :: rs2 ++ (seed (sels r) <$> gs)). split_and!.
    + apply Forall2_app; [done|]. constructor; [done|]. apply Forall2_app; [done|].
      eapply started_typed. exact (mv_started _ _ _ _ _ _ Hm).
    + rewrite <-Hperm. by eapply moves_ok.
    + rewrite !fmap_app, !fmap_cons, fmap_app, seeds_level, (mv_level _ _ _ _ _ _ Hm), <-(assoc_L (++)). done.
    + intros Hu. pose proof (mv_credits _ _ _ _ _ _ Hm Hu) as Hcr. unfold total_left.
      rewrite !sum_list_with_app. cbn [sum_list_with]. rewrite sum_list_with_app, seeds_credits. lia.
    + intros Hgs. left. apply Relation_Operators.t_step. eapply task_advances; try done; by eapply Forall2_length.
  - apply Forall2_app_inv_l in Hts as (rs1 & rs0 & Hts1 & Hts0 & ->).
    apply Forall2_cons_inv_l in Hts0 as (r1 & rs0' & Ht1 & Hts0 & ->).
    apply Forall2_app_inv_l in Hts0 as (rs2 & rs0 & Hts2 & Hts0 & ->).
    apply Forall2_cons_inv_l in Hts0 as (r2 & rs3 & Ht2 & Hts3 & ->).
    assert (Hperm : ∀ x y, x :: y :: rs1 ++ rs2 ++ rs3 ≡ₚ rs1 ++ x :: rs2 ++ y :: rs3)
      by (intros x y; by rewrite <-(Permutation_middle rs2), <-!(Permutation_middle rs1), perm_swap).
    pose proof (Forall2_length _ _ _ Hts1) as Hl1. pose proof (Forall2_length _ _ _ Hts2) as Hl2.
    assert (Hgo : ∀ r1' r2', typed t1' r1' → typed t2' r2' → continues t1 t1' → continues t2 t2' →
      level r1' = level r1 → level r2' = level r2 → credits r1' = credits r1 → credits r2' = credits r2 →
      resources_ok Inv strict s' (r1' :: r2' :: rs1 ++ rs2 ++ rs3) → ∃ rs',
      Forall2 typed (l1 ++ t1' :: l2 ++ t2' :: l3) rs' ∧ resources_ok Inv strict s' rs' ∧
      level <$> rs' = (level <$> (rs1 ++ r1 :: rs2 ++ r2 :: rs3)) ++ (rank <$> []) ∧
      (unwrapped s' → total_left s' rs' + Z.of_nat (resolvers_in []) <= total_left s' (rs1 ++ r1 :: rs2 ++ r2 :: rs3)) ∧
      (resolvers_in [] = 0%nat → advances s' (l1 ++ t1 :: l2 ++ t2 :: l3) (rs1 ++ r1 :: rs2 ++ r2 :: rs3) s' (l1 ++ t1' :: l2 ++ t2' :: l3) rs')).
    { intros r1' r2' Ht1' Ht2' Hc1 Hc2 Hlv1 Hlv2 Hcr1 Hcr2 Hok. exists (rs1 ++ r1' :: rs2 ++ r2' :: rs3). split_and!.
      - apply Forall2_app; [done|]. constructor; [done|]. apply Forall2_app; [done|]. by constructor.
      - by rewrite <-Hperm.
      - by rewrite app_nil_r, !fmap_app, !fmap_cons, !fmap_app, !fmap_cons, Hlv1, Hlv2.
      - intros _. unfold total_left. rewrite !sum_list_with_app. cbn [sum_list_with].
        rewrite !sum_list_with_app. cbn [sum_list_with]. rewrite Hcr1, Hcr2. cbn. lia.
      - intros _. left. by apply message_advances. }
    rewrite <-Hperm in Hrs. match goal with Hmsg : _ ∨ _ |- _ => destruct Hmsg as [Hr|Hr] end;
      pose proof (rendezvous_continues _ _ _ _ Hr) as [? ?].
    + destruct (message_wp Inv t1 t2 t1' t2' r1 r2) as (c & l & Ho & Hi & Ho2 & ? & ?); [done..|].
      eapply Hgo; try done. by eapply message_ok.
    + destruct (message_wp Inv t2 t1 t2' t1' r2 r1) as (c & l & Ho & Hi & Ho2 & ? & ?); [done..|].
      eapply Hgo; try done. rewrite perm_swap in Hrs |- *. by eapply message_ok.
  - exists rs. split_and!; [done|by eapply selector_ok|by rewrite app_nil_r| |].
    { intros _. match goal with |- total_left ?s' _ + _ <= _ => change (total_left s' rs) with (total_left s rs) end.
      change (resolvers_in []) with 0%nat. lia. }
    intros _. right. split_and!; [done..|]. apply Nat.add_lt_mono_r. eapply sum_list_with_insert_lt; [eassumption|]. by eapply selector_step_weight.
  - exists rs. split_and!; [done|by apply wait_ok|by rewrite app_nil_r| |].
    { intros _. match goal with |- total_left ?s' _ + _ <= _ => change (total_left s' rs) with (total_left s rs) end.
      change (resolvers_in []) with 0%nat. lia. }
    intros _. right. split_and!; [done..|]. apply Nat.add_lt_mono_l. by eapply wait_step_weight.
Qed.

(** ** Runs *)

Definition pool_ok (strict : Prop) (p : pool) : Prop :=
  ∃ rs, Forall2 typed p.2 rs ∧ resources_ok Inv strict p.1 rs.

Lemma run_ok' strict (P : pool → Prop) p gs p' :
  (∀ p, P p → strict → few_flows p.1) → pool_run run P p gs p' → pool_ok strict p → pool_ok strict p'.
Proof.
  intros HP Hrun Hok. induction Hrun as [|p1 gs [s ts] gs' [s' ts'] _ IH Hstep HP3]; [done|].
  destruct (IH Hok) as (rs & Hts & Hrs).
  destruct (step_typed strict s ts gs' s' ts' rs) as (rs' & ? & ? & _); [done..|exact (HP _ HP3)|]. by exists rs'.
Qed.

Lemma run_trans (P : pool → Prop) p1 gs p2 gs' p3 : pool_run run P p1 gs p2 → pool_run run P p2 gs' p3 → pool_run run P p1 (gs ++ gs') p3.
Proof.
  intros H1 H2. induction H2 as [p2|p2 gs3 p3 gs4 p4 _ IH Hs HP]; [by rewrite app_nil_r|].
  rewrite (assoc_L (++)). eapply run_step; [by apply IH|done|done].
Qed.

(** The redirects that are left pay for the [DNSResolvers] that are started. *)
Lemma run_left (P : pool → Prop) p gs p' rs :
  (∀ p, P p → unwrapped p.1) → pool_run run P p gs p' → Forall2 typed p.2 rs → resources_ok Inv False p.1 rs →
  ∃ rs', Forall2 typed p'.2 rs' ∧ resources_ok Inv False p'.1 rs' ∧
    total_left p'.1 rs' + Z.of_nat (resolvers_in gs) <= total_left p.1 rs.
Proof.
  intros HP Hrun Hts Hrs.
  assert (Hend : P p' ∧ ∃ rs', Forall2 typed p'.2 rs' ∧ resources_ok Inv False p'.1 rs' ∧
    total_left p'.1 rs' + Z.of_nat (resolvers_in gs) <= total_left p.1 rs); [|by destruct Hend].
  induction Hrun as [p Hp|p1 gs [s ts] gs' [s' ts'] _ IH Hstep HP3].
  { split; [done|]. exists rs. split_and!; [done..|]. change (resolvers_in []) with 0%nat. lia. }
  destruct (IH Hts Hrs) as (HP2 & rs2 & Hts2 & Hrs2 & Hle). split; [done|].
  destruct (step_typed False s ts gs' s' ts' rs2) as (rs' & ? & ? & _ & Hcr & _); [done..|].
  exists rs'. split_and!; [done..|]. specialize (Hcr (HP _ HP2)). unfold resolvers_in in *.
  rewrite List.filter_app, length_app. cbn [fst] in *. lia.
Qed.

(** The levels of the tasks are those of the goroutines, in the order in which they were started. *)
Lemma run_levels (P : pool → Prop) p gs p' rs :
  pool_run run P p gs p' → Forall2 typed p.2 rs → resources_ok Inv False p.1 rs →
  ∃ rs', Forall2 typed p'.2 rs' ∧ resources_ok Inv False p'.1 rs' ∧ level <$> rs' = (level <$> rs) ++ (rank <$> gs).
Proof.
  intros Hrun Hts Hrs. induction Hrun as [p Hp|p1 gs [s ts] gs' [s' ts'] _ IH Hstep HP3].
  { exists rs. by rewrite app_nil_r. }
  destruct (IH Hts Hrs) as (rs2 & Hts2 & Hrs2 & Hl2).
  destruct (step_typed False s ts gs' s' ts' rs2) as (rs' & ? & ? & Hl & _); [done..|].
  exists rs'. split_and!; [done..|]. by rewrite Hl, Hl2, fmap_app, (assoc_L (++)).
Qed.

(** ** Progress *)

Definition finished (t : task unit) : Prop := t = Ret tt.

(** Where a task may wait: for its selector, to send or to receive. *)
Inductive task_state (s : shared) (t : task unit) (r : resources) : Prop :=
  | state_finished : finished t → owed r = [] → inbox r = [] → task_state s t r
  | state_ready s' t' gs : task_step s t s' t' gs → task_state s t r
  | state_selector i ps sys sys' : sh_selectors s !! i = Some (ps, sys) → selector_step ps sys sys' → task_state s t r
  | state_waits w : wait_step (sh_wg s) (sh_waiter s) w → task_state s t r
  | state_sends ct ch v k : t = Act (ChanSend ct ch v) k → owed r = [(ct, ch)] → inbox r = [] → task_state s t r
  | state_receives ct ch k l : t = Act (ChanRecv ct ch) k → inbox r = (ct, ch) :: l → owed r = [] → task_state s t r.

Lemma task_progress s t r :
  typed t r → local_ok s r → sh_wg s > 0 ∨ wgs r = 0%nat → task_state s t r.
Proof.
  intros Ht (Hin & Hsels & Hask & _) Hwg. destruct t as [[]|B e k|why]; [|clear run_ok|done].
  { destruct Ht as (? & ? & ?). by apply state_finished. }
  assert (Hready : ∀ b s' gs, perform e s b s' gs → task_state s (Act e k) r)
    by (intros b s' gs Hp; eapply state_ready; by exists b).
  unfold typed in Ht. cbn [wp] in Ht. destruct e; cbn [action_wp] in Ht.
  - destruct Ht as [[b Hb] _]. by apply (Hready b s []).
  - by eapply (Hready tt _ []).
  - by eapply (Hready _ _ []).
  - by eapply (Hready _ _ []).
  - by eapply (Hready tt _ []).
  - by eapply (Hready _ _ []).
  - by eapply (Hready _ _ []).
  - by eapply (Hready tt _ []).
  - by eapply (Hready _ _ []).
  - by eapply (Hready _ _ []).
  - by eapply (Hready tt _ []).
  - destruct (decide (sh_waiter s = Releasing)) as [E|E]; [|by eapply (Hready tt _ [])].
    apply (state_waits _ _ _ Woken). by rewrite E.
  - destruct Ht as (_ & w & Hw & _). apply (Hready tt (wg_done s) []). split_and!; [|done..].
    destruct Hwg; [lia|congruence].
  - by eapply (Hready _ _ []).
  - destruct Ht as (? & ? & _). by eapply state_sends.
  - destruct Ht as (? & l & ? & _). by eapply state_receives.
  - by eapply (Hready _ _ []).
  - destruct Ht as (Hps & _). destruct (lookup_lt_is_Some_2 (sh_selectors s) ps) as [[p sys] Hp]; [lia|].
    eapply (Hready (fresh (dom (sys_conns sys))) _ []). exists p, sys. split_and!; [done| |done..].
    apply not_elem_of_dom, is_fresh.
  - destruct Ht as (addr & Ha & _). destruct (Hask _ Ha) as (c & p & sys & Hp & Hc). destruct c as [|resp|granted resp].
    + eapply state_selector; [exact Hp|]. split; [by eapply step_send_timeout|]. cbn. apply dom_insert_lookup_L. by rewrite Hc.
    + eapply state_selector; [exact Hp|]. split; [by eapply step_receive_timeout|]. cbn. apply dom_insert_lookup_L. by rewrite Hc.
    + eapply (Hready granted s []). by exists p, sys, addr, resp.
  - by apply (Hready tt s [g]).
Qed.

Lemma two_elements {A} (l : list A) i j x y :
  l !! i = Some x → l !! j = Some y → (i < j)%nat →
  ∃ l1 l2 l3, l = l1 ++ x :: l2 ++ y :: l3 ∧ i = length l1 ∧ j = (length l1 + S (length l2))%nat.
Proof.
  intros Hi Hj Hij. exists (take i l), (take (j - S i) (drop (S i) l)), (drop (S j) l).
  pose proof (lookup_lt_Some _ _ _ Hj). rewrite !length_take, length_drop. split; [|lia].
  rewrite <-(take_drop_middle l i x Hi) at 1. f_equal. f_equal.
  rewrite <-(take_drop_middle (drop (S i) l) (j - S i) y) at 1 by (rewrite lookup_drop; rewrite <-Hj; f_equal; lia).
  f_equal. f_equal. rewrite drop_drop. f_equal. lia.
Qed.

Lemma message_step s ts i j t1 t2 t1' t2' :
  ts !! i = Some t1 → ts !! j = Some t2 → i ≠ j → rendezvous t1 t2 t1' t2' → ∃ gs p', pool_step run (s, ts) gs p'.
Proof.
  intros Hi Hj Hne Hr. destruct (decide (i < j)%nat) as [Hlt|Hge].
  - destruct (two_elements ts i j t1 t2) as (l1 & l2 & l3 & -> & _); [done..|].
    eexists _, _. apply pool_message. by left.
  - destruct (two_elements ts j i t2 t1) as (l1 & l2 & l3 & -> & _); [done..|lia|].
    eexists _, _. apply pool_message. by right.
Qed.

Section progress.
Context (s : shared) (ts : list (task unit)) (rs : list resources).
Hypothesis (Hts : Forall2 typed ts rs) (Hrs : resources_ok Inv False s rs).

Lemma states i t r : ts !! i = Some t → rs !! i = Some r → task_state s t r.
Proof.
  intros Hi Hr. pose proof (Forall2_lookup_lr _ _ _ _ _ _ Hts Hi Hr) as Ht.
  destruct Hrs as [Kwg _ _ _ Klocal _ _ _ _ _]. apply task_progress; [done|exact (proj1 (Forall_lookup _ _) Klocal i r Hr)|].
  destruct (wgs r) as [|w] eqn:E; [by right|left]. rewrite Kwg.
  enough (0 < sum_list_with wgs rs)%nat by lia.
  apply list_elem_of_lookup_2, (sum_list_with_in r wgs) in Hr. lia.
Qed.

Lemma ready_steps i t s' t' gs : ts !! i = Some t → task_step s t s' t' gs → ∃ gs p', pool_step run (s, ts) gs p'.
Proof.
  intros Hi Hstep. rewrite <-(take_drop_middle ts i t Hi). eexists _, _. by apply pool_task.
Qed.

(** The task that has to send on a channel is found, and the one that has to receive. *)
Lemma peer (f g : resources → list (chan_type * nat)) i r c :
  rs ≫= f ≡ₚ rs ≫= g → rs !! i = Some r → c ∈ f r → ∃ j t' r', ts !! j = Some t' ∧ rs !! j = Some r' ∧ c ∈ g r'.
Proof.
  intros Hp Hr Hc. assert (Hin : c ∈ rs ≫= g).
  { rewrite <-Hp. apply list_elem_of_bind. exists r. split; [done|]. by eapply list_elem_of_lookup_2. }
  apply list_elem_of_bind in Hin as (r' & Hc' & Hr'). apply list_elem_of_lookup in Hr' as [j Hj].
  destruct (Forall2_lookup_r _ _ _ _ _ Hts Hj) as (t' & Ht' & _). by exists j, t', r'.
Qed.

Lemma receiver_steps i ct ch k r l :
  ts !! i = Some (Act (ChanRecv ct ch) k) → rs !! i = Some r → inbox r = (ct, ch) :: l → owed r = [] →
  ∃ gs p', pool_step run (s, ts) gs p'.
Proof.
  intros Hi Hr Hin Ho.
  destruct (peer inbox owed i r (ct, ch)) as (j & t' & r' & Hj & Hr' & Hc);
    [symmetry; apply (ok_peers _ _ _ _ Hrs)|done|rewrite Hin; left|].
  assert (Hne : j ≠ i) by (intros ->; rewrite Hr in Hr'; injection Hr' as <-; rewrite Ho in Hc; by apply elem_of_nil in Hc).
  destruct (states j t' r' Hj Hr') as [? Ho' _|s' t1 gs Hstep|m ps sys sys' Hsel Hstep|w Hstep|ct' ch' v k' -> Ho' _|? ? ? ? ? ? Ho'].
  - rewrite Ho' in Hc. by apply elem_of_nil in Hc.
  - by eapply ready_steps.
  - eexists _, _. by eapply pool_selector.
  - eexists _, _. by eapply pool_wait.
  - rewrite Ho' in Hc. apply list_elem_of_singleton in Hc. injection Hc as -> ->.
    eapply (message_step s ts j i); [done..|]. by exists eq_refl.
  - rewrite Ho' in Hc. by apply elem_of_nil in Hc.
Qed.

Lemma task_steps i t r : ts !! i = Some t → rs !! i = Some r → finished t ∨ ∃ gs p', pool_step run (s, ts) gs p'.
Proof.
  intros Hi Hr.
  destruct (states i t r Hi Hr) as [? _ _|s' t1 gs Hstep|m ps sys sys' Hsel Hstep|w Hstep|ct ch v k -> Ho Hin|ct ch k l -> Hin Ho].
  - by left.
  - right. by eapply ready_steps.
  - right. eexists _, _. by eapply pool_selector.
  - right. eexists _, _. by eapply pool_wait.
  - right. destruct (peer owed inbox i r (ct, ch)) as (j & t' & r' & Hj & Hr' & Hc);
      [apply (ok_peers _ _ _ _ Hrs)|done|rewrite Ho; left|].
    destruct (states j t' r' Hj Hr') as [? _ Hin'|s' t1 gs Hstep|m ps sys sys' Hsel Hstep|w Hstep|? ? ? ? ? ? Hin'|ct' ch' k' l -> Hin' Ho'].
    1, 5: rewrite Hin' in Hc; by apply elem_of_nil in Hc.
    + by eapply ready_steps.
    + eexists _, _. by eapply pool_selector.
    + eexists _, _. by eapply pool_wait.
    + by eapply receiver_steps.
  - right. by eapply receiver_steps.
Qed.
End progress.

(** Nobody blocks the others for ever: either every task has returned or a step is possible. *)
Lemma pool_progress p : pool_ok False p → Forall finished p.2 ∨ ∃ gs p', pool_step run p gs p'.
Proof.
  destruct p as [s ts]. intros (rs & Hts & Hrs). cbn in *.
  assert (Hall : ∀ i t, ts !! i = Some t → finished t ∨ ∃ gs p', pool_step run (s, ts) gs p').
  { intros i t Hi. destruct (Forall2_lookup_l _ _ _ _ _ Hts Hi) as (r & Hr & _). by eapply task_steps. }
  clear Hts Hrs. revert Hall. generalize (pool_step run (s, ts)) as R. intros R. induction ts as [|t ts' IH]; intros Hall.
  - by left.
  - destruct (Hall 0%nat t eq_refl) as [Ht|]; [|by right].
    destruct IH as [IH|]; [intros i t' Hi; by apply (Hall (S i))|left; by constructor|by right].
Qed.

Lemma no_crash p t why : pool_ok False p → t ∈ p.2 → t ≠ Crash why.
Proof.
  intros (rs & Hts & _) Hin ->. apply list_elem_of_lookup in Hin as [i Hi].
  by destruct (Forall2_lookup_l _ _ _ _ _ Hts Hi) as (r & _ & Ht).
Qed.

(** ** Waiting *)

(** The task is about to change the test keys. *)
Definition updates (t : task unit) : Prop :=
  match t with Act (Update _) _ => True | _ => False end.

(** Nobody is busy when the wait group counts nobody. *)
Lemma waited_idle s rs r1 : resources_ok Inv False s rs → sh_wg s = 0 → r1 ∈ rs → ¬ busy r1.
Proof.
  intros [Kwg Kpeers _ _ Klocal _ _ _ _ _] Hw Hr1 Hbusy. rewrite Kwg in Hw.
  assert (Hz : ∀ r, r ∈ rs → wgs r = 0%nat) by (intros r Hr; pose proof (sum_list_with_in r wgs rs Hr); lia).
  assert (Hin0 : rs ≫= inbox = []).
  { destruct (rs ≫= inbox) as [|c l] eqn:E; [done|]. exfalso.
    assert (Hc : c ∈ rs ≫= inbox) by (rewrite E; left).
    apply list_elem_of_bind in Hc as (r & Hc & Hr). rewrite Forall_forall in Klocal.
    destruct (Klocal r Hr) as (Hb & _). rewrite (Hz r Hr) in Hb.
    assert (Hne : inbox r ≠ []) by (intros E'; rewrite E' in Hc; by apply elem_of_nil in Hc). specialize (Hb Hne). lia. }
  destruct Hbusy as [Hb|Hb].
  - rewrite (Hz r1 Hr1) in Hb. lia.
  - rewrite Hin0 in Kpeers. apply Permutation_nil_r in Kpeers. apply Hb.
    destruct (owed r1) as [|c l] eqn:E; [done|]. exfalso. apply (not_elem_of_nil c). rewrite <-Kpeers.
    apply list_elem_of_bind. exists r1. split; [rewrite E; left|done].
Qed.

Lemma waited_quiet p t : pool_ok False p → waited p → t ∈ p.2 → ¬ updates t.
Proof.
  intros (rs & Hts & Hrs) Hw Hin Hup.
  apply list_elem_of_lookup in Hin as [i Hi]. destruct (Forall2_lookup_l _ _ _ _ _ Hts Hi) as (r & Hr & Ht).
  apply list_elem_of_lookup_2 in Hr. destruct t as [|B e k|]; try done. destruct e; try done. destruct Ht as (Hb & _).
  by eapply waited_idle.
Qed.

(** What may panic: the tasks themselves do not, and the counter is never negative. *)
Lemma pool_panics_wait p why :
  pool_ok False p → pool_panics p why →
  (sh_waiter p.1 = Releasing ∧ waited p ∧ (∃ k, Act WgAdd k ∈ p.2) ∧
     why = "sync: WaitGroup misuse: Add called concurrently with Wait") ∨
  (sh_waiter p.1 = Woken ∧ ¬ waited p ∧ why = "sync: WaitGroup is reused before previous Wait has returned").
Proof.
  intros Hok Hp. inversion Hp as [s ts why' Hc|s ts k Hin Hwg|s ts k Hin Hw|s ts Hw Hwg]; subst.
  - by apply no_crash with (t := Crash why) (why := why) in Hok.
  - exfalso. destruct Hok as (rs & Hts & Hrs). apply list_elem_of_lookup in Hin as [i Hi].
    destruct (Forall2_lookup_l _ _ _ _ _ Hts Hi) as (r & Hr & Ht). destruct Ht as (_ & w & Hw & _).
    apply list_elem_of_lookup_2, (sum_list_with_in r wgs) in Hr. pose proof (ok_wg _ _ _ _ Hrs) as E. cbn in *. lia.
  - left. split_and!; [done| |by exists k|done]. destruct Hok as (rs & _ & Hrs). pose proof (ok_waiter _ _ _ _ Hrs) as E.
    unfold waiter_ok in E. cbn in *. by rewrite Hw in E.
  - by right.
Qed.

(** ** Termination *)

(** A step from a pool whose redirect counter has not reached its minimum. *)
Definition next (p' p : pool) : Prop := unwrapped p.1 ∧ ∃ gs, pool_step run p gs p'.

Lemma pool_ends p : pool_ok False p → Acc next p.
Proof.
  intros (rs & Hts & Hrs). remember (Z.to_nat (total_left p.1 rs)) as n eqn:En. revert p rs Hts Hrs En.
  induction (lt_wf n) as [n _ IHn]. intros [s ts] rs Hts Hrs En. cbn in *.
  assert (Hc : Acc (Relation_Operators.clos_trans _ (flip config_step)) (configuration ts rs)) by apply Acc_clos_trans, ends_all.
  remember (configuration ts rs) as c eqn:Ec. revert s ts rs Hts Hrs Ec En.
  induction Hc as [c _ IHc]. intros s ts rs Hts Hrs Ec En.
  remember (idle_weight s) as m eqn:Em. revert s Hrs En Em. induction (lt_wf m) as [m _ IHm]. intros s Hrs En Em.
  split. intros [s' ts'] [Hu (gs & Hstep)]. cbn in Hu.
  destruct (step_typed False s ts gs s' ts' rs) as (rs' & Hts' & Hrs' & _ & Hleft & Hadv); [done..|]. specialize (Hleft Hu).
  assert (Hpos : 0 <= total_left s' rs') by (unfold total_left, redirects_left; lia).
  destruct (decide (Z.to_nat (total_left s' rs') < n)%nat) as [Hlt|Hge]; [by eapply (IHn _ Hlt (s', ts'))|].
  assert (Hgs : resolvers_in gs = 0%nat) by lia. assert (En' : n = Z.to_nat (total_left s' rs')) by lia.
  destruct (Hadv Hgs) as [Hc|(-> & -> & Hm)].
  - subst c. by eapply (IHc _ Hc s' ts' rs').
  - subst m. by eapply (IHm _ Hm s').
Qed.
End pool.
