(* ===== verification/LteTasksFacts.v ===== *)
(** * Web Connectivity LTE: every task behaves

    The weakest preconditions of the programs of [LteTasks.v], and what they keep in the test keys: the
    connects are not to loopback addresses, bodies are snapshots of bounded size, times are
    numbers, and the verdict stays unset. *)
From S2P Require Import Prelude Failures GoString GoNet GoFloat GoURL GoHTTP Archival Bogon.
From S2P Require Import NetErrors NetDNS Tracing TracingFacts.
From S2P Require Import NetPrimitives NetPrimitivesFacts PipeSet PipeSorting Observation.
From S2P Require Import LteTestKeys LtePriority LteFlow LteFlowFacts.
From S2P Require Import Overlapped LteControl LteTasks LteFinalize LteLogic.

(** ** What the tasks keep *)

Definition connect_ok (r : ArchivalTCPConnectResult) : Prop :=
  IsLoopback (tcp_IP r) = false ∧ status_Success (tcp_Status r) = IsNone (status_Failure (tcp_Status r)).

Definition request_ok (r : ArchivalHTTPRequestResult) : Prop :=
  Z.of_nat (String.length (resp_Body (http_Response r))) <= maxbody ∧
  resp_BodyIsTruncated (http_Response r) = (maxbody <=? Z.of_nat (String.length (resp_Body (http_Response r)))).

(** ** Reading a trace *)

Lemma drain_eq {A} (ch : channel A) : drain ch = (chan_buf ch, mkChan (chan_cap ch) []).
Proof.
  unfold drain. f_equal.
  assert (Hd : ∀ buf out : list A, drain_loop buf out = out ++ buf).
  { induction buf as [|x buf IH]; intros out; cbn; [by rewrite app_nil_r|]. by rewrite IH, <-app_assoc. }
  apply Hd.
Qed.

(** Calling the test helpers may always end: every call fails. *)
Lemma map_results_exist epnts : ∃ overlapped_Map : list Endpoint → list (OverlappedErrorOr (option THResponse)),
  map_results overlapped_Map epnts.
Proof.
  set (runs := λ (_ : nat) (res : result error (option THResponse)), res = Err ErrNoResolver).
  assert (Hend : ∀ s, overlapped_reachable (length epnts) runs s → ∃ s', overlapped_reachable (length epnts) runs s' ∧ overlapped_done (length epnts) s').
  { intros s. induction (overlapped_terminates (length epnts) runs s) as [s _ IH]. intros Hs.
    assert (Hd : overlapped_done (length epnts) s ∨ ¬ overlapped_done (length epnts) s).
    { unfold overlapped_done. destruct (ov_at s), (decide (length epnts ≤ length (ov_results s))%nat); naive_solver. }
    destruct Hd as [Hd|Hd]; [by exists s|].
    destruct (overlapped_progress (length epnts) runs s) as [s' Hs']; [done|intros; by eexists|done|].
    apply (IH s' Hs'). by eapply overlapped_next. }
  destruct (Hend overlapped_start) as (s & Hs & Hd); [apply overlapped_init|].
  exists (λ _, ov_results s), runs, s. split_and!; [done..| |]; [by intros i v [=]|].
  intros i err [= ->] f op e Hin. cbn in Hin. by apply list_elem_of_singleton in Hin.
Qed.

(** The types of the answers of the actions are smaller than those of the traced programs. *)
Constraint LteLogic.wp_act.u0 < NetPrimitives.traced.u1.

Section traces.
Context (i : Z) (C : ArchivalTCPConnectResult → Prop) (H : ArchivalTLSOrQUICHandshakeResult → Prop).
Implicit Types (tx : Trace).

Lemma NetworkEvents_ok tx : flow_trace i C H tx →
  numbers net_T (NetworkEvents tx).1 ∧ flow_trace i C H (NetworkEvents tx).2.
Proof.
  intros []. unfold NetworkEvents. rewrite drain_eq. cbn. split; [exact ft_net|]. split; try done.
  intros ev Hev. by apply elem_of_nil in Hev.
Qed.

Lemma TCPConnects_ok tx : flow_trace i C H tx →
  (∀ ev, ev ∈ (TCPConnects tx).1 → C ev) ∧ flow_trace i (λ _, False) H (TCPConnects tx).2.
Proof.
  intros []. unfold TCPConnects. rewrite drain_eq. cbn. split; [exact ft_tcp|]. split; try done.
  intros ev Hev. by apply elem_of_nil in Hev.
Qed.

Lemma TLSHandshakes_ok tx : flow_trace i C H tx →
  (∀ ev, ev ∈ (TLSHandshakes tx).1 → H ev) ∧ flow_trace i C (λ _, False) (TLSHandshakes tx).2.
Proof.
  intros []. unfold TLSHandshakes. rewrite drain_eq. cbn. split; [exact ft_tls|]. split; try done.
  intros ev Hev. by apply elem_of_nil in Hev.
Qed.

Lemma flow_trace_readings tx : flow_trace i C H tx → flow_trace i C H (tx <| tx_readings ::= S |>).
Proof. by apply flow_trace_invariant. Qed.

Lemma collectSnapshot_ok `{RangeOrder} smpl tx stats : flow_trace i C H tx → numbers net_T smpl →
  numbers net_T (collectSnapshot smpl tx stats).1 ∧ flow_trace i C H (collectSnapshot smpl tx stats).2.
Proof.
  intros Htx Hs. unfold collectSnapshot, TimeSince, TimeNow. cbn [fst snd]. split; [|by apply flow_trace_readings].
  apply (foldl_inv _ (numbers net_T)); [done|]. intros q [key count] _ Hq. unfold sample_entry.
  destruct (Split key _) as [|address [|network [|]]]; try done.
  intros ev [Hev| ->%list_elem_of_singleton]%elem_of_app; [auto|]. apply Seconds_number.
Qed.

(** A sampler and its trace. *)
Definition sampled (st : Sampler * Trace) : Prop := numbers net_T st.1 ∧ flow_trace i C H st.2.

Lemma run_io_ok `{RangeOrder} conn st step : sampled st → ∃ st', run_io conn st step = Ok st' ∧ sampled st'.
Proof.
  destruct st as [smpl tx]. intros [Hs Htx]. destruct step as [raw|raw|]; cbn [run_io].
  - destruct (conn_Read_ok _ conn raw (flow_trace_invariant i C H) tx Htx) as (a & tx' & -> & Htx').
    destruct a. by eexists.
  - destruct (conn_Write_ok _ conn raw (flow_trace_invariant i C H) tx Htx) as (a & tx' & -> & Htx').
    destruct a. by eexists.
  - eexists. split; [done|]. by apply collectSnapshot_ok.
Qed.

Lemma run_ios_ok `{RangeOrder} conn steps st : sampled st → ∃ st', foldM (run_io conn) st steps = Ok st' ∧ sampled st'.
Proof.
  revert st. induction steps as [|step steps IH]; intros st Hst; [by exists st|]. cbn [foldM].
  destruct (run_io_ok conn st step Hst) as (st1 & -> & H1). by apply IH.
Qed.
End traces.

Section facts.
(** The URLs that a control request may have. *)
Context (url_ok : string → Prop).

Record measurement_ok (tk : TestKeys) : Prop := {
  mo_connects r : r ∈ lte_TCPConnect tk → connect_ok r;
  mo_requests r : r ∈ lte_Requests tk → request_ok r;
  mo_times : numbers net_T (lte_NetworkEvents tk);
  mo_fresh : lte_Blocking tk = BlockingNil ∧ lte_Accessible tk = None;
  mo_control req : lte_ControlRequest tk = Some req → url_ok (thr_HTTPRequest req);
}.

Abbreviation wp := (LteLogic.wp measurement_ok).
Implicit Types (r : resources).

(** ** Updates *)

(** The update does not change what [measurement_ok] and the transactions depend on. *)
Definition quiet (f : TestKeys → TestKeys) : Prop := ∀ tk,
  lte_TCPConnect (f tk) = lte_TCPConnect tk ∧ lte_Requests (f tk) = lte_Requests tk ∧
  lte_TLSHandshakes (f tk) = lte_TLSHandshakes tk ∧ lte_NetworkEvents (f tk) = lte_NetworkEvents tk ∧
  lte_Blocking (f tk) = lte_Blocking tk ∧ lte_Accessible (f tk) = lte_Accessible tk ∧
  lte_ControlRequest (f tk) = lte_ControlRequest tk.

Lemma tracked_same mine f :
  (∀ tk, lte_Requests (f tk) = lte_Requests tk ∧ lte_TLSHandshakes (f tk) = lte_TLSHandshakes tk) → tracked mine mine f.
Proof.
  intros Hf tk Ho [Hp Hn]. unfold owns, pages_ok, pages_after_handshakes, adds_only in *. destruct (Hf tk) as [-> ->].
  split_and!; try done; [apply Ho..|intros; by left|intros; by left].
Qed.

Lemma ids_id r : r <| ids := ids r |> = r.
Proof. by destruct r. Qed.

Lemma pass_id r own : r <| ids := own |> <| pass := pass r |> = r <| ids := own |>.
Proof. by destruct r. Qed.

(** An update that neither adds a request nor a handshake. *)
Lemma wp_update f r (Q : unit → resources → Prop) :
  busy r → (∀ tk, measurement_ok tk → measurement_ok (f tk)) →
  (∀ tk, lte_Requests (f tk) = lte_Requests tk ∧ lte_TLSHandshakes (f tk) = lte_TLSHandshakes tk) →
  Q tt r → wp (act (Update f)) r Q.
Proof.
  intros Hb Hf Hs HQ. apply wp_act. split; [done|]. split; [done|]. exists (ids r), (pass r). split; [done|].
  split; [by apply tracked_same|]. split; [left; split; [done|apply Hs]|]. by rewrite pass_id, ids_id.
Qed.

Lemma wp_quiet f r (Q : unit → resources → Prop) : busy r → quiet f → Q tt r → wp (act (Update f)) r Q.
Proof.
  intros Hb Hf HQ. apply wp_update; [done| |intros tk; by destruct (Hf tk) as (_ & ? & ? & _)|done].
  intros tk []. destruct (Hf tk) as (E1 & E2 & _ & E4 & E5 & E6 & E7).
  split; rewrite ?E1, ?E2, ?E4, ?E5, ?E6, ?E7; done.
Qed.

Lemma wp_network_events evs r (Q : unit → resources → Prop) :
  busy r → numbers net_T evs → Q tt r → wp (act (Update (AppendNetworkEvents evs))) r Q.
Proof.
  intros Hb Hn HQ. apply wp_update; [done| |done|done]. intros tk []. split; try done. cbn.
  intros ev [Hev|Hev]%elem_of_app; auto.
Qed.

Lemma wp_connects evs r (Q : unit → resources → Prop) :
  busy r → (∀ ev, ev ∈ evs → connect_ok ev) → Q tt r → wp (act (Update (AppendTCPConnectResults evs))) r Q.
Proof.
  intros Hb Hn HQ. apply wp_update; [done| |done|done]. intros tk []. split; try done. cbn.
  intros ev [Hev|Hev]%elem_of_app; auto.
Qed.

(** Handshakes of a transaction of the task, which it keeps if they succeeded. *)
Lemma wp_handshakes evs i keep r (Q : unit → resources → Prop) :
  busy r → i ∈ ids r → (∀ ev, ev ∈ evs → tls_TransactionID ev = i ∧ (keep = true → tls_Failure ev = None)) →
  Q tt (r <| ids := if keep then ids r else [] |>) → wp (act (Update (AppendTLSHandshakes evs))) r Q.
Proof.
  intros Hb Hi Hevs HQ. apply wp_act. split; [done|]. split; [intros tk []; by split|].
  exists (if keep : bool then ids r else []), (pass r). split; [destruct keep; [done|apply submseteq_nil_l]|].
  split; [|by split; [by left|rewrite pass_id]]. intros tk [Ho1 Ho2] [Hp Hnd]. split_and!.
  - split; cbn.
    + intros req Hreq. destruct keep; [by apply Ho1|set_solver].
    + intros hs [Hhs|Hhs]%elem_of_app Hin; destruct keep; try by apply not_elem_of_nil in Hin.
      * by apply Ho2.
      * by apply (Hevs hs).
  - split; [|exact Hnd]. intros hs req [Hhs|Hhs]%elem_of_app Hreq Heq Hf; [by apply (Hp hs req)|].
    exfalso. apply (Ho1 req Hreq). rewrite <-Heq. by rewrite (proj1 (Hevs hs Hhs)).
  - split; cbn; [intros; by left|]. intros hs [Hhs|Hhs]%elem_of_app; [by left|right].
    by rewrite (proj1 (Hevs hs Hhs)).
Qed.

(** The task holds a permission for the address. *)
Definition permitted_to (address : string) r : Prop :=
  ∃ ps conn addr port, pass r = Some (ps, conn, addr) ∧ SplitHostPort address = Val (addr, port).

(** The request of a transaction, which ends it and the permission. *)
Lemma wp_request ev r (Q : unit → resources → Prop) :
  busy r → http_TransactionID ev ∈ ids r → request_ok ev → permitted_to (http_Address ev) r →
  Q tt (r <| ids := [] |> <| pass := None |>) →
  wp (act (Update (PrependRequests [ev]))) r Q.
Proof.
  intros Hb Hi Hok (ps & conn & addr & port & Hpass & Haddr) HQ. apply wp_act. split; [done|]. split.
  { intros tk []. split; try done. cbn. intros req [-> |Hreq]%elem_of_cons; auto. }
  exists [], None. split; [apply submseteq_nil_l|].
  split; [|split; [right; exists ps, conn, addr, ev; split_and!; [done|done|by exists port|done]|done]].
  intros tk [Ho1 Ho2] [Hp Hnd]. split_and!.
  - split; cbn; intros; set_solver.
  - split.
    2: { cbn. apply NoDup_cons. split; [|done]. intros (req & E & Hreq)%list_elem_of_fmap. apply (Ho1 req Hreq). by rewrite <-E. }
    intros hs req Hhs [-> |Hreq]%elem_of_cons Heq Hf; [|by apply (Hp hs req)]. cbn in Hhs.
    by rewrite (Ho2 hs Hhs) by by rewrite Heq.
  - split; cbn; [|intros; by left]. intros req [-> |Hreq]%elem_of_cons; [by right|by left].
Qed.

(** ** The endpoint flows *)

Section tasks.
Context `{RangeOrder} `{Miekg}.
Context (LookupASN : string → Z * string) (ToASCII : string → result error string) (parse_error : string → error).
Context (HTTPHeaderAccept HTTPHeaderAcceptLanguage HTTPHeaderUserAgent : string) (resp_Cookies : Response → list string).

(** A flow holds a unit of the wait group and its transactions. *)
Record in_flow (n c : nat) (own : list Z) (r : resources) : Prop := {
  fl_level : level r = 0%nat;
  fl_credits : credits r = c;
  fl_wgs : wgs r = 1%nat;
  fl_owed : owed r = [];
  fl_inbox : inbox r = [];
  fl_sels : sels r = n;
  fl_ids : ids r = own;
}.

Lemma in_flow_busy n c own r : in_flow n c own r → busy r.
Proof. intros []. left. lia. Qed.

#[local] Hint Resolve in_flow_busy : core.

Lemma ps_log_wp r (Q : unit → resources → Prop) : busy r → Q tt r → wp ps_log r Q.
Proof. intros Hb HQ. apply wp_bind, wp_env; [exact (populate {| cpl_Msg := ""; cpl_T := float64_zero |})|]. intros entry. by apply wp_quiet. Qed.

Lemma ticks_wp i C HS st r (Q : Sampler * Trace → resources → Prop) :
  sampled i C HS st → (∀ st', sampled i C HS st' → Q st' r) → wp (ticks st) r Q.
Proof.
  intros Hst HQ. apply wp_bind, wp_env; [apply _|]. intros k. apply wp_ret, HQ.
  induction k as [|k IH]; [done|]. cbn. destruct IH. by apply collectSnapshot_ok.
Qed.

Lemma flow_deferred_wp i C HS st r (Q : unit → resources → Prop) :
  sampled i C HS st → busy r → Q tt r → wp (flow_deferred st) r Q.
Proof.
  destruct st as [smpl tx]. intros [Hs Htx] Hb HQ. unfold flow_deferred.
  destruct (NetworkEvents_ok i C HS tx Htx) as [He Htx1]. destruct (NetworkEvents tx) as [events tx1]. cbn in He, Htx1.
  apply wp_bind, wp_network_events; [done..|]. unfold ExtractSamples.
  destruct (collectSnapshot_ok i C HS smpl tx1 (CloneBytesReceivedMap tx1) Htx1 Hs) as [Hq _].
  destruct (collectSnapshot smpl tx1 _) as [q tx2]. cbn in Hq. by apply wp_network_events.
Qed.

(** The connect that starts a flow. *)
Lemma flow_connect_wp t index r (Q : result error Conn * (Sampler * Trace) → resources → Prop) :
  allowedToConnect (fl_Address t) = None → busy r →
  (∀ res st, connected res → sampled index (λ _, False) (λ _, False) st → Q (res, st) r) →
  wp (flow_connect t index) r Q.
Proof.
  intros Hallow Hb HQ. unfold flow_connect. apply wp_bind, wp_env; [apply _|]. intros timeNow.
  apply wp_bind, wp_act. split; [by exists (λ _ _ _, Err ErrNoResolver); intros ? ? ? ? ? [=]|].
  intros connect Hc.
  set (tags := generateTagsForEndpoints _ _ _).
  destruct (dial_ok connect index connect_ok (λ _, False) "tcp" (fl_Address t) Hc) with
    (tx := NewTrace timeNow index (fl_ZeroTime t) tags) as (res & tx & E & Htx & Hres).
  { intros host port started err finished tags' Esplit. split; cbn.
    - unfold archivalSplitHostPort. rewrite (SplitHostPort_rejoin _ _ _ Esplit). by eapply allowedToConnect_host.
    - destruct err as [err|]; [|done]. cbn. by destruct (failure_of_Some err) as [f ->]. }
  { apply flow_trace_new. }
  apply wp_bind. eapply wp_local; [exact E|]. apply wp_bind. apply (ticks_wp index connect_ok (λ _, False)).
  { split; [|done]. intros ev Hev. by apply elem_of_nil in Hev. }
  intros [smpl tx'] [Hs Htx']. cbn [fst snd].
  destruct (TCPConnects_ok _ _ _ tx' Htx') as [Hev Htx1]. destruct (TCPConnects tx') as [results tx1]. cbn in Hev, Htx1.
  apply wp_bind, wp_connects; [done..|]. apply wp_ret, HQ; [done|by split].
Qed.

Lemma permission_wp t n c own r (Q : bool → resources → Prop) :
  allowedToConnect (fl_Address t) = None → flow_ok n t → in_flow n c own r →
  (∀ (b : bool) r', in_flow n c own r' → (b = true → permitted_to (fl_Address t) r') → Q b r') → wp (allowed_to_fetch t) r Q.
Proof.
  intros Hallow Hok Hr HQ. unfold allowed_to_fetch. destruct (fl_PrioSelector t) as [ps|] eqn:Eps; [|by apply wp_ret, HQ].
  unfold permitted_to in HQ.
  unfold permissionToFetch. unfold allowedToConnect in Hallow.
  destruct (SplitHostPort (fl_Address t)) as [[ipAddr port]|err]; [|done].
  apply wp_bind, wp_act. split; [rewrite (fl_sels _ _ _ _ Hr); by apply Hok|]. intros conn.
  apply wp_bind, wp_act. exists ipAddr. split; [done|]. intros b.
  assert (Hr' : in_flow n c own ((r <| asked := Some (ps, conn, ipAddr) |>) <| asked := None |>
    <| pass := if b then Some (ps, conn, ipAddr) else pass r |>)) by by destruct Hr; split.
  apply wp_bind, ps_log_wp; [by eapply in_flow_busy|]. apply wp_ret, HQ; [done|]. intros ->. by exists ps, conn, ipAddr, port.
Qed.

Lemma newHTTPRequest_wp t scheme port r (Q : result error Request → resources → Prop) :
  (∀ res, Q res r) → wp (newHTTPRequest parse_error HTTPHeaderAccept HTTPHeaderAcceptLanguage HTTPHeaderUserAgent t scheme port) r Q.
Proof.
  intros HQ. unfold newHTTPRequest. destruct (urlHost t scheme port scheme) as [host|err]; [|by apply wp_ret].
  destruct (NewRequest _ _) as [req|err]; [|by apply wp_ret]. cbn zeta. destruct (fl_CookieJar t); [|by apply wp_ret].
  apply wp_bind, wp_act. intros cookies. by apply wp_ret.
Qed.

Lemma http_mark_wp i C HS smpl tx op network address r (Q : Duration * Trace → resources → Prop) :
  sampled i C HS (smpl, tx) → busy r → (∀ now tx', sampled i C HS (smpl, tx') → Q (now, tx') r) →
  wp (http_mark tx op network address) r Q.
Proof.
  intros [Hs Htx] Hb HQ. unfold http_mark, TimeSince, TimeNow. cbn beta iota.
  apply wp_bind. eapply wp_local; [apply network_event_eq|]. apply wp_bind, wp_network_events; [done| |].
  - intros ev ->%list_elem_of_singleton. apply Seconds_number.
  - apply wp_ret, HQ. split; [done|]. by apply flow_trace_readings.
Qed.

Lemma TopLevel_Ok err : ∃ f o, NewTopLevelGenericErrWrapper (Some err) = Ok (ErrWrapper f o err).
Proof. destruct (NewErrWrapper_Ok ClassifyGenericError TopLevelOperation err) as (f & o & E); [done|]. by exists f, o. Qed.

Lemma string_take_length k data : (String.length (string_take k data) ≤ k)%nat.
Proof. revert data. induction k as [|k IH]; intros [|x data]; cbn; try lia. specialize (IH data). lia. Qed.

Lemma StreamAllContext_Ok data err : ∃ body err', StreamAllContext maxbody data err = Ok (body, err') ∧
  Z.of_nat (String.length body) <= maxbody.
Proof.
  unfold StreamAllContext. pose proof (string_take_length (Z.to_nat maxbody) data) as Hl.
  assert (Hl' : Z.of_nat (String.length (string_take (Z.to_nat maxbody) data)) <= maxbody).
  { assert (Hm : 0 <= maxbody) by (vm_compute; done). lia. }
  destruct (maxbody <=? _); [by eexists _, _|]. destruct err as [err|]; [|by eexists _, _].
  destruct (errors_Is err _); [by eexists _, _|]. destruct (TopLevel_Ok err) as (f & o & ->). by eexists _, _.
Qed.

(** What a transaction of the flow gives back. *)
Record transaction_done (t : CleartextFlow) (i : Z) (n c : nat) (resp : option Response) (err : option error)
    (st : Sampler * Trace) (r : resources) : Prop := {
  td_flow : ∃ c', in_flow n c' [] r ∧
    (∀ rsp, resp = Some rsp → err = None → is_Some (r_Request rsp) ∧
       (fl_FollowRedirects t = true → httpRedirectIsRedirect (StatusCode rsp) = true → c' = S c));
  td_trace : sampled i (λ _, False) (λ _, False) st;
}.

Abbreviation flow_transaction := (httpTransaction parse_error resp_Cookies).

Lemma httpTransaction_wp t address alpn conn req i n c own st r
    (Q : option Response * option error * (Sampler * Trace) → resources → Prop) :
  in_flow n c own r → permitted_to address r → i ∈ own → sampled i (λ _, False) (λ _, False) st →
  (∀ resp err st' r', transaction_done t i n c resp err st' r' → Q (resp, err, st') r') →
  wp (flow_transaction t "tcp" address alpn conn req st) r Q.
Proof.
  destruct st as [smpl tx]. intros Hr Hpass Hi Hst HQ. pose proof (in_flow_busy _ _ _ _ Hr) as Hb. unfold httpTransaction.
  apply wp_bind. eapply http_mark_wp; [done..|]. clear tx Hst. intros started tx Hst.
  apply wp_bind, wp_act. split; [by exists ([], Err ErrNoResolver)|]. intros [steps answer] Hans. cbn in Hans.
  apply wp_bind. destruct (run_ios_ok i (λ _, False) (λ _, False) conn steps (smpl, tx) Hst) as ([smpl1 tx1] & E & Hst1).
  eapply wp_local; [exact E|]. clear E Hst. apply wp_bind.
  (* the response and its body *)
  apply (wp_mono _ _ _ (λ '(resp, body, err, st'), λ r', r' = r ∧ sampled i (λ _, False) (λ _, False) st' ∧
    Z.of_nat (String.length body) <= maxbody ∧ ∀ rsp, resp = Some rsp → is_Some (r_Request rsp))).
  { destruct answer as [resp|err].
    - apply wp_bind. apply (wp_mono _ _ _ (λ _ r', r' = r)).
      { destruct (fl_CookieJar t && _); [by apply wp_act|by apply wp_ret]. }
      intros _ r' ->. apply wp_bind, wp_env; [apply _|]. intros [[steps2 data] err].
      apply wp_bind. destruct (run_ios_ok i (λ _, False) (λ _, False) conn steps2 (smpl1, tx1) Hst1) as (st2 & E & Hst2).
      eapply wp_local; [exact E|]. apply wp_bind. destruct (StreamAllContext_Ok data err) as (body & err' & E2 & Hlen).
      eapply wp_local; [exact E2|]. apply wp_ret. split_and!; try done. intros rsp [= <-]. by rewrite Hans.
    - apply wp_bind. destruct (TopLevel_Ok err) as (f & o & E). eapply wp_local; [exact E|]. apply wp_ret. by split_and!. }
  intros [[[resp body] err] [smpl2 tx2]] r' (-> & Hst2 & Hlen & Hreq). apply wp_bind.
  (* the redirect *)
  apply (wp_mono _ _ _ (λ err' r', ∃ c', in_flow n c' own r' ∧ permitted_to address r' ∧ (∀ rsp, resp = Some rsp → err' = None →
    fl_FollowRedirects t = true → httpRedirectIsRedirect (StatusCode rsp) = true → c' = S c))).
  { destruct err as [err|]; [by apply wp_ret; exists c|]. destruct resp as [rsp|]; [|by apply wp_ret; exists c].
    destruct (httpRedirectIsRedirect (StatusCode rsp)) eqn:Ered;
      [|apply wp_ret; exists c; split_and!; [done..|]; intros ? [= <-]; congruence].
    destruct (httpValidateRedirect parse_error rsp); [by apply wp_ret; exists c|].
    destruct (fl_FollowRedirects t) eqn:Ef; [|by apply wp_ret; exists c].
    apply wp_bind, wp_act. split; apply wp_ret; [exists (S c)|by exists c]. split_and!; [|by destruct r|done].
    destruct r, Hr. cbn in *. subst. by split. }
  intros err' r1 (c' & Hr1 & Hpass1 & Hc'). pose proof (in_flow_busy _ _ _ _ Hr1) as Hb1. apply wp_bind.
  eapply http_mark_wp; [done..|]. clear tx2 Hst2. intros finished tx2 Hst2. apply wp_bind.
  eapply wp_local.
  { unfold NewArchivalHTTPRequestResult. rewrite NewFailure_Ok. done. }
  apply wp_bind, wp_request; [done| | |done|].
  - cbn. destruct Hst2 as [_ [Hidx _ _ _]]. cbn in Hidx. by rewrite Hidx, (fl_ids _ _ _ _ Hr1).
  - split; [done|]. cbn. unfold httpResponseBodyIsTruncated.
    change (0 <? maxbody) with true. rewrite andb_true_r. destruct (Z.ltb_spec 0 (Z.of_nat (String.length body))); [done|].
    symmetry. apply Z.leb_gt. assert (Hm : 0 < maxbody) by (vm_compute; done). lia.
  - apply wp_ret, HQ. split; [|done]. exists c'. split; [by destruct Hr1; split|].
    intros rsp Hrsp Herr. split; [by apply Hreq|]. by apply Hc'.
Qed.

Lemma maybeFollowRedirects_wp t resp n c r (Q : unit → resources → Prop) :
  in_flow n c [] r → is_Some (r_Request resp) →
  (fl_FollowRedirects t = true → httpRedirectIsRedirect (StatusCode resp) = true → (0 < c)%nat) →
  (∀ c' r', in_flow n c' [] r' → Q tt r') → wp (maybeFollowRedirects parse_error t resp) r Q.
Proof.
  intros Hr [req Hreq] Hc HQ. unfold maybeFollowRedirects.
  destruct (fl_FollowRedirects t), (httpRedirectIsRedirect (StatusCode resp)); cbn [andb]; try by eapply wp_ret, HQ.
  destruct (Location parse_error resp) as [location|err]; [|by eapply wp_ret, HQ].
  rewrite Hreq. apply wp_bind. eapply wp_local; [done|]. apply wp_bind, wp_act.
  split; [left; by eapply in_flow_busy|]. specialize (Hc eq_refl eq_refl). destruct c as [|c]; [lia|].
  apply wp_act. split; [done|]. split; [by left|]. exists (r <| credits := c |>). destruct r, Hr. cbn in *. subst. split_and!.
  - by exists c, 1%nat.
  - by left.
  - eapply HQ. by split.
Qed.

Abbreviation fetch_page := (fetch parse_error HTTPHeaderAccept HTTPHeaderAcceptLanguage HTTPHeaderUserAgent resp_Cookies).

Lemma fetch_wp t scheme port alpn conn st i n c own r (Q : unit → resources → Prop) :
  in_flow n c own r → permitted_to (fl_Address t) r → i ∈ own → sampled i (λ _, False) (λ _, False) st →
  (∀ c' own' r', in_flow n c' own' r' → Q tt r') → wp (fetch_page t scheme port alpn conn st) r Q.
Proof.
  intros Hr Hpass Hi Hst HQ. unfold fetch. apply wp_bind, newHTTPRequest_wp. intros [req|err].
  - apply wp_bind. eapply httpTransaction_wp; [done..|]. intros resp err st' r' [(c' & Hr' & Hresp) Hst'].
    assert (Hend : ∀ c'' r'', in_flow n c'' [] r'' → wp (flow_deferred st') r'' Q).
    { intros c'' r'' Hr''. eapply flow_deferred_wp; [exact Hst'|by eapply in_flow_busy|by eapply HQ]. }
    destruct err as [err|]; [by eapply Hend|]. destruct resp as [rsp|]; [|by eapply Hend].
    destruct (Hresp rsp eq_refl eq_refl) as [Hreq Hc']. apply wp_bind.
    eapply maybeFollowRedirects_wp; [exact Hr'|done| |exact Hend]. intros Hf Hred. rewrite (Hc' Hf Hred). lia.
  - pose proof (in_flow_busy _ _ _ _ Hr) as Hb. apply wp_bind. apply (wp_mono _ _ _ (λ _ r', r' = r)).
    { destruct (String.eqb _ _); [by apply wp_quiet|by apply wp_ret]. }
    intros _ r' ->. eapply flow_deferred_wp; [done..|by eapply HQ].
Qed.

(** A flow ends with its unit of the wait group. *)
Definition flow_end (n : nat) (_ : unit) (r : resources) : Prop := ∃ c own, in_flow n c own r.

Lemma CleartextFlow_wp t index n c r :
  flow_ok n t → in_flow n c [index] r →
  wp (CleartextFlow_Run parse_error HTTPHeaderAccept HTTPHeaderAcceptLanguage HTTPHeaderUserAgent resp_Cookies t index) r (flow_end n).
Proof.
  intros Hok Hr. unfold CleartextFlow_Run. destruct (allowedToConnect (fl_Address t)) eqn:Hallow; [by eexists _, _|].
  pose proof (in_flow_busy _ _ _ _ Hr) as Hb. apply wp_bind, flow_connect_wp; [done..|]. intros [conn|err] st Hconn Hst.
  - apply wp_bind. eapply permission_wp; [done..|]. intros [] r' Hr' Hpass.
    + eapply fetch_wp; [exact Hr'|by apply Hpass|by left|exact Hst|]. intros. by eexists _, _.
    + eapply flow_deferred_wp; [exact Hst|by eapply in_flow_busy|by eexists _, _].
  - eapply flow_deferred_wp; [exact Hst|done|by eexists _, _].
Qed.

Lemma SecureFlow_wp sf index n c r :
  flow_ok n (sf_flow sf) → in_flow n c [index] r →
  wp (SecureFlow_Run parse_error HTTPHeaderAccept HTTPHeaderAcceptLanguage HTTPHeaderUserAgent resp_Cookies sf index) r (flow_end n).
Proof.
  intros Hok Hr. unfold SecureFlow_Run. destruct (allowedToConnect (fl_Address (sf_flow sf))) eqn:Hallow; [by eexists _, _|].
  pose proof (in_flow_busy _ _ _ _ Hr) as Hb. apply wp_bind, flow_connect_wp; [done..|]. intros [conn|err] [smpl tx] Hconn Hst.
  2: { eapply flow_deferred_wp; [exact Hst|done|by eexists _, _]. }
  destruct (sni sf) as [tlsSNI|err].
  2: { apply wp_bind, wp_quiet; [done..|]. eapply flow_deferred_wp; [exact Hst|done|by eexists _, _]. }
  apply wp_bind, wp_env; [exact (populate (λ _ _, Val tt))|]. intros newConn.
  apply wp_bind, wp_env; [exact (populate (λ _ _ _, Err ErrNoResolver))|]. intros handshake.
  destruct Hst as [Hs Htx]. cbn [fst snd] in *.
  destruct (handshake_ok newConn handshake conn (mkTLSConfig (alpn sf) tlsSNI false false) index (λ _, False) Hconn tx Htx)
    as (res & tx1 & E & Htx1).
  apply wp_bind. eapply wp_local; [exact E|]. apply wp_bind. eapply ticks_wp; [split; [exact Hs|exact Htx1]|].
  intros [smpl2 tx2] [Hs2 Htx2]. cbn [fst snd] in *.
  destruct (TLSHandshakes_ok _ _ _ tx2 Htx2) as [Hev Htx3]. destruct (TLSHandshakes tx2) as [results tx3]. cbn [fst snd] in Hev, Htx3.
  apply wp_bind. apply (wp_handshakes results index (match res with Val _ => true | Err _ => false end)); [done| | |].
  { rewrite (fl_ids _ _ _ _ Hr). by left. }
  { intros ev Hin. destruct (Hev ev Hin) as [Hi Hf]. split; [done|]. destruct res as [v|err]; [|done]. intros _. by apply (Hf v). }
  destruct res as [tlsConn|err].
  - rewrite ids_id. apply wp_bind. eapply permission_wp; [done..|]. intros [] r' Hr' Hpass.
    + eapply fetch_wp; [exact Hr'|by apply Hpass|by left|by split|]. intros. by eexists _, _.
    + eapply flow_deferred_wp; [by split|by eapply in_flow_busy|by eexists _, _].
  - assert (Hr' : in_flow n c [] (r <| ids := [] |>)) by by destruct Hr; split.
    eapply flow_deferred_wp; [by split|by eapply in_flow_busy|by eexists _, _].
Qed.

(** ** The lookups *)

(** A lookup has to send on its channel, and its parent waits for it. *)
Lemma split_wp r (Q : unit → resources → Prop) queries :
  busy r → Q tt r → wp (act (Update (AppendQueries queries))) r Q.
Proof. intros Hb. by apply wp_quiet. Qed.

Lemma new_trace_wp t index tags r (Q : Trace → resources → Prop) : (∀ tx, Q tx r) → wp (new_trace t index tags) r Q.
Proof. intros HQ. apply wp_bind, wp_env; [apply _|]. intros timeNow. by apply wp_ret. Qed.

Definition lookup_end (n : nat) (_ : unit) (r : resources) : Prop :=
  owed r = [] ∧ inbox r = [] ∧ wgs r = 0%nat.

Lemma lookupHostSystem_wp t out n :
  wp (lookupHostSystem LookupASN ToASCII t out) (seed n (GoLookup t LookupSystem out)) (lookup_end n).
Proof.
  unfold lookupHostSystem. apply wp_bind, wp_act. intros index. apply wp_bind, new_trace_wp. intros tx.
  apply wp_bind, wp_env; [apply _|]. intros network. apply wp_bind, wp_env; [exact (populate (λ _ _, GetaddrinfoErr ErrNoResolver))|]. intros lookupfn.
  apply wp_bind, wp_env; [apply _|]. intros newId.
  destruct (total_Ok _ tx (NewStdlibResolver_good LookupASN newId ToASCII _ (GetaddrinfoTransport_good network lookupfn) (res_Domain t)))
    as (addrs & tx' & E).
  apply wp_bind. eapply wp_local; [exact E|]. cbn beta iota.
  destruct (DNSLookupsFromRoundTrip tx') as [queries tx2].
  apply wp_bind, wp_quiet; [by right|done|]. by split_and!.
Qed.

Lemma lookupHostUDP_wp t udpAddress out n :
  wp (lookupHostUDP LookupASN ToASCII t udpAddress out) (seed n (GoLookup t (LookupUDP udpAddress) out)) (lookup_end n).
Proof.
  unfold lookupHostUDP. apply wp_bind, wp_act. intros index. apply wp_bind, new_trace_wp. intros tx.
  apply wp_bind, wp_env.
  { exact (populate (mkUDPEnv (λ _, 0) (λ _ _ _, Err ErrNoResolver) (λ _ _, (0, None)) (λ _, ("", None)) (λ _, false))). }
  intros net.
  destruct (total_Ok _ tx (NewParallelResolver_good LookupASN (ue_newId net) ToASCII (ue_aaaa_first net) _
    (UDPTransport_good (ue_write net) (ue_read net) (ue_connect net) udpAddress) (res_Domain t))) as (addrs & tx' & E).
  apply wp_bind. eapply wp_local; [exact E|]. cbn beta iota.
  destruct (DNSLookupsFromRoundTrip tx') as [queries tx2].
  destruct (do53SplitQueries queries) as [do53 other].
  apply wp_bind, wp_quiet; [by right|done|]. destruct (NetworkEvents tx2) as [events tx3].
  apply wp_bind, wp_quiet; [by right|done|]. apply wp_bind, wp_act. split_and!; [done..|].
  apply wp_bind, wp_act. split; [by right|]. apply wp_act. split; [done|]. split; [right; cbn; lia|].
  eexists. split_and!; [by exists 0%nat|by left|]. by split_and!.
Qed.

Lemma lookupHostDNSOverHTTPS_wp t out n :
  wp (lookupHostDNSOverHTTPS LookupASN ToASCII parse_error t out) (seed n (GoLookup t LookupHTTPS out)) (lookup_end n).
Proof.
  unfold lookupHostDNSOverHTTPS. apply wp_bind, wp_env; [apply _|]. intros now.
  apply wp_bind, wp_act. split; [by exists id|]. intros shuffle _.
  apply wp_bind, wp_act. split; [by exists 0|]. intros random _. apply wp_bind, wp_act. intros [URL|]; [|by split_and!].
  apply wp_bind, wp_act. intros index. apply wp_bind, new_trace_wp. intros tx.
  apply wp_bind, wp_env; [apply _|]. intros newId. apply wp_bind, wp_env; [apply _|]. intros aaaa_first.
  apply wp_bind, wp_act. split; [by exists (λ _ _ tx, Ok (Err ErrNoResolver, tx)); intros ???; eexists|]. intros Do HDo.
  destruct (total_Ok _ tx (NewParallelResolver_good LookupASN newId ToASCII aaaa_first _
    (DoHTransport_good parse_error Do URL HDo) (res_Domain t))) as (addrs & tx' & E).
  apply wp_bind. eapply wp_local; [exact E|]. cbn beta iota.
  destruct (DNSLookupsFromRoundTrip tx') as [queries tx2].
  destruct (dohSplitQueries queries) as [doh other].
  apply wp_bind, wp_quiet; [by right|done|]. destruct (NetworkEvents tx2) as [events tx3].
  destruct (TCPConnects tx3) as [conns tx4], (TLSHandshakes tx4) as [handshakes tx5].
  apply wp_bind, wp_quiet; [by right|done|]. by split_and!.
Qed.

Lemma whoami_wp t kind name out n :
  lookup_chan kind = ChanWhoami → wp (whoami_lookup name out) (seed n (GoLookup t kind out)) (lookup_end n).
Proof.
  intros Hk. unfold whoami_lookup. apply wp_bind, wp_env; [apply _|]. intros now. apply wp_bind, wp_act.
  assert (Hsend : ∀ v, wp (act (ChanSend ChanWhoami out v)) (seed n (GoLookup t kind out)) (lookup_end n))
    by (intros v; cbn; rewrite Hk; by split_and!).
  intros [entry|]; [apply Hsend|]. apply wp_bind, wp_env; [exact (populate (Err ErrNoResolver))|]. intros res.
  destruct (whoami_result res) as [entries [addr|]]; apply wp_bind; [apply wp_act|apply wp_ret]; apply Hsend.
Qed.

(** ** The resolvers and the control *)

(** What may start flows: it has a unit of the wait group and nothing to receive. *)
Record may_start (n : nat) (r : resources) : Prop := {
  ms_level : (0 < level r)%nat;
  ms_wgs : wgs r = 1%nat;
  ms_owed : owed r = [];
  ms_inbox : inbox r = [];
  ms_sels : (n < sels r)%nat;
}.

Lemma may_start_busy n r : may_start n r → busy r.
Proof. intros []. left. lia. Qed.

Lemma start_flow_wp kind t g r (Q : unit → resources → Prop) :
  (kind = IDCleartext ∨ kind = IDSecure) → busy r → inbox r = [] → (0 < level r)%nat →
  (∀ i, rank (g i) = 0%nat ∧ goroutine_ok measurement_ok (sels r) (g i) ∧
    ∀ r1 r2, spend (g i) r1 r2 ↔ ∃ w l, wgs r1 = S w ∧ ids r1 = i :: l ∧ r2 = (r1 <| wgs := w |> <| ids := l |>)) →
  t = (_ ← act WgAdd; index ← act (NewID kind); act (Go (g index))) → Q tt r → wp t r Q.
Proof.
  intros Hkind Hb Hin Hlv Hg -> HQ. apply wp_bind, wp_act. split; [by left|]. apply wp_bind, wp_act.
  assert (Hgo : ∀ i, wp (act (Go (g i))) ((r <| wgs ::= S |>) <| ids ::= cons i |>) Q).
  { intros i. destruct (Hg i) as (Hrank & Hok & Hsp). apply wp_act. split; [done|].
    split; [right; rewrite Hrank; exact Hlv|]. exists r. destruct r. cbn in *. subst. split_and!; [|by left|done].
    apply Hsp. by eexists _, _. }
  destruct Hkind as [-> | ->]; exact Hgo.
Qed.

Lemma startCleartextFlows_wp t n addresses r (Q : unit → resources → Prop) :
  may_start n r → Q tt r → wp (startCleartextFlows t n addresses) r Q.
Proof.
  intros Hms HQ. pose proof (may_start_busy _ _ Hms) as Hb. destruct Hms as [Hlv _ _ Hin Hsel]. apply wp_for_each; [|done]. intros flow Hflow.
  eapply (start_flow_wp IDCleartext _ (GoCleartext flow)); [by left|done..| |done|done].
  intros i. split_and!; [done| |done]. cbn. intros ps Hps. unfold cleartext_flows in Hflow.
  destruct (negb _); [by apply elem_of_nil in Hflow|]. apply list_elem_of_fmap in Hflow as (addr & -> & _).
  cbn in Hps. by injection Hps as <-.
Qed.

Lemma startSecureFlows_wp t n addresses r (Q : unit → resources → Prop) :
  may_start n r → Q tt r → wp (startSecureFlows t n addresses) r Q.
Proof.
  intros Hms HQ. pose proof (may_start_busy _ _ Hms) as Hb. destruct Hms as [Hlv _ _ Hin Hsel]. apply wp_for_each; [|done]. intros flow Hflow.
  eapply (start_flow_wp IDSecure _ (GoSecure flow)); [by right|done..| |done|done].
  intros i. split_and!; [done| |done]. cbn. intros ps Hps. unfold secure_flows in Hflow.
  destruct (negb _ && _); [by apply elem_of_nil in Hflow|]. apply list_elem_of_fmap in Hflow as (addr & -> & _).
  cbn in Hps. destruct (String.eqb _ "https"); [by injection Hps as <-|done].
Qed.

Lemma maybeStartControlFlow_wp t n addresses r (Q : unit → resources → Prop) :
  may_start n r → (2 < level r)%nat → (res_Session t = true → request_allowed measurement_ok (res_URL t)) → Q tt r →
  wp (maybeStartControlFlow t n addresses) r Q.
Proof.
  intros Hms Hlv2 Hurl HQ. pose proof (may_start_busy _ _ Hms) as Hb. destruct Hms as [Hlv _ _ Hin Hsel]. unfold maybeStartControlFlow.
  destruct (res_Session t); [|by apply wp_ret]. destruct (0 <? _)%nat; [|by apply wp_ret]. cbn [andb].
  apply wp_bind, wp_act. split; [by left|]. apply wp_act. split; [split; [exact Hsel|by apply Hurl]|]. split; [by right|].
  exists r. destruct r. cbn in *. subst. split_and!; [by eexists|by left|done].
Qed.

Definition resolving (c n : nat) (inb : list (chan_type * nat)) (a : option ticket) (own : list Z) : resources :=
  mkResources 3 c 1 [] inb n a None own.

Lemma start_lookup_wp t kind c n inb a own (Q : nat → resources → Prop) :
  (∀ out, Q out (resolving c n (inb ++ [(lookup_chan kind, out)]) a own)) →
  wp (start_lookup t kind) (resolving c n inb a own) Q.
Proof.
  intros HQ. apply wp_bind, wp_act. split; [cbn; lia|]. intros out. apply wp_bind, wp_act. split; [done|]. split; [right; cbn; lia|].
  eexists. split_and!; [by exists []|right; cbn; lia|]. apply wp_ret, HQ.
Qed.

Lemma receive_wp ct ch c n inb a own (Q : chan_elem ct → resources → Prop) :
  (∀ v, Q v (resolving c n inb a own)) → wp (act (ChanRecv ct ch)) (resolving c n ((ct, ch) :: inb) a own) Q.
Proof. intros HQ. apply wp_act. split; [done|]. by exists inb. Qed.

Lemma DNSResolvers_run_wp t c n a own (Q : list DNSEntry → resources → Prop) :
  (∀ addrs, Q addrs (resolving c n [] a own)) → wp (DNSResolvers_run t) (resolving c n [] a own) Q.
Proof.
  intros HQ. unfold DNSResolvers_run. apply wp_bind.
  apply (wp_mono _ _ _ (λ _ r', r' = resolving c n [] a own)).
  { unfold udpAddress. destruct (negb _); [by apply wp_ret|]. apply wp_bind, wp_act. split; [by exists (λ _, 0%nat)|].
    intros random Hrandom. unfold RandomDNSOverUDPResolverEndpointIPv4.
    destruct (lookup_lt_is_Some_2 dnsOverUDPResolverAddressIPv4 (random (length dnsOverUDPResolverAddressIPv4))) as [addr ->];
      [apply Hrandom; cbn; lia|]. by eapply wp_local. }
  intros addr r' ->. apply wp_bind, start_lookup_wp. intros o1. apply wp_bind, start_lookup_wp. intros o2.
  apply wp_bind, start_lookup_wp. intros o3. apply wp_bind, start_lookup_wp. intros o4. apply wp_bind, start_lookup_wp. intros o5.
  cbn [app lookup_chan]. apply wp_bind, receive_wp. intros v1. apply wp_bind, receive_wp. intros v2. apply wp_bind, receive_wp. intros v3.
  apply wp_bind, receive_wp. intros v4. apply wp_bind, receive_wp. intros v5.
  apply wp_bind, wp_quiet; [left; cbn; lia|done|]. by apply wp_ret.
Qed.

(** The task may end. *)
Definition done_with (_ : unit) (r : resources) : Prop := owed r = [] ∧ inbox r = [] ∧ wgs r = 1%nat.

Lemma may_start_done n r : may_start n r → done_with tt r.
Proof. by intros []. Qed.

Lemma DNSResolvers_wp t n :
  (res_Session t = true → request_allowed measurement_ok (res_URL t)) → wp (DNSResolvers_Run t) (seed n (GoResolvers t)) done_with.
Proof.
  intros Hurl. unfold DNSResolvers_Run. change (seed n (GoResolvers t)) with (resolving 0 n [] None []).
  apply wp_bind, wp_act. intros [addresses found]. apply wp_bind.
  apply (wp_mono _ _ _ (λ _ r', r' = resolving 0 n [] None [])).
  { destruct found; [by apply wp_ret|]. apply wp_bind, DNSResolvers_run_wp. intros addrs. apply wp_bind, wp_act. by apply wp_ret. }
  intros addrs r' ->. apply wp_bind, ps_log_wp; [left; cbn; lia|]. apply wp_bind, wp_act. intros ps Hps.
  assert (Hms : may_start ps ((resolving 0 n [] None []) <| sels := S ps |>)) by (split; cbn; auto; lia).
  apply wp_bind, startCleartextFlows_wp; [done|]. apply wp_bind, startSecureFlows_wp; [done|].
  apply maybeStartControlFlow_wp; [done|cbn; lia|done|by eapply may_start_done].
Qed.

Lemma waitForLateReplies_wp tx n :
  wp (waitForLateReplies LookupASN tx) (seed n (GoLateReplies tx)) done_with.
Proof.
  unfold waitForLateReplies. apply wp_bind, wp_env; [apply _|]. intros batches.
  assert (Hall : ∀ st, ∃ st', foldM (late_batch LookupASN) st batches = Ok st').
  { induction batches as [|[[[conn endpoint] query] datagrams] batches IH]; intros [events tx']; [by eexists|]. cbn [foldM late_batch].
    destruct (total_Ok _ tx' (ownConnAndSendRecvLoop_total LookupASN endpoint conn query datagrams)) as (u & tx'' & ->).
    cbn [mbind outcome_bind]. rewrite drain_eq. apply IH. }
  destruct (Hall ([], tx)) as [[events tx'] E]. apply wp_bind. eapply wp_local; [exact E|].
  apply wp_quiet; [left; cbn; lia|done|by split_and!].
Qed.

Abbreviation run_control := (Control_Run HTTPHeaderAccept HTTPHeaderAcceptLanguage HTTPHeaderUserAgent).

Lemma Control_wp ctl n :
  (ctl_PrioSelector ctl < n)%nat → request_allowed measurement_ok (ctl_URL ctl) → wp (run_control ctl) (seed n (GoControl ctl)) done_with.
Proof.
  intros Hn Hurl. unfold Control_Run. assert (Hb : busy (seed n (GoControl ctl))) by (left; cbn; lia).
  assert (Hms : may_start (ctl_PrioSelector ctl) (seed n (GoControl ctl))) by (split; cbn; auto; lia).
  apply wp_bind, wp_update; [done| |done|]. { intros tk Htk. by apply Hurl. }
  apply wp_bind, wp_act. split; [apply map_results_exist|].
  intros overlapped_Map Hmap. pose proof (map_results_reduce overlapped_Map _ Hmap) as Hred.
  assert (Hfail : ∀ err, wp (err ← local (NewTopLevelGenericErrWrapper (Some err)); failure ← local (tracex_NewFailure (Some err));
    act (Update (SetControlFailure failure))) (seed n (GoControl ctl)) done_with).
  { intros err. destruct (TopLevel_Ok err) as (f & o & E). apply wp_bind. eapply wp_local; [exact E|]. cbn beta.
    assert (Hf : ∃ failure, tracex_NewFailure (Some (ErrWrapper f o err)) = Ok failure).
    { unfold tracex_NewFailure, NewFailureStr. rewrite as_ErrWrapper_self. by eexists. }
    destruct Hf as [failure Ef]. apply wp_bind. eapply wp_local; [exact Ef|]. apply wp_quiet; [done..|by split_and!]. }
  unfold CallWebConnectivityTestHelper. pose proof (endpoints_length (ctl_TestHelpers ctl)) as Hle.
  destruct (Nat.leb_spec (length (ctl_TestHelpers ctl)) 0) as [Hlen|Hlen].
  { apply wp_bind. eapply wp_local; [done|]. apply Hfail. }
  destruct (OverlappedReduce (overlapped_Map _)) as [[cresp idx]|err].
  2: { apply wp_bind. eapply wp_local; [done|]. apply Hfail. }
  destruct Hred as [[resp ->] Hidx].
  assert (Hlt : (idx <? length (ctl_TestHelpers ctl))%nat = true) by (apply Nat.ltb_lt; lia).
  apply wp_bind. eapply wp_local; [cbn beta iota; rewrite Hlt; done|].
  apply wp_bind. eapply wp_local; [done|]. apply wp_bind, wp_quiet; [done..|].
  apply wp_bind. eapply wp_local; [by rewrite Hlt|]. apply wp_bind, wp_quiet; [done..|].
  apply wp_bind. eapply wp_local; [done|]. cbn zeta.
  apply wp_bind, startCleartextFlows_wp; [done|]. apply startSecureFlows_wp; [done|by eapply may_start_done].
Qed.

Abbreviation run_goroutine := (body LookupASN ToASCII parse_error HTTPHeaderAccept HTTPHeaderAcceptLanguage HTTPHeaderUserAgent resp_Cookies).

Lemma with_done_wp m r : wp m r done_with → wp (with_done m) r final.
Proof.
  intros Hm. apply wp_bind. eapply LteLogic.wp_mono; [exact Hm|]. intros [] r' (Ho & Hi & Hw). apply wp_act. split; [done|].
  exists 0%nat. split; [done|]. by split_and!.
Qed.

(** Every goroutine behaves. *)
Lemma body_wp n g : goroutine_ok measurement_ok n g → wp (run_goroutine g) (seed n g) final.
Proof.
  intros Hg. destruct g as [t|t kind out|tx|t i|sf i|ctl]; cbn [body].
  - apply with_done_wp, DNSResolvers_wp, Hg.
  - destruct kind; cbn [lookup_body].
    + apply lookupHostSystem_wp.
    + apply lookupHostUDP_wp.
    + apply lookupHostDNSOverHTTPS_wp.
    + by apply whoami_wp.
    + by apply whoami_wp.
  - apply with_done_wp, waitForLateReplies_wp.
  - apply with_done_wp. eapply LteLogic.wp_mono; [eapply CleartextFlow_wp; [exact Hg|by split]|]. intros [] r (c & own & []). by split_and!.
  - apply with_done_wp. eapply LteLogic.wp_mono; [eapply SecureFlow_wp; [exact Hg|by split]|]. intros [] r (c & own & []). by split_and!.
  - destruct Hg. by apply with_done_wp, Control_wp.
Qed.
End tasks.
End facts.
