(* ===== verification/LteMeasurement.v ===== *)
(** * Web Connectivity LTE: a measurement

    [Run] of [measurer.go] as a run of the pool, and a run of it that is built step by step: every lookup fails,
    no test helper is known, and [Run] is about to be woken up when the lookup over UDP is about to add the
    goroutine that waits for late replies to the wait group. *)
From S2P Require Import Prelude Failures GoSort GoString GoFloat GoNet GoURL Archival Bogon PipeSet.
From S2P Require Import Observation Samples PipeSorting LteTestKeys LteClassic LteExt LteBlame.
From S2P Require Import LteFinalize LtePriority LteFlow NetErrors NetDNS GoHTTP Tracing.
From S2P Require Import NetPrimitives.
From S2P Require Import InputParser Overlapped LteControl LteTasks LtePool LteLogic.
From S2P Require Import LteAdequacy LtePoolFacts LteTasksFacts.

Section measurement.
Context `{RangeOrder} `{Miekg} `{CookieJar}.
Context (LookupASN : string → Z * string) (toASCII : string → result error string) (parse_error : string → error).
Context (HTTPHeaderAccept HTTPHeaderAcceptLanguage HTTPHeaderUserAgent : string) (resp_Cookies : Response → list string).
Context (ToASCII : string → result string string).
Context (provider : OpportunisticDNSOverHTTPSURLProvider) (whoami : DNSWhoamiService).

Definition run_task : goroutine → task unit :=
  body LookupASN toASCII parse_error HTTPHeaderAccept HTTPHeaderAcceptLanguage HTTPHeaderUserAgent resp_Cookies.

(** The measurement of [args] gets to the pool [p], through pools that satisfy [P], having started [gs]. *)
Definition measurement (args : ExperimentArgs) (P : pool → Prop) (gs : list goroutine) (p : pool) : Prop :=
  ∃ s t, Measurer_Start ToASCII provider whoami args = Ok (Val (s, t)) ∧
    pool_run run_task P (start_pool run_task s t) gs p.
End measurement.

(** ** Following a run *)

Section reaches.
Context `{CookieJar}.
Context (run : goroutine → task unit) (P Q : pool → Prop).

(** A run from [p] stays in [P] and gets to a pool that satisfies [Q]. *)
Definition reaches (p : pool) : Prop := ∃ gs p', pool_run run P p gs p' ∧ Q p'.

Lemma reaches_here p : P p → Q p → reaches p.
Proof. intros HP HQ. exists [], p. split; [by constructor|done]. Qed.

Lemma run_first p gs p' : pool_run run P p gs p' → P p.
Proof. by induction 1. Qed.

Lemma run_weaken (P' : pool → Prop) p gs p' : (∀ q, P q → P' q) → pool_run run P p gs p' → pool_run run P' p gs p'.
Proof.
  intros HP. induction 1 as [|p1 gs1 p2 gs2 p3 _ IH Hs]; [constructor; by apply HP|].
  eapply run_step; [exact IH|exact Hs|by apply HP].
Qed.

Lemma reaches_step p gs p' : P p → pool_step run p gs p' → reaches p' → reaches p.
Proof.
  intros HP Hs (gs' & p'' & Hrun & HQ). exists (([] ++ gs) ++ gs'), p''. split; [|done].
  eapply run_trans; [|exact Hrun]. eapply run_step; [by constructor|exact Hs|by eapply run_first].
Qed.

(** The task number [i] does its next action. *)
Lemma reaches_task s ts i B (e : action B) k b s' gs :
  P (s, ts) → ts !! i = Some (Act e k) → perform e s b s' gs →
  reaches (s', <[i := k b]> ts ++ map run gs) → reaches (s, ts).
Proof.
  intros HP Hi Hp. assert (Hlt : (i < length ts)%nat) by by eapply lookup_lt_Some.
  eapply reaches_step; [done|]. rewrite <-(take_drop_middle ts i _ Hi) at 1.
  rewrite insert_take_drop by done. rewrite <-(assoc_L (++)). apply pool_task. by exists b.
Qed.

(** The wait goes on. *)
Lemma reaches_wait s ts w :
  P (s, ts) → wait_step (sh_wg s) (sh_waiter s) w → reaches (s <| sh_waiter := w |>, ts) → reaches (s, ts).
Proof. intros HP Hw. eapply reaches_step; [done|by apply pool_wait]. Qed.

(** The task number [i] sends to the task number [j]. *)
Lemma reaches_message s ts i j ct ch v k1 k2 :
  P (s, ts) → ts !! i = Some (Act (ChanSend ct ch v) k1) → ts !! j = Some (Act (ChanRecv ct ch) k2) → (j < i)%nat →
  reaches (s, <[i := k1 tt]> (<[j := k2 v]> ts)) → reaches (s, ts).
Proof.
  intros HP Hi Hj Hlt. destruct (two_elements ts j i _ _ Hj Hi Hlt) as (l1 & l2 & l3 & -> & -> & ->).
  rewrite (insert_app_r_alt l1) by lia. rewrite Nat.sub_diag. cbn [insert list_insert].
  rewrite (insert_app_r_alt l1) by lia. replace (_ + _ - _)%nat with (S (length l2)) by lia. cbn [insert list_insert].
  rewrite (insert_app_r_alt l2) by lia. rewrite Nat.sub_diag. cbn [insert list_insert].
  intros Hr. eapply reaches_step; [done| |exact Hr]. apply pool_message. right. by exists eq_refl.
Qed.
End reaches.

(** ** A sample *)

(** A jar that forgets its cookies. *)
Definition sample_jar : CookieJar := {| Jar := unit; NewJar := tt; Cookies := λ _ _, []; SetCookies := λ _ _ j, j |}.

#[local] Existing Instance range_ascending.
#[local] Existing Instance sample_miekg.
#[local] Existing Instance sample_jar.

Definition sample_run : goroutine → task unit :=
  run_task (λ _, (0, "")) Val (λ _, ErrNoResolver) "*/*" "en" "curl" (λ _, []).

(** No test helper, and the DNS-over-HTTPS servers were used a second ago. *)
Definition sample_args : ExperimentArgs := mkExperimentArgs "http://example.org/" 0 "192.0.2.1" [] "".
Definition sample_provider : OpportunisticDNSOverHTTPSURLProvider := mkProvider 20000000000 (Some 0) experiment_urls.

Definition sample_url : URL := simple_URL "http" "example.org" "/" "".
Definition sample_resolvers : DNSResolvers := mkDNSResolvers "example.org" 0 sample_url 0 true "" true [] "".
Definition sample_shared : shared :=
  mkShared _ (SetControlFailure (Some "unknown_failure: no available helpers") (NewTestKeys <| lte_ClientResolver := "192.0.2.1" |>))
    NewIDGenerator NewDNSCache (NewNumRedirects 10) tt sample_provider ∅ 0 NotWaiting 0 [].

Example sample_start : Measurer_Start Val sample_provider ∅ sample_args = Ok (Val (sample_shared, sample_resolvers)).
Proof. vm_compute. reflexivity. Qed.

(** Every lookup fails: the system does not know the domain and the network cannot be reached. *)
Definition sample_error : error := ErrValue "" [] "no such host".
Definition sample_udp : udp_env :=
  mkUDPEnv (λ _, 0) (λ _ _ _, Err sample_error) (λ _ _, (0, None)) (λ _, ("", None)) (λ _, false).

(** The task [i] goes on; the environment answers [x]. *)
Ltac go_on i := eapply (reaches_task _ _ _ _ _ i); [by vm_compute|reflexivity|by repeat split|].
Ltac answered i x := eapply (reaches_task _ _ _ _ _ i _ _ _ x); [by vm_compute|reflexivity|by repeat split|].
Ltac message i ct v := eapply (reaches_message _ _ _ _ _ i 0 ct _ v); [by vm_compute|reflexivity|reflexivity|lia|].

(** The lookup of the task that runs next is evaluated. *)
Ltac evaluate_lookup :=
  cbv beta iota zeta delta [task_bind mbind act env local lookupHostUDP lookupHostSystem lookup_body new_trace mret task_ret];
  match goal with |- context [LookupHost ?r ?d ?tx] =>
    let v := eval vm_compute in (LookupHost r d tx) in
    let E := fresh in
    assert (E : LookupHost r d tx = v) by (vm_compute; reflexivity); rewrite E; clear E
  end.

(** Few flows and redirects. *)
Definition sample_promise (q : pool) : Prop := few_flows q.1 ∧ unwrapped q.1.

(** The wait group counts nobody, and [Run] is about to be woken up; the lookup over UDP is about to start the
    goroutine that waits. *)
Definition about_to_start (p : pool) : Prop :=
  waited p ∧ sh_waiter p.1 = Releasing ∧ ∃ tx, p.2 !! 2%nat = Some (Act WgAdd (λ _, Act (Go (GoLateReplies tx)) Ret)).

Lemma sample_wait : reaches sample_run sample_promise about_to_start (start_pool sample_run sample_shared sample_resolvers).
Proof.
  unfold start_pool.
  eapply (reaches_wait _ _ _ _ _ Parked); [by vm_compute|by vm_compute|].
  go_on 0%nat. answered 0%nat (λ _ : nat, 0%nat). do 10 go_on 0%nat.
  go_on 1%nat. answered 1%nat Z.of_nat. answered 1%nat "system".
  answered 1%nat (λ (_ : nat) (_ : string), GetaddrinfoErr sample_error). answered 1%nat (λ _ : nat, 0).
  evaluate_lookup. go_on 1%nat. message 1%nat ChanAddrs (@nil string).
  go_on 2%nat. answered 2%nat Z.of_nat. answered 2%nat sample_udp.
  evaluate_lookup. go_on 2%nat. go_on 2%nat. message 2%nat ChanAddrs (@nil string).
  answered 3%nat 1000000000. answered 3%nat (λ l : list string, l). answered 3%nat 7.
  go_on 3%nat. message 3%nat ChanAddrs (@nil string).
  answered 4%nat 0. go_on 4%nat. answered 4%nat (Err sample_error : result error (list string)).
  message 4%nat ChanWhoami (@nil DNSWhoamiInfoEntry).
  answered 5%nat 0. go_on 5%nat. answered 5%nat (Err sample_error : result error (list string)).
  message 5%nat ChanWhoami (@nil DNSWhoamiInfoEntry).
  go_on 0%nat. go_on 0%nat. answered 0%nat {| cpl_Msg := ""; cpl_T := float64_zero |}. do 3 go_on 0%nat.
  apply reaches_here; [by vm_compute|]. split; [by vm_compute|]. split; [by vm_compute|]. eexists. reflexivity.
  Unshelve. all: exact tt.
Qed.

Abbreviation sample_measurement :=
  (measurement (λ _, (0, "")) Val (λ _, ErrNoResolver) "*/*" "en" "curl" (λ _, []) Val sample_provider ∅ sample_args).

Lemma sample_waits (P : pool → Prop) : (∀ q, sample_promise q → P q) → ∃ gs p, sample_measurement P gs p ∧ about_to_start p.
Proof.
  intros HP. destruct sample_wait as (gs & p & Hrun & Hp). exists gs, p. split; [|done].
  exists sample_shared, sample_resolvers. split; [apply sample_start|by eapply run_weaken].
Qed.

(** [Run] returns from the wait; then the goroutine starts and changes the test keys. *)
Lemma late_replies_after_wait :
  ∃ gs p gs' p' t, sample_measurement (λ _, True) gs p ∧ waited p ∧
    pool_run sample_run (λ _, True) p gs' p' ∧ sh_waiter p'.1 = WaitReturned ∧ t ∈ p'.2 ∧ updates t.
Proof.
  destruct (sample_waits (λ _, True)) as (gs & [s ts] & Hm & Hw & Hrel & tx & Ht); [done|]. cbn in Hw, Hrel.
  assert (Hr : reaches sample_run (λ _, True) (λ p, sh_waiter p.1 = WaitReturned ∧ ∃ t, t ∈ p.2 ∧ updates t) (s, ts)).
  { eapply (reaches_wait _ _ _ _ _ Woken); [done|by rewrite Hrel|].
    eapply (reaches_wait _ _ _ _ _ WaitReturned); [done|by split|]. set (s' := _ <| sh_waiter := WaitReturned |>).
    assert (Hret : sh_waiter s' = WaitReturned) by done. clearbody s'.
    eapply (reaches_task _ _ _ _ _ 2%nat _ _ _ tt); [done|exact Ht|split_and!; [by rewrite Hret|done..]|]. rewrite app_nil_r.
    pose proof (lookup_lt_Some _ _ _ Ht) as Hlt. cbn [snd] in Hlt.
    eapply (reaches_task _ _ _ _ _ 2%nat _ _ _ tt); [done|by rewrite list_lookup_insert_eq|by repeat split|].
    rewrite list_insert_insert_eq. set (ts' := <[2%nat := Ret tt]> ts).
    eapply (reaches_task _ _ _ _ _ (length ts') _ _ _ (@nil (Conn * string * DNSQuery * list (string * option error)))); [done|rewrite lookup_app_r by lia; by rewrite Nat.sub_diag| |].
    - split; [exact I|done].
    - apply reaches_here; [done|]. split; [exact Hret|]. eexists. split; [|instantiate (1 := Act (Update _) _); exact I].
      cbn [snd]. rewrite app_nil_r. apply list_elem_of_lookup. exists (length ts').
      apply list_lookup_insert_eq. rewrite length_app. cbn. lia. }
  destruct Hr as (gs' & p' & Hrun & Hret & t & Ht' & Hu). by exists gs, (s, ts), gs', p', t.
Qed.

(** The goroutine is added while [Run] is woken up, or before it has returned from the wait: the process panics. *)
Lemma wait_may_panic :
  (∃ gs p, sample_measurement (λ _, True) gs p ∧
     pool_panics p "sync: WaitGroup misuse: Add called concurrently with Wait") ∧
  ∃ gs p, sample_measurement (λ _, True) gs p ∧
     pool_panics p "sync: WaitGroup is reused before previous Wait has returned".
Proof.
  destruct (sample_waits (λ _, True)) as (gs & [s ts] & Hm & Hw & Hrel & tx & Ht); [done|]. cbn in Hw, Hrel. split.
  - exists gs, (s, ts). split; [exact Hm|]. eapply panics_misuse; [by eapply list_elem_of_lookup_2|done].
  - assert (Hr : reaches sample_run (λ _, True)
      (λ p, pool_panics p "sync: WaitGroup is reused before previous Wait has returned") (s, ts)).
    { eapply (reaches_wait _ _ _ _ _ Woken); [done|by rewrite Hrel|].
      eapply (reaches_task _ _ _ _ _ 2%nat _ _ _ tt); [done|exact Ht|by repeat split|].
      apply reaches_here; [done|]. apply panics_reused; [done|]. unfold waited in Hw. destruct s. cbn in *. by subst. }
    destruct Hr as (gs' & p' & Hrun & Hp), Hm as (s0 & t0 & Hs & Hrun0). exists (gs ++ gs'), p'. split; [|done].
    exists s0, t0. split; [done|by eapply run_trans].
Qed.

(** ** Web Connectivity LTE: a measurement from its start to its end

    [Run] of [measurer.go]: what holds in every pool that the tasks of a measurement reach, when
    they stop, and what is returned then. *)

Section measurement.
Context `{RangeOrder} `{Miekg} `{CookieJar}.
Context (LookupASN : string → Z * string) (toASCII : string → result error string) (parse_error : string → error).
Context (HTTPHeaderAccept HTTPHeaderAcceptLanguage HTTPHeaderUserAgent : string) (resp_Cookies : Response → list string).
Context (ToASCII : string → result string string).
Context (provider : OpportunisticDNSOverHTTPSURLProvider) (whoami : DNSWhoamiService).

Abbreviation run_task := (run_task LookupASN toASCII parse_error HTTPHeaderAccept HTTPHeaderAcceptLanguage HTTPHeaderUserAgent resp_Cookies).
Abbreviation measurement := (measurement LookupASN toASCII parse_error HTTPHeaderAccept HTTPHeaderAcceptLanguage HTTPHeaderUserAgent resp_Cookies ToASCII provider whoami).

(** ** The start *)

Lemma start_state args s t :
  Measurer_Start ToASCII provider whoami args = Ok (Val (s, t)) →
  ∃ failure, s = mkShared _ ((NewTestKeys <| lte_ClientResolver := arg_ResolverIP args |>) <| lte_ControlFailure := failure |>)
    NewIDGenerator NewDNSCache (NewNumRedirects 10) NewJar provider whoami 0 NotWaiting 0 [].
Proof.
  unfold Measurer_Start. destruct (String.eqb _ _); [done|].
  destruct (Parse _ _ _) as [[URL|err]|why]; cbn [mbind outcome_bind]; [|done..].
  destruct (tracex_NewFailure _) as [failure|why]; cbn [mbind outcome_bind]; [|done].
  intros [= <- _]. destruct (length (arg_TestHelpers args) <? 1)%nat; [by exists failure|by exists None].
Qed.

(** The first pool has the resources that it needs. *)
Lemma start_resources url_ok args s t strict :
  Measurer_Start ToASCII provider whoami args = Ok (Val (s, t)) → url_ok (url_String (res_URL t)) →
  ∃ rs, Forall2 (typed (measurement_ok url_ok)) (start_pool run_task s t).2 rs ∧
    resources_ok (measurement_ok url_ok) strict (start_pool run_task s t).1 rs ∧
    total_left (start_pool run_task s t).1 rs = 10 ∧ level <$> rs = [3%nat].
Proof.
  intros Hs Hurl. destruct (start_state args s t Hs) as [failure ->].
  exists [seed 0 (GoResolvers t)]. cbn [start_pool fst snd]. split_and!; [| |done..].
  - constructor; [|constructor]. apply body_wp. intros _ tk creq E []. split; try done.
    cbn. intros req [= <-]. by rewrite E.
  - split.
    + done.
    + done.
    + by apply NoDup_nil_2.
    + by constructor.
    + constructor; [|constructor]. by split_and!.
    + by constructor.
    + split; cbn; try done; intros x Hx; by apply elem_of_nil in Hx.
    + exists []. split; [constructor|by apply NoDup_nil_2].
    + done.
    + intros _. split.
      * split; [done|]. split; [done|]. split; cbn; lia.
      * by apply NoDup_nil_2.
      * intros i Hi. by apply elem_of_nil in Hi.
      * split; intros x Hx; by apply elem_of_nil in Hx.
      * intros x Hx. by apply elem_of_nil in Hx.
      * intros x Hx. by apply elem_of_nil in Hx.
      * split; [|by apply NoDup_nil_2]. intros x y Hx. by apply elem_of_nil in Hx.
Qed.

(** ** Every pool of a measurement *)

Definition any (_ : string) : Prop := True.

Lemma run_task_typed url_ok n g : goroutine_ok (measurement_ok url_ok) n g → wp (measurement_ok url_ok) (run_task g) (seed n g) final.
Proof. apply body_wp. Qed.

(** What a pool needs, with [strict] the promise that few flows are started. *)
Lemma measurement_pool url_ok args (P : pool → Prop) gs p strict :
  (∀ s t, Measurer_Start ToASCII provider whoami args = Ok (Val (s, t)) → url_ok (url_String (res_URL t))) →
  (∀ q, P q → strict → few_flows q.1) → measurement args P gs p → pool_ok (measurement_ok url_ok) strict p.
Proof.
  intros Hurl HP (s & t & Hs & Hrun). destruct (start_resources url_ok args s t strict Hs (Hurl s t Hs)) as (rs & Hts & Hrs & _).
  eapply run_ok'; [apply run_task_typed|exact HP|exact Hrun|]. by exists rs.
Qed.

Lemma measurement_loose args (P : pool → Prop) gs p : measurement args P gs p → pool_ok (measurement_ok any) False p.
Proof. intros Hm. eapply measurement_pool; [..|exact Hm]; done. Qed.

(** The wait group counts nobody when everybody has returned. *)
Lemma finished_waited Inv strict p : pool_ok Inv strict p → Forall finished p.2 → waited p.
Proof.
  intros (rs & Hts & Hrs) Hf. unfold waited. rewrite (ok_wg _ _ _ _ Hrs). clear Hrs.
  induction Hts as [|t r ts rs Ht _ IH]; [done|]. apply Forall_cons in Hf as [-> Hf]. cbn.
  destruct Ht as (_ & _ & ->). by apply IH.
Qed.

(** Until everybody has returned, [Run] included, somebody can go on. *)
Lemma pool_goes_on p :
  pool_ok (measurement_ok any) False p →
  (Forall finished p.2 ∧ waited p ∧ sh_waiter p.1 = WaitReturned) ∨ ∃ gs' p', pool_step run_task p gs' p'.
Proof.
  intros Hok. destruct (pool_progress run_task _ p Hok) as [Hf|]; [|by right].
  pose proof (finished_waited _ _ p Hok Hf) as Hw. destruct Hok as (rs & _ & Hrs). pose proof (ok_waiter _ _ _ _ Hrs) as Hwait.
  destruct p as [s ts]. unfold waiter_ok, waited in *. cbn in *.
  assert (Hgo : ∀ w, wait_step (sh_wg s) (sh_waiter s) w → ∃ gs' p', pool_step run_task (s, ts) gs' p')
    by (intros w Hstep; eexists _, _; by apply pool_wait).
  destruct (sh_waiter s); [right; by eapply Hgo|lia|right; by eapply Hgo|right; by eapply (Hgo WaitReturned)|by left].
Qed.

(** C5: in every pool that a measurement reaches no task has panicked.  Only the wait group may panic, and only
    after its counter has reached zero while [Run] waits and before [Run] is back, when a task
    adds itself to it; while it counts nobody, only a lookup may be about to do so.  Either
    every task has returned, and [Run] from the wait, or somebody can go on: there is no deadlock. *)
Theorem measurement_safe args gs p (Hm : measurement args (λ _, True) gs p) :
  (∀ t why, t ∈ p.2 → t ≠ Crash why) ∧
  (∀ why, pool_panics p why →
     (sh_waiter p.1 = Releasing ∧ waited p ∧ (∃ k, Act WgAdd k ∈ p.2) ∧
        why = "sync: WaitGroup misuse: Add called concurrently with Wait") ∨
     (sh_waiter p.1 = Woken ∧ ¬ waited p ∧ why = "sync: WaitGroup is reused before previous Wait has returned")) ∧
  (waited p → ∀ i k, p.2 !! i = Some (Act WgAdd k) →
     ∃ j t kind out, i = S j ∧ gs !! j = Some (GoLookup t kind out)) ∧
  ((Forall finished p.2 ∧ waited p ∧ sh_waiter p.1 = WaitReturned) ∨ ∃ gs' p', pool_step run_task p gs' p').
Proof.
  pose proof (measurement_loose args _ gs p Hm) as Hok.
  split_and!; [intros t why; by eapply no_crash|intros why; by eapply pool_panics_wait| |by apply pool_goes_on].
  destruct Hm as (s & t & Hs & Hrun). destruct (start_resources any args s t False Hs I) as (rs & Hts & Hrs & _ & Hl). intros Hw i k Hi.
  destruct (run_levels run_task _ (run_task_typed any) _ _ gs p rs Hrun Hts Hrs) as (rs' & Hts' & Hrs' & Hl').
  destruct (Forall2_lookup_l _ _ _ _ _ Hts' Hi) as (r & Hr & Ht). destruct Ht as [[Hb|Hlevel] _].
  { exfalso. eapply waited_idle; [exact Hrs'|exact Hw|by eapply list_elem_of_lookup_2|exact Hb]. }
  assert (Hli : (level <$> rs') !! i = Some 1%nat) by by rewrite list_lookup_fmap, Hr, <-Hlevel.
  rewrite Hl', Hl in Hli. destruct i as [|j]; [done|]. change ((rank <$> gs) !! j = Some 1%nat) in Hli. rewrite list_lookup_fmap in Hli.
  destruct (gs !! j) as [g|] eqn:Eg; [|done]. injection Hli as Hg. destruct g; try done. by eexists _, _, _, _.
Qed.

(** C6: a measurement ends, whatever the network answers and however its tasks are scheduled, as long
    as the counter of the redirects does not wrap around: there is no infinite sequence of steps,
    and every run can be continued until all the tasks have returned, and [Run] from the wait. *)
Theorem measurement_ends args gs p (Hm : measurement args (λ _, True) gs p) :
  Acc (next run_task) p ∧
  ∃ gs' p', pool_run run_task (λ _, True) p gs' p' ∧ ((Forall finished p'.2 ∧ waited p' ∧ sh_waiter p'.1 = WaitReturned) ∨ ¬ unwrapped p'.1).
Proof.
  apply measurement_loose in Hm. pose proof (pool_ends run_task _ (run_task_typed any) p Hm) as Hacc. split; [done|].
  induction Hacc as [p _ IH]. destruct (pool_goes_on p Hm) as [Hf|(gs1 & p1 & Hstep)].
  { exists [], p. split; [by constructor|by left]. }
  assert (Hd : unwrapped p.1 ∨ ¬ unwrapped p.1) by (unfold unwrapped; lia).
  destruct Hd as [Hu|Hu]; [|exists [], p; split; [by constructor|by right]].
  assert (Hone : pool_run run_task (λ _, True) p ([] ++ gs1) p1) by (eapply run_step; [by constructor|done|done]).
  destruct (IH p1) as (gs2 & p2 & Hrun & Hend); [by split; [|exists gs1]| |].
  { eapply run_ok'; [apply run_task_typed| |exact Hone|exact Hm]. by intros. }
  exists (([] ++ gs1) ++ gs2), p2. split; [by eapply run_trans|done].
Qed.

(** C7: a measurement follows at most ten redirects. *)
Theorem measurement_redirects args gs p (Hm : measurement args (λ q, unwrapped q.1) gs p) :
  (resolvers_in gs ≤ 10)%nat.
Proof.
  destruct Hm as (s & t & Hs & Hrun). destruct (start_resources any args s t False Hs I) as (rs & Hts & Hrs & Hleft & _).
  destruct (run_left run_task _ (run_task_typed any) (λ q, unwrapped q.1) (start_pool run_task s t) gs p rs)
    as (rs' & _ & _ & Hle); try done.
  rewrite Hleft in Hle.
  unfold total_left, redirects_left in Hle. lia.
Qed.

(** C8: the test keys never hold a connect to a loopback address, nor a connect that succeeded with a
    failure (or the other way around); a body has at most 2^19 bytes and is marked as truncated
    just when it has that many.  When the wait group counts nobody, no task is about to change
    the test keys. *)
Theorem measurement_data args gs p (Hm : measurement args (λ _, True) gs p) :
  (∀ r, r ∈ lte_TCPConnect (sh_tk p.1) → connect_ok r) ∧
  (∀ r, r ∈ lte_Requests (sh_tk p.1) → request_ok r) ∧
  (waited p → ∀ t, t ∈ p.2 → ¬ updates t).
Proof.
  apply measurement_loose in Hm. split_and!; [..|intros Hw t Ht; by eapply waited_quiet];
    destruct Hm as (rs & _ & Hrs); apply (ok_tk _ _ _ _ Hrs).
Qed.

(** C10: each set of flows has its own selector, which behaves as the selector alone does: it lets at
    most one flow fetch the page, one of the highest priority unless no flow that it
    denied has it.  Every page in the test keys was fetched from an address that a selector permitted,
    and no selector permitted two of them. *)
Theorem measurement_selectors args gs p (Hm : measurement args (λ _, True) gs p) :
  (∀ ps sys, (ps, sys) ∈ sh_selectors p.1 → reachable ps sys ∧ one_granted sys ∧ justified ps sys) ∧
  ∃ used, Forall2 (paid p.1) (lte_Requests (sh_tk p.1)) used ∧ NoDup ((λ k : ticket, k.1.1) <$> used).
Proof.
  apply measurement_loose in Hm as (rs & _ & Hrs).
  assert (Hall : ∀ ps sys, (ps, sys) ∈ sh_selectors p.1 → reachable ps sys).
  { intros ps sys Hin. exact (proj1 (Forall_forall _ _) (ok_selectors _ _ _ _ Hrs) _ Hin). }
  split. { intros ps sys Hin. pose proof (Hall ps sys Hin) as Hr. split; [done|by apply reachable_fine]. }
  destruct (ok_pages _ _ _ _ Hrs) as (used & Hused & Hnd). exists used. split; [done|].
  apply NoDup_app in Hnd as (Hnd & _). apply NoDup_fmap_2_strong; [|done].
  assert (Hper : ∀ k, k ∈ used → permitted p.1 k).
  { intros k [i Hi]%list_elem_of_lookup. by destruct (Forall2_lookup_r _ _ _ _ _ Hused Hi) as (? & _ & []). }
  intros [[ps conn1] addr1] [[? conn2] addr2] Hk1 Hk2 E. cbn in E. subst.
  destruct (Hper _ Hk1) as (resp1 & q1 & sys1 & Hp1 & Hc1), (Hper _ Hk2) as (resp2 & q2 & sys2 & Hp2 & Hc2).
  rewrite Hp1 in Hp2. injection Hp2 as <- <-.
  destruct (reachable_fine q1 sys1) as [Hone _]; [apply Hall; by eapply list_elem_of_lookup_2|].
  assert (conn1 = conn2) as -> by (eapply (Hone conn1 _ _ conn2); [exact Hc1|by left|exact Hc2|by left]).
  rewrite Hc1 in Hc2. by injection Hc2 as -> _.
Qed.

(** C4: the pages of a measurement that starts fewer than 10000 cleartext flows have distinct transaction
    identifiers and were fetched on connections whose handshake did not fail, so that, if the printed
    URL parses again, [Run] returns after the wait without panicking: the data of the test keys as
    they were collected and one of the allowed verdicts. *)
Theorem measurement_returns `{UnicodeTables} `{StableSort} lookupper args gs p
    (Hurl : ∀ s t, Measurer_Start ToASCII provider whoami args = Ok (Val (s, t)) → is_Some (url_Parse (url_String (res_URL t))))
    (Hm : measurement args (λ q, few_flows q.1) gs p) :
  NoDup (http_TransactionID <$> lte_Requests (sh_tk p.1)) ∧ pages_after_handshakes (sh_tk p.1) ∧
  ∃ tk, Measurer_Finish lookupper false p.1 = Ok (tk, getTestHelper tk, FundamentalFailure <$> lte_fundamentalFailure tk) ∧
    data tk = data (sh_tk p.1) ∧ allowed (lte_Blocking tk) (lte_Accessible tk).
Proof.
  apply (measurement_pool (λ s, is_Some (url_Parse s)) args _ gs p True) in Hm; [|done|by intros].
  destruct Hm as (rs & _ & Hrs). pose proof (ok_tk _ _ _ _ Hrs) as Htk. destruct (ids_pages _ _ (ok_ids _ _ _ _ Hrs I)) as [Hpages Hnd].
  split; [done|]. split; [done|]. destruct (Finalize_returns lookupper (sh_tk p.1)) as (tk & Hf & Hd & _ & Ha);
    [intros req; apply (mo_control _ _ Htk)|done|apply (mo_fresh _ _ Htk)|apply (mo_times _ _ Htk)|].
  exists tk. unfold Measurer_Finish. rewrite Hf. by split_and!.
Qed.
End measurement.

(** ** The sample *)

#[local] Existing Instance range_ascending.
#[local] Existing Instance ascii_only_tables.
#[local] Existing Instance go_insertion_sort.
#[local] Existing Instance sample_miekg.
#[local] Existing Instance sample_jar.

Lemma measurement_safe_witness :
  ∃ gs p, sample_measurement (λ _, True) gs p ∧ waited p ∧ sh_waiter p.1 = Releasing ∧
    (∀ t why, t ∈ p.2 → t ≠ Crash why) ∧ ∃ t kind out, gs !! 1%nat = Some (GoLookup t kind out).
Proof.
  destruct (sample_waits (λ _, True)) as (gs & p & Hm & Hw & Hrel & tx & Ht); [done|]. exists gs, p.
  destruct (measurement_safe _ _ _ _ _ _ _ _ _ _ _ gs p Hm) as (H1 & _ & H3 & _).
  split; [exact Hm|]. split; [exact Hw|]. split; [exact Hrel|]. split; [exact H1|].
  destruct (H3 Hw 2%nat _ Ht) as (j & t & kind & out & [= <-] & Hj). exists t, kind, out. exact Hj.
Defined.

Lemma measurement_ends_witness : ∃ gs p, sample_measurement (λ _, True) gs p ∧ Acc (next sample_run) p.
Proof.
  destruct (sample_waits (λ _, True)) as (gs & p & Hm & _); [done|]. exists gs, p. split; [exact Hm|].
  exact (proj1 (measurement_ends _ _ _ _ _ _ _ _ _ _ _ gs p Hm)).
Defined.

Lemma measurement_redirects_witness : ∃ gs p, sample_measurement (λ q, unwrapped q.1) gs p ∧ (resolvers_in gs ≤ 10)%nat.
Proof.
  destruct (sample_waits (λ q, unwrapped q.1)) as (gs & p & Hm & _); [by intros q []|]. exists gs, p. split; [exact Hm|].
  exact (measurement_redirects _ _ _ _ _ _ _ _ _ _ _ gs p Hm).
Defined.

Lemma measurement_data_witness : ∃ gs p, sample_measurement (λ _, True) gs p ∧ ∀ t, t ∈ p.2 → ¬ updates t.
Proof.
  destruct (sample_waits (λ _, True)) as (gs & p & Hm & Hw & _); [done|]. exists gs, p. split; [exact Hm|].
  destruct (measurement_data _ _ _ _ _ _ _ _ _ _ _ gs p Hm) as (_ & _ & H). exact (H Hw).
Defined.

Lemma measurement_selectors_witness :
  ∃ gs p, sample_measurement (λ _, True) gs p ∧ ∀ ps sys, (ps, sys) ∈ sh_selectors p.1 → one_granted sys.
Proof.
  destruct (sample_waits (λ _, True)) as (gs & p & Hm & _); [done|]. exists gs, p. split; [exact Hm|].
  destruct (measurement_selectors _ _ _ _ _ _ _ _ _ _ _ gs p Hm) as [H _].
  intros ps sys Hin. exact (proj1 (proj2 (H ps sys Hin))).
Defined.

Lemma measurement_returns_witness :
  ∃ gs p tk, sample_measurement (λ q, few_flows q.1) gs p ∧
    Measurer_Finish sample_asn false p.1 = Ok (tk, getTestHelper tk, FundamentalFailure <$> lte_fundamentalFailure tk).
Proof.
  destruct (sample_waits (λ q, few_flows q.1)) as (gs & p & Hm & _); [by intros q []|].
  assert (Hurl : ∀ s t, Measurer_Start Val sample_provider ∅ sample_args = Ok (Val (s, t)) → is_Some (url_Parse (url_String (res_URL t)))).
  { intros s t Hs. vm_compute in Hs. injection Hs as _ <-. vm_compute. by eexists. }
  destruct (measurement_returns _ _ _ _ _ _ _ _ _ _ sample_asn _ gs p Hurl Hm) as (_ & _ & tk & Htk & _).
  exists gs, p, tk. split; [exact Hm|exact Htk].
Defined.
