(* ===== verification/Tracex.v ===== *)
(** * Events of the legacy tracing

    [pkg/legacy/tracex]: a saver collects the events that the wrapped primitives emit, and the
    events become archival data.  The saver keeps the clock, a function of the number of
    readings so far, about which nothing is assumed; [None] is a saver that is nil. *)
From S2P Require Import Prelude GoString GoFloat GoNet GoURL Archival NetErrors NetDNS GoHTTP.
From S2P Require Import GoRegexp Scrubber Overlapped.
From S2P Require Import LteControl Tracing NetPrimitives.
From Stdlib Require Import Ascii.

(** ** Events ([event.go]) *)

Record EventValue := mkEventValue {
  ev_Addresses : list string;
  ev_Address : string;
  ev_DNSQuery : string;
  ev_DNSResponse : string;
  ev_Data : string;
  ev_Duration : Duration;
  ev_Err : string;
  ev_HTTPMethod : string;
  ev_HTTPRequestHeaders : Header;
  ev_HTTPResponseHeaders : Header;
  ev_HTTPResponseBody : string;
  ev_HTTPResponseBodyIsTruncated : bool;
  ev_HTTPStatusCode : Z;
  ev_HTTPURL : string;
  ev_Hostname : string;
  ev_NoTLSVerify : bool;
  ev_NumBytes : Z;
  ev_Proto : string;
  ev_TLSServerName : string;
  ev_TLSCipherSuite : string;
  ev_TLSNegotiatedProto : string;
  ev_TLSNextProtos : list string;
  ev_TLSPeerCerts : list string;
  ev_TLSVersion : string;
  ev_Time : Time;
  ev_Transport : string;
}.

(** [time.Time{}]: the year 1, before the epoch. *)
Definition zero_Time : Time := -62135596800000000000.

Definition zero_EventValue : EventValue :=
  mkEventValue [] "" "" "" "" 0 "" "" ∅ ∅ "" false 0 "" "" false 0 "" "" "" "" [] [] "" zero_Time "".

Inductive Event :=
  | EventTLSHandshakeStart (V : EventValue)
  | EventTLSHandshakeDone (V : EventValue)
  | EventResolveStart (V : EventValue)
  | EventResolveDone (V : EventValue)
  | EventDNSRoundTripStart (V : EventValue)
  | EventDNSRoundTripDone (V : EventValue)
  | EventQUICHandshakeStart (V : EventValue)
  | EventQUICHandshakeDone (V : EventValue)
  | EventWriteToOperation (V : EventValue)
  | EventReadFromOperation (V : EventValue)
  | EventHTTPTransactionStart (V : EventValue)
  | EventHTTPTransactionDone (V : EventValue)
  | EventConnectOperation (V : EventValue)
  | EventReadOperation (V : EventValue)
  | EventWriteOperation (V : EventValue).

Definition event_Value (ev : Event) : EventValue :=
  match ev with
  | EventTLSHandshakeStart V | EventTLSHandshakeDone V | EventResolveStart V | EventResolveDone V
  | EventDNSRoundTripStart V | EventDNSRoundTripDone V | EventQUICHandshakeStart V
  | EventQUICHandshakeDone V | EventWriteToOperation V | EventReadFromOperation V
  | EventHTTPTransactionStart V | EventHTTPTransactionDone V | EventConnectOperation V
  | EventReadOperation V | EventWriteOperation V => V
  end.

Definition event_Name (ev : Event) : string :=
  match ev with
  | EventTLSHandshakeStart _ => "tls_handshake_start"
  | EventTLSHandshakeDone _ => "tls_handshake_done"
  | EventResolveStart _ => "resolve_start"
  | EventResolveDone _ => "resolve_done"
  | EventDNSRoundTripStart _ => "dns_round_trip_start"
  | EventDNSRoundTripDone _ => "dns_round_trip_done"
  | EventQUICHandshakeStart _ => "quic_handshake_start"
  | EventQUICHandshakeDone _ => "quic_handshake_done"
  | EventWriteToOperation _ => WriteToOperation
  | EventReadFromOperation _ => ReadFromOperation
  | EventHTTPTransactionStart _ => "http_transaction_start"
  | EventHTTPTransactionDone _ => "http_transaction_done"
  | EventConnectOperation _ => ConnectOperation
  | EventReadOperation _ => ReadOperation
  | EventWriteOperation _ => WriteOperation
  end.

(** ** Archival data ([archival.go]) *)

Definition FailureStr_IsNil (fs : string) : bool := String.eqb fs "".

(** [strconv.Atoi] without its error: a number that is too large gives the nearest one. *)
Fixpoint atoi_digits (value : Z) (s : string) : Z :=
  match s with
  | "" => value
  | String c s =>
      match digit_value c with
      | None => 0
      | Some d => if 2 ^ 64 <=? 10 * value + d then 2 ^ 64 - 1 else atoi_digits (10 * value + d) s
      end
  end.

Definition Atoi (s : string) : Z :=
  let neg := HasPrefix s "-" in
  let un := atoi_digits 0 (if neg || HasPrefix s "+" then string_drop 1 s else s) in
  if neg then Z.max (- un) int64_min else Z.min un int64_max.

(** [event.Time.Sub(begin).Seconds()] *)
Definition since_begin (begin : Time) (ev : EventValue) : float64 := Seconds (time_Sub (ev_Time ev) begin).

(** An iteration of the loop; [net.SplitHostPort] returns empty strings with its error, and
    [strconv.Atoi] zero. *)
Definition tcp_connect_entry (begin : Time) (wrapper : Event) : option ArchivalTCPConnectResult :=
  match wrapper with
  | EventConnectOperation event =>
      if negb (String.eqb (ev_Proto event) "tcp") then None
      else
        let '(ip, sport) := archivalSplitHostPort (ev_Address event) in
        Some {| tcp_IP := ip; tcp_Port := Atoi sport;
                tcp_Status := {| status_Blocked := None; status_Failure := ToFailure (ev_Err event);
                                 status_Success := FailureStr_IsNil (ev_Err event) |};
                tcp_T0 := float64_zero; tcp_T := since_begin begin event; tcp_Tags := []; tcp_TransactionID := 0 |}
  | _ => None
  end.

Definition NewTCPConnectList (begin : Time) (events : list Event) : list ArchivalTCPConnectResult :=
  foldl (λ out wrapper, match tcp_connect_entry begin wrapper with Some entry => out ++ [entry] | None => out end) [] events.

Definition request_entry (begin : Time) (ev : EventValue) : ArchivalHTTPRequestResult :=
  {| http_Network := ""; http_Address := ""; http_ALPN := ""; http_Failure := ToFailure (ev_Err ev);
     http_Request := {|
       req_Body := ""; req_BodyIsTruncated := false;
       req_HeadersList := ArchivalNewHTTPHeadersList (ev_HTTPRequestHeaders ev);
       req_Headers := ArchivalNewHTTPHeadersMap (ev_HTTPRequestHeaders ev);
       req_Method := ev_HTTPMethod ev;
       req_Tor := {| tor_ExitIP := None; tor_ExitName := None; tor_IsTor := false |};
       req_Transport := ev_Transport ev; req_URL := ev_HTTPURL ev |};
     http_Response := {|
       resp_Body := ev_HTTPResponseBody ev; resp_BodyIsTruncated := ev_HTTPResponseBodyIsTruncated ev;
       resp_Code := ev_HTTPStatusCode ev;
       resp_HeadersList := ArchivalNewHTTPHeadersList (ev_HTTPResponseHeaders ev);
       resp_Headers := ArchivalNewHTTPHeadersMap (ev_HTTPResponseHeaders ev);
       resp_Locations := default [] (ev_HTTPResponseHeaders ev !! "Location") |};
     http_T0 := float64_zero; http_T := since_begin begin ev; http_Tags := []; http_TransactionID := 0 |}.

Definition newRequestList (begin : Time) (events : list Event) : list ArchivalHTTPRequestResult :=
  foldl (λ out wrapper,
    match wrapper with
    | EventHTTPTransactionDone ev => out ++ [request_entry begin ev]
    | _ => out
    end) [] events.

(** The loop from the last index to the first. *)
Fixpoint from_last {A} (tmp : list A) (n : nat) (out : list A) : list A :=
  match n with
  | O => out
  | S i => from_last tmp i (match tmp !! i with Some entry => out ++ [entry] | None => out end)
  end.

Definition NewRequestList (begin : Time) (events : list Event) : list ArchivalHTTPRequestResult :=
  let tmp := newRequestList begin events in from_last tmp (length tmp) [].

(** *** DNS *)

Definition ipOfType (qtype addr : string) : bool :=
  if String.eqb qtype "A" then negb (ContainsByte addr ":")
  else if String.eqb qtype "AAAA" then ContainsByte addr ":"
  else false.

Section dns.
(** [geoipx.LookupASN], which returns sensible values with its error. *)
Context (LookupASN : string → Z * string).

Definition makeAnswerEntry (qtype addr : string) : ArchivalDNSAnswer :=
  let '(asn, org) := LookupASN addr in
  {| ans_ASN := wrap64 asn; ans_ASOrgName := org; ans_AnswerType := qtype; ans_Hostname := "";
     ans_IPv4 := if String.eqb qtype "A" then addr else "";
     ans_IPv6 := if String.eqb qtype "AAAA" then addr else ""; ans_TTL := None |}.

Definition makeQueryEntry (qtype : string) (begin : Time) (ev : EventValue) (answers : list ArchivalDNSAnswer) :
    ArchivalDNSLookupResult :=
  {| dns_Answers := answers; dns_Engine := ev_Proto ev; dns_Failure := ToFailure (ev_Err ev);
     dns_GetaddrinfoError := 0; dns_Hostname := ev_Hostname ev; dns_QueryType := qtype; dns_RawResponse := "";
     dns_Rcode := 0; dns_ResolverHostname := None; dns_ResolverPort := None; dns_ResolverAddress := ev_Address ev;
     dns_T0 := float64_zero; dns_T := since_begin begin ev; dns_Tags := []; dns_TransactionID := 0 |}.

(** An iteration of the inner loop: no entry for a query without answers that did not fail. *)
Definition query_entry (begin : Time) (ev : EventValue) (qtype : string) : option ArchivalDNSLookupResult :=
  let Answers := foldl (λ Answers addr,
      if ipOfType qtype addr then Answers ++ [makeAnswerEntry qtype addr] else Answers) [] (ev_Addresses ev) in
  let entry := makeQueryEntry qtype begin ev Answers in
  if (length (dns_Answers entry) <=? 0)%nat && FailureStr_IsNil (ev_Err ev) then None else Some entry.

Definition NewDNSQueriesList (begin : Time) (events : list Event) : list ArchivalDNSLookupResult :=
  foldl (λ out wrapper,
    match wrapper with
    | EventResolveDone ev =>
        foldl (λ out qtype, match query_entry begin ev qtype with Some entry => out ++ [entry] | None => out end)
          out ["A"; "AAAA"]
    | _ => out
    end) [] events.
End dns.

(** *** Network events and handshakes *)

Definition network_event_entry (begin : Time) (wrapper : Event) : ArchivalNetworkEvent :=
  let ev := event_Value wrapper in
  let entry (Address : string) (NumBytes : Z) (Proto : string) :=
    {| net_Address := Address; net_Failure := ToFailure (ev_Err ev); net_NumBytes := NumBytes;
       net_Operation := event_Name wrapper; net_Proto := Proto; net_T0 := float64_zero;
       net_T := since_begin begin ev; net_TransactionID := 0; net_Tags := [] |} in
  match wrapper with
  | EventConnectOperation _ => entry (ev_Address ev) 0 (ev_Proto ev)
  | EventReadOperation _ | EventWriteOperation _ => entry "" (ev_NumBytes ev) ""
  | EventReadFromOperation _ | EventWriteToOperation _ => entry (ev_Address ev) (ev_NumBytes ev) ""
  | _ => entry "" 0 ""
  end.

Definition NewNetworkEventsList (begin : Time) (events : list Event) : list ArchivalNetworkEvent :=
  foldl (λ out wrapper, out ++ [network_event_entry begin wrapper]) [] events.

Definition tlsMakePeerCerts (l : list string) : list string := foldl (λ out entry, out ++ [entry]) [] l.

Definition handshake_entry (begin : Time) (ev : EventValue) : ArchivalTLSOrQUICHandshakeResult :=
  {| tls_Network := ""; tls_Address := ev_Address ev; tls_CipherSuite := ev_TLSCipherSuite ev;
     tls_Failure := ToFailure (ev_Err ev); tls_SoError := None; tls_NegotiatedProtocol := ev_TLSNegotiatedProto ev;
     tls_NoTLSVerify := ev_NoTLSVerify ev; tls_PeerCertificates := tlsMakePeerCerts (ev_TLSPeerCerts ev);
     tls_ServerName := ev_TLSServerName ev; tls_OuterServerName := ""; tls_ECHConfig := "";
     tls_T0 := float64_zero; tls_T := since_begin begin ev; tls_Tags := []; tls_TLSVersion := ev_TLSVersion ev;
     tls_TransactionID := 0 |}.

Definition NewTLSHandshakesList (begin : Time) (events : list Event) : list ArchivalTLSOrQUICHandshakeResult :=
  foldl (λ out wrapper,
    match wrapper with
    | EventQUICHandshakeDone ev | EventTLSHandshakeDone ev => out ++ [handshake_entry begin ev]
    | _ => out
    end) [] events.

(** ** The saver ([saver.go]) *)

Record Saver := mkSaver {
  sv_ops : list Event;
  sv_timeNow : nat → Time;
  sv_readings : nat;
}.

Definition new_Saver (timeNow : nat → Time) (readings : nat) : Saver := mkSaver [] timeNow readings.

Definition saver_Read (s : Saver) : list Event * Saver := (sv_ops s, s <| sv_ops := [] |>).

(** A computation whose primitives are wrapped by the saver. *)
Definition saving (A : Type) : Type := Saver → outcome (A * Saver).

#[export] Instance saving_ret : MRet saving := λ A a s, Ok (a, s).
#[export] Instance saving_bind : MBind saving := λ A B f m s, '(a, s) ← m s; f a s.

Definition saver_Write (ev : Event) : saving unit := λ s, Ok (tt, s <| sv_ops ::= λ ops, ops ++ [ev] |>).
Definition saver_lift {A} (m : outcome A) : saving A := λ s, a ← m; Ok (a, s).
Definition time_Now : saving Time := λ s, Ok (sv_timeNow s (sv_readings s), s <| sv_readings ::= S |>).

(** ** Dialers and connections ([dialer.go]) *)

(** A reader is all that it gives: bytes, and the error that ends them, if it is not the end of the file. *)
Abbreviation Reader := (string * option error)%type.

Section savers.
Implicit Types (address network : string).

Definition DialerSaver_DialContext {Conn} (Dialer : string → string → saving (result error Conn)) network address :
    saving (result error Conn) :=
  start ← time_Now;
  res ← Dialer network address;
  stop ← time_Now;
  failure ← saver_lift (NewFailureStr (error_of res));
  _ ← saver_Write (EventConnectOperation (zero_EventValue <| ev_Address := address |>
    <| ev_Duration := time_Sub stop start |> <| ev_Err := failure |> <| ev_Proto := network |> <| ev_Time := stop |>));
  mret res.

(** [Read] and [Write] of [dialerConnWrapper]: [op] returns the data it transferred. *)
Definition save_io (event : EventValue → Event) (remote : string * string) (op : saving (string * option error)) :
    saving (string * option error) :=
  start ← time_Now;
  '(data, err) ← op;
  stop ← time_Now;
  failure ← saver_lift (NewFailureStr err);
  _ ← saver_Write (event (zero_EventValue <| ev_Address := remote.2 |> <| ev_Data := data |>
    <| ev_Duration := time_Sub stop start |> <| ev_Err := failure |> <| ev_NumBytes := Z.of_nat (String.length data) |>
    <| ev_Proto := remote.1 |> <| ev_Time := stop |>));
  mret (data, err).

Definition dialerConnWrapper_Read := save_io EventReadOperation.
Definition dialerConnWrapper_Write := save_io EventWriteOperation.

(** ** Resolvers ([resolver.go]) *)

Definition ResolverNetworkAdaptNames (input : string) : string :=
  if String.eqb input "getaddrinfo" || String.eqb input "golang_net_resolver" then "system" else input.

(** [reso] is the network and the address of the resolver. *)
Definition ResolverSaver_LookupHost (reso : string * string) (LookupHost : string → saving (result error (list string)))
    (hostname : string) : saving (result error (list string)) :=
  start ← time_Now;
  _ ← saver_Write (EventResolveStart (zero_EventValue <| ev_Address := reso.2 |> <| ev_Hostname := hostname |>
    <| ev_Proto := ResolverNetworkAdaptNames reso.1 |> <| ev_Time := start |>));
  res ← LookupHost hostname;
  stop ← time_Now;
  failure ← saver_lift (NewFailureStr (error_of res));
  _ ← saver_Write (EventResolveDone (zero_EventValue
    <| ev_Addresses := match res with Val addrs => addrs | Err _ => [] end |> <| ev_Address := reso.2 |>
    <| ev_Duration := time_Sub stop start |> <| ev_Err := failure |> <| ev_Hostname := hostname |>
    <| ev_Proto := ResolverNetworkAdaptNames reso.1 |> <| ev_Time := stop |>));
  mret res.

(** [query] is what packing the query gives; a response is the bytes it came with. *)
Definition DNSTransportSaver_RoundTrip (txp : string * string) (query : result error string)
    (RoundTrip : saving (result error DNSResponse)) : saving (result error DNSResponse) :=
  let data := match query with Val data => data | Err _ => "" end in
  start ← time_Now;
  _ ← saver_Write (EventDNSRoundTripStart (zero_EventValue <| ev_Address := txp.2 |> <| ev_DNSQuery := data |>
    <| ev_Proto := ResolverNetworkAdaptNames txp.1 |> <| ev_Time := start |>));
  res ← RoundTrip;
  stop ← time_Now;
  failure ← saver_lift (NewFailureStr (error_of res));
  _ ← saver_Write (EventDNSRoundTripDone (zero_EventValue <| ev_Address := txp.2 |> <| ev_DNSQuery := data |>
    <| ev_DNSResponse := match res with Val response => resp_Bytes response | Err _ => "" end |>
    <| ev_Duration := time_Sub stop start |> <| ev_Err := failure |>
    <| ev_Proto := ResolverNetworkAdaptNames txp.1 |> <| ev_Time := stop |>));
  mret res.

(** ** TLS ([tls.go]) *)

Definition TLSHandshakerSaver_Handshake (remote : string * string) (config : tls_Config)
    (Handshake : saving (result error ConnectionState)) : saving (result error ConnectionState) :=
  start ← time_Now;
  _ ← saver_Write (EventTLSHandshakeStart (zero_EventValue <| ev_Address := remote.2 |>
    <| ev_NoTLSVerify := cfg_InsecureSkipVerify config |> <| ev_Proto := remote.1 |>
    <| ev_TLSNextProtos := cfg_NextProtos config |> <| ev_TLSServerName := cfg_ServerName config |> <| ev_Time := start |>));
  res ← Handshake;
  stop ← time_Now;
  let tstate := match res with Val state => state | Err _ => empty_ConnectionState end in
  failure ← saver_lift (NewFailureStr (error_of res));
  _ ← saver_Write (EventTLSHandshakeDone (zero_EventValue <| ev_Address := remote.2 |>
    <| ev_Duration := time_Sub stop start |> <| ev_Err := failure |>
    <| ev_NoTLSVerify := cfg_InsecureSkipVerify config |> <| ev_Proto := remote.1 |>
    <| ev_TLSCipherSuite := TLSCipherSuiteString (state_CipherSuite tstate) |>
    <| ev_TLSNegotiatedProto := state_NegotiatedProtocol tstate |> <| ev_TLSNextProtos := cfg_NextProtos config |>
    <| ev_TLSPeerCerts := TLSPeerCerts tstate (error_of res) |> <| ev_TLSServerName := cfg_ServerName config |>
    <| ev_TLSVersion := TLSVersionString (state_Version tstate) |> <| ev_Time := stop |>));
  mret res.

(** ** HTTP ([http.go]) *)

Definition httpCloneRequestHeaders (req : Request) : Header :=
  let header := r_Header req in
  if negb (String.eqb (r_Host req) "") then header_Set header "Host" (r_Host req)
  else header_Set header "Host" (Host (r_URL req)).

Definition snapshotSize (SnapshotSize : Z) : Z := if 0 <? SnapshotSize then SnapshotSize else Z.shiftl 1 17.

Definition LimitReader (r : Reader) (limit : Z) : Reader :=
  if limit <=? Z.of_nat (String.length r.1) then (string_take (Z.to_nat limit) r.1, None) else r.

(** [ReadAllContext_bytes] of [iox.go]; [CopyContext] to [io.Discard] fails in the same cases. *)
Definition ReadAllContext_bytes (r : Reader) : outcome (result error string) :=
  match r.2 with
  | None => Ok (Val r.1)
  | Some err =>
      if errors_Is err "EOF" then Ok (Val r.1)
      else err ← NewTopLevelGenericErrWrapper (Some err); Ok (Err err)
  end.

Definition HTTPTransportSaver_RoundTrip (txpNetwork : string) (SnapshotSize : Z)
    (RoundTrip : Request → saving (result error (Response * Reader))) (req : Request) :
    saving (result error (Response * Reader)) :=
  started ← time_Now;
  let ev := zero_EventValue <| ev_HTTPRequestHeaders := httpCloneRequestHeaders req |> <| ev_HTTPMethod := r_Method req |>
    <| ev_HTTPURL := url_String (r_URL req) |> <| ev_Transport := txpNetwork |> in
  _ ← saver_Write (EventHTTPTransactionStart (ev <| ev_Time := started |>));
  let finish (ev : EventValue) : saving unit :=
    now ← time_Now; saver_Write (EventHTTPTransactionDone (ev <| ev_Time := now |>)) in
  let since : saving Duration := now ← time_Now; mret (time_Sub now started) in
  res ← RoundTrip req;
  match res with
  | Err err =>
      duration ← since;
      failure ← saver_lift (NewFailureStr (Some err));
      _ ← finish (ev <| ev_Duration := duration |> <| ev_Err := failure |>);
      mret (Err err)
  | Val (resp, body) =>
      let ev := ev <| ev_HTTPStatusCode := StatusCode resp |> <| ev_HTTPResponseHeaders := r_RespHeader resp |> in
      let maxBodySnapshotSize := snapshotSize SnapshotSize in
      read ← saver_lift (ReadAllContext_bytes (LimitReader body maxBodySnapshotSize));
      match read with
      | Err err =>
          duration ← since;
          failure ← saver_lift (NewFailureStr (Some err));
          _ ← finish (ev <| ev_Duration := duration |> <| ev_Err := failure |>);
          mret (Err err)
      | Val data =>
          duration ← since;
          _ ← finish (ev <| ev_Duration := duration |> <| ev_HTTPResponseBody := data |>
            <| ev_HTTPResponseBodyIsTruncated := maxBodySnapshotSize <=? Z.of_nat (String.length data) |>);
          mret (Val (resp, body))
      end
  end.
End savers.
