(* ===== verification/UrlGetter.v ===== *)
(** * Getting a URL

    [pkg/experiment/urlgetter] and the DNS clients of [pkg/legacy/netx]: the experiments that came before the
    measurement traces run this getter.  The getter checks its configuration, does what the
    scheme of the target says, and turns what was observed into test keys.  The network
    answers with the error of the operation and with the archival data that [tracex] made of the events. *)
From S2P Require Import Prelude Failures GoString GoFloat GoNet GoURL Archival GoRegexp Scrubber.
From S2P Require Import NetErrors Overlapped LteControl NetDNS GoHTTP Tracing NetPrimitives Tracex.
From Stdlib Require Import Ascii.

(** ** [urlgetter.go] *)

(** [CertPool] is whether it is set. *)
Record ug_Config := mkUGConfig {
  ug_CertPool : bool;
  ug_Timeout : Duration;
  ug_DNSCache : string;
  ug_DNSHTTPHost : string;
  ug_DNSTLSServerName : string;
  ug_DNSTLSVersion : string;
  ug_FailOnHTTPError : bool;
  ug_HTTP3Enabled : bool;
  ug_HTTPHost : string;
  ug_Method : string;
  ug_NoFollowRedirects : bool;
  ug_NoTLSVerify : bool;
  ug_RejectDNSBogons : bool;
  ug_ResolverURL : string;
  ug_TLSServerName : string;
  ug_TLSVersion : string;
  ug_Tunnel : string;
  ug_UserAgent : string;
}.

Definition ug_default : ug_Config :=
  mkUGConfig false 0 "" "" "" "" false false "" "" false false false "" "" "" "" "".

Record ug_TestKeys := mkUGTestKeys {
  ugk_Agent : string;
  ugk_BootstrapTime : float64;
  ugk_DNSCache : list string;
  ugk_FailedOperation : option string;
  ugk_Failure : option string;
  ugk_NetworkEvents : list ArchivalNetworkEvent;
  ugk_Queries : list ArchivalDNSLookupResult;
  ugk_Requests : list ArchivalHTTPRequestResult;
  ugk_SOCKSProxy : string;
  ugk_TCPConnect : list ArchivalTCPConnectResult;
  ugk_TLSHandshakes : list ArchivalTLSOrQUICHandshakeResult;
  ugk_Tunnel : string;
  ugk_HTTPResponseStatus : Z;
  ugk_HTTPResponseBody : string;
  ugk_HTTPResponseLocations : list string;
}.

Definition ug_zero : ug_TestKeys := mkUGTestKeys "" float64_zero [] None None [] [] [] "" [] [] "" 0 "" [].

(** ** [model/http.go], and methods of [net/http] *)

Definition HTTPHeaderAccept : string := "text/html,application/xhtml+xml,application/xml;q=0.9,*/*;q=0.8".
Definition HTTPHeaderAcceptLanguage : string := "en-US,en;q=0.9".
Definition HTTPHeaderUserAgent : string :=
  "Mozilla/5.0 (Macintosh; Intel Mac OS X 10_15_7) AppleWebKit/605.1.15 (KHTML, like Gecko) Version/17.6 Safari/605.1.1".

Definition validMethod (method : string) : bool :=
  negb (String.eqb method "") &&
  string_forallb (λ c, is_alpha c || is_digit c || one_of c "!#$%&'*+-.^_`|~") method.

(** ** [legacy/netx/dnstransport.go] *)

(** The clients that [NewDNSClientWithOverrides] makes. *)
Inductive dns_client :=
  | SystemClient
  | HTTPSClient (URL hostOverride : string) (config : tls_Config)
  | UDPClient (endpoint : string)
  | DoTClient (endpoint : string) (config : tls_Config)
  | TCPClient (endpoint : string).

Definition makeValidEndpoint (URL : URL) : result error string :=
  match SplitHostPort (Host URL) with
  | Val _ => Val (Host URL)
  | Err _ =>
      let host := Host URL +:+ (if String.eqb (Scheme URL) "dot" then ":853" else ":53") in
      match SplitHostPort host with
      | Err err => Err (AddrError err host)
      | Val _ => Val host
      end
  end.

Section urlgetter.
(** The error of [url.Parse], and the database of [geoipx.LookupASN]. *)
Context (parse_error : string → error).
Context (LookupASN : string → Z * string).

Definition NewDNSClientWithOverrides (URL hostOverride SNIOverride TLSVersion : string) : result error dns_client :=
  let URL :=
    if String.eqb URL "doh://google" then "https://dns.google/dns-query"
    else if String.eqb URL "doh://cloudflare" then "https://cloudflare-dns.com/dns-query"
    else if String.eqb URL "" then "system:///"
    else URL in
  match url_Parse URL with
  | None => Err (parse_error URL)
  | Some resolverURL =>
      match ConfigureTLSVersion TLSVersion with
      | Err err => Err err
      | Val _ =>
          let config := mkTLSConfig [] SNIOverride false false in
          let with_endpoint (make : string → dns_client) :=
            match makeValidEndpoint resolverURL with
            | Err err => Err err
            | Val endpoint => Val (make endpoint)
            end in
          if String.eqb (Scheme resolverURL) "system" then Val SystemClient
          else if String.eqb (Scheme resolverURL) "https"
          then Val (HTTPSClient URL hostOverride (config <| cfg_NextProtos := ["h2"; "http/1.1"] |>))
          else if String.eqb (Scheme resolverURL) "udp" then with_endpoint UDPClient
          else if String.eqb (Scheme resolverURL) "dot"
          then with_endpoint (λ endpoint, DoTClient endpoint (config <| cfg_NextProtos := ["dot"] |>))
          else if String.eqb (Scheme resolverURL) "tcp" then with_endpoint TCPClient
          else Err (ErrValue "" [] "unsupported resolver scheme")
      end
  end.

(** ** [configurer.go] *)

(** A repetition without bounds of a text of [n] runes. *)
Definition RPlus (n : nat) (r : regex) : regex := RRepeat 1 n r.
Definition is_lower (c : ascii) : bool := in_range "a" "z" c.
Definition lower_alnum : regex := RClass (ascii_class (λ c, is_lower c || is_digit c)).

(** [^([a-z0-9]+(-[a-z0-9]+)*\.)+[a-z]{2,}$] *)
Definition domainregex (n : nat) : regex :=
  let label := RSeq (RPlus n lower_alnum) (RRepeat 0 n (RSeq (RChar "-") (RPlus n lower_alnum))) in
  RSeqs RBegin [RPlus n (RSeq label (RChar ".")); RRepeat 2 n (RClass (ascii_class is_lower)); REnd].

Definition domain_matches (domain : string) : bool :=
  let text := runes domain in
  match match_at (domainregex (length text)) (true, text) with Some _ => true | None => false end.

(** The loop over the entries after the first. *)
Fixpoint dns_cache_addresses (entries addresses : list string) : result error (list string) :=
  match entries with
  | [] => Val addresses
  | entry :: entries =>
      if IsNone (ParseIP entry) then Err (ErrValue "" [] "invalid IP in DNSCache")
      else dns_cache_addresses entries (addresses ++ [entry])
  end.

(** The block that fills the cache, given a string that is not empty. *)
Definition fill_dns_cache (DNSCache : string) : result error (gmap string (list string)) :=
  let entry := Split DNSCache " " in
  if (length entry <? 2)%nat then Err (ErrValue "" [] "invalid DNSCache string")
  else
    let domain := default "" (entry !! 0%nat) in
    if negb (domain_matches domain) then Err (ErrValue "" [] "invalid domain in DNSCache")
    else
      match dns_cache_addresses (drop 1 entry) [] with
      | Err err => Err err
      | Val addresses => Val {[ domain := addresses ]}
      end.

(** The part of [netx.Config] that the getter sets, and the DNS client. *)
Record Configuration := mkConfiguration {
  hc_BogonIsError : bool;
  hc_DNSCache : gmap string (list string);
  hc_HTTP3Enabled : bool;
  hc_ProxyURL : option URL;
  hc_TLSConfig : tls_Config;
  hc_TLSVersions : option (Z * Z);
  DNSClient : dns_client;
}.

Definition NewConfiguration (Config : ug_Config) (ProxyURL : option URL) : result error Configuration :=
  match (if negb (String.eqb (ug_DNSCache Config) "") then fill_dns_cache (ug_DNSCache Config) else Val ∅) with
  | Err err => Err err
  | Val DNSCache =>
      match NewDNSClientWithOverrides (ug_ResolverURL Config) (ug_DNSHTTPHost Config) (ug_DNSTLSServerName Config)
              (ug_DNSTLSVersion Config) with
      | Err err => Err err
      | Val dnsclient =>
          let TLSConfig := mkTLSConfig ["h2"; "http/1.1"] "" false false in
          let TLSConfig :=
            if negb (String.eqb (ug_TLSServerName Config) "")
            then TLSConfig <| cfg_ServerName := ug_TLSServerName Config |> else TLSConfig in
          match ConfigureTLSVersion (ug_TLSVersion Config) with
          | Err err => Err err
          | Val versions =>
              let TLSConfig := TLSConfig <| cfg_InsecureSkipVerify := ug_NoTLSVerify Config |>
                <| cfg_RootCAs := ug_CertPool Config |> in
              Val (mkConfiguration (ug_RejectDNSBogons Config) DNSCache (ug_HTTP3Enabled Config) ProxyURL
                TLSConfig versions dnsclient)
          end
      end
  end.

(** ** [runner.go] *)

Definition httpRequestFailed : string := "http_request_failed".

Definition ErrHTTPRequestFailed : error :=
  ErrWrapper httpRequestFailed TopLevelOperation (ErrValue "" [] httpRequestFailed).

Definition MaybeUserAgent (ua : string) : string := if String.eqb ua "" then HTTPHeaderUserAgent else ua.

(** The primitives that [netx] makes of a configuration, with the saver in them: the HTTP client, which
    follows redirects if it is told to, the resolver, the TLS dialer and the dialer. *)
Record primitives := mkPrimitives {
  client_Do : Configuration → bool → Request → saving (result error (Response * Reader));
  resolver_LookupHost : Configuration → string → saving (result error (list string));
  tlsDialer_DialTLSContext : Configuration → string → string → saving (result error ConnectionState);
  dialer_DialContext : Configuration → string → string → saving (result error unit);
}.

Context (net : primitives).

(** [http.NewRequest] with the method: empty is GET, and one that is not a token is refused. *)
Definition NewRequestMethod (method rawURL : string) : result error Request :=
  let method := if String.eqb method "" then "GET" else method in
  if negb (validMethod method) then Err (ErrValue "" [] ("net/http: invalid method " +:+ method))
  else match NewRequest parse_error rawURL with
       | Err err => Err err
       | Val req => Val (req <| r_Method := method |>)
       end.

Definition httpGet (Config : ug_Config) (HTTPConfig : Configuration) (url : string) : saving (option error) :=
  match NewRequestMethod (ug_Method Config) url with
  | Err _ => saver_lift (Panic "http.NewRequest failed")
  | Val req =>
      let req := req <| r_Header ::= λ h, header_Set (header_Set (header_Set h "Accept" HTTPHeaderAccept)
        "Accept-Language" HTTPHeaderAcceptLanguage) "User-Agent" (MaybeUserAgent (ug_UserAgent Config)) |> in
      let req := if negb (String.eqb (ug_HTTPHost Config) "") then req <| r_Host := ug_HTTPHost Config |> else req in
      res ← client_Do net HTTPConfig (negb (ug_NoFollowRedirects Config)) req;
      match res with
      | Err err => mret (Some err)
      | Val (resp, body) =>
          copied ← saver_lift (ReadAllContext_bytes body);
          match copied with
          | Err err => mret (Some err)
          | Val _ =>
              if (400 <=? StatusCode resp) && ug_FailOnHTTPError Config then mret (Some ErrHTTPRequestFailed)
              else mret None
          end
      end
  end.

Definition dnsLookup (HTTPConfig : Configuration) (hostname : string) : saving (option error) :=
  res ← resolver_LookupHost net HTTPConfig hostname; mret (error_of res).

Definition tlsHandshake (HTTPConfig : Configuration) (address : string) : saving (option error) :=
  res ← tlsDialer_DialTLSContext net HTTPConfig "tcp" address; mret (error_of res).

Definition tcpConnect (HTTPConfig : Configuration) (address : string) : saving (option error) :=
  res ← dialer_DialContext net HTTPConfig "tcp" address; mret (error_of res).

Definition runner_Run (Config : ug_Config) (HTTPConfig : Configuration) (Target : string) : saving (option error) :=
  match url_Parse Target with
  | None => mret (Some (ErrAround ("urlgetter: invalid target URL: " +:+ Error (parse_error Target)) (parse_error Target)))
  | Some targetURL =>
      let scheme := Scheme targetURL in
      if bool_decide (scheme ∈ ["http"; "https"]) then httpGet Config HTTPConfig Target
      else if String.eqb scheme "dnslookup" then dnsLookup HTTPConfig (Hostname targetURL)
      else if String.eqb scheme "tlshandshake" then tlsHandshake HTTPConfig (Host targetURL)
      else if String.eqb scheme "tcpconnect" then tcpConnect HTTPConfig (Host targetURL)
      else mret (Some (ErrValue "" [] "unknown targetURL scheme"))
  end.

(** ** [getter.go] *)

(** The temporary directory and the tunnel in it: its bootstrap time and its proxy. *)
Context (start_tunnel : string → saving (result error (Duration * URL))).

Definition getter_get (Config : ug_Config) (Target : string) : saving (ug_TestKeys * option error) :=
  let tk := ug_zero <| ugk_Agent := "redirect" |> <| ugk_Tunnel := ug_Tunnel Config |> in
  let tk := if negb (String.eqb (ug_DNSCache Config) "") then tk <| ugk_DNSCache := [ug_DNSCache Config] |> else tk in
  let tk := if ug_NoFollowRedirects Config then tk <| ugk_Agent := "agent" |> else tk in
  let run (tk : ug_TestKeys) (proxyURL : option URL) : saving (ug_TestKeys * option error) :=
    match NewConfiguration Config proxyURL with
    | Err err => mret (tk, Some err)
    | Val configuration => err ← runner_Run Config configuration Target; mret (tk, err)
    end in
  if negb (String.eqb (ug_Tunnel Config) "") then
    tun ← start_tunnel (ug_Tunnel Config);
    match tun with
    | Err err => mret (tk, Some err)
    | Val (bootstrap, proxyURL) =>
        run (tk <| ugk_BootstrapTime := Seconds bootstrap |> <| ugk_SOCKSProxy := url_String proxyURL |>) (Some proxyURL)
    end
  else run tk None.

(** A computation with a saver of its own, and the events that it leaves there. *)
Definition with_new_saver {A} (m : saving A) : saving (A * list Event) := λ outer,
  '(a, saver) ← m (new_Saver (sv_timeNow outer) (sv_readings outer));
  let '(events, saver) := saver_Read saver in
  Ok ((a, events), outer <| sv_readings := sv_readings saver |>).

(** What [Get] adds to the test keys for the events. *)
Definition getter_events (Begin : Time) (tk : ug_TestKeys) (events : list Event) : ug_TestKeys :=
  let tk := tk <| ugk_Queries ::= λ l, l ++ NewDNSQueriesList LookupASN Begin events |>
    <| ugk_NetworkEvents ::= λ l, l ++ NewNetworkEventsList Begin events |>
    <| ugk_Requests ::= λ l, l ++ NewRequestList Begin events |> in
  let tk :=
    match ugk_Requests tk with
    | [] => tk
    | request :: _ =>
        tk <| ugk_HTTPResponseStatus := resp_Code (http_Response request) |>
           <| ugk_HTTPResponseBody := resp_Body (http_Response request) |>
           <| ugk_HTTPResponseLocations := resp_Locations (http_Response request) |>
    end in
  tk <| ugk_TCPConnect ::= λ l, l ++ NewTCPConnectList Begin events |>
     <| ugk_TLSHandshakes ::= λ l, l ++ NewTLSHandshakesList Begin events |>.

(** What [Get] does with the result of [get]: the error is wrapped, then the failure and the events are filled in. *)
Definition getter_fill (Begin : Time) (tk : ug_TestKeys) (err : option error) (events : list Event) :
    outcome (ug_TestKeys * option error) :=
  err ← match err with Some _ => Some <$> NewTopLevelGenericErrWrapper err | None => Ok None end;
  failure ← tracex_NewFailure err;
  let tk := tk <| ugk_FailedOperation := NewFailedOperation err |> <| ugk_Failure := failure |> in
  Ok (getter_events Begin tk events, err).

(** A [Begin] that is zero is now. *)
Definition getter_Get (Begin : option Time) (Config : ug_Config) (Target : string) : saving (ug_TestKeys * option error) :=
  Begin ← match Begin with Some Begin => mret Begin | None => time_Now end;
  '((tk, err), events) ← with_new_saver (getter_get Config Target);
  saver_lift (getter_fill Begin tk err events).

(** ** [urlgetter.go] *)

(** The timeout that applies, and the test keys of the measurement. *)
Definition urlgetter_Run (Config : ug_Config) (Input : string) : saving (Duration * ug_TestKeys) :=
  let Config := if ug_Timeout Config <=? 0 then Config <| ug_Timeout := 45 * 1000000000 |> else Config in
  '(tk, _) ← getter_Get None Config Input;
  mret (ug_Timeout Config, tk).
End urlgetter.

(** ** What a getter returns

    Whatever the network answers, the getter returns test keys that tell whether it failed
    and how, and that list what was observed.  A configuration may still crash it: a method
    that is not a token; and the domains of internationalised names are refused by the cache. *)

(** ** Loops *)

Lemma foldl_app_omap {A B} (f : A → option B) l acc :
  foldl (λ out x, match f x with Some y => out ++ [y] | None => out end) acc l = acc ++ omap f l.
Proof.
  revert acc. induction l as [|x l IH]; intros acc; csimpl; [by rewrite app_nil_r|].
  rewrite IH. destruct (f x); [by rewrite <-app_assoc|done].
Qed.

Lemma from_last_reverse {A} (l : list A) : from_last l (length l) [] = reverse l.
Proof.
  enough (Hgen : ∀ n out, (n ≤ length l)%nat → from_last l n out = out ++ reverse (take n l)).
  { by rewrite Hgen, firstn_all. }
  induction n as [|n IH]; intros out Hn; cbn; [by rewrite app_nil_r|].
  destruct (lookup_lt_is_Some_2 l n) as [x Hx]; [lia|]. rewrite Hx, IH by lia.
  rewrite (take_S_r _ _ x Hx), reverse_app. cbn. by rewrite <-app_assoc.
Qed.

(** The transactions that are done. *)
Definition transaction_done (ev : Event) : option EventValue :=
  match ev with EventHTTPTransactionDone V => Some V | _ => None end.
Definition transactions (events : list Event) : list EventValue := omap transaction_done events.

Lemma NewRequestList_spec begin events : NewRequestList begin events = reverse (request_entry begin <$> transactions events).
Proof.
  unfold NewRequestList. cbn zeta. rewrite from_last_reverse. f_equal. unfold newRequestList, transactions.
  enough (Hgen : ∀ acc, foldl (λ out wrapper,
    match wrapper with EventHTTPTransactionDone ev => out ++ [request_entry begin ev] | _ => out end) acc events =
    acc ++ (request_entry begin <$> omap transaction_done events)) by apply Hgen.
  induction events as [|ev events IH]; intros acc; csimpl; [by rewrite app_nil_r|].
  rewrite IH. destruct ev; csimpl; rewrite <-?app_assoc; done.
Qed.

Lemma NewTCPConnectList_spec begin events : NewTCPConnectList begin events = omap (tcp_connect_entry begin) events.
Proof. unfold NewTCPConnectList. by rewrite foldl_app_omap. Qed.

(** ** Errors *)

Lemma no_wrapper id also msg : wrappers_ok (ErrValue id also msg).
Proof. intros f o e Hin. cbn in Hin. by apply list_elem_of_singleton in Hin. Qed.

Lemma around_ok msg err : wrappers_ok err → wrappers_ok (ErrAround msg err).
Proof. intros Hw f o e Hin. cbn [tree] in Hin. apply elem_of_cons in Hin as [?|Hin]; [done|by eapply Hw]. Qed.

(** The errors of a getter: the ones of the primitives, and the one for a status code. *)
Definition getter_error (err : error) : Prop := wrappers_ok err ∨ err = ErrHTTPRequestFailed.

(** ** Computations that return *)

(** A computation returns, and its result satisfies [P]. *)
Definition returns {A} (m : saving A) (P : A → Prop) : Prop := ∀ s, ∃ a s', m s = Ok (a, s') ∧ P a.

Lemma returns_ret {A} (a : A) (P : A → Prop) : P a → returns (mret a) P.
Proof. intros Hp s. by exists a, s. Qed.

Lemma returns_bind {A B} (m : saving A) (f : A → saving B) (P : A → Prop) (Q : B → Prop) :
  returns m P → (∀ a, P a → returns (f a) Q) → returns (m ≫= f) Q.
Proof.
  intros Hm Hf s. destruct (Hm s) as (a & s1 & E & Ha). destruct (Hf a Ha s1) as (b & s2 & E2 & Hb).
  exists b, s2. split; [|done]. unfold mbind, saving_bind. rewrite E. by cbn.
Qed.

Lemma returns_lift {A} (m : outcome A) a (P : A → Prop) : m = Ok a → P a → returns (saver_lift m) P.
Proof. intros -> Hp s. by exists a, s. Qed.

Lemma returns_clock P : (∀ t, P t) → returns time_Now P.
Proof. intros Hp s. by eexists _, _. Qed.

Lemma returns_impl {A} (m : saving A) (P Q : A → Prop) : returns m P → (∀ a, P a → Q a) → returns m Q.
Proof. intros Hm Hpq s. destruct (Hm s) as (a & s' & ? & ?). exists a, s'. auto. Qed.

Lemma returns_new_saver {A} (m : saving A) (P : A → Prop) : returns m P → returns (with_new_saver m) (λ '(a, _), P a).
Proof.
  intros Hm outer. destruct (Hm (new_Saver (sv_timeNow outer) (sv_readings outer))) as (a & s & E & Ha).
  eexists (_, _), _. unfold with_new_saver. rewrite E. by cbn.
Qed.

Create HintDb returns.
#[export] Hint Resolve no_wrapper around_ok : returns.

(** The error of a primitive. *)
Definition res_ok {A} (res : result error A) : Prop := ∀ err, res = Err err → wrappers_ok err.

Lemma ReadAllContext_bytes_returns (r : Reader) (P : result error string → Prop) :
  (∀ err, r.2 = Some err → wrappers_ok err) → (∀ res, res_ok res → P res) → returns (saver_lift (ReadAllContext_bytes r)) P.
Proof.
  intros Hr Hp. unfold ReadAllContext_bytes. destruct r.2 as [err|].
  2: { eapply returns_lift; [done|]. by apply Hp. }
  destruct (errors_Is err "EOF"); [by eapply returns_lift; [done|]; apply Hp|].
  destruct (NewErrWrapper_ok ClassifyGenericError TopLevelOperation err) as (e & E & He & _); [done|by apply Hr|by apply generic_ok, Hr|].
  unfold NewTopLevelGenericErrWrapper. rewrite E. eapply returns_lift; [done|]. apply Hp. intros ? [= <-]. done.
Qed.

(** *** The savers return when what they wrap returns *)

Lemma NewFailureStr_ok err : ∃ f, NewFailureStr err = Ok f.
Proof.
  destruct err as [err|]; [|by eexists]. unfold NewFailureStr, NewTopLevelGenericErrWrapper, NewErrWrapper.
  destruct (errors_As as_ErrWrapper err) as [[[f op] inner]|] eqn:E; cbn [mbind option_bind outcome_bind]; [by eexists|].
  rewrite E. cbn [mbind outcome_bind]. rewrite bool_decide_eq_false_2 by done. cbn [mbind outcome_bind].
  rewrite as_ErrWrapper_self. by eexists.
Qed.

Lemma NewFailureStr_returns err (P : string → Prop) : (∀ f, P f) → returns (saver_lift (NewFailureStr err)) P.
Proof. intros Hp. destruct (NewFailureStr_ok err) as [f E]. by eapply returns_lift. Qed.

Lemma saver_Write_returns ev : returns (saver_Write ev) (λ _, True).
Proof. intros s. by eexists _, _. Qed.

#[local] Ltac observe :=
  repeat first
    [ eapply (returns_bind time_Now _ (λ _, True)); [by apply returns_clock|]; intros ? _; cbv zeta beta iota
    | eapply (returns_bind (saver_Write _) _ (λ _, True)); [apply saver_Write_returns|]; intros ? _; cbv zeta beta iota
    | eapply (returns_bind (saver_lift (NewFailureStr _)) _ (λ _, True)); [by apply NewFailureStr_returns|]; intros ? _; cbv zeta beta iota ].

Lemma DialerSaver_returns {Conn} (d : string → string → saving (result error Conn)) network address P :
  returns (d network address) P → returns (DialerSaver_DialContext d network address) P.
Proof.
  intros Hd. unfold DialerSaver_DialContext. observe. eapply returns_bind; [exact Hd|]. intros res Hres. observe.
  by apply returns_ret.
Qed.

Lemma ResolverSaver_returns reso (lookup : string → saving (result error (list string))) hostname P :
  returns (lookup hostname) P → returns (ResolverSaver_LookupHost reso lookup hostname) P.
Proof.
  intros Hd. unfold ResolverSaver_LookupHost. observe. eapply returns_bind; [exact Hd|]. intros res Hres. observe.
  by apply returns_ret.
Qed.

Lemma TLSHandshakerSaver_returns remote config (h : saving (result error ConnectionState)) P :
  returns h P → returns (TLSHandshakerSaver_Handshake remote config h) P.
Proof.
  intros Hd. unfold TLSHandshakerSaver_Handshake. observe. eapply returns_bind; [exact Hd|]. intros res Hres. observe.
  by apply returns_ret.
Qed.

(** The answers of an HTTP transport. *)
Definition response_ok (res : result error (Response * Reader)) : Prop :=
  res_ok res ∧ ∀ resp body err, res = Val (resp, (body, Some err)) → wrappers_ok err.

Lemma HTTPTransportSaver_returns network size (txp : Request → saving (result error (Response * Reader))) req :
  returns (txp req) response_ok → returns (HTTPTransportSaver_RoundTrip network size txp req) response_ok.
Proof.
  intros Hd. unfold HTTPTransportSaver_RoundTrip. observe. eapply returns_bind; [exact Hd|].
  intros [[resp [data berr]]|err] [Hr Hb]; cbv zeta beta iota.
  - eapply (returns_bind _ _ res_ok).
    { apply ReadAllContext_bytes_returns; [|done]. unfold LimitReader. cbn. case_match; [done|]. cbn. intros err ->. by eapply Hb. }
    intros [body|err] Hread; (eapply (returns_bind _ _ (λ _, True)); [observe; by apply returns_ret|]); intros ? _; observe;
      (eapply (returns_bind _ _ (λ _, True)); [observe; apply saver_Write_returns|]); intros ? _; apply returns_ret; [done|].
    split; [|done]. intros e [= <-]. by apply Hread.
  - eapply (returns_bind _ _ (λ _, True)); [observe; by apply returns_ret|]. intros ? _. observe.
    eapply (returns_bind _ _ (λ _, True)); [observe; apply saver_Write_returns|]. intros ? _. by apply returns_ret.
Qed.

Section getter.
Context (parse_error : string → error) (LookupASN : string → Z * string).
Context (net : primitives) (start_tunnel : string → saving (result error (Duration * URL))).

(** The network answers, with errors whose wrappers have failure strings of the specification. *)
Record good_network : Prop := {
  good_parse url : wrappers_ok (parse_error url);
  good_Do c redirects req : returns (client_Do net c redirects req) response_ok;
  good_LookupHost c hostname : returns (resolver_LookupHost net c hostname) res_ok;
  good_DialTLS c network address : returns (tlsDialer_DialTLSContext net c network address) res_ok;
  good_Dial c network address : returns (dialer_DialContext net c network address) res_ok;
  good_tunnel name : returns (start_tunnel name) res_ok;
}.

Definition method_ok (Config : ug_Config) : Prop := ug_Method Config = "" ∨ validMethod (ug_Method Config) = true.

Context (Hnet : good_network).

Definition error_ok (err : option error) : Prop := ∀ e, err = Some e → getter_error e.

(** Test keys into which no event went yet. *)
Record unobserved (tk : ug_TestKeys) : Prop := {
  un_Queries : ugk_Queries tk = [];
  un_NetworkEvents : ugk_NetworkEvents tk = [];
  un_Requests : ugk_Requests tk = [];
  un_TCPConnect : ugk_TCPConnect tk = [];
  un_TLSHandshakes : ugk_TLSHandshakes tk = [];
  un_Status : ugk_HTTPResponseStatus tk = 0;
  un_Body : ugk_HTTPResponseBody tk = "";
  un_Locations : ugk_HTTPResponseLocations tk = [];
}.

Lemma error_of_ok {A} (res : result error A) : res_ok res → error_ok (error_of res).
Proof. destruct res as [v|err]; [by intros _ e|]. intros Hr e [= <-]. left. by apply Hr. Qed.

Lemma NewRequestMethod_ok Config url : method_ok Config → is_Some (url_Parse url) → ∃ req, NewRequestMethod parse_error (ug_Method Config) url = Val req.
Proof.
  intros Hm [u Hu]. unfold NewRequestMethod, NewRequest. rewrite Hu.
  destruct Hm as [->|Hm]; [by eexists|]. cbn zeta. destruct (String.eqb (ug_Method Config) ""); [by eexists|].
  rewrite Hm. by eexists.
Qed.

Lemma httpGet_returns Config c url : method_ok Config → is_Some (url_Parse url) → returns (httpGet parse_error net Config c url) error_ok.
Proof.
  intros Hm Hu. unfold httpGet. destruct (NewRequestMethod_ok Config url Hm Hu) as [req ->]. cbn zeta.
  eapply returns_bind; [apply (good_Do Hnet)|]. intros [[resp body]|err] [Hr Hb].
  2: { apply returns_ret. intros e [= <-]. left. by apply Hr. }
  eapply returns_bind; [apply ReadAllContext_bytes_returns with (P := res_ok); [|done]|].
  { intros err E. destruct body as [data berr]. cbn in E. subst berr. by eapply Hb. }
  intros [data|err] Hread; [|apply returns_ret; intros e [= <-]; left; by apply Hread].
  case_match; apply returns_ret; [|by intros e]. intros e [= <-]. by right.
Qed.

Lemma runner_Run_returns Config c target : method_ok Config → returns (runner_Run parse_error net Config c target) error_ok.
Proof.
  intros Hm. unfold runner_Run. destruct (url_Parse target) as [u|] eqn:Hu.
  2: { apply returns_ret. intros e [= <-]. left. apply around_ok, (good_parse Hnet). }
  cbn zeta. case_match; [apply httpGet_returns; [done|by eexists]|].
  repeat case_match.
  - eapply returns_bind; [apply (good_LookupHost Hnet)|]. intros res Hr. by apply returns_ret, error_of_ok.
  - eapply returns_bind; [apply (good_DialTLS Hnet)|]. intros res Hr. by apply returns_ret, error_of_ok.
  - eapply returns_bind; [apply (good_Dial Hnet)|]. intros res Hr. by apply returns_ret, error_of_ok.
  - apply returns_ret. intros e [= <-]. left. apply no_wrapper.
Qed.

Lemma dns_cache_ok DNSCache : res_ok (fill_dns_cache DNSCache).
Proof.
  intros err. unfold fill_dns_cache. cbn zeta.
  assert (Hc : ∀ entries acc e, dns_cache_addresses entries acc = Err e → wrappers_ok e).
  { induction entries as [|entry entries IH]; intros acc e; cbn [dns_cache_addresses]; [done|].
    case_match; [intros [= <-]; apply no_wrapper|by eapply IH]. }
  case_match; [intros [= <-]; apply no_wrapper|]. case_match; [intros [= <-]; apply no_wrapper|].
  case_match; [done|]. intros [= <-]. by eapply Hc.
Qed.

Lemma makeValidEndpoint_ok u : res_ok (makeValidEndpoint u).
Proof. intros err. unfold makeValidEndpoint, AddrError. repeat case_match; intros [= <-]; apply no_wrapper. Qed.

Lemma ConfigureTLSVersion_ok version : res_ok (ConfigureTLSVersion version).
Proof. intros err. unfold ConfigureTLSVersion. repeat case_match; intros [= <-]; apply no_wrapper. Qed.

Lemma NewDNSClient_ok URL host sni version : res_ok (NewDNSClientWithOverrides parse_error URL host sni version).
Proof.
  intros err. unfold NewDNSClientWithOverrides. generalize (if String.eqb URL "doh://google" then "https://dns.google/dns-query"
    else if String.eqb URL "doh://cloudflare" then "https://cloudflare-dns.com/dns-query" else if String.eqb URL "" then "system:///" else URL).
  intros url. cbn zeta. destruct (url_Parse url) as [u|]; [|intros [= <-]; apply (good_parse Hnet)].
  pose proof (ConfigureTLSVersion_ok version) as Hv. destruct (ConfigureTLSVersion version); [|intros [= <-]; by apply Hv].
  pose proof (makeValidEndpoint_ok u) as He. destruct (makeValidEndpoint u) as [|e].
  - repeat case_match; intros [= <-]. apply no_wrapper.
  - repeat case_match; intros [= <-]; first [apply no_wrapper|by apply He].
Qed.

Lemma NewConfiguration_ok Config proxy : res_ok (NewConfiguration parse_error Config proxy).
Proof.
  intros err. unfold NewConfiguration.
  match goal with |- context [match ?m with Val _ => _ | Err _ => _ end] => assert (Hd : res_ok m); [|destruct m] end.
  { case_match; [apply dns_cache_ok|done]. }
  2: { intros [= <-]. by apply Hd. }
  match goal with |- context [NewDNSClientWithOverrides ?p ?a ?b ?c ?d] =>
    pose proof (NewDNSClient_ok a b c d) as Hc; destruct (NewDNSClientWithOverrides p a b c d) end; [|intros [= <-]; by apply Hc].
  cbn zeta. pose proof (ConfigureTLSVersion_ok (ug_TLSVersion Config)) as Hv.
  destruct (ConfigureTLSVersion _); [done|]. intros [= <-]. by apply Hv.
Qed.

Lemma getter_get_returns Config target :
  method_ok Config → returns (getter_get parse_error net start_tunnel Config target) (λ '(tk, err), error_ok err ∧ unobserved tk).
Proof.
  intros Hm. unfold getter_get. cbn zeta.
  assert (Hrun : ∀ tk proxy, unobserved tk →
    returns (match NewConfiguration parse_error Config proxy with
      | Err err => mret (tk, Some err)
      | Val configuration => err ← runner_Run parse_error net Config configuration target; mret (tk, err) end)
    (λ '(tk, err), error_ok err ∧ unobserved tk)).
  { intros tk proxy Htk. pose proof (NewConfiguration_ok Config proxy) as Hc. destruct (NewConfiguration _ _ _) as [c|err].
    - eapply returns_bind; [by apply runner_Run_returns|]. intros err He. by apply returns_ret.
    - apply returns_ret. split; [|done]. intros e [= <-]. left. by apply Hc. }
  match goal with |- context [if ?b then tun ← _; _ else _] => destruct b end.
  2: { apply Hrun. by repeat case_match. }
  eapply returns_bind; [apply (good_tunnel Hnet)|]. intros [[bootstrap proxy]|err] Htun.
  - apply Hrun. by repeat case_match.
  - apply returns_ret. split; [intros e [= <-]; left; by apply Htun|]. by repeat case_match.
Qed.

(** ** The result of the getter *)

(** What the failure of the test keys says. *)
Definition failure_fields (tk : ug_TestKeys) (err : option error) : Prop :=
  (ugk_Failure tk = None ↔ err = None) ∧ (ugk_FailedOperation tk = None ↔ err = None) ∧
  ∀ f, ugk_Failure tk = Some f → failure_ok f ∨ f = httpRequestFailed.

(** Every list has the entries of the events; the requests have the last transaction
    first, whose response is the one of the other fields. *)
Record lists_events (begin : Time) (tk : ug_TestKeys) (events : list Event) : Prop := {
  le_Requests : ugk_Requests tk = reverse (request_entry begin <$> transactions events);
  le_Status : ugk_HTTPResponseStatus tk = default 0 (ev_HTTPStatusCode <$> last (transactions events));
  le_Body : ugk_HTTPResponseBody tk = default "" (ev_HTTPResponseBody <$> last (transactions events));
  le_Locations : ugk_HTTPResponseLocations tk =
    default [] ((λ ev, default [] (ev_HTTPResponseHeaders ev !! "Location")) <$> last (transactions events));
  le_TCPConnect : ugk_TCPConnect tk = omap (tcp_connect_entry begin) events;
  le_Queries : ugk_Queries tk = NewDNSQueriesList LookupASN begin events;
  le_NetworkEvents : ugk_NetworkEvents tk = NewNetworkEventsList begin events;
  le_TLSHandshakes : ugk_TLSHandshakes tk = NewTLSHandshakesList begin events;
}.

Lemma getter_events_fields begin tk events :
  ugk_Failure (getter_events LookupASN begin tk events) = ugk_Failure tk ∧
  ugk_FailedOperation (getter_events LookupASN begin tk events) = ugk_FailedOperation tk.
Proof. unfold getter_events. cbn zeta. destruct tk. cbn. split; by destruct (_ ++ _ : list ArchivalHTTPRequestResult). Qed.

Lemma getter_events_lists begin tk events :
  unobserved tk → lists_events begin (getter_events LookupASN begin tk events) events.
Proof.
  intros [Hq Hn Hr Ht Hh Hs Hb Hl]. unfold getter_events. cbn zeta. destruct tk. cbn in Hq, Hn, Hr, Ht, Hh, Hs, Hb, Hl.
  subst. cbn. unfold constant. rewrite NewRequestList_spec, NewTCPConnectList_spec. cbn.
  destruct (last (transactions events)) as [ev|] eqn:El.
  - apply last_Some in El as [l El]. rewrite El, fmap_app, reverse_app.
    split; cbn; rewrite ?El, ?last_snoc, ?fmap_app, ?reverse_app; done.
  - pose proof El as El0. apply last_None in El0. rewrite El0. split; cbn; rewrite ?El0; done.
Qed.

(** The error of the getter once it is wrapped. *)
Lemma getter_error_failure err : getter_error err → ∃ e failure operation, NewTopLevelGenericErrWrapper (Some err) = Ok e ∧
  tracex_NewFailure (Some e) = Ok (Some failure) ∧ NewFailedOperation (Some e) = Some operation ∧
  (failure_ok failure ∨ failure = httpRequestFailed).
Proof.
  assert (Hop : ∀ e, ∃ operation, NewFailedOperation (Some e) = Some operation).
  { intros e. unfold NewFailedOperation. repeat case_match; by eexists. }
  intros [Hw| ->].
  - destruct (control_failure err Hw) as (e & failure & E & Hf & Hok). destruct (Hop e) as [operation Ho].
    exists e, failure, operation. split_and!; [done..|by left].
  - eexists _, _, _. split_and!; [by vm_compute..|by right].
Qed.

Lemma getter_fill_ok begin tk err events :
  error_ok err → unobserved tk → ∃ tk' err', getter_fill LookupASN begin tk err events = Ok (tk', err') ∧
    (err' = None ↔ err = None) ∧ failure_fields tk' err' ∧ lists_events begin tk' events.
Proof.
  intros Herr Htk. unfold getter_fill, failure_fields.
  assert (Hfields : ∀ operation failure (tk' := tk <| ugk_FailedOperation := operation |> <| ugk_Failure := failure |>),
    ugk_Failure (getter_events LookupASN begin tk' events) = failure ∧
    ugk_FailedOperation (getter_events LookupASN begin tk' events) = operation ∧
    lists_events begin (getter_events LookupASN begin tk' events) events).
  { intros. destruct (getter_events_fields begin tk' events) as [-> ->]. split_and!; [done..|].
    apply getter_events_lists. subst tk'. destruct Htk, tk. by split. }
  destruct err as [err|].
  - destruct (getter_error_failure err (Herr err eq_refl)) as (e & failure & operation & -> & Hf & Ho & Hok).
    cbn [fmap outcome_fmap mbind outcome_bind]. rewrite Hf, Ho. cbn [mbind outcome_bind]. eexists _, _. split; [done|].
    split; [done|]. destruct (Hfields (Some operation) (Some failure)) as (-> & -> & Hl). split_and!; [done|done| |done].
    by intros f [= <-].
  - cbn [fmap outcome_fmap mbind outcome_bind]. change (tracex_NewFailure None) with (Ok (@None string)). change (NewFailedOperation None) with (@None string).
    cbn [mbind outcome_bind]. eexists _, _. split; [done|]. split; [done|].
    destruct (Hfields None None) as (-> & -> & Hl). by split_and!.
Qed.

(** The time that a getter starts with, and the saver that it makes. *)
Definition begin_of (Begin : option Time) (s : Saver) : Time := default (sv_timeNow s (sv_readings s)) Begin.
Definition saver_of (Begin : option Time) (s : Saver) : Saver :=
  new_Saver (sv_timeNow s) (if Begin is Some _ then sv_readings s else S (sv_readings s)).

(** What a getter promises: [get] runs with a new saver, and the test keys say whether it failed
    and how, and list what it left in that saver. *)
Definition getter_promises Begin Config Target (s : Saver) (tk : ug_TestKeys) (err : option error) : Prop :=
  ∃ tk0 err0 saver, getter_get parse_error net start_tunnel Config Target (saver_of Begin s) = Ok ((tk0, err0), saver) ∧
    (err = None ↔ err0 = None) ∧ failure_fields tk err ∧ lists_events (begin_of Begin s) tk (sv_ops saver).

Lemma getter_Get_promises Begin Config Target s :
  method_ok Config →
  ∃ tk err s', getter_Get parse_error LookupASN net start_tunnel Begin Config Target s = Ok ((tk, err), s') ∧
    getter_promises Begin Config Target s tk err.
Proof.
  intros Hm. destruct s as [ops timeNow readings]. set (s := mkSaver ops timeNow readings).
  destruct (getter_get_returns Config Target Hm (saver_of Begin s)) as ([tk0 err0] & saver & E & Herr & Htk).
  destruct (getter_fill_ok (begin_of Begin s) tk0 err0 (sv_ops saver) Herr Htk) as (tk & err & Ef & Hsame & Hf & Hl).
  exists tk, err. eexists. split; [|by exists tk0, err0, saver].
  unfold getter_Get, mbind, saving_bind, with_new_saver.
  destruct Begin as [begin|]; cbn [saver_of begin_of default] in *; cbn; unfold constant;
    unfold saver_of in E; cbn in E; rewrite E; cbn; unfold saver_lift, id in *; cbn in Ef; by rewrite Ef.
Qed.

Lemma getter_Get_returns Begin Config Target :
  method_ok Config → returns (getter_Get parse_error LookupASN net start_tunnel Begin Config Target) (λ _, True).
Proof. intros Hm s. destruct (getter_Get_promises Begin Config Target s Hm) as (tk & err & s' & E & _). by eexists (_, _), _. Qed.

(** C16: a getter always returns, unless its method is not a token, whatever the target and the configuration, on a
    network that answers every call (the calls return, with errors that are wrapped as the specification says): it
    fails exactly when its run failed; no error means no failure and no failed operation; a failure is a string of the specification or
    the one for an HTTP status; and its lists are those of the events that its run left in its own saver: the
    requests are the transactions that were done, the last first, the status code, the body and the locations are those of the
    last transaction, also when it failed, and the lookups, connects, handshakes and network events are all there. *)
Theorem getter_Get_spec Begin Config Target (Hm : method_ok Config) s :
  ∃ tk err s', getter_Get parse_error LookupASN net start_tunnel Begin Config Target s = Ok ((tk, err), s') ∧
    getter_promises Begin Config Target s tk err.
Proof. by apply getter_Get_promises. Qed.
End getter.

(** ** A network that answers 404, and refuses everything else *)

Definition refused : error := ErrErrno ECONNREFUSED "connect: connection refused".
Definition sample_Do (c : Configuration) (redirects : bool) : Request → saving (result error (Response * Reader)) :=
  HTTPTransportSaver_RoundTrip "tcp" 0 (λ _, mret (Val (mkResponse 404 ∅ None, ("gone", None)))).
Definition sample_Dial (c : Configuration) : string → string → saving (result error unit) :=
  DialerSaver_DialContext (λ _ _, mret (Err refused)).
Definition sample_net : primitives :=
  mkPrimitives sample_Do (λ _, ResolverSaver_LookupHost ("system", "") (λ _, mret (Val ["1.1.1.1"; "2606:4700:4700::1111"])))
    (λ _ _ _, mret (Err refused)) sample_Dial.
Definition sample_url_error (s : string) : error := ErrValue "" [] ("parse: invalid URL " +:+ s).
Definition no_tunnel (name : string) : saving (result error (Duration * URL)) := mret (Err (ErrValue "" [] "unsupported tunnel")).

Lemma refused_ok : wrappers_ok refused.
Proof. intros f o e Hin. cbn in Hin. by apply list_elem_of_singleton in Hin. Qed.

Lemma sample_net_good : good_network sample_url_error sample_net no_tunnel.
Proof.
  unfold sample_net, sample_Do, sample_Dial. constructor; cbn [client_Do resolver_LookupHost tlsDialer_DialTLSContext dialer_DialContext].
  - intros url. apply no_wrapper.
  - intros c r req. apply HTTPTransportSaver_returns, returns_ret. split; [by intros err|]. by intros resp body err [= <- <-].
  - intros c hostname. apply ResolverSaver_returns, returns_ret. by intros err.
  - intros c network address. apply returns_ret. intros err [= <-]. apply refused_ok.
  - intros c network address. apply DialerSaver_returns, returns_ret. intros err [= <-]. apply refused_ok.
  - intros name. apply returns_ret. intros err [= <-]. apply no_wrapper.
Qed.

Definition sample_saver : Saver := new_Saver (λ n, Z.of_nat n) 0.

(** A page that is not found is a failure only for a getter that wants it. *)
Definition sample_get (Config : ug_Config) (Target : string) : option (option string * option string * Z * list Z) :=
  match getter_Get sample_url_error (λ _, (0, "")) sample_net no_tunnel None Config Target sample_saver with
  | Ok ((tk, _), _) => Some (ugk_Failure tk, ugk_FailedOperation tk, ugk_HTTPResponseStatus tk,
      map (λ r, resp_Code (http_Response r)) (ugk_Requests tk))
  | Panic _ => None
  end.

Example get_not_found : sample_get ug_default "https://x.org/" = Some (None, None, 404, [404]).
Proof. vm_compute. reflexivity. Qed.

Example get_not_found_fails :
  sample_get (ug_default <| ug_FailOnHTTPError := true |>) "https://x.org/" =
  Some (Some "http_request_failed", Some "top_level", 404, [404]).
Proof. vm_compute. reflexivity. Qed.

Example get_refused : sample_get ug_default "tcpconnect://1.1.1.1:443" = Some (Some "connection_refused", Some "top_level", 0, []).
Proof. vm_compute. reflexivity. Qed.

Lemma getter_Get_spec_witness :
  good_network sample_url_error sample_net no_tunnel ∧ method_ok ug_default ∧
  ∃ tk err s', getter_Get sample_url_error (λ _, (0, "")) sample_net no_tunnel None ug_default "https://x.org/" sample_saver = Ok ((tk, err), s') ∧
    getter_promises sample_url_error (λ _, (0, "")) sample_net no_tunnel None ug_default "https://x.org/" sample_saver tk err.
Proof.
  split; [exact sample_net_good|]. split; [by left|].
  exact (getter_Get_spec sample_url_error (λ _, (0, "")) sample_net no_tunnel sample_net_good None ug_default "https://x.org/"
    (or_introl eq_refl) sample_saver).
Defined.

(** ** Configurations that the getter does not handle *)

(** A method that is not a token crashes the program, since [http.NewRequest] refuses it. *)
Lemma invalid_method_panics :
  getter_Get sample_url_error (λ _, (0, "")) sample_net no_tunnel None (ug_default <| ug_Method := "GET /" |>) "https://x.org/" sample_saver =
  Panic "http.NewRequest failed".
Proof. vm_compute. reflexivity. Qed.

(** The cache takes a name, and refuses the form that internationalised names have in the DNS. *)
Lemma cache_refuses_idn :
  domain_matches "dns.google" = true ∧ domain_matches "a-b.example.com" = true ∧
  domain_matches "xn--80ak6aa92e.com" = false ∧ domain_matches "WWW.example.com" = false ∧ domain_matches "a_b.example.com" = false.
Proof. vm_compute. done. Qed.
