(* ===== verification/UrlMulti.v ===== *)
(** * Several getters in parallel

    [pkg/experiment/urlgetter/multi.go]: a source, a pool of workers and a collector that
    talk through channels without buffers, as a step relation.  A getter that runs may answer
    what the relation [runs] says.  In every reachable state the inputs are accounted for;
    every execution is bounded and ends with one output per input. *)
From S2P Require Import Prelude GoString GoFloat NetErrors.

Definition ErrorToStringOrOK (err : option error) : string :=
  match err with Some err => Error err | None => "ok" end.

Section multi.
Context {Config TestKeys : Type}.

Record MultiInput := mkMultiInput { mi_Config : Config; mi_Target : string }.
Record MultiOutput := mkMultiOutput { mo_Input : MultiInput; mo_Err : option error; mo_TestKeys : TestKeys }.

(** A goroutine of [do]: at the receive, running the getter, at the send, or returned. *)
Inductive multi_worker :=
  | AtReceive
  | InGetter (input : MultiInput)
  | AtSend (output : MultiOutput)
  | Exited.

Definition defaultParallelism : Z := 3.

Definition multi_parallelism (Parallelism : Z) : nat :=
  Z.to_nat (if Parallelism <=? 0 then defaultParallelism else Parallelism).

(** The inputs that [source] has not sent, the workers, and [collect]: its counters, the entry it is about to
    send, the calls of [OnProgress], what was sent to the caller, and whether the channel is closed. *)
Record multi := mkMulti {
  ms_source : list MultiInput;
  ms_workers : list multi_worker;
  ms_index : nat;
  ms_count : Z;
  ms_entry : option MultiOutput;
  ms_progress : list (float64 * string);
  ms_emitted : list MultiOutput;
  ms_closed : bool;
}.

(** [CollectOverall] once the goroutines are started. *)
Definition multi_start (parallelism : nat) (inputs : list MultiInput) (overallStartIndex : Z) : multi :=
  mkMulti inputs (replicate parallelism AtReceive) 0 overallStartIndex None [] [] false.

(** [callbacks.OnProgress(percentage, fmt.Sprintf(...))] *)
Definition progress_of (prefix : string) (overallCount count : Z) (entry : MultiOutput) : float64 * string :=
  (float64_div (float64_of_int count) (float64_of_int overallCount),
   prefix +:+ ": measure " +:+ mi_Target (mo_Input entry) +:+ ": " +:+ ErrorToStringOrOK (mo_Err entry)).

Section steps.
Context (runs : MultiInput → option error * TestKeys → Prop).
Context (expect : nat) (overallCount : Z) (prefix : string).

Inductive multi_step : multi → multi → Prop :=
  (* inputch <- input, with input := range in *)
  | multi_take s before after input inputs :
      ms_source s = input :: inputs → ms_workers s = before ++ AtReceive :: after →
      multi_step s (s <| ms_source := inputs |> <| ms_workers := before ++ InGetter input :: after |>)
  (* tk, err := fn(ctx, g) *)
  | multi_get s before after input err tk :
      ms_workers s = before ++ InGetter input :: after → runs input (err, tk) →
      multi_step s (s <| ms_workers := before ++ AtSend (mkMultiOutput input err tk) :: after |>)
  (* the channel is closed: the loop of do ends *)
  | multi_exit s before after :
      ms_source s = [] → ms_workers s = before ++ AtReceive :: after →
      multi_step s (s <| ms_workers := before ++ Exited :: after |>)
  (* entry := <-inputch, with out <- MultiOutput{...}; then the progress *)
  | multi_receive s before after entry :
      (ms_index s < expect)%nat → ms_entry s = None → ms_closed s = false →
      ms_workers s = before ++ AtSend entry :: after →
      multi_step s (s <| ms_workers := before ++ AtReceive :: after |> <| ms_index ::= S |>
        <| ms_count := wrap64 (ms_count s + 1) |> <| ms_entry := Some entry |>
        <| ms_progress ::= λ l, l ++ [progress_of prefix overallCount (wrap64 (ms_count s + 1)) entry] |>)
  (* outputch <- entry: the caller ranges over the channel *)
  | multi_emit s entry :
      ms_entry s = Some entry →
      multi_step s (s <| ms_entry := None |> <| ms_emitted ::= λ l, l ++ [entry] |>)
  (* close(outputch) *)
  | multi_close s :
      (expect ≤ ms_index s)%nat → ms_entry s = None → ms_closed s = false →
      multi_step s (s <| ms_closed := true |>).
End steps.
End multi.
Arguments MultiInput : clear implicits.
Arguments MultiOutput : clear implicits.
Arguments multi : clear implicits.
Arguments multi_worker : clear implicits.

(** ** What holds in every state *)

Section facts.
Context {Config TestKeys : Type}.
Context (runs : MultiInput Config → option error * TestKeys → Prop).
Context (parallelism : nat) (inputs : list (MultiInput Config)) (start overallCount : Z) (prefix : string).
Implicit Types (s : multi Config TestKeys) (w : multi_worker Config TestKeys).

Abbreviation multi_next := (multi_step runs (length inputs) overallCount prefix).
Definition multi_reachable s : Prop := rtc multi_next (multi_start parallelism inputs start) s.

(** The inputs that a worker holds. *)
Definition worker_inputs w : list (MultiInput Config) :=
  match w with InGetter input => [input] | AtSend output => [mo_Input output] | _ => [] end.

Definition output_ok (o : MultiOutput Config TestKeys) : Prop := runs (mo_Input o) (mo_Err o, mo_TestKeys o).

Definition worker_ok s w : Prop :=
  match w with AtSend output => output_ok output | Exited => ms_source s = [] | _ => True end.

(** The outputs that the collector received, in their order. *)
Definition received s : list (MultiOutput Config TestKeys) := ms_emitted s ++ option_list (ms_entry s).

Record multi_inv s : Prop := {
  inv_inputs : ms_source s ++ (ms_workers s ≫= worker_inputs) ++ (mo_Input <$> received s) ≡ₚ inputs;
  inv_workers : Forall (worker_ok s) (ms_workers s);
  inv_pool : length (ms_workers s) = parallelism;
  inv_index : ms_index s = length (received s);
  inv_count : ms_count s = wrap64 (start + Z.of_nat (ms_index s));
  inv_outputs : Forall output_ok (received s);
  inv_progress : ms_progress s = imap (λ i o, progress_of prefix overallCount (wrap64 (start + Z.of_nat i + 1)) o) (received s);
  inv_closed : ms_closed s = true → (length inputs ≤ ms_index s)%nat;
}.

(** How many steps are left at most. *)
Definition worker_weight w : nat := match w with AtReceive => 1 | InGetter _ => 4 | AtSend _ => 3 | Exited => 0 end.
Definition multi_weight s : nat :=
  4 * length (ms_source s) + sum_list_with worker_weight (ms_workers s) + length (option_list (ms_entry s)) +
  (if ms_closed s then 0 else 1).

Lemma worker_ok_mono s s' w : (ms_source s = [] → ms_source s' = []) → worker_ok s w → worker_ok s' w.
Proof. destruct w; cbn; auto. Qed.

Lemma workers_replace s s' before w w' after :
  ms_workers s = before ++ w :: after → ms_workers s' = before ++ w' :: after →
  (ms_source s = [] → ms_source s' = []) → worker_ok s' w' →
  Forall (worker_ok s) (ms_workers s) → Forall (worker_ok s') (ms_workers s').
Proof.
  intros -> -> Hs Hw. rewrite !Forall_app, !Forall_cons. intros (Hb & _ & Ha).
  split_and!; try done; eapply Forall_impl; try done; intros; by eapply worker_ok_mono.
Qed.

(** The cases of a step, with the fields of the state as variables. *)
#[local] Ltac cases_of_step Hstep :=
  inversion Hstep as [? before after input rest Hsrc Hws|? before after input err tk Hws Hrun|? before after Hsrc Hws
    |? before after entry Hlt Hent Hclosed Hws|? entry Hent|? Hle Hent Hclosed]; clear Hstep; simplify_eq/=.

Lemma multi_inv_step s s' : multi_inv s → multi_next s s' → multi_inv s'.
Proof.
  destruct s as [src ws ix cnt ent prog em cl].
  intros [Hin Hw Hp Hi Hc Ho Hpr Hcl] Hstep. unfold received in *. cases_of_step Hstep.
  - constructor; unfold received; cbn; unfold constant; try done.
    + rewrite <-Hin. rewrite !bind_app, !bind_cons. cbn. solve_Permutation.
    + by eapply workers_replace; [..|exact Hw].
    + by rewrite length_app in Hp |- *.
  - constructor; unfold received; cbn; unfold constant; try done.
    + rewrite <-Hin. rewrite !bind_app, !bind_cons. done.
    + by eapply workers_replace; [..|exact Hw].
    + by rewrite length_app in Hp |- *.
  - constructor; unfold received; cbn; unfold constant; try done.
    + rewrite <-Hin. rewrite !bind_app, !bind_cons. done.
    + by eapply workers_replace; [..|exact Hw].
    + by rewrite length_app in Hp |- *.
  - rewrite app_nil_r in *.
    assert (Hentry : output_ok entry).
    { rewrite Forall_app, Forall_cons in Hw. by destruct Hw as (_ & ? & _). }
    constructor; unfold received; cbn; unfold constant; try done.
    + rewrite <-Hin, !bind_app, !bind_cons, fmap_app. cbn. solve_Permutation.
    + by eapply workers_replace; [..|exact Hw].
    + by rewrite length_app in Hp |- *.
    + rewrite length_app. cbn. lia.
    + rewrite wrap64_succ. f_equal. lia.
    + by rewrite Forall_app, Forall_singleton.
    + rewrite imap_app. cbn. by rewrite wrap64_succ, Nat.add_0_r.
  - by constructor; unfold received; cbn; unfold constant; rewrite ?app_nil_r.
  - by constructor; unfold received; cbn; unfold constant.
Qed.

Lemma multi_reachable_inv s : is_int64 start → multi_reachable s → multi_inv s.
Proof.
  intros Hstart. apply (rtc_ind_r multi_inv); [|intros; by eapply multi_inv_step].
  constructor; unfold received; cbn; unfold constant; try done.
  - rewrite app_nil_r. enough (replicate parallelism AtReceive ≫= worker_inputs = []) as -> by (by rewrite app_nil_r).
    induction parallelism; cbn; done.
  - apply Forall_replicate. done.
  - apply length_replicate.
  - by rewrite Z.add_0_r, wrap64_id.
Qed.

(** A step makes the weight smaller. *)
Lemma multi_step_weight s s' : multi_next s s' → (multi_weight s' < multi_weight s)%nat.
Proof.
  destruct s as [src ws ix cnt ent prog em cl]. intros Hstep. unfold multi_weight.
  cases_of_step Hstep; unfold constant; rewrite ?sum_list_with_app; cbn; lia.
Qed.

Lemma multi_bounded s s' n : nsteps multi_next n s s' → (n + multi_weight s' ≤ multi_weight s)%nat.
Proof. induction 1 as [|n s s1 s2 Hs _ IH]; [done|]. apply multi_step_weight in Hs. lia. Qed.

#[local] Instance exited_dec w : Decision (Exited = w).
Proof. destruct w; first [by left|by right]. Defined.

(** A state with something left to do has a step. *)
Lemma multi_progress s :
  multi_inv s → (∀ input, input ∈ inputs → ∃ res, runs input res) → (0 < parallelism)%nat →
  (∃ s', multi_next s s') ∨ (ms_closed s = true ∧ ms_entry s = None ∧ Forall (eq Exited) (ms_workers s)).
Proof.
  intros Hinv Hruns Hpos. pose proof Hinv as [Hin Hw Hp Hi _ _ _ Hcl].
  destruct (ms_entry s) as [entry|] eqn:Hent.
  { left. eexists. by apply (multi_emit _ _ _ _ s entry). }
  destruct (decide (Forall (eq Exited) (ms_workers s))) as [Hall|Hno].
  - destruct (ms_closed s) eqn:Hclosed; [by right|]. left. eexists. apply multi_close; try done.
    assert (Hnil : ms_source s = []).
    { destruct (ms_workers s) as [|w ws]; [cbn in Hp; lia|]. rewrite Forall_cons in Hw, Hall.
      destruct Hall as [<- _]. by destruct Hw. }
    assert (Hws : ms_workers s ≫= worker_inputs = []).
    { clear -Hall. induction Hall as [|w ws <- _ IH]; [done|]. by rewrite bind_cons, IH. }
    rewrite Hnil, Hws in Hin. cbn [app] in Hin. apply Permutation_length in Hin. rewrite length_fmap in Hin. lia.
  - apply not_Forall_Exists, Exists_exists in Hno as (w & (before & after & Hws)%list_elem_of_split & Hne); [|apply _].
    destruct w as [|input|output|]; [| | |done].
    + left. destruct (ms_source s) as [|input rest] eqn:Hsrc.
      * eexists. by eapply multi_exit.
      * eexists. by eapply multi_take.
    + left. assert (input ∈ inputs) as [[err tk] Hrun]%Hruns.
      { rewrite <-Hin, Hws, bind_app, bind_cons. cbn. set_solver. }
      eexists. by eapply multi_get.
    + assert (Hlt : (ms_index s < length inputs)%nat).
      { rewrite <-Hin, Hws, bind_app, bind_cons, !length_app, !length_fmap. cbn. lia. }
      destruct (ms_closed s) eqn:Hclosed; [specialize (Hcl eq_refl); lia|].
      left. eexists. by eapply multi_receive.
Qed.

(** ** What the caller gets *)

(** The caller has read the channel until it was closed. *)
Definition multi_collected (outputs : list (MultiOutput Config TestKeys)) : Prop :=
  ∃ s, multi_reachable s ∧ ms_closed s = true ∧ ms_entry s = None ∧ ms_emitted s = outputs.

Lemma multi_collected_spec outputs :
  is_int64 start → multi_collected outputs → mo_Input <$> outputs ≡ₚ inputs ∧ Forall output_ok outputs.
Proof.
  intros Hstart (s & Hr & Hclosed & Hent & <-). destruct (multi_reachable_inv s Hstart Hr) as [Hin _ _ Hi _ Ho _ Hcl].
  unfold received in *. rewrite Hent in *. cbn [option_list] in *. rewrite app_nil_r in *. split; [|done].
  pose proof (Permutation_length Hin) as Hlen. rewrite !length_app, length_fmap in Hlen. specialize (Hcl Hclosed).
  destruct (ms_source s); [|cbn in Hlen; lia]. destruct (ms_workers s ≫= worker_inputs); [done|cbn in Hlen; lia].
Qed.

Lemma multi_start_weight : multi_weight (multi_start parallelism inputs start) = (4 * length inputs + parallelism + 1)%nat.
Proof.
  unfold multi_weight, multi_start. cbn. enough (sum_list_with worker_weight (replicate parallelism AtReceive) = parallelism) by lia.
  induction parallelism; cbn; [done|lia].
Qed.

(** One worker may do everything. *)
Lemma multi_sequential_from outputs rest em cnt prog workers :
  Forall output_ok outputs → rest = mo_Input <$> outputs → (length em + length outputs = length inputs)%nat →
  ∃ s, rtc multi_next (mkMulti rest (AtReceive :: workers) (length em) cnt None prog em false) s ∧
    ms_closed s = true ∧ ms_entry s = None ∧ ms_emitted s = em ++ outputs.
Proof.
  intros Hok ->. revert em cnt prog. induction Hok as [|o outputs Ho Hok IH]; intros em cnt prog Hlen; cbn [length fmap list_fmap] in *.
  - eexists. split; [|split; [|split]]; [eapply rtc_once, multi_close; cbn; [lia|done..]|done|done|]. by rewrite app_nil_r.
  - destruct o as [input err tk].
    destruct (IH (em ++ [mkMultiOutput input err tk]) (wrap64 (cnt + 1))
      (prog ++ [progress_of prefix overallCount (wrap64 (cnt + 1)) (mkMultiOutput input err tk)])) as (s & Hs & Hc & He & Hem);
      [rewrite length_app; cbn [length]; lia|].
    exists s. split_and!; [|done|done|by rewrite Hem, <-app_assoc].
    set (o := mkMultiOutput input err tk) in *. set (rest := mo_Input <$> outputs) in *.
    set (s0 := mkMulti (input :: rest) (AtReceive :: workers) (length em) cnt None prog em false).
    set (s1 := mkMulti rest (InGetter input :: workers) (length em) cnt None prog em false).
    set (s2 := mkMulti rest (AtSend o :: workers) (length em) cnt None prog em false).
    set (s3 := mkMulti rest (AtReceive :: workers) (S (length em)) (wrap64 (cnt + 1)) (Some o)
      (prog ++ [progress_of prefix overallCount (wrap64 (cnt + 1)) o]) em false).
    rewrite length_app in Hs. cbn [length] in Hs. rewrite Nat.add_1_r in Hs.
    apply (rtc_l _ s0 s1); [by apply (multi_take _ _ _ _ s0 [] workers)|].
    apply (rtc_l _ s1 s2); [by apply (multi_get _ _ _ _ s1 [] workers input err tk)|].
    apply (rtc_l _ s2 s3); [apply (multi_receive _ _ _ _ s2 [] workers o); [cbn; lia|done..]|].
    eapply rtc_l; [by apply (multi_emit _ _ _ _ s3 o)|]. exact Hs.
Qed.

Lemma multi_sequential outputs :
  (0 < parallelism)%nat → Forall output_ok outputs → mo_Input <$> outputs = inputs → multi_collected outputs.
Proof.
  intros Hpos Hok Hin. unfold multi_collected, multi_reachable, multi_start.
  destruct parallelism as [|p]; [lia|]. apply (multi_sequential_from outputs inputs [] start [] (replicate p AtReceive)); [done|done|].
  by rewrite <-Hin, length_fmap.
Qed.

(** C15: collecting the results of parallel getters cannot deadlock nor run forever: an execution has at most four
    steps for each input, one for each worker and one to close the channel; when no step is left the channel is closed,
    every goroutine has returned, and the caller got exactly one output for each input, answered by the getter, with the
    progress reported once for each output, in the order of the outputs and counting from the start index. *)
Theorem multi_Collect (Hstart : is_int64 start) (Hpos : (0 < parallelism)%nat)
    (Hruns : ∀ input, input ∈ inputs → ∃ res, runs input res) :
  (∀ n s, nsteps multi_next n (multi_start parallelism inputs start) s → (n ≤ 4 * length inputs + parallelism + 1)%nat) ∧
  ∀ s, multi_reachable s → (∀ s', ¬ multi_next s s') →
    ms_closed s = true ∧ Forall (eq Exited) (ms_workers s) ∧ multi_collected (ms_emitted s) ∧
    mo_Input <$> ms_emitted s ≡ₚ inputs ∧ Forall output_ok (ms_emitted s) ∧
    ms_progress s = imap (λ i o, progress_of prefix overallCount (wrap64 (start + Z.of_nat i + 1)) o) (ms_emitted s).
Proof.
  split.
  - intros n s Hs. apply multi_bounded in Hs. rewrite multi_start_weight in Hs. lia.
  - intros s Hr Hstuck. pose proof (multi_reachable_inv s Hstart Hr) as Hinv.
    destruct (multi_progress s Hinv Hruns Hpos) as [[s' Hs']|(Hclosed & Hent & Hws)]; [by destruct (Hstuck s')|].
    assert (Hc : multi_collected (ms_emitted s)) by (by exists s). split_and!; try done.
    + by apply multi_collected_spec.
    + by apply multi_collected_spec.
    + destruct Hinv as [_ _ _ _ _ _ Hpr _]. unfold received in Hpr. rewrite Hent in Hpr. cbn in Hpr. by rewrite app_nil_r in Hpr.
Qed.
End facts.

(** Two getters that fail, and the default parallelism. *)
Definition sample_inputs : list (MultiInput unit) := [mkMultiInput tt "tcpconnect://1.1.1.1:80"; mkMultiInput tt "tcpconnect://8.8.8.8:80"].
Definition sample_runs (input : MultiInput unit) (res : option error * unit) : Prop :=
  res = (Some (ErrValue "" [] "connection_refused"), tt).

Lemma multi_Collect_witness :
  (∀ n s, nsteps (multi_step sample_runs 2 2 "check") n (multi_start (multi_parallelism 0) sample_inputs 0) s → (n ≤ 12)%nat) ∧
  ∀ s, multi_reachable sample_runs 3 sample_inputs 0 2 "check" s → (∀ s', ¬ multi_step sample_runs 2 2 "check" s s') →
    mo_Input <$> ms_emitted s ≡ₚ sample_inputs.
Proof.
  assert (Hruns : ∀ input, input ∈ sample_inputs → ∃ res, sample_runs input res) by (intros; by eexists).
  assert (Hpos : (0 < 3)%nat) by lia. assert (Hstart : is_int64 0) by (by unfold is_int64, int64_min, int64_max).
  split.
  - exact (proj1 (multi_Collect sample_runs 3 sample_inputs 0 2 "check" Hstart Hpos Hruns)).
  - intros s Hr Hs. exact (proj1 (proj2 (proj2 (proj2 (proj2 (multi_Collect sample_runs 3 sample_inputs 0 2 "check" Hstart Hpos Hruns) s Hr Hs))))).
Defined.
