(* ===== verification/WebConn.v ===== *)
(** * Web Connectivity v0.4

    [pkg/experiment/webconnectivity]: the DNS lookup, the control, the connects and the
    page, one after the other with the getter of [urlgetter], the comparison of the probe with
    the control, and the summary.  Status flags are the bits of an [int64]. *)
From S2P Require Import Prelude Failures GoString GoFloat GoNet GoURL Archival WebTitle PipeSet.
From S2P Require Import Observation Diff.
From S2P Require Import NetErrors GoRegexp Scrubber LteTestKeys LtePriority LteFlow Overlapped.
From S2P Require Import LteControl.
From S2P Require Import NetDNS GoHTTP Tracing NetPrimitives Tracex UrlGetter UrlMulti.
From Stdlib Require Import Ascii.

(** ** [dnslookup.go] *)

Record DNSLookupResult := mkDNSLookupResult {
  dl_Addrs : gmap string Z;
  dl_Failure : option string;
  dl_TestKeys : ug_TestKeys;
}.

(** The addresses of the answers with their ASNs; the last answer for an address counts. *)
Definition answers_addrs (Queries : list ArchivalDNSLookupResult) : gmap string Z :=
  foldl (λ addrs query,
    foldl (λ addrs answer,
      if negb (String.eqb (ans_IPv4 answer) "") then <[ans_IPv4 answer := ans_ASN answer]> addrs
      else if negb (String.eqb (ans_IPv6 answer) "") then <[ans_IPv6 answer := ans_ASN answer]> addrs
      else addrs) addrs (dns_Answers query)) ∅ Queries.

(** [Addresses]: the keys, in order. *)
Definition Addresses (r : DNSLookupResult) : list string := merge_sort String.le (map_to_list (dl_Addrs r)).*1.

(** ** [dnsanalysis.go] *)

Definition DNSConsistent : string := "consistent".
Definition DNSInconsistent : string := "inconsistent".

Section analysis.
Context `{RangeOrder}.

(** Whether a range over the map finds a key that both have. *)
Definition common_asn (asnmap : gmap Z Z) : bool :=
  existsb (λ '(key, value), negb (key =? 0) && in_both value) (range_map 35 asnmap).
Definition common_ip (ipmap : gmap string Z) : bool :=
  existsb (λ '(key, value), negb (String.eqb key "") && in_both value) (range_map 36 ipmap).

Definition DNSAnalysis (URL : URL) (measurement : DNSLookupResult) (control : THResponse) : option string :=
  if negb (IsNone (ParseIP (Hostname URL))) then Some DNSConsistent
  else
    match dl_Failure measurement, thdns_Failure (th_DNS control) with
    | Some measurement_Failure, Some control_Failure =>
        if String.eqb control_Failure THDNSNameError &&
           bool_decide (measurement_Failure ∈ [FailureDNSNXDOMAINError; FailureAndroidDNSCacheNoData])
        then Some DNSConsistent else Some DNSInconsistent
    | _, _ =>
        let asnmap := foldl (mark byProbe) ∅ (range_map 33 (dl_Addrs measurement)).*2 in
        let asnmap := foldl (mark byTH) asnmap (thdns_ASNs (th_DNS control)) in
        if common_asn asnmap then Some DNSConsistent
        else
          let ipmap := foldl (mark byProbe) ∅ (range_map 34 (dl_Addrs measurement)).*1 in
          let ipmap := foldl (mark byTH) ipmap (thdns_Addrs (th_DNS control)) in
          if common_ip ipmap then Some DNSConsistent else Some DNSInconsistent
    end.

(** ** [endpoints.go] *)

Record EndpointInfo := mkEndpointInfo { ei_String : string; ei_URLGetterURL : string }.

Definition Endpoints (el : list EndpointInfo) : list string := foldl (λ out ei, out ++ [ei_String ei]) [] el.
Definition URLs (el : list EndpointInfo) : list string := foldl (λ out ei, out ++ [ei_URLGetterURL ei]) [] el.

(** The scheme for the getter, and the port. *)
Definition NewEndpointPort (URL : URL) : outcome (string * string) :=
  if negb (bool_decide (Scheme URL ∈ ["http"; "https"])) then Panic "passed an unexpected scheme"
  else
    let '(scheme, port) := if String.eqb (Scheme URL) "http" then ("tcpconnect", "80") else ("tlshandshake", "443") in
    if negb (String.eqb (Host URL) (Hostname URL)) then
      match SplitHostPort (Host URL) with
      | Err _ => Panic "SplitHostPort should not fail here"
      | Val (_, port) => Ok (scheme, port)
      end
    else Ok (scheme, port).

Definition NewEndpoints (URL : URL) (addrs : list string) : outcome (list EndpointInfo) :=
  '(scheme, port) ← NewEndpointPort URL;
  Ok (foldl (λ out addr,
    let endpoint := JoinHostPort addr port in
    out ++ [mkEndpointInfo endpoint (url_String (simple_URL scheme endpoint "" ""))]) [] addrs).

(** ** [httpanalysis.go] *)

Context `{UnicodeTables}.

Record HTTPAnalysisResult := mkHTTPAnalysisResult {
  BodyLengthMatch : option bool;
  BodyProportion : float64;
  StatusCodeMatch : option bool;
  HeadersMatch : option bool;
  TitleMatch : option bool;
}.

Definition HTTPBodyLengthChecks (tk : ug_TestKeys) (ctrl : THResponse) : option bool * float64 :=
  let control := thhttp_BodyLength (th_HTTPRequest ctrl) in
  if control <=? 0 then (None, float64_zero)
  else
    match ugk_Requests tk with
    | [] => (None, float64_zero)
    | request :: _ =>
        let response := http_Response request in
        if resp_BodyIsTruncated response then (None, float64_zero)
        else
          let measurement := Z.of_nat (String.length (resp_Body response)) in
          if measurement <=? 0 then (None, float64_zero)
          else
            let proportion :=
              if control <=? measurement
              then float64_div (float64_of_int control) (float64_of_int measurement)
              else float64_div (float64_of_int measurement) (float64_of_int control) in
            (Some (float64_gt proportion float64_0_7), proportion)
    end.

Definition HTTPStatusCodeMatch (tk : ug_TestKeys) (ctrl : THResponse) : option bool :=
  let control := thhttp_StatusCode (th_HTTPRequest ctrl) in
  match ugk_Requests tk with
  | [] => None
  | request :: _ =>
      let measurement := resp_Code (http_Response request) in
      if control <=? 0 then None
      else if measurement <=? 0 then None
      else
        let value := control =? measurement in
        if value then Some value
        else if Z.quot control 100 =? 5 then None
        else Some value
  end.

Definition commonHeaders : gmap string bool :=
  list_to_map (map (λ key, (key, true))
    [ "date"; "content-type"; "server"; "cache-control"; "vary"; "set-cookie"; "location"; "expires";
      "x-powered-by"; "content-encoding"; "last-modified"; "accept-ranges"; "pragma"; "x-frame-options";
      "etag"; "x-content-type-options"; "age"; "via"; "p3p"; "x-xss-protection"; "content-language";
      "cf-ray"; "strict-transport-security"; "link"; "x-varnish" ]).

(** A loop over the headers of one side: the masks of the uncommon headers, and all the headers. *)
Definition scan_headers (bit : Z) (matching : gmap string Z) (headers : list (string * string)) :
    gmap string Z * gmap string bool :=
  foldl (λ '(matching, all) '(key, _),
    let key := ToLower key in
    (match commonHeaders !! key with None => mark bit matching key | Some _ => matching end, <[key := true]> all))
    (matching, ∅) headers.

Definition HTTPHeadersMatch (tk : ug_TestKeys) (ctrl : THResponse) : option bool :=
  match ugk_Requests tk with
  | [] => None
  | request :: _ =>
      if resp_Code (http_Response request) <=? 0 then None
      else if thhttp_StatusCode (th_HTTPRequest ctrl) <=? 0 then None
      else
        let '(matching, ours) := scan_headers byProbe ∅ (range_map 37 (resp_Headers (http_Response request))) in
        let '(matching, theirs) := scan_headers byTH matching (range_map 38 (thhttp_Headers (th_HTTPRequest ctrl))) in
        if bool_decide (ours = theirs) then Some true
        else
          let intersection := foldl (λ intersection '(_, value),
              if in_both value then wrap64 (intersection + 1) else intersection) 0 (range_map 39 matching) in
          Some (0 <? intersection)
  end.

Definition HTTPTitleMatch (tk : ug_TestKeys) (ctrl : THResponse) : option bool :=
  match ugk_Requests tk with
  | [] => None
  | request :: _ =>
      let response := http_Response request in
      if resp_Code response <=? 0 then None
      else if resp_BodyIsTruncated response then None
      else if thhttp_StatusCode (th_HTTPRequest ctrl) <=? 0 then None
      else
        let measurement := WebGetTitle (resp_Body response) in
        if String.eqb measurement "" then None
        else
          let words := mark_words byProbe ∅ measurement in
          let words := mark_words byTH words (thhttp_Title (th_HTTPRequest ctrl)) in
          Some (forallb (λ '(_, score), in_both score) (range_map 40 words))
  end.

Definition HTTPAnalysis (tk : ug_TestKeys) (ctrl : THResponse) : HTTPAnalysisResult :=
  let '(BodyLengthMatch, BodyProportion) := HTTPBodyLengthChecks tk ctrl in
  mkHTTPAnalysisResult BodyLengthMatch BodyProportion (HTTPStatusCodeMatch tk ctrl) (HTTPHeadersMatch tk ctrl)
    (HTTPTitleMatch tk ctrl).
End analysis.

(** ** The test keys ([webconnectivity.go]) and the summary ([summary.go]) *)

Record Summary := mkSummary {
  sum_Accessible : option bool;
  sum_BlockingReason : option string;
  sum_Blocking : blocking;
  sum_Status : Z;
}.

Record wc_TestKeys := mkWCTestKeys {
  wc_Agent : string;
  wc_ClientResolver : string;
  wc_NetworkEvents : list ArchivalNetworkEvent;
  wc_TLSHandshakes : list ArchivalTLSOrQUICHandshakeResult;
  wc_Queries : list ArchivalDNSLookupResult;
  wc_DNSExperimentFailure : option string;
  wc_DNSConsistency : option string;
  wc_ControlFailure : option string;
  wc_Control : THResponse;
  wc_TCPConnect : list ArchivalTCPConnectResult;
  wc_TCPConnectSuccesses : Z;
  wc_TCPConnectAttempts : Z;
  wc_Requests : list ArchivalHTTPRequestResult;
  wc_HTTPExperimentFailure : option string;
  wc_HTTPAnalysisResult : HTTPAnalysisResult;
  wc_Summary : Summary;
  wc_DNSRuntime : Duration;
  wc_THRuntime : Duration;
  wc_TCPTLSRuntime : Duration;
  wc_HTTPRuntime : Duration;
}.

Definition StatusSuccessSecure : Z := Z.shiftl 1 0.
Definition StatusSuccessCleartext : Z := Z.shiftl 1 1.
Definition StatusSuccessNXDOMAIN : Z := Z.shiftl 1 2.
Definition StatusAnomalyControlUnreachable : Z := Z.shiftl 1 3.
Definition StatusAnomalyControlFailure : Z := Z.shiftl 1 4.
Definition StatusAnomalyDNS : Z := Z.shiftl 1 5.
Definition StatusAnomalyHTTPDiff : Z := Z.shiftl 1 6.
Definition StatusAnomalyConnect : Z := Z.shiftl 1 7.
Definition StatusAnomalyReadWrite : Z := Z.shiftl 1 8.
Definition StatusAnomalyUnknown : Z := Z.shiftl 1 9.
Definition StatusAnomalyTLSHandshake : Z := Z.shiftl 1 10.
Definition StatusExperimentDNS : Z := Z.shiftl 1 11.
Definition StatusExperimentConnect : Z := Z.shiftl 1 12.
Definition StatusExperimentHTTP : Z := Z.shiftl 1 13.
Definition StatusBugNoRequests : Z := Z.shiftl 1 14.

Definition DetermineBlocking (s : Summary) : blocking :=
  match sum_Accessible s with
  | Some true => BlockingFalse
  | _ => match sum_BlockingReason s with Some reason => BlockingString reason | None => BlockingNil end
  end.

(** [out.Status |= flag], and the assignments to [out.Accessible] and [out.BlockingReason]. *)
Definition flag (bits : Z) (out : Summary) : Summary := out <| sum_Status ::= λ s, Z.lor s bits |>.
Definition say_accessible (out : Summary) : Summary := out <| sum_Accessible := Some true |>.
Definition blame (reason : string) (out : Summary) : Summary :=
  out <| sum_BlockingReason := Some reason |> <| sum_Accessible := Some false |>.

Definition is_some_string (v : option string) (s : string) : bool :=
  match v with Some v => String.eqb v s | None => false end.
Definition is_true (v : option bool) : bool := match v with Some b => b | None => false end.

(** [dns_nxdomain_error], or what the cache of Android answers for it. *)
Definition nxdomain_like (failure : option string) : bool :=
  match failure with
  | Some f => String.eqb f FailureDNSNXDOMAINError || String.eqb f FailureAndroidDNSCacheNoData
  | None => false
  end.

(** The switch over the failure of the HTTP experiment. *)
Definition classify_http_failure (failure : string) (out : Summary) : Summary :=
  if String.eqb failure FailureConnectionRefused then flag StatusAnomalyConnect (blame "http-failure" out)
  else if String.eqb failure FailureConnectionReset then flag StatusAnomalyReadWrite (blame "http-failure" out)
  else if String.eqb failure FailureDNSNXDOMAINError then flag StatusAnomalyDNS (blame "dns" out)
  else if String.eqb failure FailureEOFError then flag StatusAnomalyReadWrite (blame "http-failure" out)
  else if String.eqb failure FailureGenericTimeoutError then flag StatusAnomalyUnknown (blame "http-failure" out)
  else if bool_decide (failure ∈ [FailureSSLInvalidHostname; FailureSSLInvalidCertificate; FailureSSLUnknownAuthority])
  then flag StatusAnomalyTLSHandshake (blame "http-failure" out)
  else out.

(** The conditions after the last check of the failures. *)
Definition expected_page (tk : wc_TestKeys) : bool :=
  let har := wc_HTTPAnalysisResult tk in
  is_true (StatusCodeMatch har) &&
    (is_true (BodyLengthMatch har) || is_true (HeadersMatch har) || is_true (TitleMatch har)).

(** [Summarize] before the deferred function, which sets [Blocking]. *)
Definition summarize (tk : wc_TestKeys) : Summary :=
  let out := mkSummary None None BlockingNil 0 in
  let first := head (wc_Requests tk) in
  if (match first with
      | Some request => IsNone (http_Failure request) && HasPrefix (req_URL (http_Request request)) "https://"
      | None => false
      end) then flag StatusSuccessSecure (say_accessible out)
  else if negb (IsNone (wc_ControlFailure tk)) then flag StatusAnomalyControlUnreachable out
  else if nxdomain_like (wc_DNSExperimentFailure tk) && is_some_string (wc_DNSConsistency tk) DNSConsistent
  then flag (Z.lor StatusSuccessNXDOMAIN StatusExperimentDNS) (say_accessible out)
  else if is_some_string (wc_DNSConsistency tk) DNSInconsistent && nxdomain_like (wc_DNSExperimentFailure tk)
  then flag (Z.lor StatusAnomalyDNS StatusExperimentDNS) (blame "dns" out)
  else if (0 <? wc_TCPConnectAttempts tk) && (wc_TCPConnectSuccesses tk <=? 0) && negb (IsNone (wc_DNSConsistency tk)) then
    let out := flag (Z.lor StatusAnomalyConnect StatusExperimentConnect) out in
    if is_some_string (wc_DNSConsistency tk) DNSConsistent then blame "tcp_ip" out
    else if is_some_string (wc_DNSConsistency tk) DNSInconsistent then flag StatusAnomalyDNS (blame "dns" out)
    else flag StatusAnomalyUnknown out
  else if negb (IsNone (thhttp_Failure (th_HTTPRequest (wc_Control tk)))) then flag StatusAnomalyControlFailure out
  else
    match first with
    | None => flag StatusBugNoRequests out
    | Some request =>
        match http_Failure request with
        | Some failure =>
            let out := classify_http_failure failure (flag StatusExperimentHTTP out) in
            if negb (IsNone (sum_BlockingReason out)) && (length (wc_Requests tk) =? 1)%nat &&
               is_some_string (wc_DNSConsistency tk) DNSInconsistent
            then flag StatusAnomalyDNS (out <| sum_BlockingReason := Some "dns" |>) else out
        | None =>
            if expected_page tk then flag StatusSuccessCleartext (say_accessible out)
            else
              let out := flag StatusAnomalyHTTPDiff out in
              if is_some_string (wc_DNSConsistency tk) DNSInconsistent
              then flag StatusAnomalyDNS (blame "dns" out)
              else blame "http-diff" out
        end
    end.

Definition Summarize (tk : wc_TestKeys) : Summary :=
  let out := summarize tk in out <| sum_Blocking := DetermineBlocking out |>.

Record wc_SummaryKeys := mkWCSummaryKeys { sk_Accessible : bool; sk_Blocking : string; sk_IsAnomaly : bool }.

Definition wc_MeasurementSummaryKeys (tk : wc_TestKeys) : wc_SummaryKeys :=
  let s := wc_Summary tk in
  mkWCSummaryKeys (is_true (sum_Accessible s)) (default "" (sum_BlockingReason s)) (negb (IsNone (sum_BlockingReason s))).

Definition ComputeTCPBlocking (measurement : list ArchivalTCPConnectResult) (control : gmap string THTCPConnectResult) :
    list ArchivalTCPConnectResult :=
  foldl (λ out me,
    let epnt := JoinHostPort (tcp_IP me) (Itoa (tcp_Port me)) in
    let me :=
      match control !! epnt with
      | Some ce =>
          let v := IsNone (thtcp_Failure ce) && negb (IsNone (status_Failure (tcp_Status me))) in
          me <| tcp_Status := (tcp_Status me) <| status_Blocked := Some v |> |>
      | None => me
      end in
    out ++ [me]) [] measurement.

(** ** [control.go] *)

Definition zero_THResponse : THResponse := {|
  th_TCPConnect := ∅; th_TLSHandshake := ∅; th_QUICHandshake := ∅;
  th_HTTPRequest := {| thhttp_BodyLength := 0; thhttp_DiscoveredH3Endpoint := ""; thhttp_Failure := None;
                       thhttp_Title := ""; thhttp_Headers := ∅; thhttp_StatusCode := 0 |};
  th_HTTP3Request := None;
  th_DNS := {| thdns_Failure := None; thdns_Addrs := []; thdns_ASNs := [] |};
  th_IPInfo := ∅ |}.

Section run.
Context `{RangeOrder} `{UnicodeTables}.
Context (parse_error : string → error).
Context (LookupASN : string → Z * string).
Context (net : primitives).
Context (start_tunnel : string → saving (result error (Duration * URL))).

Definition fillASNs (dns : THDNSResult) : THDNSResult :=
  dns <| thdns_ASNs := foldl (λ ASNs ip, ASNs ++ [wrap64 (fst (LookupASN ip))]) [] (thdns_Addrs dns) |>.

(** The results of the overlapped calls, and what the parallel getters of [Multi] leave in the channel. *)
Context (overlapped_Map : list Endpoint → list (OverlappedErrorOr (option THResponse))).
Context (Multi_Collect : option Time → list (MultiInput ug_Config) → saving (list (MultiOutput ug_Config ug_TestKeys))).

Definition wc_Control_call (testhelpers : list OOAPIService) : outcome (THResponse * option OOAPIService * option error) :=
  called ← CallWebConnectivityTestHelper overlapped_Map testhelpers;
  match called with
  | Err err => err ← NewTopLevelGenericErrWrapper (Some err); Ok (zero_THResponse, None, Some err)
  | Val (out, idx) =>
      out ← Unwrap out;
      let out := out <| th_DNS ::= fillASNs |> in
      _ ← Assert (idx <? length testhelpers)%nat "idx out of bounds";
      Ok (out, testhelpers !! idx, None)
  end.

(** ** [dnslookup.go], [connects.go], [httpget.go] *)

Abbreviation get_keys := (getter_Get parse_error LookupASN net start_tunnel).

Definition DNSLookup (Begin : option Time) (URL : URL) : saving DNSLookupResult :=
  let target := "dnslookup://" +:+ Hostname URL in
  '(result, _) ← get_keys Begin ug_default target;
  mret (mkDNSLookupResult (answers_addrs (ugk_Queries result)) (ugk_Failure result) result).

Record ConnectsResult := mkConnectsResult { AllKeys : list ug_TestKeys; Successes : Z; Total : Z }.

Definition connects_inputs (TargetURL : URL) (URLGetterURLs : list string) : list (MultiInput ug_Config) :=
  foldl (λ inputs url, inputs ++ [mkMultiInput (ug_default <| ug_TLSServerName := Hostname TargetURL |>) url])
    [] URLGetterURLs.

(** The loop over the channel. *)
Definition connects_count (outputs : list (MultiOutput ug_Config ug_TestKeys)) : ConnectsResult :=
  foldl (λ out multiout,
    let out := out <| AllKeys ::= λ l, l ++ [mo_TestKeys multiout] |> in
    foldl (λ out entry,
      let out := if status_Success (tcp_Status entry) then out <| Successes ::= λ n, wrap64 (n + 1) |> else out in
      out <| Total ::= λ n, wrap64 (n + 1) |>) out (ugk_TCPConnect (mo_TestKeys multiout)))
    (mkConnectsResult [] 0 0) outputs.

Definition Connects (Begin : option Time) (TargetURL : URL) (URLGetterURLs : list string) : saving ConnectsResult :=
  outputs ← Multi_Collect Begin (connects_inputs TargetURL URLGetterURLs);
  mret (connects_count outputs).

Definition HTTPGetMakeDNSCache (domain addresses : string) : string :=
  if negb (IsNone (ParseIP domain)) then "" else domain +:+ " " +:+ addresses.

Definition HTTPGet (Begin : option Time) (TargetURL : URL) (addrs : list string) : saving (ug_TestKeys * option string) :=
  let addresses := join_with " " addrs in
  if String.eqb addresses "" then mret (ug_zero, None)
  else
    let config := ug_default <| ug_DNSCache := HTTPGetMakeDNSCache (Hostname TargetURL) addresses |> in
    '(result, _) ← get_keys Begin config (url_String TargetURL);
    mret (result, ugk_Failure result).

(** ** [Run] *)

Definition ErrNoInput : error := ErrValue "ErrNoInput" [] "no input provided".
Definition ErrInputIsNotAnURL : error := ErrValue "ErrInputIsNotAnURL" [] "input is not an URL".
Definition ErrUnsupportedInput : error := ErrValue "ErrUnsupportedInput" [] "unsupported input scheme".

Definition zero_wc_TestKeys : wc_TestKeys :=
  mkWCTestKeys "" "" [] [] [] None None None zero_THResponse [] 0 0 [] None
    (mkHTTPAnalysisResult None float64_zero None None None) (mkSummary None None BlockingNil 0) 0 0 0 0.

Definition TCPTLSExperimentTag : string := "tcptls_experiment".

(** An iteration of the loop over the keys of the connects. *)
Definition add_connect (tk : wc_TestKeys) (tcpkeys : ug_TestKeys) : wc_TestKeys :=
  tk <| wc_TCPConnect ::= λ l, l ++ ComputeTCPBlocking (ugk_TCPConnect tcpkeys) (th_TCPConnect (wc_Control tk)) |>
     <| wc_NetworkEvents ::= λ l, l ++ map (λ ev, ev <| net_Tags := [TCPTLSExperimentTag] |>) (ugk_NetworkEvents tcpkeys) |>
     <| wc_TLSHandshakes ::= λ l, l ++ map (λ ev, ev <| tls_Tags := [TCPTLSExperimentTag] |>) (ugk_TLSHandshakes tcpkeys) |>.

(** A part of the experiment and how long it took. *)
Definition timed {A} (m : saving A) : saving (A * Duration) :=
  start ← time_Now; a ← m; stop ← time_Now; mret (a, time_Sub stop start).

(** The request to the control. *)
Definition wc_ControlRequest (URL : URL) (epnts : list EndpointInfo) : THRequest := {|
  thr_HTTPRequest := url_String URL;
  thr_HTTPRequestHeaders := {[ "Accept" := [HTTPHeaderAccept]; "Accept-Language" := [HTTPHeaderAcceptLanguage];
                              "User-Agent" := [HTTPHeaderUserAgent] ]};
  thr_TCPConnect := Endpoints epnts;
  thr_XQUICEnabled := false |}.

(** The steps from the lookup on: the test keys, the test helper that is recorded, and the request that was sent. *)
Definition wc_measure (Begin : option Time) (testhelpers : list OOAPIService) (URL : URL) (tk : wc_TestKeys) :
    saving (wc_TestKeys * option OOAPIService * THRequest) :=
  '(dnsResult, runtime) ← timed (DNSLookup Begin URL);
  let tk := tk <| wc_DNSRuntime := runtime |> <| wc_Queries ::= λ l, l ++ ugk_Queries (dl_TestKeys dnsResult) |>
               <| wc_DNSExperimentFailure := dl_Failure dnsResult |> in
  epnts ← saver_lift (NewEndpoints URL (Addresses dnsResult));
  let creq := wc_ControlRequest URL epnts in
  '(called, runtime) ← timed (saver_lift (wc_Control_call testhelpers));
  let '(control, usedTH, err) := called in
  failure ← saver_lift (tracex_NewFailure err);
  let tk := tk <| wc_Control := control |> <| wc_THRuntime := runtime |> <| wc_ControlFailure := failure |> in
  let tk := if IsNone (wc_ControlFailure tk)
            then tk <| wc_DNSConsistency := DNSAnalysis URL dnsResult (wc_Control tk) |> else tk in
  '(connectsResult, runtime) ← timed (Connects Begin URL (URLs epnts));
  let tk := foldl add_connect (tk <| wc_TCPTLSRuntime := runtime |>) (AllKeys connectsResult) in
  let tk := tk <| wc_TCPConnectAttempts := Total connectsResult |> <| wc_TCPConnectSuccesses := Successes connectsResult |> in
  '(httpResult, runtime) ← timed (HTTPGet Begin URL (Addresses dnsResult));
  let tk := tk <| wc_HTTPRuntime := runtime |> <| wc_HTTPExperimentFailure := httpResult.2 |>
               <| wc_Requests ::= λ l, l ++ ugk_Requests httpResult.1 |> in
  let tk := tk <| wc_HTTPAnalysisResult := HTTPAnalysis httpResult.1 (wc_Control tk) |> in
  mret (tk <| wc_Summary := Summarize tk |>, usedTH, creq).

Definition wc_Run (Begin : option Time) (Input ResolverIP : string) (testhelpers : list OOAPIService) :
    saving (wc_TestKeys * option OOAPIService * option error) :=
  let tk := zero_wc_TestKeys <| wc_Agent := "redirect" |> <| wc_ClientResolver := ResolverIP |> in
  if String.eqb Input "" then mret (tk, None, Some ErrNoInput)
  else
    match url_Parse Input with
    | None => mret (tk, None, Some ErrInputIsNotAnURL)
    | Some URL =>
        if negb (bool_decide (Scheme URL ∈ ["http"; "https"])) then mret (tk, None, Some ErrUnsupportedInput)
        else if (length testhelpers <? 1)%nat then mret (tk, None, Some ErrNoAvailableTestHelpers)
        else '(tk, usedTH, _) ← wc_measure Begin testhelpers URL tk; mret (tk, usedTH, None)
    end.
End run.
