(* ===== verification/WebConnFacts.v ===== *)
(** * Web Connectivity v0.4: what it concludes

    The summary against the evidence it needs, the comparison of the DNS results as a
    set-theoretic statement that does not depend on the order of iterations, and the whole
    experiment: it returns unless the host of the URL is an IPv6 literal without port. *)
From S2P Require Import Prelude Failures GoString GoFloat GoNet GoURL Archival WebTitle PipeSet.
From S2P Require Import Observation Diff.
From S2P Require Import NetErrors GoRegexp Scrubber LteTestKeys LtePriority LteFlow.
From S2P Require Import Overlapped LteControl.
From S2P Require Import NetDNS GoHTTP Tracing NetPrimitives Tracex UrlGetter.
From S2P Require Import UrlMulti WebConn.
From Stdlib Require Import Ascii.

(** ** The summary *)

Definition final_url_is_https (tk : wc_TestKeys) : Prop :=
  ∃ request rest, wc_Requests tk = request :: rest ∧ http_Failure request = None ∧
    HasPrefix (req_URL (http_Request request)) "https://" = true.

(** The page of the probe and the page of the control, which both came without failure. *)
Definition both_fetched (tk : wc_TestKeys) : Prop :=
  wc_ControlFailure tk = None ∧ thhttp_Failure (th_HTTPRequest (wc_Control tk)) = None ∧
  ∃ request rest, wc_Requests tk = request :: rest ∧ http_Failure request = None.

Definition page_failed_with (tk : wc_TestKeys) (failure : string) (redirects : nat) : Prop :=
  ∃ request rest, wc_Requests tk = request :: rest ∧ http_Failure request = Some failure ∧ length rest = redirects.

Definition http_failures : list string :=
  [FailureConnectionRefused; FailureConnectionReset; FailureEOFError; FailureGenericTimeoutError;
   FailureSSLInvalidHostname; FailureSSLInvalidCertificate; FailureSSLUnknownAuthority].

(** What each verdict requires. *)
Definition evidence (tk : wc_TestKeys) (verdict : blocking) : Prop :=
  match verdict with
  | BlockingNil =>
      wc_ControlFailure tk ≠ None ∨ thhttp_Failure (th_HTTPRequest (wc_Control tk)) ≠ None ∨ wc_Requests tk = [] ∨
      (∃ failure n, page_failed_with tk failure n ∧ failure ∉ FailureDNSNXDOMAINError :: http_failures) ∨
      (∃ c, wc_DNSConsistency tk = Some c ∧ c ∉ [DNSConsistent; DNSInconsistent])
  | BlockingFalse =>
      final_url_is_https tk ∨
      (wc_ControlFailure tk = None ∧ nxdomain_like (wc_DNSExperimentFailure tk) = true ∧
       wc_DNSConsistency tk = Some DNSConsistent) ∨
      (both_fetched tk ∧ expected_page tk = true)
  | BlockingString reason =>
      wc_ControlFailure tk = None ∧ ¬ final_url_is_https tk ∧
      if bool_decide (reason = "dns") then
        wc_DNSConsistency tk = Some DNSInconsistent ∨ ∃ n, page_failed_with tk FailureDNSNXDOMAINError n
      else if bool_decide (reason = "tcp_ip") then
        0 < wc_TCPConnectAttempts tk ∧ wc_TCPConnectSuccesses tk ≤ 0 ∧ wc_DNSConsistency tk = Some DNSConsistent
      else if bool_decide (reason = "http-failure") then
        ∃ failure n, page_failed_with tk failure n ∧ failure ∈ http_failures ∧
          (n = 0%nat → wc_DNSConsistency tk ≠ Some DNSInconsistent)
      else reason = "http-diff" ∧ both_fetched tk ∧ expected_page tk = false ∧ wc_DNSConsistency tk ≠ Some DNSInconsistent
  end.

Lemma is_some_string_spec v s : is_some_string v s = true ↔ v = Some s.
Proof. destruct v as [t|]; cbn; [|done]. destruct (String.eqb_spec t s); naive_solver. Qed.

Lemma is_some_string_false v s : is_some_string v s = false ↔ v ≠ Some s.
Proof. rewrite <-is_some_string_spec. by destruct (is_some_string v s). Qed.

(** The reason for a failure of the page. *)
Lemma classify_http_failure_reason failure out :
  sum_BlockingReason out = None →
  sum_BlockingReason (classify_http_failure failure out) =
    (if bool_decide (failure = FailureDNSNXDOMAINError) then Some "dns"
     else if bool_decide (failure ∈ http_failures) then Some "http-failure" else None) ∧
  sum_Accessible (classify_http_failure failure out) =
    (if bool_decide (failure ∈ FailureDNSNXDOMAINError :: http_failures) then Some false else sum_Accessible out).
Proof.
  intros Hout. unfold classify_http_failure.
  repeat match goal with |- context [String.eqb failure ?s] => destruct (String.eqb_spec failure s) as [->|?]; [by cbn|] end.
  case_bool_decide as Hssl.
  - rewrite !elem_of_cons in Hssl. destruct Hssl as [->|[->|[->|?%not_elem_of_nil]]]; by cbn.
  - rewrite !bool_decide_false; [by rewrite Hout|..]; unfold http_failures; set_solver.
Qed.

(** The three fields of a summary agree. *)
Definition verdict_fields (s : Summary) : Prop :=
  match sum_Blocking s with
  | BlockingFalse => sum_Accessible s = Some true ∧ sum_BlockingReason s = None
  | BlockingNil => sum_Accessible s = None ∧ sum_BlockingReason s = None
  | BlockingString reason => sum_Accessible s = Some false ∧ sum_BlockingReason s = Some reason
  end.

Definition concludes (tk : wc_TestKeys) (out : Summary) : Prop :=
  let s := out <| sum_Blocking := DetermineBlocking out |> in verdict_fields s ∧ evidence tk (sum_Blocking s).

Lemma concludes_accessible tk out bits :
  sum_BlockingReason out = None → evidence tk BlockingFalse → concludes tk (flag bits (say_accessible out)).
Proof. done. Qed.

Lemma concludes_nothing tk out :
  sum_Accessible out = None → sum_BlockingReason out = None → evidence tk BlockingNil → concludes tk out.
Proof. intros Ha Hr He. unfold concludes, verdict_fields, DetermineBlocking. cbn. by rewrite Ha, Hr. Qed.

Lemma concludes_blame tk out reason :
  sum_Accessible out = Some false → sum_BlockingReason out = Some reason → evidence tk (BlockingString reason) →
  concludes tk out.
Proof. intros Ha Hr He. unfold concludes, verdict_fields, DetermineBlocking. cbn. by rewrite Ha, Hr. Qed.

(** A page that failed. *)
Lemma concludes_failed tk request rest failure out :
  wc_Requests tk = request :: rest → http_Failure request = Some failure → wc_ControlFailure tk = None →
  ¬ final_url_is_https tk → sum_Accessible out = None → sum_BlockingReason out = None →
  concludes tk (let out := classify_http_failure failure out in
    if negb (IsNone (sum_BlockingReason out)) && (length (wc_Requests tk) =? 1)%nat &&
       is_some_string (wc_DNSConsistency tk) DNSInconsistent
    then flag StatusAnomalyDNS (out <| sum_BlockingReason := Some "dns" |>) else out).
Proof.
  intros Hreq Hfail Hc Hnot Ha Hr. destruct (classify_http_failure_reason failure out Hr) as [Er Ea].
  assert (Hpage : page_failed_with tk failure (length rest)) by (by exists request, rest).
  cbn zeta. rewrite Er.
  destruct (bool_decide_reflect (failure = FailureDNSNXDOMAINError)) as [->|Hnx].
  { rewrite bool_decide_true in Ea by set_solver.
    assert (He : evidence tk (BlockingString "dns")) by (split_and!; [done..|right; by eexists]).
    case_match; by eapply concludes_blame. }
  destruct (bool_decide_reflect (failure ∈ http_failures)) as [Hin|Hout].
  - rewrite bool_decide_true in Ea by set_solver. rewrite Hreq.
    destruct (is_some_string (wc_DNSConsistency tk) DNSInconsistent) eqn:Ei.
    + apply is_some_string_spec in Ei. destruct (Nat.eqb_spec (length (request :: rest)) 1) as [Hlen|Hlen].
      * eapply concludes_blame; [done..|]. split_and!; [done..|by left].
      * eapply concludes_blame; [done..|]. split_and!; [done..|]. exists failure, (length rest). cbn in Hlen. split_and!; [done..|lia].
    + apply is_some_string_false in Ei. rewrite andb_false_r.
      eapply concludes_blame; [done..|]. split_and!; [done..|]. exists failure, (length rest). by split_and!.
  - rewrite bool_decide_false in Ea by set_solver. cbn [IsNone negb andb]. apply concludes_nothing; [by rewrite Ea|done|].
    right; right; right; left. exists failure, (length rest). split; [done|]. set_solver.
Qed.

Lemma summarize_concludes tk : concludes tk (summarize tk).
Proof.
  unfold summarize.
  set (out := mkSummary None None BlockingNil 0).
  match goal with |- context [if ?b then flag StatusSuccessSecure _ else _] => destruct b eqn:Hhttps end.
  { apply concludes_accessible; [done|]. left. destruct (wc_Requests tk) as [|request rest] eqn:E; [done|].
    apply andb_true_iff in Hhttps as [Hf Hp]. exists request, rest. split_and!; [done| |done]. by destruct (http_Failure request). }
  assert (Hnot : ¬ final_url_is_https tk).
  { intros (request & rest & E & Hf & Hp). by rewrite E in Hhttps; cbn in Hhttps; rewrite Hf, Hp in Hhttps. }
  destruct (wc_ControlFailure tk) as [f|] eqn:Hc; cbn [IsNone negb].
  { apply concludes_nothing; [done..|]. left. congruence. }
  destruct (nxdomain_like _ && is_some_string _ DNSConsistent) eqn:Hnx.
  { apply andb_true_iff in Hnx as [Hnx ?%is_some_string_spec]. apply concludes_accessible; [done|]. right; left. done. }
  destruct (is_some_string _ DNSInconsistent && nxdomain_like _) eqn:Hinc.
  { apply andb_true_iff in Hinc as [?%is_some_string_spec _]. eapply concludes_blame; [done..|]. split_and!; [done..|by left]. }
  clear Hnx Hinc. destruct (_ && _ && _) eqn:Htcp.
  { rewrite !andb_true_iff, Z.ltb_lt, Z.leb_le in Htcp. destruct Htcp as [[Hatt Hsucc] Hdns].
    destruct (is_some_string _ DNSConsistent) eqn:Hcons.
    { apply is_some_string_spec in Hcons. by eapply concludes_blame. }
    destruct (is_some_string _ DNSInconsistent) eqn:Hincons.
    { apply is_some_string_spec in Hincons. eapply concludes_blame; [done..|]. split_and!; [done..|by left]. }
    apply is_some_string_false in Hcons, Hincons. apply concludes_nothing; [done..|].
    right; right; right; right. destruct (wc_DNSConsistency tk) as [c|]; [|done]. exists c. split; [done|]. set_solver. }
  destruct (thhttp_Failure (th_HTTPRequest (wc_Control tk))) as [f|] eqn:Hth; cbn [IsNone negb].
  { apply concludes_nothing; [done..|]. right; left. congruence. }
  destruct (wc_Requests tk) as [|request rest] eqn:Hreq; cbn [head hd_error].
  { apply concludes_nothing; [done..|]. right; right; by left. }
  destruct (http_Failure request) as [failure|] eqn:Hfail.
  { rewrite <-Hreq. by eapply concludes_failed. }
  assert (Hboth : both_fetched tk) by (split_and!; [done..|by exists request, rest]).
  destruct (expected_page tk) eqn:Hpage.
  { apply concludes_accessible; [done|]. right; right. done. }
  destruct (is_some_string _ DNSInconsistent) eqn:Hincons.
  - apply is_some_string_spec in Hincons. eapply concludes_blame; [done..|]. split_and!; [done..|by left].
  - apply is_some_string_false in Hincons. by eapply concludes_blame.
Qed.

(** C13: the fields of a summary of Web Connectivity v0.4 agree with each other, and each verdict is backed by what was
    observed: no blocking is a final page over HTTPS, a domain that the control cannot find either, or a page that
    matches the one of the control; each blocking reason has its own evidence, never when the control failed or the
    final page came over HTTPS; no verdict means that the control failed, that there is no page, or an error that is
    not classified. *)
Theorem Summarize_spec tk : verdict_fields (Summarize tk) ∧ evidence tk (sum_Blocking (Summarize tk)).
Proof. exact (summarize_concludes tk). Qed.

(** ** The comparison of the DNS results *)

(** A range over the masks finds a key of both sides that is not excluded. *)
Lemma common_marked `{RangeOrder} `{Countable K} site (ok : K → bool) (keys1 keys2 : list K) :
  existsb (λ '(key, value), ok key && in_both value) (range_map site (marked keys1 keys2)) = true ↔
  ∃ k, ok k = true ∧ k ∈ keys1 ∧ k ∈ keys2.
Proof.
  rewrite existsb_exists. split.
  - intros ([k v] & Hin & [Hok Hboth]%andb_true_iff). exists k. split; [done|].
    apply list_elem_of_In, range_map_elem, marked_value in Hin as [_ Hv]. by apply Hv.
  - intros (k & Hok & H1 & H2). destruct (marked_Some keys1 keys2 k) as [v Hv]; [by left|].
    exists (k, v). split; [by apply list_elem_of_In, range_map_elem|]. apply andb_true_iff. split; [done|].
    by apply (marked_value _ _ _ _ Hv).
Qed.

Section dns.
Context `{RangeOrder}.

(** The two sides failed to find the domain. *)
Definition both_nxdomain (measurement : DNSLookupResult) (control : THResponse) : Prop :=
  thdns_Failure (th_DNS control) = Some THDNSNameError ∧
  dl_Failure measurement ∈ [Some FailureDNSNXDOMAINError; Some FailureAndroidDNSCacheNoData].

(** They have an AS, or an address, in common. *)
Definition answers_overlap (measurement : DNSLookupResult) (control : THResponse) : Prop :=
  (∃ addr asn, dl_Addrs measurement !! addr = Some asn ∧ asn ≠ 0 ∧ asn ∈ thdns_ASNs (th_DNS control)) ∨
  (∃ addr, is_Some (dl_Addrs measurement !! addr) ∧ addr ≠ "" ∧ addr ∈ thdns_Addrs (th_DNS control)).

Lemma DNSAnalysis_overlap measurement control (asnmap := marked (range_map 33 (dl_Addrs measurement)).*2 (thdns_ASNs (th_DNS control)))
    (ipmap := marked (range_map 34 (dl_Addrs measurement)).*1 (thdns_Addrs (th_DNS control))) :
  common_asn asnmap = true ∨ common_ip ipmap = true ↔ answers_overlap measurement control.
Proof.
  unfold common_asn, common_ip, answers_overlap. subst asnmap ipmap. rewrite (common_marked _ (λ k, negb (k =? 0))).
  rewrite (common_marked _ (λ k, negb (String.eqb k ""))). f_equiv; split.
  - intros (k & Hk & (addr & Ha)%range_map_values & Hc). exists addr, k. split_and!; [done| |done]. by intros ->.
  - intros (addr & asn & Ha & Hne & Hc). exists asn. split_and!; [|apply range_map_values; by eexists|done].
    by apply negb_true_iff, Z.eqb_neq.
  - intros (k & Hk & Hin & Hc). apply list_elem_of_fmap in Hin as ([k' v] & -> & Hin). apply range_map_elem in Hin.
    exists k'. split_and!; [by eexists| |done]. cbn in Hk. by intros ->.
  - intros (addr & [v Ha] & Hne & Hc). exists addr. split_and!; [|apply list_elem_of_fmap; exists (addr, v); split; [done|by apply range_map_elem]|done].
    apply negb_true_iff. by destruct (String.eqb_spec addr "").
Qed.

(** The DNS is consistent exactly when the host is an address, or both sides say that the domain does not exist, or
    not both fail and they have an AS number or an address in common; otherwise it is inconsistent. *)
Theorem DNSAnalysis_spec URL measurement control (v := DNSAnalysis URL measurement control) :
  (v = Some DNSConsistent ∨ v = Some DNSInconsistent) ∧
  (v = Some DNSConsistent ↔
     is_Some (ParseIP (Hostname URL)) ∨ both_nxdomain measurement control ∨
     ((dl_Failure measurement = None ∨ thdns_Failure (th_DNS control) = None) ∧ answers_overlap measurement control)).
Proof.
  subst v. unfold DNSAnalysis. destruct (ParseIP (Hostname URL)) as [ip|]; cbn [IsNone negb].
  { split; [by left|]. split; [|done]. intros _. by left; eexists. }
  rewrite <-DNSAnalysis_overlap. unfold both_nxdomain, marked.
  assert (Hne : Some DNSInconsistent = Some DNSConsistent ↔ False) by done.
  destruct (dl_Failure measurement) as [mf|], (thdns_Failure (th_DNS control)) as [cf|].
  2-4: destruct (common_asn _), (common_ip _); (split; [by (left + right)|]); rewrite ?Hne; set_solver.
  destruct (String.eqb_spec cf THDNSNameError) as [->|Hcf]; cbn [andb].
  - case_bool_decide; (split; [by (left + right)|]); rewrite ?Hne; set_solver.
  - split; [by right|]. rewrite Hne. set_solver.
Qed.
End dns.

(** ** The connects *)

Lemma foldl_app_map {A B} (f : A → B) l acc : foldl (λ out x, out ++ [f x]) acc l = acc ++ map f l.
Proof.
  revert acc. induction l as [|x l IH]; intros acc; cbn; [by rewrite app_nil_r|]. by rewrite IH, <-app_assoc.
Qed.

(** An entry with what the control says about its endpoint. *)
Definition with_blocked (control : gmap string THTCPConnectResult) (me : ArchivalTCPConnectResult) : ArchivalTCPConnectResult :=
  match control !! JoinHostPort (tcp_IP me) (Itoa (tcp_Port me)) with
  | Some ce => me <| tcp_Status := (tcp_Status me) <| status_Blocked :=
      Some (IsNone (thtcp_Failure ce) && negb (IsNone (status_Failure (tcp_Status me)))) |> |>
  | None => me
  end.

Lemma ComputeTCPBlocking_spec l control : ComputeTCPBlocking l control = map (with_blocked control) l.
Proof. unfold ComputeTCPBlocking, with_blocked. by rewrite (foldl_app_map (λ me, match _ with Some ce => _ | None => _ end)). Qed.

(** The entries of all the getters, and how many succeeded. *)
Definition all_connects (keys : list ug_TestKeys) : list ArchivalTCPConnectResult := keys ≫= ugk_TCPConnect.
Definition successes (l : list ArchivalTCPConnectResult) : nat := length (filter (λ e, status_Success (tcp_Status e) = true) l).

Lemma count_entries l out :
  let out' := foldl (λ out entry,
      let out := if status_Success (tcp_Status entry) then out <| Successes ::= λ n, wrap64 (n + 1) |> else out in
      out <| Total ::= λ n, wrap64 (n + 1) |>) out l in
  ∀ k n, Successes out = wrap64 k → Total out = wrap64 n →
  AllKeys out' = AllKeys out ∧ Successes out' = wrap64 (k + Z.of_nat (successes l)) ∧ Total out' = wrap64 (n + Z.of_nat (length l)).
Proof.
  cbn zeta. revert out. unfold successes. induction l as [|e l IH]; intros out k n Hk Hn; cbn [foldl length].
  { cbn. by rewrite !Z.add_0_r. }
  rewrite filter_cons. destruct out as [keys s t]. cbn in Hk, Hn. subst s t. destruct (status_Success (tcp_Status e)).
  - rewrite decide_True by done. destruct (IH (mkConnectsResult keys (wrap64 (wrap64 k + 1)) (wrap64 (wrap64 n + 1))) (k + 1) (n + 1)) as (Ha & Hs & Ht);
      [cbn; apply wrap64_succ..|]. split_and!; [exact Ha|etrans; [exact Hs|]|etrans; [exact Ht|]]; f_equal; cbn [length]; lia.
  - rewrite decide_False by done. destruct (IH (mkConnectsResult keys (wrap64 k) (wrap64 (wrap64 n + 1))) k (n + 1)) as (Ha & Hs & Ht);
      [done|cbn; apply wrap64_succ|]. split_and!; [exact Ha|exact Hs|etrans; [exact Ht|]; f_equal; lia].
Qed.

Lemma connects_count_spec outputs (out := connects_count outputs) :
  AllKeys out = mo_TestKeys <$> outputs ∧
  Successes out = wrap64 (Z.of_nat (successes (all_connects (mo_TestKeys <$> outputs)))) ∧
  Total out = wrap64 (Z.of_nat (length (all_connects (mo_TestKeys <$> outputs)))).
Proof.
  subst out. unfold connects_count.
  enough (Hgen : ∀ out k n, Successes out = wrap64 k → Total out = wrap64 n →
    let out' := foldl (λ out multiout,
      let out := out <| AllKeys ::= λ l, l ++ [mo_TestKeys multiout] |> in
      foldl (λ out entry,
        let out := if status_Success (tcp_Status entry) then out <| Successes ::= λ n, wrap64 (n + 1) |> else out in
        out <| Total ::= λ n, wrap64 (n + 1) |>) out (ugk_TCPConnect (mo_TestKeys multiout))) out outputs in
    AllKeys out' = AllKeys out ++ (mo_TestKeys <$> outputs) ∧
    Successes out' = wrap64 (k + Z.of_nat (successes (all_connects (mo_TestKeys <$> outputs)))) ∧
    Total out' = wrap64 (n + Z.of_nat (length (all_connects (mo_TestKeys <$> outputs))))).
  { exact (Hgen (mkConnectsResult [] 0 0) 0 0 eq_refl eq_refl). }
  induction outputs as [|o outputs IH]; intros out k n Hk Hn; cbn zeta.
  { cbn. by rewrite app_nil_r, !Z.add_0_r. }
  cbn [foldl]. destruct (count_entries (ugk_TCPConnect (mo_TestKeys o)) (out <| AllKeys ::= λ l, l ++ [mo_TestKeys o] |>) k n) as (E1 & E2 & E3);
    [by destruct out..|].
  destruct (IH _ _ _ E2 E3) as (Ea & Es & Et). unfold all_connects, successes in *. csimpl.
  rewrite filter_app, !length_app. split_and!.
  - etrans; [exact Ea|]. rewrite E1. destruct out as [keys s t]. cbn. by rewrite <-app_assoc.
  - etrans; [exact Es|]. f_equal. lia.
  - etrans; [exact Et|]. f_equal. lia.
Qed.

(** The loop that tags and stores what the connects observed. *)
Lemma add_connects tk keys :
  foldl add_connect tk keys =
  tk <| wc_TCPConnect ::= λ l, l ++ map (with_blocked (th_TCPConnect (wc_Control tk))) (all_connects keys) |>
     <| wc_NetworkEvents ::= λ l, l ++ (keys ≫= λ k, map (λ ev, ev <| net_Tags := [TCPTLSExperimentTag] |>) (ugk_NetworkEvents k)) |>
     <| wc_TLSHandshakes ::= λ l, l ++ (keys ≫= λ k, map (λ ev, ev <| tls_Tags := [TCPTLSExperimentTag] |>) (ugk_TLSHandshakes k)) |>.
Proof.
  revert tk. induction keys as [|k keys IH]; intros tk; cbn [foldl].
  { destruct tk. cbn. unfold constant. by rewrite !app_nil_r. }
  rewrite IH. unfold add_connect, all_connects. rewrite ComputeTCPBlocking_spec. destruct tk. cbn. unfold constant.
  by rewrite <-!app_assoc, map_app.
Qed.

Lemma successes_blocked control l : successes (map (with_blocked control) l) = successes l.
Proof.
  unfold successes. induction l as [|e l IH]; [done|]. cbn [map]. rewrite !filter_cons.
  assert (E : status_Success (tcp_Status (with_blocked control e)) = status_Success (tcp_Status e)).
  { unfold with_blocked. case_match; [|done]. by destruct e as [ip port [b f s] ta tb tags id]. }
  rewrite E. case_decide; cbn [length]; by rewrite IH.
Qed.

(** ** The experiment *)

Section run.
Context `{RangeOrder} `{UnicodeTables}.
Context (parse_error : string → error) (LookupASN : string → Z * string).
Context (net : primitives) (start_tunnel : string → saving (result error (Duration * URL))).
Context (overlapped_Map : list Endpoint → list (OverlappedErrorOr (option THResponse))).
Context (Multi_Collect : option Time → list (MultiInput ug_Config) → saving (list (MultiOutput ug_Config ug_TestKeys))).

(** What a getter of the pool may return, at any time. *)
Definition getter_runs (Begin : option Time) (input : MultiInput ug_Config) (res : option error * ug_TestKeys) : Prop :=
  ∃ s s', getter_Get parse_error LookupASN net start_tunnel Begin (mi_Config input) (mi_Target input) s = Ok ((res.2, res.1), s').

(** What the pool leaves in the channel. *)
Definition pool_outputs (Begin : option Time) (inputs : list (MultiInput ug_Config)) : list (MultiOutput ug_Config ug_TestKeys) → Prop :=
  multi_collected (getter_runs Begin) (multi_parallelism 0) inputs 0 (Z.of_nat (length inputs)) "check".

Context (Hnet : good_network parse_error net start_tunnel).
Context (Hmulti : ∀ Begin URL urls, let inputs := connects_inputs URL urls in
  returns (Multi_Collect Begin inputs) (pool_outputs Begin inputs)).
Context (helpers : list OOAPIService).
Context (Hmap : map_results overlapped_Map (NewEndpointFromModelOOAPIServices helpers)).

(** The control: a failure and nothing else, or a response and one of the helpers. *)
Definition control_result (control : THResponse) (usedTH : option OOAPIService) (failure : option string) : Prop :=
  match failure with
  | Some f => failure_ok f ∧ control = zero_THResponse ∧ usedTH = None
  | None => ∃ th, usedTH = Some th ∧ th ∈ helpers
  end.

Lemma wc_Control_returns :
  ∃ control usedTH err failure, wc_Control_call LookupASN overlapped_Map helpers = Ok (control, usedTH, err) ∧
    tracex_NewFailure err = Ok failure ∧ control_result control usedTH failure.
Proof.
  unfold wc_Control_call, CallWebConnectivityTestHelper.
  assert (Hfail : ∀ err, wrappers_ok err → ∃ e failure, NewTopLevelGenericErrWrapper (Some err) = Ok e ∧
    tracex_NewFailure (Some e) = Ok (Some failure) ∧ failure_ok failure) by apply control_failure.
  destruct (Nat.leb_spec (length helpers) 0) as [Hlen|Hlen]; cbn [mbind outcome_bind].
  { destruct (Hfail ErrNoAvailableTestHelpers) as (e & failure & -> & Hf & Hok); [apply no_wrapper|].
    cbn [mbind outcome_bind]. by eexists _, _, _, (Some failure). }
  pose proof (map_results_reduce _ _ Hmap) as Hred. pose proof (endpoints_length helpers) as Hle.
  destruct (OverlappedReduce _) as [[cresp idx]|err]; cbn [mbind outcome_bind].
  - destruct Hred as [[resp ->] Hidx]. assert (Hlt : (idx < length helpers)%nat) by lia.
    destruct (lookup_lt_is_Some_2 helpers idx Hlt) as [th Hth].
    rewrite (proj2 (Nat.ltb_lt _ _) Hlt). cbn [Assert IsNone negb mbind outcome_bind Unwrap].
    rewrite (proj2 (Nat.ltb_lt _ _) Hlt). cbn [Assert mbind outcome_bind].
    eexists _, _, None, None. split_and!; [done|done|]. rewrite Hth. exists th. split; [done|]. by eapply list_elem_of_lookup_2.
  - destruct (Hfail err Hred) as (e & failure & -> & Hf & Hok). cbn [mbind outcome_bind].
    by eexists _, _, _, (Some failure).
Qed.

(** The host of the URL is a name, an IPv4 address, or has a port. *)
Definition host_ok (URL : URL) : Prop := Host URL = Hostname URL ∨ ∃ host port, SplitHostPort (Host URL) = Val (host, port).

Lemma NewEndpoints_ok URL addrs : Scheme URL ∈ ["http"; "https"] → host_ok URL → ∃ epnts, NewEndpoints URL addrs = Ok epnts.
Proof.
  intros Hs Hh. unfold NewEndpoints, NewEndpointPort. rewrite bool_decide_true by done. cbn [negb].
  case_match; (destruct (String.eqb_spec (Host URL) (Hostname URL)); cbn [negb mbind outcome_bind]; [by eexists|]);
    (destruct Hh as [?|(h & p & ->)]; [done|]); cbn [mbind outcome_bind]; by eexists.
Qed.

(** Otherwise the experiment panics, with this message. *)
Lemma NewEndpoints_panics URL addrs :
  Scheme URL ∈ ["http"; "https"] → ¬ host_ok URL → NewEndpoints URL addrs = Panic "SplitHostPort should not fail here".
Proof.
  intros Hs Hh. unfold NewEndpoints, NewEndpointPort. rewrite bool_decide_true by done. cbn [negb].
  case_match; (destruct (String.eqb_spec (Host URL) (Hostname URL)); cbn [negb mbind outcome_bind]; [destruct Hh; by left|]);
    (destruct (SplitHostPort (Host URL)) as [[h p]|e] eqn:E; cbn [mbind outcome_bind]; [destruct Hh; right; by exists h, p|done]).
Qed.

Lemma host_ok_dec URL : host_ok URL ∨ ¬ host_ok URL.
Proof.
  unfold host_ok. destruct (decide (Host URL = Hostname URL)); [by left; left|].
  destruct (SplitHostPort (Host URL)) as [[h p]|e]; [left; right; by exists h, p|right; naive_solver].
Qed.

(** The addresses in the answers of the queries, in order. *)
Definition addresses_of (Queries : list ArchivalDNSLookupResult) : list string :=
  merge_sort String.le (map_to_list (answers_addrs Queries)).*1.

(** What holds of the test keys, and of the test helper that is recorded, when the experiment is over. *)
Record wc_consistent (Begin : option Time) (URL : URL) (tk : wc_TestKeys) (usedTH : option OOAPIService) : Prop := {
  con_fields : verdict_fields (wc_Summary tk);
  con_evidence : evidence tk (sum_Blocking (wc_Summary tk));
  con_control : control_result (wc_Control tk) usedTH (wc_ControlFailure tk);
  con_dns : match wc_ControlFailure tk with
            | None => wc_DNSConsistency tk = Some DNSConsistent ∨ wc_DNSConsistency tk = Some DNSInconsistent
            | Some _ => wc_DNSConsistency tk = None
            end;
  con_attempts : wc_TCPConnectAttempts tk = wrap64 (Z.of_nat (length (wc_TCPConnect tk)));
  con_successes : wc_TCPConnectSuccesses tk = wrap64 (Z.of_nat (successes (wc_TCPConnect tk)));
  con_lookup : ∃ dns s s', DNSLookup parse_error LookupASN net start_tunnel Begin URL s = Ok (dns, s') ∧
    wc_Queries tk = ugk_Queries (dl_TestKeys dns) ∧ wc_DNSExperimentFailure tk = dl_Failure dns;
  con_connects : ∃ epnts outputs, NewEndpoints URL (addresses_of (wc_Queries tk)) = Ok epnts ∧
    mo_Input <$> outputs ≡ₚ connects_inputs URL (URLs epnts) ∧
    Forall (λ o, getter_runs Begin (mo_Input o) (mo_Err o, mo_TestKeys o)) outputs ∧
    wc_TCPConnect tk = map (with_blocked (th_TCPConnect (wc_Control tk))) (all_connects (mo_TestKeys <$> outputs));
}.

Lemma evidence_summary tk s v : evidence (tk <| wc_Summary := s |>) v = evidence tk v.
Proof. by destruct tk. Qed.

Lemma timed_returns {A} (m : saving A) (P : A → Prop) : returns m P → returns (timed m) (λ '(a, _), P a).
Proof.
  intros Hm. unfold timed. eapply (returns_bind _ _ (λ _, True)); [by apply returns_clock|]. intros start _.
  eapply returns_bind; [exact Hm|]. intros a Ha.
  eapply (returns_bind _ _ (λ _, True)); [by apply returns_clock|]. intros stop _. by apply returns_ret.
Qed.

Lemma DNSLookup_returns Begin URL :
  returns (DNSLookup parse_error LookupASN net start_tunnel Begin URL) (λ dns, Addresses dns = addresses_of (ugk_Queries (dl_TestKeys dns)) ∧
    ∃ s s', DNSLookup parse_error LookupASN net start_tunnel Begin URL s = Ok (dns, s')).
Proof.
  assert (Hr : returns (DNSLookup parse_error LookupASN net start_tunnel Begin URL)
    (λ dns, Addresses dns = addresses_of (ugk_Queries (dl_TestKeys dns)))).
  { unfold DNSLookup. cbn zeta. eapply (returns_bind _ _ (λ _, True)).
    { eapply returns_impl; [by apply getter_Get_returns; [exact Hnet|left]|done]. }
    intros [result err] _. by apply returns_ret. }
  intros s. destruct (Hr s) as (dns & s' & E & Ha). exists dns, s'. split; [done|]. split; [done|]. by exists s, s'.
Qed.

Lemma HTTPGet_returns Begin URL addrs : returns (HTTPGet parse_error LookupASN net start_tunnel Begin URL addrs) (λ _, True).
Proof.
  unfold HTTPGet. cbn zeta. destruct (String.eqb _ ""); [by apply returns_ret|]. eapply (returns_bind _ _ (λ _, True)).
  { eapply returns_impl; [by apply getter_Get_returns; [exact Hnet|left]|done]. }
  intros [result err] _. by apply returns_ret.
Qed.

Lemma Connects_returns Begin URL urls :
  returns (Connects Multi_Collect Begin URL urls) (λ out, ∃ outputs, out = connects_count outputs ∧
    mo_Input <$> outputs ≡ₚ connects_inputs URL urls ∧
    Forall (λ o, getter_runs Begin (mo_Input o) (mo_Err o, mo_TestKeys o)) outputs).
Proof.
  unfold Connects. eapply returns_bind; [apply Hmulti|]. intros outputs Hout. apply returns_ret. exists outputs. split; [done|].
  by apply multi_collected_spec in Hout.
Qed.

(** The test keys before the summary. *)
Lemma measured_consistent Begin URL tk usedTH dns epnts outputs runtime http runtime' analysis requests :
  wc_TCPConnect tk = [] → control_result (wc_Control tk) usedTH (wc_ControlFailure tk) →
  match wc_ControlFailure tk with
  | None => wc_DNSConsistency tk = Some DNSConsistent ∨ wc_DNSConsistency tk = Some DNSInconsistent
  | Some _ => wc_DNSConsistency tk = None
  end →
  wc_Queries tk = ugk_Queries (dl_TestKeys dns) → wc_DNSExperimentFailure tk = dl_Failure dns →
  (∃ s s', DNSLookup parse_error LookupASN net start_tunnel Begin URL s = Ok (dns, s')) →
  NewEndpoints URL (addresses_of (wc_Queries tk)) = Ok epnts → mo_Input <$> outputs ≡ₚ connects_inputs URL (URLs epnts) →
  Forall (λ o, getter_runs Begin (mo_Input o) (mo_Err o, mo_TestKeys o)) outputs →
  let result := connects_count outputs in
  let tk := foldl add_connect (tk <| wc_TCPTLSRuntime := runtime |>) (AllKeys result) in
  let tk := tk <| wc_TCPConnectAttempts := Total result |> <| wc_TCPConnectSuccesses := Successes result |> in
  let tk := tk <| wc_HTTPRuntime := runtime' |> <| wc_HTTPExperimentFailure := http |> <| wc_Requests ::= λ l, l ++ requests |> in
  let tk := tk <| wc_HTTPAnalysisResult := analysis |> in
  wc_consistent Begin URL (tk <| wc_Summary := Summarize tk |>) usedTH.
Proof.
  intros Ht Hc Hd Hq Hf (s0 & s1 & Hdns) He Hin Hout. cbn zeta. rewrite add_connects. destruct (connects_count_spec outputs) as (-> & -> & ->).
  destruct tk. cbn in Ht, Hc, Hd, Hq, Hf, He. subst.
  match goal with |- context [Summarize ?t] => set (tk := t) end.
  destruct (summarize_concludes tk) as [Hv He'].
  constructor.
  - exact Hv.
  - rewrite evidence_summary. exact He'.
  - exact Hc.
  - exact Hd.
  - subst tk. cbn. unfold constant. cbn. by rewrite length_map.
  - subst tk. cbn -[successes]. unfold constant. cbn -[successes]. by rewrite successes_blocked.
  - by exists dns, s0, s1.
  - exists epnts, outputs. split_and!; try done.
Qed.

Abbreviation wc_measure_of := (wc_measure parse_error LookupASN net start_tunnel overlapped_Map Multi_Collect).
Abbreviation wc_Run_of := (wc_Run parse_error LookupASN net start_tunnel overlapped_Map Multi_Collect).

Lemma wc_measure_returns Begin URL tk :
  Scheme URL ∈ ["http"; "https"] → host_ok URL → wc_TCPConnect tk = [] → wc_DNSConsistency tk = None → wc_Queries tk = [] →
  returns (wc_measure_of Begin helpers URL tk) (λ '(tk, usedTH, creq), wc_consistent Begin URL tk usedTH).
Proof.
  intros Hs Hh Ht Hd Hq. unfold wc_measure.
  eapply returns_bind; [apply timed_returns, DNSLookup_returns|]. intros [dnsResult r1] [Ha Hdns]. cbv beta iota zeta.
  destruct (NewEndpoints_ok URL (Addresses dnsResult) Hs Hh) as [epnts He].
  eapply (returns_bind _ _ (eq epnts)); [by eapply returns_lift|]. intros ? <-.
  destruct wc_Control_returns as (control & usedTH & err & failure & Ec & Ef & Hc).
  eapply (returns_bind _ _ (λ '(called, _), called = (control, usedTH, err))).
  { apply (timed_returns _ (λ called, called = (control, usedTH, err))). by eapply returns_lift. }
  intros [? r2] ->. eapply (returns_bind _ _ (eq failure)); [by eapply returns_lift|]. intros ? <-.
  eapply returns_bind; [apply timed_returns, Connects_returns|]. intros [out r3] (outputs & -> & Hin & Hout).
  eapply returns_bind; [apply timed_returns, HTTPGet_returns|]. intros [httpResult r4] _. apply returns_ret.
  eapply (measured_consistent _ _ _ _ dnsResult epnts); [..|exact Hin|exact Hout].
  - destruct tk. cbn in Ht. subst. by destruct failure.
  - destruct tk. by destruct failure.
  - destruct tk. cbn in Hd. subst. destruct failure; [done|]. exact (proj1 (DNSAnalysis_spec URL dnsResult control)).
  - destruct tk. cbn in Hq. subst. by destruct failure.
  - destruct tk. by destruct failure.
  - exact Hdns.
  - rewrite Ha in He. rewrite <-He. destruct tk. cbn in Hq. subst. by destruct failure.
Qed.

Lemma wc_measure_panics Begin URL tk s :
  Scheme URL ∈ ["http"; "https"] → ¬ host_ok URL →
  wc_measure_of Begin helpers URL tk s = Panic "SplitHostPort should not fail here".
Proof.
  intros Hs Hh. unfold wc_measure.
  destruct (timed_returns _ _ (DNSLookup_returns Begin URL) s) as ([dns r] & s' & E & _).
  unfold mbind at 1, saving_bind at 1. rewrite E. cbn [mbind outcome_bind].
  unfold mbind at 1, saving_bind at 1. unfold saver_lift at 1. by rewrite (NewEndpoints_panics _ _ Hs Hh).
Qed.

(** C14: the experiment returns or panics, and it panics exactly when the input is a URL with the scheme HTTP or HTTPS whose host
    is neither the host name nor a host and a port that can be split (an IPv6 literal without port, as in [http://[::1]/], or a host with
    several colons, as in [http://a:b:80/]), and there are test helpers. It fails only for an input
    that is empty, does not parse or has another scheme, and without test helpers; otherwise the verdict is backed by its evidence, the
    control either failed or names one of the test helpers, the DNS consistency is known exactly when the control
    worked, the queries are those of one lookup of the host name, one getter ran for each endpoint of the addresses that these
    queries give, and the counters are those of the connects it reports. *)
Theorem wc_Run_spec Begin Input ResolverIP s :
  (∃ URL, url_Parse Input = Some URL ∧ Input ≠ "" ∧ (Scheme URL ∈ ["http"; "https"]) ∧ helpers ≠ [] ∧ ¬ host_ok URL ∧
     wc_Run_of Begin Input ResolverIP helpers s = Panic "SplitHostPort should not fail here") ∨
  ∃ tk usedTH err s', wc_Run_of Begin Input ResolverIP helpers s = Ok ((tk, usedTH, err), s') ∧
    match err with
    | Some err => usedTH = None ∧
        ((Input = "" ∧ err = ErrNoInput) ∨ (url_Parse Input = None ∧ err = ErrInputIsNotAnURL) ∨
         (∃ URL, url_Parse Input = Some URL ∧ ¬ (Scheme URL ∈ ["http"; "https"]) ∧ err = ErrUnsupportedInput) ∨
         (helpers = [] ∧ err = ErrNoAvailableTestHelpers))
    | None => ∃ URL, url_Parse Input = Some URL ∧ (Scheme URL ∈ ["http"; "https"]) ∧ host_ok URL ∧ helpers ≠ [] ∧
        wc_consistent Begin URL tk usedTH
    end.
Proof.
  unfold wc_Run. cbn zeta. destruct (String.eqb_spec Input "") as [->|Hne].
  { right. eexists _, _, _, s. split; [done|]. split; [done|by left]. }
  destruct (url_Parse Input) as [URL|] eqn:Hu.
  2: { right. eexists _, _, _, s. split; [done|]. split; [done|right; by left]. }
  case_bool_decide as Hs; cbn [negb].
  2: { right. eexists _, _, _, s. split; [done|]. split; [done|]. right; right; left. by exists URL. }
  destruct (Nat.ltb_spec (length helpers) 1) as [Hl|Hl].
  { right. eexists _, _, _, s. split; [done|]. split; [done|]. right; right; right. split; [|done]. apply nil_length_inv. lia. }
  assert (Hhelpers : helpers ≠ []) by (intros Enil; rewrite Enil in Hl; cbn in Hl; lia).
  destruct (host_ok_dec URL) as [Hhost|Hhost].
  - right. match goal with |- context [wc_measure _ _ _ _ _ _ _ _ _ ?t] =>
      destruct (wc_measure_returns Begin URL t Hs Hhost eq_refl eq_refl eq_refl s) as ([[tk usedTH] creq] & s' & E & Hp) end.
    exists tk, usedTH, None, s'. split; [unfold mbind at 1, saving_bind; by rewrite E|by exists URL].
  - left. exists URL. split_and!; try done. unfold mbind at 1, saving_bind at 1. by rewrite wc_measure_panics.
Qed.
End run.

(** ** A pool of getters that run one after the other, and a test helper that answers *)

Section sequential.
Context (get : MultiInput ug_Config → saving (ug_TestKeys * option error)).

Fixpoint sequential_pool (inputs : list (MultiInput ug_Config)) : saving (list (MultiOutput ug_Config ug_TestKeys)) :=
  match inputs with
  | [] => mret []
  | input :: inputs =>
      '(tk, err) ← get input;
      outputs ← sequential_pool inputs;
      mret (mkMultiOutput input err tk :: outputs)
  end.

Lemma sequential_pool_returns inputs :
  (∀ input s, input ∈ inputs → is_Ok (get input s)) →
  returns (sequential_pool inputs) (λ outputs, mo_Input <$> outputs = inputs ∧
    Forall (λ o, ∃ s s', get (mo_Input o) s = Ok ((mo_TestKeys o, mo_Err o), s')) outputs).
Proof.
  intros Hget. induction inputs as [|input inputs IH]; cbn [sequential_pool]; [by apply returns_ret|].
  eapply (returns_bind _ _ (λ '(tk, err), ∃ s s', get input s = Ok ((tk, err), s'))).
  { intros s. destruct (Hget input s) as [[[tk err] s'] E]; [by left|]. exists (tk, err), s'. split; [done|]. by exists s, s'. }
  intros [tk err] Hrun. eapply returns_bind; [apply IH; intros; apply Hget; by right|]. intros outputs [Hin Hout]. apply returns_ret. split.
  - cbn. by rewrite Hin.
  - by constructor.
Qed.
End sequential.

Definition sample_pool (net : primitives) (Begin : option Time) : list (MultiInput ug_Config) → saving (list (MultiOutput ug_Config ug_TestKeys)) :=
  sequential_pool (λ input, getter_Get sample_url_error (λ _, (0, "")) net no_tunnel Begin (mi_Config input) (mi_Target input)).


Lemma connects_inputs_spec URL urls : connects_inputs URL urls = map (λ url, mkMultiInput (ug_default <| ug_TLSServerName := Hostname URL |>) url) urls.
Proof. unfold connects_inputs. by rewrite foldl_app_map. Qed.

Lemma sample_pool_ok net :
  good_network sample_url_error net no_tunnel → ∀ Begin URL urls, let inputs := connects_inputs URL urls in
  returns (sample_pool net Begin inputs) (pool_outputs sample_url_error (λ _, (0, "")) net no_tunnel Begin inputs).
Proof.
  intros Hnet Begin URL urls inputs. eapply returns_impl; [apply sequential_pool_returns|].
  - intros input s Hin. subst inputs. rewrite connects_inputs_spec in Hin. apply list_elem_of_fmap in Hin as (url & -> & _).
    assert (Hm : method_ok (ug_default <| ug_TLSServerName := Hostname URL |>)) by (by left).
    destruct (getter_Get_returns sample_url_error (λ _, (0, "")) net no_tunnel Hnet Begin _ url Hm s) as (res & s' & E & _).
    by exists (res, s').
  - intros outputs [Hin Hout]. apply multi_sequential; [by apply Nat.ltb_lt|exact Hout|exact Hin].
Qed.

Definition sample_helpers : list OOAPIService := [{| svc_Address := "https://th.example"; svc_Type := "https"; svc_Front := "" |}].
Definition sample_response : THResponse :=
  zero_THResponse <| th_HTTPRequest := {| thhttp_BodyLength := 4; thhttp_DiscoveredH3Endpoint := ""; thhttp_Failure := None;
                       thhttp_Title := ""; thhttp_Headers := ∅; thhttp_StatusCode := 404 |} |>
                  <| th_DNS := {| thdns_Failure := None; thdns_Addrs := ["1.1.1.1"]; thdns_ASNs := [] |} |>.
Definition sample_Map (epnts : list Endpoint) : list (OverlappedErrorOr (option THResponse)) :=
  [mkErrorOr 0 (Val (Some sample_response))].

Lemma sample_Map_ok : map_results sample_Map (NewEndpointFromModelOOAPIServices sample_helpers).
Proof.
  exists (λ _ res, res = Val (Some sample_response)). set (r := mkErrorOr 0 (Val (Some sample_response))).
  exists (mkOverlapped AtTop 1 [] [r] false false true).
  split_and!; [|split; first [reflexivity | apply Nat.leb_le; vm_compute; reflexivity]|done|by intros i v [= ->]|by intros i err [=]].
  apply (overlapped_next _ _ (mkOverlapped AtSelect 1 [Writing r] [] true false false));
    [apply (overlapped_next _ _ (mkOverlapped AtSelect 1 [Running 0] [] true false false));
       [apply (overlapped_next _ _ overlapped_start); [apply overlapped_init|]|]|].
  - apply (step_spawn _ _ overlapped_start); first [reflexivity | apply Nat.ltb_lt; vm_compute; reflexivity].
  - by apply (step_finish _ _ (mkOverlapped AtSelect 1 [Running 0] [] true false false) [] 0 []).
  - by apply (step_receive _ _ (mkOverlapped AtSelect 1 [Writing r] [] true false false) [] r []).
Qed.

(** The experiment with a network, for an input. *)
Definition sample_run (net : primitives) (Input : string) : outcome ((wc_TestKeys * option OOAPIService * option error) * Saver) :=
  @wc_Run range_ascending ascii_only_tables sample_url_error (λ _, (0, "")) net no_tunnel sample_Map (sample_pool net) None Input "8.8.8.8"
    sample_helpers sample_saver.

Definition sample_verdict (net : primitives) (Input : string) : option (option bool * blocking * Z * option string * option string) :=
  match sample_run net Input with
  | Ok ((tk, _, _), _) => Some (sum_Accessible (wc_Summary tk), sum_Blocking (wc_Summary tk), sum_Status (wc_Summary tk),
      wc_DNSConsistency tk, wc_HTTPExperimentFailure tk)
  | Panic _ => None
  end.

Example https_accessible :
  sample_verdict sample_net "https://x.org/" = Some (Some true, BlockingFalse, StatusSuccessSecure, Some "consistent", None).
Proof. vm_compute. reflexivity. Qed.

(** Both endpoints refuse the connection. *)
Example http_tcp_ip :
  sample_verdict sample_net "http://x.org/" =
  Some (Some false, BlockingString "tcp_ip", Z.lor StatusAnomalyConnect StatusExperimentConnect, Some "consistent", None).
Proof. vm_compute. reflexivity. Qed.

Lemma wc_Run_spec_witness :
  good_network sample_url_error sample_net no_tunnel ∧
  map_results sample_Map (NewEndpointFromModelOOAPIServices sample_helpers) ∧
  (∃ tk usedTH err s', sample_run sample_net "http://x.org/" = Ok ((tk, usedTH, err), s')) ∧
  sample_run sample_net "http://a:b:80/" = Panic "SplitHostPort should not fail here".
Proof.
  split; [exact sample_net_good|]. split; [exact sample_Map_ok|].
  assert (Hspec := @wc_Run_spec range_ascending ascii_only_tables sample_url_error (λ _, (0, "")) sample_net no_tunnel sample_Map
    (sample_pool sample_net) sample_net_good (sample_pool_ok sample_net sample_net_good) sample_helpers sample_Map_ok None).
  split.
  - destruct (Hspec "http://x.org/" "8.8.8.8" sample_saver) as [(URL & [= <-] & _ & _ & _ & Hh & _)|(tk & usedTH & err & s' & E & _)].
    + destruct Hh. by left.
    + exists tk, usedTH, err, s'. exact E.
  - destruct (Hspec "http://a:b:80/" "8.8.8.8" sample_saver) as [(URL & _ & _ & _ & _ & _ & E)|(tk & usedTH & err & s' & E & Hr)]; [exact E|].
    destruct err as [err|].
    + destruct Hr as (_ & [[Hi _]|[[Hu _]|[(URL & [= <-] & Hs & _)|[Hh _]]]]); [discriminate| discriminate| |discriminate].
      exfalso. apply Hs. by left.
    + destruct Hr as (URL & [= <-] & _ & [Hh|(h & p & Hh)] & _); vm_compute in Hh; discriminate.
Defined.

(** ** Inputs that the experiment does not handle *)

(** [NewEndpointPort] panics for an IPv6 address without port, which [url.Parse] accepts: the host has brackets, the host name
    does not, and there is no port to split. *)
Lemma ipv6_literal_panics : sample_run sample_net "http://[::1]/" = Panic "SplitHostPort should not fail here".
Proof. vm_compute. reflexivity. Qed.

(** The page of an internationalised domain is never fetched: the getter refuses the name in its cache, and the summary
    reports the case that should never happen. *)
Lemma idn_page_not_fetched :
  sample_verdict (sample_net <| dialer_DialContext := λ _, DialerSaver_DialContext (λ _ _, mret (Val tt)) |>) "http://xn--80ak6aa92e.com/" =
  Some (None, BlockingNil, StatusBugNoRequests, Some "consistent", Some "unknown_failure: invalid domain in DNSCache").
Proof. vm_compute. reflexivity. Qed.

(** So it does when the resolver of the probe misbehaves, although the control finds the domain. *)
Definition misbehaving_resolver : primitives :=
  sample_net <| resolver_LookupHost := λ _, ResolverSaver_LookupHost ("system", "")
    (λ _, mret (Err (ErrWrapper FailureDNSServerMisbehaving "resolve" (ErrValue "" [] "server misbehaving")))) |>.

Lemma no_addresses_is_bug :
  sample_verdict misbehaving_resolver "http://x.org/" = Some (None, BlockingNil, StatusBugNoRequests, Some "inconsistent", None).
Proof. vm_compute. reflexivity. Qed.
