(* ===== verification/Messaging.v ===== *)
(** * Experiments on messaging applications

    [pkg/experiment/telegram], [whatsapp], [fbmessenger] and [signal]: each runs a pool of
    getters over a fixed list of targets and folds what comes back, in any order, into test keys.  The verdict
    of each experiment is stated in terms of the outputs as a set, so that it does not depend on their order. *)
From S2P Require Import Prelude Failures GoString GoFloat GoNet GoURL Archival NetErrors GoRegexp.
From S2P Require Import Scrubber LteControl.
From S2P Require Import NetDNS GoHTTP Tracing NetPrimitives Tracex UrlGetter UrlMulti.
From Stdlib Require Import Ascii.

Abbreviation Input := (MultiInput ug_Config).
Abbreviation Output := (MultiOutput ug_Config ug_TestKeys).

(** The entries that every [Update] appends. *)
Definition append_keys (v tk : ug_TestKeys) : ug_TestKeys :=
  tk <| ugk_NetworkEvents ::= λ l, l ++ ugk_NetworkEvents v |> <| ugk_Queries ::= λ l, l ++ ugk_Queries v |>
     <| ugk_Requests ::= λ l, l ++ ugk_Requests v |> <| ugk_TCPConnect ::= λ l, l ++ ugk_TCPConnect v |>
     <| ugk_TLSHandshakes ::= λ l, l ++ ugk_TLSHandshakes v |>.

Definition im_input (method target : string) : Input := mkMultiInput (ug_default <| ug_Method := method |>) target.

(** The pool: what [Collect] leaves in the channel, for the prefix of the progress. *)
Section messaging.
Context (Collect : string → list Input → saving (list Output)).
(** [rnd.Shuffle] *)
Context (Shuffle : list Input → list Input).

(** ** [telegram.go] *)

Record tg_TestKeys := mkTGTestKeys {
  tg_keys : ug_TestKeys;
  TelegramHTTPBlocking : bool;
  TelegramTCPBlocking : bool;
  TelegramWebFailure : option string;
  TelegramWebStatus : string;
}.

Definition tg_NewTestKeys : tg_TestKeys := mkTGTestKeys ug_zero true true None "ok".

Definition tg_Update (tk : tg_TestKeys) (v : Output) : tg_TestKeys :=
  let tk := tk <| tg_keys ::= append_keys (mo_TestKeys v) |> in
  if negb (String.eqb (ug_Method (mi_Config (mo_Input v))) "GET") then
    if IsNone (ugk_Failure (mo_TestKeys v))
    then tk <| TelegramHTTPBlocking := false |> <| TelegramTCPBlocking := false |>
    else if negb (bool_decide (ugk_FailedOperation (mo_TestKeys v) = Some ConnectOperation))
    then tk <| TelegramTCPBlocking := false |>
    else tk
  else
    match ugk_Failure (mo_TestKeys v) with
    | Some failure => tk <| TelegramWebStatus := "blocked" |> <| TelegramWebFailure := Some failure |>
    | None => tk
    end.

Definition DatacenterIPAddrs : list string :=
  ["149.154.175.50"; "149.154.167.51"; "149.154.175.100"; "149.154.167.91"; "149.154.171.5"; "95.161.76.100"].

Definition tg_inputs : list Input :=
  foldl (λ inputs dc, (inputs ++ [im_input "POST" ("http://" +:+ dc +:+ "/")]) ++ [im_input "POST" ("http://" +:+ dc +:+ ":443/")])
    [im_input "GET" "https://web.telegram.org/"] DatacenterIPAddrs.

Definition tg_start : tg_TestKeys := tg_NewTestKeys <| tg_keys ::= λ k, k <| ugk_Agent := "redirect" |> |>.

Definition tg_Run : saving tg_TestKeys :=
  outputs ← Collect "telegram" tg_inputs;
  mret (foldl tg_Update tg_start outputs).

(** The summary keys: HTTP, TCP and web blocking, and whether there is an anomaly. *)
Definition tg_MeasurementSummaryKeys (tk : tg_TestKeys) : bool * bool * bool * bool :=
  let tcpBlocking := TelegramTCPBlocking tk in
  let httpBlocking := TelegramHTTPBlocking tk in
  let webBlocking := negb (IsNone (TelegramWebFailure tk)) in
  (httpBlocking, tcpBlocking, webBlocking, webBlocking || httpBlocking || tcpBlocking).

(** ** [whatsapp.go] *)

Definition RegistrationServiceURL : string := "https://v.whatsapp.net/v2/register".
Definition WebHTTPSURL : string := "https://web.whatsapp.com/".

Definition literal (s : string) : regex := match s with "" => RRepeat 0 0 RBegin | String c s => RLit c s end.

(** [^tcpconnect://e[0-9]{1,2}\.whatsapp\.net:[0-9]{3,5}$] *)
Definition endpointPattern : regex :=
  RSeqs RBegin [literal "tcpconnect://e"; RRepeat 1 2 digit; literal ".whatsapp.net:"; RRepeat 3 5 digit; REnd].

Definition endpoint_matches (target : string) : bool :=
  match match_at endpointPattern (true, runes target) with Some _ => true | None => false end.

Record wa_TestKeys := mkWATestKeys {
  wa_keys : ug_TestKeys;
  RegistrationServerFailure : option string;
  RegistrationServerStatus : string;
  WhatsappEndpointsBlocked : list string;
  WhatsappEndpointsDNSInconsistent : list string;
  WhatsappEndpointsStatus : string;
  WhatsappWebFailure : option string;
  WhatsappWebStatus : string;
  WhatsappEndpointsCount : gmap string Z;
  WhatsappHTTPSFailure : option string;
}.

Definition wa_NewTestKeys : wa_TestKeys :=
  let failure := Some "unknown_failure" in
  mkWATestKeys ug_zero failure "blocked" [] [] "blocked" failure "blocked" ∅ failure.

(** An endpoint that failed: each address is tested on two ports. *)
Definition wa_count (tk : wa_TestKeys) (hostname : string) : wa_TestKeys :=
  let tk := tk <| WhatsappEndpointsCount ::= λ m, <[hostname := wrap64 (default 0 (m !! hostname) + 1)]> m |> in
  if 2 <=? default 0 (WhatsappEndpointsCount tk !! hostname)
  then tk <| WhatsappEndpointsBlocked ::= λ l, l ++ [hostname] |> else tk.

Definition wa_Update (tk : wa_TestKeys) (v : Output) : outcome wa_TestKeys :=
  let tk := tk <| wa_keys ::= append_keys (mo_TestKeys v) |> in
  let failure := ugk_Failure (mo_TestKeys v) in
  let target := mi_Target (mo_Input v) in
  if endpoint_matches target then
    match failure with
    | Some _ =>
        match url_Parse target with
        | None => Panic "url.Parse should not fail here"
        | Some parsed => Ok (wa_count tk (Hostname parsed))
        end
    | None => Ok (tk <| WhatsappEndpointsStatus := "ok" |>)
    end
  else if String.eqb target RegistrationServiceURL then
    let tk := tk <| RegistrationServerFailure := failure |> in
    Ok (if IsNone failure then tk <| RegistrationServerStatus := "ok" |> else tk)
  else Ok (tk <| WhatsappHTTPSFailure := failure |>).

Definition ComputeWebStatus (tk : wa_TestKeys) : wa_TestKeys :=
  match WhatsappHTTPSFailure tk with
  | None => tk <| WhatsappWebFailure := None |> <| WhatsappWebStatus := "ok" |>
  | Some _ => tk <| WhatsappWebStatus := "blocked" |> <| WhatsappWebFailure := WhatsappHTTPSFailure tk |>
  end.

(** The loops over the endpoints and their ports. *)
Definition wa_inputs : list Input :=
  let inputs := foldl (λ inputs idx,
      foldl (λ inputs port, inputs ++ [mkMultiInput ug_default ("tcpconnect://e" +:+ Itoa idx +:+ ".whatsapp.net:" +:+ port)])
        inputs ["443"; "5222"]) [] (map Z.of_nat (seq 1 16)) in
  inputs ++ [mkMultiInput ug_default RegistrationServiceURL] ++ [mkMultiInput ug_default WebHTTPSURL].

Definition wa_start : wa_TestKeys := wa_NewTestKeys <| wa_keys ::= λ k, k <| ugk_Agent := "redirect" |> |>.

Definition wa_Run : saving wa_TestKeys :=
  outputs ← Collect "whatsapp" (Shuffle wa_inputs);
  tk ← saver_lift (foldM wa_Update wa_start outputs);
  mret (ComputeWebStatus tk).

(** Registration, web and endpoints blocking, and whether there is an anomaly. *)
Definition wa_MeasurementSummaryKeys (tk : wa_TestKeys) : bool * bool * bool * bool :=
  let blocking value := String.eqb value "blocked" in
  let registration := blocking (RegistrationServerStatus tk) in
  let web := blocking (WhatsappWebStatus tk) in
  let endpoints := blocking (WhatsappEndpointsStatus tk) in
  (registration, web, endpoints, registration || web || endpoints).

(** ** [fbmessenger.go] *)

Definition FacebookASN : Z := 32934.

Inductive fb_service := STUN | BAPI | BGraph | Edge | ExternalCDN | ScontentCDN | Star.

#[export] Instance fb_service_eq_dec : EqDecision fb_service.
Proof. solve_decision. Defined.

Definition fb_target (s : fb_service) : string :=
  match s with
  | STUN => "dnslookup://stun.fbsbx.com"
  | BAPI => "tcpconnect://b-api.facebook.com:443"
  | BGraph => "tcpconnect://b-graph.facebook.com:443"
  | Edge => "tcpconnect://edge-mqtt.facebook.com:443"
  | ExternalCDN => "tcpconnect://external.xx.fbcdn.net:443"
  | ScontentCDN => "tcpconnect://scontent.xx.fbcdn.net:443"
  | Star => "tcpconnect://star.c10r.facebook.com:443"
  end.

Definition Services : list fb_service := [STUN; BAPI; BGraph; Edge; ExternalCDN; ScontentCDN; Star].

(** The fields [Facebook<service>DNSConsistent] and [Facebook<service>Reachable] are indexed by the service. *)
Record fb_TestKeys := mkFBTestKeys {
  fb_keys : ug_TestKeys;
  fb_DNSConsistent : fb_service → option bool;
  fb_Reachable : fb_service → option bool;
  FacebookDNSBlocking : option bool;
  FacebookTCPBlocking : option bool;
}.

Definition fb_start : fb_TestKeys :=
  mkFBTestKeys (ug_zero <| ugk_Agent := "redirect" |>) (λ _, None) (λ _, None) None None.

(** The two fields of the endpoint, with what the analysis says about blocking. *)
Definition ComputeEndpointStatus (tk : fb_TestKeys) (v : ug_TestKeys) : option bool * option bool * fb_TestKeys :=
  if bool_decide (ugk_FailedOperation v = Some ResolveOperation)
  then (Some false, None, tk <| FacebookDNSBlocking := Some true |>)
  else if existsb (λ query, existsb (λ ans, negb (ans_ASN ans =? FacebookASN)) (dns_Answers query)) (ugk_Queries v)
  then (Some false, None, tk <| FacebookDNSBlocking := Some true |>)
  else if bool_decide (ugk_FailedOperation v = Some ConnectOperation)
  then (Some true, Some false, tk <| FacebookTCPBlocking := Some true |>)
  else (Some true, Some true, tk).

Definition set_field (s : fb_service) (value : option bool) (f : fb_service → option bool) : fb_service → option bool :=
  λ s', if decide (s' = s) then value else f s'.

(** The switch over the target; the reachability of STUN is ignored. *)
Definition fb_Update (tk : fb_TestKeys) (v : Output) : fb_TestKeys :=
  let tk := tk <| fb_keys ::= append_keys (mo_TestKeys v) |> in
  match find (λ s, String.eqb (mi_Target (mo_Input v)) (fb_target s)) Services with
  | None => tk
  | Some s =>
      let '(dns, tcp, tk) := ComputeEndpointStatus tk (mo_TestKeys v) in
      let tk := tk <| fb_DNSConsistent ::= set_field s dns |> in
      if decide (s = STUN) then tk else tk <| fb_Reachable ::= set_field s tcp |>
  end.

Definition fb_inputs : list Input := foldl (λ inputs s, inputs ++ [mkMultiInput ug_default (fb_target s)]) [] Services.

Definition fb_finish (tk : fb_TestKeys) : fb_TestKeys :=
  let tk := if IsNone (FacebookDNSBlocking tk) then tk <| FacebookDNSBlocking := Some false |> else tk in
  if IsNone (FacebookTCPBlocking tk) then tk <| FacebookTCPBlocking := Some false |> else tk.

Definition fb_Run : saving fb_TestKeys :=
  outputs ← Collect "facebook_messenger" (Shuffle fb_inputs);
  mret (fb_finish (foldl fb_Update fb_start outputs)).

(** DNS and TCP blocking, and whether there is an anomaly. *)
Definition fb_MeasurementSummaryKeys (tk : fb_TestKeys) : bool * bool * bool :=
  let dnsBlocking := default false (FacebookDNSBlocking tk) in
  let tcpBlocking := default false (FacebookTCPBlocking tk) in
  (dnsBlocking, tcpBlocking, dnsBlocking || tcpBlocking).

(** ** [signal.go] *)

Record sg_TestKeys := mkSGTestKeys {
  sg_keys : ug_TestKeys;
  SignalBackendStatus : string;
  SignalBackendFailure : option string;
}.

Definition sg_NewTestKeys : sg_TestKeys := mkSGTestKeys ug_zero "ok" None.

Definition sg_Update (tk : sg_TestKeys) (v : Output) : sg_TestKeys :=
  let tk := tk <| sg_keys ::= append_keys (mo_TestKeys v) |> in
  if String.eqb (mi_Target (mo_Input v)) "dnslookup://uptime.signal.org" then tk
  else
    match ugk_Failure (mo_TestKeys v) with
    | Some failure => tk <| SignalBackendStatus := "blocked" |> <| SignalBackendFailure := Some failure |>
    | None => tk
    end.

Definition sg_inputs : list Input :=
  map (λ target, mkMultiInput (ug_default <| ug_Method := "GET" |> <| ug_CertPool := true |>) target)
    ["https://cdsi.signal.org/"; "https://chat.signal.org/"; "https://sfu.voip.signal.org/"; "https://storage.signal.org/"] ++
  [mkMultiInput ug_default "dnslookup://uptime.signal.org"].

(** Whether the pool takes a certificate; the two certificates that the code contains. *)
Context (AppendCertsFromPEM : string → bool) (signalCA signalCANew : string).

Definition sg_Run (SignalCA : string) : saving (result error sg_TestKeys) :=
  let cas := if negb (String.eqb SignalCA "") then [SignalCA] else [signalCA; signalCANew] in
  if negb (forallb AppendCertsFromPEM cas) then mret (Err (ErrValue "" [] "AppendCertsFromPEM failed"))
  else
    outputs ← Collect "signal" sg_inputs;
    mret (Val (foldl sg_Update (sg_NewTestKeys <| sg_keys ::= λ k, k <| ugk_Agent := "redirect" |> |>) outputs)).

Definition sg_MeasurementSummaryKeys (tk : sg_TestKeys) : string * option string * bool :=
  (SignalBackendStatus tk, SignalBackendFailure tk, String.eqb (SignalBackendStatus tk) "blocked").
End messaging.
