(* ===== verification/MessagingFacts.v ===== *)
(** * Verdicts on messaging applications

    The pool of getters gives one output per target in some order; the folds of
    [Messaging.v] are computed by tests on the outputs, from which the verdict of each experiment follows. *)
From S2P Require Import Prelude Failures GoString GoFloat GoNet GoURL Archival NetErrors GoRegexp.
From S2P Require Import Scrubber LteControl.
From S2P Require Import NetDNS GoHTTP Tracing NetPrimitives Tracex UrlGetter.
From S2P Require Import UrlMulti WebConnFacts Messaging.
From Stdlib Require Import Ascii.

(** ** Telegram *)

Definition access_point (o : Output) : bool := negb (String.eqb (ug_Method (mi_Config (mo_Input o))) "GET").
Definition succeeded (o : Output) : bool := IsNone (ugk_Failure (mo_TestKeys o)).
Definition operation_is (op : string) (v : ug_TestKeys) : bool := bool_decide (ugk_FailedOperation v = Some op).
Definition failed_in (op : string) (o : Output) : bool := operation_is op (mo_TestKeys o).
Definition http_works (o : Output) : bool := access_point o && succeeded o.
Definition tcp_works (o : Output) : bool := access_point o && (succeeded o || negb (failed_in ConnectOperation o)).
Definition web_failure (o : Output) : option string := if access_point o then None else ugk_Failure (mo_TestKeys o).

Lemma last_default {A} (x : A) l d :
  match last (x :: l) with Some y => Some y | None => d end = match last l with Some y => Some y | None => Some x end.
Proof. rewrite last_cons. by destruct (last l). Qed.

Lemma tg_fold outputs tk (tk' := foldl tg_Update tk outputs) :
  TelegramHTTPBlocking tk' = TelegramHTTPBlocking tk && negb (existsb http_works outputs) ∧
  TelegramTCPBlocking tk' = TelegramTCPBlocking tk && negb (existsb tcp_works outputs) ∧
  TelegramWebFailure tk' = match last (omap web_failure outputs) with Some f => Some f | None => TelegramWebFailure tk end ∧
  TelegramWebStatus tk' = match omap web_failure outputs with [] => TelegramWebStatus tk | _ => "blocked" end.
Proof.
  subst tk'. revert tk. induction outputs as [|o outputs IH]; intros tk; csimpl.
  { by rewrite !andb_true_r. }
  destruct (IH (tg_Update tk o)) as (-> & -> & -> & ->). unfold tg_Update, http_works, tcp_works, web_failure, access_point, succeeded, failed_in, operation_is.
  destruct tk as [keys http tcp web status]. destruct (String.eqb _ "GET"), (ugk_Failure (mo_TestKeys o)) as [f|]; cbn; unfold constant.
  - split_and!; [done..|symmetry; apply last_default|by destruct (omap _ outputs)].
  - by split_and!.
  - case_bool_decide; cbn; split_and!; try done; by rewrite andb_false_r.
  - split_and!; try done; by rewrite andb_false_r.
Qed.

(** ** Signal *)

Definition is_uptime (o : Output) : bool := String.eqb (mi_Target (mo_Input o)) "dnslookup://uptime.signal.org".
Definition backend_failure (o : Output) : option string := if is_uptime o then None else ugk_Failure (mo_TestKeys o).

Lemma sg_fold outputs tk (tk' := foldl sg_Update tk outputs) :
  SignalBackendStatus tk' = match omap backend_failure outputs with [] => SignalBackendStatus tk | _ => "blocked" end ∧
  SignalBackendFailure tk' = match last (omap backend_failure outputs) with Some f => Some f | None => SignalBackendFailure tk end.
Proof.
  subst tk'. revert tk. induction outputs as [|o outputs IH]; intros tk; csimpl; [done|].
  destruct (IH (sg_Update tk o)) as (-> & ->). unfold sg_Update, backend_failure, is_uptime.
  destruct tk as [keys status failure]. destruct (String.eqb _ _); [done|].
  destruct (ugk_Failure (mo_TestKeys o)) as [f|]; cbn; unfold constant; [|done].
  split; [by destruct (omap _ outputs)|symmetry; apply last_default].
Qed.

(** ** Facebook Messenger *)

Definition fb_service_of (o : Output) : option fb_service := find (λ s, String.eqb (mi_Target (mo_Input o)) (fb_target s)) Services.
Definition foreign_answer (v : ug_TestKeys) : bool :=
  existsb (λ query, existsb (λ ans, negb (ans_ASN ans =? FacebookASN)) (dns_Answers query)) (ugk_Queries v).
Definition dns_blocked (v : ug_TestKeys) : bool := operation_is ResolveOperation v || foreign_answer v.
Definition fb_dns_blocked (o : Output) : bool := negb (IsNone (fb_service_of o)) && dns_blocked (mo_TestKeys o).
Definition fb_tcp_blocked (o : Output) : bool := negb (IsNone (fb_service_of o)) && negb (dns_blocked (mo_TestKeys o)) && operation_is ConnectOperation (mo_TestKeys o).

(** What is stored for a service. *)
Definition fb_status (v : ug_TestKeys) : option bool * option bool :=
  if dns_blocked v then (Some false, None)
  else if operation_is ConnectOperation v then (Some true, Some false) else (Some true, Some true).

Lemma ComputeEndpointStatus_spec tk v :
  ComputeEndpointStatus tk v =
  (fb_status v, if dns_blocked v then tk <| FacebookDNSBlocking := Some true |>
                else if operation_is ConnectOperation v then tk <| FacebookTCPBlocking := Some true |> else tk).
Proof.
  unfold ComputeEndpointStatus, fb_status, dns_blocked, operation_is, foreign_answer.
  case_bool_decide; cbn [orb]; [done|]. destruct (existsb _ _); [done|]. by case_bool_decide.
Qed.

Definition fb_of (s : fb_service) (o : Output) : option (option bool * option bool) :=
  if decide (fb_service_of o = Some s) then Some (fb_status (mo_TestKeys o)) else None.

Lemma fb_update tk o (tk' := fb_Update tk o) :
  FacebookDNSBlocking tk' = (if fb_dns_blocked o then Some true else FacebookDNSBlocking tk) ∧
  FacebookTCPBlocking tk' = (if fb_tcp_blocked o then Some true else FacebookTCPBlocking tk) ∧
  ∀ s, fb_DNSConsistent tk' s = (if decide (fb_service_of o = Some s) then (fb_status (mo_TestKeys o)).1 else fb_DNSConsistent tk s) ∧
       fb_Reachable tk' s = (if decide (fb_service_of o = Some s ∧ s ≠ STUN) then (fb_status (mo_TestKeys o)).2 else fb_Reachable tk s).
Proof.
  subst tk'. unfold fb_Update, fb_dns_blocked, fb_tcp_blocked. fold (fb_service_of o). destruct tk as [keys dns reach db tb].
  destruct (fb_service_of o) as [s0|].
  2: { split_and!; [done..|]. intros s. by rewrite !decide_False by naive_solver. }
  rewrite ComputeEndpointStatus_spec. unfold fb_status, set_field.
  destruct (dns_blocked (mo_TestKeys o)), (operation_is ConnectOperation (mo_TestKeys o)); cbn; unfold constant; (split_and!; [by case_decide|by case_decide|]);
    intros s; (destruct (decide (s0 = STUN)) as [->|Hs]; cbn; unfold set_field);
    split; repeat case_decide; try done; try naive_solver.
Qed.

Lemma fb_fold outputs tk (tk' := foldl fb_Update tk outputs) :
  FacebookDNSBlocking tk' = (if existsb fb_dns_blocked outputs then Some true else FacebookDNSBlocking tk) ∧
  FacebookTCPBlocking tk' = (if existsb fb_tcp_blocked outputs then Some true else FacebookTCPBlocking tk) ∧
  ∀ s, fb_DNSConsistent tk' s = match last (omap (fb_of s) outputs) with Some (dns, _) => dns | None => fb_DNSConsistent tk s end ∧
       fb_Reachable tk' s = match last (omap (fb_of s) outputs) with
                            | Some (_, tcp) => if decide (s = STUN) then fb_Reachable tk s else tcp
                            | None => fb_Reachable tk s
                            end.
Proof.
  subst tk'. revert tk. induction outputs as [|o outputs IH]; intros tk; csimpl; [done|].
  destruct (IH (fb_Update tk o)) as (-> & -> & Hs).
  destruct (fb_update tk o) as (-> & -> & Ho). split_and!.
  - clear. destruct (fb_dns_blocked o); [by destruct (existsb _ outputs)|done].
  - clear. destruct (fb_tcp_blocked o); [by destruct (existsb _ outputs)|done].
  - intros s. destruct (Hs s) as [-> ->], (Ho s) as [Ed Er]. clear IH Hs Ho.
    assert (Eof : fb_of s o = if decide (fb_service_of o = Some s) then Some (fb_status (mo_TestKeys o)) else None) by done.
    rewrite Eof. destruct (decide (fb_service_of o = Some s)) as [Hof|Hof]; csimpl; rewrite ?last_cons;
      destruct (last (omap _ outputs)) as [[dns tcp]|]; rewrite ?Ed, ?Er; try destruct (fb_status (mo_TestKeys o));
      repeat case_decide; naive_solver.
Qed.

(** ** WhatsApp *)

Abbreviation occurrences := (count_occ String.string_dec).

(** The hosts of the endpoints that failed, one for each output. *)
Definition wa_host (target : string) : option string :=
  if endpoint_matches target then Hostname <$> url_Parse target else None.
Definition failed_host (o : Output) : option string := if succeeded o then None else wa_host (mi_Target (mo_Input o)).
Definition endpoint_ok (o : Output) : bool := succeeded o && endpoint_matches (mi_Target (mo_Input o)).
Definition is_registration (o : Output) : bool :=
  negb (endpoint_matches (mi_Target (mo_Input o))) && String.eqb (mi_Target (mo_Input o)) RegistrationServiceURL.
Definition is_web (o : Output) : bool :=
  negb (endpoint_matches (mi_Target (mo_Input o))) && negb (String.eqb (mi_Target (mo_Input o)) RegistrationServiceURL).
Definition failure_if (test : Output → bool) (o : Output) : option (option string) :=
  if test o then Some (ugk_Failure (mo_TestKeys o)) else None.

(** An endpoint that is counted has a URL that parses. *)
Definition parses (o : Output) : Prop := endpoint_matches (mi_Target (mo_Input o)) = true → is_Some (url_Parse (mi_Target (mo_Input o))).

(** A host is listed each time that it fails after the first. *)
Definition wa_counted (failed : list string) (tk : wa_TestKeys) : Prop :=
  ∀ host, default 0 (WhatsappEndpointsCount tk !! host) = Z.of_nat (occurrences failed host) ∧
          occurrences (WhatsappEndpointsBlocked tk) host = Nat.pred (occurrences failed host).

(** The fields that do not depend on the count. *)
Definition wa_rest (tk : wa_TestKeys) :=
  (WhatsappEndpointsStatus tk, RegistrationServerFailure tk, RegistrationServerStatus tk, WhatsappHTTPSFailure tk).

Lemma wa_count_fields tk host (n := wrap64 (default 0 (WhatsappEndpointsCount tk !! host) + 1)) :
  WhatsappEndpointsCount (wa_count tk host) = <[host := n]> (WhatsappEndpointsCount tk) ∧
  WhatsappEndpointsBlocked (wa_count tk host) = WhatsappEndpointsBlocked tk ++ (if 2 <=? n then [host] else []) ∧
  wa_rest (wa_count tk host) = wa_rest tk.
Proof.
  subst n. unfold wa_count. destruct tk as [? ? ? ? ? ? ? ? count ?]. cbn -[wrap64]. rewrite lookup_insert_eq. cbn -[wrap64].
  case_match; cbn -[wrap64]; by rewrite ?app_nil_r.
Qed.

Lemma wa_count_counted failed tk host :
  wa_counted failed tk → Z.of_nat (length failed) < int64_max → wa_counted (failed ++ [host]) (wa_count tk host).
Proof.
  intros Hc Hlen x. destruct (Hc host) as [Eh Bh], (Hc x) as [Ex Bx], (wa_count_fields tk host) as (-> & -> & _).
  pose proof (count_occ_bound String.string_dec host failed) as Hle.
  rewrite Eh, wrap64_id by (unfold is_int64, int64_min, int64_max in *; lia).
  rewrite !count_occ_app. cbn. destruct (String.string_dec host x) as [<-|Hx].
  - rewrite lookup_insert_eq. cbn. case_match; rewrite ?Z.leb_le, ?Z.leb_gt in *; cbn;
      repeat destruct (String.string_dec _ _); try done; lia.
  - rewrite lookup_insert_ne by done. case_match; cbn; repeat destruct (String.string_dec _ _); try done; lia.
Qed.

(** What the outputs so far say. *)
Record wa_inv (outputs : list Output) (tk : wa_TestKeys) : Prop := {
  wa_blocked : wa_counted (omap failed_host outputs) tk;
  wa_status : WhatsappEndpointsStatus tk = if existsb endpoint_ok outputs then "ok" else "blocked";
  wa_registration : RegistrationServerFailure tk =
    default (Some "unknown_failure") (last (omap (failure_if is_registration) outputs));
  wa_registration_status : RegistrationServerStatus tk =
    if existsb (λ o, is_registration o && succeeded o) outputs then "ok" else "blocked";
  wa_https : WhatsappHTTPSFailure tk = default (Some "unknown_failure") (last (omap (failure_if is_web) outputs));
}.

Lemma wa_counted_keys failed tk tk' :
  WhatsappEndpointsCount tk' = WhatsappEndpointsCount tk → WhatsappEndpointsBlocked tk' = WhatsappEndpointsBlocked tk →
  wa_counted failed tk → wa_counted failed tk'.
Proof. intros E1 E2 Hc host. rewrite E1, E2. apply Hc. Qed.

Lemma length_omap_le {A B} (f : A → option B) l : (length (omap f l) ≤ length l)%nat.
Proof. induction l as [|x l IH]; csimpl; [done|]. destruct (f x); cbn; lia. Qed.

(** One more output, whose contribution to each field is known. *)
Lemma wa_inv_snoc outputs o tk tk' :
  wa_inv outputs tk →
  wa_counted (omap failed_host outputs ++ option_list (failed_host o)) tk' →
  WhatsappEndpointsStatus tk' = (if endpoint_ok o then "ok" else WhatsappEndpointsStatus tk) →
  RegistrationServerFailure tk' = (if is_registration o then ugk_Failure (mo_TestKeys o) else RegistrationServerFailure tk) →
  RegistrationServerStatus tk' = (if is_registration o && succeeded o then "ok" else RegistrationServerStatus tk) →
  WhatsappHTTPSFailure tk' = (if is_web o then ugk_Failure (mo_TestKeys o) else WhatsappHTTPSFailure tk) →
  wa_inv (outputs ++ [o]) tk'.
Proof.
  intros [Hc Hs Hr Hrs Hh] Hc' Es Er Ers Eh. constructor; rewrite ?omap_app, ?existsb_app; csimpl.
  - by destruct (failed_host o).
  - rewrite Es, Hs, orb_false_r. destruct (endpoint_ok o); by rewrite ?orb_true_r, ?orb_false_r.
  - rewrite Er, Hr. unfold failure_if at 3. destruct (is_registration o); by rewrite ?last_snoc, ?app_nil_r.
  - rewrite Ers, Hrs, orb_false_r. destruct (is_registration o && succeeded o); by rewrite ?orb_true_r, ?orb_false_r.
  - rewrite Eh, Hh. unfold failure_if at 3. destruct (is_web o); by rewrite ?last_snoc, ?app_nil_r.
Qed.

Lemma wa_update outputs tk o :
  wa_inv outputs tk → parses o → Z.of_nat (length outputs) < int64_max →
  ∃ tk', wa_Update tk o = Ok tk' ∧ wa_inv (outputs ++ [o]) tk'.
Proof.
  intros Hi Hp Hlen. unfold wa_Update, parses in *. set (tk1 := tk <| wa_keys ::= _ |>).
  assert (Hi1 : wa_inv outputs tk1).
  { destruct Hi as [Hc Hs Hr Hrs Hh]. constructor; [by eapply wa_counted_keys, Hc; destruct tk|by destruct tk..]. }
  clearbody tk1. clear Hi tk. rename tk1 into tk.
  assert (Hl : Z.of_nat (length (omap failed_host outputs)) < int64_max) by (pose proof (length_omap_le failed_host outputs); lia).
  pose proof (wa_blocked _ _ Hi1) as Hc.
  assert (Hno : failed_host o = None → wa_counted (omap failed_host outputs ++ option_list (failed_host o)) tk)
    by (intros ->; cbn; by rewrite app_nil_r).
  destruct (endpoint_matches (mi_Target (mo_Input o))) eqn:Em; [destruct (Hp eq_refl) as [parsed Ep]; rewrite Ep|];
   [destruct (ugk_Failure (mo_TestKeys o)) as [f|] eqn:Ef|].
  - destruct (wa_count_fields tk (Hostname parsed)) as (_ & _ & [= Er1 Er2 Er3 Er4]).
    eexists. split; [done|]. apply (wa_inv_snoc _ _ tk); [done|..];
      unfold failed_host, endpoint_ok, is_registration, is_web, succeeded, wa_host; rewrite ?Em, ?Ef, ?Ep; try done.
    by apply wa_count_counted.
  - eexists. split; [done|]. apply (wa_inv_snoc _ _ tk); [done|..];
      unfold endpoint_ok, is_registration, is_web, succeeded; rewrite ?Em, ?Ef; try by destruct tk.
    eapply wa_counted_keys, Hno; [by destruct tk..|]. unfold failed_host, succeeded. by rewrite Ef.
  - destruct (String.eqb (mi_Target (mo_Input o)) RegistrationServiceURL) eqn:Ereg; (eexists; split; [done|]);
      (apply (wa_inv_snoc _ _ tk); [done|eapply wa_counted_keys, Hno; [destruct tk; cbn; by repeat case_match..|]|..]);
      unfold failed_host, wa_host, endpoint_ok, is_registration, is_web, succeeded; rewrite ?Em, ?Ereg, ?andb_false_r;
      try by case_match.
    all: destruct tk; cbn; by repeat case_match.
Qed.

Lemma wa_fold outputs :
  Forall parses outputs → Z.of_nat (length outputs) < int64_max →
  ∃ tk, foldM wa_Update wa_start outputs = Ok tk ∧ wa_inv outputs tk.
Proof.
  intros Hp Hlen. apply (foldM_loop _ (λ outputs tk, wa_inv outputs tk)).
  - by constructor.
  - intros pre o post tk -> Hi. rewrite Forall_app, Forall_cons in Hp. destruct Hp as (_ & Hp & _).
    apply wa_update; [done|done|]. rewrite length_app in Hlen. lia.
Qed.

(** ** What the getters answered *)

(** A pool answers each target once; [f] is what the getter answered for a target. *)
Definition answered_by (f : string → ug_TestKeys) (o : Output) : Prop := mo_TestKeys o = f (mi_Target (mo_Input o)).

Lemma answers_exist (inputs : list Input) (outputs : list Output) :
  NoDup (mi_Target <$> inputs) → mo_Input <$> outputs ≡ₚ inputs → ∃ f, Forall (answered_by f) outputs.
Proof.
  intros Hnd Hp. assert (Hnd' : NoDup ((mi_Target ∘ mo_Input) <$> outputs)) by (by rewrite list_fmap_compose, Hp).
  clear Hnd Hp. induction outputs as [|o outputs IH]; [by exists (λ _, ug_zero)|].
  rewrite fmap_cons, NoDup_cons in Hnd'. destruct Hnd' as [Hnew Hnd'], (IH Hnd') as [f Hf].
  exists (λ t, if decide (t = mi_Target (mo_Input o)) then mo_TestKeys o else f t). constructor.
  - unfold answered_by. by rewrite decide_True.
  - rewrite Forall_forall in *. intros o' Ho'. unfold answered_by. rewrite decide_False; [by apply Hf|].
    intros E. apply Hnew. apply list_elem_of_fmap. by exists o'.
Qed.

Instance existsb_perm {A} (test : A → bool) : Proper ((≡ₚ) ==> eq) (existsb test).
Proof.
  intros l l' Hl. apply eq_true_iff_eq. rewrite !existsb_exists. setoid_rewrite <-list_elem_of_In. by setoid_rewrite Hl.
Qed.

(** Tests on the outputs are tests on the inputs. *)
Lemma existsb_answers (test : Output → bool) (test' : Input → bool) inputs outputs :
  mo_Input <$> outputs ≡ₚ inputs → Forall (λ o, test o = test' (mo_Input o)) outputs →
  existsb test outputs = existsb test' inputs.
Proof.
  intros Hp Ht. rewrite <-Hp. clear Hp inputs. induction Ht as [|o outputs Ho Ht IH]; [done|]. cbn. by rewrite Ho, IH.
Qed.

Lemma omap_answers {A} (g : Output → option A) (g' : Input → option A) inputs outputs :
  mo_Input <$> outputs ≡ₚ inputs → Forall (λ o, g o = g' (mo_Input o)) outputs → omap g outputs ≡ₚ omap g' inputs.
Proof.
  intros Hp Hg. rewrite <-Hp. clear Hp inputs. induction Hg as [|o outputs Ho Hg IH]; [done|]. csimpl. rewrite Ho.
  by destruct (g' (mo_Input o)); [apply Permutation_cons|].
Qed.

Lemma omap_perm_singleton {A B} (g : A → option B) l x : omap g l ≡ₚ [x] → last (omap g l) = Some x.
Proof. intros Hl. symmetry in Hl. apply Permutation_singleton_l in Hl. by rewrite <-Hl. Qed.

Section verdicts.
Context (runs : Input → option error * ug_TestKeys → Prop).
Context (Collect : string → list Input → saving (list Output)).
Context (Hcollect : ∀ prefix inputs, NoDup (mi_Target <$> inputs) →
  returns (Collect prefix inputs) (multi_collected runs (multi_parallelism 0) inputs 0 (Z.of_nat (length inputs)) prefix)).
Context (Shuffle : list Input → list Input) (Hshuffle : ∀ inputs, Shuffle inputs ≡ₚ inputs).

(** [f] gives an answer that the getter may have for each input. *)
Definition getter_answers (f : string → ug_TestKeys) (inputs : list Input) : Prop :=
  ∀ input, input ∈ inputs → ∃ err, runs input (err, f (mi_Target input)).

Definition collected (inputs : list Input) (f : string → ug_TestKeys) (outputs : list Output) : Prop :=
  mo_Input <$> outputs ≡ₚ inputs ∧ Forall (answered_by f) outputs ∧ getter_answers f inputs.

Lemma collect_answers prefix inputs inputs' :
  NoDup (mi_Target <$> inputs) → inputs' ≡ₚ inputs →
  returns (Collect prefix inputs') (λ outputs, ∃ f, collected inputs f outputs).
Proof.
  intros Hnd Hp. eapply returns_impl; [apply Hcollect; by rewrite Hp|]. intros outputs [Hin Hout]%multi_collected_spec; [|by unfold is_int64, int64_min, int64_max].
  rewrite Hp in Hin. destruct (answers_exist inputs outputs Hnd Hin) as [f Hf]. exists f. split_and!; [done..|].
  intros input Hi. rewrite <-Hin in Hi. apply list_elem_of_fmap in Hi as (o & -> & Ho).
  rewrite Forall_forall in Hf, Hout. exists (mo_Err o). rewrite <-(Hf o Ho). by apply Hout.
Qed.

Definition fails (f : string → ug_TestKeys) (target : string) : Prop := ugk_Failure (f target) ≠ None.

Lemma fails_false f target : IsNone (ugk_Failure (f target)) = false ↔ fails f target.
Proof. unfold fails. by destruct (ugk_Failure (f target)). Qed.

(** *** Telegram *)

Definition tg_web : string := "https://web.telegram.org/".
Definition tg_access_points : list string :=
  DatacenterIPAddrs ≫= λ dc, ["http://" +:+ dc +:+ "/"; "http://" +:+ dc +:+ ":443/"].

Lemma tg_inputs_spec : tg_inputs = im_input "GET" tg_web :: map (im_input "POST") tg_access_points.
Proof. by vm_compute. Qed.

(** Telegram is blocked when no access point answers, over TCP when each of them failed to connect. *)
Record tg_verdict (f : string → ug_TestKeys) (tk : tg_TestKeys) : Prop := {
  tgv_http : TelegramHTTPBlocking tk = true ↔ ∀ target, target ∈ tg_access_points → fails f target;
  tgv_tcp : TelegramTCPBlocking tk = true ↔
    ∀ target, target ∈ tg_access_points → fails f target ∧ ugk_FailedOperation (f target) = Some ConnectOperation;
  tgv_web : TelegramWebFailure tk = ugk_Failure (f tg_web);
  tgv_web_status : TelegramWebStatus tk = if IsNone (ugk_Failure (f tg_web)) then "ok" else "blocked";
  tgv_anomaly : (tg_MeasurementSummaryKeys tk).2 = true ↔ fails f tg_web ∨ ∀ target, target ∈ tg_access_points → fails f target;
}.

Definition tg_access (i : Input) : bool := negb (String.eqb (ug_Method (mi_Config i)) "GET").

(** A test that only access points pass is false of all of them when it is false of the outputs. *)
Lemma tg_access_test f outputs (test : Output → bool) (test' : ug_TestKeys → bool) :
  collected tg_inputs f outputs → (∀ o, test o = access_point o && test' (mo_TestKeys o)) →
  negb (existsb test outputs) = true ↔ ∀ target, target ∈ tg_access_points → test' (f target) = false.
Proof.
  intros (Hin & Hf & _) Ht.
  rewrite (existsb_answers _ (λ i, tg_access i && test' (f (mi_Target i))) _ _ Hin)
    by (eapply Forall_impl; [exact Hf|]; intros o Ho; by rewrite Ht, Ho).
  rewrite negb_true_iff, tg_inputs_spec, <-not_true_iff_false, existsb_exists. setoid_rewrite <-list_elem_of_In. split.
  - intros Hn target Hin'. apply not_true_is_false. intros E. apply Hn. exists (im_input "POST" target). split; [|done].
    apply elem_of_cons. right. by apply list_elem_of_fmap_2.
  - intros Hall (i & [->|(t & -> & Hi)%list_elem_of_fmap]%elem_of_cons & E); [done|]. cbn in E. by rewrite Hall in E.
Qed.

Lemma tg_web_answer f outputs :
  collected tg_inputs f outputs → omap web_failure outputs = option_list (ugk_Failure (f tg_web)).
Proof.
  intros (Hin & Hf & _).
  pose proof (omap_answers web_failure (λ i, if tg_access i then None else ugk_Failure (f (mi_Target i))) _ _ Hin) as Hp.
  rewrite tg_inputs_spec in Hp. csimpl in Hp.
  destruct (ugk_Failure (f tg_web)) as [x|]; cbn.
  - apply Permutation_singleton_r, Hp. eapply Forall_impl; [exact Hf|]. intros o Ho. unfold web_failure. by rewrite Ho.
  - apply Permutation_nil_r, Hp. eapply Forall_impl; [exact Hf|]. intros o Ho. unfold web_failure. by rewrite Ho.
Qed.

Lemma tg_outputs_verdict f outputs : collected tg_inputs f outputs → tg_verdict f (foldl tg_Update tg_start outputs).
Proof.
  intros Hc. destruct (tg_fold outputs tg_start) as (Eh & Et & Ew & Es).
  rewrite (tg_web_answer f outputs Hc) in Ew, Es. set (tk := foldl _ _ _) in *. clearbody tk.
  assert (Hh : TelegramHTTPBlocking tk = true ↔ ∀ target, target ∈ tg_access_points → fails f target).
  { rewrite Eh. setoid_rewrite <-fails_false. exact (tg_access_test f outputs http_works (λ v, IsNone (ugk_Failure v)) Hc (λ o, eq_refl)). }
  assert (Ht : TelegramTCPBlocking tk = true ↔
    ∀ target, target ∈ tg_access_points → fails f target ∧ ugk_FailedOperation (f target) = Some ConnectOperation).
  { rewrite Et. etrans; [apply (tg_access_test f outputs tcp_works
      (λ v, IsNone (ugk_Failure v) || negb (bool_decide (ugk_FailedOperation v = Some ConnectOperation)))); done|].
    apply forall_proper; intros target. apply imp_iff_compat_l. rewrite orb_false_iff, fails_false, negb_false_iff.
    by rewrite bool_decide_eq_true. }
  clear Eh Et. constructor; [exact Hh|exact Ht|..].
  - rewrite Ew. by destruct (ugk_Failure (f tg_web)).
  - rewrite Es. by destruct (ugk_Failure (f tg_web)).
  - unfold tg_MeasurementSummaryKeys. cbn [snd]. rewrite Ew, !orb_true_iff, Hh, Ht, negb_true_iff.
    assert (E : IsNone (match last (option_list (ugk_Failure (f tg_web))) with Some f => Some f | None => TelegramWebFailure tg_start end) = false ↔
      fails f tg_web) by (unfold fails; by destruct (ugk_Failure (f tg_web))).
    rewrite E. clear. firstorder.
Qed.

Lemma tg_inputs_distinct : NoDup (mi_Target <$> tg_inputs).
Proof. apply (bool_decide_unpack _). by vm_compute. Qed.

(** Telegram is blocked over HTTP when no access point answers, over TCP when each fails to connect, and the web when
    its getter fails, in whatever order the pool answers. *)
Theorem tg_Run_spec : returns (tg_Run Collect) (λ tk, ∃ f, getter_answers f tg_inputs ∧ tg_verdict f tk).
Proof.
  unfold tg_Run. eapply returns_bind; [by apply (collect_answers _ tg_inputs), reflexivity; apply tg_inputs_distinct|].
  intros outputs [f Hc]. apply returns_ret. exists f. split; [apply Hc|by apply tg_outputs_verdict].
Qed.

(** *** WhatsApp *)

Definition wa_hosts : list string := map (λ idx, "e" +:+ Itoa (Z.of_nat idx) +:+ ".whatsapp.net") (seq 1 16).
Definition wa_endpoint (host port : string) : string := "tcpconnect://" +:+ host +:+ ":" +:+ port.
Definition wa_endpoints (hosts : list string) : list string := hosts ≫= λ host, [wa_endpoint host "443"; wa_endpoint host "5222"].

Lemma wa_inputs_spec :
  wa_inputs = map (mkMultiInput ug_default) (wa_endpoints wa_hosts ++ [RegistrationServiceURL; WebHTTPSURL]).
Proof. by vm_compute. Qed.

Lemma wa_inputs_distinct : NoDup (mi_Target <$> wa_inputs).
Proof. apply (bool_decide_unpack _). by vm_compute. Qed.

(** The code takes the endpoints for endpoints, with their host, and the other targets for what they are. *)
Definition wa_endpoint_ok (host : string) : Prop :=
  Forall (λ port, endpoint_matches (wa_endpoint host port) = true ∧ wa_host (wa_endpoint host port) = Some host) ["443"; "5222"].

Lemma wa_hosts_ok : Forall wa_endpoint_ok wa_hosts.
Proof. repeat constructor; by vm_compute. Qed.

Lemma wa_others_ok : Forall (λ target, endpoint_matches target = false) [RegistrationServiceURL; WebHTTPSURL].
Proof. repeat constructor; by vm_compute. Qed.

Definition failed_target (f : string → ug_TestKeys) (target : string) : option string :=
  if IsNone (ugk_Failure (f target)) then None else wa_host target.

Definition port_failures (f : string → ug_TestKeys) (targets : list string) : nat :=
  length (filter (λ target, IsNone (ugk_Failure (f target)) = false) targets).

Lemma wa_occurrences f hosts host :
  NoDup hosts → Forall wa_endpoint_ok hosts →
  occurrences (omap (failed_target f) (wa_endpoints hosts)) host =
  if decide (host ∈ hosts) then port_failures f (wa_endpoints [host]) else 0%nat.
Proof.
  intros Hnd Hok. induction Hnd as [|h hosts Hh Hnd IH]; [done|].
  apply Forall_cons in Hok as [Hh' Hok]. specialize (IH Hok).
  unfold wa_endpoint_ok in Hh'. rewrite !Forall_cons in Hh'. destruct Hh' as ((_ & E1) & (_ & E2) & _).
  unfold wa_endpoints in *. rewrite bind_cons, omap_app, count_occ_app, IH. clear IH. csimpl. unfold failed_target, port_failures.
  rewrite E1, E2.
  destruct (decide (host = h)) as [->|Hne].
  - rewrite decide_False by done. rewrite decide_True by (apply elem_of_cons; by left). rewrite Nat.add_0_r, !filter_cons.
    destruct (ugk_Failure (f (wa_endpoint h "443"))), (ugk_Failure (f (wa_endpoint h "5222"))); cbn;
      repeat destruct (String.string_dec _ _); done.
  - assert (Hz : ∀ n, (if decide (host ∈ h :: hosts) then n else 0)%nat = (if decide (host ∈ hosts) then n else 0)%nat).
    { intros n. rewrite (decide_ext _ (host ∈ hosts)); [done|]. rewrite elem_of_cons. naive_solver. }
    rewrite Hz. destruct (ugk_Failure (f (wa_endpoint h "443"))), (ugk_Failure (f (wa_endpoint h "5222"))); cbn;
      repeat destruct (String.string_dec _ _); try congruence; done.
Qed.

(** An endpoint is blocked when both of its ports fail; the endpoints are blocked when all of them fail. *)
Record wa_verdict (f : string → ug_TestKeys) (tk : wa_TestKeys) : Prop := {
  wav_endpoints : WhatsappEndpointsStatus tk = "blocked" ↔ ∀ target, target ∈ wa_endpoints wa_hosts → fails f target;
  wav_blocked_once : NoDup (WhatsappEndpointsBlocked tk);
  wav_blocked : ∀ host, host ∈ WhatsappEndpointsBlocked tk ↔
    host ∈ wa_hosts ∧ fails f (wa_endpoint host "443") ∧ fails f (wa_endpoint host "5222");
  wav_registration : RegistrationServerFailure tk = ugk_Failure (f RegistrationServiceURL);
  wav_registration_status : RegistrationServerStatus tk =
    if IsNone (ugk_Failure (f RegistrationServiceURL)) then "ok" else "blocked";
  wav_web : WhatsappWebFailure tk = ugk_Failure (f WebHTTPSURL);
  wav_web_status : WhatsappWebStatus tk = if IsNone (ugk_Failure (f WebHTTPSURL)) then "ok" else "blocked";
  wav_anomaly : (wa_MeasurementSummaryKeys tk).2 = true ↔
    fails f RegistrationServiceURL ∨ fails f WebHTTPSURL ∨ ∀ target, target ∈ wa_endpoints wa_hosts → fails f target;
}.

Lemma wa_failed_hosts f outputs host :
  collected wa_inputs f outputs →
  occurrences (omap failed_host outputs) host = if decide (host ∈ wa_hosts) then port_failures f (wa_endpoints [host]) else 0%nat.
Proof.
  intros (Hin & Hf & _).
  assert (Hp : omap failed_host outputs ≡ₚ omap (λ i, failed_target f (mi_Target i)) wa_inputs).
  { apply omap_answers; [done|]. eapply Forall_impl; [exact Hf|]. intros o Ho. unfold failed_host, succeeded. by rewrite Ho. }
  assert (Ho : omap (λ i, failed_target f (mi_Target i)) wa_inputs = omap (failed_target f) (wa_endpoints wa_hosts)).
  { rewrite wa_inputs_spec. generalize (wa_endpoints wa_hosts) as l.
    pose proof wa_others_ok as Hok. rewrite !Forall_cons in Hok. destruct Hok as (E1 & E2 & _).
    induction l as [|t l IH]; csimpl.
    - unfold failed_target, wa_host. rewrite E1, E2. by repeat case_match.
    - by rewrite IH. }
  rewrite Ho in Hp. rewrite (proj1 (Permutation_count_occ String.string_dec _ _) Hp). apply wa_occurrences; [|exact wa_hosts_ok].
  apply (bool_decide_unpack _). by vm_compute.
Qed.

Lemma failures_both f host :
  (1 < port_failures f (wa_endpoints [host]))%nat ↔ fails f (wa_endpoint host "443") ∧ fails f (wa_endpoint host "5222").
Proof.
  unfold port_failures, wa_endpoints, fails. csimpl. rewrite !filter_cons.
  destruct (ugk_Failure (f (wa_endpoint host "443"))), (ugk_Failure (f (wa_endpoint host "5222"))); cbn; split; naive_solver lia.
Qed.

Lemma failures_le f host : (port_failures f (wa_endpoints [host]) ≤ 2)%nat.
Proof. unfold port_failures. etrans; [apply length_filter|done]. Qed.

Lemma wa_blocked_hosts f outputs tk :
  collected wa_inputs f outputs → wa_inv outputs tk →
  NoDup (WhatsappEndpointsBlocked tk) ∧
  ∀ host, host ∈ WhatsappEndpointsBlocked tk ↔
    host ∈ wa_hosts ∧ fails f (wa_endpoint host "443") ∧ fails f (wa_endpoint host "5222").
Proof.
  intros Hc Hi. assert (Hn : ∀ host, occurrences (WhatsappEndpointsBlocked tk) host =
    Nat.pred (if decide (host ∈ wa_hosts) then port_failures f (wa_endpoints [host]) else 0%nat)).
  { intros host. rewrite <-(wa_failed_hosts f outputs host Hc). apply (wa_blocked _ _ Hi). }
  split.
  - apply NoDup_ListNoDup, (NoDup_count_occ String.string_dec). intros host. rewrite Hn. pose proof (failures_le f host). case_decide; lia.
  - intros host. rewrite list_elem_of_In, (count_occ_In String.string_dec), Hn, <-failures_both. case_decide; [|naive_solver lia].
    split; [|intros [_ ?]; lia]. intros ?. split; [done|lia].
Qed.

(** The outputs of the two other targets. *)
Definition reg_input (i : Input) : bool := negb (endpoint_matches (mi_Target i)) && String.eqb (mi_Target i) RegistrationServiceURL.
Definition web_input (i : Input) : bool := negb (endpoint_matches (mi_Target i)) && negb (String.eqb (mi_Target i) RegistrationServiceURL).

Lemma wa_other_output f outputs (test : Output → bool) (test' : Input → bool) target :
  collected wa_inputs f outputs → (∀ o, test o = test' (mo_Input o)) →
  filter (λ i, test' i = true) wa_inputs = [mkMultiInput ug_default target] →
  last (omap (failure_if test) outputs) = Some (ugk_Failure (f target)) ∧
  existsb (λ o, test o && succeeded o) outputs = IsNone (ugk_Failure (f target)).
Proof.
  intros (Hin & Hf & _) Ht Hone.
  assert (Hfilter : ∀ l : list Input, omap (λ i, if test' i then Some (ugk_Failure (f (mi_Target i))) else None) l =
    (λ i, ugk_Failure (f (mi_Target i))) <$> filter (λ i, test' i = true) l).
  { induction l as [|i l IH]; [done|]. csimpl. rewrite filter_cons, IH. by destruct (test' i). }
  assert (Hexists : ∀ l : list Input, existsb (λ i, test' i && IsNone (ugk_Failure (f (mi_Target i)))) l =
    existsb (λ i, IsNone (ugk_Failure (f (mi_Target i)))) (filter (λ i, test' i = true) l)).
  { induction l as [|i l IH]; [done|]. cbn [existsb]. rewrite filter_cons, IH. by destruct (test' i). }
  split.
  - apply omap_perm_singleton. etrans.
    + apply (omap_answers _ (λ i, if test' i then Some (ugk_Failure (f (mi_Target i))) else None) wa_inputs); [done|].
      eapply Forall_impl; [exact Hf|]. intros o Ho. unfold failure_if. by rewrite Ht, Ho.
    + by rewrite Hfilter, Hone.
  - rewrite (existsb_answers _ (λ i, test' i && IsNone (ugk_Failure (f (mi_Target i)))) _ _ Hin).
    + rewrite Hexists, Hone. cbn. by rewrite orb_false_r.
    + eapply Forall_impl; [exact Hf|]. intros o Ho. unfold succeeded. by rewrite Ht, Ho.
Qed.

Lemma wa_endpoints_status f outputs :
  collected wa_inputs f outputs →
  existsb endpoint_ok outputs = false ↔ ∀ target, target ∈ wa_endpoints wa_hosts → fails f target.
Proof.
  intros (Hin & Hf & _).
  rewrite (existsb_answers _ (λ i, IsNone (ugk_Failure (f (mi_Target i))) && endpoint_matches (mi_Target i)) _ _ Hin)
    by (eapply Forall_impl; [exact Hf|]; intros o Ho; unfold endpoint_ok, succeeded; by rewrite Ho).
  assert (Hall : Forall (λ t, endpoint_matches t = true) (wa_endpoints wa_hosts)) by (repeat constructor; by vm_compute).
  rewrite wa_inputs_spec. generalize dependent (wa_endpoints wa_hosts). intros l Hl. setoid_rewrite <-fails_false.
  pose proof wa_others_ok as Hok. rewrite !Forall_cons in Hok. destruct Hok as (E1 & E2 & _).
  rewrite map_app, existsb_app. cbn. rewrite E1, E2, !andb_false_r, orb_false_r.
  induction Hl as [|t l Ht Hl IH]; cbn.
  - split; [|done]. intros _ t Ht%elem_of_nil. done.
  - rewrite Ht, andb_true_r, orb_false_iff, IH. setoid_rewrite elem_of_cons. naive_solver.
Qed.

Lemma wa_outputs_verdict f outputs tk :
  collected wa_inputs f outputs → wa_inv outputs tk → wa_verdict f (ComputeWebStatus tk).
Proof.
  intros Hc Hi. destruct (wa_blocked_hosts f outputs tk Hc Hi) as [Hnd Hb].
  pose proof (wa_endpoints_status f outputs Hc) as He. destruct Hi as [_ Es Er Ers Eh].
  assert (Hone : filter (λ i, reg_input i = true) wa_inputs = [mkMultiInput ug_default RegistrationServiceURL]) by by vm_compute.
  destruct (wa_other_output f outputs is_registration reg_input _ Hc (λ o, eq_refl) Hone) as [El Ex]. rewrite El in Er. rewrite Ex in Ers.
  assert (Hone' : filter (λ i, web_input i = true) wa_inputs = [mkMultiInput ug_default WebHTTPSURL]) by by vm_compute.
  destruct (wa_other_output f outputs is_web web_input _ Hc (λ o, eq_refl) Hone') as [El' _]. rewrite El' in Eh. cbn in Er, Eh.
  clear Hc El Ex El' Hone Hone'.
  assert (Hs : WhatsappEndpointsStatus tk = "blocked" ↔ ∀ target, target ∈ wa_endpoints wa_hosts → fails f target)
    by (rewrite Es, <-He; by destruct (existsb _ _)).
  assert (Hweb : WhatsappEndpointsStatus (ComputeWebStatus tk) = WhatsappEndpointsStatus tk ∧
    WhatsappEndpointsBlocked (ComputeWebStatus tk) = WhatsappEndpointsBlocked tk ∧
    RegistrationServerFailure (ComputeWebStatus tk) = RegistrationServerFailure tk ∧
    RegistrationServerStatus (ComputeWebStatus tk) = RegistrationServerStatus tk ∧
    WhatsappWebFailure (ComputeWebStatus tk) = WhatsappHTTPSFailure tk ∧
    WhatsappWebStatus (ComputeWebStatus tk) = if IsNone (WhatsappHTTPSFailure tk) then "ok" else "blocked")
    by (unfold ComputeWebStatus; destruct tk as [? ? ? ? ? ? ? ? ? []]; by split_and!).
  destruct Hweb as (W1 & W2 & W3 & W4 & W5 & W6).
  constructor; rewrite ?W1, ?W2, ?W3, ?W4, ?W5, ?W6, ?Eh; [exact Hs|exact Hnd|exact Hb|exact Er|exact Ers|done..|].
  unfold wa_MeasurementSummaryKeys. cbn [snd]. rewrite W1, W4, W6, Ers, Eh, !orb_true_iff, !String.eqb_eq, Hs.
  assert (Hstatus : ∀ o : option string, (if IsNone o then "ok" else "blocked") = "blocked" ↔ o ≠ None) by (intros []; cbn; naive_solver).
  rewrite !Hstatus. unfold fails. clear. tauto.
Qed.

Lemma wa_inputs_parse outputs : mo_Input <$> outputs ≡ₚ wa_inputs → Forall parses outputs ∧ Z.of_nat (length outputs) < int64_max.
Proof.
  intros Hin. split.
  - assert (Hp : Forall (λ i, url_Parse (mi_Target i) <> None) wa_inputs) by (repeat constructor; vm_compute; discriminate).
    rewrite <-Hin, Forall_fmap in Hp. eapply Forall_impl; [exact Hp|]. intros o Ho _. by apply not_eq_None_Some.
  - apply Permutation_length in Hin. rewrite length_fmap in Hin. rewrite Hin. by vm_compute.
Qed.

(** C17: in whatever order the pool answers, the WhatsApp experiment never panics and its keys are determined by what the
    getter answered for each target: an endpoint is listed, once, when both of its ports fail; the endpoints are blocked when
    every one of them fails on every port, so that a single blocked endpoint is no anomaly; the registration service and the
    web are blocked when their own getter fails, with its failure. *)
Theorem wa_Run_spec : returns (wa_Run Collect Shuffle) (λ tk, ∃ f, getter_answers f wa_inputs ∧ wa_verdict f tk).
Proof.
  unfold wa_Run. eapply returns_bind; [by apply (collect_answers _ wa_inputs), Hshuffle; apply wa_inputs_distinct|].
  intros outputs [f Hc]. destruct (wa_inputs_parse outputs (proj1 Hc)) as [Hp Hlen], (wa_fold outputs Hp Hlen) as (tk & E & Hi).
  eapply (returns_bind _ _ (eq tk)); [by eapply returns_lift|]. intros ? <-. apply returns_ret.
  exists f. split; [apply Hc|by eapply wa_outputs_verdict].
Qed.

(** *** Facebook Messenger *)

(** The DNS is blocked for a service that does not resolve, or with an answer of another network; TCP is when a
    service that resolves does not connect. *)
Record fb_verdict (f : string → ug_TestKeys) (tk : fb_TestKeys) : Prop := {
  fbv_dns : ∀ s, fb_DNSConsistent tk s = Some (negb (dns_blocked (f (fb_target s))));
  fbv_tcp : ∀ s, fb_Reachable tk s =
    if decide (s = STUN) then None
    else if dns_blocked (f (fb_target s)) then None else Some (negb (operation_is ConnectOperation (f (fb_target s))));
  fbv_dns_blocking : FacebookDNSBlocking tk = Some (existsb (λ s, dns_blocked (f (fb_target s))) Services);
  fbv_tcp_blocking : FacebookTCPBlocking tk =
    Some (existsb (λ s, negb (dns_blocked (f (fb_target s))) && operation_is ConnectOperation (f (fb_target s))) Services);
  fbv_anomaly : (fb_MeasurementSummaryKeys tk).2 = true ↔
    ∃ s, dns_blocked (f (fb_target s)) = true ∨ operation_is ConnectOperation (f (fb_target s)) = true;
}.

Lemma fb_inputs_spec : fb_inputs = map (λ s, mkMultiInput ug_default (fb_target s)) Services.
Proof. done. Qed.

Lemma fb_inputs_distinct : NoDup (mi_Target <$> fb_inputs).
Proof. apply (bool_decide_unpack _). by vm_compute. Qed.

Lemma Services_complete s : s ∈ Services.
Proof. apply (bool_decide_unpack _). by destruct s. Qed.

Definition service_of_target (target : string) : option fb_service := find (λ s, String.eqb target (fb_target s)) Services.

Lemma service_of_target_spec s : service_of_target (fb_target s) = Some s.
Proof. by destruct s. Qed.

(** A test on the outputs of the services is a test on the services. *)
Lemma fb_test f outputs (test : Output → bool) (test' : ug_TestKeys → bool) :
  collected fb_inputs f outputs → (∀ o, test o = negb (IsNone (fb_service_of o)) && test' (mo_TestKeys o)) →
  existsb test outputs = existsb (λ s, test' (f (fb_target s))) Services.
Proof.
  intros (Hin & Hf & _) Ht.
  rewrite (existsb_answers _ (λ i, negb (IsNone (service_of_target (mi_Target i))) && test' (f (mi_Target i))) _ _ Hin)
    by (eapply Forall_impl; [exact Hf|]; intros o Ho; by rewrite Ht, Ho).
  rewrite fb_inputs_spec. induction Services as [|s l IH]; [done|]. cbn [map existsb mi_Target]. by rewrite service_of_target_spec, IH.
Qed.

Lemma fb_service_output f outputs s :
  collected fb_inputs f outputs → last (omap (fb_of s) outputs) = Some (fb_status (f (fb_target s))).
Proof.
  intros (Hin & Hf & _). apply omap_perm_singleton. etrans.
  - apply (omap_answers _ (λ i, if decide (service_of_target (mi_Target i) = Some s) then Some (fb_status (f (mi_Target i))) else None) fb_inputs);
      [done|]. eapply Forall_impl; [exact Hf|]. intros o Ho. unfold fb_of. by rewrite Ho.
  - by destruct s.
Qed.

Lemma fb_finish_spec tk (dns tcp : bool) (tk' := fb_finish tk) :
  FacebookDNSBlocking tk = (if dns then Some true else None) → FacebookTCPBlocking tk = (if tcp then Some true else None) →
  FacebookDNSBlocking tk' = Some dns ∧ FacebookTCPBlocking tk' = Some tcp ∧
  fb_DNSConsistent tk' = fb_DNSConsistent tk ∧ fb_Reachable tk' = fb_Reachable tk.
Proof.
  subst tk'. destruct tk as [keys d r db tb]. cbn. intros -> ->. by destruct dns, tcp.
Qed.

Lemma fb_outputs_verdict f outputs :
  collected fb_inputs f outputs → fb_verdict f (fb_finish (foldl fb_Update fb_start outputs)).
Proof.
  intros Hc. destruct (fb_fold outputs fb_start) as (Ed & Et & Hs).
  rewrite (fb_test f outputs fb_dns_blocked dns_blocked Hc (λ o, eq_refl)) in Ed.
  rewrite (fb_test f outputs fb_tcp_blocked (λ v, negb (dns_blocked v) && operation_is ConnectOperation v) Hc) in Et
    by (intros o; unfold fb_tcp_blocked; by rewrite andb_assoc).
  setoid_rewrite (λ s, fb_service_output f outputs s Hc) in Hs. set (tk := foldl _ _ _) in *. clearbody tk.
  destruct (fb_finish_spec tk _ _ Ed Et) as (Hd & Hf & Kd & Kr). clear Ed Et. constructor; [| |exact Hd|exact Hf|].
  - intros s. rewrite Kd. destruct (Hs s) as [E _]. rewrite E. unfold fb_status.
    by destruct (dns_blocked (f (fb_target s))), (operation_is ConnectOperation (f (fb_target s))).
  - intros s. rewrite Kr. destruct (Hs s) as [_ E]. rewrite E. unfold fb_status.
    by destruct (decide (s = STUN)), (dns_blocked (f (fb_target s))), (operation_is ConnectOperation (f (fb_target s))).
  - unfold fb_MeasurementSummaryKeys. cbn [snd]. rewrite Hd, Hf. cbn [from_option id]. rewrite orb_true_iff, !existsb_exists.
    split.
    + intros [(s & _ & E)|(s & _ & [_ E]%andb_true_iff)]; exists s; tauto.
    + intros [s Hor]. destruct (dns_blocked (f (fb_target s))) eqn:E.
      * left. exists s. split; [apply list_elem_of_In, Services_complete|done].
      * right. exists s. split; [apply list_elem_of_In, Services_complete|]. rewrite E. by destruct Hor.
Qed.

(** C18: in whatever order the pool answers, the keys of the Facebook Messenger experiment are determined by what the getter
    answered for each service: its DNS is consistent unless the lookup failed or some address is not of Facebook's network;
    it is reachable unless the connect failed, unknown when the DNS is not consistent and for STUN; there is DNS or TCP
    blocking when there is for some service, and an anomaly when there is either. *)
Theorem fb_Run_spec : returns (fb_Run Collect Shuffle) (λ tk, ∃ f, getter_answers f fb_inputs ∧ fb_verdict f tk).
Proof.
  unfold fb_Run. eapply returns_bind; [by apply (collect_answers _ fb_inputs), Hshuffle; apply fb_inputs_distinct|].
  intros outputs [f Hc]. apply returns_ret. exists f. split; [apply Hc|by apply fb_outputs_verdict].
Qed.

(** *** Signal *)

Definition sg_backends : list string :=
  ["https://cdsi.signal.org/"; "https://chat.signal.org/"; "https://sfu.voip.signal.org/"; "https://storage.signal.org/"].

(** The backend is blocked when a server fails; the failure is that of such a server. *)
Record sg_verdict (f : string → ug_TestKeys) (tk : sg_TestKeys) : Prop := {
  sgv_status : SignalBackendStatus tk = "blocked" ↔ ∃ target, target ∈ sg_backends ∧ fails f target;
  sgv_failure : match SignalBackendFailure tk with
    | Some failure => ∃ target, target ∈ sg_backends ∧ ugk_Failure (f target) = Some failure
    | None => ∀ target, target ∈ sg_backends → ugk_Failure (f target) = None
    end;
  sgv_anomaly : (sg_MeasurementSummaryKeys tk).2 = true ↔ SignalBackendFailure tk ≠ None;
}.

Lemma sg_inputs_distinct : NoDup (mi_Target <$> sg_inputs).
Proof. apply (bool_decide_unpack _). by vm_compute. Qed.

Lemma sg_failures f outputs failure :
  collected sg_inputs f outputs →
  failure ∈ omap backend_failure outputs ↔ ∃ target, target ∈ sg_backends ∧ ugk_Failure (f target) = Some failure.
Proof.
  intros (Hin & Hf & _).
  assert (Hp : omap backend_failure outputs ≡ₚ omap (λ target, ugk_Failure (f target)) sg_backends).
  { etrans; [apply (omap_answers _ (λ i, if String.eqb (mi_Target i) "dnslookup://uptime.signal.org" then None
      else ugk_Failure (f (mi_Target i))) _ _ Hin)|done].
    eapply Forall_impl; [exact Hf|]. intros o Ho. unfold backend_failure. by rewrite Ho. }
  by rewrite Hp, list_elem_of_omap.
Qed.

Lemma sg_outputs_verdict f outputs tk :
  collected sg_inputs f outputs → SignalBackendStatus tk = "ok" → SignalBackendFailure tk = None →
  sg_verdict f (foldl sg_Update tk outputs).
Proof.
  intros Hc Hok Hnone. pose proof (λ failure, sg_failures f outputs failure Hc) as Hm.
  destruct (sg_fold outputs tk) as (Es & Ef). rewrite Hok in Es. rewrite Hnone in Ef.
  generalize dependent (foldl sg_Update tk outputs). intros tk' Es Ef.
  destruct (omap backend_failure outputs) as [|failure l] eqn:E.
  - assert (Hall : ∀ target, target ∈ sg_backends → ugk_Failure (f target) = None).
    { intros target Ht. destruct (ugk_Failure (f target)) as [x|] eqn:Ex; [|done]. exfalso.
      eapply not_elem_of_nil, Hm. eauto. }
    constructor; unfold sg_MeasurementSummaryKeys; cbn; rewrite ?Es, ?Ef; cbn; [|exact Hall|done].
    split; [done|]. intros (t & Ht & Hft). destruct (Hft (Hall t Ht)).
  - assert (Hlast : ∃ x, last (failure :: l) = Some x ∧ x ∈ failure :: l).
    { destruct (last (failure :: l)) as [x|] eqn:Ex; [|by apply last_None in Ex]. exists x. split; [done|].
      apply last_Some in Ex as [l' ->]. apply elem_of_app. right. apply list_elem_of_here. }
    destruct Hlast as (x & Ex & Hx). rewrite Ex in Ef. apply Hm in Hx.
    constructor; unfold sg_MeasurementSummaryKeys; cbn; rewrite ?Es, ?Ef; cbn; [|exact Hx|done].
    split; [intros _|done]. destruct Hx as (t & Ht & Hft). exists t. split; [done|]. unfold fails. by rewrite Hft.
Qed.

(** The Signal experiment fails when a certificate is not valid, and otherwise says whether some server fails. *)
Theorem sg_Run_spec AppendCertsFromPEM signalCA signalCANew SignalCA :
  let certificates := if String.eqb SignalCA "" then [signalCA; signalCANew] else [SignalCA] in
  returns (sg_Run Collect AppendCertsFromPEM signalCA signalCANew SignalCA) (λ result,
    if forallb AppendCertsFromPEM certificates
    then ∃ tk f, result = Val tk ∧ getter_answers f sg_inputs ∧ sg_verdict f tk
    else result = Err (ErrValue "" [] "AppendCertsFromPEM failed")).
Proof.
  intros certificates. unfold sg_Run.
  assert (Ec : (if negb (String.eqb SignalCA "") then [SignalCA] else [signalCA; signalCANew]) = certificates)
    by (subst certificates; by destruct (String.eqb SignalCA "")).
  rewrite Ec. destruct (forallb _ certificates); cbn [negb]; [|by apply returns_ret].
  eapply returns_bind; [by apply (collect_answers _ sg_inputs), reflexivity; apply sg_inputs_distinct|].
  intros outputs [f Hc]. apply returns_ret. eexists _, f. split; [done|]. split; [apply Hc|by apply sg_outputs_verdict].
Qed.
End verdicts.

(** ** Sample runs: the first WhatsApp host, an access point of Telegram and a service of Facebook do not connect *)

Definition sample_blocked : list string :=
  ["tcpconnect://e1.whatsapp.net:443"; "tcpconnect://e1.whatsapp.net:5222"; "tcpconnect://e2.whatsapp.net:443";
   "http://149.154.175.50/"; "tcpconnect://b-api.facebook.com:443"].
Definition sample_answer (target : string) : ug_TestKeys :=
  if bool_decide (target ∈ sample_blocked)
  then ug_zero <| ugk_Failure := Some FailureConnectionRefused |> <| ugk_FailedOperation := Some ConnectOperation |>
  else ug_zero.
Definition sample_getter (input : Input) : saving (ug_TestKeys * option error) := mret (sample_answer (mi_Target input), None).
Definition sample_Collect (prefix : string) : list Input → saving (list Output) := sequential_pool sample_getter.
Definition sample_getter_runs (input : Input) (res : option error * ug_TestKeys) : Prop :=
  res = (None, sample_answer (mi_Target input)).

Lemma sample_Collect_ok prefix inputs :
  NoDup (mi_Target <$> inputs) →
  returns (sample_Collect prefix inputs)
    (multi_collected sample_getter_runs (multi_parallelism 0) inputs 0 (Z.of_nat (length inputs)) prefix).
Proof.
  intros _. eapply returns_impl; [apply sequential_pool_returns|].
  - intros input s _. by eexists.
  - intros outputs [Hin Hout]. apply multi_sequential; [by apply Nat.ltb_lt| |exact Hin].
    eapply Forall_impl; [exact Hout|]. intros o (s & s' & [= E1 E2]). unfold output_ok, sample_getter_runs. by rewrite E1, E2.
Qed.

Definition sample_of {A B} (run : saving A) (view : A → B) : option B :=
  match run sample_saver with Ok (a, _) => Some (view a) | Panic _ => None end.

Example wa_sample :
  sample_of (wa_Run sample_Collect (λ l, l)) (λ tk, (WhatsappEndpointsBlocked tk, WhatsappEndpointsStatus tk, wa_MeasurementSummaryKeys tk)) =
  Some (["e1.whatsapp.net"], "ok", (false, false, false, false)).
Proof. vm_compute. reflexivity. Qed.

Example tg_sample :
  sample_of (tg_Run sample_Collect) (λ tk, (TelegramWebStatus tk, tg_MeasurementSummaryKeys tk)) = Some ("ok", (false, false, false, false)).
Proof. vm_compute. reflexivity. Qed.

Example fb_sample :
  sample_of (fb_Run sample_Collect (λ l, l)) (λ tk, (fb_Reachable tk BAPI, fb_Reachable tk Star, fb_Reachable tk STUN, fb_MeasurementSummaryKeys tk)) =
  Some (Some false, Some true, None, (false, true, true)).
Proof. vm_compute. reflexivity. Qed.

Example sg_sample :
  sample_of (sg_Run sample_Collect (λ ca, negb (String.eqb ca "")) "ca" "new" "") (λ result, match result with Val tk => Some (sg_MeasurementSummaryKeys tk) | Err _ => None end) =
  Some (Some ("ok", None, false)).
Proof. vm_compute. reflexivity. Qed.

Lemma wa_Run_spec_witness :
  ∃ tk s' f, wa_Run sample_Collect (λ l, l) sample_saver = Ok (tk, s') ∧ wa_verdict f tk.
Proof.
  destruct (wa_Run_spec sample_getter_runs sample_Collect sample_Collect_ok (λ l, l) (λ l, reflexivity l) sample_saver)
    as (tk & s' & E & f & _ & Hf).
  exists tk, s', f. exact (conj E Hf).
Defined.

Lemma tg_Run_spec_witness :
  ∃ tk s' f, tg_Run sample_Collect sample_saver = Ok (tk, s') ∧ tg_verdict f tk.
Proof.
  destruct (tg_Run_spec sample_getter_runs sample_Collect sample_Collect_ok sample_saver) as (tk & s' & E & f & _ & Hf).
  exists tk, s', f. exact (conj E Hf).
Defined.

Lemma fb_Run_spec_witness :
  ∃ tk s' f, fb_Run sample_Collect (λ l, l) sample_saver = Ok (tk, s') ∧ fb_verdict f tk.
Proof.
  destruct (fb_Run_spec sample_getter_runs sample_Collect sample_Collect_ok (λ l, l) (λ l, reflexivity l) sample_saver)
    as (tk & s' & E & f & _ & Hf).
  exists tk, s', f. exact (conj E Hf).
Defined.
