(* ===== verification/EngineResolver.v ===== *)
(** * The resolver of the engine

    [pkg/engineresolver]: [LookupHost] tries the known DNS resolvers by descending
    score until one answers, and remembers on disk which ones worked.  The codec, the
    key-value store, random numbers, the contexts and the lookups are arguments. *)
From S2P Require Import Prelude Failures GoSort GoString GoFloat GoNet GoURL Bogon GoRegexp.
From S2P Require Import Scrubber.
From S2P Require Import NetErrors.
From Stdlib Require Import SpecFloat.

(** ** Floating point *)

(** [a >= b], [a + b], [a * b] *)
Definition float64_ge (a b : float64) : bool := SFleb b a.
Definition float64_add (a b : float64) : float64 := SFadd float64_prec float64_emax a b.
Definition float64_mul (a b : float64) : float64 := SFmul float64_prec float64_emax a b.

(** A constant with one decimal digit. *)
Definition tenths (n : Z) : float64 := float64_div (float64_of_int n) (float64_of_int 10).

(** ** [resolvermaker.go]: the resolvers *)

Definition systemResolverURL : string := "system:///".

Definition makers : list string := [
  "https://cloudflare-dns.com/dns-query";
  "http3://cloudflare-dns.com/dns-query";
  "https://dns.google/dns-query";
  "http3://dns.google/dns-query";
  "https://dns.quad9.net/dns-query";
  systemResolverURL;
  "https://mozilla.cloudflare-dns.com/dns-query";
  "http3://mozilla.cloudflare-dns.com/dns-query";
  "https://wikimedia-dns.org/dns-query"
].

Record resolverinfo := mkInfo { ri_URL : string; ri_Score : float64 }.

(** [allmakers] after the initialization, in which [rng] is the random number drawn
    for a URL. *)
Definition allmakers (rng : string → float64) : list resolverinfo :=
  (λ url, mkInfo url (if negb (bool_decide (url = systemResolverURL)) then rng url else tenths 5)) <$> makers.

(** Whether [allbyurl] has the URL. *)
Definition supported (url : string) : bool := bool_decide (url ∈ makers).

(** ** [factory.go]: the construction of a resolver *)

Definition errCannotUseHTTP3WithAProxyURL : error :=
  ErrValue "errCannotUseHTTP3WithAProxyURL" [] "cannot use HTTP/3 with a proxy URL".
Definition errUnsupportedResolverScheme : error :=
  ErrValue "errUnsupportedResolverScheme" [] "unsupported resolver scheme".

(** What a child resolver sends its queries to; it is wrapped by the bogon resolver. *)
Inductive child :=
  | ChildHTTPS (URL : string) (http3Enabled : bool) (proxyURL : option string)
  | ChildSystem.

Section resolver.
Context `{StableSort}.
Context (rng : string → float64).
Context {bytes : Type} (codec_Decode : bytes → result error (list (option resolverinfo)))
        (codec_Encode : list resolverinfo → result error bytes).
(** The error of [url.Parse]. *)
Context (parse_error : string → error).

Definition newChildResolver (URL : string) (http3Enabled : bool) (proxyURL : option string) :
    outcome (result error child) :=
  _ ← Assert (negb (bool_decide (URL = ""))) "passed an empty URL";
  if http3Enabled && negb (IsNone proxyURL) then Ok (Err errCannotUseHTTP3WithAProxyURL)
  else
    match url_Parse URL with
    | None => Ok (Err (parse_error URL))
    | Some parsed =>
        if bool_decide (Scheme parsed = "http") || bool_decide (Scheme parsed = "https")
        then Ok (Val (ChildHTTPS URL http3Enabled proxyURL))
        else if bool_decide (Scheme parsed = "system") then Ok (Val ChildSystem)
        else Ok (Err errUnsupportedResolverScheme)
    end.

Definition newresolver (ProxyURL : option string) (URL : string) : outcome (result error child) :=
  let h3 := HasPrefix URL "http3://" in
  let URL := if h3 then "https://" +:+ string_drop (String.length "http3://") URL else URL in
  newChildResolver URL h3 ProxyURL.

(** ** [resolver.go]: the state *)

(** The children by URL ([None]: the nil map) and whether [once] has run. *)
Record Resolver := mkResolver {
  ProxyURL : option string;
  rs_res : option (gmap string child);
  rs_closed : bool;
}.

Definition getresolver (r : Resolver) (URL : string) : outcome (Resolver * result error child) :=
  match default ∅ (rs_res r) !! URL with
  | Some re => Ok (r, Val re)
  | None =>
      re ← newresolver (ProxyURL r) URL;
      match re with
      | Err err => Ok (r, Err err)
      | Val re => Ok (r <| rs_res := Some (<[URL := re]> (default ∅ (rs_res r))) |>, Val re)
      end
  end.

(** With the children that are closed. *)
Definition closeall (r : Resolver) : Resolver * list (string * child) :=
  (r <| rs_res := None |>, map_to_list (default ∅ (rs_res r))).

Definition CloseIdleConnections (r : Resolver) : Resolver * list (string * child) :=
  if rs_closed r then (r, []) else closeall (r <| rs_closed := true |>).

(** ** [state.go] *)

Definition storekey : string := "sessionresolver.state".
Definition ErrNilKVStore : error := ErrValue "ErrNilKVStore" [] "sessionresolver: kvstore is nil".
Definition errNoEntries : error := ErrValue "errNoEntries" [] "sessionresolver: no available entries".

(** [kv_Get]: what [Get] of the store returns for a key; [None]: there is no store. *)
Definition readstate (kv_Get : option (string → result error bytes)) : result error (list (option resolverinfo)) :=
  match kv_Get with
  | None => Err ErrNilKVStore
  | Some kv_Get =>
      match kv_Get storekey with
      | Err err => Err err
      | Val data => codec_Decode data
      end
  end.

(** A turn of the loop: the entries are pointers. *)
Definition prune_state (out : list resolverinfo) (e : option resolverinfo) : outcome (list resolverinfo) :=
  match e with
  | None => Panic "nil pointer dereference"
  | Some e => Ok (if supported (ri_URL e) then out ++ [e] else out)
  end.

Definition readstateandprune (kv_Get : option (string → result error bytes)) :
    outcome (result error (list resolverinfo)) :=
  match readstate kv_Get with
  | Err err => Ok (Err err)
  | Val ri =>
      out ← foldM prune_state [] ri;
      Ok (if (length out <=? 0)%nat then Err errNoEntries else Val out)
  end.

Definition state_less (i j : resolverinfo) : bool := float64_ge (ri_Score i) (ri_Score j).

Definition sortstate (ri : list resolverinfo) : list resolverinfo := SliceStable state_less ri.

Definition readstatedefault (kv_Get : option (string → result error bytes)) : outcome (list resolverinfo) :=
  ri ← readstateandprune kv_Get;
  let ri := match ri with Val ri => ri | Err _ => [] end in
  let here := foldl (λ here e, <[ri_URL e := true]> here) (∅ : gmap string bool) ri in
  let ri := foldl (λ ri e, if IsNone (here !! ri_URL e) then ri ++ [e] else ri) ri (allmakers rng) in
  Ok (sortstate ri).

(** The data given to [Set] of the store, if any. *)
Definition writestate (has_store : bool) (ri : list resolverinfo) : option bytes :=
  if negb has_store then None
  else match codec_Encode ri with Err _ => None | Val data => Some data end.

(** ** [resolver.go]: the lookup *)

(** [multierror.Union] and [errWrapper] (which unwraps to the error it wraps). *)
Record Union := mkUnion { Root : error; Children : list error }.

Definition multierror_New (root : error) : Union := mkUnion root [].

Definition multierror_Add (child : error) (err : Union) : Union := err <| Children ::= λ l, l ++ [child] |>.

Definition newErrWrapper (err : error) (URL : string) : error :=
  ErrAround ("<" +:+ URL +:+ "> " +:+ Error err) err.

Definition ErrLookupHost : error := ErrValue "ErrLookupHost" [] "sessionresolver: LookupHost failed".

(** The constants [ewma * 1.0], [ewma * 0.0] and [1 - ewma] are computed exactly and then
    rounded. *)
Definition increase_score (score : float64) : float64 := float64_add (tenths 9) (float64_mul (tenths 1) score).
Definition decrease_score (score : float64) : float64 := float64_add float64_zero (float64_mul (tenths 1) score).

Definition shouldSkipWithProxy (e : resolverinfo) : bool :=
  match url_Parse (ri_URL e) with
  | None => true
  | Some URL =>
      negb (bool_decide (Scheme URL = "https") || bool_decide (Scheme URL = "dot") || bool_decide (Scheme URL = "tcp"))
  end.

(** [rng.Float64()] is [draw]. *)
Definition maybeConfusion (draw : float64) (state : list resolverinfo) : list resolverinfo :=
  if float64_ge draw (tenths 3) then state
  else
    match state with
    | [] | [_] => state
    | [x; y] => [y; x]
    | x :: y :: z :: rest => z :: y :: x :: rest
    end.

(** What happens during one lookup: what the children answer within the time limit and
    [ctx.Err()] before the n-th entry. *)
Record lookup_env := mkLookupEnv {
  le_draw : float64;
  le_ctx_Err : nat → option error;
  le_LookupHost : child → string → result error (list string);
}.

(** With the entry after the update of its score. *)
Definition lookupHost (env : lookup_env) (r : Resolver) (ri : resolverinfo) (hostname : string) :
    outcome (Resolver * resolverinfo * result error (list string)) :=
  '(r, re) ← getresolver r (ri_URL ri);
  match re with
  | Err err => Ok (r, ri <| ri_Score := float64_zero |>, Err err)
  | Val re =>
      bogon ← NewErrWrapper (Some ClassifyResolverError) ResolveOperation (Some ErrDNSBogon);
      match MaybeWrapWithBogonResolver bogon true (le_LookupHost env re) hostname with
      | Val addrs => Ok (r, ri <| ri_Score ::= increase_score |>, Val addrs)
      | Err err => Ok (r, ri <| ri_Score ::= decrease_score |>, Err err)
      end
  end.

(** The loop of [LookupHost] at the n-th entry, with the entries as the loop leaves them. *)
Fixpoint lookup_loop (env : lookup_env) (hostname : string) (n : nat) (r : Resolver)
    (state : list resolverinfo) (me : Union) :
    outcome (Resolver * list resolverinfo * result Union (list string)) :=
  match state with
  | [] => Ok (r, [], Err me)
  | e :: state =>
      if negb (IsNone (ProxyURL r)) && shouldSkipWithProxy e then
        '(r, state, answer) ← lookup_loop env hostname (S n) r state me; Ok (r, e :: state, answer)
      else
        match le_ctx_Err env n with
        | Some err =>
            '(r, state, answer) ← lookup_loop env hostname (S n) r state (multierror_Add (newErrWrapper err (ri_URL e)) me);
            Ok (r, e :: state, answer)
        | None =>
            '(r, e, answer) ← lookupHost env r e hostname;
            match answer with
            | Val addrs => Ok (r, e :: state, Val addrs)
            | Err err =>
                '(r, state, answer) ← lookup_loop env hostname (S n) r state (multierror_Add (newErrWrapper err (ri_URL e)) me);
                Ok (r, e :: state, answer)
            end
        end
  end.

(** With the state that [defer r.writestate(state)] writes. *)
Definition LookupHost (env : lookup_env) (r : Resolver) (kv_Get : option (string → result error bytes))
    (hostname : string) : outcome (Resolver * list resolverinfo * option bytes * result Union (list string)) :=
  state ← readstatedefault kv_Get;
  let state := maybeConfusion (le_draw env) state in
  '(r, state, answer) ← lookup_loop env hostname 0 r state (multierror_New ErrLookupHost);
  Ok (r, state, writestate (negb (IsNone kv_Get)) state, answer).
End resolver.

(** ** The resolver of the engine: what a lookup does

    Which resolvers are asked and in what order, how their scores change, and what
    is remembered. *)

(** ** The order of the scores *)

Lemma float64_ge_lt a b : is_NaN a = false → is_NaN b = false → float64_ge a b = negb (float64_lt a b).
Proof.
  unfold float64_ge, float64_lt, SFleb, SFltb.
  destruct a as [[|]|[|]| |[|] ma ea], b as [[|]|[|]| |[|] mb eb]; try discriminate; intros _ _;
    cbn [SFcompare]; try done;
    change (Pos.compare_cont Eq mb ma) with (Pos.compare mb ma); change (Pos.compare_cont Eq ma mb) with (Pos.compare ma mb);
    rewrite (Z.compare_antisym ea eb), (Pos.compare_antisym ma mb);
    by destruct (Z.compare ea eb), (Pos.compare ma mb).
Qed.

Definition scored (e : resolverinfo) : Prop := is_NaN (ri_Score e) = false.

Lemma state_less_spec x y :
  scored x → scored y → state_less x y = negb (key_lt (float64_key (ri_Score x)) (float64_key (ri_Score y))).
Proof. intros Hx Hy. unfold state_less. by rewrite float64_ge_lt, float64_lt_key. Qed.

(** A file of at most twenty entries is sorted by descending score. *)
Lemma sortstate_sorts `{StableSort} ri :
  (length ri ≤ 20)%nat → Forall scored ri →
  StronglySorted (λ x y, float64_ge (ri_Score x) (ri_Score y) = true) (sortstate ri).
Proof.
  intros Hlen Hri. unfold sortstate. rewrite SliceStable_short by done.
  apply (insertion_sort_total state_less scored); [| |done].
  - intros x y Hx Hy. rewrite !state_less_spec by done.
    destruct (key_lt (float64_key (ri_Score x)) _) eqn:E1; [|by left]. right.
    destruct (key_lt (float64_key (ri_Score y)) _) eqn:E2; [|done].
    apply swo_asym in E1. congruence.
  - intros x y z Hx Hy Hz. rewrite !state_less_spec by done. rewrite !negb_true_iff. intros Hxy Hyz. exact (swo_negtrans key_lt _ _ _ Hxy Hyz).
Qed.

(** ** The resolvers *)

(** The child that serves a supported URL. *)
Definition child_for (proxy : option string) (url : string) : child :=
  if bool_decide (url = systemResolverURL) then ChildSystem
  else if HasPrefix url "http3://"
  then ChildHTTPS ("https://" +:+ string_drop (String.length "http3://") url) true proxy
  else ChildHTTPS url false proxy.

(** The URLs that a resolver with a proxy may ask. *)
Definition proxied (url : string) : bool := HasPrefix url "https://".

Lemma makers_cases (Q : string → Prop) : Forall Q makers → ∀ url, supported url = true → Q url.
Proof. intros HQ url Hs. apply bool_decide_eq_true in Hs. rewrite Forall_forall in HQ. by apply HQ. Qed.

Lemma skip_proxied e : supported (ri_URL e) = true → shouldSkipWithProxy e = negb (proxied (ri_URL e)).
Proof. destruct e as [url score]. cbn. revert url. apply makers_cases. repeat (constructor; [reflexivity|]). constructor. Qed.

Lemma newresolver_supported parse_error proxy url :
  supported url = true → (proxy = None ∨ proxied url = true) →
  newresolver parse_error proxy url = Ok (Val (child_for proxy url)).
Proof.
  intros Hs. revert url Hs. apply (makers_cases (λ url, proxy = None ∨ proxied url = true → _)).
  repeat (constructor; [by intros [->|[=]]; try reflexivity; destruct proxy; reflexivity|]). constructor.
Qed.

(** The error of the bogon resolver. *)
Definition bogon_error : error := ErrWrapper (ClassifyResolverError ErrDNSBogon) ResolveOperation ErrDNSBogon.

Lemma bogon_error_ok : NewErrWrapper (Some ClassifyResolverError) ResolveOperation (Some ErrDNSBogon) = Ok bogon_error.
Proof. reflexivity. Qed.

Section lookup.
Context `{StableSort}.
Context (rng : string → float64).
Context {bytes : Type} (codec_Decode : bytes → result error (list (option resolverinfo)))
        (codec_Encode : list resolverinfo → result error bytes) (parse_error : string → error).
#[local] Abbreviation run_LookupHost := (LookupHost rng codec_Decode codec_Encode parse_error).
#[local] Abbreviation run_lookup_loop := (lookup_loop parse_error).
#[local] Abbreviation run_readstate := (readstate codec_Decode).

(** The cached children are those that a new resolver would have. *)
Definition res_ok (r : Resolver) : Prop :=
  ∀ url c, default ∅ (rs_res r) !! url = Some c → supported url = true → c = child_for (ProxyURL r) url.

Definition may_ask (proxy : option string) (e : resolverinfo) : bool := IsNone proxy || proxied (ri_URL e).

Lemma may_ask_spec proxy e :
  supported (ri_URL e) = true → negb (IsNone proxy) && shouldSkipWithProxy e = negb (may_ask proxy e).
Proof. intros Hs. rewrite skip_proxied by done. unfold may_ask. by destruct proxy. Qed.

Lemma getresolver_supported r url :
  res_ok r → supported url = true → (ProxyURL r = None ∨ proxied url = true) →
  ∃ r', getresolver parse_error r url = Ok (r', Val (child_for (ProxyURL r) url)) ∧ res_ok r' ∧ ProxyURL r' = ProxyURL r.
Proof.
  intros Hr Hs Hp. unfold getresolver. destruct (default ∅ (rs_res r) !! url) as [c|] eqn:E.
  { rewrite (Hr _ _ E Hs). by eexists. }
  rewrite newresolver_supported by done. cbn [mbind outcome_bind]. eexists. split; [done|].
  destruct r as [proxy res closed]. cbn in *. split; [|done]. intros u c. cbn. rewrite lookup_insert_Some.
  intros [[<- <-]|[_ Hu]]; [done|]. by apply Hr.
Qed.

(** ** What a lookup does with an entry *)

Section visits.
Context (env : lookup_env) (hostname : string) (proxy : option string).

(** The answer of the child of an entry, in which bogons are refused. *)
Definition ask (e : resolverinfo) : result error (list string) :=
  match le_LookupHost env (child_for proxy (ri_URL e)) hostname with
  | Err err => Err err
  | Val addrs =>
      if existsb IsBogon addrs then Err bogon_error else Val addrs
  end.

(** The visit of the n-th entry: nothing when it is skipped, the error of the context, the answer. *)
Definition visit (n : nat) (e : resolverinfo) : option (result error (list string)) :=
  if negb (may_ask proxy e) then None
  else match le_ctx_Err env n with
       | Some err => Some (Err err)
       | None => Some (ask e)
       end.

Definition answered (e : resolverinfo) : resolverinfo :=
  match ask e with
  | Val _ => e <| ri_Score ::= increase_score |>
  | Err _ => e <| ri_Score ::= decrease_score |>
  end.

(** The entry after the visit: only an answer changes the score. *)
Definition rescore (n : nat) (e : resolverinfo) : resolverinfo :=
  if may_ask proxy e && IsNone (le_ctx_Err env n) then answered e else e.

Definition failure_of (n : nat) (e : resolverinfo) : option error :=
  match visit n e with
  | Some (Err err) => Some (newErrWrapper err (ri_URL e))
  | _ => None
  end.

Definition useless (v : option (result error (list string))) : Prop := ∀ addrs, v ≠ Some (Val addrs).

(** The loop from the n-th entry on visits a prefix without an answer, and then either an entry that
    answers or the end. *)
Definition looked_up (n : nat) (state : list resolverinfo) (me : Union) (state' : list resolverinfo)
    (answer : result Union (list string)) : Prop :=
  ∃ tried rest, state = tried ++ rest ∧ (∀ i e, tried !! i = Some e → useless (visit (n + i) e)) ∧
    match answer with
    | Val addrs => ∃ e rest', rest = e :: rest' ∧ visit (n + length tried) e = Some (Val addrs) ∧
        state' = imap (λ i, rescore (n + i)) tried ++ rescore (n + length tried) e :: rest'
    | Err err => rest = [] ∧ state' = imap (λ i, rescore (n + i)) tried ∧
        err = mkUnion (Root me) (Children me ++ omap id (imap (λ i, failure_of (n + i)) tried))
    end.

Lemma looked_up_cons n e state me me1 state' answer :
  useless (visit n e) → Root me1 = Root me →
  Children me1 = Children me ++ from_option (λ x, [x]) [] (failure_of n e) →
  looked_up (S n) state me1 state' answer → looked_up n (e :: state) me (rescore n e :: state') answer.
Proof.
  intros Hu HR HC (tried & rest & -> & Hall & Han). exists (e :: tried), rest. split_and!; [done| |].
  { intros [|i] e0 Hi; cbn in Hi; [injection Hi as <-; by rewrite Nat.add_0_r|].
    replace (n + S i)%nat with (S n + i)%nat by lia. by apply Hall. }
  rewrite !imap_cons, Nat.add_0_r.
  rewrite (imap_ext _ (λ i, rescore (S n + i)) tried) by (intros; cbn; f_equal; lia).
  rewrite (imap_ext _ (λ i, failure_of (S n + i)) tried) by (intros; cbn; f_equal; lia).
  replace (n + length (e :: tried))%nat with (S n + length tried)%nat by (cbn; lia).
  destruct answer as [addrs|err].
  - destruct Han as (e0 & rest' & -> & Hv0 & ->). by exists e0, rest'.
  - destruct Han as (-> & -> & ->). split_and!; [done..|]. rewrite HR, HC.
    cbn [omap list_omap]. destruct (failure_of n e); cbn; by rewrite <-?app_assoc, ?app_nil_r.
Qed.

Lemma looked_up_answer n e state me addrs :
  visit n e = Some (Val addrs) → looked_up n (e :: state) me (rescore n e :: state) (Val addrs).
Proof.
  intros Hv. exists [], (e :: state). split_and!; [done|by intros|].
  exists e, state. cbn. rewrite Nat.add_0_r. by split_and!.
Qed.

Lemma lookupHost_visit r e :
  res_ok r → ProxyURL r = proxy → supported (ri_URL e) = true → may_ask proxy e = true →
  ∃ r', lookupHost parse_error env r e hostname = Ok (r', answered e, ask e) ∧ res_ok r' ∧ ProxyURL r' = proxy.
Proof.
  intros Hr Hp Hs Hm. unfold lookupHost.
  destruct (getresolver_supported r (ri_URL e)) as (r' & -> & Hr' & Hp'); [done..| |].
  { rewrite Hp. unfold may_ask in Hm. destruct proxy; [right|left]; done. }
  rewrite Hp in *. exists r'. split; [|done]. cbn [mbind outcome_bind]. rewrite bogon_error_ok. cbn [mbind outcome_bind].
  unfold answered, ask, MaybeWrapWithBogonResolver, bogonResolver_LookupHost.
  destruct (le_LookupHost env _ hostname) as [addrs|]; [|done]. by destruct (existsb IsBogon addrs).
Qed.

Lemma lookup_loop_spec state : ∀ n r me,
  res_ok r → ProxyURL r = proxy → Forall (λ e, supported (ri_URL e) = true) state →
  ∃ r' state' answer, run_lookup_loop env hostname n r state me = Ok (r', state', answer) ∧
    res_ok r' ∧ ProxyURL r' = proxy ∧ looked_up n state me state' answer.
Proof.
  induction state as [|e state IH]; intros n r me Hr Hp Hs.
  { exists r, [], (Err me). split_and!; [done..|]. exists [], []. split; [done|]. split; [done|].
    cbn. rewrite app_nil_r. by destruct me. }
  apply Forall_cons in Hs as [He Hs]. cbn [EngineResolver.lookup_loop]. rewrite Hp, may_ask_spec by done.
  destruct (may_ask proxy e) eqn:Hm; cbn [negb]; cycle 1.
  { destruct (IH (S n) r me Hr Hp Hs) as (r' & st & an & -> & Hr' & Hp' & Hl). eexists _, _, _. split_and!; [done..|].
    assert (Hre : rescore n e = e) by (unfold rescore; by rewrite Hm). rewrite <-Hre at 2.
    eapply looked_up_cons, Hl; [by unfold visit; rewrite Hm|done|].
    unfold failure_of, visit. rewrite Hm. cbn. by rewrite app_nil_r. }
  destruct (le_ctx_Err env n) as [cerr|] eqn:Ectx.
  { edestruct (IH (S n) r) as (r' & st & an & -> & Hr' & Hp' & Hl); [done..|]. eexists _, _, _. split_and!; [done..|].
    assert (Hre : rescore n e = e) by (unfold rescore; by rewrite Hm, Ectx). rewrite <-Hre at 2.
    eapply looked_up_cons, Hl; [by unfold visit; rewrite Hm, Ectx|by destruct me|].
    unfold failure_of, visit. rewrite Hm, Ectx. by destruct me. }
  destruct (lookupHost_visit r e Hr Hp He Hm) as (r1 & -> & Hr1 & Hp1). cbn [mbind outcome_bind].
  assert (Hv : visit n e = Some (ask e)) by (unfold visit; by rewrite Hm, Ectx).
  assert (Hre : rescore n e = answered e) by (unfold rescore; by rewrite Hm, Ectx). rewrite <-Hre.
  destruct (ask e) as [addrs|err] eqn:Ea.
  { eexists _, _, _. split_and!; [done..|]. by apply looked_up_answer. }
  edestruct (IH (S n) r1) as (r' & st & an & -> & Hr' & Hp' & Hl); [done..|]. eexists _, _, _. split_and!; [done..|].
  eapply looked_up_cons, Hl; [by rewrite Hv|by destruct me|]. unfold failure_of. rewrite Hv, Hre.
  unfold answered. rewrite Ea. by destruct me, e.
Qed.
End visits.

(** ** The state that a lookup starts with *)

(** The entries of the file that are supported. *)
Definition known (kv_Get : option (string → result error bytes)) : list resolverinfo :=
  match run_readstate kv_Get with
  | Err _ => []
  | Val ri => filter (λ e, supported (ri_URL e) = true) (omap id ri)
  end.

(** The known entries and one for every resolver that the file does not have. *)
Definition merged (kv_Get : option (string → result error bytes)) : list resolverinfo :=
  known kv_Get ++ filter (λ e, ri_URL e ∉ ri_URL <$> known kv_Get) (allmakers rng).

(** No entry of the file is null. *)
Definition file_ok (kv_Get : option (string → result error bytes)) : Prop :=
  ∀ ri, run_readstate kv_Get = Val ri → None ∉ ri.

Lemma prune_state_spec ri out :
  None ∉ ri →
  foldM prune_state out ri = Ok (out ++ filter (λ e, supported (ri_URL e) = true) (omap id ri)).
Proof.
  revert out. induction ri as [|[e|] ri IH]; intros out Hri; cbn [foldM prune_state mbind outcome_bind omap list_omap id].
  - by rewrite app_nil_r.
  - rewrite IH by set_solver. rewrite filter_cons. destruct (supported (ri_URL e)); [|done].
    rewrite decide_True by done. by rewrite <-app_assoc.
  - set_solver.
Qed.

Lemma here_spec (l : list resolverinfo) (m : gmap string bool) url :
  foldl (λ here e, <[ri_URL e := true]> here) m l !! url = if decide (url ∈ ri_URL <$> l) then Some true else m !! url.
Proof.
  revert m. induction l as [|e l IH]; intros m; [by rewrite decide_False by set_solver|].
  cbn [foldl]. rewrite IH, lookup_insert, fmap_cons. repeat case_decide; set_solver.
Qed.

Lemma readstatedefault_spec kv_Get :
  file_ok kv_Get → readstatedefault rng codec_Decode kv_Get = Ok (sortstate (merged kv_Get)).
Proof.
  intros Hf. unfold readstatedefault, readstateandprune.
  assert (Hri : ∃ ri, (match run_readstate kv_Get with
    | Err err => Ok (Err err)
    | Val ri => out ← foldM prune_state [] ri; Ok (if (length out <=? 0)%nat then Err errNoEntries else Val out)
    end = Ok ri) ∧ match ri with Val ri => ri | Err _ => [] end = known kv_Get).
  { unfold known. destruct (run_readstate kv_Get) as [ri|err] eqn:E; [|by eexists].
    rewrite prune_state_spec by (by apply Hf). cbn [mbind outcome_bind app]. eexists. split; [done|].
    by destruct (filter _ _). }
  destruct Hri as (ri & -> & Hri). cbn [mbind outcome_bind]. rewrite Hri. do 2 f_equal.
  rewrite (foldl_collect (λ e, IsNone (foldl (λ here e, <[ri_URL e := true]> here) ∅ (known kv_Get) !! ri_URL e)) id).
  unfold merged. f_equal. rewrite list_fmap_id. apply list_filter_iff. intros e. rewrite here_spec.
  case_decide as Hd; cbn; split; naive_solver.
Qed.

Lemma maybeConfusion_perm draw state : maybeConfusion draw state ≡ₚ state.
Proof.
  unfold maybeConfusion. destruct (float64_ge draw (tenths 3)); [done|].
  destruct state as [|x [|y [|z rest]]]; [done..|apply Permutation_swap|].
  etrans; [apply Permutation_swap|]. etrans; [apply perm_skip, Permutation_swap|]. apply Permutation_swap.
Qed.

Lemma merged_supported kv_Get : Forall (λ e, supported (ri_URL e) = true) (merged kv_Get).
Proof.
  unfold merged. apply Forall_app. split.
  - unfold known. destruct (run_readstate kv_Get); [|constructor]. apply Forall_forall. intros e. rewrite list_elem_of_filter. tauto.
  - apply Forall_forall. intros e. rewrite list_elem_of_filter. intros [_ He].
    unfold allmakers in He. apply list_elem_of_fmap in He as (url & -> & Hurl). by apply bool_decide_eq_true.
Qed.

(** Every resolver is represented. *)
Lemma merged_makers kv_Get url : url ∈ makers → url ∈ ri_URL <$> merged kv_Get.
Proof.
  intros Hurl. unfold merged. rewrite fmap_app, elem_of_app.
  destruct (decide (url ∈ ri_URL <$> known kv_Get)) as [|Hn]; [by left|]. right.
  unfold allmakers. apply list_elem_of_fmap. eexists (mkInfo url _). split; [done|].
  apply list_elem_of_filter. split; [done|]. apply list_elem_of_fmap. by eexists.
Qed.

Lemma LookupHost_state env r kv_Get hostname :
  res_ok r → file_ok kv_Get →
  ∃ r' state' answer,
    run_LookupHost env r kv_Get hostname =
      Ok (r', state', writestate codec_Encode (negb (IsNone kv_Get)) state', answer) ∧
    res_ok r' ∧ ProxyURL r' = ProxyURL r ∧
    looked_up env hostname (ProxyURL r) 0 (maybeConfusion (le_draw env) (sortstate (merged kv_Get)))
      (multierror_New ErrLookupHost) state' answer.
Proof.
  intros Hr Hf. unfold EngineResolver.LookupHost. rewrite readstatedefault_spec by done. cbn [mbind outcome_bind].
  edestruct (lookup_loop_spec env hostname (ProxyURL r)) as (r' & st & an & -> & Hr' & Hp & Hl); [done..| |].
  - rewrite maybeConfusion_perm. unfold sortstate. rewrite SliceStable_perm. apply merged_supported.
  - by eexists r', st, an.
Qed.

(** ** A lookup *)

(** a lookup never panics unless the file has a null entry.  It starts with the supported entries of the
    file and one for each resolver that the file lacks, by descending score, up to a swap of two entries; it visits them in order,
    skips those that the proxy cannot carry, does not ask when the context is done, and stops
    at the first answer without bogons.  Asking raises or lowers the score of an entry, nothing
    else changes, and without an answer the error has the failures in order. *)
Theorem LookupHost_spec env r kv_Get hostname (Hr : res_ok r) (Hf : file_ok kv_Get) :
  let start := sortstate (merged kv_Get) in
  start ≡ₚ merged kv_Get ∧
  ((length start ≤ 20)%nat → Forall scored start →
     StronglySorted (λ x y, float64_ge (ri_Score x) (ri_Score y) = true) start) ∧
  (∀ url, url ∈ makers → url ∈ ri_URL <$> start) ∧
  ∃ r' state' answer,
    run_LookupHost env r kv_Get hostname =
      Ok (r', state', writestate codec_Encode (negb (IsNone kv_Get)) state', answer) ∧
    res_ok r' ∧
    looked_up env hostname (ProxyURL r) 0 (maybeConfusion (le_draw env) start)
      (multierror_New ErrLookupHost) state' answer.
Proof.
  intros start. assert (Hp : start ≡ₚ merged kv_Get) by apply SliceStable_perm. split_and!.
  - done.
  - intros Hlen Hs. apply sortstate_sorts; by rewrite <-?Hp.
  - intros url Hurl. rewrite Hp. by apply merged_makers.
  - destruct (LookupHost_state env r kv_Get hostname) as (r' & st & an & Heq & Hr' & _ & Hl); [done..|].
    by exists r', st, an.
Qed.

(** ** A store that only this package writes to *)

(** The content of the store, which may be empty: what [Get] returns. *)
Definition kv_of (ErrNoSuchKey : error) (content : option bytes) : option (string → result error bytes) :=
  Some (λ _, match content with None => Err ErrNoSuchKey | Some data => Val data end).

(** Any number of lookups, which may overlap: each reads some earlier content. *)
Inductive store_reachable (ErrNoSuchKey : error) : option bytes → Prop :=
  | store_empty : store_reachable ErrNoSuchKey None
  | store_written content env r hostname r' state' data answer :
      store_reachable ErrNoSuchKey content → res_ok r →
      run_LookupHost env r (kv_of ErrNoSuchKey content) hostname = Ok (r', state', Some data, answer) →
      store_reachable ErrNoSuchKey (Some data).

Lemma looked_up_urls env hostname proxy n state me state' answer :
  looked_up env hostname proxy n state me state' answer → ri_URL <$> state' = ri_URL <$> state.
Proof.
  assert (Hre : ∀ k e, ri_URL (rescore env hostname proxy k e) = ri_URL e).
  { intros k [url score]. unfold rescore, answered. destruct (_ && _); [|done]. by destruct (ask _ _ _ _). }
  assert (Himap : ∀ l, ri_URL <$> imap (λ i, rescore env hostname proxy (n + i)) l = ri_URL <$> l).
  { intros l. rewrite fmap_imap, (imap_ext _ (const ri_URL)) by (intros; apply Hre). apply imap_const. }
  intros (tried & rest & -> & _ & Han). destruct answer as [addrs|err].
  - destruct Han as (e & rest' & -> & _ & ->). by rewrite !fmap_app, !fmap_cons, Himap, Hre.
  - destruct Han as (-> & -> & _). by rewrite app_nil_r, Himap.
Qed.

Lemma merged_start kv_Get : known kv_Get = [] → merged kv_Get = allmakers rng.
Proof.
  intros Hk. unfold merged. rewrite Hk. cbn [app fmap list_fmap]. apply list_filter_all. intros. set_solver.
Qed.

Lemma merged_written kv_Get st :
  run_readstate kv_Get = Val (Some <$> st) → ri_URL <$> st ≡ₚ makers → merged kv_Get = st.
Proof.
  intros Hread Hst.
  assert (Hk : known kv_Get = st).
  { unfold known. rewrite Hread. replace (omap id (Some <$> st)) with st
      by (clear; induction st as [|e st IH]; [done|]; cbn; by f_equal).
    apply list_filter_all. intros e He. apply bool_decide_eq_true. rewrite <-Hst. by apply list_elem_of_fmap_2. }
  unfold merged. rewrite Hk. rewrite list_filter_none; [by rewrite app_nil_r|].
  intros e He Hn. apply Hn. rewrite Hst. unfold allmakers in He. apply list_elem_of_fmap in He as (url & -> & Hurl). done.
Qed.

Lemma store_reachable_start ErrNoSuchKey content
    (Hcodec : ∀ ri data, codec_Encode ri = Val data → codec_Decode data = Val (Some <$> ri)) :
  store_reachable ErrNoSuchKey content →
  file_ok (kv_of ErrNoSuchKey content) ∧ ri_URL <$> merged (kv_of ErrNoSuchKey content) ≡ₚ makers.
Proof.
  induction 1 as [|content env r hostname r' st data an Hc [Hf IH] Hr Heq].
  { split; [by intros ri|]. rewrite merged_start by done. unfold allmakers. by rewrite <-list_fmap_compose, list_fmap_id. }
  destruct (LookupHost_state env r (kv_of ErrNoSuchKey content) hostname) as (r1 & st1 & an1 & Heq1 & _ & _ & Hl); [done..|].
  rewrite Heq in Heq1. injection Heq1 as <- <- Hd <-.
  assert (Hread : run_readstate (kv_of ErrNoSuchKey (Some data)) = Val (Some <$> st)).
  { cbn. apply Hcodec. unfold writestate in Hd. cbn in Hd. destruct (codec_Encode st); [by injection Hd as ->|done]. }
  split.
  - intros ri. rewrite Hread. intros [= <-] (x & Hx & _)%list_elem_of_fmap. done.
  - assert (Hst : ri_URL <$> st ≡ₚ makers).
    { apply looked_up_urls in Hl. rewrite Hl, maybeConfusion_perm. unfold sortstate. by rewrite SliceStable_perm. }
    by rewrite (merged_written _ _ Hread Hst).
Qed.

(** C30: when only this package writes the file, however lookups follow each other or overlap, a lookup
    never panics, and what it leaves has each of the nine resolvers exactly once.  Its
    answer comes from one of them, which the proxy can carry, and has no bogons; it fails, unless the
    context is done, only if every resolver that the proxy can carry failed or gave a bogon. *)
Theorem resolver_never_gives_up ErrNoSuchKey content env r hostname
    (Hcodec : ∀ ri data, codec_Encode ri = Val data → codec_Decode data = Val (Some <$> ri))
    (Hc : store_reachable ErrNoSuchKey content) (Hr : res_ok r) :
  ∃ r' state' written answer,
    run_LookupHost env r (kv_of ErrNoSuchKey content) hostname = Ok (r', state', written, answer) ∧
    ri_URL <$> state' ≡ₚ makers ∧
    let asked url := le_LookupHost env (child_for (ProxyURL r) url) hostname in
    let carried url := ProxyURL r = None ∨ proxied url = true in
    match answer with
    | Val addrs =>
        Forall (λ addr, IsBogon addr = false) addrs ∧ ∃ url, url ∈ makers ∧ carried url ∧ asked url = Val addrs
    | Err _ =>
        (∀ n, le_ctx_Err env n = None) → ∀ url, url ∈ makers → carried url →
        ∀ addrs, asked url = Val addrs → Exists (λ addr, IsBogon addr = true) addrs
    end.
Proof.
  destruct (store_reachable_start _ _ Hcodec Hc) as [Hf Hm].
  destruct (LookupHost_state env r _ hostname Hr Hf) as (r' & st & an & -> & Hr' & _ & Hl).
  eexists r', st, _, an. split; [done|].
  assert (Hst : maybeConfusion (le_draw env) (sortstate (merged (kv_of ErrNoSuchKey content)))
                  ≡ₚ merged (kv_of ErrNoSuchKey content)).
  { rewrite maybeConfusion_perm. unfold sortstate. by rewrite SliceStable_perm. }
  split; [by rewrite (looked_up_urls _ _ _ _ _ _ _ _ Hl), Hst|].
  intros asked carried. destruct Hl as (tried & rest & Hsplit & Hall & Han). rewrite Hsplit in Hst.
  assert (Hcarried : ∀ e, may_ask (ProxyURL r) e = true ↔ carried (ri_URL e)).
  { intros e. unfold may_ask, carried. clear. destruct (ProxyURL r); cbn; [split; [by right|by intros [|]]|]. split; [by left|done]. }
  destruct an as [addrs|err].
  - destruct Han as (e & rest' & -> & Hv & _). unfold visit in Hv.
    destruct (may_ask (ProxyURL r) e) eqn:Hma; [|done]. cbn [negb] in Hv.
    destruct (le_ctx_Err env _); [done|]. unfold ask in Hv. fold (asked (ri_URL e)) in Hv.
    destruct (asked (ri_URL e)) as [addrs'|] eqn:Ea; [|done].
    destruct (existsb IsBogon addrs') eqn:Eb; [done|]. injection Hv as ->. split; [by apply existsb_false|].
    exists (ri_URL e). split_and!; [|by apply Hcarried|done].
    rewrite <-Hm, <-Hst, fmap_app, fmap_cons. apply elem_of_app. right. left.
  - destruct Han as (-> & _ & _). rewrite app_nil_r in Hst. intros Hctx url Hurl Hcar addrs Ea.
    rewrite <-Hm, <-Hst in Hurl. apply list_elem_of_fmap in Hurl as (e & -> & He).
    apply list_elem_of_lookup in He as [i He]. specialize (Hall i e He).
    unfold visit in Hall. rewrite (proj2 (Hcarried e) Hcar), Hctx in Hall. cbn [negb] in Hall.
    unfold ask in Hall. fold (asked (ri_URL e)) in Hall. rewrite Ea in Hall.
    destruct (existsb IsBogon addrs) eqn:Eb; [by apply existsb_true|]. by destruct (Hall addrs).
Qed.
End lookup.

(** ** Examples

    Only the system resolver works. *)

Definition sample_child (c : child) (hostname : string) : result error (list string) :=
  match c with ChildSystem => Val ["93.184.216.34"] | ChildHTTPS _ _ _ => Err ErrLookupHost end.
Definition sample_env : lookup_env := mkLookupEnv (tenths 7) (λ _, None) sample_child.
Definition sample_resolver : Resolver := mkResolver None None false.
Definition sample_kv : option (string → result error (list resolverinfo)) := kv_of ErrNilKVStore None.
Definition sample_lookup : outcome (Resolver * list resolverinfo * option (list resolverinfo) * result Union (list string)) :=
  LookupHost (H := go_insertion_sort) (λ _, tenths 4) (λ l, Val (Some <$> l)) Val (λ _, ErrLookupHost) sample_env
    sample_resolver sample_kv "example.com".

Lemma sample_resolver_ok : res_ok sample_resolver.
Proof. intros url c. cbn. by rewrite lookup_empty. Qed.

Lemma LookupHost_spec_witness :
  ∃ r state' answer, sample_lookup = Ok (r, state', Some state', answer) ∧
    looked_up sample_env "example.com" None 0
      (sortstate (H := go_insertion_sort) (allmakers (λ _, tenths 4))) (multierror_New ErrLookupHost) state' answer.
Proof.
  destruct (@LookupHost_spec go_insertion_sort (λ _, tenths 4) _ (λ l, Val (Some <$> l)) Val (λ _, ErrLookupHost)
    sample_env sample_resolver sample_kv "example.com" sample_resolver_ok) as (_ & _ & _ & r & st & an & Heq & _ & Hl).
  - by intros ri.
  - exists r, st, an. unfold sample_lookup. rewrite Heq. split; [reflexivity|exact Hl].
Defined.

Lemma resolver_never_gives_up_witness :
  ∃ r state' written answer, sample_lookup = Ok (r, state', written, answer) ∧ ri_URL <$> state' ≡ₚ makers.
Proof.
  destruct (@resolver_never_gives_up go_insertion_sort (λ _, tenths 4) _ (λ l, Val (Some <$> l)) Val (λ _, ErrLookupHost)
    ErrNilKVStore None sample_env sample_resolver "example.com") as (r & st & w & an & Heq & Hst & _).
  - by intros ri data [= ->].
  - constructor.
  - exact sample_resolver_ok.
  - exists r, st, w, an. unfold sample_lookup, sample_kv. rewrite Heq. by split.
Defined.

Example sample_lookup_answer :
  match sample_lookup with
  | Ok (_, state', _, Val addrs) => (addrs, ri_URL <$> take 1 state') = (["93.184.216.34"], [systemResolverURL])
  | _ => False
  end.
Proof. vm_compute. reflexivity. Qed.

(** A null entry in the file panics: the entries are pointers, and the loop over them does not check.  The
    store is a file that the user can edit, and the statistics of the dialer are guarded against this. *)
Theorem null_entry_panics `{StableSort} rng env r hostname :
  LookupHost rng (λ _ : unit, Val [None]) (λ _, Val tt) (λ _, ErrLookupHost) env r (Some (λ _, Val tt)) hostname =
  Panic "nil pointer dereference".
Proof. reflexivity. Qed.

(** The comparison holds of equal scores, so that the sort is not stable: entries with the same score
    trade places whenever the file is read. *)
Theorem equal_scores_reversed `{StableSort} url1 url2 :
  let a := mkInfo url1 (tenths 5) in
  let b := mkInfo url2 (tenths 5) in
  sortstate [a; b] = [b; a] ∧ sortstate [b; a] = [a; b].
Proof.
  intros a b. unfold sortstate. rewrite !SliceStable_short by (cbn; lia).
  assert (Hless : ∀ u v, state_less (mkInfo u (tenths 5)) (mkInfo v (tenths 5)) = true) by (intros; by vm_compute).
  unfold insertion_sort. cbn [foldl insert_left]. unfold a, b. by rewrite !Hless.
Qed.
