(* ===== verification/TestHelper.v ===== *)
(** * The test helper

    [pkg/oohelperd]: the server that measures a website for the probe from an
    uncensored network.  It looks up the host, measures the addresses that it or the
    probe found, fetches the page, and answers in the words of the old test helper.  What the
    network does is an argument; the goroutines write to channels whose order is one. *)
From S2P Require Import Prelude Failures GoSort GoString GoNet GoURL Archival Bogon WebTitle.
From S2P Require Import PipeSet Observation.
From S2P Require Import LteTestKeys LtePriority LteFlow GoRegexp Scrubber NetErrors.
From S2P Require Import Overlapped LteControl.
From Stdlib Require Import Ascii.

(** ** Failures of the old test helper *)

Definition dnsMapFailure (failure : option string) : option string :=
  match failure with
  | None => None
  | Some failure =>
      if bool_decide (failure = FailureDNSNXDOMAINError) then Some THDNSNameError
      else if bool_decide (failure = FailureDNSNoAnswer) then None
      else if bool_decide (failure ∈ [FailureDNSNonRecoverableFailure; FailureDNSRefusedError;
                                      FailureDNSServerMisbehaving; FailureDNSTemporaryFailure])
      then Some "dns_server_failure"
      else Some "unknown_error"
  end.

Definition tcpMapFailure (failure : option string) : option string :=
  match failure with
  | None => None
  | Some failure =>
      if bool_decide (failure = FailureGenericTimeoutError) then Some failure
      else if bool_decide (failure = FailureConnectionRefused) then Some "connection_refused_error"
      else Some "connect_error"
  end.

Definition httpMapFailure (err : option error) : outcome (option string) :=
  failure ← tracex_NewFailure err;
  let failedOperation := NewFailedOperation err in
  Ok match failure with
     | None => None
     | Some failure =>
         if bool_decide (failure ∈ [FailureDNSNXDOMAINError; FailureDNSNoAnswer; FailureDNSNonRecoverableFailure;
                                    FailureDNSRefusedError; FailureDNSServerMisbehaving; FailureDNSTemporaryFailure])
         then Some "dns_lookup_error"
         else if bool_decide (failure = FailureGenericTimeoutError) then
           if bool_decide (failedOperation = Some ResolveOperation) then Some "dns_lookup_error" else Some failure
         else if bool_decide (failure = FailureConnectionRefused) then Some "connection_refused_error"
         else Some "unknown_error"
     end.

(** ** [ipinfo.go] *)

(** [m[addr] |= flag] *)
Definition or_flag (m : gmap string Z) (addr : string) (flag : Z) : gmap string Z :=
  <[addr := Z.lor (default 0 (m !! addr)) flag]> m.

Definition discover_endpoint (discoveredby : gmap string Z) (epnt : string) : gmap string Z :=
  match SplitHostPort epnt with
  | Err _ => discoveredby
  | Val (addr, _) =>
      if IsNone (ParseIP addr) then discoveredby else or_flag discoveredby addr THIPInfoFlagResolvedByProbe
  end.

Definition discover_addr (discoveredby : gmap string Z) (addr : string) : gmap string Z :=
  if negb (IsNone (ParseIP addr)) then or_flag discoveredby addr THIPInfoFlagResolvedByTH else discoveredby.

Section ipinfo.
Context `{RangeOrder}.

(** [LookupASN]: the AS number, zero on failure. *)
Definition newIPInfo (LookupASN : string → Z) (creq : THRequest) (addrs : list string) : gmap string (option THIPInfo) :=
  let discoveredby := foldl discover_endpoint ∅ (thr_TCPConnect creq) in
  let discoveredby := foldl discover_addr discoveredby addrs in
  foldl (λ ipinfo '(addr, flags),
    let flags := if IsBogon addr then Z.lor flags THIPInfoFlagIsBogon else flags in
    <[addr := Some {| thip_ASN := LookupASN addr; thip_Flags := flags |}]> ipinfo)
    ∅ (range_map 26 discoveredby).

Record endpointInfo := mkEndpointInfo { Addr : string; Epnt : string; TLS : bool }.

(** The ports to measure. *)
Definition th_ports (URL : URL) : list string :=
  let port := Port URL in
  if negb (bool_decide (port = "")) then [port]
  else if bool_decide (Scheme URL = "https") then ["443"]
  else if bool_decide (Scheme URL = "http") then ["80"; "443"]
  else [].

(** A turn of the loop over the addresses. *)
Definition endpoints_turn (ports : list string) (out : list endpointInfo) (entry : string * option THIPInfo) :
    outcome (list endpointInfo) :=
  let '(addr, info) := entry in
  match info with
  | None => Panic "nil pointer dereference"
  | Some info =>
      if negb (Z.land (thip_Flags info) THIPInfoFlagIsBogon =? 0) then Ok out
      else Ok (foldl (λ out port, out ++ [mkEndpointInfo addr (JoinHostPort addr port) (bool_decide (port = "443"))]) out ports)
  end.

Definition epnt_less (i j : endpointInfo) : bool := String.ltb (Epnt i) (Epnt j).

Definition ipInfoToEndpoints `{StableSort} (URL : URL) (ipinfo : gmap string (option THIPInfo)) :
    outcome (list endpointInfo) :=
  out ← foldM (endpoints_turn (th_ports URL)) [] (range_map 27 ipinfo);
  Ok (SliceStable epnt_less out).
End ipinfo.

(** ** [dns.go], [tcptls.go], [quic.go]: measurements of the network *)

(** What the network does: lookups, connects by endpoint, TLS and QUIC handshakes by endpoint
    and server name. *)
Record th_network := mkNetwork {
  tn_LookupHost : string → result error (list string);
  tn_Dial : string → option error;
  tn_Handshake : string → string → option error;
  tn_QUIC : string → string → option error;
}.

Section measurements.
Context (net : th_network).

Definition dnsDo (Domain : string) : outcome THDNSResult :=
  let '(addrs, err) := match tn_LookupHost net Domain with Val addrs => (addrs, None) | Err err => ([], Some err) end in
  failure ← tracex_NewFailure err;
  Ok {| thdns_Failure := dnsMapFailure failure; thdns_Addrs := addrs; thdns_ASNs := [] |}.

Record tcpResultPair := mkPair {
  tp_Address : string;
  tp_Endpoint : string;
  tp_TCP : THTCPConnectResult;
  tp_TLS : option THTLSHandshakeResult;
}.

Definition tcpTLSDo (endpoint : endpointInfo) (URLHostname : string) : outcome tcpResultPair :=
  let err := tn_Dial net (Epnt endpoint) in
  failure ← tracex_NewFailure err;
  let tcp := {| thtcp_Status := IsNone err; thtcp_Failure := tcpMapFailure failure |} in
  if negb (IsNone err) || negb (TLS endpoint) then Ok (mkPair (Addr endpoint) (Epnt endpoint) tcp None)
  else
    let err := tn_Handshake net (Epnt endpoint) URLHostname in
    failure ← tracex_NewFailure err;
    Ok (mkPair (Addr endpoint) (Epnt endpoint) tcp
      (Some {| thtls_ServerName := URLHostname; thtls_Status := IsNone err; thtls_Failure := failure |})).

Definition quicDo (endpoint : endpointInfo) (URLHostname : string) : outcome (string * THTLSHandshakeResult) :=
  let err := tn_QUIC net (Epnt endpoint) URLHostname in
  failure ← tracex_NewFailure err;
  Ok (Epnt endpoint, {| thtls_ServerName := URLHostname; thtls_Status := IsNone err; thtls_Failure := failure |}).
End measurements.

(** ** [http.go] *)

(** [strings.Cut(s, sep)], the second part. *)
Fixpoint cut_after (sep s : string) : string :=
  if HasPrefix s sep then string_drop (String.length sep) s
  else match s with "" => "" | String _ s => cut_after sep s end.

Definition TrimSuffix (s suffix : string) : string :=
  if HasSuffix s suffix then string_take (String.length s - String.length suffix) s else s.

Definition quote : string := String (ascii_of_N 34) "".

(** A loop body of [parseAltSvc]. *)
Definition alt_authority (entry : string) : option string :=
  match Split entry ";" with
  | [] => None
  | part :: _ =>
      let alt_authority := cut_after "h3=" part in
      if bool_decide (alt_authority = "") then None
      else Some (TrimSuffix (TrimPrefix alt_authority quote) quote)
  end.

Definition parseAltSvc (altsvc : string) : string :=
  default "" (head (omap alt_authority (Split altsvc ","))).

(** The responses of a redirect chain, from the last one back to the first. *)
Definition getFirstResponseInRedirectChain {A} (resp : A) (previous : list A) : option A :=
  if (length previous <? 11)%nat then Some (List.last previous resp) else None.

Definition discoverH3Endpoint (AltSvc : string) (previous : list string) (URL_Host : string) : string :=
  match getFirstResponseInRedirectChain AltSvc previous with
  | None => ""
  | Some firstResp =>
      let h3Endpoint := parseAltSvc firstResp in
      if bool_decide (h3Endpoint = "") then ""
      else
        match SplitHostPort h3Endpoint with
        | Err _ => ""
        | Val (host, port) => JoinHostPort (if bool_decide (host = "") then URL_Host else host) port
        end
  end.

(** A response: its status, its headers, the [Alt-Svc] headers of the responses it was redirected from,
    its body and whether the context is done while it is read. *)
Record page := mkPage {
  pg_StatusCode : Z;
  pg_Header : gmap string (list string);
  pg_previous : list string;
  pg_Body : reader;
  pg_ctx_Err : option error;
}.

(** [Header.Get] of a canonical key. *)
Definition Header_Get (h : gmap string (list string)) (k : string) : string := default "" (head (default [] (h !! k))).

(** The canonical form of a header that is sent to the website. *)
Definition forwarded `{UnicodeTables} (k : string) : option string :=
  let lower := ToLower k in
  if bool_decide (lower = "user-agent") then Some "User-Agent"
  else if bool_decide (lower = "accept") then Some "Accept"
  else if bool_decide (lower = "accept-language") then Some "Accept-Language"
  else None.

Definition add_headers `{UnicodeTables} (h : gmap string (list string)) (entry : string * list string) : gmap string (list string) :=
  match forwarded entry.1 with
  | Some k => foldl (λ h v, <[k := default [] (h !! k) ++ [v]]> h) h entry.2
  | None => h
  end.

(** The part of the host of the URL that the request keeps. *)
Definition removeEmptyPort (host : string) : string :=
  let colon := match LastIndexByte host ":" with Some i => Z.of_nat i | None => -1 end in
  let bracket := match LastIndexByte host "]" with Some i => Z.of_nat i | None => -1 end in
  if bracket <? colon then TrimSuffix host ":" else host.

Section http.
Context `{RangeOrder} `{UnicodeTables}.
(** [clnt.Do] of a client, by URL and headers, and the error of [url.Parse]. *)
Context (Do : string → gmap string (list string) → result error page) (parse_error : string → error).

(** The two messages for a failure. *)
Definition http_failed (err : error) : outcome THHTTPRequestResult :=
  failure ← httpMapFailure (Some err);
  Ok {| thhttp_BodyLength := -1; thhttp_DiscoveredH3Endpoint := ""; thhttp_Failure := failure;
        thhttp_Title := ""; thhttp_Headers := ∅; thhttp_StatusCode := -1 |}.

Definition httpDo (Headers : gmap string (list string)) (MaxAcceptableBody : Z) (URLString : string) (searchForH3 : bool) :
    outcome THHTTPRequestResult :=
  match url_Parse URLString with
  | None => http_failed (parse_error URLString)
  | Some u =>
      let header := foldl add_headers ∅ (range_map 28 Headers) in
      match Do URLString header with
      | Err err => http_failed err
      | Val resp =>
          let headers := foldl (λ headers '(k, _), <[k := Header_Get (pg_Header resp) k]> headers) ∅ (range_map 29 (pg_Header resp)) in
          read ← ReadAllContext (pg_ctx_Err resp) (pg_Body resp) MaxAcceptableBody;
          let '(data, err) := match read with Val data => (data, None) | Err err => ("", Some err) end in
          let h3Endpoint := if searchForH3
            then discoverH3Endpoint (Header_Get (pg_Header resp) "Alt-Svc") (pg_previous resp) (removeEmptyPort (Host u)) else "" in
          failure ← httpMapFailure err;
          Ok {| thhttp_BodyLength := Z.of_nat (String.length data); thhttp_DiscoveredH3Endpoint := h3Endpoint;
                thhttp_Failure := failure; thhttp_Title := WebGetTitle data; thhttp_Headers := headers;
                thhttp_StatusCode := pg_StatusCode resp |}
      end
  end.
End http.

(** ** [measure.go] *)

(** What the loop reads from the two channels. *)
Inductive th_message :=
  | MsgTCP (tcpconn : tcpResultPair)
  | MsgQUIC (Endpoint : string) (quicconn : THTLSHandshakeResult).

(** [info.Flags |= flag] through the pointer that the map holds, unless it is nil. *)
Definition or_info (addr : string) (flag : Z) (ipinfo : gmap string (option THIPInfo)) : gmap string (option THIPInfo) :=
  alter (fmap (λ info, {| thip_ASN := thip_ASN info; thip_Flags := Z.lor (thip_Flags info) flag |})) addr ipinfo.

Definition set_tcp (endpoint : string) (r : THTCPConnectResult) (cresp : THResponse) : THResponse := {|
  th_TCPConnect := <[endpoint := r]> (th_TCPConnect cresp); th_TLSHandshake := th_TLSHandshake cresp;
  th_QUICHandshake := th_QUICHandshake cresp; th_HTTPRequest := th_HTTPRequest cresp;
  th_HTTP3Request := th_HTTP3Request cresp; th_DNS := th_DNS cresp; th_IPInfo := th_IPInfo cresp |}.

Definition set_tls (addr endpoint : string) (r : THTLSHandshakeResult) (cresp : THResponse) : THResponse := {|
  th_TCPConnect := th_TCPConnect cresp; th_TLSHandshake := <[endpoint := r]> (th_TLSHandshake cresp);
  th_QUICHandshake := th_QUICHandshake cresp; th_HTTPRequest := th_HTTPRequest cresp;
  th_HTTP3Request := th_HTTP3Request cresp; th_DNS := th_DNS cresp;
  th_IPInfo := if IsNone (thtls_Failure r) then or_info addr THIPInfoFlagValidForDomain (th_IPInfo cresp) else th_IPInfo cresp |}.

Definition set_quic (endpoint : string) (r : THTLSHandshakeResult) (cresp : THResponse) : THResponse := {|
  th_TCPConnect := th_TCPConnect cresp; th_TLSHandshake := th_TLSHandshake cresp;
  th_QUICHandshake := <[endpoint := r]> (th_QUICHandshake cresp); th_HTTPRequest := th_HTTPRequest cresp;
  th_HTTP3Request := th_HTTP3Request cresp; th_DNS := th_DNS cresp; th_IPInfo := th_IPInfo cresp |}.

(** A turn of the loop. *)
Definition read_message (cresp : THResponse) (msg : th_message) : THResponse :=
  match msg with
  | MsgTCP tcpconn =>
      let cresp := set_tcp (tp_Endpoint tcpconn) (tp_TCP tcpconn) cresp in
      match tp_TLS tcpconn with
      | Some tls => set_tls (tp_Address tcpconn) (tp_Endpoint tcpconn) tls cresp
      | None => cresp
      end
  | MsgQUIC endpoint quicconn => set_quic endpoint quicconn cresp
  end.

Definition no_THDNSResult : THDNSResult := {| thdns_Failure := None; thdns_Addrs := []; thdns_ASNs := [] |}.

Section measure.
Context `{RangeOrder} `{StableSort} `{UnicodeTables}.
Context (LookupASN : string → Z) (net : th_network) (parse_error : string → error).
(** The clients of [newHTTPClient] and [newHTTP3Client]. *)
Context (Do DoHTTP3 : string → gmap string (list string) → result error page).
(** The order in which the loop finds the messages. *)
Context (arrival : list th_message → list th_message).

(** The fields of the [Handler] that matter here. *)
Record Handler := mkHandler { EnableQUIC : bool; maxAcceptableBody : Z }.

Definition measure (config : Handler) (creq : THRequest) : outcome (result error THResponse) :=
  match url_Parse (thr_HTTPRequest creq) with
  | None => Ok (Err (parse_error (thr_HTTPRequest creq)))
  | Some URL =>
      dns ← (if IsNone (ParseIP (Hostname URL)) then dnsDo net (Hostname URL) else Ok no_THDNSResult);
      let ipinfo := newIPInfo LookupASN creq (thdns_Addrs dns) in
      endpoints ← ipInfoToEndpoints URL ipinfo;
      tcpconn ← mapM (λ endpoint, tcpTLSDo net endpoint (Hostname URL)) endpoints;
      http ← httpDo Do parse_error (thr_HTTPRequestHeaders creq) (maxAcceptableBody config) (thr_HTTPRequest creq) true;
      let h3 := EnableQUIC config && thr_XQUICEnabled creq && negb (bool_decide (thhttp_DiscoveredH3Endpoint http = "")) in
      quicconn ← (if h3 then mapM (λ endpoint, quicDo net endpoint (Hostname URL)) endpoints else Ok []);
      http3 ← (if h3 then
          Some <$> httpDo DoHTTP3 parse_error (thr_HTTPRequestHeaders creq) (maxAcceptableBody config)
            ("https://" +:+ thhttp_DiscoveredH3Endpoint http) false
        else Ok None);
      let cresp := {| th_TCPConnect := ∅; th_TLSHandshake := ∅; th_QUICHandshake := ∅; th_HTTPRequest := http;
                      th_HTTP3Request := http3; th_DNS := dns; th_IPInfo := ipinfo |} in
      Ok (Val (foldl read_message cresp
        (arrival ((MsgTCP <$> tcpconn) ++ ((λ '(endpoint, q), MsgQUIC endpoint q) <$> quicconn)))))
  end.

(** ** [handler.go] *)

Definition maxAcceptableBodySize : Z := Z.shiftl 1 24.

Definition handlerShouldThrottleClient (inflight : Z) (userAgent : string) : bool :=
  if inflight <? 25 then false
  else if (inflight <? 50) && HasPrefix userAgent "ooniprobe-" then false
  else true.

(** A request of a client: its body, how reading it ends, and what [json.Unmarshal] makes of it. *)
Record client_request := mkClientRequest {
  cr_Method : string;
  cr_UserAgent : string;
  cr_Body : reader;
  cr_ctx_Err : option error;
}.

(** The status and, for a measurement, the response; [countRequests] requests are in flight. *)
Definition ServeHTTP (json_Unmarshal : string → result error THRequest) (h : Handler) (countRequests : Z)
    (req : client_request) : outcome (Z * option THResponse) :=
  if bool_decide (cr_Method req = "GET") then Ok (200, None)
  else if negb (bool_decide (cr_Method req = "POST")) then Ok (400, None)
  else if handlerShouldThrottleClient countRequests (cr_UserAgent req) then Ok (503, None)
  else
    data ← ReadAllContext (cr_ctx_Err req) (cr_Body req) (maxAcceptableBody h);
    match data with
    | Err _ => Ok (400, None)
    | Val data =>
        match json_Unmarshal data with
        | Err _ => Ok (400, None)
        | Val creq =>
            cresp ← measure h creq;
            match cresp with
            | Err _ => Ok (400, None)
            | Val cresp => Ok (200, Some cresp)
            end
        end
    end.
End measure.
