(* ===== verification/TestHelperFacts.v ===== *)
(** * The test helper: what a measurement contains

    Which endpoints are measured, what is answered about them, and that the
    answer covers what the probe asked for. *)
From S2P Require Import Prelude Failures GoSort GoString GoNet GoURL Archival Bogon WebTitle.
From S2P Require Import PipeSet Observation.
From S2P Require Import LteTestKeys LtePriority LteFlow GoRegexp Scrubber NetErrors.
From S2P Require Import Overlapped LteControl TestHelper.
From Stdlib Require Import Ascii.

(** ** Failures never panic *)

Definition th_failure (err : option error) : option string := value_or None (tracex_NewFailure err).

Lemma tracex_NewFailure_ok err : tracex_NewFailure err = Ok (th_failure err) ∧ (th_failure err = None ↔ err = None).
Proof.
  unfold th_failure. destruct err as [err|]; [|done].
  assert (Hf : ∀ f, ∃ s, ToFailure (if bool_decide (f = "") then "unknown_failure: errWrapper.Failure is empty" else f) = Some s).
  { intros f. unfold ToFailure. destruct (bool_decide_reflect (f = "")); [by eexists|]. rewrite bool_decide_eq_false_2 by done. by eexists. }
  assert (∃ s, tracex_NewFailure (Some err) = Ok (Some s)) as [s ->]; [|by split].
  unfold tracex_NewFailure, NewFailureStr, NewTopLevelGenericErrWrapper, NewErrWrapper.
  destruct (errors_As as_ErrWrapper err) as [[[f op] inner]|] eqn:E; cbn [mbind option_bind outcome_bind].
  - destruct (Hf f) as [s Hs]. exists s. cbn [fmap outcome_fmap]. by rewrite Hs.
  - rewrite E. cbn [mbind outcome_bind]. rewrite bool_decide_eq_false_2 by done. cbn [mbind outcome_bind].
    rewrite as_ErrWrapper_self. destruct (Hf (ClassifyGenericError err)) as [s Hs]. exists s.
    cbn [fmap outcome_fmap]. by rewrite Hs.
Qed.

Lemma tracex_NewFailure_th err : tracex_NewFailure err = Ok (th_failure err).
Proof. apply tracex_NewFailure_ok. Qed.

Lemma th_failure_nonempty err : th_failure err ≠ Some "".
Proof.
  unfold th_failure, tracex_NewFailure, ToFailure. destruct (NewFailureStr err) as [f|]; cbn; [|done].
  case_bool_decide; cbn; congruence.
Qed.

(** ** The addresses *)

(** [addr] is in an endpoint of the probe, or among the addresses of the lookup. *)
Definition probe_found (creq : THRequest) (addr : string) : bool :=
  existsb (λ epnt, match SplitHostPort epnt with
                   | Val (a, _) => bool_decide (a = addr) && negb (IsNone (ParseIP a))
                   | Err _ => false
                   end) (thr_TCPConnect creq).
Definition th_found (addrs : list string) (addr : string) : bool :=
  existsb (λ a, bool_decide (a = addr) && negb (IsNone (ParseIP a))) addrs.

Definition flag (b : bool) (f : Z) : Z := if b then f else 0.

Lemma flag_lor b c f : Z.lor (flag b f) (flag c f) = flag (b || c) f.
Proof. destruct b, c; cbn [flag orb]; by rewrite ?Z.lor_diag, ?Z.lor_0_l, ?Z.lor_0_r. Qed.

Lemma or_flag_lookup m addr f a :
  or_flag m addr f !! a = if bool_decide (addr = a) then Some (Z.lor (default 0 (m !! a)) f) else m !! a.
Proof.
  unfold or_flag. case_bool_decide as Ha; [subst; by rewrite lookup_insert_eq|by rewrite lookup_insert_ne].
Qed.

(** Both discovery loops. *)
Section discover.
Context {A} (turn : gmap string Z → A → gmap string Z) (key : A → option string) (f : Z).
Context (Hturn : ∀ m x, turn m x = match key x with Some a => or_flag m a f | None => m end).

Lemma discover_lookup l a : ∀ m,
  foldl turn m l !! a =
    if existsb (λ x, bool_decide (key x = Some a)) l then Some (Z.lor (default 0 (m !! a)) f) else m !! a.
Proof.
  induction l as [|x l IH]; intros m; [done|]. cbn [foldl existsb]. rewrite IH, Hturn.
  destruct (key x) as [b|]; cbn; [|by destruct (existsb _ l)].
  rewrite or_flag_lookup. rewrite (bool_decide_ext (Some b = Some a) (b = a)) by naive_solver.
  case_bool_decide; cbn [orb default from_option id]; [|done].
  destruct (existsb _ l); [|done]. by rewrite <-Z.lor_assoc, Z.lor_diag.
Qed.
End discover.

Definition ip_flags (creq : THRequest) (addrs : list string) (addr : string) : Z :=
  Z.lor (Z.lor (flag (probe_found creq addr) THIPInfoFlagResolvedByProbe) (flag (th_found addrs addr) THIPInfoFlagResolvedByTH))
    (flag (IsBogon addr) THIPInfoFlagIsBogon).

Definition known_address (creq : THRequest) (addrs : list string) (addr : string) : bool :=
  probe_found creq addr || th_found addrs addr.

(** The value of [discoveredby] for an address. *)
Lemma discovered_lookup creq addrs addr :
  foldl discover_addr (foldl discover_endpoint ∅ (thr_TCPConnect creq)) addrs !! addr =
    if known_address creq addrs addr
    then Some (Z.lor (flag (probe_found creq addr) THIPInfoFlagResolvedByProbe) (flag (th_found addrs addr) THIPInfoFlagResolvedByTH))
    else None.
Proof.
  rewrite (discover_lookup discover_addr (λ a, if negb (IsNone (ParseIP a)) then Some a else None) THIPInfoFlagResolvedByTH)
    by (intros m a; unfold discover_addr; by destruct (ParseIP a)).
  rewrite (discover_lookup discover_endpoint (λ e, match SplitHostPort e with
      | Val (a, _) => if IsNone (ParseIP a) then None else Some a | Err _ => None end) THIPInfoFlagResolvedByProbe)
    by (intros m e; unfold discover_endpoint; destruct (SplitHostPort e) as [[a p]|]; [by destruct (ParseIP a)|done]).
  rewrite lookup_empty. unfold known_address, probe_found, th_found.
  rewrite (existsb_ext (λ x, bool_decide ((if negb (IsNone (ParseIP x)) then Some x else None) = Some addr))
    (λ a, bool_decide (a = addr) && negb (IsNone (ParseIP a)))).
  2: { intros a. destruct (ParseIP a); cbn [IsNone negb]; rewrite ?andb_true_r, ?andb_false_r; [|done]. apply bool_decide_ext. naive_solver. }
  rewrite (existsb_ext (λ x, bool_decide (match SplitHostPort x with
      | Val (a, _) => if IsNone (ParseIP a) then None else Some a | Err _ => None end = Some addr)) (λ epnt, match SplitHostPort epnt with
      | Val (a, _) => bool_decide (a = addr) && negb (IsNone (ParseIP a)) | Err _ => false end)).
  2: { intros e. destruct (SplitHostPort e) as [[a p]|]; [|done].
       destruct (ParseIP a); cbn [IsNone negb]; rewrite ?andb_true_r, ?andb_false_r; [|done]. apply bool_decide_ext. naive_solver. }
  by destruct (existsb _ (thr_TCPConnect creq)), (existsb _ addrs).
Qed.

Lemma newIPInfo_lookup `{RangeOrder} LookupASN creq addrs addr :
  newIPInfo LookupASN creq addrs !! addr =
    if known_address creq addrs addr
    then Some (Some {| thip_ASN := LookupASN addr; thip_Flags := ip_flags creq addrs addr |}) else None.
Proof.
  unfold newIPInfo. rewrite (foldl_insert_key 26 (λ a flags, Some {| thip_ASN := LookupASN a;
    thip_Flags := if IsBogon a then Z.lor flags THIPInfoFlagIsBogon else flags |})).
  rewrite discovered_lookup. destruct (known_address creq addrs addr); [|done]. cbn [fmap option_fmap option_map].
  do 4 f_equal. unfold ip_flags. destruct (IsBogon addr); [done|]. by rewrite Z.lor_0_r.
Qed.

(** ** The endpoints *)

(** The bogon flag of the information is the fourth bit. *)
Lemma ip_flags_bogon creq addrs addr : (Z.land (ip_flags creq addrs addr) THIPInfoFlagIsBogon =? 0) = negb (IsBogon addr).
Proof. unfold ip_flags. by destruct (probe_found creq addr), (th_found addrs addr), (IsBogon addr). Qed.

Definition endpoints_of (ports : list string) (addr : string) : list endpointInfo :=
  (λ port, mkEndpointInfo addr (JoinHostPort addr port) (bool_decide (port = "443"))) <$> ports.

Lemma ipInfoToEndpoints_spec `{RangeOrder} `{StableSort} LookupASN creq addrs URL :
  ∃ endpoints, ipInfoToEndpoints URL (newIPInfo LookupASN creq addrs) = Ok endpoints ∧
    ∀ ep, ep ∈ endpoints ↔ ∃ addr port, known_address creq addrs addr = true ∧ IsBogon addr = false ∧ port ∈ th_ports URL ∧
      ep = mkEndpointInfo addr (JoinHostPort addr port) (bool_decide (port = "443")).
Proof.
  unfold ipInfoToEndpoints. set (l := range_map 27 (newIPInfo LookupASN creq addrs)).
  assert (Hl : ∀ addr info, (addr, info) ∈ l ↔ known_address creq addrs addr = true ∧
    info = Some {| thip_ASN := LookupASN addr; thip_Flags := ip_flags creq addrs addr |}).
  { intros addr info. unfold l. rewrite range_map_elem, newIPInfo_lookup.
    destruct (known_address creq addrs addr); naive_solver. }
  set (turn := λ (out : list endpointInfo) '((addr, _) : string * option THIPInfo),
    out ++ if IsBogon addr then [] else endpoints_of (th_ports URL) addr).
  rewrite (foldM_pure _ turn).
  2: { intros out [addr info] [_ ->]%Hl. cbn [endpoints_turn thip_Flags]. rewrite ip_flags_bogon, negb_involutive.
       unfold turn. destruct (IsBogon addr); [by rewrite app_nil_r|]. by rewrite foldl_append. }
  cbn [mbind outcome_bind]. eexists. split; [done|]. intros ep. rewrite SliceStable_perm.
  assert (Hturn : ∀ l out, ep ∈ foldl turn out l ↔
    ep ∈ out ∨ ∃ addr info, (addr, info) ∈ l ∧ IsBogon addr = false ∧ ep ∈ endpoints_of (th_ports URL) addr).
  { clear. intros l. induction l as [|[addr info] l IH]; intros out; cbn [foldl]; [set_solver|].
    rewrite IH. unfold turn at 1. destruct (IsBogon addr) eqn:E; [rewrite app_nil_r|rewrite elem_of_app];
      setoid_rewrite elem_of_cons; naive_solver congruence. }
  rewrite Hturn. unfold endpoints_of. setoid_rewrite list_elem_of_fmap. setoid_rewrite Hl. split.
  - intros [?%not_elem_of_nil|(addr & info & [Hk ->] & Hb & port & -> & Hp)]; [done|]. by exists addr, port.
  - intros (addr & port & Hk & Hb & Hp & ->). right. eexists addr, _. split_and!; [done..|]. by exists port.
Qed.

(** ** The messages *)

Section messages.
Context (net : th_network) (host : string).

Definition tcp_result (endpoint : string) : THTCPConnectResult :=
  {| thtcp_Status := IsNone (tn_Dial net endpoint); thtcp_Failure := tcpMapFailure (th_failure (tn_Dial net endpoint)) |}.

Definition tls_result (endpoint : string) : THTLSHandshakeResult :=
  {| thtls_ServerName := host; thtls_Status := IsNone (tn_Handshake net endpoint host);
     thtls_Failure := th_failure (tn_Handshake net endpoint host) |}.

Definition tcp_pair (ep : endpointInfo) : tcpResultPair :=
  mkPair (Addr ep) (Epnt ep) (tcp_result (Epnt ep))
    (if IsNone (tn_Dial net (Epnt ep)) && TLS ep then Some (tls_result (Epnt ep)) else None).

Lemma tcpTLSDo_ok ep : tcpTLSDo net ep host = Ok (tcp_pair ep).
Proof.
  unfold tcpTLSDo, tcp_pair, tcp_result, tls_result. rewrite !tracex_NewFailure_th. cbn [mbind outcome_bind].
  by destruct (tn_Dial net (Epnt ep)), (TLS ep).
Qed.

Lemma quicDo_ok ep : ∃ r, quicDo net ep host = Ok (Epnt ep, r).
Proof. unfold quicDo. rewrite tracex_NewFailure_th. by eexists. Qed.

(** A message of one of the endpoints. *)
Definition tcp_message (endpoints : list endpointInfo) (msg : th_message) : Prop :=
  match msg with MsgTCP p => ∃ ep, ep ∈ endpoints ∧ p = tcp_pair ep | MsgQUIC _ _ => True end.

Lemma tcp_messages_ok endpoints (quic : list (string * THTLSHandshakeResult)) :
  Forall (tcp_message endpoints) ((MsgTCP <$> (tcp_pair <$> endpoints)) ++ ((λ '(e, q), MsgQUIC e q) <$> quic)).
Proof.
  apply Forall_app. split; apply Forall_forall; intros m.
  - intros (p & -> & (ep & -> & Hin)%list_elem_of_fmap)%list_elem_of_fmap. by exists ep.
  - by intros ([e q] & -> & _)%list_elem_of_fmap.
Qed.

Definition tcp_at (e : string) (msg : th_message) : bool :=
  match msg with MsgTCP p => bool_decide (tp_Endpoint p = e) | MsgQUIC _ _ => false end.
Definition tls_at (e : string) (msg : th_message) : bool :=
  match msg with MsgTCP p => bool_decide (tp_Endpoint p = e) && negb (IsNone (tp_TLS p)) | MsgQUIC _ _ => false end.
Definition valid_at (a : string) (msg : th_message) : bool :=
  match msg with
  | MsgTCP p => bool_decide (tp_Address p = a) && match tp_TLS p with Some r => IsNone (thtls_Failure r) | None => false end
  | MsgQUIC _ _ => false
  end.

Definition mark_valid (valid : bool) (info : THIPInfo) : THIPInfo :=
  {| thip_ASN := thip_ASN info; thip_Flags := Z.lor (thip_Flags info) (flag valid THIPInfoFlagValidForDomain) |}.

Lemma or_info_lookup addr a m :
  or_info addr THIPInfoFlagValidForDomain m !! a = fmap (mark_valid (bool_decide (addr = a))) <$> m !! a.
Proof.
  unfold or_info. case_bool_decide as Ha.
  - subst. by rewrite lookup_alter_eq.
  - rewrite lookup_alter_ne by done. destruct (m !! a) as [[[asn fl]|]|]; [|done..].
    unfold mark_valid. cbn. by rewrite Z.lor_0_r.
Qed.

Lemma mark_valid_mark b c info : mark_valid b (mark_valid c info) = mark_valid (c || b) info.
Proof. unfold mark_valid. cbn. by rewrite <-Z.lor_assoc, flag_lor. Qed.

Lemma read_message_lookup msg cresp e :
  (∀ p, msg = MsgTCP p → ∃ ep, p = tcp_pair ep) →
  th_TCPConnect (read_message cresp msg) !! e = (if tcp_at e msg then Some (tcp_result e) else th_TCPConnect cresp !! e) ∧
  th_TLSHandshake (read_message cresp msg) !! e = (if tls_at e msg then Some (tls_result e) else th_TLSHandshake cresp !! e) ∧
  th_IPInfo (read_message cresp msg) !! e = fmap (mark_valid (valid_at e msg)) <$> th_IPInfo cresp !! e.
Proof.
  intros Hmsg.
  assert (Hid : ∀ m : gmap string (option THIPInfo), m !! e = fmap (mark_valid false) <$> m !! e).
  { intros m. destruct (m !! e) as [[[asn fl]|]|]; [|done..]. unfold mark_valid. cbn. by rewrite Z.lor_0_r. }
  destruct msg as [p|endpoint q]; [|split_and!; [done..|apply Hid]].
  destruct (Hmsg p eq_refl) as [ep ->]. cbn [read_message tcp_pair tp_Endpoint tp_TCP tp_TLS tp_Address tcp_at tls_at valid_at].
  destruct (_ && TLS ep); cbn [set_tcp set_tls th_TCPConnect th_TLSHandshake th_IPInfo IsNone negb];
    rewrite ?andb_true_r, ?andb_false_r; rewrite ?lookup_insert; split_and!.
  - by repeat case_decide; case_bool_decide; subst.
  - by repeat case_decide; case_bool_decide; subst.
  - destruct (IsNone (thtls_Failure (tls_result (Epnt ep)))); [by rewrite or_info_lookup, andb_true_r|].
    rewrite andb_false_r. apply Hid.
  - by repeat case_decide; case_bool_decide; subst.
  - done.
  - apply Hid.
Qed.

Lemma read_messages_lookup endpoints msgs e : ∀ cresp,
  Forall (tcp_message endpoints) msgs →
  let final := foldl read_message cresp msgs in
  th_TCPConnect final !! e = (if existsb (tcp_at e) msgs then Some (tcp_result e) else th_TCPConnect cresp !! e) ∧
  th_TLSHandshake final !! e = (if existsb (tls_at e) msgs then Some (tls_result e) else th_TLSHandshake cresp !! e) ∧
  th_IPInfo final !! e = fmap (mark_valid (existsb (valid_at e) msgs)) <$> th_IPInfo cresp !! e.
Proof.
  induction msgs as [|msg msgs IH]; intros cresp Hms; cbn [foldl existsb].
  { split_and!; [done..|]. destruct (th_IPInfo cresp !! e) as [[[asn fl]|]|]; [|done..]. unfold mark_valid. cbn. by rewrite Z.lor_0_r. }
  apply Forall_cons in Hms as [Hm Hms]. destruct (IH (read_message cresp msg) Hms) as (-> & -> & ->).
  destruct (read_message_lookup msg cresp e) as (-> & -> & ->).
  { intros p ->. destruct Hm as (ep & _ & ->). by exists ep. }
  split_and!.
  - by destruct (tcp_at e msg), (existsb (tcp_at e) msgs).
  - by destruct (tls_at e msg), (existsb (tls_at e) msgs).
  - destruct (th_IPInfo cresp !! e) as [[info|]|]; [|done..]. cbn. by rewrite mark_valid_mark.
Qed.

(** The other fields. *)
Lemma read_messages_rest msgs cresp :
  th_DNS (foldl read_message cresp msgs) = th_DNS cresp ∧ th_HTTPRequest (foldl read_message cresp msgs) = th_HTTPRequest cresp ∧
  th_HTTP3Request (foldl read_message cresp msgs) = th_HTTP3Request cresp.
Proof.
  apply (foldl_inv _ (λ c, th_DNS c = th_DNS cresp ∧ th_HTTPRequest c = th_HTTPRequest cresp ∧ th_HTTP3Request c = th_HTTP3Request cresp)).
  - done.
  - intros c [p|] _ Hc; [|done]. cbn [read_message]. by destruct (tp_TLS p).
Qed.
End messages.

(** ** The page *)

Lemma httpMapFailure_ok err : ∃ failure, httpMapFailure err = Ok failure.
Proof. unfold httpMapFailure. rewrite tracex_NewFailure_th. cbn [mbind outcome_bind]. by eexists. Qed.

Lemma wrapped_ok err : ∃ e, NewTopLevelGenericErrWrapper (Some err) = Ok e.
Proof.
  unfold NewTopLevelGenericErrWrapper, NewErrWrapper. cbn [mbind option_bind].
  destruct (errors_As as_ErrWrapper err) as [[[f op] inner]|]; [by eexists|]. rewrite bool_decide_eq_false_2 by done. by eexists.
Qed.

Lemma ReadAllContext_ok ctx_Err r limit : ∃ res, ReadAllContext ctx_Err r limit = Ok res.
Proof.
  unfold ReadAllContext. destruct ctx_Err as [err|]; [destruct (wrapped_ok err) as [e ->]; by eexists|].
  destruct (read_limited r limit) as [data [err|]]; [|by eexists]. destruct (errors_Is err io_EOF); [by eexists|].
  destruct (wrapped_ok err) as [e ->]. by eexists.
Qed.

Lemma httpDo_ok `{RangeOrder} `{UnicodeTables} Do parse_error Headers limit URLString search :
  ∃ r, httpDo Do parse_error Headers limit URLString search = Ok r.
Proof.
  unfold httpDo, http_failed. destruct (url_Parse URLString) as [u|].
  2: { destruct (httpMapFailure_ok (Some (parse_error URLString))) as [f ->]. by eexists. }
  destruct (Do _ _) as [resp|err]; [|destruct (httpMapFailure_ok (Some err)) as [f ->]; by eexists].
  destruct (ReadAllContext_ok (pg_ctx_Err resp) (pg_Body resp) limit) as [[data|err] ->]; cbn [mbind outcome_bind].
  - destruct (httpMapFailure_ok None) as [f ->]. by eexists.
  - destruct (httpMapFailure_ok (Some err)) as [f ->]. by eexists.
Qed.

(** ** The response *)

(** The addresses that the test helper looks up. *)
Definition th_dns_addrs (net : th_network) (URL : URL) : list string :=
  if IsNone (ParseIP (Hostname URL))
  then match tn_LookupHost net (Hostname URL) with Val addrs => addrs | Err _ => [] end else [].

Definition th_dns_failure (net : th_network) (URL : URL) : option string :=
  if IsNone (ParseIP (Hostname URL))
  then match tn_LookupHost net (Hostname URL) with Val _ => None | Err err => dnsMapFailure (th_failure (Some err)) end else None.

(** The ports that belong to a URL. *)
Definition wanted_port (URL : URL) (port : string) : Prop :=
  if decide (Port URL = "") then
    (Scheme URL = "https" ∧ port = "443") ∨ (Scheme URL = "http" ∧ (port = "80" ∨ port = "443"))
  else port = Port URL.

#[export] Instance wanted_port_dec URL port : Decision (wanted_port URL port).
Proof. unfold wanted_port. destruct (decide (Port URL = "")); apply _. Defined.

Lemma th_ports_spec URL port : port ∈ th_ports URL ↔ wanted_port URL port.
Proof.
  unfold th_ports, wanted_port.
  destruct (decide (Port URL = "")) as [E|E]; [rewrite bool_decide_eq_true_2 by done|rewrite bool_decide_eq_false_2 by done];
    cbn [negb]; [|by rewrite list_elem_of_singleton].
  case_bool_decide as E1; [rewrite list_elem_of_singleton|case_bool_decide as E2; [rewrite !elem_of_cons, elem_of_nil|rewrite elem_of_nil]].
  - split; [by left|]. intros [[_ ?]|[E2 _]]; congruence.
  - split; [intros [|[|[]]]; right; tauto|]. intros [[? _]|[_ ?]]; [done|tauto].
  - split; [done|]. intros [[? _]|[? _]]; done.
Qed.

(** An address of the lookup or of the probe that is not a bogon. *)
Definition measured (net : th_network) (creq : THRequest) (URL : URL) (addr port : string) : Prop :=
  known_address creq (th_dns_addrs net URL) addr = true ∧ IsBogon addr = false ∧ wanted_port URL port.

(** The address serves the website over TLS. *)
Definition serves_tls (net : th_network) (URL : URL) (addr : string) : Prop :=
  IsBogon addr = false ∧ wanted_port URL "443" ∧ tn_Dial net (JoinHostPort addr "443") = None ∧
  tn_Handshake net (JoinHostPort addr "443") (Hostname URL) = None.

#[export] Instance serves_tls_dec net URL addr : Decision (serves_tls net URL addr).
Proof.
  unfold serves_tls.
  assert (∀ o : option error, Decision (o = None)) by (intros []; [by right|by left]). apply _.
Defined.

Lemma dns_result net URL :
  ∃ dns, (if IsNone (ParseIP (Hostname URL)) then dnsDo net (Hostname URL) else Ok no_THDNSResult) = Ok dns ∧
    thdns_Addrs dns = th_dns_addrs net URL ∧ thdns_Failure dns = th_dns_failure net URL.
Proof.
  unfold th_dns_addrs, th_dns_failure. destruct (IsNone _); [|by eexists]. unfold dnsDo.
  destruct (tn_LookupHost net _) as [addrs|err]; rewrite tracex_NewFailure_th; cbn [mbind outcome_bind]; by eexists.
Qed.

Lemma existsb_messages (net : th_network) host (endpoints : list endpointInfo) (f : th_message → bool) msgs quic :
  msgs ≡ₚ (MsgTCP <$> (tcp_pair net host <$> endpoints)) ++ ((λ '(e, q), MsgQUIC e q) <$> quic) →
  (∀ e q, f (MsgQUIC e q) = false) →
  existsb f msgs = true ↔ ∃ ep, ep ∈ endpoints ∧ f (MsgTCP (tcp_pair net host ep)) = true.
Proof.
  intros Hp Hq. rewrite existsb_true, Hp, Exists_app, !Exists_exists. split.
  - intros [(x & Hx & Hf)|(x & Hx & Hf)].
    + apply list_elem_of_fmap in Hx as (p & -> & (ep & -> & Hep)%list_elem_of_fmap). by exists ep.
    + apply list_elem_of_fmap in Hx as ([e q] & -> & _). by rewrite Hq in Hf.
  - intros (ep & Hep & Hf). left. eexists. split; [|exact Hf]. by do 2 apply list_elem_of_fmap_2.
Qed.

Lemma IsNone_th_failure err : IsNone (th_failure err) = IsNone err.
Proof. destruct (tracex_NewFailure_ok err) as [_ Hf]. destruct (th_failure err), err; cbn; naive_solver. Qed.

Section measure.
Context `{RangeOrder} `{StableSort} `{UnicodeTables}.
Context (LookupASN : string → Z) (net : th_network) (parse_error : string → error).
Context (Do DoHTTP3 : string → gmap string (list string) → result error page).
Context (arrival : list th_message → list th_message).
#[local] Abbreviation run_measure := (measure LookupASN net parse_error Do DoHTTP3 arrival).

(** The messages of the endpoints, and what the response says before they are read. *)
Lemma measure_messages config creq URL (Harrival : ∀ l, arrival l ≡ₚ l) :
  url_Parse (thr_HTTPRequest creq) = Some URL →
  ∃ endpoints msgs quic cresp,
    run_measure config creq = Ok (Val (foldl read_message cresp msgs)) ∧
    msgs ≡ₚ (MsgTCP <$> (tcp_pair net (Hostname URL) <$> endpoints)) ++ ((λ '(e, q), MsgQUIC e q) <$> quic) ∧
    (∀ ep, ep ∈ endpoints ↔ ∃ addr port, measured net creq URL addr port ∧
       ep = mkEndpointInfo addr (JoinHostPort addr port) (bool_decide (port = "443"))) ∧
    th_TCPConnect cresp = ∅ ∧ th_TLSHandshake cresp = ∅ ∧
    th_IPInfo cresp = newIPInfo LookupASN creq (th_dns_addrs net URL) ∧
    thdns_Addrs (th_DNS cresp) = th_dns_addrs net URL ∧ thdns_Failure (th_DNS cresp) = th_dns_failure net URL ∧
    httpDo Do parse_error (thr_HTTPRequestHeaders creq) (maxAcceptableBody config) (thr_HTTPRequest creq) true
      = Ok (th_HTTPRequest cresp).
Proof.
  intros Hurl. unfold TestHelper.measure. rewrite Hurl.
  destruct (dns_result net URL) as (dns & -> & Haddrs & Hfail). cbn [mbind outcome_bind]. rewrite Haddrs.
  destruct (ipInfoToEndpoints_spec LookupASN creq (th_dns_addrs net URL) URL) as (endpoints & -> & Hep). cbn [mbind outcome_bind].
  rewrite (mapM_pure _ (tcp_pair net (Hostname URL))) by (intros; apply tcpTLSDo_ok). cbn [mbind outcome_bind].
  destruct (httpDo_ok Do parse_error (thr_HTTPRequestHeaders creq) (maxAcceptableBody config) (thr_HTTPRequest creq) true) as [http Hhttp].
  rewrite Hhttp. cbn [mbind outcome_bind].
  set (h3 := EnableQUIC config && _ && _).
  assert (∃ quic, (if h3 then mapM (λ endpoint, quicDo net endpoint (Hostname URL)) endpoints else Ok []) = Ok quic) as [quic ->].
  { destruct h3; [|by eexists]. rewrite (mapM_pure _ (λ ep, value_or ("", tls_result net (Hostname URL) "") (quicDo net ep (Hostname URL)))).
    - by eexists.
    - intros ep. by destruct (quicDo_ok net (Hostname URL) ep) as [r ->]. }
  cbn [mbind outcome_bind].
  assert (∃ http3, (if h3 then Some <$> httpDo DoHTTP3 parse_error (thr_HTTPRequestHeaders creq) (maxAcceptableBody config)
    ("https://" +:+ thhttp_DiscoveredH3Endpoint http) false else Ok None) = Ok http3) as [http3 ->].
  { destruct h3; [|by eexists]. destruct (httpDo_ok DoHTTP3 parse_error (thr_HTTPRequestHeaders creq) (maxAcceptableBody config)
      ("https://" +:+ thhttp_DiscoveredH3Endpoint http) false) as [r ->]. by eexists. }
  cbn [mbind outcome_bind]. eexists endpoints, _, quic, _. split; [done|]. split; [apply Harrival|].
  split_and!; [|done..]. intros ep. rewrite Hep. unfold measured. setoid_rewrite th_ports_spec. naive_solver.
Qed.

Lemma measure_total config creq (Harrival : ∀ l, arrival l ≡ₚ l) : ∃ res, run_measure config creq = Ok res.
Proof.
  destruct (url_Parse (thr_HTTPRequest creq)) as [URL|] eqn:Hurl; [|unfold TestHelper.measure; rewrite Hurl; by eexists].
  destruct (measure_messages config creq URL Harrival Hurl) as (endpoints & msgs & quic & cresp & -> & _). by eexists.
Qed.

(** Which messages there are. *)
Section present.
Context (creq : THRequest) (URL : URL) (endpoints : list endpointInfo) (msgs : list th_message)
        (quic : list (string * THTLSHandshakeResult)).
Context (Hp : msgs ≡ₚ (MsgTCP <$> (tcp_pair net (Hostname URL) <$> endpoints)) ++ ((λ '(e, q), MsgQUIC e q) <$> quic)).
Context (Hep : ∀ ep, ep ∈ endpoints ↔ ∃ addr port, measured net creq URL addr port ∧
  ep = mkEndpointInfo addr (JoinHostPort addr port) (bool_decide (port = "443"))).

Lemma tcp_present e :
  existsb (tcp_at e) msgs = true ↔ ∃ addr port, measured net creq URL addr port ∧ e = JoinHostPort addr port.
Proof.
  rewrite (existsb_messages net (Hostname URL) endpoints (tcp_at e) msgs quic Hp) by done.
  setoid_rewrite Hep. cbn. setoid_rewrite bool_decide_eq_true. naive_solver.
Qed.

Lemma tls_present e :
  existsb (tls_at e) msgs = true ↔
    (∃ addr, measured net creq URL addr "443" ∧ e = JoinHostPort addr "443") ∧ tn_Dial net e = None.
Proof.
  rewrite (existsb_messages net (Hostname URL) endpoints (tls_at e) msgs quic Hp) by done.
  setoid_rewrite Hep. cbn. setoid_rewrite andb_true_iff. setoid_rewrite bool_decide_eq_true. split.
  - intros (ep & (addr & port & Hm & ->) & He & Ht). cbn in *. subst e.
    destruct (tn_Dial net _) eqn:Ed; [done|]. cbn in Ht. case_bool_decide; [|done]. subst. split; [by exists addr|done].
  - intros [(addr & Hm & ->) Hd]. eexists. split; [by exists addr, "443"|]. cbn. by rewrite Hd.
Qed.

Lemma valid_present addr :
  known_address creq (th_dns_addrs net URL) addr = true →
  existsb (valid_at addr) msgs = true ↔ serves_tls net URL addr.
Proof.
  intros Hk. rewrite (existsb_messages net (Hostname URL) endpoints (valid_at addr) msgs quic Hp) by done.
  setoid_rewrite Hep. unfold serves_tls. split.
  - intros (ep & (a & port & (_ & Hb & Hport) & ->) & Hv). cbn in Hv. apply andb_true_iff in Hv as [->%bool_decide_eq_true Hv].
    destruct (tn_Dial net _) eqn:Ed; [done|]. case_bool_decide as H443; [|done]. subst port. cbn in Hv.
    rewrite IsNone_th_failure, IsNone_true in Hv. by split_and!.
  - intros (Hb & Hport & Hd & Hh). eexists. split; [exists addr, "443"; by split_and!|]. cbn. rewrite Hd.
    rewrite !bool_decide_eq_true_2 by done. cbn. by rewrite IsNone_th_failure, Hh.
Qed.
End present.

(** C25: the test helper never panics and fails only when the URL does not parse.  In whatever order
    the results arrive it answers about the port or the standard ports of the URL on each address that the probe or the lookup
    found and that is no bogon, and about nothing else: whether it connects and, on port 443, whether the handshake
    for the host succeeds.  The flags of an address say who found it, whether it is a bogon, and whether it serves TLS. *)
Theorem measure_spec config creq (Harrival : ∀ l, arrival l ≡ₚ l) :
  match url_Parse (thr_HTTPRequest creq) with
  | None => run_measure config creq = Ok (Err (parse_error (thr_HTTPRequest creq)))
  | Some URL =>
      ∃ resp, run_measure config creq = Ok (Val resp) ∧
        httpDo Do parse_error (thr_HTTPRequestHeaders creq) (maxAcceptableBody config) (thr_HTTPRequest creq) true
          = Ok (th_HTTPRequest resp) ∧
        thdns_Addrs (th_DNS resp) = th_dns_addrs net URL ∧ thdns_Failure (th_DNS resp) = th_dns_failure net URL ∧
        (∀ e r, th_TCPConnect resp !! e = Some r ↔
           (∃ addr port, measured net creq URL addr port ∧ e = JoinHostPort addr port) ∧ r = tcp_result net e) ∧
        (∀ e r, th_TLSHandshake resp !! e = Some r ↔
           (∃ addr, measured net creq URL addr "443" ∧ e = JoinHostPort addr "443") ∧ tn_Dial net e = None ∧
           r = tls_result net (Hostname URL) e) ∧
        (∀ addr, th_IPInfo resp !! addr =
           if known_address creq (th_dns_addrs net URL) addr
           then Some (Some {| thip_ASN := LookupASN addr;
                              thip_Flags := Z.lor (ip_flags creq (th_dns_addrs net URL) addr)
                                (flag (bool_decide (serves_tls net URL addr)) THIPInfoFlagValidForDomain) |})
           else None)
  end.
Proof.
  destruct (url_Parse (thr_HTTPRequest creq)) as [URL|] eqn:Hurl.
  2: { unfold TestHelper.measure. by rewrite Hurl. }
  destruct (measure_messages config creq URL Harrival Hurl)
    as (endpoints & msgs & quic & cresp & -> & Hp & Hep & Htcp & Htls & Hinfo & Hda & Hdf & Hhttp).
  eexists. split; [done|]. destruct (read_messages_rest msgs cresp) as (-> & -> & _).
  assert (Hmsgs : Forall (tcp_message net (Hostname URL) endpoints) msgs).
  { rewrite Hp. apply tcp_messages_ok. }
  assert (Hread := λ e, read_messages_lookup net (Hostname URL) endpoints msgs e cresp Hmsgs).
  rewrite Htcp, Htls, Hinfo in Hread. split_and!; [done..| | |].
  - intros e r. destruct (Hread e) as (-> & _ & _). rewrite lookup_empty, <-(tcp_present _ _ _ _ _ Hp Hep).
    destruct (existsb (tcp_at e) msgs); naive_solver.
  - intros e r. destruct (Hread e) as (_ & -> & _). rewrite lookup_empty.
    assert (Hex := tls_present _ _ _ _ _ Hp Hep e). destruct (existsb (tls_at e) msgs); naive_solver.
  - intros addr. destruct (Hread addr) as (_ & _ & ->). rewrite newIPInfo_lookup.
    destruct (known_address creq (th_dns_addrs net URL) addr) eqn:Hk; [|done]. cbn [fmap option_fmap option_map].
    unfold mark_valid. cbn [thip_ASN thip_Flags]. do 5 f_equal.
    apply eq_bool_prop_intro. rewrite bool_decide_spec, Is_true_true. by apply (valid_present _ _ _ _ _ Hp Hep).
Qed.

(** The handler never panics; it measures only for a client that posts a request it can parse and that
    is not throttled, and answers 200, 400 or 503. *)
Theorem ServeHTTP_spec json_Unmarshal h countRequests req (Harrival : ∀ l, arrival l ≡ₚ l) :
  ∃ status resp, ServeHTTP LookupASN net parse_error Do DoHTTP3 arrival json_Unmarshal h countRequests req = Ok (status, resp) ∧
    status ∈ [200; 400; 503] ∧
    (is_Some resp → status = 200 ∧ cr_Method req = "POST" ∧ handlerShouldThrottleClient countRequests (cr_UserAgent req) = false).
Proof.
  unfold ServeHTTP. repeat case_bool_decide; cbn [negb]; try (eexists _, _; split; [done|]; split; [set_solver|by intros []]).
  destruct (handlerShouldThrottleClient _ _); [eexists _, _; split; [done|]; split; [set_solver|by intros []]|].
  destruct (ReadAllContext_ok (cr_ctx_Err req) (cr_Body req) (maxAcceptableBody h)) as [[data|err] ->]; cbn [mbind outcome_bind];
    [|eexists _, _; split; [done|]; split; [set_solver|by intros []]].
  destruct (json_Unmarshal data) as [creq|err]; [|eexists _, _; split; [done|]; split; [set_solver|by intros []]].
  assert (∃ res, run_measure h creq = Ok res) as [res ->].
  { pose proof (measure_total h creq Harrival). done. }
  destruct res; cbn [mbind outcome_bind]; eexists _, _; split; [done|by split; [set_solver|]| |]; [done|].
  split; [set_solver|by intros []].
Qed.

(** ** What the probe gets *)

Lemma string_drop_SS n s : string_drop 1 (string_drop n s) = string_drop (S n) s.
Proof.
  revert s. induction n as [|n IH]; intros [|c s]; [done|by destruct s|done|]. exact (IH s).
Qed.

(** The port of a URL is a number. *)
Lemma Port_digits u : string_forallb GoURL.is_digit (Port u) = true.
Proof.
  unfold Port, split_host_port. destruct (LastIndexByte (Host u) ":") as [colon|]; [|by destruct (_ && _)].
  destruct (validOptionalPort (string_drop colon (Host u))) eqn:E; [|by destruct (_ && _)].
  assert (Hd : string_forallb GoURL.is_digit (string_drop (S colon) (Host u)) = true).
  { rewrite <-string_drop_SS. destruct (string_drop colon (Host u)) as [|c port]; [done|].
    cbn [validOptionalPort] in E. apply andb_true_iff in E as [_ E]. by destruct port. }
  by destruct (_ && _).
Qed.

Lemma digits_without s c : string_forallb GoURL.is_digit s = true → GoURL.is_digit c = false → ContainsByte s c = false.
Proof.
  intros Hs Hc. induction s as [|x s IH]; [done|]. cbn in Hs. apply andb_true_iff in Hs as [Hx Hs].
  rewrite ContainsByte_cons, IH, orb_false_r by done. destruct (Ascii.eqb_spec x c); [congruence|done].
Qed.

Lemma th_ports_digits u port : port ∈ th_ports u → string_forallb GoURL.is_digit port = true.
Proof.
  unfold th_ports. pose proof (Port_digits u). case_bool_decide; cbn [negb].
  - repeat case_bool_decide; intros Hp; repeat (apply elem_of_cons in Hp as [->|Hp]; [done|]); by apply not_elem_of_nil in Hp.
  - intros ->%list_elem_of_singleton. done.
Qed.

Lemma SplitHostPort_digits addr port :
  plain addr → string_forallb GoURL.is_digit port = true → SplitHostPort (JoinHostPort addr port) = Val (addr, port).
Proof. intros Ha Hp. apply SplitHostPort_JoinHostPort; [done|split|]; by apply digits_without. Qed.

(** The test helper finds the addresses in the request of the probe. *)
Lemma probe_found_request accept language agent URLString URL Addresses addr :
  addr ∈ Addresses → plain addr → is_Some (ParseIP addr) →
  probe_found (control_request accept language agent URLString URL Addresses) addr = true.
Proof.
  intros Hin Hplain [ip Hip]. unfold probe_found. apply existsb_true, Exists_exists. cbn [control_request thr_TCPConnect].
  unfold control_endpoints. pose proof (Port_digits URL) as Hport.
  destruct (negb (String.eqb (Port URL) "")) eqn:E.
  - exists (JoinHostPort addr (Port URL)). split; [apply list_elem_of_bind; exists addr; rewrite ?E; split; [by left|done]|].
    by rewrite SplitHostPort_digits, Hip, bool_decide_eq_true_2.
  - exists (JoinHostPort addr "443"). split; [apply list_elem_of_bind; exists addr; rewrite ?E; split; [by left|done]|].
    by rewrite SplitHostPort_digits, Hip, bool_decide_eq_true_2.
Qed.

Lemma tcpMapFailure_empty failure :
  failure ≠ Some "" → utilsStringPointerToString (tcpMapFailure failure) = "" ↔ failure = None.
Proof.
  intros Hne. destruct failure as [f|]; [|done]. cbn. repeat case_bool_decide; cbn; split; congruence.
Qed.

(** C26: when the test helper answers the request that the control task sends for a URL,
    then on every public address that the probe sent, for every port that belongs to the URL, the
    ingestion fills in the control of the endpoint; the control failure is empty exactly when the test helper connected. *)
Theorem th_covers_probe config accept language agent URLString URL Addresses
    (Harrival : ∀ l, arrival l ≡ₚ l) (Hurl : url_Parse URLString = Some URL) :
  ∃ resp, run_measure config (control_request accept language agent URLString URL Addresses) = Ok (Val resp) ∧
    ∀ addr port obs, addr ∈ Addresses → plain addr → is_Some (ParseIP addr) → IsBogon addr = false →
      wanted_port URL port → EndpointAddress obs = Some (JoinHostPort addr port) →
      ∃ failure, xref_tcp_failure resp obs = Ok (obs <| ControlTCPConnectFailure := Some failure |>) ∧
        (failure = "" ↔ tn_Dial net (JoinHostPort addr port) = None).
Proof.
  set (creq := control_request accept language agent URLString URL Addresses).
  destruct (measure_messages config creq URL Harrival Hurl)
    as (endpoints & msgs & quic & cresp & -> & Hp & Hep & Htcp & _).
  eexists. split; [done|]. intros addr port obs Hin Hplain Hip Hbogon Hport Hobs.
  assert (Hmsgs : Forall (tcp_message net (Hostname URL) endpoints) msgs).
  { rewrite Hp. apply tcp_messages_ok. }
  destruct (read_messages_lookup net (Hostname URL) endpoints msgs (JoinHostPort addr port) cresp Hmsgs) as (Hlookup & _ & _).
  rewrite (proj2 (tcp_present _ _ _ _ _ Hp Hep (JoinHostPort addr port))) in Hlookup.
  2: { exists addr, port. split; [|done]. split; [|done]. unfold known_address.
       unfold creq. by rewrite probe_found_request. }
  unfold xref_tcp_failure. rewrite Hobs. cbn [Unwrap mbind outcome_bind]. rewrite Hlookup.
  eexists. split; [done|]. cbn [tcp_result thtcp_Failure].
  destruct (tracex_NewFailure_ok (tn_Dial net (JoinHostPort addr port))) as [_ Hf].
  rewrite tcpMapFailure_empty by apply th_failure_nonempty. done.
Qed.
End measure.

(** ** Examples *)

Definition sample_network : th_network := {|
  tn_LookupHost := λ _, Val ["93.184.216.34"; "10.0.0.1"];
  tn_Dial := λ _, None;
  tn_Handshake := λ _ _, None;
  tn_QUIC := λ _ _, None;
|}.

Definition sample_control : THRequest := {|
  thr_HTTPRequest := "https://example.com/";
  thr_HTTPRequestHeaders := ∅;
  thr_TCPConnect := ["1.1.1.1:443"; "93.184.216.34:443"];
  thr_XQUICEnabled := false;
|}.

Definition sample_measure (creq : THRequest) : outcome (result error THResponse) :=
  measure (H := range_ascending) (H0 := go_insertion_sort) (H1 := ascii_only_tables) (λ _, 15133) sample_network (λ _, ErrIsNil)
    (λ _ _, Err ErrIsNil) (λ _ _, Err ErrIsNil) reverse (mkHandler false maxAcceptableBodySize) creq.

Example sample_measure_flags :
  match sample_measure sample_control with
  | Ok (Val resp) =>
      map (λ a, option_map (option_map thip_Flags) (th_IPInfo resp !! a)) ["93.184.216.34"; "10.0.0.1"; "1.1.1.1"] =
        [Some (Some 11); Some (Some 6); Some (Some 9)]
  | _ => False
  end.
Proof. vm_compute. reflexivity. Qed.

Lemma measure_spec_witness :
  (∀ l : list th_message, reverse l ≡ₚ l) ∧
  ∃ resp, sample_measure sample_control = Ok (Val resp) ∧ thdns_Addrs (th_DNS resp) = ["93.184.216.34"; "10.0.0.1"].
Proof.
  split; [apply reverse_Permutation|].
  destruct (@measure_spec range_ascending go_insertion_sort ascii_only_tables (λ _, 15133) sample_network (λ _, ErrIsNil)
    (λ _ _, Err ErrIsNil) (λ _ _, Err ErrIsNil) reverse (mkHandler false maxAcceptableBodySize) sample_control
    reverse_Permutation) as (resp & Heq & _ & Hdns & _).
  exists resp. split; [exact Heq|exact Hdns].
Defined.

Lemma th_covers_probe_witness :
  url_Parse "https://example.com/" = Some (simple_URL "https" "example.com" "/" "") ∧
  ∃ resp, sample_measure (control_request "*/*" "en" "miniooni" "https://example.com/"
      (simple_URL "https" "example.com" "/" "") ["1.1.1.1"]) = Ok (Val resp) ∧
    ∃ failure, xref_tcp_failure resp (zeroObs <| EndpointAddress := Some "1.1.1.1:443" |>) =
      Ok (zeroObs <| EndpointAddress := Some "1.1.1.1:443" |> <| ControlTCPConnectFailure := Some failure |>) ∧ failure = "".
Proof.
  split; [reflexivity|].
  destruct (@th_covers_probe range_ascending go_insertion_sort ascii_only_tables (λ _, 15133) sample_network (λ _, ErrIsNil)
    (λ _ _, Err ErrIsNil) (λ _ _, Err ErrIsNil) reverse (mkHandler false maxAcceptableBodySize) "*/*" "en" "miniooni"
    "https://example.com/" (simple_URL "https" "example.com" "/" "") ["1.1.1.1"] reverse_Permutation eq_refl)
    as (resp & Heq & Hcov).
  exists resp. split; [exact Heq|].
  destruct (Hcov "1.1.1.1" "443" (zeroObs <| EndpointAddress := Some "1.1.1.1:443" |>)) as (failure & Hx & Hf).
  - by left.
  - by split.
  - vm_compute. by eexists.
  - by vm_compute.
  - apply th_ports_spec. by left.
  - done.
  - exists failure. split; [exact Hx|]. by apply Hf.
Defined.

(** The host of the request includes the port of the URL, so that an alternative
    service without a host gets two ports. *)
Theorem h3_endpoint_two_ports :
  discoverH3Endpoint ("h3=" +:+ quote +:+ ":443" +:+ quote +:+ "; ma=86400") [] (Host (simple_URL "https" "example.com:8443" "/" "")) =
  "[example.com:8443]:443".
Proof. reflexivity. Qed.

Example h3_endpoint_no_port :
  discoverH3Endpoint ("h2=" +:+ quote +:+ ":443" +:+ quote +:+ ",h3=" +:+ quote +:+ ":443" +:+ quote) [] "example.com" = "example.com:443".
Proof. reflexivity. Qed.
