(* ===== verification/NetTactics.v ===== *)
(** * Engine network: tactics and policies

    [pkg/enginenetx]: how the engine chooses the addresses and the TLS server
    names it tries in order to reach a host.  A policy emits tactics on
    an unbuffered channel that its goroutine closes; a channel with one writer and one
    reader is the list of what is sent before the close.  A channel of pointers may
    carry nil.

    A tactic that is emitted is only written to by [filterAssignInitialDelays],
    at the end of the pipeline and before any dialer reads it, so that tactics are values. *)
From S2P Require Import Prelude GoString GoNet.

(** ** [httpsdialer.go]: tactics *)

Record httpsDialerTactic := mkTactic {
  Address : string;
  InitialDelay : Z;
  Port : string;
  SNI : string;
  VerifyHostname : string;
}.

#[export] Instance httpsDialerTactic_eq_dec : EqDecision httpsDialerTactic.
Proof. solve_decision. Defined.

Definition tactic_Clone (dt : httpsDialerTactic) : httpsDialerTactic := {|
  Address := Address dt;
  InitialDelay := InitialDelay dt;
  Port := Port dt;
  SNI := SNI dt;
  VerifyHostname := VerifyHostname dt;
|}.

Definition tacticSummaryKey (dt : httpsDialerTactic) : string :=
  JoinHostPort (Address dt) (Port dt) +:+ " sni=" +:+ SNI dt +:+ " verify=" +:+ VerifyHostname dt.

Definition domainEndpointKey (dt : httpsDialerTactic) : string :=
  JoinHostPort (VerifyHostname dt) (Port dt).

(** What a channel of tactics carries. *)
Abbreviation tactics := (list (option httpsDialerTactic)).

(** ** [happyeyeballs.go]: [time.Duration] is an [int64] of nanoseconds *)

Definition Second : Z := 1000000000.

Definition happyEyeballsDelay (idx : Z) : Z :=
  let baseDelay := Second in
  if idx <=? 0 then 0
  else if idx =? 1 then baseDelay
  else if idx <=? 4 then wrap64 (Z.shiftl baseDelay (idx - 1))
  else wrap64 (wrap64 (Z.shiftl baseDelay 3) * wrap64 (idx - 3)).

(** ** [filter.go], [stream.go] *)

Definition filterOutNilTactics (input : tactics) : tactics :=
  foldl (λ output tx, if IsNone tx then output else output ++ [tx]) [] input.

(** Calling a method of a nil tactic panics. *)
Definition deref_tactic (tx : option httpsDialerTactic) : outcome httpsDialerTactic :=
  match tx with
  | Some tx => Ok tx
  | None => Panic "nil pointer dereference"
  end.

(** A turn of the loop, with the [uniq] map and what was emitted. *)
Definition unique_turn (st : gmap string Z * tactics) (tx : option httpsDialerTactic) :
    outcome (gmap string Z * tactics) :=
  let '(uniq, output) := st in
  t ← deref_tactic tx;
  let key := tacticSummaryKey t in
  if 0 <? default 0 (uniq !! key) then Ok (uniq, output)
  else Ok (<[key := wrap64 (default 0 (uniq !! key) + 1)]> uniq, output ++ [tx]).

Definition filterOnlyKeepUniqueTactics (input : tactics) : outcome tactics :=
  snd <$> foldM unique_turn (∅, []) input.

Definition delay_turn (st : Z * tactics) (tx : option httpsDialerTactic) : outcome (Z * tactics) :=
  let '(index, output) := st in
  t ← deref_tactic tx;
  Ok (wrap64 (index + 1), output ++ [Some (t <| InitialDelay := happyEyeballsDelay index |>)]).

Definition filterAssignInitialDelays (input : tactics) : outcome tactics :=
  snd <$> foldM delay_turn (0, []) input.

Definition httpsDialerFilterTactics (input : tactics) : outcome tactics :=
  unique ← filterOnlyKeepUniqueTactics (filterOutNilTactics input);
  filterAssignInitialDelays unique.

Definition streamTacticsFromSlice (input : tactics) : tactics :=
  foldl (λ output tx, output ++ [tx]) [] input.

(** ** Policies *)

(** [httpsDialerPolicy]: what a policy emits for a domain and a port. *)
Class httpsDialerPolicy (P : Type) := LookupTactics : P → string → string → outcome tactics.
#[global] Hint Mode httpsDialerPolicy ! : typeclass_instances.

(** [nullpolicy.go] *)
Inductive nullPolicy := mkNullPolicy.

#[export] Instance nullPolicy_LookupTactics : httpsDialerPolicy nullPolicy := λ _ _ _, Ok [].

(** *** [dnspolicy.go]

    What the policy reads: [ctx.Err()] when its goroutine starts and the answer of
    the resolver. *)
Record dnsPolicy := mkDnsPolicy {
  dns_ctx_Err : option string;
  dns_LookupHost : string → result string (list string);
}.

(** [ResolverShortCircuitIPAddr.LookupHost] of [netxlite/resolvercore.go] *)
Definition ResolverShortCircuitIPAddr_LookupHost
    (Resolver_LookupHost : string → result string (list string)) (hostname : string) :
    result string (list string) :=
  match ParseIP hostname with
  | Some _ => Val [hostname]
  | None => Resolver_LookupHost hostname
  end.

#[export] Instance dnsPolicy_LookupTactics : httpsDialerPolicy dnsPolicy := λ p domain port,
  match dns_ctx_Err p with
  | Some _ => Ok []
  | None =>
      match ResolverShortCircuitIPAddr_LookupHost (dns_LookupHost p) domain with
      | Err _ => Ok []
      | Val addrs =>
          Ok (foldl (λ out addr, out ++ [Some {|
            Address := addr;
            InitialDelay := 0;
            Port := port;
            SNI := domain;
            VerifyHostname := domain;
          |}]) [] addrs)
      end
  end.

(** *** [userpolicy.go] *)

(** A nil map reads as the empty one. *)
Record userPolicyRoot := mkUserPolicyRoot {
  upr_DomainEndpoints : gmap string tactics;
  upr_Version : Z;
}.

Record userPolicyV2 := mkUserPolicy { up_Root : userPolicyRoot }.

Definition userPolicyKey : string := "bridges.conf".
Definition errUserPolicyWrongVersion : string := "wrong user policy version".
Definition userPolicyVersion : Z := 3.

(** [kvStore_Get] reads the key-value store, [hujsonx_Unmarshal] decodes a document. *)
Definition newUserPolicyV2 {bytes}
    (kvStore_Get : string → result string bytes)
    (hujsonx_Unmarshal : bytes → result string userPolicyRoot) : result string userPolicyV2 :=
  match kvStore_Get userPolicyKey with
  | Err err => Err err
  | Val data =>
      match hujsonx_Unmarshal data with
      | Err err => Err err
      | Val root =>
          if negb (upr_Version root =? userPolicyVersion) then
            Err (userPolicyKey +:+ ": " +:+ errUserPolicyWrongVersion +:+ ": expected=" +:+
                 Itoa userPolicyVersion +:+ " got=" +:+ Itoa (upr_Version root))
          else Val (mkUserPolicy root)
      end
  end.

Definition userPolicyRemoveNilEntries (input : tactics) : tactics :=
  foldl (λ output entry, if IsNone entry then output else output ++ [entry]) [] input.

#[export] Instance userPolicyV2_LookupTactics : httpsDialerPolicy userPolicyV2 := λ ldp domain port,
  match upr_DomainEndpoints (up_Root ldp) !! JoinHostPort domain port with
  | None => Ok []
  | Some tactics =>
      let tactics := userPolicyRemoveNilEntries tactics in
      if (length tactics <=? 0)%nat then Ok []
      else Ok (foldl (λ out tactic, out ++ [tactic]) [] tactics)
  end.

(** *** [mixpolicy.go] *)

Record mixPolicyEitherOr (P F : Type) := mkEitherOr { eo_Primary : P; eo_Fallback : F }.
Arguments mkEitherOr {P F}. Arguments eo_Primary {P F}. Arguments eo_Fallback {P F}.

#[export] Instance mixPolicyEitherOr_LookupTactics `{httpsDialerPolicy P, httpsDialerPolicy F} :
    httpsDialerPolicy (mixPolicyEitherOr P F) := λ m domain port,
  primary ← LookupTactics (eo_Primary m) domain port;
  let '(output, count) :=
    foldl (λ '(output, count) tx, (output ++ [tx], wrap64 (count + 1))) ([], 0) primary in
  if 0 <? count then Ok output
  else
    fallback ← LookupTactics (eo_Fallback m) domain port;
    Ok (foldl (λ output tx, output ++ [tx]) output fallback).

(** The factor is a [uint8]. *)
Record mixPolicyInterleave (P F : Type) := mkInterleave {
  il_Primary : P;
  il_Fallback : F;
  il_Factor : Z;
}.
Arguments mkInterleave {P F}. Arguments il_Primary {P F}. Arguments il_Fallback {P F}. Arguments il_Factor {P F}.

(** [for idx := uint8(0); idx < n; idx++]: [n] is at most 255, which [idx] reaches
    without a wrap-around.  [ch] is what is left on the channel. *)
Fixpoint take_loop (n : nat) (ch output : tactics) : option tactics * tactics :=
  match n with
  | O => (Some ch, output)
  | S n =>
      match ch with
      | [] => (None, output)
      | tactic :: ch => take_loop n ch (output ++ [tactic])
      end
  end.

Definition maybeTakeN (Factor : Z) (input : option tactics) (output : tactics) : option tactics * tactics :=
  match input with
  | None => (None, output)
  | Some ch => take_loop (Z.to_nat (Z.max 1 Factor)) ch output
  end.

(** [for !primary.IsNone() || !fallback.IsNone()] *)
Fixpoint interleave_loop (fuel : nat) (Factor : Z) (primary fallback : option tactics) (output : tactics) :
    option tactics :=
  if IsNone primary && IsNone fallback then Some output
  else
    match fuel with
    | O => None
    | S fuel =>
        let '(primary, output) := maybeTakeN Factor primary output in
        let '(fallback, output) := maybeTakeN Factor fallback output in
        interleave_loop fuel Factor primary fallback output
    end.

(** Every turn takes a tactic from a channel or finds it drained. *)
Definition interleave_fuel (primary fallback : tactics) : nat := S (S (length primary + length fallback)).

#[export] Instance mixPolicyInterleave_LookupTactics `{httpsDialerPolicy P, httpsDialerPolicy F} :
    httpsDialerPolicy (mixPolicyInterleave P F) := λ p domain port,
  primary ← LookupTactics (il_Primary p) domain port;
  fallback ← LookupTactics (il_Fallback p) domain port;
  match interleave_loop (interleave_fuel primary fallback) (il_Factor p) (Some primary) (Some fallback) [] with
  | Some output => Ok output
  | None => Panic "out of fuel"
  end.
