(* ===== verification/NetStats.v ===== *)
(** * Engine network: statistics about tactics

    [pkg/enginenetx/statsmanager.go].  The statistics live in a container that is read
    from the disk, where the user may have edited it: a pointer may be nil and a
    map may be nil (an [option] here).  Every method of the manager locks its mutex,
    so that a method is an atomic update of the container.  A pointer to a record is
    only stored in one place of the container, so that records are values and a
    write through the pointer replaces the entry.

    The clock: a [time.Time] is a number of nanoseconds since the zero time, and each
    definition takes what [time.Now()] returns. *)
From S2P Require Import Prelude GoSort GoFloat GoString NetTactics.

Record statsTactic := mkStatsTactic {
  CountStarted : Z;
  CountTCPConnectError : Z;
  CountTCPConnectInterrupt : Z;
  CountTLSHandshakeError : Z;
  CountTLSHandshakeInterrupt : Z;
  CountTLSVerificationError : Z;
  CountSuccess : Z;
  HistoTCPConnectError : option (gmap string Z);
  HistoTLSHandshakeError : option (gmap string Z);
  HistoTLSVerificationError : option (gmap string Z);
  LastUpdated : Z;
  Tactic : option httpsDialerTactic;
}.

(** ** Time *)

Definition time_zero : Z := 0.

(** [t.Sub(u)] saturates. *)
Definition time_Sub (t u : Z) : Z := Z.max int64_min (Z.min int64_max (t - u)).

Definition Hour : Z := 3600 * Second.

(** ** Reading records that may be nil *)

Definition statsNilSafeSuccessRate (t : option statsTactic) : float64 :=
  match t with
  | None => float64_zero
  | Some t =>
      if 0 <? CountStarted t
      then float64_div (float64_of_int (CountSuccess t)) (float64_of_int (CountStarted t))
      else float64_zero
  end.

Definition statsNilSafeLastUpdated (t : option statsTactic) : Z :=
  match t with None => time_zero | Some t => LastUpdated t end.

Definition statsNilSafeCountSuccess (t : option statsTactic) : Z :=
  match t with None => 0 | Some t => CountSuccess t end.

Section loops.
Context `{RangeOrder} `{StableSort}.

(** ** Deep copies *)

(** [for key, value := range input { output[key] = value }] *)
Definition statsMaybeCloneMapStringInt64 (input : option (gmap string Z)) : option (gmap string Z) :=
  match input with
  | None => None
  | Some input => Some (foldl (λ output '(key, value), <[key := value]> output) ∅ (range_map 22 input))
  end.

Definition statsMaybeCloneTactic (input : option httpsDialerTactic) : option httpsDialerTactic :=
  match input with
  | None => None
  | Some input => Some (tactic_Clone input)
  end.

Definition statsTactic_Clone (st : statsTactic) : statsTactic := {|
  CountStarted := CountStarted st;
  CountTCPConnectError := CountTCPConnectError st;
  CountTCPConnectInterrupt := CountTCPConnectInterrupt st;
  CountTLSHandshakeError := CountTLSHandshakeError st;
  CountTLSHandshakeInterrupt := CountTLSHandshakeInterrupt st;
  CountTLSVerificationError := CountTLSVerificationError st;
  CountSuccess := CountSuccess st;
  HistoTCPConnectError := statsMaybeCloneMapStringInt64 (HistoTCPConnectError st);
  HistoTLSHandshakeError := statsMaybeCloneMapStringInt64 (HistoTLSHandshakeError st);
  HistoTLSVerificationError := statsMaybeCloneMapStringInt64 (HistoTLSVerificationError st);
  LastUpdated := LastUpdated st;
  Tactic := statsMaybeCloneTactic (Tactic st);
|}.

(** ** Sorting *)

(** The comparison of [sort.SliceStable]. *)
Definition stats_less (i j : option statsTactic) : bool :=
  if float64_gt (statsNilSafeSuccessRate i) (statsNilSafeSuccessRate j) then true
  else if statsNilSafeCountSuccess j <? statsNilSafeCountSuccess i then true
  else if 0 <? time_Sub (statsNilSafeLastUpdated i) (statsNilSafeLastUpdated j) then true
  else false.

Definition well_formed (t : option statsTactic) : bool :=
  match t with
  | None => false
  | Some t => negb (IsNone (Tactic t))
  end.

Definition statsDefensivelySortTacticsByDescendingSuccessRateWithAcceptPredicate
    (input : list (option statsTactic)) (acceptfunc : option statsTactic → bool) : list (option statsTactic) :=
  let work := foldl (λ work t, if well_formed t then work ++ [statsTactic_Clone <$> t] else work) [] input in
  let work := SliceStable stats_less work in
  foldl (λ output t, if acceptfunc t then output ++ [t] else output) [] work.

(** ** Containers *)

Record statsDomainEndpoint := mkDomainEndpoint { Tactics : option (gmap string (option statsTactic)) }.

Definition statsContainerVersion : Z := 5.

Record statsContainer := mkStatsContainer {
  DomainEndpoints : option (gmap string (option statsDomainEndpoint));
  Version : Z;
}.

Definition newStatsContainer : statsContainer := {|
  DomainEndpoints := Some ∅;
  Version := statsContainerVersion;
|}.

(** A nil map reads as the empty one, and writing to it panics. *)
Definition map_of {A} (m : option (gmap string A)) : gmap string A := default ∅ m.

Definition map_set {A} (m : option (gmap string A)) (k : string) (v : A) :
    outcome (option (gmap string A)) :=
  match m with
  | None => Panic "assignment to entry in nil map"
  | Some m => Ok (Some (<[k := v]> m))
  end.

(** ** Pruning *)

Definition oneWeek : Z := 7 * 24 * Hour.
Definition maxEntriesPerDomainEndpoint : nat := 10.

(** The accept predicate. *)
Definition recent (now : Z) (st : option statsTactic) : bool :=
  let delta := time_Sub now (statsNilSafeLastUpdated st) in
  delta <? oneWeek.

(** The body of the last loop. *)
Definition keep_tactic (output : gmap string (option statsTactic)) (t : option statsTactic) :
    outcome (gmap string (option statsTactic)) :=
  st ← deref t;
  tactic ← deref_tactic (Tactic st);
  Ok (<[tacticSummaryKey tactic := t]> output).

Definition statsDomainEndpointPruneEntries (now : Z) (input : statsDomainEndpoint) :
    outcome statsDomainEndpoint :=
  let tactics := foldl (λ tactics '(summary, tactic),
    if bool_decide (summary = "") || negb (well_formed tactic) then tactics else tactics ++ [tactic])
    [] (range_map 23 (map_of (Tactics input))) in
  let tactics :=
    statsDefensivelySortTacticsByDescendingSuccessRateWithAcceptPredicate tactics (recent now) in
  let tactics :=
    if (maxEntriesPerDomainEndpoint <? length tactics)%nat
    then take maxEntriesPerDomainEndpoint tactics else tactics in
  output ← foldM keep_tactic ∅ tactics;
  Ok {| Tactics := Some output |}.

(** A turn of the loop over the domain endpoints; the clock is read in every turn. *)
Definition prune_turn (now : string → Z) (output : statsContainer)
    (entry : string * option statsDomainEndpoint) : outcome statsContainer :=
  let '(domainEpnt, inputStats) := entry in
  match inputStats with
  | None => Ok output
  | Some inputStats =>
      if bool_decide (domainEpnt = "") || (size (map_of (Tactics inputStats)) <=? 0)%nat then Ok output
      else
        prunedStats ← statsDomainEndpointPruneEntries (now domainEpnt) inputStats;
        if (size (map_of (Tactics prunedStats)) <=? 0)%nat then Ok output
        else
          m ← map_set (DomainEndpoints output) domainEpnt (Some prunedStats);
          Ok (output <| DomainEndpoints := m |>)
  end.

Definition statsContainerPruneEntries (now : string → Z) (input : statsContainer) : outcome statsContainer :=
  foldM (prune_turn now) newStatsContainer (range_map 24 (map_of (DomainEndpoints input))).

(** ** Access to the records *)

(** [Some record] when the second result is true. *)
Definition GetStatsTacticLocked (c : statsContainer) (tactic : httpsDialerTactic) :
    option (option statsTactic) :=
  match map_of (DomainEndpoints c) !! domainEndpointKey tactic with
  | None | Some None => None
  | Some (Some domainEpntRecord) => map_of (Tactics domainEpntRecord) !! tacticSummaryKey tactic
  end.

Definition SetStatsTacticLocked (c : statsContainer) (tactic : httpsDialerTactic)
    (record : option statsTactic) : outcome statsContainer :=
  let domainEpntRecord := map_of (DomainEndpoints c) !! domainEndpointKey tactic in
  match domainEpntRecord with
  | None =>
      let domainEpntRecord := {| Tactics := Some {[ tacticSummaryKey tactic := record ]} |} in
      let c := if (size (map_of (DomainEndpoints c)) <=? 0)%nat
               then c <| DomainEndpoints := Some ∅ |> else c in
      m ← map_set (DomainEndpoints c) (domainEndpointKey tactic) (Some domainEpntRecord);
      Ok (c <| DomainEndpoints := m |>)
  | Some domainEpntRecord =>
      domainEpntRecord ← deref domainEpntRecord;
      m ← map_set (Tactics domainEpntRecord) (tacticSummaryKey tactic) record;
      m ← map_set (DomainEndpoints c) (domainEndpointKey tactic) (Some {| Tactics := m |});
      Ok (c <| DomainEndpoints := m |>)
  end.

(** A write through the pointer that the container stores for the tactic. *)
Definition write_record (tactic : httpsDialerTactic) (record : statsTactic) (c : statsContainer) :
    statsContainer :=
  c <| DomainEndpoints ::= fmap (alter (fmap (λ de, {|
    Tactics := alter (λ _, Some record) (tacticSummaryKey tactic) <$> Tactics de |}))
    (domainEndpointKey tactic)) |>.

(** ** Event handlers *)

Definition newStatsTactic (tactic : httpsDialerTactic) : statsTactic := {|
  CountStarted := 0;
  CountTCPConnectError := 0;
  CountTCPConnectInterrupt := 0;
  CountTLSHandshakeError := 0;
  CountTLSHandshakeInterrupt := 0;
  CountTLSVerificationError := 0;
  CountSuccess := 0;
  HistoTCPConnectError := Some ∅;
  HistoTLSHandshakeError := Some ∅;
  HistoTLSVerificationError := Some ∅;
  LastUpdated := time_zero;
  Tactic := Some (tactic_Clone tactic);
|}.

(** [n++] *)
Definition incr (n : Z) : Z := wrap64 (n + 1).

Definition OnStarting (now : Z) (tactic : httpsDialerTactic) (c : statsContainer) : outcome statsContainer :=
  '(record, c) ← match GetStatsTacticLocked c tactic with
    | Some record => Ok (record, c)
    | None =>
        let record := Some (newStatsTactic tactic) in
        c ← SetStatsTacticLocked c tactic record;
        Ok (record, c)
    end;
  record ← deref record;
  Ok (write_record tactic (record <| CountStarted ::= incr |> <| LastUpdated := now |>) c).

Definition statsSafeIncrementMapStringInt64 (value : string) (input : option (gmap string Z)) :
    option (gmap string Z) :=
  let m := default ∅ input in
  Some (<[value := incr (default 0 (m !! value))]> m).

(** The common shape of the other handlers: nothing happens when the tactic
    is not known (a warning is printed). *)
Definition with_record (tactic : httpsDialerTactic) (c : statsContainer)
    (f : statsTactic → outcome statsTactic) : outcome statsContainer :=
  match GetStatsTacticLocked c tactic with
  | None => Ok c
  | Some record =>
      record ← deref record;
      record ← f record;
      Ok (write_record tactic record c)
  end.

(** [err.Error()] after [runtimex.Assert(err != nil, message)] *)
Definition assert_error (err : option string) (message : string) : outcome string :=
  match err with
  | None => Panic message
  | Some err => Ok err
  end.

Definition OnTCPConnectError (now : Z) (ctx_Err : option string) (tactic : httpsDialerTactic)
    (err : option string) (c : statsContainer) : outcome statsContainer :=
  with_record tactic c (λ record,
    let record := record <| LastUpdated := now |> in
    match ctx_Err with
    | Some _ => Ok (record <| CountTCPConnectInterrupt ::= incr |>)
    | None =>
        err ← assert_error err "OnTCPConnectError passed a nil error";
        Ok (record <| CountTCPConnectError ::= incr |>
                   <| HistoTCPConnectError ::= statsSafeIncrementMapStringInt64 err |>)
    end).

Definition OnTLSHandshakeError (now : Z) (ctx_Err : option string) (tactic : httpsDialerTactic)
    (err : option string) (c : statsContainer) : outcome statsContainer :=
  with_record tactic c (λ record,
    let record := record <| LastUpdated := now |> in
    match ctx_Err with
    | Some _ => Ok (record <| CountTLSHandshakeInterrupt ::= incr |>)
    | None =>
        err ← assert_error err "OnTLSHandshakeError passed a nil error";
        Ok (record <| CountTLSHandshakeError ::= incr |>
                   <| HistoTLSHandshakeError ::= statsSafeIncrementMapStringInt64 err |>)
    end).

Definition OnTLSVerifyError (now : Z) (tactic : httpsDialerTactic)
    (err : option string) (c : statsContainer) : outcome statsContainer :=
  with_record tactic c (λ record,
    err ← assert_error err "OnTLSVerifyError passed a nil error";
    Ok (record <| CountTLSVerificationError ::= incr |>
               <| HistoTLSVerificationError ::= statsSafeIncrementMapStringInt64 err |>
               <| LastUpdated := now |>)).

Definition OnSuccess (now : Z) (tactic : httpsDialerTactic) (c : statsContainer) : outcome statsContainer :=
  with_record tactic c (λ record,
    Ok (record <| CountSuccess ::= incr |> <| LastUpdated := now |>)).

(** ** The manager *)

Definition statsKey : string := "httpsdialerstats.state".
Definition errStatsContainerWrongVersion : string := "wrong stats container version".

Section kvstore.
(** The key-value store and the JSON codec of the container. *)
Context {bytes : Type} (json_Unmarshal : bytes → result string statsContainer)
  (json_Marshal : statsContainer → bytes).

Definition loadStatsContainer (now : string → Z) (kvStore_Get : string → result string bytes) :
    outcome (result string statsContainer) :=
  match kvStore_Get statsKey with
  | Err err => Ok (Err err)
  | Val data =>
      match json_Unmarshal data with
      | Err err => Ok (Err err)
      | Val container =>
          if negb (Version container =? statsContainerVersion) then
            Ok (Err (statsKey +:+ ": " +:+ errStatsContainerWrongVersion +:+ ": expected=" +:+
                     Itoa statsContainerVersion +:+ " got=" +:+ Itoa (Version container)))
          else
            pruned ← statsContainerPruneEntries now container;
            Ok (Val pruned)
      end
  end.

(** [closeOnce] has run when [sm_closed]. *)
Record statsManager := mkStatsManager { sm_container : statsContainer; sm_closed : bool }.

Definition newStatsManager (now : string → Z) (kvStore_Get : string → result string bytes) (trimInterval : Z) :
    outcome statsManager :=
  _ ← Assert (0 <? trimInterval) "passed non-positive trimInterval";
  root ← loadStatsContainer now kvStore_Get;
  let root := match root with Err _ => newStatsContainer | Val root => root end in
  Ok (mkStatsManager root false).

(** The manager after [Close], the error, and what is written under which key.
    [set_err] is the answer of [kvStore.Set]. *)
Definition Close (now : string → Z) (set_err : option string) (mt : statsManager) :
    outcome (statsManager * option string * option (string * bytes)) :=
  if sm_closed mt then Ok (mt, None, None)
  else
    container ← statsContainerPruneEntries now (sm_container mt);
    Ok (mt <| sm_closed := true |>, set_err, Some (statsKey, json_Marshal container)).

(** What happens when the ticker of [trim] fires. *)
Definition trim_tick (now : string → Z) (mt : statsManager) : outcome statsManager :=
  container ← statsContainerPruneEntries now (sm_container mt);
  Ok (mt <| sm_container := container |>).
End kvstore.

Definition stats_LookupTactics (c : statsContainer) (domain port : string) :
    outcome (list (option statsTactic) * bool) :=
  match map_of (DomainEndpoints c) !! JoinHostPort domain port with
  | None | Some None => Ok ([], false)
  | Some (Some domainEpnts) =>
      out ← foldM (λ out '(_, entry), st ← deref entry; Ok (out ++ [Some (statsTactic_Clone st)]))
        [] (range_map 25 (map_of (Tactics domainEpnts)));
      Ok (out, (0 <? length out)%nat)
  end.

(** *** [statspolicy.go] *)

Definition accept_success (st : option statsTactic) : bool :=
  match st with
  | None => false
  | Some st => negb (IsNone (Tactic st)) && (0 <? CountSuccess st)
  end.

Definition statsPolicyFilterStatsTactics (tactics : list (option statsTactic)) (good : bool) :
    outcome NetTactics.tactics :=
  if negb good then Ok []
  else
    let onlySuccesses :=
      statsDefensivelySortTacticsByDescendingSuccessRateWithAcceptPredicate tactics accept_success in
    foldM (λ out t,
      _ ← Assert (accept_success t) "expected well-formed *statsTactic";
      st ← deref t;
      Ok (out ++ [Tactic st])) [] onlySuccesses.

Record statsPolicyV2 := mkStatsPolicy { sp_Stats : statsContainer }.

#[export] Instance statsPolicyV2_LookupTactics : httpsDialerPolicy statsPolicyV2 := λ p domain port,
  '(tactics, good) ← stats_LookupTactics (sp_Stats p) domain port;
  out ← statsPolicyFilterStatsTactics tactics good;
  Ok (streamTacticsFromSlice out).
End loops.
