(* ===== verification/NetStatsFacts.v ===== *)
(** * Engine network: what the statistics are

    Pruning as a filter, the invariant of the container, the handlers never panic, the counters. *)
From S2P Require Import Prelude GoSort GoFloat GoString NetTactics NetStats.

(** ** Deep copies are equal to the original *)

Section clones.
Context `{RangeOrder}.

Lemma clone_map m : statsMaybeCloneMapStringInt64 m = m.
Proof. destruct m as [m|]; [|done]. cbn. f_equal. apply foldl_rebuild, range_map_perm. Qed.

Lemma tactic_Clone_id t : tactic_Clone t = t.
Proof. by destruct t. Qed.

Lemma clone_tactic t : statsMaybeCloneTactic t = t.
Proof. destruct t as [[]|]; done. Qed.

Lemma statsTactic_Clone_id st : statsTactic_Clone st = st.
Proof. destruct st. unfold statsTactic_Clone. cbn. by rewrite !clone_map, clone_tactic. Qed.
End clones.

(** ** Sorting *)

(** The tactic of a record, and the key it should be stored under. *)
Definition tactic_of (t : option statsTactic) : option httpsDialerTactic := t ≫= Tactic.
Definition key_of (t : option statsTactic) : string := from_option tacticSummaryKey "" (tactic_of t).

Lemma well_formed_spec t :
  well_formed t = true ↔ ∃ st tactic, t = Some st ∧ Tactic st = Some tactic.
Proof.
  destruct t as [st|]; cbn; [|naive_solver]. destruct (Tactic st) as [tactic|] eqn:E; cbn; [naive_solver|].
  split; [done|]. intros (st' & tactic & [= <-] & Ht). congruence.
Qed.

Section sorted.
Context `{RangeOrder} `{StableSort}.

Lemma stats_sort_filters input accept :
  statsDefensivelySortTacticsByDescendingSuccessRateWithAcceptPredicate input accept ≡ₚ
  filter (λ t, accept t = true) (filter (λ t, well_formed t = true) input).
Proof.
  unfold statsDefensivelySortTacticsByDescendingSuccessRateWithAcceptPredicate.
  rewrite (foldl_collect accept id), !(foldl_collect well_formed), list_fmap_id. cbn [app].
  rewrite SliceStable_perm. apply filter_Permutation. 
  rewrite (list_fmap_ext _ id), list_fmap_id; [done|].
  intros _ [st|] _; cbn; [by rewrite statsTactic_Clone_id|done].
Qed.

Lemma stats_sort_elem input accept t :
  t ∈ statsDefensivelySortTacticsByDescendingSuccessRateWithAcceptPredicate input accept ↔
  t ∈ input ∧ well_formed t = true ∧ accept t = true.
Proof. rewrite stats_sort_filters, !list_elem_of_filter. tauto. Qed.
End sorted.

(** ** Pruning a domain endpoint *)

(** The entries that may stay. *)
Definition eligible_entry (now : Z) (entry : string * option statsTactic) : bool :=
  negb (bool_decide (entry.1 = "")) && well_formed entry.2 && recent now entry.2.

Definition eligible (now : Z) (m : gmap string (option statsTactic)) : gmap string (option statsTactic) :=
  filter (λ entry, eligible_entry now entry = true) m.

(** Every record is stored under the key of its tactic. *)
Definition keyed (m : gmap string (option statsTactic)) : Prop :=
  ∀ k t, m !! k = Some t → well_formed t = true → k = key_of t.

(** The records with the keys they are stored under. *)
Definition pairs (l : list (option statsTactic)) : list (string * option statsTactic) :=
  (λ t, (key_of t, t)) <$> l.

Lemma keep_tactic_fold l m :
  (∀ t, t ∈ l → well_formed t = true) →
  foldM keep_tactic m l = Ok (foldl (λ m '(k, t), <[k := t]> m) m (pairs l)).
Proof.
  intros Hwf. unfold pairs. rewrite foldl_fmap. apply (foldM_pure _ (λ m t, <[key_of t := t]> m)).
  intros s t Ht. apply Hwf, well_formed_spec in Ht as (st & tactic & -> & E).
  unfold keep_tactic, key_of, tactic_of. cbn. rewrite E. done.
Qed.

Lemma foldl_insert_elem {A} (l : list (string * A)) (m : gmap string A) k x :
  foldl (λ m '(k, x), <[k := x]> m) m l !! k = Some x → (k, x) ∈ l ∨ m !! k = Some x.
Proof.
  revert m. induction l as [|[k' y] l IH]; intros m; cbn; [by right|]. intros [Hl|Hm]%IH; [set_solver|].
  destruct (decide (k = k')) as [->|Hne]; [rewrite lookup_insert_eq in Hm; set_solver|].
  rewrite lookup_insert_ne in Hm by done. by right.
Qed.

Lemma foldl_insert_size {A} (l : list (string * A)) (m : gmap string A) :
  (size (foldl (λ m '(k, x), <[k := x]> m) m l) ≤ size m + length l)%nat.
Proof.
  revert m. induction l as [|[k x] l IH]; intros m; cbn; [lia|]. rewrite IH.
  assert (size (<[k := x]> m) ≤ S (size m))%nat; [|lia].
  rewrite map_size_insert. destruct (m !! k); cbn; lia.
Qed.

Section prune.
Context `{RangeOrder} `{StableSort}.

(** The sorted candidates, before the cut. *)
Definition candidates (now : Z) (m : gmap string (option statsTactic)) : list (option statsTactic) :=
  statsDefensivelySortTacticsByDescendingSuccessRateWithAcceptPredicate
    (snd <$> filter (λ e, (bool_decide (e.1 = "") || negb (well_formed e.2)) = false) (range_map 23 m))
    (recent now).

Lemma candidates_elem now m t :
  t ∈ candidates now m ↔ ∃ k, eligible now m !! k = Some t.
Proof.
  unfold candidates. rewrite stats_sort_elem, list_elem_of_fmap.
  assert (Hf : ∀ k t, eligible now m !! k = Some t ↔
    (k, t) ∈ filter (λ e : string * option statsTactic, (bool_decide (e.1 = "") || negb (well_formed e.2)) = false) (range_map 23 m) ∧ recent now t = true).
  { intros k t'. unfold eligible, eligible_entry. rewrite map_lookup_filter_Some, list_elem_of_filter, range_map_elem. cbn.
    destruct (bool_decide (k = "")), (well_formed t'), (recent now t'); cbn; naive_solver. }
  setoid_rewrite Hf. setoid_rewrite list_elem_of_filter. split.
  - intros (([k t'] & -> & Hw & Hk) & _ & Hr). exists k. done.
  - intros (k & [Hw Hk] & Hr). split_and!; [by exists (k, t)| |done].
    cbn in Hw. apply orb_false_iff in Hw as [_ Hw]. by destruct (well_formed t).
Qed.

Lemma candidates_perm now m :
  pairs (candidates now m) ≡ₚ (λ e, (key_of e.2, e.2)) <$> map_to_list (eligible now m).
Proof.
  unfold pairs, candidates. rewrite stats_sort_filters. unfold eligible. rewrite map_filter_alt.
  rewrite map_to_list_to_map.
  2: { eapply sublist_NoDup; [apply (NoDup_fst_map_to_list m)|]. apply fmap_sublist, sublist_filter. }
  rewrite range_map_perm. generalize (map_to_list m). clear. intros l.
  induction l as [|[k t] l IH]; [done|]. rewrite (filter_cons _ (k, t) l), (filter_cons (λ e, eligible_entry now e = true)).
  destruct (decide _) as [E1|E1]; cbn [fst snd] in E1.
  - apply orb_false_iff in E1 as [Ek Ew%negb_false_iff]. rewrite fmap_cons, filter_cons_True by done. cbn [snd].
    rewrite filter_cons. destruct (decide (recent now t = true)) as [Er|Er].
    + rewrite decide_True by (unfold eligible_entry; cbn; by rewrite Ek, Ew, Er).
      rewrite !fmap_cons. cbn [snd]. by f_equiv.
    + rewrite decide_False; [exact IH|]. unfold eligible_entry; cbn. by rewrite Ek, Ew.
  - rewrite decide_False; [exact IH|]. unfold eligible_entry; cbn. intros E2. apply E1.
    destruct (bool_decide (k = "")), (well_formed t); done.
Qed.

(** What pruning makes of the tactics of a domain endpoint. *)
Record pruned (now : Z) (m out : gmap string (option statsTactic)) : Prop := {
  pruned_size : (size out ≤ maxEntriesPerDomainEndpoint)%nat;
  pruned_entries k t : out !! k = Some t → key_of t = k ∧ ∃ k', eligible now m !! k' = Some t;
  pruned_exact : keyed m → (size (eligible now m) ≤ maxEntriesPerDomainEndpoint)%nat → out = eligible now m;
  pruned_full : keyed m → (maxEntriesPerDomainEndpoint < size (eligible now m))%nat →
    out ⊆ eligible now m ∧ size out = maxEntriesPerDomainEndpoint;
}.

Lemma keyed_candidates now m :
  keyed m → pairs (candidates now m) ≡ₚ map_to_list (eligible now m).
Proof.
  intros Hk. rewrite candidates_perm. rewrite (Forall_fmap_ext_1 _ id), list_fmap_id; [done|].
  apply Forall_forall. intros [k t] He%elem_of_map_to_list.
  unfold eligible, eligible_entry in He. apply map_lookup_filter_Some in He as [He Hb]. cbn [fst snd] in *.
  assert (Hw : well_formed t = true) by (destruct (well_formed t); [done|by rewrite andb_false_r in Hb]).
  cbn [snd id]. by rewrite <-(Hk k t He Hw).
Qed.

Lemma cut_pruned now m :
  pruned now m (foldl (λ m '(k, t), <[k := t]> m) ∅
    (pairs (take maxEntriesPerDomainEndpoint (candidates now m)))).
Proof.
  assert (Hperm := keyed_candidates now m).
  assert (Hnd : keyed m → NoDup (pairs (candidates now m)).*1)
    by (intros Hk; rewrite (Hperm Hk); apply NoDup_fst_map_to_list).
  assert (Hlen : keyed m → length (candidates now m) = size (eligible now m)).
  { intros Hk. rewrite <-(length_fmap (λ t, (key_of t, t))).
    change (_ <$> _) with (pairs (candidates now m)). rewrite (Permutation_length (Hperm Hk)). apply length_map_to_list. }
  assert (Htake : keyed m → NoDup (pairs (take maxEntriesPerDomainEndpoint (candidates now m))).*1).
  { intros Hk. eapply sublist_NoDup; [exact (Hnd Hk)|]. apply fmap_sublist, fmap_sublist, sublist_take. }
  split.
  - etrans; [apply foldl_insert_size|]. rewrite map_size_empty. unfold pairs. rewrite length_fmap, length_take. lia.
  - intros k t [Hin|Hin]%foldl_insert_elem; [|done]. unfold pairs in Hin.
    apply list_elem_of_fmap in Hin as (t' & [= -> ->] & Hin). split; [done|].
    apply candidates_elem. by eapply elem_of_sublist; [|apply sublist_take].
  - intros Hk Hs. rewrite take_ge by (rewrite Hlen by done; lia). apply foldl_rebuild. by apply Hperm.
  - intros Hk Hs. rewrite foldl_insert_list by auto. split.
    + apply map_subseteq_spec. intros k t Hin%elem_of_list_to_map_2.
      apply elem_of_map_to_list. rewrite <-(Hperm Hk). unfold pairs in *.
      rewrite list_elem_of_fmap in Hin |- *. destruct Hin as (t' & E & Hin). exists t'. split; [done|].
      by eapply elem_of_sublist; [|apply sublist_take].
    + rewrite <-length_map_to_list, (Permutation_length (map_to_list_to_map _ (Htake Hk))). unfold pairs.
      rewrite length_fmap, length_take, (Hlen Hk). lia.
Qed.

Lemma prune_endpoint now de :
  ∃ out, statsDomainEndpointPruneEntries now de = Ok {| Tactics := Some out |} ∧
         pruned now (map_of (Tactics de)) out.
Proof.
  eexists. split; [|apply cut_pruned]. unfold statsDomainEndpointPruneEntries.
  set (m := map_of (Tactics de)).
  erewrite (foldl_ext_elem _ (λ tactics e,
    if bool_decide (e.1 = "") || negb (well_formed e.2) then tactics else tactics ++ [e.2])) by by intros ? [] ?.
  assert (E : ∀ l acc, foldl (λ tactics (e : string * option statsTactic),
    if bool_decide (e.1 = "") || negb (well_formed e.2) then tactics else tactics ++ [e.2]) acc l =
    acc ++ (snd <$> filter (λ e, (bool_decide (e.1 = "") || negb (well_formed e.2)) = false) l)).
  { induction l as [|e l IH]; intros acc; cbn [foldl]; [by rewrite app_nil_r|].
    rewrite IH, filter_cons. destruct (_ || _) eqn:Eb; [by rewrite decide_False|].
    rewrite decide_True by done. rewrite fmap_cons. by rewrite <-app_assoc. }
  rewrite E. cbn [app]. fold (candidates now m).
  assert (Hcut : (if (maxEntriesPerDomainEndpoint <? length (candidates now m))%nat
    then take maxEntriesPerDomainEndpoint (candidates now m) else candidates now m) =
    take maxEntriesPerDomainEndpoint (candidates now m)).
  { destruct (Nat.ltb_spec maxEntriesPerDomainEndpoint (length (candidates now m))); [done|].
    by rewrite take_ge. }
  rewrite Hcut, keep_tactic_fold; [done|].
  intros t Ht. eapply elem_of_sublist in Ht; [|apply sublist_take].
  apply candidates_elem in Ht as [k He]. unfold eligible, eligible_entry in He.
  apply map_lookup_filter_Some in He as [_ Hb]. cbn in Hb.
  destruct (well_formed t); [done|by rewrite andb_false_r in Hb].
Qed.
End prune.

(** ** Pruning a container *)

Definition endpoint_tactics (o : option (option statsDomainEndpoint)) : gmap string (option statsTactic) :=
  match o with
  | Some (Some de) => map_of (Tactics de)
  | _ => ∅
  end.

(** What pruning makes of a domain endpoint: nothing when no tactic stays. *)
Definition pruned_endpoint (now : Z) (e : string) (o r : option (option statsDomainEndpoint)) : Prop :=
  ∃ out, pruned now (endpoint_tactics o) out ∧
         r = if decide (e = "" ∨ out = ∅) then None else Some (Some {| Tactics := Some out |}).

Lemma pruned_empty now out : pruned now ∅ out → out = ∅.
Proof.
  intros Hp. apply map_empty. intros k. destruct (out !! k) as [t|] eqn:E; [|done].
  apply (pruned_entries _ _ _ Hp) in E as (_ & k' & E). unfold eligible in E.
  by rewrite map_filter_empty in E.
Qed.

Lemma empty_pruned now : pruned now ∅ ∅.
Proof.
  split; rewrite ?map_size_empty.
  - lia.
  - done.
  - intros _ _. unfold eligible. by rewrite map_filter_empty.
  - intros _. unfold eligible. rewrite map_filter_empty, map_size_empty. lia.
Qed.

Section prune_container.
Context `{RangeOrder} `{StableSort}.

Lemma prune_turn_step now c M e x :
  DomainEndpoints c = Some M → M !! e = None →
  ∃ M', prune_turn now c (e, x) = Ok (c <| DomainEndpoints := Some M' |>) ∧
        pruned_endpoint (now e) e (Some x) (M' !! e) ∧ ∀ e', e' ≠ e → M' !! e' = M !! e'.
Proof.
  intros Hc He. unfold prune_turn, pruned_endpoint.
  assert (Hc' : c = c <| DomainEndpoints := Some M |>) by (destruct c; cbn in *; by subst).
  destruct x as [de|]; [|exists M; split; [by rewrite <-Hc'|]; split; [|done]; exists ∅;
    split; [apply empty_pruned|by rewrite decide_True by tauto]].
  cbn [endpoint_tactics]. destruct (bool_decide_reflect (e = "")) as [->|Hne].
  { exists M. split; [by rewrite <-Hc'|]. split; [|done].
    destruct (prune_endpoint (now "") de) as (out & _ & Hout). exists out. split; [done|].
    by rewrite decide_True by tauto. }
  cbn [orb]. destruct (Nat.leb_spec (size (map_of (Tactics de))) 0) as [Hs|Hs].
  { assert (map_of (Tactics de) = ∅) as -> by (apply map_size_empty_inv; lia).
    exists M. split; [by rewrite <-Hc'|]. split; [|done]. exists ∅. split; [apply empty_pruned|].
    by rewrite decide_True by tauto. }
  destruct (prune_endpoint (now e) de) as (out & -> & Hout). cbn [mbind outcome_bind].
  change (map_of (Tactics {| Tactics := Some out |})) with out.
  destruct (Nat.leb_spec (size out) 0) as [Ho|Ho].
  { assert (out = ∅) as -> by (apply map_size_empty_inv; lia).
    exists M. split; [by rewrite <-Hc'|]. split; [|done]. exists ∅. split; [done|].
    by rewrite decide_True by tauto. }
  rewrite Hc. exists (<[e := Some {| Tactics := Some out |}]> M). split; [done|]. split.
  - exists out. split; [done|]. rewrite lookup_insert_eq, decide_False; [done|].
    intros [?| ->]; [done|]. rewrite map_size_empty in Ho. lia.
  - intros e' He'. by apply lookup_insert_ne.
Qed.

Lemma prune_container now c :
  ∃ M, statsContainerPruneEntries now c = Ok {| DomainEndpoints := Some M; Version := statsContainerVersion |} ∧
       ∀ e, pruned_endpoint (now e) e (map_of (DomainEndpoints c) !! e) (M !! e).
Proof.
  unfold statsContainerPruneEntries. set (D := map_of (DomainEndpoints c)).
  assert (Hnd : NoDup (range_map 24 D).*1) by (rewrite range_map_perm; apply NoDup_fst_map_to_list).
  destruct (foldM_loop (prune_turn now) (λ pre s, ∃ M,
      s = {| DomainEndpoints := Some M; Version := statsContainerVersion |} ∧
      (∀ e, e ∈ pre.*1 → pruned_endpoint (now e) e (D !! e) (M !! e)) ∧ ∀ e, e ∉ pre.*1 → M !! e = None)
    newStatsContainer (range_map 24 D)) as (s & Hs & M & -> & Hin & Hout).
  - exists ∅. split_and!; [done|intros e He; by apply not_elem_of_nil in He|intros; apply lookup_empty].
  - intros pre [e x] post s Hl (M & -> & Hin & Hout).
    assert (He : D !! e = Some x) by (apply (range_map_elem 24); rewrite Hl; set_solver).
    rewrite Hl, fmap_app, fmap_cons in Hnd. apply NoDup_app in Hnd as (_ & Hdis & _).
    assert (Hpre : e ∉ pre.*1) by (intros Hx; apply (Hdis e Hx); set_solver).
    destruct (prune_turn_step now (mkStatsContainer (Some M) statsContainerVersion) M e x eq_refl (Hout e Hpre)) as (M' & -> & Hp & Hsame).
    eexists. split; [done|]. exists M'. split; [done|]. rewrite fmap_app. cbn [fmap list_fmap fst].
    split; intros e'; rewrite elem_of_app, list_elem_of_singleton.
    + intros [Hx| ->]; [|by rewrite He]. rewrite Hsame by (intros ->; done). by apply Hin.
    + intros Hx. rewrite Hsame by tauto. apply Hout. tauto.
  - exists M. split; [done|]. intros e. destruct (decide (e ∈ (range_map 24 D).*1)) as [He|He]; [by apply Hin|].
    rewrite Hout by done. assert (HD : D !! e = None).
    { destruct (D !! e) as [x|] eqn:E; [|done]. destruct He. apply (range_map_elem 24) in E.
      apply list_elem_of_fmap. by exists (e, x). }
    rewrite HD. exists ∅. split; [apply empty_pruned|]. by rewrite decide_True by tauto.
Qed.
End prune_container.
