(* ===== verification/NetStatsTheorems.v ===== *)
(** * Engine network: the statistics manager is correct

    A run of the manager is a sequence of calls and of ticks of the background
    trimmer, in the order in which they lock the mutex.  Against the container as
    a table of records, one per domain endpoint and tactic, each handler is an
    update of one record. *)
From S2P Require Import Prelude GoSort GoFloat GoString NetTactics NetStats NetStatsFacts.

(** ** Runs *)

(** The calls of [httpsDialerEventsHandler], with [ctx.Err()] and [err]. *)
Inductive stats_event :=
  | EvStarting (tactic : httpsDialerTactic)
  | EvTCPConnectError (ctx_Err : option string) (tactic : httpsDialerTactic) (err : option string)
  | EvTLSHandshakeError (ctx_Err : option string) (tactic : httpsDialerTactic) (err : option string)
  | EvTLSVerifyError (tactic : httpsDialerTactic) (err : option string)
  | EvSuccess (tactic : httpsDialerTactic).

Definition handle (c : statsContainer) (call : Z * stats_event) : outcome statsContainer :=
  let '(now, ev) := call in
  match ev with
  | EvStarting tactic => OnStarting now tactic c
  | EvTCPConnectError ctx_Err tactic err => OnTCPConnectError now ctx_Err tactic err c
  | EvTLSHandshakeError ctx_Err tactic err => OnTLSHandshakeError now ctx_Err tactic err c
  | EvTLSVerifyError tactic err => OnTLSVerifyError now tactic err c
  | EvSuccess tactic => OnSuccess now tactic c
  end.

Definition event_tactic (ev : stats_event) : httpsDialerTactic :=
  match ev with
  | EvStarting t | EvTCPConnectError _ t _ | EvTLSHandshakeError _ t _ | EvTLSVerifyError t _ | EvSuccess t => t
  end.

(** The contract of the callers: an error handler gets an error. *)
Definition event_ok (ev : stats_event) : Prop :=
  match ev with
  | EvTCPConnectError _ _ err | EvTLSHandshakeError _ _ err | EvTLSVerifyError _ err => is_Some err
  | _ => True
  end.

Definition event_err (ev : stats_event) : string :=
  match ev with
  | EvTCPConnectError _ _ err | EvTLSHandshakeError _ _ err | EvTLSVerifyError _ err => default "" err
  | _ => ""
  end.

(** ** The container as a table of records *)

Definition tactic_keys (t : httpsDialerTactic) : string * string := (domainEndpointKey t, tacticSummaryKey t).

Definition record_at (c : statsContainer) (p : string * string) : option statsTactic :=
  match map_of (DomainEndpoints c) !! p.1 with
  | Some (Some de) => mjoin (map_of (Tactics de) !! p.2)
  | _ => None
  end.

(** The effect of a call on the record of its tactic. *)
Definition apply_event (now : Z) (ev : stats_event) (o : option statsTactic) : option statsTactic :=
  match ev with
  | EvStarting t => Some ((default (newStatsTactic t) o) <| CountStarted ::= incr |> <| LastUpdated := now |>)
  | EvTCPConnectError ctx_Err _ _ => (λ st,
      let st := st <| LastUpdated := now |> in
      match ctx_Err with
      | Some _ => st <| CountTCPConnectInterrupt ::= incr |>
      | None => st <| CountTCPConnectError ::= incr |>
                   <| HistoTCPConnectError ::= statsSafeIncrementMapStringInt64 (event_err ev) |>
      end) <$> o
  | EvTLSHandshakeError ctx_Err _ _ => (λ st,
      let st := st <| LastUpdated := now |> in
      match ctx_Err with
      | Some _ => st <| CountTLSHandshakeInterrupt ::= incr |>
      | None => st <| CountTLSHandshakeError ::= incr |>
                   <| HistoTLSHandshakeError ::= statsSafeIncrementMapStringInt64 (event_err ev) |>
      end) <$> o
  | EvTLSVerifyError _ _ => (λ st, st <| CountTLSVerificationError ::= incr |>
      <| HistoTLSVerificationError ::= statsSafeIncrementMapStringInt64 (event_err ev) |>
      <| LastUpdated := now |>) <$> o
  | EvSuccess _ => (λ st, st <| CountSuccess ::= incr |> <| LastUpdated := now |>) <$> o
  end.

(** ** The invariant *)

Definition tactics_ok (m : gmap string (option statsTactic)) : Prop :=
  ∀ k t, m !! k = Some t → well_formed t = true ∧ key_of t = k.

Record stats_ok (c : statsContainer) : Prop := {
  ok_version : Version c = statsContainerVersion;
  ok_entries : ∃ M, DomainEndpoints c = Some M ∧
    ∀ e x, M !! e = Some x → ∃ m, x = Some {| Tactics := Some m |} ∧ tactics_ok m;
}.

Lemma newStatsContainer_ok : stats_ok newStatsContainer.
Proof. split; [done|]. exists ∅. split; [done|]. intros e x. by rewrite lookup_empty. Qed.

Lemma tactics_ok_keyed m : tactics_ok m → keyed m.
Proof. intros Hm k t Hk _. symmetry. apply (Hm k t Hk). Qed.

(** The entry of a tactic in a well-formed container. *)
Lemma stats_get c t :
  stats_ok c → GetStatsTacticLocked c t = Some <$> record_at c (tactic_keys t).
Proof.
  intros [_ (M & HM & Hok)]. unfold GetStatsTacticLocked, record_at, tactic_keys. rewrite HM. cbn [map_of default from_option id fst snd].
  destruct (M !! domainEndpointKey t) as [x|] eqn:E; [|done].
  destruct (Hok _ _ E) as (m & -> & Hm). unfold map_of. cbn.
  destruct (m !! tacticSummaryKey t) as [r|] eqn:Er; [|done].
  destruct (Hm _ _ Er) as [Hw _]. by destruct r.
Qed.

(** A container with one record replaced. *)
Definition table_update (c : statsContainer) (t : httpsDialerTactic) (st : statsTactic) (c' : statsContainer) : Prop :=
  stats_ok c' ∧ ∀ p, record_at c' p = if decide (p = tactic_keys t) then Some st else record_at c p.

Lemma write_record_update c t st old :
  stats_ok c → record_at c (tactic_keys t) = Some old →
  tactic_of (Some st) = tactic_of (Some old) → table_update c t st (write_record t st c).
Proof.
  intros [Hv (M & HM & Hok)] Hold Ht. unfold record_at, tactic_keys in Hold. rewrite HM in Hold.
  cbn [map_of default from_option id fst snd] in Hold.
  destruct (M !! domainEndpointKey t) as [x|] eqn:E; [|done].
  destruct (Hok _ _ E) as (m & -> & Hm). unfold map_of in Hold. cbn in Hold.
  destruct (m !! tacticSummaryKey t) as [r|] eqn:Er; [|done]. cbn in Hold. subst r.
  set (m' := <[tacticSummaryKey t := Some st]> m).
  assert (Hw : DomainEndpoints (write_record t st c) =
    Some (<[domainEndpointKey t := Some {| Tactics := Some m' |}]> M)).
  { unfold write_record. destruct c as [D V]. cbn in HM |- *. subst D. cbn. f_equal.
    apply map_eq. intros e. destruct (decide (e = domainEndpointKey t)) as [->|He].
    - rewrite lookup_alter_eq, lookup_insert_eq, E. cbn. do 4 f_equal. subst m'.
      apply map_eq. intros k. destruct (decide (k = tacticSummaryKey t)) as [->|Hk].
      + by rewrite lookup_alter_eq, lookup_insert_eq, Er.
      + by rewrite lookup_alter_ne, lookup_insert_ne.
    - by rewrite lookup_alter_ne, lookup_insert_ne. }
  split.
  - split; [exact Hv|]. eexists. split; [exact Hw|]. intros e x [[<- <-]|[He Hx]]%lookup_insert_Some; [|eauto].
    exists m'. split; [done|]. intros k r [[<- <-]|[Hk Hr]]%lookup_insert_Some; [|eauto].
    destruct (Hm _ _ Er) as [Hwf Hkey]. unfold key_of. rewrite Ht. split; [|done].
    apply well_formed_spec in Hwf as (st' & tac & [= <-] & Htac). apply well_formed_spec.
    exists st, tac. cbn in Ht. by rewrite Ht, Htac.
  - intros [e k]. unfold record_at. rewrite Hw, HM. unfold map_of, tactic_keys. cbn [default fst snd from_option id].
    destruct (decide ((e, k) = _)) as [[= -> ->]|Hp].
    + rewrite lookup_insert_eq. cbn. subst m'. by rewrite lookup_insert_eq.
    + destruct (decide (e = domainEndpointKey t)) as [->|He].
      * rewrite lookup_insert_eq, E. cbn. subst m'. rewrite lookup_insert_ne; [done|congruence].
      * by rewrite lookup_insert_ne.
Qed.

Lemma set_update c t st :
  stats_ok c → record_at c (tactic_keys t) = None → tactic_of (Some st) = Some (tactic_Clone t) →
  ∃ c', SetStatsTacticLocked c t (Some st) = Ok c' ∧ table_update c t st c'.
Proof.
  intros [Hv (M & HM & Hok)] Hnone Ht. destruct c as [D V]. cbn in HM, Hv. subst D V.
  unfold record_at, tactic_keys in Hnone. cbn [DomainEndpoints map_of default from_option id fst snd] in Hnone.
  assert (Hkey : well_formed (Some st) = true ∧ key_of (Some st) = tacticSummaryKey t).
  { unfold key_of. rewrite Ht. split; [|by destruct t]. cbn in Ht. cbn. by rewrite Ht. }
  assert (Hdone : ∀ m : gmap string (option statsTactic), tactics_ok m →
    (∀ k, mjoin (m !! k) = record_at {| DomainEndpoints := Some M; Version := statsContainerVersion |} (domainEndpointKey t, k)) →
    table_update {| DomainEndpoints := Some M; Version := statsContainerVersion |} t st
      {| DomainEndpoints := Some (<[domainEndpointKey t := Some {| Tactics := Some (<[tacticSummaryKey t := Some st]> m) |}]> M);
         Version := statsContainerVersion |}).
  { intros m Hm Hrec. split.
    - split; [done|]. eexists. split; [done|]. intros e x [[<- <-]|[He Hx]]%lookup_insert_Some; [|eauto].
      eexists. split; [done|]. intros k r [[<- <-]|[Hk Hr]]%lookup_insert_Some; eauto.
    - intros [e k]. unfold tactic_keys. destruct (decide ((e, k) = _)) as [[= -> ->]|Hp].
      + unfold record_at. cbn. rewrite lookup_insert_eq. cbn. by rewrite lookup_insert_eq.
      + destruct (decide (e = domainEndpointKey t)) as [->|He].
        * rewrite <-Hrec. unfold record_at. cbn. rewrite lookup_insert_eq. cbn.
          rewrite lookup_insert_ne; [done|congruence].
        * unfold record_at. cbn. by rewrite lookup_insert_ne. }
  unfold SetStatsTacticLocked. cbn [DomainEndpoints map_of default from_option id].
  destruct (M !! domainEndpointKey t) as [x|] eqn:E.
  - destruct (Hok _ _ E) as (m & -> & Hm). eexists. split; [done|]. apply Hdone; [done|].
    intros k. unfold record_at. cbn. by rewrite E.
  - set (c := if (size M <=? 0)%nat then _ else _).
    assert (c = {| DomainEndpoints := Some M; Version := statsContainerVersion |}) as ->.
    { subst c. destruct (Nat.leb_spec (size M) 0) as [Hs|Hs]; [|done].
      assert (M = ∅) as -> by (apply map_size_empty_inv; lia). done. }
    eexists. split; [done|]. rewrite <-(insert_empty (tacticSummaryKey t) (Some st)). apply Hdone.
    + intros k r. by rewrite lookup_empty.
    + intros k. rewrite lookup_empty. unfold record_at. cbn. by rewrite E.
Qed.

(** The result of a call, as the table of records: only the record of the
    tactic changes, as [apply_event] says. *)
Definition event_update (c : statsContainer) (now : Z) (ev : stats_event) (c' : statsContainer) : Prop :=
  stats_ok c' ∧ ∀ p, record_at c' p =
    if decide (p = tactic_keys (event_tactic ev)) then apply_event now ev (record_at c p) else record_at c p.

Lemma with_record_update c t f (g : statsTactic → statsTactic) :
  stats_ok c → (∀ st, f st = Ok (g st)) → (∀ st, Tactic (g st) = Tactic st) →
  ∃ c', with_record t c f = Ok c' ∧ stats_ok c' ∧
    ∀ p, record_at c' p = if decide (p = tactic_keys t) then g <$> record_at c p else record_at c p.
Proof.
  intros Hc Hf Hg. unfold with_record. rewrite stats_get by done.
  destruct (record_at c (tactic_keys t)) as [st|] eqn:E.
  - cbn. rewrite Hf. cbn. destruct (write_record_update c t (g st) st Hc E) as [Hok Hrec]; [cbn; by rewrite Hg|].
    eexists. split_and!; [done|done|]. intros p. rewrite Hrec. case_decide; [|done]. subst. by rewrite E.
  - exists c. split_and!; [done|done|]. intros p. case_decide; [|done]. subst. by rewrite E.
Qed.

Lemma OnStarting_update now t c :
  stats_ok c → ∃ c', OnStarting now t c = Ok c' ∧ event_update c now (EvStarting t) c'.
Proof.
  intros Hc. unfold OnStarting. rewrite stats_get by done.
  destruct (record_at c (tactic_keys t)) as [st|] eqn:E.
  - cbn. eexists. split; [done|]. set (st' := mkStatsTactic _ _ _ _ _ _ _ _ _ _ _ _).
    destruct (write_record_update c t st' st Hc E) as [Hok Hrec]; [by subst st'|].
    split; [done|]. intros p. rewrite Hrec. cbn [event_tactic]. case_decide; [|done]. subst p. by rewrite E.
  - destruct (set_update c t (newStatsTactic t) Hc E) as (c1 & Hset & Hok1 & Hrec1); [done|].
    cbn [fmap option_fmap option_map mbind outcome_bind]. rewrite Hset. cbn [mbind outcome_bind deref].
    eexists. split; [done|]. set (st' := (newStatsTactic t) <| CountStarted ::= incr |> <| LastUpdated := now |>).
    assert (E1 : record_at c1 (tactic_keys t) = Some (newStatsTactic t)) by by rewrite Hrec1, decide_True.
    destruct (write_record_update c1 t st' _ Hok1 E1) as [Hok Hrec]; [done|].
    split; [done|]. intros p. rewrite Hrec, Hrec1. cbn [event_tactic]. case_decide; [|done]. subst p. by rewrite E.
Qed.

Lemma handle_update now ev c :
  stats_ok c → event_ok ev → ∃ c', handle c (now, ev) = Ok c' ∧ event_update c now ev c'.
Proof.
  intros Hc Hev. destruct ev as [t|ctx_Err t err|ctx_Err t err|t err|t]; cbn [handle].
  - by apply OnStarting_update.
  - destruct Hev as [e ->]. destruct ctx_Err as [ctx_Err|]; by apply with_record_update.
  - destruct Hev as [e ->]. destruct ctx_Err as [ctx_Err|]; by apply with_record_update.
  - destruct Hev as [e ->]. by apply with_record_update.
  - by apply with_record_update.
Qed.

(** ** Pruning and loading establish the invariant *)

Lemma key_not_empty t : well_formed t = true → key_of t ≠ "".
Proof.
  intros (st & tac & -> & E)%well_formed_spec. unfold key_of, tactic_of. cbn. rewrite E. cbn.
  unfold tacticSummaryKey. destruct (JoinHostPort _ _); done.
Qed.

Lemma eligible_spec now m k t :
  eligible now m !! k = Some t ↔ m !! k = Some t ∧ k ≠ "" ∧ well_formed t = true ∧ recent now t = true.
Proof.
  unfold eligible, eligible_entry. rewrite map_lookup_filter_Some. cbn.
  destruct (bool_decide_reflect (k = "")), (well_formed t), (recent now t); naive_solver.
Qed.

Lemma pruned_tactics_ok now m out : pruned now m out → tactics_ok out.
Proof.
  intros Hp k t Hk. apply (pruned_entries _ _ _ Hp) in Hk as (Hkey & k' & He).
  apply eligible_spec in He. tauto.
Qed.

Section runs.
Context `{RangeOrder} `{StableSort}.

Lemma prune_ok now c : ∃ c', statsContainerPruneEntries now c = Ok c' ∧ stats_ok c'.
Proof.
  destruct (prune_container now c) as (M & -> & Hp). eexists. split; [done|]. split; [done|].
  exists M. split; [done|]. intros e x Hx. destruct (Hp e) as (out & Hout & HM). rewrite Hx in HM.
  case_decide; [done|]. injection HM as ->. exists out. split; [done|]. by eapply pruned_tactics_ok.
Qed.

(** A step of a run: a call, or a tick of the trimmer. *)
Inductive manager_op :=
  | OpCall (now : Z) (ev : stats_event)
  | OpTrim (now : string → Z).

Definition perform_op (mt : statsManager) (op : manager_op) : outcome statsManager :=
  match op with
  | OpCall now ev => (λ c, mt <| sm_container := c |>) <$> handle (sm_container mt) (now, ev)
  | OpTrim now => trim_tick now mt
  end.

Definition op_ok (op : manager_op) : Prop :=
  match op with OpCall _ ev => event_ok ev | OpTrim _ => True end.

Lemma foldM_ok {S A} (body : S → A → outcome S) (I : S → Prop) s l :
  I s → (∀ s x, x ∈ l → I s → ∃ s', body s x = Ok s' ∧ I s') → ∃ s', foldM body s l = Ok s' ∧ I s'.
Proof.
  intros Hs Hbody. apply (foldM_loop body (λ _ s, I s)); [done|].
  intros pre x post s' -> HI. apply Hbody; [set_solver|done].
Qed.

Lemma perform_op_ok mt op :
  stats_ok (sm_container mt) → op_ok op → ∃ mt', perform_op mt op = Ok mt' ∧ stats_ok (sm_container mt').
Proof.
  intros Hok Hop. destruct op as [now ev|now]; cbn.
  - destruct (handle_update now ev _ Hok Hop) as (c' & Hh & Hc' & _). cbn in Hh. rewrite Hh. by eexists.
  - unfold trim_tick. destruct (prune_ok now (sm_container mt)) as (c' & -> & Hc'). by eexists.
Qed.

Lemma stats_LookupTactics_ok c domain port :
  stats_ok c → ∃ out good, stats_LookupTactics c domain port = Ok (out, good) ∧
    good = (0 <? length out)%nat ∧
    ∀ t, t ∈ out ↔ ∃ k st, t = Some st ∧ record_at c (JoinHostPort domain port, k) = Some st.
Proof.
  intros [_ (M & HM & Hok)]. unfold stats_LookupTactics, record_at. rewrite HM.
  cbn [map_of default from_option id fst snd]. destruct (M !! JoinHostPort domain port) as [x|] eqn:E.
  2: { exists [], false. split_and!; [done..|]. intros t. rewrite elem_of_nil. split; [done|]. by intros (k & st & _ & ?). }
  destruct (Hok _ _ E) as (m & -> & Hm). cbn [Tactics map_of default from_option id].
  set (l := range_map 25 m). exists (l.*2), (0 <? length l.*2)%nat.
  assert (Hl : ∀ acc, foldM (λ out '(_, entry), st ← deref entry; Ok (out ++ [Some (statsTactic_Clone st)])) acc l =
    Ok (acc ++ l.*2)).
  { intros acc. rewrite (foldM_pure _ (λ out e, out ++ [e.2])); [by rewrite foldl_append|].
    intros out [k t] He. apply range_map_elem in He. destruct (Hm _ _ He) as [Hw _].
    destruct t as [st|]; [|done]. cbn. by rewrite statsTactic_Clone_id. }
  rewrite Hl. split_and!; [done..|]. intros t. subst l. rewrite range_map_values. split.
  - intros [k Hk]. destruct (Hm _ _ Hk) as [Hw _]. destruct t as [st|]; [|done]. exists k, st. by rewrite Hk.
  - intros (k & st & -> & Hk). exists k. by destruct (m !! k) as [[]|]; simplify_eq/=.
Qed.

(** C12: whatever the file on disk says, however it was edited and whenever the trimmer
    runs: no call of the statistics manager panics, the manager can always be queried and closed, and its
    container stays well formed (no nil, every record under the key of its tactic). *)
Theorem stats_never_panic {bytes} (json_Unmarshal : bytes → result string statsContainer)
    (json_Marshal : statsContainer → bytes) now kvStore_Get trimInterval ops
    (Htrim : 0 < trimInterval) (Hops : Forall op_ok ops) :
  ∃ mt, (mt ← newStatsManager json_Unmarshal now kvStore_Get trimInterval; foldM perform_op mt ops) = Ok mt ∧
    stats_ok (sm_container mt) ∧
    (∀ domain port, is_Ok (stats_LookupTactics (sm_container mt) domain port)) ∧
    ∀ now err, is_Ok (Close json_Marshal now err mt).
Proof.
  assert (Hnew : ∃ mt, newStatsManager json_Unmarshal now kvStore_Get trimInterval = Ok mt ∧ stats_ok (sm_container mt)).
  { unfold newStatsManager, loadStatsContainer. apply Z.ltb_lt in Htrim as ->. cbn [Assert mbind outcome_bind].
    destruct (kvStore_Get statsKey) as [data|]; [|eexists; split; [done|apply newStatsContainer_ok]].
    destruct (json_Unmarshal data) as [c|]; [|eexists; split; [done|apply newStatsContainer_ok]].
    destruct (negb _); [eexists; split; [done|apply newStatsContainer_ok]|].
    destruct (prune_ok now c) as (c' & -> & Hc'). by eexists. }
  destruct Hnew as (mt0 & -> & Hmt0). cbn [mbind outcome_bind].
  destruct (foldM_ok perform_op (λ mt, stats_ok (sm_container mt)) mt0 ops) as (mt & -> & Hmt); [done|..].
  { intros mt op Hin Hmt. apply perform_op_ok; [done|]. rewrite Forall_forall in Hops. by apply Hops. }
  exists mt. split_and!; [done..| |].
  - intros domain port. destruct (stats_LookupTactics_ok (sm_container mt) domain port Hmt) as (out & good & -> & _). by eexists.
  - intros now' err. unfold Close. destruct (sm_closed mt); [by eexists|].
    destruct (prune_ok now' (sm_container mt)) as (c' & -> & _). by eexists.
Qed.
End runs.

(** ** The counters *)

Definition event_kind (ev : stats_event) : nat :=
  match ev with
  | EvStarting _ => 0
  | EvTCPConnectError None _ _ => 1
  | EvTCPConnectError (Some _) _ _ => 2
  | EvTLSHandshakeError None _ _ => 3
  | EvTLSHandshakeError (Some _) _ _ => 4
  | EvTLSVerifyError _ _ => 5
  | EvSuccess _ => 6
  end.

Definition counter (kind : nat) (st : statsTactic) : Z :=
  match kind with
  | 0 => CountStarted st
  | 1 => CountTCPConnectError st
  | 2 => CountTCPConnectInterrupt st
  | 3 => CountTLSHandshakeError st
  | 4 => CountTLSHandshakeInterrupt st
  | 5 => CountTLSVerificationError st
  | _ => CountSuccess st
  end%nat.

Definition about (p : string * string) (call : Z * stats_event) : bool :=
  bool_decide (tactic_keys (event_tactic call.2) = p).

Definition starts (p : string * string) (call : Z * stats_event) : bool :=
  about p call && Nat.eqb (event_kind call.2) 0.

(** The calls from the first start of a tactic. *)
Fixpoint since_start (p : string * string) (calls : list (Z * stats_event)) : list (Z * stats_event) :=
  match calls with
  | [] => []
  | call :: rest => if starts p call then calls else since_start p rest
  end.

(** How many calls of a kind are about a tactic. *)
Definition tally (p : string * string) (kind : nat) (calls : list (Z * stats_event)) : Z :=
  Z.of_nat (length (filter (λ call, about p call && Nat.eqb (event_kind call.2) kind = true) calls)).

Lemma since_start_snoc p calls call :
  since_start p (calls ++ [call]) =
  match since_start p calls with
  | [] => if starts p call then [call] else []
  | l => l ++ [call]
  end.
Proof.
  induction calls as [|x calls IH]; cbn; [by destruct (starts p call)|].
  destruct (starts p x); [done|exact IH].
Qed.

Lemma tally_snoc p kind calls call :
  tally p kind (calls ++ [call]) =
  tally p kind calls + (if about p call && Nat.eqb (event_kind call.2) kind then 1 else 0).
Proof.
  unfold tally. rewrite filter_app, length_app, filter_cons, filter_nil.
  destruct (about p call && _); [rewrite decide_True by done|rewrite decide_False by done]; cbn [length]; lia.
Qed.

Lemma incr_wrap64 n : incr (wrap64 n) = wrap64 (n + 1).
Proof. apply wrap64_succ. Qed.

(** An event adds one to the counter of its kind. *)
Lemma apply_event_counter now ev st :
  ∃ st', apply_event now ev (Some st) = Some st' ∧ LastUpdated st' = now ∧ Tactic st' = Tactic st ∧
    ∀ kind, (kind < 7)%nat → counter kind st' = if Nat.eqb (event_kind ev) kind then incr (counter kind st) else counter kind st.
Proof.
  destruct ev as [t|[e|] t err|[e|] t err|t err|t]; cbn [apply_event]; eexists; split_and!; try done;
    intros kind Hk; do 7 (destruct kind as [|kind]; [done|]); lia.
Qed.

Definition counted (p : string * string) (calls : list (Z * stats_event)) (o : option statsTactic) : Prop :=
  match o with
  | None => since_start p calls = []
  | Some st => since_start p calls ≠ [] ∧
      ∀ kind, (kind < 7)%nat → counter kind st = wrap64 (tally p kind (since_start p calls))
  end.

Lemma counted_skip p calls call o :
  about p call = false → counted p calls o → counted p (calls ++ [call]) o.
Proof.
  intros Ha. unfold counted. rewrite since_start_snoc. unfold starts. rewrite Ha. cbn [andb].
  destruct o as [st|]; [|by intros ->]. intros [Hne Hc]. destruct (since_start p calls) as [|x l] eqn:E; [done|].
  split; [by destruct l|]. intros kind Hk. rewrite tally_snoc, Ha. cbn [andb]. rewrite Z.add_0_r. by apply Hc.
Qed.

Lemma counted_event p calls now ev o :
  about p (now, ev) = true → counted p calls o → counted p (calls ++ [(now, ev)]) (apply_event now ev o).
Proof.
  intros Ha Hcount. destruct o as [st|].
  - destruct Hcount as [Hne Hc]. destruct (apply_event_counter now ev st) as (st' & -> & _ & _ & Hst').
    unfold counted. rewrite since_start_snoc. destruct (since_start p calls) as [|x l] eqn:E; [done|].
    split; [by destruct l|]. intros kind Hk. rewrite tally_snoc, Ha, Hst' by done. cbn [andb snd].
    destruct (Nat.eqb (event_kind ev) kind); [|rewrite Z.add_0_r; by apply Hc].
    by rewrite Hc, incr_wrap64.
  - unfold counted in Hcount. destruct ev as [t|[e|] t err|[e|] t err|t err|t]; cbn [apply_event fmap option_fmap option_map];
      unfold counted; rewrite since_start_snoc, Hcount; unfold starts; rewrite Ha; try done.
    cbn [andb snd event_kind Nat.eqb]. split; [done|]. intros kind Hk. unfold tally.
    rewrite filter_cons, Ha, filter_nil. cbn [andb snd event_kind].
    do 7 (destruct kind as [|kind]; [done|]). lia.
Qed.

(** without a trim, the counters of a tactic count the calls about it, by kind
    (starts, errors and interruptions of TCP and of TLS, verification errors, successes), since its
    first start, modulo 2^64; there is no record before the first start. *)
Theorem stats_count calls (Hcalls : Forall (λ call, event_ok call.2) calls) :
  ∃ c, foldM handle newStatsContainer calls = Ok c ∧ ∀ p, counted p calls (record_at c p).
Proof.
  cut (∃ c, foldM handle newStatsContainer calls = Ok c ∧ stats_ok c ∧ ∀ p, counted p calls (record_at c p)).
  { intros (c & ? & ? & ?). by exists c. }
  apply (foldM_loop handle (λ pre c, stats_ok c ∧ ∀ p, counted p pre (record_at c p))).
  { split; [apply newStatsContainer_ok|]. intros p. unfold record_at. cbn. by rewrite lookup_empty. }
  intros pre [now ev] post c -> [Hok Hcount]. rewrite Forall_forall in Hcalls.
  assert (Hev : event_ok ev) by (apply (Hcalls (now, ev)); set_solver).
  destruct (handle_update now ev c Hok Hev) as (c' & -> & Hok' & Hrec).
  eexists. split; [done|]. split; [done|]. intros p. rewrite Hrec. case_decide as Hp.
  - apply counted_event; [|done]. unfold about. cbn. by rewrite bool_decide_true.
  - apply counted_skip; [|done]. unfold about. cbn. by rewrite bool_decide_false.
Qed.

Definition sample_tactic : httpsDialerTactic :=
  mkTactic "162.55.247.208" 0 "443" "x.org" "api.ooni.io".

Lemma stats_count_witness :
  let calls := [(1, EvStarting sample_tactic); (2, EvSuccess sample_tactic); (3, EvStarting sample_tactic);
                (4, EvTCPConnectError None sample_tactic (Some "timeout"))] in
  Forall (λ call, event_ok call.2) calls ∧
  ∃ c, foldM handle newStatsContainer calls = Ok c ∧ ∀ p, counted p calls (record_at c p).
Proof.
  intros calls.
  assert (Hc : Forall (λ call, event_ok call.2) calls) by (repeat constructor; by eexists).
  split; [exact Hc|exact (stats_count calls Hc)].
Defined.

(** ** Pruning *)

(** The tactics of a domain endpoint. *)
Definition tactics_at (c : statsContainer) (e : string) : gmap string (option statsTactic) :=
  endpoint_tactics (map_of (DomainEndpoints c) !! e).

Lemma record_at_tactics c e k : record_at c (e, k) = mjoin (tactics_at c e !! k).
Proof.
  unfold record_at, tactics_at, endpoint_tactics. cbn.
  destruct (map_of (DomainEndpoints c) !! e) as [[de|]|]; [done|by rewrite lookup_empty..].
Qed.

Lemma stats_ok_tactics c e : stats_ok c → tactics_ok (tactics_at c e).
Proof.
  intros [_ (M & HM & Hok)]. unfold tactics_at. rewrite HM. cbn [map_of default from_option id].
  destruct (M !! e) as [x|] eqn:E; [|intros k t; cbn; by rewrite lookup_empty].
  by destruct (Hok _ _ E) as (m & -> & Hm).
Qed.

Lemma eligible_pruned now m out : pruned now m out → eligible now out = out.
Proof.
  intros Hp. apply map_eq. intros k. apply option_eq. intros t. rewrite eligible_spec. split; [tauto|].
  intros Hk. destruct (pruned_entries _ _ _ Hp k t Hk) as (Hkey & k' & (_ & _ & Hw & Hr)%eligible_spec).
  split_and!; try done. rewrite <-Hkey. by apply key_not_empty.
Qed.

Lemma pruned_twice now m out out' : pruned now m out → pruned now out out' → out' = out.
Proof.
  intros Hp Hp'. rewrite (pruned_exact _ _ _ Hp'); [by eapply eligible_pruned| |].
  - by eapply tactics_ok_keyed, pruned_tactics_ok.
  - erewrite eligible_pruned by done. apply (pruned_size _ _ _ Hp).
Qed.

Section pruning.
Context `{RangeOrder} `{StableSort}.

Lemma prune_idempotent now c c' :
  statsContainerPruneEntries now c = Ok c' → statsContainerPruneEntries now c' = Ok c'.
Proof.
  destruct (prune_container now c) as (M & -> & Hp). intros [= <-].
  destruct (prune_container now {| DomainEndpoints := Some M; Version := statsContainerVersion |}) as (M' & -> & Hp').
  do 3 f_equal. apply map_eq. intros e. destruct (Hp e) as (out & Hout & HM), (Hp' e) as (out' & Hout' & HM').
  cbn [DomainEndpoints map_of default from_option id] in Hout'. rewrite HM', HM.
  rewrite HM in Hout'. revert Hout'. destruct (decide (e = "" ∨ out = ∅)) as [Hc|Hc]; intros Hout'.
  - apply pruned_empty in Hout' as ->. by rewrite decide_True by tauto.
  - change (endpoint_tactics _) with out in Hout'. by rewrite (pruned_twice _ _ _ _ Hout Hout'), decide_False.
Qed.

Lemma prune_tactics_at now c c' e :
  statsContainerPruneEntries now c = Ok c' →
  ∃ out, pruned (now e) (tactics_at c e) out ∧ tactics_at c' e = if decide (e = "") then ∅ else out.
Proof.
  destruct (prune_container now c) as (M & -> & Hp). intros [= <-].
  destruct (Hp e) as (out & Hout & HM). exists out. split; [done|].
  unfold tactics_at. cbn [DomainEndpoints map_of default from_option id]. rewrite HM.
  destruct (decide (e = "")) as [He|He]; [by rewrite decide_True by tauto|].
  destruct (decide (out = ∅)) as [->|Ho]; [by rewrite decide_True by tauto|by rewrite decide_False by tauto].
Qed.

(** Pruning invents no record. *)
Lemma prune_records now c c' e k st :
  stats_ok c → statsContainerPruneEntries now c = Ok c' → record_at c' (e, k) = Some st →
  record_at c (e, k) = Some st ∧ recent (now e) (Some st) = true.
Proof.
  intros Hc Hprune. rewrite !record_at_tactics. destruct (prune_tactics_at _ _ _ e Hprune) as (out & Hout & ->).
  case_decide; [by rewrite lookup_empty|]. destruct (out !! k) as [t|] eqn:Ek; [|done]. intros Ht. cbn in Ht. subst t.
  destruct (pruned_entries _ _ _ Hout _ _ Ek) as (Hkey & k' & (Hin & _ & _ & Hr)%eligible_spec).
  destruct (stats_ok_tactics c e Hc _ _ Hin) as [_ Hkey']. subst k k'. by rewrite Hin.
Qed.

(** pruning keeps at most ten tactics per domain endpoint, all of them younger
    than a week and none of them changed; when at most ten are young it keeps them all, otherwise
    exactly ten; pruning again at the same time changes nothing. *)
Theorem prune_spec now c (Hc : stats_ok c) :
  ∃ c', statsContainerPruneEntries now c = Ok c' ∧ stats_ok c' ∧
    (∀ e k st, record_at c' (e, k) = Some st →
       record_at c (e, k) = Some st ∧ recent (now e) (Some st) = true) ∧
    (∀ e, (size (tactics_at c' e) ≤ 10)%nat) ∧
    (∀ e, e ≠ "" →
       let young := eligible (now e) (tactics_at c e) in
       if decide (size young ≤ 10)%nat then tactics_at c' e = young else size (tactics_at c' e) = 10%nat) ∧
    statsContainerPruneEntries now c' = Ok c'.
Proof.
  destruct (prune_ok now c) as (c' & Hprune & Hok'). exists c'. split_and!; [done|done|..].
  - intros e k st. by apply prune_records.
  - intros e. destruct (prune_tactics_at _ _ _ e Hprune) as (out & Hout & ->).
    case_decide; [rewrite map_size_empty; lia|]. apply (pruned_size _ _ _ Hout).
  - intros e He young. destruct (prune_tactics_at _ _ _ e Hprune) as (out & Hout & ->).
    rewrite (decide_False (P := e = "")) by done.
    pose proof (tactics_ok_keyed _ (stats_ok_tactics c e Hc)) as Hk. case_decide.
    + by apply (pruned_exact _ _ _ Hout).
    + apply (pruned_full _ _ _ Hout Hk). unfold maxEntriesPerDomainEndpoint. subst young. lia.
  - by eapply prune_idempotent.
Qed.
End pruning.

Lemma prune_spec_witness :
  stats_ok newStatsContainer ∧
  ∃ c', @statsContainerPruneEntries range_ascending go_insertion_sort (λ _, 5) newStatsContainer = Ok c' ∧ stats_ok c'.
Proof.
  split; [apply newStatsContainer_ok|].
  destruct (@prune_spec range_ascending go_insertion_sort (λ _, 5) newStatsContainer newStatsContainer_ok) as (c' & Hp & Hok & _).
  exists c'. split; [exact Hp|exact Hok].
Defined.

Lemma stats_never_panic_witness :
  let ops := [OpCall 1 (EvStarting sample_tactic); OpTrim (λ _, 2); OpCall 3 (EvSuccess sample_tactic)] in
  0 < 30 ∧ Forall op_ok ops ∧
  ∃ mt, (mt ← @newStatsManager range_ascending go_insertion_sort unit (λ _, Err "not a container") (λ _, 0) (λ _, Val tt) 30;
         foldM (@perform_op range_ascending go_insertion_sort) mt ops) = Ok mt ∧ stats_ok (sm_container mt).
Proof.
  intros ops.
  assert (H0 : 0 < 30) by lia. assert (Hops : Forall op_ok ops) by (by repeat constructor).
  split; [exact H0|]. split; [exact Hops|].
  destruct (@stats_never_panic range_ascending go_insertion_sort unit (λ _, Err "not a container") (λ _, tt)
    (λ _, 0) (λ _, Val tt) 30 ops H0 Hops) as (mt & E & Hok & _).
  exists mt. split; [exact E|exact Hok].
Defined.

(** The comparison of the statistics is not an order: two records can each come
    before the other.  The sorted list then depends on the order in which the
    map was visited, and the record with the lower success rate may come first. *)
Theorem stats_less_not_an_order `{StableSort} :
  let record started success :=
    Some ((newStatsTactic sample_tactic) <| CountStarted := started |> <| CountSuccess := success |>) in
  let always := record 1 1 in
  let mostly := record 100 90 in
  stats_less always mostly = true ∧ stats_less mostly always = true ∧
  SliceStable stats_less [always; mostly] = [mostly; always] ∧
  SliceStable stats_less [mostly; always] = [always; mostly].
Proof.
  intros record always mostly.
  split_and!; [by vm_compute..| |]; rewrite SliceStable_short by (cbn; lia); by vm_compute.
Qed.
