(* ===== verification/NetDialer.v ===== *)
(** * Engine network: dialing TLS

    [pkg/enginenetx/httpsdialer.go]: what a worker does with a tactic, how the
    sixteen workers and the collecting loop of [DialTLSContext] interact through
    unbuffered channels, and how the results are reduced to a connection or an error.
    Opening and closing a connection and telling the observer are recorded as actions. *)
From S2P Require Import Prelude Failures GoString GoNet NetErrors NetTactics NetStats.
From S2P Require Import NetStatsTheorems.

(** ** Waiting for a tactic *)

(** [httpsDialerWorkerZeroTime.Get]: the time it returns, which is also the new state. *)
Definition zero_time_Get (now t : Z) : Z := if t =? time_zero then now else t.

(** [ctx_Err] is the error of the context when it is done before the timer fires. *)
Definition httpsDialerTacticWaitReady (t0 now : Z) (ctx_Err : option error) (tactic : httpsDialerTactic) :
    outcome (option error) :=
  let deadline := t0 + InitialDelay tactic in
  let delta := time_Sub deadline now in
  if delta <=? 0 then Ok None
  else
    match ctx_Err with
    | None => Ok None
    | Some err => Some <$> NewTopLevelGenericErrWrapper (Some err)
    end.

(** ** Connections *)

(** A TLS connection: the number of the TCP connection it runs on, and [PeerCertificates]. *)
Record tlsConn := mkTLSConn { tc_conn : nat; tc_PeerCertificates : list string }.

Definition errNoPeerCertificate : error := ErrValue "errNoPeerCertificate" [] "no peer certificate".
Definition errEmptyVerifyHostname : error := ErrValue "errEmptyVerifyHostname" [] "empty VerifyHostname".

Inductive dial_action :=
  | DoOpen (conn : nat)
  | DoClose (conn : nat)
  | DoTell (ev : stats_event).

Section dial.
(** [cert.Verify(opts)] with the DNS name and the intermediates of the options. *)
Context (x509_Verify : string → string → list string → option error).

Definition httpsDialerVerifyCertificateChain (hostname : string) (conn : tlsConn) : outcome (option error) :=
  if bool_decide (hostname = "") then Ok (Some errEmptyVerifyHostname)
  else
    match tc_PeerCertificates conn with
    | [] => Ok (Some errNoPeerCertificate)
    | cert :: intermediates =>
        match x509_Verify cert hostname intermediates with
        | Some err => Some <$> NewErrWrapper (Some ClassifyTLSHandshakeError) TopLevelOperation (Some err)
        | None => Ok None
        end
    end.

(** What the network and the context do during one dial: the result of waiting, of the
    TCP connect, of the TLS handshake, and [ctx.Err()] when each error is reported. *)
Record dial_env := mkDialEnv {
  de_wait : option error;
  de_DialContext : result error nat;
  de_ctx_connect : option string;
  de_Handshake : result error (list string);
  de_ctx_handshake : option string;
}.

Definition dialTLS (env : dial_env) (tactic : httpsDialerTactic) :
    outcome (result error tlsConn * list dial_action) :=
  match de_wait env with
  | Some err => Ok (Err err, [])
  | None =>
      let log := [DoTell (EvStarting tactic)] in
      match de_DialContext env with
      | Err err =>
          Ok (Err err, log ++ [DoTell (EvTCPConnectError (de_ctx_connect env) tactic (Some (Error err)))])
      | Val tcpConn =>
          let log := log ++ [DoOpen tcpConn] in
          match de_Handshake env with
          | Err err =>
              let log := log ++ [DoTell (EvTLSHandshakeError (de_ctx_handshake env) tactic (Some (Error err)))] in
              Ok (Err err, log ++ [DoClose tcpConn])
          | Val certificates =>
              let tlsConn := mkTLSConn tcpConn certificates in
              err ← httpsDialerVerifyCertificateChain (VerifyHostname tactic) tlsConn;
              match err with
              | Some err =>
                  let log := log ++ [DoTell (EvTLSVerifyError tactic (Some (Error err)))] in
                  Ok (Err err, log ++ [DoClose (tc_conn tlsConn)])
              | None => Ok (Val tlsConn, log ++ [DoTell (EvSuccess tactic)])
              end
          end
      end
  end.

(** ** Reducing the results *)

Definition errDNSNoAnswer : outcome error :=
  NewErrWrapper (Some ClassifyResolverError) DNSRoundTripOperation (Some ErrOODNSNoAnswer).

(** The result, and the connections that are closed. *)
Definition httpsDialerReduceResult (connv : list tlsConn) (errorv : list error) :
    outcome (result error tlsConn * list dial_action) :=
  match connv with
  | c :: rest => Ok (Val c, (λ c, DoClose (tc_conn c)) <$> rest)
  | [] =>
      match errorv with
      | _ :: _ => Ok (Err (ErrJoin errorv), [])
      | [] => err ← errDNSNoAnswer; Ok (Err err, [])
      end
  end.

(** ** The workers and the collector *)

Definition parallelism : nat := 16.

(** A worker: at [range reader], inside of [dialTLS], at [writer <- result], at
    [joiner <- true], returned. *)
Inductive worker :=
  | AtReader
  | Dialing (tactic : httpsDialerTactic)
  | AtWriter (tactic : httpsDialerTactic) (res : result error tlsConn)
  | AtJoiner
  | Joined.

Record dialer := mkDialer {
  di_emitter : list httpsDialerTactic;
  di_workers : list worker;
  di_connv : list tlsConn;
  di_errorv : list error;
  di_numJoined : nat;
}.

Definition dialer_start (tactics : list httpsDialerTactic) : dialer :=
  mkDialer tactics (replicate parallelism AtReader) [] [] 0.

(** [case result := <-collector] *)
Definition collect (res : result error tlsConn) (d : dialer) : dialer :=
  match res with
  | Err err => d <| di_errorv ::= λ l, l ++ [err] |>
  | Val conn => d <| di_connv ::= λ l, l ++ [conn] |>
  end.

Definition set_worker (n : nat) (w : worker) (d : dialer) : dialer := d <| di_workers ::= <[n := w]> |>.

(** [dials t res]: [dialTLS] may answer [res] for the tactic [t]. *)
Inductive dialer_step (dials : httpsDialerTactic → result error tlsConn → Prop) : dialer → dialer → Prop :=
  (* for tactic := range reader *)
  | step_read d n tactic rest :
      di_workers d !! n = Some AtReader → di_emitter d = tactic :: rest →
      dialer_step dials d (set_worker n (Dialing tactic) (d <| di_emitter := rest |>))
  (* the emitter is closed and drained *)
  | step_drained d n :
      di_workers d !! n = Some AtReader → di_emitter d = [] →
      dialer_step dials d (set_worker n AtJoiner d)
  (* conn, err := hd.dialTLS(...) *)
  | step_dial d n tactic res :
      di_workers d !! n = Some (Dialing tactic) → dials tactic res →
      dialer_step dials d (set_worker n (AtWriter tactic res) d)
  (* writer <- result, received by the collecting loop *)
  | step_collect d n tactic res :
      di_workers d !! n = Some (AtWriter tactic res) → (di_numJoined d < parallelism)%nat →
      dialer_step dials d (collect res (set_worker n AtReader d))
  (* joiner <- true, received by the collecting loop *)
  | step_join d n :
      di_workers d !! n = Some AtJoiner → (di_numJoined d < parallelism)%nat →
      dialer_step dials d (set_worker n Joined d <| di_numJoined ::= S |>).

Inductive dialer_reachable (dials : httpsDialerTactic → result error tlsConn → Prop)
    (tactics : list httpsDialerTactic) : dialer → Prop :=
  | dialer_reachable_start : dialer_reachable dials tactics (dialer_start tactics)
  | dialer_reachable_step d d' :
      dialer_reachable dials tactics d → dialer_step dials d d' → dialer_reachable dials tactics d'.

(** ** A dial *)

Definition tells (log : list dial_action) : list stats_event :=
  omap (λ a, match a with DoTell ev => Some ev | _ => None end) log.
Definition opens (log : list dial_action) : list nat :=
  omap (λ a, match a with DoOpen c => Some c | _ => None end) log.
Definition closes (log : list dial_action) : list nat :=
  omap (λ a, match a with DoClose c => Some c | _ => None end) log.

Lemma NewErrWrapper_some c op err : op ≠ "" → ∃ e, NewErrWrapper (Some c) op (Some err) = Ok e.
Proof.
  intros Hop. unfold NewErrWrapper. simpl. destruct (errors_As as_ErrWrapper err) as [[[]]|]; [by eexists|].
  rewrite bool_decide_false by done. by eexists.
Qed.

Lemma verify_chain_spec hostname conn :
  ∃ err, httpsDialerVerifyCertificateChain hostname conn = Ok err ∧
    (err = None ↔ hostname ≠ "" ∧ ∃ cert rest, tc_PeerCertificates conn = cert :: rest ∧ x509_Verify cert hostname rest = None).
Proof.
  unfold httpsDialerVerifyCertificateChain. case_bool_decide as Hh; [eexists; split; [done|]; naive_solver|].
  destruct (tc_PeerCertificates conn) as [|cert rest]; [eexists; split; [done|]; naive_solver|].
  destruct (x509_Verify cert hostname rest) as [err|] eqn:E; [|eexists; split; [done|]; naive_solver].
  destruct (NewErrWrapper_some ClassifyTLSHandshakeError TopLevelOperation err) as [e ->]; [done|].
  eexists. split; [done|]. naive_solver.
Qed.

(** A dial only succeeds with a chain that verifies for the host of the tactic. *)
Definition verified (hostname : string) (conn : tlsConn) : Prop :=
  hostname ≠ "" ∧ ∃ cert rest, tc_PeerCertificates conn = cert :: rest ∧ x509_Verify cert hostname rest = None.

Lemma dialTLS_success env tactic conn log :
  dialTLS env tactic = Ok (Val conn, log) → verified (VerifyHostname tactic) conn.
Proof.
  unfold dialTLS. destruct (de_wait env); [done|]. destruct (de_DialContext env) as [tcp|]; [|done].
  destruct (de_Handshake env) as [certs|]; [|done].
  destruct (verify_chain_spec (VerifyHostname tactic) (mkTLSConn tcp certs)) as (err & -> & Herr). cbn [mbind outcome_bind].
  destruct err as [err|]; [done|]. intros [= <- <-]. by apply Herr.
Qed.

(** A dial never panics; if the tactic is ready it tells the observer that it starts
    and then exactly one outcome; it closes what it opened unless it succeeds; it succeeds exactly when the
    connect and the handshake succeed and the chain of the server verifies for the tactic's host. *)
Theorem dialTLS_spec env tactic :
  ∃ res log, dialTLS env tactic = Ok (res, log) ∧
    (if de_wait env is Some err then res = Err err ∧ log = []
     else ∃ outcome, tells log = [EvStarting tactic; outcome] ∧ event_tactic outcome = tactic ∧ event_ok outcome ∧
            (event_kind outcome ≠ 0)%nat ∧ (event_kind outcome = 6%nat ↔ ∃ conn, res = Val conn)) ∧
    (∀ conn, res = Val conn ↔
       de_wait env = None ∧ de_DialContext env = Val (tc_conn conn) ∧ de_Handshake env = Val (tc_PeerCertificates conn) ∧
       VerifyHostname tactic ≠ "" ∧
       ∃ cert rest, tc_PeerCertificates conn = cert :: rest ∧ x509_Verify cert (VerifyHostname tactic) rest = None) ∧
    (if res is Val conn then opens log = [tc_conn conn] ∧ closes log = [] else closes log = opens log).
Proof.
  unfold dialTLS. destruct (de_wait env) as [err|] eqn:Ew.
  { exists (Err err), []. split_and!; [done..|naive_solver|done]. }
  destruct (de_DialContext env) as [tcp|err] eqn:Ec.
  2: { eexists _, _. split; [done|]. split_and!; [|naive_solver|done].
       eexists. split; [done|]. split_and!; [done|by eexists| |]; cbn; destruct (de_ctx_connect env); naive_solver. }
  destruct (de_Handshake env) as [certs|err] eqn:Eh.
  2: { eexists _, _. split; [done|]. split_and!; [|naive_solver|done].
       eexists. split; [done|]. split_and!; [done|by eexists| |]; cbn; destruct (de_ctx_handshake env); naive_solver. }
  destruct (verify_chain_spec (VerifyHostname tactic) (mkTLSConn tcp certs)) as (err & -> & Herr). cbn [mbind outcome_bind].
  cbn [tc_PeerCertificates] in Herr. destruct err as [err|].
  - eexists _, _. split; [done|]. split_and!; [|naive_solver|done].
    eexists. split; [done|]. split_and!; [done|by eexists|done|]. cbn. naive_solver.
  - eexists _, _. split; [done|]. split_and!; [| |done|done].
    + eexists. split; [done|]. split_and!; [done..|]. naive_solver.
    + destruct (proj1 Herr eq_refl) as (Hne & Hcert). intros conn. split.
      * intros [= <-]. by split_and!.
      * intros (_ & [= E1] & [= E2] & _). destruct conn as [id pc]. cbn in *. by subst.
Qed.
End dial.

(** ** Engine network: the dialer answers

    The workers and the collecting loop cannot deadlock, terminate, and leave one result
    per tactic. *)

(** ** Lists of workers *)

Lemma insert_split {A} (l : list A) n x :
  l !! n = Some x → ∃ l1 l2, l = l1 ++ x :: l2 ∧ ∀ y, <[n := y]> l = l1 ++ y :: l2.
Proof.
  intros Hx. exists (take n l), (drop (S n) l). split; [by rewrite take_drop_middle|].
  intros y. rewrite insert_take_drop by (by eapply lookup_lt_Some). done.
Qed.

(** The tactics that workers are busy with. *)
Definition busy (w : worker) : list httpsDialerTactic :=
  match w with Dialing t | AtWriter t _ => [t] | _ => [] end.

Definition weight (w : worker) : nat :=
  match w with AtReader => 2 | Dialing _ => 4 | AtWriter _ _ => 3 | AtJoiner => 1 | Joined => 0 end.

Definition joined (w : worker) : nat := match w with Joined => 1 | _ => 0 end.

Definition conns_of (results : list (httpsDialerTactic * result error tlsConn)) : list tlsConn :=
  omap (λ '(_, res), match res with Val c => Some c | Err _ => None end) results.
Definition errors_of (results : list (httpsDialerTactic * result error tlsConn)) : list error :=
  omap (λ '(_, res), match res with Val _ => None | Err e => Some e end) results.

Section pool.
Context (dials : httpsDialerTactic → result error tlsConn → Prop) (tactics : list httpsDialerTactic).

(** ** Termination *)

Definition dial_measure (d : dialer) : nat := 3 * length (di_emitter d) + sum_list_with weight (di_workers d).

Lemma step_measure d d' : dialer_step dials d d' → (dial_measure d' < dial_measure d)%nat.
Proof.
  intros Hs. unfold dial_measure.
  destruct Hs as [d n t rest Hn He|d n Hn He|d n t res Hn Hd|d n t res Hn Hj|d n Hn Hj];
    destruct d as [em ws cs es nj]; cbn [di_emitter di_workers di_connv di_errorv di_numJoined] in *;
    destruct (insert_split _ _ _ Hn) as (l1 & l2 & E & Hins);
    try destruct res; cbn; unfold apply_update, constant; rewrite ?Hins, ?E, ?He, !sum_list_with_app; cbn; lia.
Qed.

Lemma step_terminates d : Acc (λ d' d, dialer_step dials d d') d.
Proof.
  remember (dial_measure d) as n eqn:E. revert d E. induction n as [n IH] using lt_wf_ind. intros d ->.
  constructor. intros d' Hs. eapply IH; [|done]. by apply step_measure.
Qed.

(** ** The invariant *)

Record dialer_inv (d : dialer) (results : list (httpsDialerTactic * result error tlsConn)) : Prop := {
  inv_dials : Forall (λ '(t, res), dials t res) results;
  inv_connv : di_connv d = conns_of results;
  inv_errorv : di_errorv d = errors_of results;
  inv_tactics : results.*1 ++ (di_workers d ≫= busy) ++ di_emitter d ≡ₚ tactics;
  inv_writers t res : AtWriter t res ∈ di_workers d → dials t res;
  inv_length : length (di_workers d) = parallelism;
  inv_joined : di_numJoined d = sum_list_with joined (di_workers d);
  inv_drained : AtJoiner ∈ di_workers d ∨ Joined ∈ di_workers d → di_emitter d = [];
}.

Lemma start_inv : dialer_inv (dialer_start tactics) [].
Proof.
  split; try done; cbn.
  - intros t res Hin. repeat (apply elem_of_cons in Hin as [?|Hin]; [done|]). by apply elem_of_nil in Hin.
  - intros [Hin|Hin]; repeat (apply elem_of_cons in Hin as [?|Hin]; [done|]); by apply elem_of_nil in Hin.
Qed.

Ltac split_workers Hn :=
  let l1 := fresh "l1" in let l2 := fresh "l2" in let E := fresh "E" in let Hins := fresh "Hins" in
  destruct (insert_split _ _ _ Hn) as (l1 & l2 & E & Hins).

Lemma step_inv d d' results :
  dialer_inv d results → dialer_step dials d d' → ∃ results', dialer_inv d' results'.
Proof.
  intros [Hdials Hconn Herr Htac Hw Hlen Hjoin Hdr] Hs.
  destruct Hs as [d n t rest Hn He|d n Hn He|d n t res Hn Hd|d n t res Hn Hj|d n Hn Hj];
    destruct d as [em ws cs es nj]; cbn [di_emitter di_workers di_connv di_errorv di_numJoined] in *; split_workers Hn;
    rewrite E in Htac, Hw, Hlen, Hjoin, Hdr; try subst em;
    rewrite ?bind_app, ?bind_cons in Htac; rewrite ?length_app in Hlen; rewrite ?sum_list_with_app in Hjoin;
    cbn [busy joined sum_list_with length app] in *.
  - exists results. split; cbn; unfold apply_update, constant; rewrite ?Hins; try done.
    + rewrite <-Htac, bind_app, bind_cons. cbn. solve_Permutation.
    + intros t' res'. rewrite elem_of_app, elem_of_cons. intros Hin. apply (Hw t' res'). set_solver.
    + by rewrite length_app.
    + by rewrite sum_list_with_app.
    + intros Hin. exfalso. assert (t :: rest = []); [|done]. apply Hdr. set_solver.
  - exists results. split; cbn; unfold apply_update, constant; rewrite ?Hins; try done.
    + by rewrite <-Htac, bind_app, bind_cons.
    + intros t' res'. rewrite elem_of_app, elem_of_cons. intros Hin. apply (Hw t' res'). set_solver.
    + by rewrite length_app.
    + by rewrite sum_list_with_app.
  - exists results. split; cbn; unfold apply_update, constant; rewrite ?Hins; try done.
    + by rewrite <-Htac, bind_app, bind_cons.
    + intros t' res'. rewrite elem_of_app, elem_of_cons. intros [Hin|[[= -> ->]|Hin]]; [|done|]; apply (Hw t' res'); set_solver.
    + by rewrite length_app.
    + by rewrite sum_list_with_app.
    + intros Hin. apply Hdr. set_solver.
  - exists (results ++ [(t, res)]).
    assert (Hres : dials t res) by (apply Hw; set_solver).
    destruct res as [c|e]; split; cbn; unfold apply_update, constant; rewrite ?Hins; try done;
      rewrite ?Forall_app, ?omap_app; unfold conns_of, errors_of; rewrite ?omap_app; cbn; rewrite ?app_nil_r; try done.
    all: try (by f_equal).
    all: try (by rewrite <-Htac, bind_app, bind_cons, fmap_app; cbn; solve_Permutation).
    all: try (intros t' res'; rewrite elem_of_app, elem_of_cons; intros Hin; apply (Hw t' res'); set_solver).
    all: try (by rewrite length_app).
    all: try (by rewrite sum_list_with_app).
    all: try (intros Hin; apply Hdr; set_solver).
    all: split; [done|by constructor].
  - exists results. split; cbn; unfold apply_update, constant; rewrite ?Hins; try done.
    + by rewrite <-Htac, bind_app, bind_cons.
    + intros t' res'. rewrite elem_of_app, elem_of_cons. intros Hin. apply (Hw t' res'). set_solver.
    + by rewrite length_app.
    + rewrite sum_list_with_app. cbn. lia.
    + intros _. apply Hdr. set_solver.
Qed.

Lemma reachable_inv d : dialer_reachable dials tactics d → ∃ results, dialer_inv d results.
Proof.
  induction 1 as [|d d' _ [results IH] Hs]; [eexists; apply start_inv|by eapply step_inv].
Qed.

(** ** Progress *)

Lemma not_all_joined l :
  (sum_list_with joined l < length l)%nat → ∃ n w, l !! n = Some w ∧ w ≠ Joined.
Proof.
  induction l as [|w l IH]; cbn; [lia|]. intros Hl. destruct (decide (joined w = 1%nat)) as [Hw|Hw].
  - destruct IH as (n & w' & Hn & Hne); [lia|]. by exists (S n), w'.
  - exists O, w. split; [done|]. by intros ->.
Qed.

Lemma all_joined l w : sum_list_with joined l = length l → w ∈ l → w = Joined.
Proof.
  induction l as [|x l IH]; cbn; [by intros _ ?%not_elem_of_nil|].
  intros Hl [->|Hw]%elem_of_cons.
  - assert (sum_list_with joined l ≤ length l)%nat.
    { clear. induction l as [|y l IH]; cbn; [lia|]. destruct y; cbn; lia. }
    destruct x; cbn in Hl; try lia. done.
  - apply IH; [|done]. assert (sum_list_with joined l ≤ length l)%nat.
    { clear. induction l as [|y l IH]; cbn; [lia|]. destruct y; cbn; lia. }
    destruct x; cbn in Hl; lia.
Qed.

Lemma step_progress d :
  dialer_reachable dials tactics d → (∀ t, ∃ res, dials t res) → (di_numJoined d < parallelism)%nat →
  ∃ d', dialer_step dials d d'.
Proof.
  intros [results [_ _ _ _ _ Hlen Hjoin _]]%reachable_inv Htotal Hj.
  destruct (not_all_joined (di_workers d)) as (n & w & Hn & Hne); [lia|].
  destruct w as [|t|t res| |]; [| | | |done].
  - destruct (di_emitter d) as [|t rest] eqn:He; eexists; [by apply step_drained|by eapply step_read].
  - destruct (Htotal t) as [res Hres]. eexists. by eapply step_dial.
  - eexists. by eapply step_collect.
  - eexists. by eapply step_join.
Qed.

(** C28: the workers and the loop of [DialTLSContext] terminate and never deadlock, provided that
    dials return; when the loop is over there is exactly one result per tactic, and the answer is: the
    first connection that arrived, with every other connection closed; if none arrived, all the errors
    joined; without tactics, the error that there is no answer. *)
Theorem DialTLS_answers d (Hd : dialer_reachable dials tactics d) (Htotal : ∀ t, ∃ res, dials t res) :
  Acc (λ d' d, dialer_step dials d d') d ∧
  ((di_numJoined d < parallelism)%nat → ∃ d', dialer_step dials d d') ∧
  (di_numJoined d = parallelism →
     ∃ results answer closed, results.*1 ≡ₚ tactics ∧ Forall (λ '(t, res), dials t res) results ∧
       httpsDialerReduceResult (di_connv d) (di_errorv d) = Ok (answer, closed) ∧
       match conns_of results with
       | conn :: others => answer = Val conn ∧ closes closed = tc_conn <$> others
       | [] => closed = [] ∧
           if decide (tactics = []) then errDNSNoAnswer = (match answer with Err e => Ok e | Val _ => Panic "" end)
           else answer = Err (ErrJoin (errors_of results))
       end).
Proof.
  split; [apply step_terminates|]. split; [by apply step_progress|]. intros Hj.
  destruct (reachable_inv d Hd) as [results [Hdials Hconn Herr Htac _ Hlen Hjoin Hdr]].
  assert (Hall : ∀ w, w ∈ di_workers d → w = Joined) by (intros w; apply all_joined; lia).
  assert (He : di_emitter d = []).
  { apply Hdr. right. destruct (di_workers d) as [|w l] eqn:E; [done|]. rewrite (Hall w) by set_solver. set_solver. }
  assert (Hb : di_workers d ≫= busy = []).
  { revert Hall. generalize (di_workers d). induction l as [|w l IH]; intros Hw; [done|].
    rewrite bind_cons, (Hw w) by set_solver. apply IH. set_solver. }
  rewrite He, Hb, !app_nil_r in Htac. rewrite Hconn, Herr. exists results.
  destruct (conns_of results) as [|conn others] eqn:Ec.
  - destruct (errors_of results) as [|e es] eqn:Ee.
    + assert (results = []) as ->.
      { destruct results as [|[t [c|e]] l]; [done|discriminate Ec|discriminate Ee]. }
      cbn in Htac. apply Permutation_nil_l in Htac as <-. eexists _, _. by split_and!.
    + eexists _, _. split_and!; [done..|]. rewrite decide_False; [done|]. intros ->.
      apply Permutation_nil_r in Htac. by destruct results.
  - eexists _, _. split_and!; [done..|]. unfold closes. clear. induction others as [|o l IH]; cbn; [done|]. by f_equal.
Qed.
End pool.

Lemma reduce_conn connv errorv conn closed :
  httpsDialerReduceResult connv errorv = Ok (Val conn, closed) → conn ∈ connv.
Proof.
  unfold httpsDialerReduceResult. destruct connv as [|c rest]; [|intros [= -> _]; by left].
  destruct errorv as [|e es]; [|done]. by destruct errDNSNoAnswer.
Qed.

(** The dials of the engine, with some behaviour of the network. *)
Definition dials_with (x509_Verify : string → string → list string → option error)
    (tactic : httpsDialerTactic) (res : result error tlsConn) : Prop :=
  ∃ env log, dialTLS x509_Verify env tactic = Ok (res, log).

(** Any connection the collecting loop holds was verified for the host of a tactic. *)
Lemma dialed_verified x509_Verify tactics d conn :
  dialer_reachable (dials_with x509_Verify) tactics d → conn ∈ di_connv d →
  ∃ t, t ∈ tactics ∧ verified x509_Verify (VerifyHostname t) conn.
Proof.
  intros [results [Hdials Hconn _ Htac _ _ _ _]]%reachable_inv Hin. rewrite Hconn in Hin.
  unfold conns_of in Hin. apply list_elem_of_omap in Hin as ([t res] & Hin & E). destruct res as [c|]; [|done].
  injection E as ->. exists t. split.
  - rewrite <-Htac, elem_of_app. left. apply list_elem_of_fmap. by exists (t, Val conn).
  - rewrite Forall_forall in Hdials. destruct (Hdials _ Hin) as (env & log & Hdial). by eapply dialTLS_success.
Qed.

Lemma DialTLS_answers_witness :
  let tactic := mkTactic "1.2.3.4" 0 "443" "x.org" "x.org" in
  let dials := λ (_ : httpsDialerTactic) (res : result error tlsConn), res = Err ErrOODNSRefused in
  dialer_reachable dials [tactic] (dialer_start [tactic]) ∧ (∀ t, ∃ res, dials t res) ∧
  ∃ d', dialer_step dials (dialer_start [tactic]) d'.
Proof.
  intros tactic dials.
  assert (Hr : dialer_reachable dials [tactic] (dialer_start [tactic])) by constructor.
  assert (Ht : ∀ t, ∃ res, dials t res) by (intros t; eexists; reflexivity).
  split; [exact Hr|]. split; [exact Ht|].
  destruct (DialTLS_answers dials [tactic] (dialer_start [tactic]) Hr Ht) as (_ & Hp & _). apply Hp. cbn. unfold parallelism. lia.
Defined.
