(* ===== verification/NetPolicies.v ===== *)
(** * Engine network: the dialing policies

    [pkg/enginenetx]: bridges, test helpers, the policy of [newHTTPSDialerPolicy].
    The order of a shuffle is an argument: [rand.Shuffle] permutes its list, and the
    n-th call may permute it in its own way. *)
From S2P Require Import Prelude GoSort GoString GoNet NetTactics NetStats.

Class RandomShuffle := {
  Shuffle : nat → ∀ {A}, list A → list A;
  Shuffle_perm : ∀ n {A} (l : list A), Shuffle n l ≡ₚ l;
}.

Definition no_shuffle : RandomShuffle :=
  {| Shuffle := λ _ A l, l; Shuffle_perm := λ _ A l, Permutation_refl l |}.

(** ** [bridgespolicy.go] *)

Definition bridgesAddrs : list string := ["162.55.247.208"].

Definition bridgesDomains : list string := [
  "adtm.spreadshirts.net"; "alb.reddit.com"; "a.loveholidays.com"; "api.giphy.com";
  "api.nextgen.guardianapps.co.uk"; "api.trademe.co.nz"; "app.launchdarkly.com";
  "apps.voxmedia.com"; "assets0.uswitch.com"; "assets.boots.com"; "assets.dunelm.com";
  "assets.guim.co.uk"; "assets.hearstapps.com"; "assets-jpcust.jwpsrv.com"; "assets.nymag.com";
  "assets.thecut.com"; "atreseries.atresmedia.com"; "cdn.bfldr.com"; "cdn.concert.io";
  "cdn.contentful.com"; "cdn.ketchjs.com"; "cdn.laredoute.com"; "cdn.polyfill.io";
  "cdn.speedcurve.com"; "cdn.sstatic.net"; "cdn.taboola.com"; "client.grubstreet.com";
  "client.nymag.com"; "client-registry.mutinycdn.com"; "client.thecut.com";
  "client.thestrategist.co.uk"; "client.vulture.com"; "compote.slate.com";
  "concertads-configs.vox-cdn.com"; "contributions.guardianapis.com"; "display.bidder.taboola.com";
  "edgemesh.webflow.io"; "embed.api.video"; "epsf.ticketmaster.com"; "fastly.com";
  "fastly.jsdelivr.net"; "fast.ssqt.io"; "fast.wistia.com"; "fdyn.pubwise.io"; "fonts.nymag.com";
  "foursquare.com"; "frend-assets.freetls.fastly.net"; "f.vimeocdn.com"; "github.githubassets.com";
  "global.ketchcdn.com"; "helpersng.taboola.com"; "hips.hearstapps.com"; "i.guimcode.co.uk";
  "i.guim.co.uk"; "i.insider.com"; "images.mutinycdn.com"; "images.taboola.com";
  "interactive.guim.co.uk"; "i.vimeocdn.com"; "js-agent.newrelic.com"; "js.sentry-cdn.com";
  "linktr.ee"; "login.nine.com.au"; "lux.speedcurve.com"; "martech.condenastdigital.com";
  "media0.giphy.com"; "media1.giphy.com"; "media2.giphy.com"; "media3.giphy.com";
  "media.giphy.com"; "media.newyorker.com"; "media.wired.com"; "mparticle.weather.com";
  "mv.outbrain.com"; "newrelic.com"; "next.ticketmaster.com"; "nm.realtyninja.com";
  "pingback.giphy.com"; "pips.taboola.com"; "pitchfork.com"; "pixel.condenastdigital.com";
  "player.ex.co"; "pm-widget.taboola.com"; "polyfill.io"; "prd.jwpltx.com"; "pyxis.nymag.com";
  "rapid-cdn.yottaa.com"; "rtd-tm.everesttech.net"; "s1.ticketm.net"; "s3-media0.fl.yelpcdn.com";
  "slate.com"; "sourcepoint.theguardian.com"; "ssl.p.jwpcdn.com"; "sstc.dunelm.com";
  "static.ads-twitter.com"; "static.filestackapi.com"; "static.klaviyo.com";
  "static.theguardian.com"; "static-tracking.klaviyo.com"; "s.w-x.co"; "trademe.tmcdn.co.nz";
  "trc.taboola.com"; "t.seenthis.se"; "uploads.guim.co.uk"; "video.seenthis.se";
  "vidstat.taboola.com"; "vod.api.video"; "vulcan.condenastdigital.com";
  "widget.perfectmarket.com"; "www.allure.com"; "www.amazeelabs.com";
  "www.architecturaldigest.com"; "www.blackpepper.co.nz"; "www.bonappetit.com";
  "www.cntraveler.com"; "www.drupal.org"; "www.dunelm.com"; "www.epicurious.com"; "www.fastly.com";
  "www.filestack.com"; "www.giphy.com"; "www.glamour.com"; "www.gq.com"; "www.insider.com";
  "www.jimdo.com"; "www.loveholidays.com"; "www.madeiramadeira.com.br"; "www.newrelic.com";
  "www.newyorker.com"; "www.pronovias.com"; "www.redditstatic.com"; "www.rvu.co.uk";
  "www.self.com"; "www.shazam.com"; "www.shondaland.com"; "www.split.io"; "www.spreadgroup.com";
  "www.spreadshirt.com"; "www.taboola.com"; "www.teenvogue.com"; "www.thecut.com";
  "www.theguardian.com"; "www.them.us"; "www.ticketmaster.com"; "www.trademe.co.nz";
  "www.vanityfair.com"; "www.vogue.com"; "www.wikihow.com"; "www.wired.com"; "www.yelp.com";
  "x.giphy.com"; "yelp.com"
].

Record testHelpersPolicy (C : Type) := mkTestHelpersPolicy { th_Child : C }.
Arguments mkTestHelpersPolicy {C}. Arguments th_Child {C}.

Section shuffle.
Context `{RandomShuffle}.

Definition bridgesDomainsInRandomOrder (call : nat) : list string := Shuffle call bridgesDomains.

(** The loop over the addresses, which counts its turns. *)
Definition bridgesTacticsForDomain (domain port : string) : tactics :=
  if negb (bool_decide (domain = "api.ooni.io")) then []
  else
    (foldl (λ '(call, out) ipAddr,
      (S call, foldl (λ out sni, out ++ [Some {|
        Address := ipAddr;
        InitialDelay := 0;
        Port := port;
        SNI := sni;
        VerifyHostname := domain;
      |}]) out (bridgesDomainsInRandomOrder call))) (O, []) bridgesAddrs).2.

Inductive bridgesPolicyV2 := mkBridgesPolicy.

#[export] Instance bridgesPolicyV2_LookupTactics : httpsDialerPolicy bridgesPolicyV2 :=
  λ _ domain port, Ok (bridgesTacticsForDomain domain port).

(** ** [testhelperspolicy.go] *)

Definition testHelpersDomains : list string := [
  "0.th.ooni.org"; "1.th.ooni.org"; "2.th.ooni.org"; "3.th.ooni.org";
  "d33d1gs9kpq1c5.cloudfront.net"
].

(** The first loop: what was emitted, and what to modify later. *)
Definition th_turn (st : tactics * list httpsDialerTactic) (tactic : option httpsDialerTactic) :
    outcome (tactics * list httpsDialerTactic) :=
  let '(out, todo) := st in
  let out := out ++ [tactic] in
  t ← deref_tactic tactic;
  if negb (bool_decide (VerifyHostname t ∈ testHelpersDomains)) then Ok (out, todo)
  else Ok (out, todo ++ [t]).

(** A turn of the second loop. *)
Definition th_extend (st : nat * tactics) (tactic : httpsDialerTactic) : nat * tactics :=
  let '(call, out) := st in
  (S call, foldl (λ out sni, out ++ [Some {|
    Address := Address tactic;
    InitialDelay := 0;
    Port := Port tactic;
    SNI := sni;
    VerifyHostname := VerifyHostname tactic;
  |}]) out (bridgesDomainsInRandomOrder call)).

#[export] Instance testHelpersPolicy_LookupTactics `{httpsDialerPolicy C} :
    httpsDialerPolicy (testHelpersPolicy C) := λ p domain port,
  child ← LookupTactics (th_Child p) domain port;
  '(out, todo) ← foldM th_turn ([], []) child;
  Ok (foldl th_extend (O, out) todo).2.
End shuffle.

(** ** [network.go] *)

Section network.
Context `{RangeOrder} `{StableSort} `{RandomShuffle}.

Abbreviation statsOrBridges := (mixPolicyInterleave statsPolicyV2 bridgesPolicyV2).
Abbreviation composedPolicy := (mixPolicyInterleave (testHelpersPolicy dnsPolicy) statsOrBridges).

(** The three policies that [newHTTPSDialerPolicy] may return. *)
Inductive network_policy :=
  | PolicyProxy (dns : dnsPolicy)
  | PolicyComposed (composed : composedPolicy)
  | PolicyUser (policy : mixPolicyEitherOr userPolicyV2 composedPolicy).

#[export] Instance network_policy_LookupTactics : httpsDialerPolicy network_policy := λ p domain port,
  match p with
  | PolicyProxy p => LookupTactics p domain port
  | PolicyComposed p => LookupTactics p domain port
  | PolicyUser p => LookupTactics p domain port
  end.

(** [has_proxy]: [proxyURL] is not nil; [resolver] is what the DNS policy reads;
    [stats] the container of the manager when tactics are looked up. *)
Definition newHTTPSDialerPolicy {bytes} (kvStore_Get : string → result string bytes)
    (hujsonx_Unmarshal : bytes → result string userPolicyRoot)
    (has_proxy : bool) (resolver : dnsPolicy) (stats : statsContainer) : network_policy :=
  if has_proxy then PolicyProxy resolver
  else
    let statsOrBridges := mkInterleave (mkStatsPolicy stats) mkBridgesPolicy 3 in
    let dnsExt := mkTestHelpersPolicy resolver in
    let composed := mkInterleave dnsExt statsOrBridges 3 in
    match newUserPolicyV2 kvStore_Get hujsonx_Unmarshal with
    | Err _ => PolicyComposed composed
    | Val primary => PolicyUser (mkEitherOr primary composed)
    end.
End network.
