(* ===== verification/NetTacticsFacts.v ===== *)
(** * Engine network: what the filters and the mixes emit

    The happy-eyeballs delays, the filters in front of the dialer, and the policies that
    combine others, each against a reference definition. *)
From S2P Require Import Prelude GoString GoNet NetTactics.

(** ** Delays *)

(** The last index whose delay fits an [int64]. *)
Definition last_delay : Z := 1152921507.

Lemma delay_linear idx :
  4 ≤ idx ≤ last_delay → happyEyeballsDelay idx = 8 * Second * (idx - 3).
Proof.
  unfold last_delay. intros Hi. unfold happyEyeballsDelay.
  destruct (Z.leb_spec idx 0), (Z.eqb_spec idx 1), (Z.leb_spec idx 4); try lia.
  - assert (idx = 4) as -> by lia. done.
  - rewrite (wrap64_id (idx - 3)) by (unfold is_int64, int64_min, int64_max; lia).
    change (wrap64 (Z.shiftl Second 3)) with (8 * Second).
    apply wrap64_id. unfold is_int64, int64_min, int64_max, Second. lia.
Qed.

(** The first attempt starts at once, the second one second later; the delay doubles
    up to eight seconds and then grows by eight seconds per attempt, so that delays increase strictly,
    as long as the index is at most 1152921507; the next delay overflows. *)
Theorem happyEyeballsDelay_spec :
  (∀ idx, idx ≤ 0 → happyEyeballsDelay idx = 0) ∧
  happyEyeballsDelay 1 = Second ∧
  (∀ idx, 1 ≤ idx < 4 → happyEyeballsDelay (idx + 1) = 2 * happyEyeballsDelay idx) ∧
  (∀ idx, 4 ≤ idx < last_delay → happyEyeballsDelay (idx + 1) = happyEyeballsDelay idx + 8 * Second) ∧
  (∀ i j, 0 ≤ i < j → j ≤ last_delay → happyEyeballsDelay i < happyEyeballsDelay j) ∧
  happyEyeballsDelay (last_delay + 1) < 0.
Proof.
  split_and!.
  - intros idx Hi. unfold happyEyeballsDelay. by destruct (Z.leb_spec idx 0); [|lia].
  - done.
  - intros idx Hi. assert (idx = 1 ∨ idx = 2 ∨ idx = 3) as [->|[-> | ->]] by lia; done.
  - intros idx Hi. rewrite !delay_linear by lia. lia.
  - intros i j Hij Hj. assert (Hsmall : ∀ k, 0 ≤ k ≤ 4 →
      (k = 0 ∧ happyEyeballsDelay k = 0) ∨ (k = 1 ∧ happyEyeballsDelay k = Second) ∨
      (k = 2 ∧ happyEyeballsDelay k = 2 * Second) ∨ (k = 3 ∧ happyEyeballsDelay k = 4 * Second) ∨
      (k = 4 ∧ happyEyeballsDelay k = 8 * Second)).
    { intros k Hk. assert (k = 0 ∨ k = 1 ∨ k = 2 ∨ k = 3 ∨ k = 4) as [->|[->|[->|[-> | ->]]]] by lia; auto 10. }
    unfold Second in *. destruct (Z.le_gt_cases j 4) as [H4|H4].
    + destruct (Hsmall i), (Hsmall j); lia.
    + rewrite (delay_linear j) by lia. unfold Second. destruct (Z.le_gt_cases i 4) as [Hi|Hi].
      * destruct (Hsmall i); lia.
      * rewrite (delay_linear i) by lia. unfold Second. lia.
  - by vm_compute.
Qed.

(** ** Filters *)

(** The tactics that are not nil. *)
Definition real_tactics (input : tactics) : list httpsDialerTactic := omap id input.

Lemma filterOutNil_real input : filterOutNilTactics input = Some <$> real_tactics input.
Proof.
  unfold filterOutNilTactics, real_tactics. rewrite foldl_collect_skip. cbn [app].
  induction input as [|[t|] l IH]; [done|rewrite filter_cons_True by done; cbn; by f_equal|exact IH].
Qed.

(** The first tactic of the list with each summary key. *)
Fixpoint firsts_by_key (seen : gset string) (l : list httpsDialerTactic) : list httpsDialerTactic :=
  match l with
  | [] => []
  | t :: l =>
      if decide (tacticSummaryKey t ∈ seen) then firsts_by_key seen l
      else t :: firsts_by_key ({[tacticSummaryKey t]} ∪ seen) l
  end.

Lemma unique_loop l uniq seen out :
  (∀ k, uniq !! k = if decide (k ∈ seen) then Some 1 else None) →
  snd <$> foldM unique_turn (uniq, out) (Some <$> l) = Ok (out ++ (Some <$> firsts_by_key seen l)).
Proof.
  revert uniq seen out. induction l as [|t l IH]; intros uniq seen out Hs; [cbn; by rewrite app_nil_r|].
  cbn [fmap list_fmap foldM unique_turn deref_tactic mbind outcome_bind firsts_by_key]. rewrite Hs.
  destruct (decide (tacticSummaryKey t ∈ seen)) as [Hin|Hin].
  - change (0 <? default 0 (Some 1)) with true. cbn [mbind outcome_bind]. by apply IH.
  - change (0 <? default 0 None) with false. cbn [mbind outcome_bind].
    etrans; [apply (IH _ ({[tacticSummaryKey t]} ∪ seen))|by rewrite <-app_assoc].
    intros k. destruct (decide (k = tacticSummaryKey t)) as [->|Hne].
    + rewrite lookup_insert_eq, decide_True by set_solver. done.
    + rewrite lookup_insert_ne, Hs by done. do 2 case_decide; set_solver.
Qed.

Lemma filterOnlyKeepUnique_firsts l :
  filterOnlyKeepUniqueTactics (Some <$> l) = Ok (Some <$> firsts_by_key ∅ l).
Proof. unfold filterOnlyKeepUniqueTactics. rewrite (unique_loop l ∅ ∅); [done|]. intros k. by rewrite lookup_empty. Qed.

Definition delayed (i : Z) (t : httpsDialerTactic) : httpsDialerTactic :=
  t <| InitialDelay := happyEyeballsDelay i |>.

Lemma delay_loop l index out :
  snd <$> foldM delay_turn (wrap64 index, out) (Some <$> l) =
  Ok (out ++ imap (λ n t, Some (delayed (wrap64 (index + Z.of_nat n)) t)) l).
Proof.
  revert index out. induction l as [|t l IH]; intros index out; [cbn; by rewrite app_nil_r|].
  cbn [fmap list_fmap foldM delay_turn deref_tactic mbind outcome_bind].
  rewrite wrap64_succ. etrans; [apply IH|]. rewrite <-app_assoc. cbn [imap app]. unfold delayed at 2.
  rewrite Z.add_0_r. do 3 f_equal. apply imap_ext. intros n t' _. unfold compose.
  by replace (index + 1 + Z.of_nat n) with (index + Z.of_nat (S n)) by lia.
Qed.

Lemma firsts_by_key_sublist seen l : sublist (firsts_by_key seen l) l.
Proof.
  revert seen. induction l as [|t l IH]; intros seen; cbn; [done|].
  case_decide; [by apply sublist_cons|by apply sublist_skip].
Qed.

Lemma firsts_keys seen l :
  NoDup (tacticSummaryKey <$> firsts_by_key seen l) ∧
  ∀ k, (k ∈ tacticSummaryKey <$> firsts_by_key seen l) ↔ (k ∉ seen) ∧ (k ∈ tacticSummaryKey <$> l).
Proof.
  revert seen. induction l as [|t l IH]; intros seen; cbn; [split; [constructor|set_solver]|].
  case_decide as Hin.
  - destruct (IH seen) as [Hnd Hk]. split; [done|]. intros k. rewrite Hk. set_solver.
  - destruct (IH ({[tacticSummaryKey t]} ∪ seen)) as [Hnd Hk]. rewrite !fmap_cons. split.
    + constructor; [|done]. rewrite Hk. set_solver.
    + intros k. rewrite !elem_of_cons, Hk. destruct (decide (k = tacticSummaryKey t)); set_solver.
Qed.

(** An element is kept exactly when no earlier one has its key. *)
Lemma firsts_first seen l t pre post :
  l = pre ++ t :: post → tacticSummaryKey t ∉ seen → tacticSummaryKey t ∉ tacticSummaryKey <$> pre →
  t ∈ firsts_by_key seen l.
Proof.
  revert seen l. induction pre as [|u pre IH]; intros seen l -> Hs Hp; cbn.
  - rewrite decide_False by done. set_solver.
  - case_decide; [apply IH; set_solver|]. apply elem_of_cons. right. apply IH; set_solver.
Qed.

(** The filters in front of the dialer never panic, even on nil tactics; they emit, in order,
    the tactics that are not nil and whose key was not seen before (no two tactics with the same key
    remain, and no key is lost), and give the n-th one the n-th happy-eyeballs delay. *)
Theorem filterTactics_spec input :
  ∃ kept, httpsDialerFilterTactics input = Ok (imap (λ n t, Some (delayed (wrap64 (Z.of_nat n)) t)) kept) ∧
    sublist kept (real_tactics input) ∧
    NoDup (tacticSummaryKey <$> kept) ∧
    (∀ k, (k ∈ tacticSummaryKey <$> kept) ↔ (k ∈ tacticSummaryKey <$> real_tactics input)) ∧
    (∀ pre t post, real_tactics input = pre ++ t :: post →
       tacticSummaryKey t ∉ tacticSummaryKey <$> pre → t ∈ kept).
Proof.
  exists (firsts_by_key ∅ (real_tactics input)). unfold httpsDialerFilterTactics.
  rewrite filterOutNil_real, filterOnlyKeepUnique_firsts. cbn [mbind outcome_bind].
  destruct (firsts_keys ∅ (real_tactics input)) as [Hnd Hk]. split_and!.
  - unfold filterAssignInitialDelays. exact (delay_loop _ 0 []).
  - apply firsts_by_key_sublist.
  - done.
  - intros k. rewrite Hk. set_solver.
  - intros pre t post E Hp. eapply firsts_first; [done|set_solver|done].
Qed.

(** ** Mixes *)

(** Rounds of [n] tactics from the first list, then [n] from the second one. *)
Fixpoint rounds (k n : nat) (primary fallback : tactics) : tactics :=
  match k with
  | O => []
  | S k => take n primary ++ take n fallback ++ rounds k n (drop n primary) (drop n fallback)
  end.

Lemma take_loop_spec n ch output :
  take_loop n ch output = (if decide (n ≤ length ch)%nat then Some (drop n ch) else None, output ++ take n ch).
Proof.
  revert ch output. induction n as [|n IH]; intros ch output; cbn [take_loop].
  - rewrite decide_True by lia. by rewrite drop_0, take_0, app_nil_r.
  - destruct ch as [|t ch]; [rewrite decide_False by (cbn; lia); by rewrite app_nil_r|].
    rewrite IH, <-app_assoc. cbn. do 2 case_decide; done || lia.
Qed.

(** What is left on a channel; [pending] counts the end of the channel too. *)
Definition left_on (input : option tactics) : tactics := default [] input.
Definition pending (input : option tactics) : nat :=
  match input with None => O | Some ch => S (length ch) end.

Lemma maybeTakeN_spec Factor input output :
  let n := Z.to_nat (Z.max 1 Factor) in
  ∃ input', maybeTakeN Factor input output = (input', output ++ take n (left_on input)) ∧
    left_on input' = drop n (left_on input) ∧
    (pending input' ≤ pending input)%nat ∧ (input ≠ None → (pending input' < pending input)%nat).
Proof.
  intros n. destruct input as [ch|]; cbn [maybeTakeN left_on default from_option id].
  - rewrite take_loop_spec. eexists. split; [done|]. assert (1 ≤ n)%nat by (subst n; lia). fold n.
    case_decide; cbn [left_on default from_option id pending].
    + rewrite length_drop. split_and!; [done|lia|lia].
    + rewrite drop_ge by lia. split_and!; [done|lia|lia].
  - exists None. rewrite take_nil, drop_nil, app_nil_r. by split_and!.
Qed.

Lemma rounds_nil k n : rounds k n [] [] = [].
Proof. induction k as [|k IH]; cbn; [done|]. by rewrite take_nil, drop_nil, IH. Qed.

Lemma interleave_loop_spec fuel Factor primary fallback output :
  (pending primary + pending fallback ≤ fuel)%nat →
  interleave_loop fuel Factor primary fallback output =
  Some (output ++ rounds fuel (Z.to_nat (Z.max 1 Factor)) (left_on primary) (left_on fallback)).
Proof.
  revert primary fallback output. induction fuel as [|fuel IH]; intros primary fallback output Hf.
  - destruct primary, fallback; cbn in Hf; try lia. cbn. by rewrite app_nil_r.
  - destruct (IsNone primary && IsNone fallback) eqn:E.
    { destruct primary, fallback; try done. cbn. by rewrite take_nil, drop_nil, rounds_nil, app_nil_r. }
    cbn [interleave_loop rounds]. rewrite E.
    destruct (maybeTakeN_spec Factor primary output) as (p' & -> & Hp & Hle & Hlt).
    destruct (maybeTakeN_spec Factor fallback (output ++ take (Z.to_nat (Z.max 1 Factor)) (left_on primary)))
      as (f' & -> & Hq & Hle' & Hlt').
    rewrite IH, Hp, Hq, <-!app_assoc; [done|].
    destruct primary as [ch|]; [specialize (Hlt ltac:(done)); lia|].
    destruct fallback as [ch|]; [specialize (Hlt' ltac:(done)); lia|done].
Qed.

Lemma rounds_all k n primary fallback :
  (0 < n)%nat → (length primary ≤ k)%nat → (length fallback ≤ k)%nat →
  rounds k n primary fallback ≡ₚ primary ++ fallback ∧
  sublist primary (rounds k n primary fallback) ∧ sublist fallback (rounds k n primary fallback).
Proof.
  intros Hn. revert primary fallback. induction k as [|k IH]; intros p f Hp Hf.
  - destruct p, f; cbn in *; try lia. split_and!; constructor.
  - cbn [rounds]. destruct (IH (drop n p) (drop n f)) as (Hperm & Hsp & Hsf); [rewrite length_drop; lia..|].
    split_and!.
    + rewrite Hperm. rewrite <-(take_drop n p) at 3. rewrite <-(take_drop n f) at 3. solve_Permutation.
    + rewrite <-(take_drop n p) at 1. apply sublist_app; [done|]. by apply sublist_inserts_l.
    + rewrite <-(take_drop n f) at 1. apply sublist_inserts_l. by apply sublist_app.
Qed.

(** Interleaving two policies that answer terminates and emits rounds of
    [n] tactics of the primary, then [n] of the fallback (where [n] is the factor, or one
    when the factor is zero), until both are drained: nothing is lost or added, and
    each policy keeps its order. *)
Theorem interleave_spec `{httpsDialerPolicy P, httpsDialerPolicy F} (p : mixPolicyInterleave P F) domain port primary fallback
    (Hp : LookupTactics (il_Primary p) domain port = Ok primary)
    (Hf : LookupTactics (il_Fallback p) domain port = Ok fallback) :
  let n := Z.to_nat (Z.max 1 (il_Factor p)) in
  ∃ out, LookupTactics p domain port = Ok out ∧
    out = rounds (interleave_fuel primary fallback) n primary fallback ∧
    out ≡ₚ primary ++ fallback ∧ sublist primary out ∧ sublist fallback out.
Proof.
  intros n. eexists. split; [|split; [done|]].
  - unfold LookupTactics at 1, mixPolicyInterleave_LookupTactics. rewrite Hp, Hf. cbn [mbind outcome_bind].
    by rewrite interleave_loop_spec by (unfold interleave_fuel; cbn; lia).
  - apply rounds_all; unfold interleave_fuel; subst n; lia.
Qed.

Lemma interleave_spec_witness :
  let tactic a := Some (mkTactic a 0 "443" "x.org" "x.org") in
  let user l := mkUserPolicy (mkUserPolicyRoot {[ "x.org:443" := l ]} 3) in
  let p := mkInterleave (user [tactic "1.1.1.1"; tactic "2.2.2.2"; tactic "3.3.3.3"]) (user [tactic "4.4.4.4"]) 2 in
  ∃ out, LookupTactics p "x.org" "443" = Ok out ∧
    out = [tactic "1.1.1.1"; tactic "2.2.2.2"; tactic "4.4.4.4"; tactic "3.3.3.3"].
Proof.
  intros tactic user p.
  assert (Hp : LookupTactics (il_Primary p) "x.org" "443" = Ok [tactic "1.1.1.1"; tactic "2.2.2.2"; tactic "3.3.3.3"])
    by by vm_compute.
  assert (Hf : LookupTactics (il_Fallback p) "x.org" "443" = Ok [tactic "4.4.4.4"]) by by vm_compute.
  destruct (interleave_spec p "x.org" "443" _ _ Hp Hf) as (out & E & -> & _).
  exists (rounds 6 2 [tactic "1.1.1.1"; tactic "2.2.2.2"; tactic "3.3.3.3"] [tactic "4.4.4.4"]).
  split; [exact E|reflexivity].
Defined.

(** The fallback is only asked when the primary has nothing. *)
Lemma eitherOr_spec `{httpsDialerPolicy P, httpsDialerPolicy F} (m : mixPolicyEitherOr P F) domain port primary fallback :
  LookupTactics (eo_Primary m) domain port = Ok primary →
  LookupTactics (eo_Fallback m) domain port = Ok fallback →
  Z.of_nat (length primary) ≤ int64_max →
  LookupTactics m domain port = Ok (match primary with [] => fallback | _ => primary end).
Proof.
  intros Hp Hf Hlen. unfold LookupTactics at 1, mixPolicyEitherOr_LookupTactics. rewrite Hp. cbn [mbind outcome_bind].
  assert (E : ∀ l acc n, 0 ≤ n → n + Z.of_nat (length l) ≤ int64_max →
    foldl (λ '(output, count) (tx : option httpsDialerTactic), (output ++ [tx], wrap64 (count + 1))) (acc, n) l =
    (acc ++ l, n + Z.of_nat (length l))).
  { induction l as [|x l IH]; intros acc n Hn Hl; cbn [foldl length]; [by rewrite app_nil_r, Z.add_0_r|].
    cbn [length] in Hl. rewrite wrap64_id by (unfold is_int64, int64_min, int64_max in *; lia).
    rewrite IH by lia. rewrite <-app_assoc. cbn. f_equal. lia. }
  rewrite E by lia. cbn [app]. destruct primary as [|x l]; [|done].
  cbn [length Z.of_nat Z.add Z.ltb Z.compare]. rewrite Hf. cbn [mbind outcome_bind].
  rewrite (foldl_append id). by rewrite list_fmap_id.
Qed.
