(* ===== verification/NetPoliciesFacts.v ===== *)
(** * Engine network: which tactics are tried for a host

    The contents of the policy of [newHTTPSDialerPolicy], and the invariant of a
    session in which dialing, statistics and trimming interleave: whatever server name
    a tactic sends, the certificate is verified for the host that was asked for. *)
From S2P Require Import Prelude Failures GoSort GoString GoNet NetTactics NetStats NetStatsFacts.
From S2P Require Import NetStatsTheorems.
From S2P Require Import NetErrors NetDialer NetPolicies NetTacticsFacts.
From Stdlib Require Import Ascii.

(** ** Each policy *)

(** What the resolver gives to the DNS policy. *)
Definition dns_addrs (p : dnsPolicy) (domain : string) : list string :=
  match dns_ctx_Err p with
  | Some _ => []
  | None =>
      match ResolverShortCircuitIPAddr_LookupHost (dns_LookupHost p) domain with
      | Val addrs => addrs
      | Err _ => []
      end
  end.

Lemma dnsPolicy_spec p domain port :
  LookupTactics p domain port =
  Ok (Some <$> ((λ addr, mkTactic addr 0 port domain domain) <$> dns_addrs p domain)).
Proof.
  unfold LookupTactics, dnsPolicy_LookupTactics, dns_addrs. destruct (dns_ctx_Err p); [done|].
  destruct (ResolverShortCircuitIPAddr_LookupHost _ _) as [addrs|]; [|done].
  rewrite (foldl_append (λ addr, Some (mkTactic addr 0 port domain domain))). by rewrite <-list_fmap_compose.
Qed.

Section policies.
Context `{RandomShuffle}.

(** Tactics with another server name for an address. *)
Definition with_snis (call : nat) (address port domain : string) : list httpsDialerTactic :=
  (λ sni, mkTactic address 0 port sni domain) <$> bridgesDomainsInRandomOrder call.

Lemma with_snis_elem call address port domain t :
  t ∈ with_snis call address port domain ↔ ∃ sni, sni ∈ bridgesDomains ∧ t = mkTactic address 0 port sni domain.
Proof.
  unfold with_snis, bridgesDomainsInRandomOrder. rewrite Shuffle_perm, list_elem_of_fmap. naive_solver.
Qed.

Lemma emit_snis call address port domain out :
  foldl (λ out sni, out ++ [Some (mkTactic address 0 port sni domain)]) out (bridgesDomainsInRandomOrder call) =
  out ++ (Some <$> with_snis call address port domain).
Proof. rewrite (foldl_append (λ sni, Some (mkTactic address 0 port sni domain))). unfold with_snis. by rewrite <-list_fmap_compose. Qed.

Lemma bridges_spec domain port :
  LookupTactics mkBridgesPolicy domain port =
  Ok (Some <$> if decide (domain = "api.ooni.io") then with_snis 0 "162.55.247.208" port domain else []).
Proof.
  unfold LookupTactics, bridgesPolicyV2_LookupTactics, bridgesTacticsForDomain.
  destruct (decide (domain = "api.ooni.io")) as [E|E].
  - rewrite bool_decide_true by done. cbn [negb bridgesAddrs foldl snd]. by rewrite emit_snis.
  - by rewrite bool_decide_false.
Qed.

(** What the test helpers policy adds. *)
Fixpoint th_extra (call : nat) (todo : list httpsDialerTactic) : list httpsDialerTactic :=
  match todo with
  | [] => []
  | t :: todo => with_snis call (Address t) (Port t) (VerifyHostname t) ++ th_extra (S call) todo
  end.

Lemma th_extend_spec call out todo :
  (foldl th_extend (call, out) todo).2 = out ++ (Some <$> th_extra call todo).
Proof.
  revert call out. induction todo as [|t todo IH]; intros call out; cbn [foldl th_extend th_extra]; [by rewrite app_nil_r|].
  rewrite emit_snis, IH, fmap_app. by rewrite <-app_assoc.
Qed.

Lemma th_turns l out todo :
  foldM th_turn (out, todo) (Some <$> l) =
  Ok (out ++ (Some <$> l), todo ++ filter (λ t, VerifyHostname t ∈ testHelpersDomains) l).
Proof.
  revert out todo. induction l as [|t l IH]; intros out todo; [cbn; by rewrite !app_nil_r|].
  cbn [fmap list_fmap foldM th_turn deref_tactic mbind outcome_bind]. rewrite filter_cons.
  case_decide as Ht; [rewrite bool_decide_true by done|rewrite bool_decide_false by done];
    cbn [negb mbind outcome_bind]; (etrans; [apply IH|]); by rewrite <-!app_assoc.
Qed.

Lemma testHelpers_spec `{httpsDialerPolicy C} (c : C) domain port l :
  LookupTactics c domain port = Ok (Some <$> l) →
  LookupTactics (mkTestHelpersPolicy c) domain port =
  Ok (Some <$> (l ++ th_extra 0 (filter (λ t, VerifyHostname t ∈ testHelpersDomains) l))).
Proof.
  intros Hc. unfold LookupTactics at 1, testHelpersPolicy_LookupTactics. cbn [th_Child].
  rewrite Hc. cbn [mbind outcome_bind].
  rewrite th_turns. cbn [mbind outcome_bind app]. by rewrite th_extend_spec, fmap_app.
Qed.

Lemma th_extra_elem call todo t :
  t ∈ th_extra call todo ↔ ∃ t0 sni, t0 ∈ todo ∧ sni ∈ bridgesDomains ∧
    t = mkTactic (Address t0) 0 (Port t0) sni (VerifyHostname t0).
Proof.
  revert call. induction todo as [|t0 todo IH]; intros call; cbn [th_extra].
  - split; [by intros ?%not_elem_of_nil|by intros (? & ? & ?%not_elem_of_nil & _)].
  - rewrite elem_of_app, IH, with_snis_elem. setoid_rewrite elem_of_cons. naive_solver.
Qed.
End policies.

(** *** The statistics *)

Section stats.
Context `{RangeOrder} `{StableSort}.

Lemma stats_filter_spec l :
  ∃ out, statsPolicyFilterStatsTactics l true = Ok (Some <$> out) ∧
    ∀ t, t ∈ out ↔ ∃ st, Some st ∈ l ∧ Tactic st = Some t ∧ 0 < CountSuccess st.
Proof.
  unfold statsPolicyFilterStatsTactics. cbn [negb].
  assert (Hacc : ∀ o, accept_success o = true ↔ ∃ st t, o = Some st ∧ Tactic st = Some t ∧ 0 < CountSuccess st).
  { intros [st|]; cbn; [|naive_solver]. rewrite andb_true_iff, Z.ltb_lt.
    destruct (Tactic st) as [t|] eqn:E; cbn; [naive_solver|]. split; [naive_solver|]. intros (st' & t & [= <-] & Ht & _). congruence. }
  set (s := statsDefensivelySortTacticsByDescendingSuccessRateWithAcceptPredicate l accept_success).
  assert (Hs : ∀ o, o ∈ s ↔ ∃ st t, o = Some st ∧ Some st ∈ l ∧ Tactic st = Some t ∧ 0 < CountSuccess st).
  { intros o. subst s. rewrite stats_sort_elem, Hacc, well_formed_spec. naive_solver. }
  exists (omap tactic_of s). split.
  - cut (∀ acc, (∀ o, o ∈ s → accept_success o = true) →
      foldM (λ out t, _ ← Assert (accept_success t) "expected well-formed *statsTactic"; st ← deref t; Ok (out ++ [Tactic st]))
        acc s = Ok (acc ++ (Some <$> omap tactic_of s))).
    { intros ->; [done|]. intros o Ho. apply Hacc. apply Hs in Ho. naive_solver. }
    clear Hs. induction s as [|o s IH]; intros acc Ha; [cbn; by rewrite app_nil_r|].
    assert (Ho : accept_success o = true) by (apply Ha; set_solver). cbn [foldM]. rewrite Ho.
    apply Hacc in Ho as (st & t & -> & Ht & _). cbn. rewrite Ht, IH by (intros; apply Ha; set_solver).
    cbn. by rewrite <-app_assoc.
  - intros t. rewrite list_elem_of_omap. setoid_rewrite Hs. unfold tactic_of. split.
    + intros (o & (st & t' & -> & Hin & Ht & Hc) & E). exists st. naive_solver.
    + intros (st & Hin & Ht & Hc). exists (Some st). naive_solver.
Qed.

Lemma statsPolicy_spec c domain port :
  stats_ok c → ∃ l, LookupTactics (mkStatsPolicy c) domain port = Ok (Some <$> l) ∧
    ∀ t, t ∈ l ↔ ∃ k st, record_at c (JoinHostPort domain port, k) = Some st ∧ Tactic st = Some t ∧ 0 < CountSuccess st.
Proof.
  intros Hc. unfold LookupTactics, statsPolicyV2_LookupTactics. cbn [sp_Stats].
  destruct (stats_LookupTactics_ok c domain port Hc) as (out & good & -> & -> & Hout). cbn [mbind outcome_bind].
  destruct out as [|o out].
  - exists []. split; [done|]. intros t. split; [by intros ?%not_elem_of_nil|].
    intros (k & st & Hr & _). exfalso. apply (not_elem_of_nil (Some st)), Hout. by exists k, st.
  - cbn [length Nat.ltb Nat.leb]. destruct (stats_filter_spec (o :: out)) as (l & -> & Hl). exists l. split.
    + cbn [mbind outcome_bind]. unfold streamTacticsFromSlice. by rewrite (foldl_append id), list_fmap_id.
    + intros t. rewrite Hl. split.
      * intros (st & (k & st' & [= <-] & Hr)%Hout & Ht & Hs). by exists k, st.
      * intros (k & st & Hr & Ht & Hs). exists st. split_and!; [|done..]. apply Hout. by exists k, st.
Qed.
End stats.

(** ** The policy of the engine *)

(** Where a tactic may come from when neither a proxy nor the user decide. *)
Inductive tactic_source (dns : dnsPolicy) (stats : statsContainer) (domain port : string) : httpsDialerTactic → Prop :=
  | from_dns addr :
      addr ∈ dns_addrs dns domain →
      tactic_source dns stats domain port (mkTactic addr 0 port domain domain)
  | from_test_helper addr sni :
      domain ∈ testHelpersDomains → addr ∈ dns_addrs dns domain → sni ∈ bridgesDomains →
      tactic_source dns stats domain port (mkTactic addr 0 port sni domain)
  | from_bridge sni :
      domain = "api.ooni.io" → sni ∈ bridgesDomains →
      tactic_source dns stats domain port (mkTactic "162.55.247.208" 0 port sni domain)
  | from_stats k st t :
      record_at stats (JoinHostPort domain port, k) = Some st → Tactic st = Some t → 0 < CountSuccess st →
      tactic_source dns stats domain port t.

(** The tactics the user wants for an endpoint. *)
Definition user_tactics (user : userPolicyV2) (domain port : string) : list httpsDialerTactic :=
  real_tactics (default [] (upr_DomainEndpoints (up_Root user) !! JoinHostPort domain port)).

Lemma some_list_perm {A} (out : list (option A)) (l : list A) :
  out ≡ₚ Some <$> l → ∃ l', out = Some <$> l' ∧ l' ≡ₚ l.
Proof.
  intros Hp. exists (omap id out).
  assert (Hall : ∀ o, o ∈ out → is_Some o).
  { intros o. rewrite Hp, list_elem_of_fmap. intros (x & -> & _). by eexists. }
  split.
  - clear Hp. induction out as [|o out IH]; [done|]. destruct (Hall o) as [x ->]; [set_solver|].
    cbn. f_equal. apply IH. intros; apply Hall; set_solver.
  - rewrite Hp. clear. induction l as [|x l IH]; [done|]. cbn. by constructor.
Qed.

Lemma userPolicy_spec user domain port :
  LookupTactics user domain port = Ok (Some <$> user_tactics user domain port).
Proof.
  unfold LookupTactics, userPolicyV2_LookupTactics, user_tactics.
  destruct (upr_DomainEndpoints (up_Root user) !! JoinHostPort domain port) as [l|]; [|done].
  change (userPolicyRemoveNilEntries l) with (filterOutNilTactics l). rewrite filterOutNil_real. cbn [default from_option id].
  destruct (real_tactics l) as [|t r]; [done|]. cbn [fmap list_fmap length Nat.leb].
  by rewrite (foldl_append id), list_fmap_id.
Qed.

Section network.
Context `{RangeOrder} `{StableSort} `{RandomShuffle}.

(** The interleaving of two policies that emit no nil. *)
Lemma interleave_some `{httpsDialerPolicy P, httpsDialerPolicy F} (p : mixPolicyInterleave P F) domain port l1 l2 :
  LookupTactics (il_Primary p) domain port = Ok (Some <$> l1) →
  LookupTactics (il_Fallback p) domain port = Ok (Some <$> l2) →
  ∃ l, LookupTactics p domain port = Ok (Some <$> l) ∧ l ≡ₚ l1 ++ l2.
Proof.
  intros H1' H2'.
  unfold LookupTactics at 1, mixPolicyInterleave_LookupTactics. rewrite H1', H2'. cbn [mbind outcome_bind].
  rewrite interleave_loop_spec by (unfold interleave_fuel; cbn; lia). cbn [app left_on default from_option id].
  destruct (rounds_all (interleave_fuel (Some <$> l1) (Some <$> l2)) (Z.to_nat (Z.max 1 (il_Factor p))) (Some <$> l1) (Some <$> l2))
    as (Hp & _ & _); [unfold interleave_fuel; lia..|].
  rewrite <-fmap_app in Hp. destruct (some_list_perm _ _ Hp) as (l & -> & Hl). by exists l.
Qed.

Lemma composed_spec dns stats domain port :
  stats_ok stats →
  ∃ l, LookupTactics (mkInterleave (mkTestHelpersPolicy dns) (mkInterleave (mkStatsPolicy stats) mkBridgesPolicy 3) 3)
         domain port = Ok (Some <$> l) ∧
    ∀ t, t ∈ l ↔ tactic_source dns stats domain port t.
Proof.
  intros Hs. destruct (statsPolicy_spec stats domain port Hs) as (ls & Els & Hls).
  set (lb := if decide (domain = "api.ooni.io") then with_snis 0 "162.55.247.208" port domain else []).
  destruct (interleave_some (mkInterleave (mkStatsPolicy stats) mkBridgesPolicy 3) domain port ls lb) as (lsb & Elsb & Hlsb);
    [done|apply bridges_spec|].
  set (ld := (λ addr, mkTactic addr 0 port domain domain) <$> dns_addrs dns domain).
  set (lt := ld ++ th_extra 0 (filter (λ t, VerifyHostname t ∈ testHelpersDomains) ld)).
  destruct (interleave_some (mkInterleave (mkTestHelpersPolicy dns) (mkInterleave (mkStatsPolicy stats) mkBridgesPolicy 3) 3)
    domain port lt lsb) as (l & El & Hl); [apply testHelpers_spec, dnsPolicy_spec|done|].
  exists l. split; [done|]. intros t. rewrite Hl, elem_of_app, Hlsb, elem_of_app, Hls.
  assert (Hld : ∀ t, t ∈ ld ↔ ∃ addr, addr ∈ dns_addrs dns domain ∧ t = mkTactic addr 0 port domain domain)
    by (intros t'; subst ld; rewrite list_elem_of_fmap; naive_solver).
  assert (Hlb : t ∈ lb ↔ domain = "api.ooni.io" ∧ ∃ sni, sni ∈ bridgesDomains ∧ t = mkTactic "162.55.247.208" 0 port sni domain).
  { subst lb. case_decide; [rewrite with_snis_elem; tauto|]. split; [by intros ?%not_elem_of_nil|tauto]. }
  subst lt. rewrite Hlb, elem_of_app, th_extra_elem. setoid_rewrite list_elem_of_filter. setoid_rewrite Hld. split.
  - intros [[(addr & Ha & ->)|(t0 & sni & (Hd & addr & Ha & ->) & Hsni & ->)]|[(k & st & Hr & Ht & Hc)|(-> & sni & Hsni & ->)]].
    + by apply from_dns.
    + by apply from_test_helper.
    + by eapply from_stats.
    + by apply from_bridge.
  - intros [addr Ha|addr sni Hd Ha Hsni|sni Hd Hsni|k st t' Hr Ht Hc].
    + left. left. eauto.
    + left. right. exists (mkTactic addr 0 port domain domain), sni. split_and!; eauto.
    + right. right. eauto.
    + right. left. eauto.
Qed.

(** The dialing policy answers, without panics, and emits exactly: with a proxy,
    the tactics of the DNS; with a user policy that has tactics for the endpoint, these in their order; otherwise
    the DNS addresses, other server names for them when the host is a test helper, the bridge with
    each server name when the host is the OONI API, and the tactics that worked before. *)
Theorem network_policy_spec {bytes} (kvStore_Get : string → result string bytes) hujsonx_Unmarshal
    has_proxy dns stats domain port (Hstats : stats_ok stats)
    (Huser : ∀ user, newUserPolicyV2 kvStore_Get hujsonx_Unmarshal = Val user →
       Z.of_nat (length (user_tactics user domain port)) ≤ int64_max) :
  ∃ l, LookupTactics (newHTTPSDialerPolicy kvStore_Get hujsonx_Unmarshal has_proxy dns stats) domain port = Ok (Some <$> l) ∧
    let own := match newUserPolicyV2 kvStore_Get hujsonx_Unmarshal with
               | Val user => user_tactics user domain port
               | Err _ => []
               end in
    if has_proxy then l = (λ addr, mkTactic addr 0 port domain domain) <$> dns_addrs dns domain
    else if decide (own = []) then ∀ t, t ∈ l ↔ tactic_source dns stats domain port t
    else l = own.
Proof.
  unfold newHTTPSDialerPolicy. destruct has_proxy; [eexists; split; [apply dnsPolicy_spec|done]|].
  destruct (composed_spec dns stats domain port Hstats) as (l & El & Hl).
  destruct (newUserPolicyV2 kvStore_Get hujsonx_Unmarshal) as [user|err]; [|by exists l].
  specialize (Huser user eq_refl).
  set (composed := mkInterleave _ _ _) in *. cbn zeta.
  assert (E := eitherOr_spec (mkEitherOr user composed) domain port _ _ (userPolicy_spec user domain port) El).
  rewrite length_fmap in E. specialize (E Huser).
  destruct (user_tactics user domain port) as [|t own] eqn:Eo.
  - exists l. split; [exact E|done].
  - exists (t :: own). split; [exact E|by rewrite decide_False].
Qed.
End network.

(** ** Sessions *)

(** Hosts and ports as [net.SplitHostPort] gives them for the endpoints of URLs. *)
Definition endpoint_ok (domain port : string) : Prop :=
  plain domain ∧ plain port ∧ ContainsByte port ":"%char = false.

Lemma JoinHostPort_inj d1 p1 d2 p2 :
  endpoint_ok d1 p1 → endpoint_ok d2 p2 → JoinHostPort d1 p1 = JoinHostPort d2 p2 → d1 = d2 ∧ p1 = p2.
Proof.
  intros (Hd1 & Hp1 & Hc1) (Hd2 & Hp2 & Hc2) E.
  pose proof (SplitHostPort_JoinHostPort d1 p1 Hd1 Hp1 Hc1) as E1. rewrite E in E1.
  rewrite (SplitHostPort_JoinHostPort d2 p2 Hd2 Hp2 Hc2) in E1. by injection E1.
Qed.

(** Every record is about the endpoint it is stored under. *)
Definition stats_consistent (c : statsContainer) : Prop :=
  ∀ e k st t, record_at c (e, k) = Some st → Tactic st = Some t →
    domainEndpointKey t = e ∧ endpoint_ok (VerifyHostname t) (Port t).

Lemma apply_event_tactic now ev o st t :
  apply_event now ev o = Some st → Tactic st = Some t →
  (∃ st0, o = Some st0 ∧ Tactic st0 = Some t) ∨ t = event_tactic ev.
Proof.
  intros E Ht. destruct o as [st0|].
  - destruct (apply_event_counter now ev st0) as (st' & E' & _ & Htac & _). rewrite E' in E. injection E as ->.
    left. exists st0. by rewrite <-Htac.
  - right. destruct ev as [t0|[] ? ?|[] ? ?|? ?|?]; cbn in E; try done. injection E as <-. cbn in Ht.
    injection Ht as <-. apply tactic_Clone_id.
Qed.

Lemma handle_consistent now ev c c' :
  event_update c now ev c' → stats_consistent c →
  endpoint_ok (VerifyHostname (event_tactic ev)) (Port (event_tactic ev)) → stats_consistent c'.
Proof.
  intros [_ Hrec] Hc Hev e k st t. rewrite Hrec. case_decide as Hp; [|by apply Hc].
  intros Ha Ht. destruct (apply_event_tactic _ _ _ _ _ Ha Ht) as [(st0 & Hst0 & Ht0)| ->].
  - by eapply Hc.
  - unfold tactic_keys in Hp. by simplify_eq.
Qed.

Section session.
Context `{RangeOrder} `{StableSort} `{RandomShuffle} {bytes : Type}.
Context (kvStore_Get : string → result string bytes) (hujsonx_Unmarshal : bytes → result string userPolicyRoot).

Context (json_Unmarshal : bytes → result string statsContainer) (json_Marshal : statsContainer → bytes).

(** The engine without a user policy: the statistics, the tactics that the
    dialers of this process were given so far, and the statistics file. *)
Record session := mkSession {
  ses_stats : statsContainer;
  ses_tactics : list httpsDialerTactic;
  ses_file : option bytes;
}.

Definition stats_store (file : option bytes) (key : string) : result string bytes :=
  match file with Some data => Val data | None => Err "no such key" end.

(** A process that starts with a statistics file. *)
Definition starts_with (file : option bytes) (s : session) : Prop :=
  ∃ now trimInterval mt,
    newStatsManager json_Unmarshal now (stats_store file) trimInterval = Ok mt ∧
    s = mkSession (sm_container mt) [] file.

Definition session_policy (has_proxy : bool) (dns : dnsPolicy) (s : session) : network_policy :=
  newHTTPSDialerPolicy kvStore_Get hujsonx_Unmarshal has_proxy dns (ses_stats s).

Inductive session_step : session → session → Prop :=
  (* DialTLSContext asks the policy for tactics *)
  | session_dial s has_proxy dns domain port emitted filtered :
      endpoint_ok domain port →
      LookupTactics (session_policy has_proxy dns s) domain port = Ok emitted →
      httpsDialerFilterTactics emitted = Ok filtered →
      session_step s (s <| ses_tactics ::= λ l, l ++ real_tactics filtered |>)
  (* a worker reports what happened to a tactic *)
  | session_call s now ev c :
      event_tactic ev ∈ ses_tactics s → event_ok ev →
      handle (ses_stats s) (now, ev) = Ok c →
      session_step s (s <| ses_stats := c |>)
  (* the background trimmer *)
  | session_trim s now c :
      statsContainerPruneEntries now (ses_stats s) = Ok c →
      session_step s (s <| ses_stats := c |>)
  (* the process ends, killed or after Close, whose write may fail; another one starts *)
  | session_killed s s' : starts_with (ses_file s) s' → session_step s s'
  | session_closed s s' now mt set_err err key data :
      Close json_Marshal now set_err (mkStatsManager (ses_stats s) false) = Ok (mt, err, Some (key, data)) →
      starts_with (if set_err is Some _ then ses_file s else Some data) s' → session_step s s'.

Inductive session_reachable : session → Prop :=
  | session_start s : starts_with None s → session_reachable s
  | session_next s s' : session_reachable s → session_step s s' → session_reachable s'.

Context (json_roundtrip : ∀ c, json_Unmarshal (json_Marshal c) = Val c).
Context (no_user_policy : ∃ err, newUserPolicyV2 kvStore_Get hujsonx_Unmarshal = Err err).

(** What the policy emits verifies the host that was asked for. *)
Lemma policy_verifies s has_proxy dns domain port :
  stats_ok (ses_stats s) → stats_consistent (ses_stats s) → endpoint_ok domain port →
  ∃ l, LookupTactics (session_policy has_proxy dns s) domain port = Ok (Some <$> l) ∧
    ∀ t, t ∈ l → VerifyHostname t = domain ∧ Port t = port.
Proof.
  intros Hok Hc He. unfold session_policy, newHTTPSDialerPolicy. destruct has_proxy.
  { eexists. split; [apply dnsPolicy_spec|]. intros t (addr & -> & _)%list_elem_of_fmap. done. }
  destruct no_user_policy as [err ->].
  destruct (composed_spec dns (ses_stats s) domain port Hok) as (l & El & Hl). exists l. split; [exact El|].
  intros t [addr|addr sni|sni|k st t' Hr Ht _]%Hl; [done..|].
  destruct (Hc _ _ _ _ Hr Ht) as [Hkey Hte]. by apply JoinHostPort_inj.
Qed.

Definition session_ok (s : session) : Prop :=
  stats_ok (ses_stats s) ∧ stats_consistent (ses_stats s) ∧
  (∀ t, t ∈ ses_tactics s → endpoint_ok (VerifyHostname t) (Port t)) ∧
  ∀ data, ses_file s = Some data → ∃ c, data = json_Marshal c ∧ stats_ok c ∧ stats_consistent c.

Lemma pruned_consistent now c c' :
  stats_ok c → stats_consistent c → statsContainerPruneEntries now c = Ok c' → stats_consistent c'.
Proof.
  intros Hok Hc Hp e k st t Hr Htac. apply (Hc e k st t); [|done]. by apply (prune_records _ _ _ _ _ _ Hok Hp).
Qed.

Lemma new_consistent : stats_consistent newStatsContainer.
Proof. intros e k st t. unfold record_at. cbn. by rewrite lookup_empty. Qed.

(** A new process is fine when the file is missing or was written by the program. *)
Lemma starts_ok file s :
  (∀ data, file = Some data → ∃ c, data = json_Marshal c ∧ stats_ok c ∧ stats_consistent c) →
  starts_with file s → session_ok s.
Proof.
  intros Hfile (now & trimInterval & mt & Hnew & ->).
  enough (Hc : stats_ok (sm_container mt) ∧ stats_consistent (sm_container mt)).
  { destruct Hc. split_and!; [done|done|by intros t ?%not_elem_of_nil|done]. }
  revert Hnew. unfold newStatsManager, loadStatsContainer. destruct (0 <? trimInterval); [|done]. cbn [Assert mbind outcome_bind].
  destruct file as [data|]; cbn [stats_store mbind outcome_bind].
  - destruct (Hfile _ eq_refl) as (c & -> & Hok & Hc). rewrite json_roundtrip.
    destruct (negb _); cbn [mbind outcome_bind]; [intros [= <-]; split; [apply newStatsContainer_ok|apply new_consistent]|].
    destruct (prune_ok now c) as (c' & Hp & Hok'). rewrite Hp. intros [= <-]. split; [done|].
    exact (pruned_consistent _ _ _ Hok Hc Hp).
  - intros [= <-]. split; [apply newStatsContainer_ok|apply new_consistent].
Qed.

Lemma filtered_tactics emitted filtered t :
  httpsDialerFilterTactics emitted = Ok filtered → t ∈ real_tactics filtered →
  ∃ t0 i, t0 ∈ real_tactics emitted ∧ t = delayed i t0.
Proof.
  unfold httpsDialerFilterTactics. rewrite filterOutNil_real, filterOnlyKeepUnique_firsts. cbn [mbind outcome_bind].
  unfold filterAssignInitialDelays. change 0 with (wrap64 0). rewrite delay_loop. intros [= <-]. cbn [app].
  unfold real_tactics at 1. rewrite list_elem_of_omap. intros (o & Ho & E).
  apply elem_of_lookup_imap in Ho as (i & t0 & -> & Ht0). cbn in E. injection E as <-.
  exists t0. eexists. split; [|done]. eapply elem_of_sublist; [|apply firsts_by_key_sublist]. by eapply list_elem_of_lookup_2.
Qed.

Lemma session_invariant s : session_reachable s → session_ok s.
Proof.
  induction 1 as [s Hs|s s' _ (Hok & Hc & Ht & Hfile) Hstep]; [eapply starts_ok; [|exact Hs]; done|].
  destruct Hstep as [s has_proxy dns domain port emitted filtered He Hl Hf|s now ev c Hin Hev Hh|s now c Hp|s s' Hs'
    |s s' now mt set_err err key data Hclose Hs'].
  - split_and!; [done..| |done]. cbn. intros t [Hin|Hin]%elem_of_app; [by apply Ht|].
    destruct (policy_verifies s has_proxy dns domain port Hok Hc He) as (l & El & Hv).
    rewrite Hl in El. injection El as ->. destruct (filtered_tactics _ _ _ Hf Hin) as (t0 & i & Hin0 & ->).
    unfold real_tactics in Hin0. apply list_elem_of_omap in Hin0 as (o & (t1 & -> & Ht1)%list_elem_of_fmap & [= ->]).
    destruct (Hv _ Ht1) as [<- <-]. exact He.
  - destruct (handle_update now ev _ Hok Hev) as (c' & Hh' & Hup). rewrite Hh in Hh'. injection Hh' as <-.
    split_and!; [by destruct Hup| |done|done]. eapply handle_consistent; [exact Hup|done|]. by apply Ht.
  - destruct (prune_ok now (ses_stats s)) as (c' & Hp' & Hok'). rewrite Hp in Hp'. injection Hp' as <-.
    split_and!; [done| |done|done]. exact (pruned_consistent _ _ _ Hok Hc Hp).
  - eapply starts_ok; [|exact Hs']; exact Hfile.
  - eapply starts_ok; [|exact Hs']. destruct set_err; [done|]. intros data' [= <-]. unfold Close in Hclose. cbn in Hclose.
    destruct (prune_ok now (ses_stats s)) as (c' & Hp' & Hok'). rewrite Hp' in Hclose. cbn in Hclose.
    injection Hclose as <- <- <- <-. exists c'. split_and!; [done|done|].
    exact (pruned_consistent _ _ _ Hok Hc Hp').
Qed.

(** C11: without a user policy, however dialing, statistics and trimming interleave,
    a TLS connection that the engine gets for a host and port has a certificate chain that verifies for
    that host, whatever server name the tactic sent; and every tactic that is tried dials that port. The
    statistics are those of any number of processes that ran one after the other, closed or killed, on a
    statistics file that only they write (one edited by hand may name other hosts). *)
Theorem engine_verifies_host x509_Verify s has_proxy dns domain port emitted filtered d conn closed
    (Hs : session_reachable s) (He : endpoint_ok domain port)
    (Hemit : LookupTactics (session_policy has_proxy dns s) domain port = Ok emitted)
    (Hfilter : httpsDialerFilterTactics emitted = Ok filtered)
    (Hd : dialer_reachable (dials_with x509_Verify) (real_tactics filtered) d)
    (Hans : httpsDialerReduceResult (di_connv d) (di_errorv d) = Ok (Val conn, closed)) :
  verified x509_Verify domain conn ∧
  ∀ t, t ∈ real_tactics filtered → VerifyHostname t = domain ∧ Port t = port.
Proof.
  destruct (session_invariant s Hs) as (Hok & Hc & _ & _).
  destruct (policy_verifies s has_proxy dns domain port Hok Hc He) as (l & El & Hl).
  rewrite Hemit in El. injection El as ->.
  assert (Hall : ∀ t, t ∈ real_tactics filtered → VerifyHostname t = domain ∧ Port t = port).
  { intros t Ht. destruct (filtered_tactics _ _ _ Hfilter Ht) as (t0 & i & Hin0 & ->).
    unfold real_tactics in Hin0. apply list_elem_of_omap in Hin0 as (o & (t1 & -> & Ht1)%list_elem_of_fmap & [= ->]).
    exact (Hl _ Ht1). }
  split; [|done].
  pose proof (reduce_conn _ _ _ _ Hans) as Hin.
  destruct (dialed_verified _ _ _ _ Hd Hin) as (t & Ht & Hv). by destruct (Hall t Ht) as [<- _].
Qed.
End session.

Lemma network_policy_spec_witness :
  let dns := mkDnsPolicy None (λ _, Val ["1.2.3.4"]) in
  stats_ok newStatsContainer ∧
  ∃ l, LookupTactics (@newHTTPSDialerPolicy unit (λ _, Err "no such key") (λ _, Err "") false dns newStatsContainer)
         (httpsDialerPolicy := @network_policy_LookupTactics range_ascending go_insertion_sort no_shuffle) "0.th.ooni.org" "443" =
       Ok (Some <$> l) ∧ mkTactic "1.2.3.4" 0 "443" "fastly.com" "0.th.ooni.org" ∈ l.
Proof.
  intros dns. split; [apply newStatsContainer_ok|].
  destruct (@network_policy_spec range_ascending go_insertion_sort no_shuffle unit (λ _, Err "no such key") (λ _, Err "")
    false dns newStatsContainer "0.th.ooni.org" "443" newStatsContainer_ok ltac:(by intros user [=])) as (l & E & Hl).
  exists l. split; [exact E|]. apply Hl. apply from_test_helper; [by left|by left|].
  apply (list_elem_of_lookup_2 _ 39). vm_compute. reflexivity.
Defined.

Lemma engine_verifies_host_witness :
  let verify := λ (_ _ : string) (_ : list string), @None error in
  let dns := mkDnsPolicy None (λ _, Val ["1.2.3.4"]) in
  let t := mkTactic "1.2.3.4" 0 "443" "x.org" "x.org" in
  let conn := mkTLSConn 7 ["certificate"] in
  verified verify "x.org" conn.
Proof.
  intros verify dns t conn.
  set (s := mkSession (bytes := statsContainer) newStatsContainer [] None).
  assert (Hs : session_reachable (H := range_ascending) (H0 := go_insertion_sort) (H1 := no_shuffle)
    (λ _, Err "no such key" : result string statsContainer) (λ _, Err "") Val (λ c, c) s).
  { apply session_start. exists (λ _, 0), 1. eexists. split; [reflexivity|reflexivity]. }
  assert (He : endpoint_ok "x.org" "443") by done.
  set (d0 := dialer_start [t]).
  set (d3 := collect (Val conn) (set_worker 0 AtReader (set_worker 0 (AtWriter t (Val conn))
    (set_worker 0 (Dialing t) (d0 <| di_emitter := [] |>))))).
  assert (Hd : dialer_reachable (dials_with verify) [t] d3).
  { eapply dialer_reachable_step; [eapply dialer_reachable_step; [eapply dialer_reachable_step|]|].
    - apply dialer_reachable_start.
    - by apply (step_read _ _ 0 t []).
    - apply (step_dial _ _ 0 t (Val conn)); [done|]. exists (mkDialEnv None (Val 7%nat) None (Val ["certificate"]) None).
      eexists. reflexivity.
    - apply (step_collect _ _ 0 t (Val conn)); [done|]. cbn. unfold parallelism. lia. }
  exact (proj1 (@engine_verifies_host range_ascending go_insertion_sort no_shuffle statsContainer (λ _, Err "no such key") (λ _, Err "")
    Val (λ c, c) ltac:(reflexivity) ltac:(by eexists) verify s false dns "x.org" "443" [Some t] [Some t] d3 conn [] Hs He
    ltac:(vm_compute; reflexivity) ltac:(vm_compute; reflexivity) Hd ltac:(reflexivity))).
Defined.
