(* ===== verification/EngineIO.v ===== *)
(** * The world of the engine

    The effects of the code that talks with the OONI backends, as a state monad over a world: a
    key-value store ([pkg/kvstore]), the clock, random numbers ([pkg/randx]) and the network,
    through which [pkg/httpclientx] sends its requests.  The world keeps a log of the exchanges, which no
    code reads: the properties of the clients are stated on it. *)
From S2P Require Import Prelude Failures GoSort GoString GoURL NetErrors LteTestKeys Overlapped.
From S2P Require Import GoHTTP.
From Stdlib Require Import Ascii.

(** ** Interfaces: key-value stores, JSON, the network *)

(** [model.KeyValueStore]: a failed [Set] may leave anything under its key. *)
Class KeyValueStore (Store bytes : Type) := {
  kv_Get : Store → string → result error bytes;
  kv_Set : Store → string → bytes → Store * option error;
}.

Class KeyValueStoreLaws (Store bytes : Type) `{KeyValueStore Store bytes} : Prop := {
  kv_Get_Set s key value s' : kv_Set s key value = (s', None) → kv_Get s' key = Val value;
  kv_Get_other s key key' value s' err : key ≠ key' → kv_Set s key value = (s', err) → kv_Get s' key' = kv_Get s key';
}.

(** [kvstore.Memory]; a nil map reads as an empty one. *)
Record Memory (bytes : Type) := mkMemory { mem_m : option (gmap string bytes) }.
Arguments mkMemory {_} _.
Arguments mem_m {_} _.

Definition ErrNoSuchKey : error := ErrValue "ErrNoSuchKey" [] "no such key".

Definition Memory_Get {bytes} (kvs : Memory bytes) (key : string) : result error bytes :=
  match default ∅ (mem_m kvs) !! key with Some value => Val value | None => Err ErrNoSuchKey end.

Definition Memory_Set {bytes} (kvs : Memory bytes) (key : string) (value : bytes) : Memory bytes * option error :=
  let m := match mem_m kvs with Some m => m | None => ∅ end in
  (mkMemory (Some (<[key := value]> m)), None).

#[export] Instance Memory_store bytes : KeyValueStore (Memory bytes) bytes := {| kv_Get := Memory_Get; kv_Set := Memory_Set |}.

#[export] Instance Memory_laws bytes : KeyValueStoreLaws (Memory bytes) bytes.
Proof.
  split; unfold kv_Get, kv_Set; cbn; unfold Memory_Get, Memory_Set.
  - intros s key value s' [= <-]. cbn. by rewrite lookup_insert_eq.
  - intros s key key' value s' err Hk [= <- <-]. cbn. rewrite lookup_insert_ne by done. by destruct (mem_m s).
Qed.

(** [json.Marshal] and [json.Unmarshal] into a new variable; [None] is the literal [null], which leaves the variable as it is. *)
Class JSON (bytes A : Type) := {
  json_Marshal : A → result error bytes;
  json_Unmarshal : bytes → result error (option A);
}.

(** What is marshalled can be read again. *)
Class JSONLaws (bytes A : Type) `{JSON bytes A} : Prop :=
  json_roundtrip (a : A) data : json_Marshal a = Val data → json_Unmarshal data = Val (Some a).

(** A request, with the headers that the code sets. *)
Record api_request := mkAPIRequest {
  rq_Method : string;
  rq_URL : string;
  rq_Host : string;
  rq_Authorization : string;
  rq_UserAgent : string;
  rq_ContentType : string;
  rq_Body : string;
}.

(** The answer of the HTTP client, and whether the context is done when the body is read. *)
Record http_answer := mkAnswer { an_ctx_Err : option error; an_response : result error http_response }.

Class Network (Net : Type) := client_Do : api_request → Net → http_answer * Net.

(** ** The world *)

Section world.
Context {Store Net : Type}.

Record world := mkWorld {
  w_store : Store;
  w_now : nat → Time;
  w_readings : nat;
  (* [rand.Intn] of a draw, for an upper bound *)
  w_Intn : nat → Z → Z;
  w_draws : nat;
  w_net : Net;
  w_log : list (api_request * http_answer);
}.

Definition io (A : Type) : Type := world → outcome (A * world).

#[export] Instance io_ret : MRet io := λ A a w, Ok (a, w).
#[export] Instance io_bind : MBind io := λ A B f m w, '(a, w) ← m w; f a w.

Definition io_lift {A} (m : outcome A) : io A := λ w, a ← m; Ok (a, w).

(** [time.Now()] *)
Definition io_Now : io Time := λ w, Ok (w_now w (w_readings w), w <| w_readings ::= S |>).

(** [kvstore.Set] *)
Definition io_Set {bytes} `{KeyValueStore Store bytes} (key : string) (value : bytes) : io (option error) := λ w,
  let '(store, err) := kv_Set (w_store w) key value in Ok (err, w <| w_store := store |>).
End world.
Arguments world : clear implicits.
Arguments io : clear implicits.

(** ** Random strings ([randx]) *)

Definition uppercase : string := "ABCDEFGHIJKLMNOPQRSTUVWXYZ".
Definition lowercase : string := "abcdefghijklmnopqrstuvwxyz".
Definition letters : string := uppercase +:+ lowercase.

Section randx.
Context {Store Net : Type}.

Fixpoint lettersWithString (n : nat) (letterBytes : string) : io Store Net string :=
  match n with
  | O => mret ""
  | S n =>
      b ← (λ w, let i := w_Intn w (w_draws w) (Z.of_nat (String.length letterBytes)) in
             match String.get (Z.to_nat i) letterBytes with
             | Some b => if i <? 0 then Panic "index out of range" else Ok (b, w <| w_draws ::= S |>)
             | None => Panic "index out of range"
             end);
      rest ← lettersWithString n letterBytes;
      mret (String b rest)
  end.

Definition Letters (n : nat) : io Store Net string := lettersWithString n letters.
End randx.

(** ** URLs ([urlx]) *)

(** The error of [url.Parse]. *)
Definition url_error (rawURL : string) : error := ErrValue "url.Error" [] ("parse " +:+ rawURL).

Definition urlx_ResolveReference (baseURL path rawQuery : string) : result error string :=
  match url_Parse baseURL with
  | None => Err (url_error baseURL)
  | Some parsedBase => Val (url_String (ResolveReference parsedBase (simple_URL "" "" path rawQuery)))
  end.

(** The path of the base is replaced, not extended as the comment of the function says. *)
Lemma urlx_replaces_path : urlx_ResolveReference "https://api.ooni.io/api/v1" "/measurement_meta" "full=true" =
  Val "https://api.ooni.io/measurement_meta?full=true".
Proof. vm_compute. reflexivity. Qed.

(** [url.QueryEscape] *)
Fixpoint QueryEscape (s : string) : string :=
  match s with
  | "" => ""
  | String c s =>
      (if is_alpha c || is_digit c || one_of c "-_.~" then String c ""
       else if Ascii.eqb c " " then "+"
       else String "%" (String (upperhex (N_of_ascii c / 16)) (String (upperhex (N_of_ascii c mod 16)) ""))) +:+ QueryEscape s
  end.

(** [url.Values] with one value per key, and [Encode], which sorts by key. *)
Definition Values_Encode (values : list (string * string)) : string :=
  String.concat "&" (map (λ '(key, value), QueryEscape key +:+ "=" +:+ QueryEscape value) (insertion_sort (by_key fst String.ltb) values)).

Example Values_Encode_sorts : Values_Encode [("report_id", "a b/c"); ("full", "true")] = "full=true&report_id=a+b%2Fc".
Proof. vm_compute. reflexivity. Qed.

(** [url.QueryUnescape]: a [+] is a space. *)
Definition QueryUnescape (s : string) : option string :=
  unescape (string_map (λ c, if Ascii.eqb c "+" then " "%char else c) s) encodePath.

(** [URL.Query]: what cannot be parsed is dropped. *)
Definition ParseQuery (query : string) : list (string * string) :=
  omap (λ key,
    if ContainsByte key ";" || String.eqb key "" then None
    else
      let '(key, value) := Cut key "=" in
      match QueryUnescape key, QueryUnescape value with
      | Some key, Some value => Some (key, value)
      | _, _ => None
      end) (Split query "&").

(** [Values.Get]: the first value, or the empty string. *)
Definition Query_Get (values : list (string * string)) (key : string) : string :=
  match find (λ '(k, _), String.eqb k key) values with Some (_, value) => value | None => "" end.

(** ** Calls ([httpclientx]) *)

Section calls.
Context {Store Net : Type} `{Network Net}.
Context (gzip_NewReader : reader → result error reader).

(** The fields of [Config] that the clients of the engine set. *)
Record client_config := mkClientConfig { cc_Authorization : string; cc_UserAgent : string }.

(** [http.NewRequestWithContext] and [do]: the exchange is logged. *)
Definition http_call (method URL contentType body : string) (epnt : Endpoint) (config : client_config) : io Store Net (result error string) :=
  match url_Parse URL with
  | None => mret (Err (url_error URL))
  | Some _ => λ w,
      let req := mkAPIRequest method URL (epnt_Host epnt) (cc_Authorization config) (cc_UserAgent config) contentType body in
      let '(answer, net) := client_Do req (w_net w) in
      let w := w <| w_net := net |> <| w_log ::= λ log, log ++ [(req, answer)] |> in
      res ← do 0 gzip_NewReader (an_ctx_Err answer) (an_response answer);
      Ok (res, w)
  end.

(** [OverlappedIgnoreIndex(ovx.Run(ctx, epnt))] for one endpoint. *)
Definition run_one {A} (call : io Store Net (result error A)) : io Store Net (result error A) :=
  res ← call;
  mret (match OverlappedReduce [mkErrorOr 0 res] with Val (value, _) => Val value | Err err => Err err end).

Definition getRaw (epnt : Endpoint) (config : client_config) : io Store Net (result error string) :=
  http_call "GET" (epnt_URL epnt) "" "" epnt config.

Definition GetRaw (epnt : Endpoint) (config : client_config) : io Store Net (result error string) :=
  run_one (getRaw epnt config).

(** For an output that may be nil; a struct that is not behind a pointer stays as it was. *)
Definition decode_pointer {A} `{JSON string A} (data : string) : result error A :=
  match json_Unmarshal data with
  | Err err => Err err
  | Val None => Err ErrIsNil
  | Val (Some output) => Val output
  end.
Definition decode_struct {A} `{JSON string A} (zero : A) (data : string) : result error A :=
  match json_Unmarshal data with Err err => Err err | Val output => Val (default zero output) end.

Definition getJSON {A} (decode : string → result error A) (epnt : Endpoint) (config : client_config) : io Store Net (result error A) :=
  rawrespbody ← GetRaw epnt config;
  mret (match rawrespbody with Err err => Err err | Val data => decode data end).

Definition GetJSON {A} (decode : string → result error A) (epnt : Endpoint) (config : client_config) : io Store Net (result error A) :=
  run_one (getJSON decode epnt config).

Definition PostJSON {Input Output} `{JSON string Input} (decode : string → result error Output)
    (epnt : Endpoint) (input : Input) (config : client_config) : io Store Net (result error Output) :=
  run_one (
    match json_Marshal input with
    | Err err => mret (Err err)
    | Val rawreqbody =>
        rawrespbody ← http_call "POST" (epnt_URL epnt) "application/json" rawreqbody epnt config;
        mret (match rawrespbody with Err err => Err err | Val data => decode data end)
    end).
End calls.
