(* ===== verification/ProbeServices.v ===== *)
(** * The client of the probe services

    [pkg/probeservices] and [pkg/checkincache]: the choice of a service, registration and login with
    their state file, reports and their submission, and the check-in with its cache of feature flags. *)
From S2P Require Import Prelude Failures GoString GoURL NetErrors LteTestKeys Overlapped GoHTTP.
From S2P Require Import EngineIO.
From Stdlib Require Import Ascii.

(** ** What the API exchanges ([pkg/model]) *)

Record OOAPIReportTemplate := {
  rt_DataFormatVersion : string;
  rt_Format : string;
  rt_ProbeASN : string;
  rt_ProbeCC : string;
  rt_SoftwareName : string;
  rt_SoftwareVersion : string;
  rt_TestName : string;
  rt_TestStartTime : string;
  rt_TestVersion : string;
}.

#[export] Instance OOAPIReportTemplate_eq_dec : EqDecision OOAPIReportTemplate.
Proof. solve_decision. Defined.

Record OOAPICollectorOpenResponse := { or_BackendVersion : string; or_ReportID : string; or_SupportedFormats : list string }.

(** The test keys of an experiment are any type. *)
Record Measurement {TK : Type} := mkMeasurement {
  m_Annotations : option (gmap string string);
  m_DataFormatVersion : string;
  m_Extensions : option (gmap string Z);
  m_ID : string;
  m_Input : string;
  m_InputHashes : list string;
  m_MeasurementStartTime : string;
  m_MeasurementStartTimeSaved : Time;
  m_Options : list string;
  m_ProbeASN : string;
  m_ProbeCC : string;
  m_ProbeCity : string;
  m_ProbeIP : string;
  m_ProbeNetworkName : string;
  m_ReportID : string;
  m_ResolverASN : string;
  m_ResolverIP : string;
  m_ResolverNetworkName : string;
  m_SoftwareName : string;
  m_SoftwareVersion : string;
  m_TestHelpers : option (gmap string OOAPIService);
  m_TestKeys : TK;
  m_TestName : string;
  m_MeasurementRuntime : Z;
  m_TestStartTime : string;
  m_TestVersion : string;
}.
Arguments Measurement : clear implicits.

Record OOAPICollectorUpdateRequest {TK : Type} := mkUpdateRequest { ur_Format : string; ur_Content : Measurement TK }.
Arguments OOAPICollectorUpdateRequest : clear implicits.
Record OOAPICollectorUpdateResponse := { ur_MeasurementUID : string }.

Record OOAPILoginCredentials := mkCredentials { lc_Username : string; lc_Password : string }.
Record OOAPILoginAuth := mkAuth { la_Expire : Time; la_Token : string }.

Record OOAPIProbeMetadata := {
  pm_AvailableBandwidth : string;
  pm_DeviceToken : string;
  pm_Language : string;
  pm_NetworkType : string;
  pm_Platform : string;
  pm_ProbeASN : string;
  pm_ProbeCC : string;
  pm_ProbeFamily : string;
  pm_ProbeTimezone : string;
  pm_SoftwareName : string;
  pm_SoftwareVersion : string;
  pm_SupportedTests : list string;
}.

Definition metadata_Valid (m : OOAPIProbeMetadata) : bool :=
  if String.eqb (pm_ProbeCC m) "" then false
  else if String.eqb (pm_ProbeASN m) "" then false
  else if String.eqb (pm_Platform m) "" then false
  else if String.eqb (pm_SoftwareName m) "" then false
  else if String.eqb (pm_SoftwareVersion m) "" then false
  else if (length (pm_SupportedTests m) <? 1)%nat then false
  else if bool_decide (pm_Platform m ∈ ["ios"; "android"]) then negb (String.eqb (pm_DeviceToken m) "")
  else true.

Record OOAPIRegisterRequest := mkRegisterRequest { rr_Metadata : OOAPIProbeMetadata; rr_Password : string }.
Record OOAPIRegisterResponse := mkRegisterResponse { rr_ClientID : string }.

Record OOAPICheckInConfig := {
  ci_Charging : bool;
  ci_OnWiFi : bool;
  ci_Platform : string;
  ci_ProbeASN : string;
  ci_ProbeCC : string;
  ci_RunType : string;
  ci_SoftwareName : string;
  ci_SoftwareVersion : string;
  (* WebConnectivity.CategoryCodes: a slice that may be nil *)
  ci_CategoryCodes : option (list string);
}.

Record OOAPIURLInfo := { ui_CategoryCode : string; ui_CountryCode : string; ui_URL : string }.
Record OOAPICheckInInfoWebConnectivity := { wi_ReportID : string; wi_URLs : list OOAPIURLInfo }.

Record OOAPICheckInResult := {
  cr_Features : option (gmap string bool);
  cr_TestHelpers : option (gmap string (list OOAPIService));
  cr_ProbeASN : string;
  cr_ProbeCC : string;
  cr_WebConnectivity : option OOAPICheckInInfoWebConnectivity;
  cr_UTCTime : Time;
  cr_V : Z;
}.

(** ** Services ([benchselect.go], [probeservices.go]) *)

Definition default_services : list OOAPIService := [
  {| svc_Address := "https://api.ooni.io"; svc_Type := "https"; svc_Front := "" |};
  {| svc_Address := "https://dkyhjv0wpi2dk.cloudfront.net"; svc_Type := "cloudfront"; svc_Front := "dkyhjv0wpi2dk.cloudfront.net" |}].

(** The loop over the services of a type. *)
Definition of_type (type : string) (out l : list OOAPIService) : list OOAPIService :=
  foldl (λ out entry, if String.eqb (svc_Type entry) type then out ++ [entry] else out) out l.

Definition SortServices (l : list OOAPIService) : list OOAPIService :=
  of_type "onion" (of_type "cloudfront" (of_type "https" [] l) l) l.

Definition OnlyHTTPS (l : list OOAPIService) : list OOAPIService := of_type "https" [] l.

Definition OnlyFallbacks (l : list OOAPIService) : list OOAPIService :=
  foldl (λ out entry, if negb (String.eqb (svc_Type entry) "https") then out ++ [entry] else out) [] (SortServices l).

Definition ErrUnsupportedServiceType : error := ErrValue "ErrUnsupportedServiceType" [] "probe services: unsupported service type".
Definition ErrUnsupportedCloudFrontAddress : error :=
  ErrValue "ErrUnsupportedCloudFrontAddress" [] "probe services: unsupported cloud front address".
Definition ErrNotRegistered : error := ErrValue "ErrNotRegistered" [] "not registered".
Definition ErrNotLoggedIn : error := ErrValue "ErrNotLoggedIn" [] "not logged in".
Definition ErrInvalidMetadata : error := ErrValue "ErrInvalidMetadata" [] "invalid metadata".

(** The HTTP client, the store and the logger of the session are those of the world. *)
Record Client := mkClient { cl_BaseURL : string; cl_Host : string; cl_UserAgent : string }.

Definition NewClient (sess_UserAgent : string) (service : OOAPIService) : result error Client :=
  let client := mkClient (svc_Address service) "" sess_UserAgent in
  if String.eqb (svc_Type service) "https" then Val client
  else if String.eqb (svc_Type service) "cloudfront" then
    match url_Parse (cl_BaseURL client) with
    | None => Err (url_error (cl_BaseURL client))
    | Some URL =>
        if negb (String.eqb (Scheme URL) "https") || negb (String.eqb (Host URL) (Hostname URL))
        then Err ErrUnsupportedCloudFrontAddress
        else
          let client := client <| cl_Host := Hostname URL |> <| cl_BaseURL := url_String (URL <| Host := svc_Front service |>) |> in
          match url_Parse (cl_BaseURL client) with
          | None => Err (url_error (cl_BaseURL client))
          | Some _ => Val client
          end
    end
  else Err ErrUnsupportedServiceType.

Record Candidate := mkCandidate {
  cand_Duration : Duration;
  cand_Err : option error;
  cand_Service : OOAPIService;
  cand_TestHelpers : option (gmap string (list OOAPIService));
}.

Definition SelectBest (candidates : list Candidate) : option Candidate :=
  foldl (λ selected e,
    match cand_Err e with
    | Some _ => selected
    | None =>
        match selected with
        | None => Some e
        | Some best => if cand_Duration e <? cand_Duration best then Some e else selected
        end
    end) None candidates.

Section client.
Context {Store bytes Net TK : Type} `{KeyValueStore Store bytes} `{Network Net}.
Context (gzip_NewReader : reader → result error reader).
Context `{JSON string (gmap string (list OOAPIService))}.

Abbreviation IO := (io Store Net).

(** [httpclientx.NewEndpoint(URL).WithHostOverride(c.Host)] *)
Definition client_endpoint (c : Client) (URL : string) : Endpoint := WithHostOverride (NewEndpoint URL) (cl_Host c).
Definition client_plain (c : Client) : client_config := mkClientConfig "" (cl_UserAgent c).

Definition GetTestHelpers (c : Client) : IO (result error (gmap string (list OOAPIService))) :=
  match urlx_ResolveReference (cl_BaseURL c) "/api/v1/test-helpers" "" with
  | Err err => mret (Err err)
  | Val URL => GetJSON gzip_NewReader decode_pointer (client_endpoint c URL) (client_plain c)
  end.

Definition try_service (sess_UserAgent : string) (svc : OOAPIService) : IO Candidate :=
  match NewClient sess_UserAgent svc with
  | Err err => mret (mkCandidate 0 (Some err) svc None)
  | Val client =>
      start ← io_Now;
      testhelpers ← GetTestHelpers client;
      stop ← io_Now;
      mret (mkCandidate (time_Sub stop start) (match testhelpers with Err err => Some err | Val _ => None end) svc
        (match testhelpers with Val th => Some th | Err _ => None end))
  end.

(** The loop over the services that use HTTPS. *)
Fixpoint try_each (sess_UserAgent : string) (l : list OOAPIService) : IO (list Candidate) :=
  match l with
  | [] => mret []
  | svc :: l => candidate ← try_service sess_UserAgent svc; rest ← try_each sess_UserAgent l; mret (candidate :: rest)
  end.

(** The loop over the fallbacks stops when one works. *)
Fixpoint try_until (sess_UserAgent : string) (l : list OOAPIService) : IO (list Candidate) :=
  match l with
  | [] => mret []
  | svc :: l =>
      candidate ← try_service sess_UserAgent svc;
      match cand_Err candidate with
      | None => mret [candidate]
      | Some _ => rest ← try_until sess_UserAgent l; mret (candidate :: rest)
      end
  end.

Definition TryAll (sess_UserAgent : string) (l : list OOAPIService) : IO (list Candidate) :=
  out ← try_each sess_UserAgent (OnlyHTTPS l);
  let found := existsb (λ candidate, IsNone (cand_Err candidate)) out in
  if negb found then rest ← try_until sess_UserAgent (OnlyFallbacks l); mret (out ++ rest) else mret out.
End client.

(** ** The state file ([statefile.go]) *)

Record State := mkState { st_ClientID : string; st_Expire : Time; st_Password : string; st_Token : string }.

(** The zero value: [time_zero_Time] is [time.Time{}]. *)
Definition zero_State (time_zero_Time : Time) : State := mkState "" time_zero_Time "" "".

Definition seconds (n : Z) : Duration := n * 1000000000.

(** [Auth] at a time; [After] is a strict comparison. *)
Definition auth_at (now : Time) (s : State) : option OOAPILoginAuth :=
  if st_Expire s <? now + seconds 30 then None else Some (mkAuth (st_Expire s) (st_Token s)).
Definition Auth {Store Net} (s : State) : io Store Net (option OOAPILoginAuth) :=
  if String.eqb (st_Token s) "" then mret None else now ← io_Now; mret (auth_at now s).

Definition Credentials (s : State) : option OOAPILoginCredentials :=
  if String.eqb (st_ClientID s) "" then None
  else if String.eqb (st_Password s) "" then None
  else Some (mkCredentials (st_ClientID s) (st_Password s)).

Definition statefile_key : string := "orchestra.state".

Section statefile.
Context {Store bytes Net : Type} `{KeyValueStore Store bytes} `{JSON bytes State} (time_zero_Time : Time).

Definition StateFile_Set (s : State) : io Store Net (option error) :=
  match json_Marshal s with Err err => mret (Some err) | Val data => io_Set statefile_key data end.

(** [GetMockable] and [Get], which gives the zero state in case of error. *)
Definition state_of (store : Store) : State :=
  match kv_Get store statefile_key with
  | Err _ => zero_State time_zero_Time
  | Val value =>
      match json_Unmarshal value with
      | Err _ => zero_State time_zero_Time
      | Val state => default (zero_State time_zero_Time) state
      end
  end.
Definition StateFile_Get : io Store Net State := λ w, Ok (state_of (w_store w), w).

Definition GetCredsAndAuth : io Store Net (result error (OOAPILoginCredentials * OOAPILoginAuth)) :=
  state ← StateFile_Get;
  match Credentials state with
  | None => mret (Err ErrNotRegistered)
  | Some creds =>
      auth ← Auth state;
      mret (match auth with None => Err ErrNotLoggedIn | Some auth => Val (creds, auth) end)
  end.
End statefile.

(** ** Registration and login ([register.go], [login.go]) *)

Section orchestra.
Context {Store bytes Net : Type} `{KeyValueStore Store bytes} `{JSON bytes State} `{Network Net} (time_zero_Time : Time).
Context (gzip_NewReader : reader → result error reader).
Context `{JSON string OOAPIRegisterRequest} `{JSON string OOAPIRegisterResponse}.
Context `{JSON string OOAPILoginCredentials} `{JSON string OOAPILoginAuth}.

Abbreviation IO := (io Store Net).

Definition MaybeRegister (c : Client) (metadata : OOAPIProbeMetadata) : IO (option error) :=
  if negb (metadata_Valid metadata) then mret (Some ErrInvalidMetadata)
  else
    state ← StateFile_Get time_zero_Time;
    match Credentials state with
    | Some _ => mret None
    | None =>
        pwd ← Letters 64;
        match urlx_ResolveReference (cl_BaseURL c) "/api/v1/register" "" with
        | Err err => mret (Some err)
        | Val URL =>
            resp ← PostJSON gzip_NewReader (decode_pointer (A := OOAPIRegisterResponse)) (client_endpoint c URL)
              (mkRegisterRequest metadata pwd) (client_plain c);
            match resp with
            | Err err => mret (Some err)
            | Val resp => StateFile_Set (state <| st_ClientID := rr_ClientID resp |> <| st_Password := pwd |>)
            end
        end
    end.

Definition MaybeLogin (c : Client) : IO (option error) :=
  state ← StateFile_Get time_zero_Time;
  auth ← Auth state;
  match auth with
  | Some _ => mret None
  | None =>
      match Credentials state with
      | None => mret (Some ErrNotRegistered)
      | Some creds =>
          match urlx_ResolveReference (cl_BaseURL c) "/api/v1/login" "" with
          | Err err => mret (Some err)
          | Val URL =>
              auth ← PostJSON gzip_NewReader (decode_pointer (A := OOAPILoginAuth)) (client_endpoint c URL) creds (client_plain c);
              match auth with
              | Err err => mret (Some err)
              | Val auth => StateFile_Set (state <| st_Expire := la_Expire auth |> <| st_Token := la_Token auth |>)
              end
          end
      end
  end.

(** The calls that need a token ([tor.go], [psiphon.go]). *)
Definition FetchTorTargets {Targets} `{JSON string Targets} (c : Client) (cc : string) : IO (result error Targets) :=
  creds ← GetCredsAndAuth time_zero_Time;
  match creds with
  | Err err => mret (Err err)
  | Val (_, auth) =>
      match urlx_ResolveReference (cl_BaseURL c) "/api/v1/test-list/tor-targets" (Values_Encode [("country_code", cc)]) with
      | Err err => mret (Err err)
      | Val URL => GetJSON gzip_NewReader decode_pointer (client_endpoint c URL)
          (mkClientConfig ("Bearer " +:+ la_Token auth) (cl_UserAgent c))
      end
  end.

Definition FetchPsiphonConfig (c : Client) : IO (result error string) :=
  creds ← GetCredsAndAuth time_zero_Time;
  match creds with
  | Err err => mret (Err err)
  | Val (_, auth) =>
      match urlx_ResolveReference (cl_BaseURL c) "/api/v1/test-list/psiphon-config" "" with
      | Err err => mret (Err err)
      | Val URL => GetRaw gzip_NewReader (client_endpoint c URL) (mkClientConfig ("Bearer " +:+ la_Token auth) (cl_UserAgent c))
      end
  end.
End orchestra.

(** [openvpn.go]: the output is not behind a pointer. *)
Definition FetchOpenVPNConfig {Store Net Config} `{Network Net} (gunzip : reader → result error reader) `{JSON string Config} (zero : Config)
    (c : Client) (provider cc : string) : io Store Net (result error Config) :=
  let provider := if negb (HasSuffix provider "vpn") then provider +:+ "vpn" else provider in
  match urlx_ResolveReference (cl_BaseURL c) ("/api/v2/ooniprobe/vpn-config/" +:+ provider) (Values_Encode [("country_code", cc)]) with
  | Err err => mret (Err err)
  | Val URL => GetJSON gunzip (decode_struct zero) (client_endpoint c URL) (client_plain c)
  end.

(** [measurementmeta.go] *)
Record OOAPIMeasurementMetaConfig := { mc_ReportID : string; mc_Full : bool; mc_Input : string }.

Record OOAPIMeasurementMeta := {
  mm_Anomaly : bool;
  mm_CategoryCode : string;
  mm_Confirmed : bool;
  mm_Failure : bool;
  mm_Input : option string;
  mm_MeasurementStartTime : Time;
  mm_ProbeASN : Z;
  mm_ProbeCC : string;
  mm_ReportID : string;
  mm_Scores : string;
  mm_TestName : string;
  mm_TestStartTime : Time;
  mm_RawMeasurement : string;
}.

Definition meta_query (config : OOAPIMeasurementMetaConfig) : list (string * string) :=
  let query := [("report_id", mc_ReportID config)] in
  let query := if negb (String.eqb (mc_Input config) "") then query ++ [("input", mc_Input config)] else query in
  if mc_Full config then query ++ [("full", "true")] else query.

Definition GetMeasurementMeta {Store Net} `{Network Net} (gunzip : reader → result error reader) `{JSON string OOAPIMeasurementMeta}
    (c : Client) (config : OOAPIMeasurementMetaConfig) : io Store Net (result error OOAPIMeasurementMeta) :=
  match urlx_ResolveReference (cl_BaseURL c) "/api/v1/measurement_meta" (Values_Encode (meta_query config)) with
  | Err err => mret (Err err)
  | Val URL => GetJSON gunzip decode_pointer (client_endpoint c URL) (client_plain c)
  end.

(** ** Reports ([collector.go]) *)

Definition OOAPIReportDefaultDataFormatVersion : string := "0.2.0".
Definition OOAPIReportDefaultFormat : string := "json".
Definition ErrUnsupportedDataFormatVersion : error := ErrValue "ErrUnsupportedDataFormatVersion" [] "unsupported data format version".
Definition ErrUnsupportedFormat : error := ErrValue "ErrUnsupportedFormat" [] "unsupported format".
Definition ErrJSONFormatNotSupported : error := ErrValue "ErrJSONFormatNotSupported" [] "JSON format not supported".

Definition NewReportTemplate {TK} (m : Measurement TK) : OOAPIReportTemplate :=
  {| rt_DataFormatVersion := OOAPIReportDefaultDataFormatVersion; rt_Format := OOAPIReportDefaultFormat;
     rt_ProbeASN := m_ProbeASN m; rt_ProbeCC := m_ProbeCC m; rt_SoftwareName := m_SoftwareName m;
     rt_SoftwareVersion := m_SoftwareVersion m; rt_TestName := m_TestName m; rt_TestStartTime := m_TestStartTime m;
     rt_TestVersion := m_TestVersion m |}.

Record reportChan := mkReportChan { rc_ID : string; rc_client : Client; rc_tmpl : OOAPIReportTemplate }.

Definition CanSubmit {TK} (r : reportChan) (m : Measurement TK) : bool := bool_decide (NewReportTemplate m = rc_tmpl r).

Section collector.
Context {Store Net TK : Type} `{Network Net} (gzip_NewReader : reader → result error reader).
Context `{JSON string OOAPIReportTemplate} `{JSON string OOAPICollectorOpenResponse}.
Context `{JSON string (OOAPICollectorUpdateRequest TK)} `{JSON string OOAPICollectorUpdateResponse}.

Abbreviation IO := (io Store Net).

Definition OpenReport (c : Client) (rt : OOAPIReportTemplate) : IO (result error reportChan) :=
  if negb (String.eqb (rt_DataFormatVersion rt) OOAPIReportDefaultDataFormatVersion) then mret (Err ErrUnsupportedDataFormatVersion)
  else if negb (String.eqb (rt_Format rt) OOAPIReportDefaultFormat) then mret (Err ErrUnsupportedFormat)
  else
    match urlx_ResolveReference (cl_BaseURL c) "/report" "" with
    | Err err => mret (Err err)
    | Val URL =>
        cor ← PostJSON gzip_NewReader (decode_pointer (A := OOAPICollectorOpenResponse)) (client_endpoint c URL) rt (client_plain c);
        mret (match cor with
        | Err err => Err err
        | Val cor =>
            if existsb (String.eqb "json") (or_SupportedFormats cor)
            then Val (mkReportChan (or_ReportID cor) c rt) else Err ErrJSONFormatNotSupported
        end)
    end.

(** The measurement is changed in place. *)
Definition SubmitMeasurement (r : reportChan) (m : Measurement TK) : IO (Measurement TK * option error) :=
  let m := m <| m_ReportID := rc_ID r |> in
  match urlx_ResolveReference (cl_BaseURL (rc_client r)) ("/report/" +:+ rc_ID r) "" with
  | Err err => mret (m, Some err)
  | Val URL =>
      updateResponse ← PostJSON gzip_NewReader (decode_pointer (A := OOAPICollectorUpdateResponse))
        (client_endpoint (rc_client r) URL) (mkUpdateRequest TK "json" m) (client_plain (rc_client r));
      mret (match updateResponse with
      | Err err => (m <| m_ReportID := "" |>, Some err)
      | Val _ => (m, None)
      end)
  end.

(** [Submitter.Submit]: the opener is a client, and the channel is kept under a mutex. *)
Definition Submit (opener : Client) (channel : option reportChan) (m : Measurement TK) :
    IO (option reportChan * Measurement TK * option error) :=
  if match channel with None => true | Some r => negb (CanSubmit r m) end then
    opened ← OpenReport opener (NewReportTemplate m);
    match opened with
    | Err err => mret (None, m, Some err)
    | Val r => '(m, err) ← SubmitMeasurement r m; mret (Some r, m, err)
    end
  else
    match channel with
    | None => mret (None, m, None)
    | Some r => '(m, err) ← SubmitMeasurement r m; mret (Some r, m, err)
    end.
End collector.

(** ** The check-in and its cache ([checkin.go], [checkincache.go]) *)

Definition CheckInFlagsState : string := "checkinflags.state".

Record checkInFlagsWrapper := mkFlags { cf_Expire : Time; cf_Flags : option (gmap string bool) }.

Definition hours (n : Z) : Duration := n * 3600000000000.

Definition ExperimentEnabledKey (name : string) : string := name +:+ "_enabled".

Section checkin.
Context {Store bytes Net : Type} `{KeyValueStore Store bytes} `{JSON bytes checkInFlagsWrapper} `{Network Net}.
Context (time_zero_Time : Time) (gzip_NewReader : reader → result error reader).
Context `{JSON string OOAPICheckInConfig} `{JSON string OOAPICheckInResult}.

Abbreviation IO := (io Store Net).

Definition checkincache_Store (resp : OOAPICheckInResult) : IO (option error) :=
  now ← io_Now;
  match json_Marshal (mkFlags (now + hours 24) (cr_Features resp)) with
  | Err _ => io_lift (Panic "json.Marshal unexpectedly failed")
  | Val data => io_Set CheckInFlagsState data
  end.

Definition GetFeatureFlag (name : string) : IO bool := λ w,
  match kv_Get (w_store w) CheckInFlagsState with
  | Err _ => Ok (false, w)
  | Val data =>
      match json_Unmarshal data with
      | Err _ => Ok (false, w)
      | Val wrapper =>
          let wrapper := default (mkFlags time_zero_Time None) wrapper in
          (now ← io_Now;
           if cf_Expire wrapper <? now then mret false
           else mret (default false (default ∅ (cf_Flags wrapper) !! name))) w
      end
  end.

Definition ExperimentEnabled (name : string) : IO bool := GetFeatureFlag (ExperimentEnabledKey name).

Definition client_CheckIn (c : Client) (config : OOAPICheckInConfig) : IO (result error OOAPICheckInResult) :=
  match urlx_ResolveReference (cl_BaseURL c) "/api/v1/check-in" "" with
  | Err err => mret (Err err)
  | Val URL =>
      resp ← PostJSON gzip_NewReader (decode_pointer (A := OOAPICheckInResult)) (client_endpoint c URL) config (client_plain c);
      match resp with
      | Err err => mret (Err err)
      | Val resp => _ ← checkincache_Store resp; mret (Val resp)
      end
  end.
End checkin.
