(* ===== verification/ProbeServicesFacts.v ===== *)
(** * What the client of the probe services guarantees

    No call panics, and each is described by the exchanges that it adds to the log of the world: the benchmark of the
    services, registration and login, the submission of measurements, and the cache of feature flags. *)
From S2P Require Import Prelude Failures GoString GoURL NetErrors LteTestKeys Overlapped GoHTTP.
From S2P Require Import EngineIO ProbeServices.
From Stdlib Require Import Ascii.

(** ** Computations that end *)

Section ends.
Context {Store Net : Type}.
Implicit Types w : world Store Net.

(** [m] returns from the world [w] without a panic, with [Q] of the answer and of the world after it. *)
Definition ends {A} (m : io Store Net A) w (Q : A → world Store Net → Prop) : Prop := ∃ a w', m w = Ok (a, w') ∧ Q a w'.

Lemma ends_ret {A} (a : A) w (Q : A → world Store Net → Prop) : Q a w → ends (mret a) w Q.
Proof. by exists a, w. Qed.

Lemma ends_bind {A B} (m : io Store Net A) (f : A → io Store Net B) w Q R :
  ends m w Q → (∀ a w', Q a w' → ends (f a) w' R) → ends (m ≫= f) w R.
Proof.
  intros (a & w' & E & Hq) Hf. destruct (Hf a w' Hq) as (b & w'' & E' & Hr). exists b, w''. split; [|done].
  unfold mbind, io_bind. rewrite E. exact E'.
Qed.

Lemma ends_impl {A} (m : io Store Net A) w (Q R : A → world Store Net → Prop) :
  ends m w Q → (∀ a w', Q a w' → R a w') → ends m w R.
Proof. intros (a & w' & E & Hq) Hr. exists a, w'. eauto. Qed.

Lemma ends_Now w (Q : Time → world Store Net → Prop) : Q (w_now w (w_readings w)) (w <| w_readings ::= S |>) → ends io_Now w Q.
Proof. by exists (w_now w (w_readings w)), (w <| w_readings ::= S |>). Qed.

(** Only the network and the log are different, and the log has the exchanges [log] in addition. *)
Definition exchanged log w w' : Prop := ∃ net, w' = w <| w_net := net |> <| w_log ::= λ l, l ++ log |>.

Lemma exchanged_refl w : exchanged [] w w.
Proof. exists (w_net w). destruct w. cbn. unfold constant. by rewrite app_nil_r. Qed.

Lemma exchanged_trans log log' w w' w'' : exchanged log w w' → exchanged log' w' w'' → exchanged (log ++ log') w w''.
Proof. intros [net ->] [net' ->]. exists net'. destruct w. cbn. unfold constant. by rewrite app_assoc. Qed.

Lemma exchanged_fields log w w' :
  exchanged log w w' →
  w_store w' = w_store w ∧ w_log w' = w_log w ++ log ∧ w_now w' = w_now w ∧ w_readings w' = w_readings w ∧
  w_Intn w' = w_Intn w ∧ w_draws w' = w_draws w.
Proof. intros [net ->]. by destruct w. Qed.

(** The store is the same; the clock and the random numbers, too, and no number is drawn twice. *)
Record kept w w' : Prop := {
  kept_store : w_store w' = w_store w;
  kept_Intn : w_Intn w' = w_Intn w;
  kept_now : w_now w' = w_now w;
  kept_draws : (w_draws w ≤ w_draws w')%nat;
}.

#[export] Instance kept_preorder : PreOrder kept.
Proof. split; [by intros w; split|]. intros ? ? ? [] []. split; [congruence..|lia]. Qed.

Lemma exchanged_kept log w w' : exchanged log w w' → kept w w'.
Proof. intros [net ->]. destruct w. by split. Qed.

Lemma kept_Now w : kept w (w <| w_readings ::= S |>).
Proof. destruct w. by split. Qed.
End ends.
#[export] Hint Resolve exchanged_kept kept_Now : core.

(** ** Calls *)

Section calls.
Context {Store Net : Type} `{Network Net} (gunzip : reader → result error reader).
Implicit Types w : world Store Net.

(** A body that [do] accepts. *)
Definition accepted (answer : http_answer) (body : string) : Prop :=
  do 0 gunzip (an_ctx_Err answer) (an_response answer) = Ok (Val body).

Definition call_request (method contentType body : string) (epnt : Endpoint) (config : client_config) : api_request :=
  mkAPIRequest method (epnt_URL epnt) (epnt_Host epnt) (cc_Authorization config) (cc_UserAgent config) contentType body.

(** The answer has nothing to read. *)
Definition refused {A} (reads : string → A → Prop) (answer : http_answer) : Prop :=
  ∀ body a, accepted answer body → ¬ reads body a.

(** At most one exchange, with the request; a value comes from a body that was accepted, an
    error from an answer without one, or the URL was not even usable. *)
Definition called {A} (req : api_request) (reads : string → A → Prop) w (res : result error A) w' : Prop :=
  match res with
  | Val a => ∃ answer body, exchanged [(req, answer)] w w' ∧ accepted answer body ∧ reads body a
  | Err _ => exchanged [] w w' ∧ url_Parse (rq_URL req) = None ∨
      ∃ answer, exchanged [(req, answer)] w w' ∧ refused reads answer
  end.

(** The same of the exchanges alone. *)
Definition answered {A} (req : api_request) (reads : string → A → Prop) (log : list (api_request * http_answer))
    (res : result error A) : Prop :=
  match res with
  | Val a => ∃ answer body, log = [(req, answer)] ∧ accepted answer body ∧ reads body a
  | Err _ => log = [] ∧ url_Parse (rq_URL req) = None ∨ ∃ answer, log = [(req, answer)] ∧ refused reads answer
  end.

Lemma called_answered {A} req (reads : string → A → Prop) w res w' :
  called req reads w res w' → ∃ log, exchanged log w w' ∧ answered req reads log res.
Proof.
  destruct res as [a|err]; cbn.
  - intros (answer & body & Hx & Hr). exists [(req, answer)]. split; [done|]. by exists answer, body.
  - intros [[Hx Hu]|(answer & Hx & Hr)]; [exists []; split; [done|by left]|].
    exists [(req, answer)]. split; [done|right; by exists answer].
Qed.

Lemma http_call_ends method contentType body epnt config w :
  ends (http_call gunzip method (epnt_URL epnt) contentType body epnt config) w
    (called (call_request method contentType body epnt config) eq w).
Proof.
  unfold http_call. destruct (url_Parse (epnt_URL epnt)) eqn:Eu; [|apply ends_ret; left; split; [apply exchanged_refl|done]].
  unfold ends. fold (call_request method contentType body epnt config).
  destruct (client_Do _ (w_net w)) as [answer net]. cbn beta iota zeta.
  destruct (do_spec 0 gunzip (an_ctx_Err answer) (an_response answer)) as (res & E & _); [done|]. rewrite E.
  eexists res, _. split; [reflexivity|].
  assert (Hx : exchanged [(call_request method contentType body epnt config, answer)] w
    (w <| w_net := net |> <| w_log ::= λ log, log ++ [(call_request method contentType body epnt config, answer)] |>)) by by exists net.
  destruct res as [data|err]; cbn; [by exists answer, data|]. right. eexists. split; [done|].
  intros body' a Ha. unfold accepted in Ha. congruence.
Qed.

Lemma run_one_ends {A} (call : io Store Net (result error A)) req reads w :
  ends call w (called req reads w) → ends (run_one call) w (called req reads w).
Proof.
  intros Hc. unfold run_one. eapply ends_bind; [exact Hc|]. intros [a|err] w' Hq; apply ends_ret; exact Hq.
Qed.

Lemma GetRaw_ends epnt config w : ends (GetRaw gunzip epnt config) w (called (call_request "GET" "" "" epnt config) eq w).
Proof. apply run_one_ends, http_call_ends. Qed.

(** What the decoder makes of an accepted body. *)
Definition decoded {A} (decode : string → result error A) (body : string) (a : A) : Prop := decode body = Val a.

Lemma called_decode {A} (decode : string → result error A) req w res w' :
  called req eq w res w' → called req (decoded decode) w (match res with Err err => Err err | Val data => decode data end) w'.
Proof.
  destruct res as [data|err].
  - intros (answer & body & Hx & Ha & <-). unfold called. destruct (decode body) as [a|err] eqn:E; [by exists answer, body|].
    right. exists answer. split; [done|]. intros body' a Ha' Hd. unfold accepted, decoded in *. congruence.
  - intros [?|(answer & Hx & Hr)]; [by left|right]. exists answer. split; [done|]. intros body a Ha. by destruct (Hr body body Ha).
Qed.

Lemma GetJSON_ends {A} (decode : string → result error A) epnt config w :
  ends (GetJSON gunzip decode epnt config) w (called (call_request "GET" "" "" epnt config) (decoded decode) w).
Proof.
  apply run_one_ends. unfold getJSON. eapply ends_bind; [apply GetRaw_ends|]. intros res w' Hc. apply ends_ret.
  by apply called_decode.
Qed.

(** A POST also tells that the input was marshalled. *)
Definition posted {Input A} `{JSON string Input} (epnt : Endpoint) (config : client_config) (input : Input)
    (reads : string → A → Prop) w (res : result error A) w' : Prop :=
  match json_Marshal input with
  | Val raw => called (call_request "POST" "application/json" raw epnt config) reads w res w'
  | Err _ => w' = w ∧ ∃ err, res = Err err
  end.

Lemma PostJSON_ends {Input A} `{JSON string Input} (decode : string → result error A) epnt (input : Input) config w :
  ends (PostJSON gunzip decode epnt input config) w (posted epnt config input (decoded decode) w).
Proof.
  unfold PostJSON, posted. destruct (json_Marshal input) as [raw|err].
  - apply run_one_ends. eapply ends_bind; [apply http_call_ends|]. intros res w' Hc. apply ends_ret. by apply called_decode.
  - unfold run_one. eapply (ends_bind _ _ _ (λ res w', res = Err err ∧ w' = w)); [by apply ends_ret|]. intros ? ? [-> ->]. apply ends_ret. split; [done|]. by eexists.
Qed.
End calls.

(** ** The benchmark of the services *)

Lemma of_type_filter type out l : of_type type out l = out ++ filter (λ s, svc_Type s = type) l.
Proof.
  unfold of_type. revert out. induction l as [|s l IH]; intros out; [by rewrite app_nil_r|].
  cbn [foldl]. rewrite filter_cons. destruct (String.eqb_spec (svc_Type s) type) as [E|E]; rewrite IH.
  - rewrite decide_True by done. by rewrite <-app_assoc.
  - by rewrite decide_False.
Qed.

Lemma OnlyHTTPS_filter l : OnlyHTTPS l = filter (λ s, svc_Type s = "https") l.
Proof. apply (of_type_filter "https" []). Qed.

Lemma SortServices_filter l :
  SortServices l = filter (λ s, svc_Type s = "https") l ++ filter (λ s, svc_Type s = "cloudfront") l ++ filter (λ s, svc_Type s = "onion") l.
Proof. unfold SortServices. by rewrite !of_type_filter, <-app_assoc. Qed.

(** The services that are tried when none over HTTPS works. *)
Lemma OnlyFallbacks_filter l :
  OnlyFallbacks l = filter (λ s, svc_Type s = "cloudfront") l ++ filter (λ s, svc_Type s = "onion") l.
Proof.
  unfold OnlyFallbacks. assert (Hf : ∀ out l, foldl (λ out entry, if negb (String.eqb (svc_Type entry) "https") then out ++ [entry] else out) out l =
    out ++ filter (λ s, svc_Type s ≠ "https") l).
  { intros out l'. revert out. induction l' as [|s l' IH]; intros out; [by rewrite app_nil_r|].
    cbn [foldl]. rewrite filter_cons. destruct (String.eqb_spec (svc_Type s) "https") as [E|E]; cbn [negb]; rewrite IH.
    - by rewrite decide_False by naive_solver.
    - rewrite decide_True by done. by rewrite <-app_assoc. }
  rewrite Hf, SortServices_filter, !filter_app. cbn [app].
  assert (Hnone : filter (λ s, svc_Type s ≠ "https") (filter (λ s, svc_Type s = "https") l) = []).
  { clear Hf. induction l as [|s l IH]; [done|]. rewrite filter_cons. case_decide as Hs; [|done].
    by rewrite filter_cons, decide_False by naive_solver. }
  assert (Hall : ∀ type, type ≠ "https" → filter (λ s, svc_Type s ≠ "https") (filter (λ s, svc_Type s = type) l) = filter (λ s, svc_Type s = type) l).
  { clear Hf Hnone. intros type Ht. induction l as [|s l IH]; [done|]. rewrite filter_cons. case_decide as Hs; [|done].
    rewrite filter_cons, decide_True by congruence. by f_equal. }
  by rewrite Hnone, !Hall.
Qed.

(** The best of the candidates that work: the fastest, the first among equals. *)
Definition best (candidates : list Candidate) (c : Candidate) : Prop :=
  ∃ before after, candidates = before ++ c :: after ∧ cand_Err c = None ∧
    (∀ c', c' ∈ before → cand_Err c' = None → cand_Duration c < cand_Duration c') ∧
    ∀ c', c' ∈ after → cand_Err c' = None → cand_Duration c ≤ cand_Duration c'.

Lemma SelectBest_spec candidates :
  match SelectBest candidates with
  | Some c => best candidates c
  | None => Forall (λ c, cand_Err c ≠ None) candidates
  end.
Proof.
  unfold SelectBest. induction candidates as [|c l IH] using rev_ind; [constructor|].
  rewrite foldl_app. cbn [foldl]. destruct (foldl _ None l) as [b|] eqn:E.
  - destruct IH as (before & after & -> & Hb & H1 & H2). destruct (cand_Err c) as [err|] eqn:Ec.
    + exists before, (after ++ [c]). rewrite <-app_assoc. split_and!; [done..|].
      intros c' [?| ->%list_elem_of_singleton]%elem_of_app; [by apply H2|congruence].
    + destruct (Z.ltb_spec (cand_Duration c) (cand_Duration b)) as [Hlt|Hge].
      * exists (before ++ b :: after), []. split_and!; [done..| |by intros ? ?%elem_of_nil].
        intros c' [Hc|[ -> |Hc]%elem_of_cons]%elem_of_app Hw; [specialize (H1 c' Hc Hw)| |specialize (H2 c' Hc Hw)]; lia.
      * exists before, (after ++ [c]). rewrite <-app_assoc. split_and!; [done..|].
        intros c' [?| ->%list_elem_of_singleton]%elem_of_app Hw; [by apply H2|done].
  - destruct (cand_Err c) as [err|] eqn:Ec.
    + apply Forall_app. split; [exact IH|]. constructor; [congruence|constructor].
    + exists l, []. split_and!; [done..| |by intros ? ?%elem_of_nil].
      intros c' Hc Hw. rewrite Forall_forall in IH. by destruct (IH c' Hc).
Qed.

Section bench.
Context {Store Net : Type} `{Network Net} (gunzip : reader → result error reader).
Context `{JSON string (gmap string (list OOAPIService))} (ua : string).
Implicit Types w : world Store Net.

(** One service is tried: without a client at once; otherwise its test helpers are requested,
    once, the candidate has what that gave, and its duration is the time from the reading of the clock before the
    request to the one after it. *)
Definition tried (svc : OOAPIService) w (c : Candidate) w' : Prop :=
  cand_Service c = svc ∧ kept w w' ∧ w_now w' = w_now w ∧
  match NewClient ua svc with
  | Err err => w' = w ∧ cand_Err c = Some err
  | Val client =>
      ∃ log res,
        match urlx_ResolveReference (cl_BaseURL client) "/api/v1/test-helpers" "" with
        | Err err => log = [] ∧ res = Err err
        | Val URL => answered gunzip (call_request "GET" "" "" (client_endpoint client URL) (client_plain client))
            (decoded decode_pointer) log res
        end ∧
        w_log w' = w_log w ++ log ∧ w_readings w' = S (S (w_readings w)) ∧
        cand_Duration c = time_Sub (w_now w (S (w_readings w))) (w_now w (w_readings w)) ∧
        match res with
        | Val helpers => cand_Err c = None ∧ cand_TestHelpers c = Some helpers
        | Err err => cand_Err c = Some err
        end
  end.

Lemma try_service_ends svc w : ends (try_service gunzip ua svc) w (tried svc w).
Proof.
  unfold try_service, tried. destruct (NewClient ua svc) as [client|err] eqn:Ec; [|by apply ends_ret].
  eapply (ends_bind _ _ _ (λ start w', start = w_now w (w_readings w) ∧ w' = w <| w_readings ::= S |>)); [by apply ends_Now|].
  intros ? ? [-> ->]. set (w1 := w <| w_readings ::= S |>).
  eapply (ends_bind _ _ _ (λ res w', ∃ log, exchanged log w1 w' ∧
    match urlx_ResolveReference (cl_BaseURL client) "/api/v1/test-helpers" "" with
    | Err err => log = [] ∧ res = Err err
    | Val URL => answered gunzip (call_request "GET" "" "" (client_endpoint client URL) (client_plain client)) (decoded decode_pointer) log res
    end)).
  { unfold GetTestHelpers. destruct (urlx_ResolveReference _ _ _) as [URL|err].
    - eapply ends_impl; [apply GetJSON_ends|]. intros res w2. apply called_answered.
    - apply ends_ret. exists []. split; [apply exchanged_refl|done]. }
  intros res w2 (log & Hx & Hres). pose proof (exchanged_kept _ _ _ Hx) as Hk. apply exchanged_fields in Hx as (Es & El & En & Er & Ei & _).
  assert (Hk' : kept w (w2 <| w_readings ::= S |>)) by (etrans; [apply kept_Now|etrans; [exact Hk|apply kept_Now]]). clear Hk.
  eapply (ends_bind _ _ _ (λ stop w', stop = w_now w2 (w_readings w2) ∧ w' = w2 <| w_readings ::= S |>)); [by apply ends_Now|].
  intros ? ? [-> ->]. apply ends_ret.
  assert (E1 : w_store w1 = w_store w ∧ w_log w1 = w_log w ∧ w_now w1 = w_now w ∧ w_Intn w1 = w_Intn w ∧
    w_readings w1 = S (w_readings w)) by by destruct w.
  clearbody w1. destruct E1 as (Es1 & El1 & En1 & Ei1 & Er1).
  assert (E2 : let w3 := w2 <| w_readings ::= S |> in w_store w3 = w_store w2 ∧ w_log w3 = w_log w2 ∧ w_now w3 = w_now w2 ∧
    w_Intn w3 = w_Intn w2 ∧ w_readings w3 = S (w_readings w2)) by by destruct w2.
  destruct E2 as (Es2 & El2 & En2 & Ei2 & Er2).
  split; [done|]. split; [exact Hk'|]. split; [congruence|].
  exists log, res. split; [exact Hres|]. split; [congruence|]. split; [congruence|]. split; [|by destruct res].
  cbn. by rewrite En, Er, En1, Er1.
Qed.

(** Several services are tried, one after the other. *)
Inductive tries : list OOAPIService → world Store Net → list Candidate → world Store Net → Prop :=
  | tries_nil w : tries [] w [] w
  | tries_cons svc l c out w w1 w2 : tried svc w c w1 → tries l w1 out w2 → tries (svc :: l) w (c :: out) w2.

Lemma tries_kept l w out w' : tries l w out w' → kept w w'.
Proof. induction 1 as [|svc l c out w w1 w2 (_ & Hk & _) _ IH]; [done|by etrans]. Qed.

Lemma tries_app l1 l2 w out1 w1 out2 w2 : tries l1 w out1 w1 → tries l2 w1 out2 w2 → tries (l1 ++ l2) w (out1 ++ out2) w2.
Proof. intros H1 H2. induction H1 as [|svc l c out w w0 w1 Hc _ IH]; [done|]. cbn. econstructor; [done|]. by apply IH. Qed.

(** Which candidate is of which service; one that works has a client and the helpers. *)
Lemma tries_services l w out w' :
  tries l w out w' →
  Forall2 (λ svc c, cand_Service c = svc ∧ (cand_Err c = None → ∃ client helpers, NewClient ua svc = Val client ∧ cand_TestHelpers c = Some helpers)) l out.
Proof.
  induction 1 as [|svc l c out w w1 w2 (Hs & _ & _ & Hc) _ IH]; constructor; [|done]. split; [done|]. intros Hw.
  destruct (NewClient ua svc) as [client|err]; [|naive_solver congruence].
  destruct Hc as (log & [helpers|err] & _ & _ & _ & _ & Hres); [|congruence]. exists client, helpers. by destruct Hres.
Qed.

Lemma tries_length l w out w' : tries l w out w' → length out = length l.
Proof. intros Ht. symmetry. by eapply Forall2_length, tries_services. Qed.

Lemma try_each_ends l w : ends (try_each gunzip ua l) w (tries l w).
Proof.
  revert w. induction l as [|svc l IH]; intros w; cbn [try_each]; [by apply ends_ret; constructor|].
  eapply ends_bind; [apply try_service_ends|]. intros c w1 Hc. eapply ends_bind; [apply IH|].
  intros out w2 Ho. apply ends_ret. by econstructor.
Qed.

Definition works (c : Candidate) : Prop := cand_Err c = None.

(** The loop stops at the first that works, or at the end. *)
Lemma try_until_ends l w :
  ends (try_until gunzip ua l) w (λ out w',
    ∃ failing last, out = failing ++ last ∧ Forall (λ c, ¬ works c) failing ∧
      tries (take (length out) l) w out w' ∧
      (last = [] ∧ length out = length l ∨ ∃ c, last = [c] ∧ works c)).
Proof.
  revert w. induction l as [|svc l IH]; intros w; cbn [try_until].
  { apply ends_ret. exists [], []. split_and!; [done..|constructor|by left]. }
  eapply ends_bind; [apply try_service_ends|]. intros c w1 Hc. destruct (cand_Err c) as [err|] eqn:Ec.
  - eapply ends_bind; [apply IH|]. intros out w2 (failing & last & -> & Hf & Ht & Hl). apply ends_ret.
    exists (c :: failing), last. split_and!; [done| |cbn; by econstructor|].
    + constructor; [unfold works; congruence|done].
    + destruct Hl as [(-> & Hl)|Hl]; [left|by right]. cbn. split_and!; [done..|]. by rewrite Hl.
  - apply ends_ret. exists [], [c]. split_and!; [done|done|cbn; econstructor; [done|destruct l; constructor]|].
    right. by exists c.
Qed.

(** The services over HTTPS are all tried; the fallbacks only when none of them works, up to the first that does. *)
Record tried_all (l : list OOAPIService) w (out : list Candidate) w' : Prop := {
  ta_tried : ∃ n, tries (OnlyHTTPS l ++ take n (OnlyFallbacks l)) w out w';
  ta_https : (length (OnlyHTTPS l) ≤ length out)%nat;
  ta_fallback : (∃ c, c ∈ take (length (OnlyHTTPS l)) out ∧ works c) → length out = length (OnlyHTTPS l);
  ta_first : ∀ i j c c', (length (OnlyHTTPS l) ≤ i < j)%nat → out !! i = Some c → out !! j = Some c' → ¬ works c;
  ta_exhausted : Forall (λ c, ¬ works c) out → length out = length (OnlyHTTPS l ++ OnlyFallbacks l);
}.

Lemma TryAll_ends l w : ends (TryAll gunzip ua l) w (tried_all l w).
Proof.
  unfold TryAll. eapply ends_bind; [apply try_each_ends|]. intros https w1 Hh.
  pose proof (tries_length _ _ _ _ Hh) as Hlen.
  destruct (existsb (λ candidate, IsNone (cand_Err candidate)) https) eqn:Ef; cbn [negb].
  - apply ends_ret. constructor.
    + exists 0%nat. by rewrite app_nil_r.
    + by rewrite Hlen.
    + done.
    + intros i j c c' Hi Hc Hc'. apply lookup_lt_Some in Hc'. lia.
    + intros Hn. apply existsb_exists in Ef as (c & Hc & Hw). rewrite Forall_forall in Hn. destruct (Hn c).
      * by apply list_elem_of_In.
      * unfold works. by destruct (cand_Err c).
  - assert (Hno : Forall (λ c, ¬ works c) https).
    { apply Forall_forall. intros c Hc Hw. apply not_true_iff_false in Ef. apply Ef, existsb_exists. exists c.
      split; [by apply list_elem_of_In|]. by rewrite Hw. }
    eapply ends_bind; [apply try_until_ends|]. intros out w2 (failing & last & -> & Hf & Ht & Hl). apply ends_ret. constructor.
    + exists (length (failing ++ last)). by eapply tries_app.
    + rewrite length_app. lia.
    + rewrite <-Hlen, take_app_length. intros (c & Hc & Hw). rewrite Forall_forall in Hno. by destruct (Hno c Hc).
    + intros i j c c' Hi Hc Hc'. rewrite lookup_app_r in Hc, Hc' by lia.
      destruct Hl as [(-> & _)|(c0 & -> & Hw)].
      * rewrite app_nil_r in Hc. rewrite Forall_lookup in Hf. by eapply Hf.
      * apply lookup_lt_Some in Hc'. rewrite length_app in Hc'. cbn in Hc'. rewrite lookup_app_l in Hc by lia.
        rewrite Forall_lookup in Hf. by eapply Hf.
    + intros Hn. rewrite !length_app in *. destruct Hl as [(-> & Hl)|(c0 & -> & Hw)]; [lia|].
      rewrite !Forall_app, Forall_singleton in Hn. destruct Hn as (_ & _ & Hn). by destruct Hn.
Qed.
End bench.

(** ** Random passwords *)

Section random.
Context {Store Net : Type}.
Implicit Types w : world Store Net.

Definition draws_ok w : Prop := ∀ i n, 0 < n → 0 ≤ w_Intn w i n < n.

Definition made_of (letterBytes s : string) : Prop := ∀ i b, String.get i s = Some b → ∃ j, String.get j letterBytes = Some b.

Lemma get_bound s i : (i < String.length s)%nat → ∃ b, String.get i s = Some b.
Proof.
  revert i. induction s as [|c s IH]; intros i Hi; cbn in Hi; [lia|]. destruct i as [|i]; cbn; [by eexists|]. apply IH. lia.
Qed.

(** The letters drawn from the number [d] on. *)
Fixpoint drawn w (d n : nat) (letterBytes : string) : string :=
  match n with
  | O => ""
  | S n => (match String.get (Z.to_nat (w_Intn w d (Z.of_nat (String.length letterBytes)))) letterBytes with
            | Some b => String b ""
            | None => ""
            end) +:+ drawn w (S d) n letterBytes
  end.

Lemma drawn_same w w' d n letterBytes : w_Intn w' = w_Intn w → drawn w' d n letterBytes = drawn w d n letterBytes.
Proof. intros E. revert d. induction n as [|n IH]; intros d; [done|]. cbn [drawn]. by rewrite E, IH. Qed.

Lemma lettersWithString_ends n letterBytes w :
  draws_ok w → letterBytes ≠ "" →
  ends (lettersWithString n letterBytes) w (λ s w', w' = w <| w_draws ::= λ d, (n + d)%nat |> ∧ String.length s = n ∧
    made_of letterBytes s ∧ s = drawn w (w_draws w) n letterBytes).
Proof.
  intros Hw Hne. revert w Hw. induction n as [|n IH]; intros w Hw; cbn [lettersWithString].
  - apply ends_ret. split_and!; [by destruct w|done| |done]. intros i b. by destruct i.
  - assert (Hpos : 0 < Z.of_nat (String.length letterBytes)) by (destruct letterBytes; [done|cbn; lia]).
    specialize (Hw (w_draws w) _ Hpos) as Hi. cbn [drawn]. set (i := w_Intn w (w_draws w) _) in *.
    destruct (get_bound letterBytes (Z.to_nat i)) as [b Hb]; [lia|]. rewrite Hb.
    eapply (ends_bind _ _ _ (λ b' w', b' = b ∧ w' = w <| w_draws ::= S |>)).
    { exists b, (w <| w_draws ::= S |>). split; [|done]. cbn. fold i. rewrite Hb. destruct (Z.ltb_spec i 0); [lia|done]. }
    intros ? ? [-> ->]. eapply ends_bind; [apply IH; by destruct w|].
    intros rest ? (-> & Hl & Hm & Hd). apply ends_ret. split_and!.
    + destruct w. cbn. f_equal. lia.
    + cbn. by rewrite Hl.
    + intros j c Hc. destruct j as [|j]; [injection Hc as <-; by eexists|]. by apply (Hm j).
    + rewrite append_cons, append_nil, Hd. destruct w. f_equal. by apply drawn_same.
Qed.

Lemma Letters_ends n w :
  draws_ok w → ends (Letters n) w (λ s w', w' = w <| w_draws ::= λ d, (n + d)%nat |> ∧ String.length s = n ∧ made_of letters s ∧
    s = drawn w (w_draws w) n letters).
Proof. intros Hw. by apply lettersWithString_ends. Qed.
End random.

(** ** Registration and login *)

Section orchestra.
Context {Store bytes Net : Type} `{Hstore : KeyValueStore Store bytes} `{!KeyValueStoreLaws Store bytes}.
Context `{Hjson : JSON bytes State} `{!JSONLaws bytes State} `{Network Net} (time_zero_Time : Time).
Context (gunzip : reader → result error reader).
Context `{JSON string OOAPIRegisterRequest} `{JSON string OOAPIRegisterResponse}.
Context `{JSON string OOAPILoginCredentials} `{JSON string OOAPILoginAuth}.
Implicit Types w : world Store Net.

Abbreviation stored w := (state_of time_zero_Time (w_store w)).

(** A write that fails may leave anything in the file. *)
Definition write_failed (err : error) w w' : Prop := ∃ data, kv_Set (w_store w) statefile_key data = (w_store w', Some err).

Lemma StateFile_Set_ends (s : State) w :
  ends (StateFile_Set s) w (λ err w', w_log w' = w_log w ∧ w_now w' = w_now w ∧ w_Intn w' = w_Intn w ∧
    match err with None => stored w' = s | Some err => w_store w' = w_store w ∨ write_failed err w w' end).
Proof.
  unfold StateFile_Set. destruct (json_Marshal s) as [data|err] eqn:Em; [|apply ends_ret; split_and!; [done..|by left]].
  unfold io_Set, ends. destruct (kv_Set (w_store w) statefile_key data) as [store [err|]] eqn:Es; eexists _, _; (split; [done|]).
  - destruct w. cbn. unfold constant. split_and!; [done..|]. right. by exists data.
  - destruct w. cbn in *. unfold constant. split_and!; [done..|]. unfold state_of.
    rewrite (kv_Get_Set _ _ _ _ Es). by rewrite (json_roundtrip _ _ Em).
Qed.

(** What a registration that returns [err] did. *)
Definition registered (c : Client) (metadata : OOAPIProbeMetadata) w (err : option error) w' : Prop :=
  match err with
  | None => (∃ creds, Credentials (stored w) = Some creds) ∧ w' = w ∨
      Credentials (stored w) = None ∧
      ∃ URL pwd raw answer body resp, urlx_ResolveReference (cl_BaseURL c) "/api/v1/register" "" = Val URL ∧
        String.length pwd = 64%nat ∧ made_of letters pwd ∧ pwd = drawn w (w_draws w) 64 letters ∧ json_Marshal (mkRegisterRequest metadata pwd) = Val raw ∧
        w_log w' = w_log w ++ [(call_request "POST" "application/json" raw (client_endpoint c URL) (client_plain c), answer)] ∧
        accepted gunzip answer body ∧ decoded decode_pointer body resp ∧
        stored w' = (stored w) <| st_ClientID := rr_ClientID resp |> <| st_Password := pwd |>
  | Some err => w_store w' = w_store w ∨ ∃ w1, w_store w1 = w_store w ∧ write_failed err w1 w'
  end.

Lemma draws_same w w' : w_Intn w' = w_Intn w → draws_ok w → draws_ok w'.
Proof. intros E Hw. unfold draws_ok. by rewrite E. Qed.

Lemma MaybeRegister_ends c metadata w :
  draws_ok w →
  ends (MaybeRegister time_zero_Time gunzip c metadata) w (λ err w', registered c metadata w err w' ∧ w_now w' = w_now w ∧ draws_ok w').
Proof.
  intros Hw. unfold MaybeRegister. destruct (metadata_Valid metadata); cbn [negb]; [|apply ends_ret; split_and!; [by left|done..]].
  eapply (ends_bind _ _ _ (λ s w', s = stored w ∧ w' = w)); [by eexists _, _|]. intros ? ? [-> ->].
  destruct (Credentials (stored w)) as [creds|] eqn:Ec.
  { apply ends_ret. split_and!; [left; split; [by eexists|done]|done..]. }
  eapply ends_bind; [by apply Letters_ends|]. intros pwd w1 (-> & Hl & Hm & Hpwd).
  set (w1 := w <| w_draws ::= _ |>).
  assert (E1 : w_store w1 = w_store w ∧ w_log w1 = w_log w ∧ w_now w1 = w_now w ∧ w_Intn w1 = w_Intn w) by by destruct w.
  clearbody w1. destruct E1 as (Es1 & El1 & En1 & Ei1).
  destruct (urlx_ResolveReference _ _ _) as [URL|err] eqn:Eu.
  2: { apply ends_ret. split_and!; [by left|done|by eapply draws_same]. }
  eapply ends_bind; [apply PostJSON_ends|]. intros res w2 Hp. unfold posted in Hp.
  destruct (json_Marshal (mkRegisterRequest metadata pwd)) as [raw|err] eqn:Er.
  2: { destruct Hp as [-> [err' ->]]. apply ends_ret. split_and!; [by left|done|by eapply draws_same]. }
  destruct res as [resp|err].
  - destruct Hp as (answer & body & Hx & Ha & Hd). apply exchanged_fields in Hx as (Es2 & El2 & En2 & _ & Ei2 & _).
    eapply ends_impl; [apply StateFile_Set_ends|]. intros err w3 (El3 & En3 & Ei3 & Hs). split_and!.
    + destruct err as [err|]; cbn.
      * destruct Hs as [Hs|Hs]; [left; congruence|right]. exists w2. split; [congruence|done].
      * right. split; [done|]. exists URL, pwd, raw, answer, body, resp. split_and!; try done. by rewrite El3, El2, El1.
    + congruence.
    + eapply draws_same; [|exact Hw]. congruence.
  - apply ends_ret. destruct Hp as [[Hx _]|(answer & Hx & _)]; apply exchanged_fields in Hx as (Es2 & El2 & En2 & _ & Ei2 & _);
      (split_and!; [left; congruence|congruence|eapply draws_same; [|exact Hw]; congruence]).
Qed.

(** The time of a reading of the clock. *)
Definition reading w (t : Time) : Prop := ∃ n, t = w_now w n.

Lemma Auth_ends s w :
  ends (Auth s) w (λ auth w', w_store w' = w_store w ∧ w_log w' = w_log w ∧ w_now w' = w_now w ∧ w_Intn w' = w_Intn w ∧
    match auth with
    | Some auth => w_readings w' = S (w_readings w) ∧ st_Token s ≠ "" ∧ auth_at (w_now w (w_readings w)) s = Some auth
    | None => st_Token s = "" ∨ ∃ t, reading w t ∧ auth_at t s = None
    end).
Proof.
  unfold Auth. destruct (String.eqb_spec (st_Token s) "") as [E|E]; [apply ends_ret; split_and!; [done..|by left]|].
  eapply (ends_bind _ _ _ (λ t w', t = w_now w (w_readings w) ∧ w' = w <| w_readings ::= S |>)); [by apply ends_Now|].
  intros ? ? [-> ->]. apply ends_ret. destruct w. cbn. split_and!; [done..|].
  destruct (auth_at _ s) as [auth|] eqn:Ea; [by split_and!|]. right. eexists; (split; [by eexists|done]).
Qed.

Definition logged_in (c : Client) w (err : option error) w' : Prop :=
  match err with
  | None => (∃ t auth, reading w t ∧ st_Token (stored w) ≠ "" ∧ auth_at t (stored w) = Some auth) ∧ w_store w' = w_store w ∧ w_log w' = w_log w ∨
      ∃ URL creds raw answer body auth, urlx_ResolveReference (cl_BaseURL c) "/api/v1/login" "" = Val URL ∧
        Credentials (stored w) = Some creds ∧ json_Marshal creds = Val raw ∧
        w_log w' = w_log w ++ [(call_request "POST" "application/json" raw (client_endpoint c URL) (client_plain c), answer)] ∧
        accepted gunzip answer body ∧ decoded decode_pointer body auth ∧
        stored w' = (stored w) <| st_Expire := la_Expire auth |> <| st_Token := la_Token auth |>
  | Some err => w_store w' = w_store w ∨ ∃ w1, w_store w1 = w_store w ∧ write_failed err w1 w'
  end.

Lemma MaybeLogin_ends c w :
  ends (MaybeLogin time_zero_Time gunzip c) w (λ err w', logged_in c w err w' ∧ w_now w' = w_now w).
Proof.
  unfold MaybeLogin. eapply (ends_bind _ _ _ (λ s w', s = stored w ∧ w' = w)); [by eexists _, _|]. intros ? ? [-> ->].
  eapply ends_bind; [apply Auth_ends|]. intros auth w1 (Es1 & El1 & En1 & Ei1 & Ha). destruct auth as [auth|].
  { apply ends_ret. split; [left|done]. destruct Ha as (_ & Hn & Ha). split_and!; [|done..].
    exists (w_now w (w_readings w)), auth. split_and!; [by eexists|done..]. }
  clear Ha. destruct (Credentials (stored w)) as [creds|] eqn:Ec; [|apply ends_ret; split; [by left|done]].
  destruct (urlx_ResolveReference _ _ _) as [URL|err] eqn:Eu; [|apply ends_ret; split; [by left|done]].
  eapply ends_bind; [apply PostJSON_ends|]. intros res w2 Hp. unfold posted in Hp.
  destruct (json_Marshal creds) as [raw|err] eqn:Er; [|destruct Hp as [-> [err' ->]]; apply ends_ret; split; [by left|done]].
  destruct res as [auth|err].
  - destruct Hp as (answer & body & Hx & Ha & Hd). apply exchanged_fields in Hx as (Es2 & El2 & En2 & _ & Ei2 & _).
    eapply ends_impl; [apply StateFile_Set_ends|]. intros err w3 (El3 & En3 & Ei3 & Hs). split; [|congruence].
    destruct err as [err|]; cbn.
    + destruct Hs as [Hs|Hs]; [left; congruence|right]. exists w2. split; [congruence|done].
    + right. exists URL, creds, raw, answer, body, auth. split_and!; try done. by rewrite El3, El2, El1.
  - apply ends_ret. destruct Hp as [[Hx _]|(answer & Hx & _)]; apply exchanged_fields in Hx as (Es2 & El2 & En2 & _ & Ei2 & _);
      (split; [left; congruence|congruence]).
Qed.

(** A token that can be used: at the next reading of the clock it has half a minute left. *)
Definition token_ok w (s : State) : Prop := st_Token s ≠ "" ∧ w_now w (w_readings w) + seconds 30 ≤ st_Expire s.

Lemma GetCredsAndAuth_ends w :
  ends (GetCredsAndAuth time_zero_Time) w (λ res w', w_store w' = w_store w ∧ w_log w' = w_log w ∧ w_now w' = w_now w ∧
    ∀ creds auth, res = Val (creds, auth) → Credentials (stored w) = Some creds ∧ la_Token auth = st_Token (stored w) ∧ token_ok w (stored w) ∧
      w_readings w' = S (w_readings w)).
Proof.
  unfold GetCredsAndAuth. eapply (ends_bind _ _ _ (λ s w', s = stored w ∧ w' = w)); [by eexists _, _|]. intros ? ? [-> ->].
  destruct (Credentials (stored w)) as [creds|]; [|by apply ends_ret].
  eapply ends_bind; [apply Auth_ends|]. intros auth w1 (Es & El & En & _ & Ha). apply ends_ret. split_and!; [done..|].
  intros creds' auth' Hv. destruct auth as [auth|]; [|done]. injection Hv as <- <-. destruct Ha as (Er & Hne & Ha). unfold auth_at in Ha.
  destruct (Z.ltb_spec (st_Expire (stored w)) (w_now w (w_readings w) + seconds 30)); [done|]. injection Ha as <-.
  split_and!; [done..|split; [done|lia]|done].
Qed.

(** The request that gives the targets shows the token of the state file. *)
Definition authorized {Targets} `{JSON string Targets} (c : Client) (cc : string) w (targets : Targets) w' : Prop :=
  ∃ URL answer body, urlx_ResolveReference (cl_BaseURL c) "/api/v1/test-list/tor-targets" (Values_Encode [("country_code", cc)]) = Val URL ∧
    w_log w' = w_log w ++ [(mkAPIRequest "GET" URL (cl_Host c) ("Bearer " +:+ st_Token (stored w)) (cl_UserAgent c) "" "", answer)] ∧
    accepted gunzip answer body ∧ decoded decode_pointer body targets.

Lemma FetchTorTargets_ends {Targets} `{JSON string Targets} c cc w :
  ends (FetchTorTargets (Targets := Targets) time_zero_Time gunzip c cc) w (λ res w', w_store w' = w_store w ∧ w_now w' = w_now w ∧
    ∀ targets, res = Val targets →
      is_Some (Credentials (stored w)) ∧ token_ok w (stored w) ∧ w_readings w' = S (w_readings w) ∧ authorized c cc w targets w').
Proof.
  unfold FetchTorTargets. eapply ends_bind; [apply GetCredsAndAuth_ends|]. intros [[creds auth]|err] w1 (Es & El & En & Hc).
  2: { by apply ends_ret. }
  destruct (Hc _ _ eq_refl) as (Hcr & Htok & Hok & Er).
  destruct (urlx_ResolveReference _ _ _) as [URL|err] eqn:Eu; [|by apply ends_ret].
  eapply ends_impl; [apply GetJSON_ends|]. intros [targets|err] w2 Hx.
  - destruct Hx as (answer & body & Hx & Ha & Hd). apply exchanged_fields in Hx as (Es2 & El2 & En2 & Er2 & _). split_and!; [congruence..|].
    intros ? [= <-]. split_and!; [by eexists|done|congruence|]. exists URL, answer, body. split_and!; try done. rewrite El2, El, Htok. done.
  - destruct Hx as [[Hx _]|(answer & Hx & _)]; apply exchanged_fields in Hx as (Es2 & El2 & En2 & _); (split_and!; [congruence|congruence|done]).
Qed.

(** An account is not replaced; the password of a new one consists of 64 letters
    that are drawn at random, none of them drawn before. *)
Definition account w w' : Prop :=
  ∃ creds, Credentials (stored w') = Some creds ∧
    (Credentials (stored w) = Some creds ∨
     Credentials (stored w) = None ∧ String.length (lc_Password creds) = 64%nat ∧ made_of letters (lc_Password creds) ∧
     ∃ d, (w_draws w ≤ d)%nat ∧ lc_Password creds = drawn w d 64 letters).

Lemma logged_in_credentials c w w' : logged_in c w None w' → Credentials (stored w') = Credentials (stored w).
Proof.
  intros [(_ & Es & _)|(URL & creds & raw & answer & body & auth & _ & _ & _ & _ & _ & _ & ->)]; [by rewrite Es|].
  by destruct (stored w).
Qed.

Lemma registered_account c metadata w w1 w' :
  registered c metadata w None w1 → Credentials (stored w') = Credentials (stored w1) → is_Some (Credentials (stored w')) → account w w'.
Proof.
  intros Hr E [creds Hc]. exists creds. split; [done|]. rewrite E in Hc.
  destruct Hr as [[_ ->]|(Hn & URL & pwd & raw & answer & body & resp & _ & Hl & Hm & Hd & _ & _ & _ & _ & Es)]; [by left|].
  right. split; [done|]. rewrite Es in Hc. unfold Credentials in Hc. destruct (stored w). cbn in Hc. unfold constant in Hc.
  destruct (String.eqb (rr_ClientID resp) ""); [done|]. destruct (String.eqb pwd ""); [done|]. injection Hc as <-. split_and!; [done..|]. by exists (w_draws w).
Qed.
End orchestra.

(** ** Reports *)

Section collector.
Context {Store Net TK : Type} `{Network Net} (gunzip : reader → result error reader).
Context `{JSON string OOAPIReportTemplate} `{JSON string OOAPICollectorOpenResponse}.
Context `{JSON string (OOAPICollectorUpdateRequest TK)} `{JSON string OOAPICollectorUpdateResponse}.
Implicit Types (w : world Store Net) (m : Measurement TK).

Abbreviation exchange := (api_request * http_answer)%type.

(** The exchange that opens a report: the collector accepted its template, and takes JSON. *)
Definition opens (r : reportChan) (ex : exchange) : Prop :=
  ∃ URL raw answer body cor, ex = (call_request "POST" "application/json" raw (client_endpoint (rc_client r) URL) (client_plain (rc_client r)), answer) ∧
    urlx_ResolveReference (cl_BaseURL (rc_client r)) "/report" "" = Val URL ∧ json_Marshal (rc_tmpl r) = Val raw ∧
    accepted gunzip answer body ∧ decoded decode_pointer body cor ∧ or_ReportID cor = rc_ID r ∧ "json" ∈ or_SupportedFormats cor.

(** A report that is kept was opened. *)
Definition channel_ok (log : list exchange) (channel : option reportChan) : Prop :=
  ∀ r, channel = Some r → ∃ ex, ex ∈ log ∧ opens r ex.

(** The exchange that submits a measurement with a report. *)
Definition submits (r : reportChan) m (ex : exchange) : Prop :=
  ∃ URL raw answer body resp, ex = (call_request "POST" "application/json" raw (client_endpoint (rc_client r) URL) (client_plain (rc_client r)), answer) ∧
    urlx_ResolveReference (cl_BaseURL (rc_client r)) ("/report/" +:+ rc_ID r) "" = Val URL ∧
    json_Marshal (mkUpdateRequest TK "json" m) = Val raw ∧ accepted gunzip answer body ∧
    decoded (decode_pointer (A := OOAPICollectorUpdateResponse)) body resp.

Lemma OpenReport_ends c rt w :
  ends (OpenReport gunzip c rt) w (λ res w', ∃ log, exchanged log w w' ∧ (length log ≤ 1)%nat ∧
    match res with
    | Val r => rc_client r = c ∧ rc_tmpl r = rt ∧ ∃ ex, log = [ex] ∧ opens r ex
    | Err _ => True
    end).
Proof.
  unfold OpenReport.
  assert (Hnil : ∀ err : error, ends (mret (Err (A := reportChan) err)) w (λ res w', ∃ log, exchanged log w w' ∧ (length log ≤ 1)%nat ∧
    match res with Val r => rc_client r = c ∧ rc_tmpl r = rt ∧ ∃ ex, log = [ex] ∧ opens r ex | Err _ => True end)).
  { intros err. apply ends_ret. exists []. split; [apply exchanged_refl|]. split; [cbn; lia|done]. }
  destruct (negb _); [apply Hnil|]. destruct (negb _); [apply Hnil|].
  destruct (urlx_ResolveReference _ _ _) as [URL|err] eqn:Eu; [|apply Hnil].
  eapply ends_bind; [apply PostJSON_ends|]. intros res w' Hp. apply ends_ret. unfold posted in Hp.
  destruct (json_Marshal rt) as [raw|err] eqn:Er.
  2: { destruct Hp as [-> [err' ->]]. exists []. split; [apply exchanged_refl|]. split; [cbn; lia|done]. }
  destruct res as [cor|err].
  - destruct Hp as (answer & body & Hx & Ha & Hd). eexists [_]. split; [exact Hx|]. split; [cbn; lia|].
    destruct (existsb _ _) eqn:Ej; [|done]. split_and!; [done..|]. eexists. split; [done|].
    exists URL, raw, answer, body, cor. split_and!; try done. apply existsb_exists in Ej as (format & Hin & Ef).
    apply String.eqb_eq in Ef as <-. by apply list_elem_of_In.
  - destruct Hp as [[Hx _]|(answer & Hx & _)]; [exists []|eexists [_]]; (split; [exact Hx|]; split; [cbn; lia|done]).
Qed.

(** The base URL of a report that was opened is a URL. *)
Lemma opens_resolves r ex path : opens r ex → ∃ URL, urlx_ResolveReference (cl_BaseURL (rc_client r)) path "" = Val URL.
Proof.
  intros (URL & raw & answer & body & cor & _ & Eu & _). unfold urlx_ResolveReference in *.
  destruct (url_Parse _) as [base|]; [by eexists|done].
Qed.

Lemma SubmitMeasurement_ends r ex m w :
  opens r ex →
  ends (SubmitMeasurement gunzip r m) w (λ '(m', err) w', ∃ log, exchanged log w w' ∧ (length log ≤ 1)%nat ∧
    match err with
    | None => m' = m <| m_ReportID := rc_ID r |> ∧ ∃ ex, log = [ex] ∧ submits r m' ex
    | Some _ => m' = m <| m_ReportID := "" |>
    end).
Proof.
  intros Ho. unfold SubmitMeasurement. destruct (opens_resolves r ex ("/report/" +:+ rc_ID r) Ho) as [URL Eu]. rewrite Eu.
  eapply ends_bind; [apply PostJSON_ends|]. intros res w' Hp. apply ends_ret. unfold posted in Hp.
  assert (Hm : m <| m_ReportID := rc_ID r |> <| m_ReportID := "" |> = m <| m_ReportID := "" |>) by by destruct m.
  destruct (json_Marshal _) as [raw|err] eqn:Er.
  2: { destruct Hp as [-> [err' ->]]. exists []. split; [apply exchanged_refl|]. split; [cbn; lia|exact Hm]. }
  destruct res as [resp|err].
  - destruct Hp as (answer & body & Hx & Ha & Hd). eexists [_]. split; [exact Hx|]. split; [cbn; lia|].
    split; [done|]. eexists. split; [done|]. by exists URL, raw, answer, body, resp.
  - destruct Hp as [[Hx _]|(answer & Hx & _)]; [exists []|eexists [_]]; (split; [exact Hx|]; split; [cbn; lia|exact Hm]).
Qed.

Lemma channel_ok_app log log' channel : channel_ok log channel → channel_ok (log ++ log') channel.
Proof. intros Hc r Hr. destruct (Hc r Hr) as (ex & Hin & Ho). exists ex. split; [|done]. apply elem_of_app. by left. Qed.

(** What a submission did. Without an error the measurement carries the identifier of a report that was opened, before
    its last exchange, for the template of the measurement, and the last exchange submits it; a report for the same template is
    used again. With an error the measurement carries no report, unless no report was opened. *)
Definition submitted channel m w channel' m' (err : option error) w' : Prop :=
  ∃ log, exchanged log w w' ∧ channel_ok (w_log w') channel' ∧
  match err with
  | None => ∃ r before ex, channel' = Some r ∧ rc_tmpl r = NewReportTemplate m ∧ m' = m <| m_ReportID := rc_ID r |> ∧
      log = before ++ [ex] ∧ submits r m' ex ∧ (∃ ex', ex' ∈ w_log w ++ before ∧ opens r ex') ∧ (length before ≤ 1)%nat ∧
      (∀ r0, channel = Some r0 → CanSubmit r0 m = true → r = r0 ∧ before = [])
  | Some _ => channel' = None ∧ m' = m ∨ (∃ r, channel' = Some r ∧ rc_tmpl r = NewReportTemplate m) ∧ m' = m <| m_ReportID := "" |>
  end.

(** C22: A submission without error was made with a report that the collector opened earlier for the template of the measurement: the
    measurement carries its identifier, the last exchange sends the measurement, and the report of the submitter is used again when the template is the same.  With an
    error the measurement carries no report, unless the report was not opened.  At most two exchanges are made. *)
Theorem Submit_spec opener channel m w (Hchannel : channel_ok (w_log w) channel) :
  ends (Submit gunzip opener channel m) w (λ '(channel', m', err) w', submitted channel m w channel' m' err w').
Proof.
  assert (Hrest : ∀ r before w1, exchanged before w w1 → rc_tmpl r = NewReportTemplate m → (length before ≤ 1)%nat →
    (∃ ex', ex' ∈ w_log w ++ before ∧ opens r ex') → (∀ r0, channel = Some r0 → CanSubmit r0 m = true → r = r0 ∧ before = []) →
    ends ('(m, err) ← SubmitMeasurement gunzip r m; mret (Some r, m, err)) w1 (λ '(channel', m', err) w', submitted channel m w channel' m' err w')).
  { intros r before w1 Hx Ht Hlen Hopen Hsame. destruct Hopen as (ex & Hin & Ho).
    eapply ends_bind; [by eapply SubmitMeasurement_ends|]. intros [m' err] w2 (log & Hx2 & Hl & Hres). apply ends_ret.
    pose proof (exchanged_trans _ _ _ _ _ Hx Hx2) as Hx3. exists (before ++ log). split; [done|].
    apply exchanged_fields in Hx3 as (_ & El & _). split.
    { intros r' [= <-]. exists ex. split; [|done]. rewrite El, app_assoc. apply elem_of_app. by left. }
    destruct err as [err|].
    - right. split; [by exists r|done].
    - destruct Hres as (-> & ex' & -> & Hs). exists r, before, ex'. split_and!; try done. by exists ex. }
  unfold Submit. destruct channel as [r0|]; [destruct (CanSubmit r0 m) eqn:Ec|]; cbn [negb].
  - destruct (Hchannel r0 eq_refl) as (ex & Hin & Ho). eapply (Hrest r0 []); [apply exchanged_refl| |cbn; lia| |].
    + unfold CanSubmit in Ec. by apply bool_decide_eq_true in Ec.
    + exists ex. split; [|done]. by rewrite app_nil_r.
    + by intros ? [= <-].
  - eapply ends_bind; [apply OpenReport_ends|]. intros [r|err] w1 (log & Hx & Hl & Hr).
    + destruct Hr as (_ & Ht & ex & -> & Ho). eapply (Hrest r [ex]); [done|done|done| |].
      * exists ex. split; [|done]. apply elem_of_app. right. apply list_elem_of_here.
      * intros r1 [= <-]. congruence.
    + apply ends_ret. exists log. split; [done|]. split; [by intros r|]. by left.
  - eapply ends_bind; [apply OpenReport_ends|]. intros [r|err] w1 (log & Hx & Hl & Hr).
    + destruct Hr as (_ & Ht & ex & -> & Ho). eapply (Hrest r [ex]); [done|done|done| |by intros ? [=]].
      exists ex. split; [|done]. apply elem_of_app. right. apply list_elem_of_here.
    + apply ends_ret. exists log. split; [done|]. split; [by intros r|]. by left.
Qed.
End collector.

(** ** The cache of feature flags *)

Section flags.
Context {Store bytes Net : Type} `{Hstore : KeyValueStore Store bytes} `{!KeyValueStoreLaws Store bytes}.
Context `{Hjson : JSON bytes checkInFlagsWrapper} `{!JSONLaws bytes checkInFlagsWrapper} (time_zero_Time : Time).
Implicit Types w : world Store Net.

Definition flag (resp : OOAPICheckInResult) (name : string) : bool := default false (default ∅ (cr_Features resp) !! name).

Lemma GetFeatureFlag_reads wrapper data name w :
  kv_Get (w_store w) CheckInFlagsState = Val data → json_Unmarshal data = Val (Some wrapper) →
  ends (GetFeatureFlag time_zero_Time name) w (λ b w', w_store w' = w_store w ∧
    b = if cf_Expire wrapper <? w_now w (w_readings w) then false else default false (default ∅ (cf_Flags wrapper) !! name)).
Proof.
  intros Eg Eu. unfold GetFeatureFlag. unfold ends. rewrite Eg, Eu. cbn [default from_option id].
  unfold io_Now, mbind, io_bind. cbn.
  destruct (_ <? _); eexists _, _; (split; [done|]); (split; [by destruct w|done]).
Qed.

(** C24: The flags of a check-in are read back from the store as they were for twenty-four hours, whatever else happens in the world; then, and
    when they are not in the response, they are off. *)
Theorem feature_flags resp w (Hmarshal : ∃ data, json_Marshal (mkFlags (w_now w (w_readings w) + hours 24) (cr_Features resp)) = Val (A := bytes) data) :
  ends (checkincache_Store resp) w (λ err w1, err = None → ∀ w2 name,
    kv_Get (w_store w2) CheckInFlagsState = kv_Get (w_store w1) CheckInFlagsState →
    ends (GetFeatureFlag time_zero_Time name) w2 (λ b _,
      b = (if w_now w2 (w_readings w2) <=? w_now w (w_readings w) + hours 24 then flag resp name else false))).
Proof.
  unfold checkincache_Store. eapply (ends_bind _ _ _ (λ t w', t = w_now w (w_readings w) ∧ w' = w <| w_readings ::= S |>)); [by apply ends_Now|].
  intros ? ? [-> ->]. destruct Hmarshal as [data Em]. rewrite Em.
  unfold io_Set, ends. destruct (kv_Set _ _ data) as [store err] eqn:Es. eexists _, _. split; [done|]. intros -> w2 name E2.
  destruct (GetFeatureFlag_reads (mkFlags (w_now w (w_readings w) + hours 24) (cr_Features resp)) data name w2) as (b & w3 & E & _ & ->).
  - rewrite E2. destruct w. cbn in *. unfold constant. exact (kv_Get_Set _ _ _ _ Es).
  - exact (json_roundtrip _ _ Em).
  - eexists _, _. split; [exact E|]. unfold flag. cbn [cf_Expire cf_Flags].
    destruct (Z.ltb_spec (w_now w (w_readings w) + hours 24) (w_now w2 (w_readings w2))), (Z.leb_spec (w_now w2 (w_readings w2)) (w_now w (w_readings w) + hours 24)); done || lia.
Qed.

(** The state file does not touch the flags. *)
Lemma StateFile_Set_flags `{JSON bytes State} (s : State) w err w' :
  StateFile_Set s w = Ok (err, w') → kv_Get (w_store w') CheckInFlagsState = kv_Get (w_store w) CheckInFlagsState.
Proof.
  unfold StateFile_Set. destruct (json_Marshal s) as [data|e]; [|by intros [= <- <-]].
  unfold io_Set. destruct (kv_Set _ _ data) as [store e] eqn:Es. intros [= <- <-]. destruct w. cbn in *. unfold constant.
  eapply kv_Get_other; [|exact Es]. done.
Qed.

(** Without a file, or with one that cannot be read, every flag is off. *)
Lemma GetFeatureFlag_absent name w :
  (∀ data, kv_Get (w_store w) CheckInFlagsState = Val data → ∃ err, json_Unmarshal (A := checkInFlagsWrapper) data = Err err) →
  GetFeatureFlag time_zero_Time name w = Ok (false, w).
Proof.
  intros Hd. unfold GetFeatureFlag. destruct (kv_Get _ _) as [data|]; [|done]. by destruct (Hd data eq_refl) as [err ->].
Qed.
End flags.
