(* ===== verification/Geolocate.v ===== *)
(** * The location of the probe

    [pkg/enginelocate]: the lookup of the address of the probe with several methods in a random
    order, and the location task, which tolerates that the resolver cannot be located. *)
From S2P Require Import Prelude Failures GoString GoNet LteTestKeys NetErrors GoHTTP Overlapped.
From S2P Require Import EngineResolver EngineIO ProbeServices ProbeServicesFacts.
From Stdlib Require Import Ascii.

(** ** What the standard library does with strings *)

(** The text from the first occurrence of [sub]. *)
Fixpoint from_first (sub s : string) : option string :=
  if String.prefix sub s then Some s
  else match s with "" => None | String _ s => from_first sub s end.

(** The line: [.] matches anything but a newline. *)
Fixpoint until_newline (s : string) : string :=
  match s with
  | "" => ""
  | String c s => if Ascii.eqb c "010" then "" else String c (until_newline s)
  end.

(** [strings.TrimLeft] and [strings.Trim] with a cutset of ASCII characters. *)
Fixpoint TrimLeft (s cutset : string) : string :=
  match s with
  | String c s' => if ContainsByte cutset c then TrimLeft s' cutset else s
  | "" => ""
  end.
Fixpoint TrimRight (s cutset : string) : string :=
  match s with
  | "" => ""
  | String c s =>
      match TrimRight s cutset with
      | "" => if ContainsByte cutset c then "" else String c ""
      | rest => String c rest
      end
  end.
Definition Trim (s cutset : string) : string := TrimRight (TrimLeft s cutset) cutset.

(** ** Results *)

Definition DefaultProbeASN : Z := 0.
Definition DefaultProbeCC : string := "ZZ".
Definition DefaultProbeIP : string := "127.0.0.1".
Definition DefaultProbeNetworkName : string := "".
Definition DefaultResolverASN : Z := 0.
Definition DefaultResolverIP : string := "127.0.0.2".
Definition DefaultResolverNetworkName : string := "".

Record Results := mkResults {
  loc_ASN : Z;
  loc_CountryCode : string;
  loc_didResolverLookup : bool;
  loc_NetworkName : string;
  loc_ProbeIP : string;
  loc_ResolverASN : Z;
  loc_ResolverIP : string;
  loc_ResolverNetworkName : string;
}.

Definition default_Results : Results :=
  mkResults DefaultProbeASN DefaultProbeCC false DefaultProbeNetworkName DefaultProbeIP DefaultResolverASN DefaultResolverIP
    DefaultResolverNetworkName.

Definition ErrAllIPLookuppersFailed : error := ErrValue "ErrAllIPLookuppersFailed" [] "all IP lookuppers failed".
Definition ErrInvalidIPAddress : error := ErrValue "ErrInvalidIPAddress" [] "lookupper did not return a valid IP".

(** A union of errors as an error; only its text is used. *)
Definition union_error (union : Union) : error :=
  ErrAround (Error (Root union) +:+ ": [" +:+ foldr (λ child s, " " +:+ Error child +:+ ";" +:+ s) "" (Children union) +:+ "]") (Root union).

Section locate.
Context {Store Net : Type} `{Network Net} (gunzip : reader → result error reader).
(** The XML decoder, for the one field; the STUN client over a connection of the session's resolver; the databases; the
    resolver of the system; the random permutation. *)
Context (xml_Unmarshal : string → result error string).
Context (stun : string → io Store Net (result error string)).
Context (LookupASN : string → result error (Z * string)) (LookupCC : string → result error string).
Context (LookupHost : string → io Store Net (result error (list string))).
Context (Perm : nat → list nat).

Abbreviation IO := (io Store Net).

(** The leftmost match of the expression for [ip=] and the rest of its line, or the empty text. *)
Definition find_ip (data : string) : string := match from_first "ip=" data with Some s => until_newline s | None => "" end.

Definition cloudflareIPLookup (userAgent : string) : IO (result error string) :=
  data ← GetRaw gunzip (NewEndpoint "https://www.cloudflare.com/cdn-cgi/trace") (mkClientConfig "" userAgent);
  mret (match data with
  | Err err => Err err
  | Val data =>
      let ip := Trim (find_ip data) "ip=" in
      if IsNone (ParseIP ip) then Err ErrInvalidIPAddress else Val ip
  end).

(** [GetXML] of a pointer, which is not nil. *)
Definition GetXML (epnt : Endpoint) (config : client_config) : IO (result error string) :=
  run_one (
    rawrespbody ← GetRaw gunzip epnt config;
    mret (match rawrespbody with Err err => Err err | Val data => xml_Unmarshal data end)).

Definition ubuntuIPLookup (userAgent : string) : IO (result error string) :=
  v ← GetXML (NewEndpoint "https://geoip.ubuntu.com/lookup") (mkClientConfig "" userAgent);
  mret (match v with
  | Err err => Err err
  | Val ip => if IsNone (ParseIP ip) then Err ErrInvalidIPAddress else Val ip
  end).

Definition stunEkigaIPLookup : IO (result error string) := stun "stun.ekiga.net:3478".
Definition stunGoogleIPLookup : IO (result error string) := stun "stun.l.google.com:19302".

Inductive method := cloudflare | stun_ekiga | stun_google | ubuntu.

Definition methods : list method := [cloudflare; stun_ekiga; stun_google; ubuntu].

Definition method_fn (userAgent : string) (m : method) : IO (result error string) :=
  match m with
  | cloudflare => cloudflareIPLookup userAgent
  | stun_ekiga => stunEkigaIPLookup
  | stun_google => stunGoogleIPLookup
  | ubuntu => ubuntuIPLookup userAgent
  end.

(** [ret[idx] = methods[randIdx]] *)
Definition makeSlice : outcome (list method) :=
  foldM (λ ret randIdx,
    match methods !! randIdx with Some m => Ok (ret ++ [m]) | None => Panic "index out of range" end) [] (Perm (length methods)).

(** The client without a proxy is the network of the world. *)
Definition doWithCustomFunc (fn : IO (result error string)) : IO (result error string) :=
  ip ← fn;
  mret (match ip with
  | Err err => Err err
  | Val ip => if IsNone (ParseIP ip) then Err (ErrAround (Error ErrInvalidIPAddress +:+ ": " +:+ ip) ErrInvalidIPAddress) else Val ip
  end).

(** The loop over the methods; the errors are collected. *)
Fixpoint lookup_with (userAgent : string) (union : Union) (l : list method) : IO (result error string) :=
  match l with
  | [] => mret (Err (union_error union))
  | m :: l =>
      ip ← doWithCustomFunc (method_fn userAgent m);
      match ip with
      | Val ip => mret (Val ip)
      | Err err => lookup_with userAgent (multierror_Add err union) l
      end
  end.

Definition LookupProbeIP (userAgent : string) : IO (result error string) :=
  l ← io_lift makeSlice;
  lookup_with userAgent (multierror_New ErrAllIPLookuppersFailed) l.

(** [reso.LookupHost] of the resolver of the system. *)
Definition LookupResolverIP : IO (result error string) :=
  ips ← LookupHost "whoami.v4.powerdns.org";
  match ips with
  | Err err => mret (Err err)
  | Val ips => match ips with ip :: _ => mret (Val ip) | [] => io_lift (Panic "reso.LookupHost returned zero IP addresses") end
  end.

(** [fmt.Errorf("... failed: %w", err)] *)
Definition failed_with (what : string) (err : error) : error := ErrAround (what +:+ " failed: " +:+ Error err) err.

Definition Task_Run (userAgent : string) : IO (Results * option error) :=
  let out := default_Results in
  ip ← LookupProbeIP userAgent;
  match ip with
  | Err err => mret (out, Some (failed_with "lookupProbeIP" err))
  | Val ip =>
      let out := out <| loc_ProbeIP := ip |> in
      match LookupASN (loc_ProbeIP out) with
      | Err err => mret (out, Some (failed_with "lookupASN" err))
      | Val (asn, networkName) =>
          let out := out <| loc_ASN := asn |> <| loc_NetworkName := networkName |> in
          match LookupCC (loc_ProbeIP out) with
          | Err err => mret (out, Some (failed_with "lookupProbeCC" err))
          | Val cc =>
              let out := out <| loc_CountryCode := cc |> <| loc_didResolverLookup := true |> in
              resolverIP ← LookupResolverIP;
              match resolverIP with
              | Err _ => mret (out, None)
              | Val resolverIP =>
                  let out := out <| loc_ResolverIP := resolverIP |> in
                  match LookupASN (loc_ResolverIP out) with
                  | Err _ => mret (out, None)
                  | Val (resolverASN, resolverNetworkName) =>
                      mret (out <| loc_ResolverASN := resolverASN |> <| loc_ResolverNetworkName := resolverNetworkName |>, None)
                  end
              end
          end
      end
  end.
End locate.

(** ** What a location tells

    A location without an error has an address of the probe that [net.ParseIP] accepts, hence one made of
    the characters of addresses; and the task returns whatever the methods answer. *)

(** ** The characters of an address *)

Fixpoint all_chars (p : ascii → bool) (s : string) : bool :=
  match s with "" => true | String c s => p c && all_chars p s end.

Lemma all_chars_app p s s' : all_chars p (s +:+ s') = all_chars p s && all_chars p s'.
Proof. induction s as [|c s IH]; [done|]. change (String c s +:+ s') with (String c (s +:+ s')). cbn [all_chars]. by rewrite IH, andb_assoc. Qed.

Lemma all_chars_impl (p q : ascii → bool) s : (∀ c, p c = true → q c = true) → all_chars p s = true → all_chars q s = true.
Proof. intros Hpq. induction s as [|c s IH]; [done|]. cbn. rewrite !andb_true_iff. naive_solver. Qed.

Definition ip_char (c : ascii) : bool := negb (IsNone (hex_value c)) || Ascii.eqb c "." || Ascii.eqb c ":".

Lemma digit_is_hex c d : digit_value c = Some d → ip_char c = true.
Proof. revert d. by destruct c as [[] [] [] [] [] [] [] []]; vm_compute. Qed.

Lemma ipv4_chars s start dot val n fields ip : ipv4_fields s start dot val n fields = Some ip → all_chars ip_char s = true.
Proof.
  revert start dot val n fields. induction s as [|c s IH]; intros start dot val n fields E; [done|]. cbn in *.
  destruct (digit_value c) as [d|] eqn:Ed.
  - rewrite (digit_is_hex c d Ed). repeat case_match; try done; by eapply IH.
  - destruct (Ascii.eqb_spec c "."%char) as [->|]; [|done]. repeat case_match; try done; by eapply IH.
Qed.

Lemma scan_hex_chars s off acc n v after :
  scan_hex s off acc = Some (n, v, after) → ∃ digits, s = digits +:+ after ∧ all_chars ip_char digits = true.
Proof.
  revert off acc. induction s as [|c s IH]; intros off acc E; cbn [scan_hex] in E; [injection E as <- <- <-; by exists ""|].
  destruct (hex_value c) as [d|] eqn:Eh; [|injection E as <- <- <-; by exists ""].
  destruct (3 <? off)%nat; [done|]. apply IH in E as (digits & -> & Hd). exists (String c digits). split; [done|].
  cbn. by rewrite Hd; unfold ip_char; rewrite Eh.
Qed.

Lemma prefix_drop p s : String.prefix p s = true → s = p +:+ string_drop (String.length p) s.
Proof.
  revert s. induction p as [|c p IH]; intros s E; [done|]. destruct s as [|d s]; [done|]. cbn [String.prefix] in E.
  destruct (ascii_dec c d) as [<-|]; [|done].
  change (String c s = String c (p +:+ string_drop (String.length p) s)). f_equal. by apply IH.
Qed.

Lemma ipv6_loop_chars fuel s ip ellipsis ip' ellipsis' rest :
  ipv6_loop fuel s ip ellipsis = Some (ip', ellipsis', rest) → String.eqb rest "" = true → all_chars ip_char s = true.
Proof.
  revert s ip ellipsis. induction fuel as [|fuel IH]; intros s ip ellipsis E Hr; cbn [ipv6_loop] in E.
  { injection E as <- <- <-. by apply String.eqb_eq in Hr as ->. }
  destruct (scan_hex s 0 0) as [[[[|n] acc] after]|] eqn:Es; [done| |done].
  destruct (String.prefix "." after) eqn:Ep.
  { destruct (_ && _); [done|]. destruct (_ <? _)%nat; [done|]. unfold parseIPv4Fields in E.
    destruct (ipv4_fields s true false 0 0 []) as [v4|] eqn:E4; [|done]. by apply ipv4_chars in E4. }
  apply scan_hex_chars in Es as (digits & -> & Hd). rewrite all_chars_app, Hd. destruct after as [|c after]; [done|].
  destruct (Ascii.eqb_spec c ":"%char) as [->|]; [|done]. cbn [negb] in E.
  destruct (String.eqb after "") eqn:Ea; [done|]. destruct (String.prefix ":" after) eqn:Ec.
  - destruct (negb (IsNone ellipsis)); [done|]. apply prefix_drop in Ec. cbn [String.length] in Ec. rewrite Ec.
    destruct (String.eqb (string_drop 1 after) "") eqn:Ed; [by apply String.eqb_eq in Ed as ->|]. cbn. by apply (IH _ _ _ E).
  - cbn. by apply (IH _ _ _ E).
Qed.

Lemma parseIPv6_chars s ip : parseIPv6 s = Some ip → all_chars ip_char s = true.
Proof.
  unfold parseIPv6. destruct (String.prefix "::" s) eqn:El.
  - apply prefix_drop in El. cbn [String.length] in El. intros E. rewrite El. rewrite all_chars_app.
    destruct (String.eqb (string_drop 2 s) "") eqn:Ed; [by apply String.eqb_eq in Ed as ->|]. cbn [andb] in E.
    destruct (ipv6_loop _ _ _ _) as [[[ip' ellipsis'] rest]|] eqn:Eloop; [|done]. cbn in E.
    destruct (String.eqb rest "") eqn:Er; [|done]. by rewrite (ipv6_loop_chars _ _ _ _ _ _ _ Eloop Er).
  - cbn [andb]. intros E. destruct (ipv6_loop _ _ _ _) as [[[ip' ellipsis'] rest]|] eqn:Eloop; [|done]. cbn in E.
    destruct (String.eqb rest "") eqn:Er; [|done]. by apply (ipv6_loop_chars _ _ _ _ _ _ _ Eloop Er).
Qed.

(** A separator: a character that every address has. *)
Definition separator (c : ascii) : bool := Ascii.eqb c "." || Ascii.eqb c ":".

Lemma first_separator_has s c : first_separator s = Some c → separator c = true → all_chars (λ c, negb (separator c)) s = false.
Proof.
  induction s as [|d s IH]; cbn; [done|]. destruct (Ascii.eqb d "." || Ascii.eqb d ":" || Ascii.eqb d "%") eqn:Ed.
  - intros [= <-] ->. done.
  - intros E Hc. rewrite IH by done. apply andb_false_r.
Qed.

Lemma ParseIP_chars s ip : ParseIP s = Some ip → all_chars ip_char s = true ∧ all_chars (λ c, negb (separator c)) s = false.
Proof.
  unfold ParseIP. destruct (first_separator s) as [c|] eqn:Es; [|done].
  destruct (Ascii.eqb_spec c "."%char) as [->|].
  - destruct (parseIPv4Fields s) as [v4|] eqn:E4; [|done]. intros _. split; [by eapply ipv4_chars|by eapply first_separator_has].
  - destruct (Ascii.eqb_spec c ":"%char) as [->|]; [|done]. destruct (ContainsByte s "%"); [done|]. intros E6.
    split; [by eapply parseIPv6_chars|by eapply first_separator_has].
Qed.

(** ** The task *)

Section task.
Context {Store Net : Type} `{Network Net} (gunzip : reader → result error reader).
Context (xml_Unmarshal : string → result error string) (stun : string → io Store Net (result error string)).
Context (LookupASN : string → result error (Z * string)) (LookupCC : string → result error string).
Context (LookupHost : string → io Store Net (result error (list string))) (Perm : nat → list nat).
Implicit Types w : world Store Net.

(** The libraries return; a resolver that succeeds gives some address; a permutation is made of indices. *)
Context (Hstun : ∀ address w, ends (stun address) w (λ _ w', kept w w')).
Context (Hhost : ∀ name w, ends (LookupHost name) w (λ res w', kept w w' ∧ res ≠ Val [])).
Context (Hperm : ∀ n, Forall (λ i, (i < n)%nat) (Perm n)).

Definition valid_ip (ip : string) : Prop := is_Some (ParseIP ip).

Lemma GetRaw_store epnt config w : ends (GetRaw gunzip epnt config) w (λ _ w', kept w w').
Proof.
  eapply ends_impl; [apply GetRaw_ends|]. intros [data|err] w' Hc.
  - destruct Hc as (answer & body & Hx & _). eauto.
  - destruct Hc as [[Hx _]|(answer & Hx & _)]; eauto.
Qed.

Lemma method_fn_ends userAgent m w : ends (method_fn gunzip xml_Unmarshal stun userAgent m) w (λ _ w', kept w w').
Proof.
  destruct m; cbn [method_fn]; [|apply Hstun|apply Hstun|].
  - unfold cloudflareIPLookup. eapply ends_bind; [apply GetRaw_store|]. intros res w' E. by apply ends_ret.
  - unfold ubuntuIPLookup. eapply (ends_bind _ _ _ (λ _ w', kept w w')).
    { unfold GetXML, run_one. eapply (ends_bind _ _ _ (λ _ w', kept w w')).
      { eapply ends_bind; [apply GetRaw_store|]. intros res w' E. by apply ends_ret. }
      intros res w' E. by apply ends_ret. }
    intros res w' E. by apply ends_ret.
Qed.

Definition finds_ip (res : result error string) : Prop := match res with Val ip => valid_ip ip | Err _ => True end.

Lemma lookup_with_ends userAgent union l w :
  ends (lookup_with gunzip xml_Unmarshal stun userAgent union l) w (λ res w', kept w w' ∧ finds_ip res).
Proof.
  revert union w. induction l as [|m l IH]; intros union w; cbn [lookup_with]; [by apply ends_ret|].
  eapply (ends_bind _ _ _ (λ res w', kept w w' ∧ finds_ip res)).
  { unfold doWithCustomFunc. eapply ends_bind; [apply method_fn_ends|]. intros [ip|err] w' E; apply ends_ret; [|done].
    split; [done|]. unfold finds_ip. destruct (ParseIP ip) as [a|] eqn:Ea; cbn [IsNone]; [by exists a|done]. }
  intros [ip|err] w' [E Hip]; [by apply ends_ret|]. eapply ends_impl; [apply IH|]. intros res w2 [E2 Hres]. split; [by etrans|done].
Qed.

Lemma makeSlice_ok : ∃ l, makeSlice Perm = Ok l.
Proof.
  unfold makeSlice. specialize (Hperm (length methods)). revert Hperm. generalize (Perm (length methods)) as perm. intros perm Hp.
  assert (Hgen : ∀ ret, ∃ l, foldM (λ ret randIdx, match methods !! randIdx with Some m => Ok (ret ++ [m]) | None => Panic "index out of range" end) ret perm = Ok l).
  { induction Hp as [|i perm Hi Hp IH]; intros ret; [by eexists|]. cbn [foldM].
    destruct (methods !! i) as [m|] eqn:Em; [|apply lookup_ge_None in Em; lia]. apply IH. }
  apply Hgen.
Qed.

(** The task returns; without an error the address of the probe is one. *)
Lemma Task_Run_ends userAgent w :
  ends (Task_Run gunzip xml_Unmarshal stun LookupASN LookupCC LookupHost Perm userAgent) w
    (λ '(location, err) w', kept w w' ∧ (err = None → valid_ip (loc_ProbeIP location))).
Proof.
  unfold Task_Run. eapply (ends_bind _ _ _ (λ res w', kept w w' ∧ finds_ip res)).
  { unfold LookupProbeIP. destruct makeSlice_ok as [l El]. eapply (ends_bind _ _ _ (λ l' w', l' = l ∧ w' = w)).
    { unfold io_lift. rewrite El. by eexists _, _. }
    intros ? ? [-> ->]. apply lookup_with_ends. }
  intros [ip|err] w1 [E1 Hip]; [|by apply ends_ret].
  destruct (LookupASN _) as [[asn network]|err]; [|by apply ends_ret]. destruct (LookupCC _) as [cc|err]; [|by apply ends_ret].
  eapply (ends_bind _ _ _ (λ _ w', kept w w')).
  { unfold LookupResolverIP. eapply ends_bind; [apply Hhost|]. intros [ips|err] w2 [E2 Hne]; [|apply ends_ret; by etrans].
    destruct ips as [|rip ips]; [done|]. apply ends_ret. by etrans. }
  intros [rip|err] w2 E2; [|by apply ends_ret].
  destruct (LookupASN _) as [[rasn rnetwork]|err]; by apply ends_ret.
Qed.
End task.
