(* ===== verification/Session.v ===== *)
(** * The measurement session and its experiments

    [pkg/engine/session.go] and [experiment.go]: the services and the location that a session looks up once, the clients that
    it makes, and an experiment from its report to a measurement without the address of the probe
    ([pkg/model/measurement.go]).  The mutex of the session is not reentrant: taking it again is a deadlock. *)
From S2P Require Import Prelude Failures GoString GoNet NetErrors LteTestKeys Overlapped GoHTTP.
From S2P Require Import EngineIO ProbeServices Geolocate.
From Stdlib Require Import Ascii.

(** ** Sessions *)

(** [sess_mu]: whether the mutex is taken. *)
Record Session := mkSession {
  sess_availableProbeServices : list OOAPIService;
  sess_availableTestHelpers : option (gmap string (list OOAPIService));
  sess_location : option Results;
  sess_queryProbeServicesCount : Z;
  sess_selectedProbeService : option OOAPIService;
  sess_softwareName : string;
  sess_softwareVersion : string;
  sess_mu : bool;
}.

Definition version_Version : string := "3.24.0".

(** [platform.Name] for [runtime.GOOS]. *)
Definition platform_name (goos : string) : string :=
  if bool_decide (goos ∈ ["android"; "freebsd"; "openbsd"; "ios"; "linux"; "windows"]) then goos
  else if String.eqb goos "darwin" then "macos"
  else "unknown".

Section session.
Context {Store bytes Net : Type}.

Definition sess (A : Type) : Type := Session → world Store Net → outcome (A * Session * world Store Net).

#[export] Instance sess_ret : MRet sess := λ A a s w, Ok (a, s, w).
#[export] Instance sess_bind : MBind sess := λ A B f m s w, '(a, s, w) ← m s w; f a s w.

Definition sess_io {A} (m : io Store Net A) : sess A := λ s w, '(a, w) ← m w; Ok (a, s, w).
Definition get_session : sess Session := λ s w, Ok (s, s, w).
Definition set_session (f : Session → Session) : sess unit := λ s w, Ok (tt, f s, w).

Definition mu_Lock : sess unit := λ s w, if sess_mu s then Panic "deadlock" else Ok (tt, s <| sess_mu := true |>, w).
Definition mu_Unlock : sess unit := λ s w,
  if sess_mu s then Ok (tt, s <| sess_mu := false |>, w) else Panic "sync: unlock of unlocked mutex".

(** [defer s.mu.Unlock(); s.mu.Lock()] *)
Definition locked {A} (m : sess A) : sess A := _ ← mu_Lock; a ← m; _ ← mu_Unlock; mret a.

(** *** What a session tells *)

Definition from_location {A} (dflt : A) (field : Results → A) : sess A :=
  locked (s ← get_session; mret (match sess_location s with Some location => field location | None => dflt end)).

Definition ProbeASN : sess Z := from_location DefaultProbeASN loc_ASN.
Definition ProbeASNString : sess string := asn ← ProbeASN; mret ("AS" +:+ Itoa asn).
Definition ProbeCC : sess string := from_location DefaultProbeCC loc_CountryCode.
Definition ProbeNetworkName : sess string := from_location DefaultProbeNetworkName loc_NetworkName.
Definition ProbeIP : sess string := from_location DefaultProbeIP loc_ProbeIP.
Definition ResolverASN : sess Z := from_location DefaultResolverASN loc_ResolverASN.
Definition ResolverASNString : sess string := asn ← ResolverASN; mret ("AS" +:+ Itoa asn).
Definition ResolverIP : sess string := from_location DefaultResolverIP loc_ResolverIP.
Definition ResolverNetworkName : sess string := from_location DefaultResolverNetworkName loc_ResolverNetworkName.

Definition GetTestHelpersByName (name : string) : sess (option (list OOAPIService)) :=
  locked (s ← get_session; mret (default ∅ (sess_availableTestHelpers s) !! name)).

Definition sess_UserAgent (s : Session) : string :=
  sess_softwareName s +:+ "/" +:+ sess_softwareVersion s +:+ " ooniprobe-engine/" +:+ version_Version.

(** *** Lookups that are done once *)

Section lookups.
Context `{Network Net} (gunzip : reader → result error reader) `{JSON string (gmap string (list OOAPIService))}.
Context (Task_Run : string → io Store Net (Results * option error)).

Definition ErrAllProbeServicesFailed : error := ErrValue "ErrAllProbeServicesFailed" [] "all available probe services failed".

Definition getAvailableProbeServicesUnlocked (s : Session) : list OOAPIService :=
  match sess_availableProbeServices s with [] => default_services | l => l end.

Definition MaybeLookupBackendsContext : sess (option error) := locked (
  s ← get_session;
  match sess_selectedProbeService s with
  | Some _ => mret None
  | None =>
      _ ← set_session (λ s, s <| sess_queryProbeServicesCount ::= λ n, wrap64 (n + 1) |>);
      candidates ← sess_io (TryAll gunzip (sess_UserAgent s) (getAvailableProbeServicesUnlocked s));
      match SelectBest candidates with
      | None => mret (Some ErrAllProbeServicesFailed)
      | Some selected =>
          _ ← set_session (λ s, s <| sess_selectedProbeService := Some (cand_Service selected) |>
                                  <| sess_availableTestHelpers := cand_TestHelpers selected |>);
          mret None
      end
  end).

(** The task returns partial results with an error, which are dropped. *)
Definition MaybeLookupLocationContext (ctx_Err : option error) : sess (option error) :=
  match ctx_Err with
  | Some err => mret (Some err)
  | None => locked (
      s ← get_session;
      match sess_location s with
      | Some _ => mret None
      | None =>
          '(location, err) ← sess_io (Task_Run (sess_UserAgent s));
          match err with
          | Some err => mret (Some err)
          | None => _ ← set_session (λ s, s <| sess_location := Some location |>); mret None
          end
      end)
  end.

Definition newProbeServicesClient (ctx_Err : option error) : sess (result error Client) :=
  match ctx_Err with
  | Some err => mret (Err err)
  | None =>
      err ← MaybeLookupBackendsContext;
      match err with
      | Some err => mret (Err err)
      | None =>
          err ← MaybeLookupLocationContext ctx_Err;
          match err with
          | Some err => mret (Err err)
          | None =>
              s ← get_session;
              match sess_selectedProbeService s with
              | None => sess_io (io_lift (Panic "nil pointer dereference"))
              | Some service => mret (NewClient (sess_UserAgent s) service)
              end
          end
      end
  end.

(** *** Orchestra and check-in *)

Context `{KeyValueStore Store bytes} `{JSON bytes State} `{JSON bytes checkInFlagsWrapper} (time_zero_Time : Time).
Context `{JSON string OOAPIRegisterRequest} `{JSON string OOAPIRegisterResponse}.
Context `{JSON string OOAPILoginCredentials} `{JSON string OOAPILoginAuth}.
Context `{JSON string OOAPICheckInConfig} `{JSON string OOAPICheckInResult}.

Definition orchestra_metadata : OOAPIProbeMetadata :=
  {| pm_AvailableBandwidth := ""; pm_DeviceToken := ""; pm_Language := ""; pm_NetworkType := ""; pm_Platform := "miniooni";
     pm_ProbeASN := "AS0"; pm_ProbeCC := "ZZ"; pm_ProbeFamily := ""; pm_ProbeTimezone := ""; pm_SoftwareName := "miniooni";
     pm_SoftwareVersion := "0.1.0-dev"; pm_SupportedTests := ["web_connectivity"] |}.

Definition initOrchestraClient (clnt : Client) : io Store Net (result error Client) :=
  err ← MaybeRegister time_zero_Time gunzip clnt orchestra_metadata;
  match err with
  | Some err => mret (Err err)
  | None =>
      err ← MaybeLogin time_zero_Time gunzip clnt;
      match err with
      | Some err => mret (Err err)
      | None => mret (Val clnt)
      end
  end.

Definition newOrchestraClient (ctx_Err : option error) : sess (result error Client) :=
  clnt ← newProbeServicesClient ctx_Err;
  match clnt with
  | Err err => mret (Err err)
  | Val clnt => sess_io (initOrchestraClient clnt)
  end.

Definition sess_FetchTorTargets {Targets} `{JSON string Targets} (ctx_Err : option error) (cc : string) : sess (result error Targets) :=
  clnt ← newOrchestraClient ctx_Err;
  match clnt with
  | Err err => mret (Err err)
  | Val clnt => sess_io (FetchTorTargets time_zero_Time gunzip clnt cc)
  end.

(** The mutex is taken around the call only, since the others take it, too. *)
Definition sess_FetchOpenVPNConfig {Config} `{JSON string Config} (zero : Config) (ctx_Err : option error) (provider cc : string) :
    sess (result error Config) :=
  clnt ← newOrchestraClient ctx_Err;
  match clnt with
  | Err err => mret (Err err)
  | Val clnt =>
      err ← MaybeLookupLocationContext ctx_Err;
      match err with
      | Some err => mret (Err err)
      | None => locked (sess_io (FetchOpenVPNConfig gunzip zero clnt provider cc))
      end
  end.

Definition RunTypeTimed : string := "timed".

(** [if field == "" { field = value }] *)
Definition or_set (field : OOAPICheckInConfig → string) (set : string → OOAPICheckInConfig → OOAPICheckInConfig) (value : sess string)
    (config : OOAPICheckInConfig) : sess OOAPICheckInConfig :=
  if String.eqb (field config) "" then v ← value; mret (set v config) else mret config.

Definition sess_CheckIn (goos : string) (ctx_Err : option error) (config : OOAPICheckInConfig) :
    sess (OOAPICheckInConfig * result error OOAPICheckInResult) :=
  err ← MaybeLookupLocationContext ctx_Err;
  match err with
  | Some err => mret (config, Err err)
  | None =>
      client ← newProbeServicesClient ctx_Err;
      match client with
      | Err err => mret (config, Err err)
      | Val client =>
          s ← get_session;
          config ← or_set ci_Platform (λ v c, c <| ci_Platform := v |>) (mret (platform_name goos)) config;
          config ← or_set ci_ProbeASN (λ v c, c <| ci_ProbeASN := v |>) ProbeASNString config;
          config ← or_set ci_ProbeCC (λ v c, c <| ci_ProbeCC := v |>) ProbeCC config;
          config ← or_set ci_RunType (λ v c, c <| ci_RunType := v |>) (mret RunTypeTimed) config;
          config ← or_set ci_SoftwareName (λ v c, c <| ci_SoftwareName := v |>) (mret (sess_softwareName s)) config;
          config ← or_set ci_SoftwareVersion (λ v c, c <| ci_SoftwareVersion := v |>) (mret (sess_softwareVersion s)) config;
          let config := match ci_CategoryCodes config with None => config <| ci_CategoryCodes := Some [] |> | Some _ => config end in
          resp ← sess_io (client_CheckIn gunzip client config);
          mret (config, resp)
      end
  end.
End lookups.
End session.
Arguments sess : clear implicits.

(** ** Scrubbing ([pkg/model/measurement.go]) *)

(** [bytes.ReplaceAll] for an [old] that is not empty: [skip] bytes belong to a match. *)
Fixpoint replace_from (skip : nat) (old new s : string) : string :=
  match s with
  | "" => ""
  | String c rest =>
      match skip with
      | S skip => replace_from skip old new rest
      | O =>
          if String.prefix old s then new +:+ replace_from (Nat.pred (String.length old)) old new rest
          else String c (replace_from 0 old new rest)
      end
  end.
Definition ReplaceAll (s old new : string) : string := replace_from 0 old new s.

Definition Scrubbed : string := "[scrubbed]".

Definition ErrInvalidProbeIP : error := ErrValue "ErrInvalidProbeIP" [] "model: invalid probe IP".

(** [json.Marshal], and [json.Unmarshal] into a value that is kept where the text says nothing. *)
Class JSONInto (A : Type) := {
  into_Marshal : A → result error string;
  into_Unmarshal : string → A → result error A;
}.

Definition set_TestKeys {A B} (tk : B) (m : Measurement A) : Measurement B :=
  let 'mkMeasurement _ annotations version extensions id input hashes start saved options asn cc city ip network report rasn rip rnetwork
    software sversion helpers _ test runtime tstart tversion := m in
  mkMeasurement B annotations version extensions id input hashes start saved options asn cc city ip network report rasn rip rnetwork
    software sversion helpers tk test runtime tstart tversion.

Section experiment.
Context {Store bytes Net TK : Type}.
Context `{JSONInto TK} `{JSONInto (Measurement unit)}.

(** [scrubTestKeys] and [scrubTopLevelKeys]. *)
Definition scrub_into {A} `{JSONInto A} (value : A) (currentIP : string) : outcome (result error A) :=
  match into_Marshal value with
  | Err _ => Panic "json.Marshal failed"
  | Val data => Ok (into_Unmarshal (ReplaceAll data currentIP Scrubbed) value)
  end.

Definition ScrubMeasurement (m : Measurement TK) (currentIP : string) : outcome (result error (Measurement TK)) :=
  if IsNone (ParseIP currentIP) then Ok (Err ErrInvalidProbeIP)
  else
    let m := m <| m_ProbeIP := DefaultProbeIP |> in
    testKeys ← scrub_into (m_TestKeys m) currentIP;
    match testKeys with
    | Err err => Ok (Err err)
    | Val testKeys =>
        top ← scrub_into (set_TestKeys tt m) currentIP;
        match top with
        | Err err => Ok (Err err)
        | Val top => Ok (Val (set_TestKeys testKeys top))
        end
    end.

(** ** Experiments *)

Record experiment := mkExperiment {
  exp_report : option reportChan;
  exp_testName : string;
  exp_testStartTime : string;
  exp_testVersion : string;
}.

Definition exp_ReportID (e : experiment) : string := match exp_report e with None => "" | Some report => rc_ID report end.

(** [model.ExperimentTarget] *)
Record target := mkTarget { tgt_Options : list string; tgt_Input : string }.

Abbreviation S := (sess Store Net).

(** The format of a time, the build of the program, and its platform. *)
Context (format_UTC : Time → string) (GOARCH : string) (build : string → string) (goos : string).

Definition AddAnnotation (key value : string) (m : Measurement TK) : Measurement TK :=
  m <| m_Annotations ::= λ annotations, Some (<[key := value]> (default ∅ annotations)) |>.

Context (no_testkeys : TK).

Definition newMeasurement (e : experiment) (t : target) : S (Measurement TK) :=
  utctimenow ← sess_io io_Now;
  asn ← ProbeASNString; cc ← ProbeCC; network ← ProbeNetworkName;
  rasn ← ResolverASNString; rip ← ResolverIP; rnetwork ← ResolverNetworkName;
  s ← get_session;
  let m := mkMeasurement TK None OOAPIReportDefaultDataFormatVersion None "" (tgt_Input t) [] (format_UTC utctimenow) utctimenow (tgt_Options t)
    asn cc "" DefaultProbeIP network (exp_ReportID e) rasn rip rnetwork (sess_softwareName s) (sess_softwareVersion s) None no_testkeys
    (exp_testName e) 0 (exp_testStartTime e) (exp_testVersion e) in
  let m := AddAnnotation "architecture" GOARCH m in
  let m := AddAnnotation "engine_name" "ooniprobe-engine" m in
  let m := AddAnnotation "engine_version" version_Version m in
  let m := AddAnnotation "go_version" (build "go_version") m in
  let m := AddAnnotation "platform" (platform_name goos) m in
  let m := AddAnnotation "vcs_modified" (build "vcs_modified") m in
  let m := AddAnnotation "vcs_revision" (build "vcs_revision") m in
  let m := AddAnnotation "vcs_time" (build "vcs_time") m in
  let m := AddAnnotation "vcs_tool" (build "vcs_tool") m in
  mret m.

Definition newReportTemplate (e : experiment) : S OOAPIReportTemplate :=
  asn ← ProbeASNString; cc ← ProbeCC; s ← get_session;
  mret {| rt_DataFormatVersion := OOAPIReportDefaultDataFormatVersion; rt_Format := OOAPIReportDefaultFormat; rt_ProbeASN := asn;
          rt_ProbeCC := cc; rt_SoftwareName := sess_softwareName s; rt_SoftwareVersion := sess_softwareVersion s;
          rt_TestName := exp_testName e; rt_TestStartTime := exp_testStartTime e; rt_TestVersion := exp_testVersion e |}.

Section run.
Context `{Network Net} (gunzip : reader → result error reader) `{JSON string (gmap string (list OOAPIService))}.
Context `{JSON string OOAPIReportTemplate} `{JSON string OOAPICollectorOpenResponse}.
Context `{JSON string (OOAPICollectorUpdateRequest TK)} `{JSON string OOAPICollectorUpdateResponse}.
Context (Task_Run : string → io Store Net (Results * option error)).

Definition OpenReportContext (ctx_Err : option error) (e : experiment) : S (experiment * option error) :=
  match exp_report e with
  | Some _ => mret (e, None)
  | None =>
      client ← newProbeServicesClient gunzip Task_Run ctx_Err;
      match client with
      | Err err => mret (e, Some err)
      | Val client =>
          template ← newReportTemplate e;
          report ← sess_io (OpenReport gunzip client template);
          mret (match report with Err err => (e, Some err) | Val report => (e <| exp_report := Some report |>, None) end)
      end
  end.

Definition ErrReportNotOpen : error := ErrValue "" [] "report is not open".

Definition SubmitAndUpdateMeasurementContext (e : experiment) (m : Measurement TK) : S (Measurement TK * option error) :=
  match exp_report e with
  | None => mret (m, Some ErrReportNotOpen)
  | Some report => sess_io (SubmitMeasurement gunzip report m)
  end.

(** The measurer of the experiment changes the measurement; it may use the session. *)
Context (measurer_Run : Measurement TK → S (Measurement TK * option error)).

Definition MeasureWithContext (ctx_Err : option error) (e : experiment) (t : target) : S (result error (Measurement TK)) :=
  err ← MaybeLookupLocationContext Task_Run ctx_Err;
  match err with
  | Some err => mret (Err err)
  | None =>
      measurement ← newMeasurement e t;
      start ← sess_io io_Now;
      '(measurement, err) ← measurer_Run measurement;
      stop ← sess_io io_Now;
      match err with
      | Some err => mret (Err err)
      | None =>
          let measurement := measurement <| m_MeasurementRuntime := time_Sub stop start |> in
          ip ← ProbeIP;
          sess_io (io_lift (ScrubMeasurement measurement ip))
      end
  end.
End run.
End experiment.
