(* ===== verification/SessionFacts.v ===== *)
(** * What a session and its experiments guarantee

    The mutex of a session never deadlocks and is free between two calls; the service and the location are
    looked up once; an experiment submits to a report that fits, and gives away no measurement with the address of
    the probe. *)
From S2P Require Import Prelude Failures GoString GoNet NetErrors LteTestKeys Overlapped GoHTTP.
From S2P Require Import EngineIO ProbeServices ProbeServicesFacts.
From S2P Require Import Geolocate Session.
From Stdlib Require Import Ascii.

(** ** Computations of a session *)

Section sess_ends.
Context {Store Net : Type}.
Implicit Types (s : Session) (w : world Store Net).

Definition sess_ends {A} (m : sess Store Net A) s w (Q : A → Session → world Store Net → Prop) : Prop :=
  ∃ a s' w', m s w = Ok (a, s', w') ∧ Q a s' w'.

Lemma sess_ends_ret {A} (a : A) s w (Q : A → Session → world Store Net → Prop) : Q a s w → sess_ends (mret a) s w Q.
Proof. by exists a, s, w. Qed.

Lemma sess_ends_bind {A B} (m : sess Store Net A) (f : A → sess Store Net B) s w Q R :
  sess_ends m s w Q → (∀ a s' w', Q a s' w' → sess_ends (f a) s' w' R) → sess_ends (m ≫= f) s w R.
Proof.
  intros (a & s' & w' & E & Hq) Hf. destruct (Hf a s' w' Hq) as (b & s'' & w'' & E' & Hr). exists b, s'', w''. split; [|done].
  unfold mbind, sess_bind. rewrite E. exact E'.
Qed.

Lemma sess_ends_impl {A} (m : sess Store Net A) s w (Q R : A → Session → world Store Net → Prop) :
  sess_ends m s w Q → (∀ a s' w', Q a s' w' → R a s' w') → sess_ends m s w R.
Proof. intros (a & s' & w' & E & Hq) Hr. exists a, s', w'. eauto. Qed.

Lemma sess_ends_io {A} (m : io Store Net A) s w (Q : A → Session → world Store Net → Prop) :
  ends m w (λ a w', Q a s w') → sess_ends (sess_io m) s w Q.
Proof. intros (a & w' & E & Hq). exists a, s, w'. split; [|done]. unfold sess_io. by rewrite E. Qed.

Lemma sess_bind_io {A B} (m : io Store Net A) (f : A → sess Store Net B) s w Q R :
  ends m w Q → (∀ a w', Q a w' → sess_ends (f a) s w' R) → sess_ends (sess_io m ≫= f) s w R.
Proof.
  intros Hm Hf. eapply (sess_ends_bind _ _ _ _ (λ a s' w', s' = s ∧ Q a w')); [by apply sess_ends_io; eapply ends_impl|].
  intros a s' w' [-> Hq]. by apply Hf.
Qed.

Definition unlocked s : Prop := sess_mu s = false.

Lemma sess_bind_get {A} (f : Session → sess Store Net A) s w Q : sess_ends (f s) s w Q → sess_ends (get_session ≫= f) s w Q.
Proof. done. Qed.

Lemma sess_bind_set {A} g (f : unit → sess Store Net A) s w Q : sess_ends (f tt) (g s) w Q → sess_ends (set_session g ≫= f) s w Q.
Proof. done. Qed.

Lemma sess_bind_ret {A B} (a : A) (f : A → sess Store Net B) s w Q : sess_ends (f a) s w Q → sess_ends (mret a ≫= f) s w Q.
Proof. done. Qed.

(** The mutex is free before and after, and taken in between. *)
Lemma locked_ends {A} (m : sess Store Net A) s w (Q : A → Session → world Store Net → Prop) :
  unlocked s →
  sess_ends m (s <| sess_mu := true |>) w (λ a s' w', sess_mu s' = true ∧ Q a (s' <| sess_mu := false |>) w') →
  sess_ends (locked m) s w Q.
Proof.
  intros Hs (a & s' & w' & E & Hmu & Hq). unfold locked.
  eapply (sess_ends_bind _ _ _ _ (λ _ s' w', s' = s <| sess_mu := true |> ∧ w' = w)).
  { exists tt, (s <| sess_mu := true |>), w. split; [|done]. unfold mu_Lock. by rewrite Hs. }
  intros _ ? ? [-> ->]. eapply (sess_ends_bind _ _ _ _ (λ a' s'' w'', a' = a ∧ s'' = s' ∧ w'' = w')); [by exists a, s', w'|].
  intros ? ? ? (-> & -> & ->). eapply (sess_ends_bind _ _ _ _ (λ _ s'' w'', s'' = s' <| sess_mu := false |> ∧ w'' = w')).
  { exists tt, (s' <| sess_mu := false |>), w'. split; [|done]. unfold mu_Unlock. by rewrite Hmu. }
  intros _ ? ? [-> ->]. by apply sess_ends_ret.
Qed.

Lemma relock s : unlocked s → s <| sess_mu := true |> <| sess_mu := false |> = s.
Proof. unfold unlocked. destruct s. cbn. by intros ->. Qed.

(** What the session knows does not change. *)
Lemma from_location_ends {A} (dflt : A) field s w :
  unlocked s →
  sess_ends (from_location dflt field) s w (λ a s' w', s' = s ∧ w' = w ∧
    a = match sess_location s with Some location => field location | None => dflt end).
Proof.
  intros Hs. apply locked_ends; [done|]. apply sess_bind_get, sess_ends_ret. rewrite relock by done. split; [by destruct s|]. by destruct s.
Qed.
End sess_ends.

(** What a session has learned stays. *)
Record learned (s s' : Session) : Prop := {
  le_available : sess_availableProbeServices s' = sess_availableProbeServices s;
  le_name : sess_softwareName s' = sess_softwareName s;
  le_version : sess_softwareVersion s' = sess_softwareVersion s;
  le_location : ∀ location, sess_location s = Some location → sess_location s' = Some location;
  le_selected : ∀ service, sess_selectedProbeService s = Some service →
    sess_selectedProbeService s' = Some service ∧ sess_availableTestHelpers s' = sess_availableTestHelpers s;
}.

#[export] Instance learned_preorder : PreOrder learned.
Proof.
  split.
  - by constructor.
  - intros s1 s2 s3 [] []. constructor; [congruence..|naive_solver|].
    intros service Hs. destruct (le_selected0 service Hs) as [H1 H2]. destruct (le_selected1 service H1). split; congruence.
Qed.

Lemma learned_mu s b : learned s (s <| sess_mu := b |>) ∧ learned (s <| sess_mu := b |>) s.
Proof. destruct s. split; by constructor. Qed.

(** ** Services and location *)

Section lookups.
Context {Store bytes Net : Type} `{Network Net} (gunzip : reader → result error reader).
Context `{JSON string (gmap string (list OOAPIService))} (Task_Run : string → io Store Net (Results * option error)).
Implicit Types (s : Session) (w : world Store Net).

(** A service over HTTPS that works is preferred to any other. *)
Lemma best_https ua l w out w' c :
  tried_all gunzip ua l w out w' → best out c → (∃ c', c' ∈ out ∧ works c' ∧ svc_Type (cand_Service c') = "https") →
  svc_Type (cand_Service c) = "https".
Proof.
  intros [[n Ht%tries_services] _ Hfb _ _] (before & after & Eout & _) (c' & Hc' & Hw & Hhttps).
  assert (Hserv : ∀ i c, out !! i = Some c → svc_Type (cand_Service c) = "https" ↔ (i < length (OnlyHTTPS l))%nat).
  { intros i c0 Hc0. destruct (Forall2_lookup_r _ _ _ _ _ Ht Hc0) as (svc & Hsvc & Hs & _). rewrite Hs. split.
    - intros Ehttps. destruct (decide (i < length (OnlyHTTPS l))%nat) as [|Hge]; [done|].
      rewrite lookup_app_r in Hsvc by lia. apply list_elem_of_lookup_2 in Hsvc. apply elem_of_take in Hsvc as (j & Hj & _).
      apply list_elem_of_lookup_2 in Hj. rewrite OnlyFallbacks_filter in Hj.
      apply elem_of_app in Hj as [Hj|Hj]; apply list_elem_of_filter in Hj as [Hj _]; congruence.
    - intros Hi. rewrite lookup_app_l in Hsvc by done. apply list_elem_of_lookup_2 in Hsvc. rewrite OnlyHTTPS_filter in Hsvc.
      by apply list_elem_of_filter in Hsvc as [? _]. }
  apply list_elem_of_lookup in Hc' as [i Hi]. pose proof (proj1 (Hserv _ _ Hi) Hhttps) as Hlt.
  assert (Elen : length out = length (OnlyHTTPS l)).
  { apply Hfb. exists c'. split; [|done]. apply elem_of_take. exists i. split; [done|lia]. }
  assert (Ec : out !! length before = Some c) by (rewrite Eout; by apply list_lookup_middle).
  apply (Hserv _ _ Ec). rewrite <-Elen. by apply lookup_lt_Some in Ec.
Qed.

Definition counted s : Session := s <| sess_queryProbeServicesCount ::= λ n, wrap64 (n + 1) |>.

(** What a lookup of the services did. *)
Definition backends s w (err : option error) s' w' : Prop :=
  match sess_selectedProbeService s with
  | Some _ => err = None ∧ s' = s ∧ w' = w
  | None => ∃ out, tried_all gunzip (sess_UserAgent s) (getAvailableProbeServicesUnlocked s) w out w' ∧ kept w w' ∧
      match err with
      | None => ∃ c helpers, best out c ∧ cand_TestHelpers c = Some helpers ∧
          ((∃ c', c' ∈ out ∧ works c' ∧ svc_Type (cand_Service c') = "https") → svc_Type (cand_Service c) = "https") ∧
          (∃ client, NewClient (sess_UserAgent s) (cand_Service c) = Val client) ∧
          s' = counted s <| sess_selectedProbeService := Some (cand_Service c) |> <| sess_availableTestHelpers := Some helpers |>
      | Some err => err = ErrAllProbeServicesFailed ∧ Forall (λ c, ¬ works c) out ∧ s' = counted s
      end
  end.

Lemma MaybeLookupBackendsContext_ends s w : unlocked s → sess_ends (MaybeLookupBackendsContext gunzip) s w (backends s w).
Proof.
  intros Hs. apply locked_ends; [done|]. apply sess_bind_get. unfold backends.
  assert (Esel : sess_selectedProbeService (s <| sess_mu := true |>) = sess_selectedProbeService s) by by destruct s.
  rewrite Esel. destruct (sess_selectedProbeService s) as [service|].
  { apply sess_ends_ret. rewrite relock by done. by destruct s. }
  apply sess_bind_set. eapply sess_bind_io; [apply TryAll_ends|]. intros out w1 Ht.
  assert (Es : kept w w1) by (destruct Ht as [[n Ht] _ _ _ _]; by eapply tries_kept).
  assert (Eua : sess_UserAgent (s <| sess_mu := true |>) = sess_UserAgent s ∧
    getAvailableProbeServicesUnlocked (s <| sess_mu := true |>) = getAvailableProbeServicesUnlocked s) by by destruct s.
  destruct Eua as [Eua Eav]. rewrite Eua, Eav in Ht. pose proof (SelectBest_spec out) as Hbest.
  destruct (SelectBest out) as [c|] eqn:Eb.
  - apply sess_bind_set, sess_ends_ret. split; [by destruct s|]. exists out. split; [done|]. split; [done|].
    destruct (ta_tried _ _ _ _ _ _ Ht) as [n Ht'%tries_services]. pose proof Hbest as (before & after & -> & Hw & _).
    apply Forall2_app_inv_r in Ht' as (l1 & l2 & _ & Ht' & El). apply Forall2_cons_inv_r in Ht' as (svc & l3 & [<- Hc] & _ & ->).
    destruct (Hc Hw) as (client & helpers & Hcl & Hh).
    exists c, helpers. split_and!; [done|done|by eapply (best_https (sess_UserAgent s) (getAvailableProbeServicesUnlocked s))|by exists client|].
    rewrite Hh. unfold unlocked in Hs. destruct s. cbn in *. by subst.
  - apply sess_ends_ret. split; [by destruct s|]. exists out. split; [done|]. split; [done|]. split_and!; [done|done|].
    unfold unlocked in Hs. destruct s. cbn in *. by subst.
Qed.

(** C20: The lookup of the services refines its specification.  When none is selected, every service over HTTPS is tried, then
    the fallbacks up to the first that works if none of those did; the one that works with the least duration is selected, the first among
    equals (the duration is the time between the readings of the clock before and after the request for the test helpers), with the test helpers that it gave, and it is one over HTTPS whenever one of these works; the lookup fails exactly when no service works.
    The mutex is free again afterwards, and a service that was found stays: later calls do nothing. *)
Theorem services_spec s w (Hs : unlocked s) :
  sess_ends (MaybeLookupBackendsContext gunzip) s w (λ err s' w', backends s w err s' w' ∧
    (err = None → ∀ s2 w2, unlocked s2 → learned s' s2 → MaybeLookupBackendsContext gunzip s2 w2 = Ok (None, s2, w2))).
Proof.
  eapply sess_ends_impl; [by apply MaybeLookupBackendsContext_ends|]. intros err s' w' Hb. split; [done|].
  intros -> s2 w2 Hs2 Hl. assert (Hsel : is_Some (sess_selectedProbeService s')).
  { unfold backends in Hb. destruct (sess_selectedProbeService s) as [service|] eqn:E.
    - destruct Hb as (_ & -> & _). by exists service.
    - destruct Hb as (out & _ & _ & c & helpers & _ & _ & _ & _ & ->). exists (cand_Service c). by destruct s. }
  destruct Hsel as [service E]. apply (le_selected _ _ Hl) in E as [E _].
  destruct (MaybeLookupBackendsContext_ends s2 w2 Hs2) as (err & s3 & w3 & Er & Hb2). unfold backends in Hb2. rewrite E in Hb2.
  by destruct Hb2 as (-> & -> & ->).
Qed.

Context (Htask : ∀ userAgent w, ends (Task_Run userAgent) w (λ '(location, err) w', kept w w' ∧ (err = None → valid_ip (loc_ProbeIP location)))).

(** Between two calls: the mutex is free, the address of the probe is one, the selected service has a client. *)
Record session_ok s : Prop := {
  ok_unlocked : unlocked s;
  ok_location : ∀ location, sess_location s = Some location → valid_ip (loc_ProbeIP location);
  ok_selected : ∀ service, sess_selectedProbeService s = Some service → ∃ client, NewClient (sess_UserAgent s) service = Val client;
}.

Lemma backends_ok s w err s' w' :
  session_ok s → backends s w err s' w' → session_ok s' ∧ learned s s' ∧ kept w w' ∧ (err = None → is_Some (sess_selectedProbeService s')).
Proof.
  intros [Hu Hl Hsel] Hb. unfold backends in Hb. destruct (sess_selectedProbeService s) as [service|] eqn:Es.
  { destruct Hb as (-> & -> & ->). split_and!; [constructor; try done; by rewrite Es|done|done|by rewrite Es]. }
  destruct Hb as (out & _ & Hk & Hb). destruct err as [err|].
  - destruct Hb as (_ & _ & ->). destruct s. cbn in *. subst. split_and!; [by constructor|by constructor|done|done].
  - destruct Hb as (c & helpers & _ & _ & _ & [client Hc] & ->). destruct s. cbn in *. subst.
    split_and!; [constructor; try done|by constructor|done|by eexists]. intros service [= <-]. by exists client.
Qed.

Lemma MaybeLookupLocationContext_ends ctx_Err s w :
  session_ok s →
  sess_ends (MaybeLookupLocationContext Task_Run ctx_Err) s w (λ err s' w', session_ok s' ∧ learned s s' ∧ kept w w' ∧
    (err = None → is_Some (sess_location s'))).
Proof.
  intros Hok. unfold MaybeLookupLocationContext. destruct ctx_Err as [err|]; [by apply sess_ends_ret|].
  apply locked_ends; [apply Hok|]. apply sess_bind_get. destruct Hok as [Hu Hl Hsel]. unfold unlocked in Hu.
  destruct s as [available helpers location count selected name version mu]. cbn in *. subst mu. unfold constant.
  destruct location as [location|].
  - apply sess_ends_ret. cbn. unfold constant. split; [done|]. split_and!; [by constructor|done|done|by eexists].
  - eapply sess_bind_io; [apply Htask|]. intros [location [err|]] w1 [Hk Hv].
    + apply sess_ends_ret. cbn. unfold constant. split; [done|]. split_and!; [by constructor|done|done|done].
    + apply sess_bind_set, sess_ends_ret. cbn. unfold constant. split; [done|].
      split_and!; [constructor; try done; intros ? [= <-]; by apply Hv|by constructor|done|by eexists].
Qed.

Lemma newProbeServicesClient_ends ctx_Err s w :
  session_ok s →
  sess_ends (newProbeServicesClient gunzip Task_Run ctx_Err) s w (λ res s' w', session_ok s' ∧ learned s s' ∧ kept w w' ∧
    ∀ client, res = Val client → is_Some (sess_location s') ∧
      ∃ service, sess_selectedProbeService s' = Some service ∧ NewClient (sess_UserAgent s') service = Val client).
Proof.
  intros Hok. unfold newProbeServicesClient. destruct ctx_Err as [err|]; [by apply sess_ends_ret|].
  eapply sess_ends_bind; [apply MaybeLookupBackendsContext_ends, Hok|]. intros err s1 w1 Hb.
  destruct (backends_ok _ _ _ _ _ Hok Hb) as (Hok1 & Hl1 & Hk1 & Hsel). destruct err as [err|]; [by apply sess_ends_ret|].
  eapply sess_ends_bind; [by apply MaybeLookupLocationContext_ends|]. intros err s2 w2 (Hok2 & Hl2 & Hk2 & Hloc).
  destruct err as [err|]; [apply sess_ends_ret; split_and!; [done|by etrans|by etrans|done]|].
  apply sess_bind_get. destruct (Hsel eq_refl) as [service Es]. apply (le_selected _ _ Hl2) in Es as [Es _]. rewrite Es.
  apply sess_ends_ret. split_and!; [done|by etrans|by etrans|]. intros client E. split; [by apply Hloc|by exists service].
Qed.
End lookups.

(** ** Orchestra *)

(** The fields that are omitted when empty are optional, although the comment of [Valid] calls them mandatory. *)
Lemma metadata_omitted_valid : metadata_Valid orchestra_metadata = true ∧ pm_Language orchestra_metadata = "".
Proof. vm_compute. split; reflexivity. Qed.

Section orchestra.
Context {Store bytes Net : Type} `{Network Net} (gunzip : reader → result error reader).
Context `{JSON string (gmap string (list OOAPIService))} (Task_Run : string → io Store Net (Results * option error)).
Context `{Hstore : KeyValueStore Store bytes} `{!KeyValueStoreLaws Store bytes}.
Context `{Hjson : JSON bytes State} `{!JSONLaws bytes State} (time_zero_Time : Time).
Context `{JSON string OOAPIRegisterRequest} `{JSON string OOAPIRegisterResponse}.
Context `{JSON string OOAPILoginCredentials} `{JSON string OOAPILoginAuth}.
Context (Htask : ∀ userAgent w, ends (Task_Run userAgent) w (λ '(location, err) w', kept w w' ∧ (err = None → valid_ip (loc_ProbeIP location)))).
Implicit Types (s : Session) (w : world Store Net).

Abbreviation stored w := (state_of time_zero_Time (w_store w)).

(** A client that is registered, then logged in. *)
Lemma initOrchestraClient_ends c w :
  draws_ok w →
  ends (initOrchestraClient gunzip time_zero_Time c) w (λ res w', ∀ c', res = Val c' → c' = c ∧
    ∃ w1, registered time_zero_Time gunzip c orchestra_metadata w None w1 ∧ logged_in time_zero_Time gunzip c w1 None w' ∧
      w_now w' = w_now w).
Proof.
  intros Hd. unfold initOrchestraClient. eapply ends_bind; [by apply MaybeRegister_ends|]. intros [err|] w1 (Hr & En & Hd1); [by apply ends_ret|].
  eapply ends_bind; [apply MaybeLogin_ends|]. intros [err|] w2 [Hl En2]; apply ends_ret; [done|].
  intros ? [= <-]. split; [done|]. exists w1. split_and!; [done..|congruence].
Qed.

(** C21: The targets for Tor come from a request that shows the token of the state file of a registered account.  The token
    has half a minute left at the reading of the clock that comes last before the request (a slow request may outlive it); an
    account that is in the store is not replaced, and the password of a new one consists of 64 letters, each chosen by a number
    that is drawn at random then; the client is the one of the selected service. *)
Theorem FetchTorTargets_spec {Targets} `{JSON string Targets} ctx_Err cc s w (Hok : session_ok s) (Hdraws : draws_ok w) :
  sess_ends (sess_FetchTorTargets (Targets := Targets) gunzip Task_Run time_zero_Time ctx_Err cc) s w (λ res s' w',
    session_ok s' ∧ learned s s' ∧
    ∀ targets, res = Val targets → account time_zero_Time w w' ∧
      ∃ service client w1, sess_selectedProbeService s' = Some service ∧ NewClient (sess_UserAgent s') service = Val client ∧
        w_now w1 = w_now w ∧ w_readings w' = S (w_readings w1) ∧ stored w1 = stored w' ∧
        token_ok w1 (stored w1) ∧ authorized time_zero_Time gunzip client cc w1 targets w').
Proof.
  unfold sess_FetchTorTargets, newOrchestraClient.
  eapply (sess_ends_bind _ _ _ _ (λ res s1 w2, session_ok s1 ∧ learned s s1 ∧ ∀ client, res = Val client →
    (∃ service, sess_selectedProbeService s1 = Some service ∧ NewClient (sess_UserAgent s1) service = Val client) ∧
    ∃ w0 w1, kept w w0 ∧ registered time_zero_Time gunzip client orchestra_metadata w0 None w1 ∧
      logged_in time_zero_Time gunzip client w1 None w2 ∧ w_now w2 = w_now w)).
  { eapply sess_ends_bind; [by eapply newProbeServicesClient_ends|]. intros [client|err] s1 w0 (Hok1 & Hl1 & Hk & Hclient).
    2: { by apply sess_ends_ret. }
    destruct (Hclient client eq_refl) as [_ Hservice]. apply sess_ends_io.
    eapply ends_impl; [apply initOrchestraClient_ends|].
    { eapply draws_same; [|exact Hdraws]. apply Hk. }
    intros res w2 Hres. split_and!; [done|done|]. intros client' E. destruct (Hres client' E) as (-> & w1 & Hr & Hlg & En).
    split; [done|]. exists w0, w1. split_and!; [done..|]. rewrite En. apply Hk. }
  intros [client|err] s1 w2 (Hok1 & Hl1 & Hc); [|by apply sess_ends_ret].
  destruct (Hc client eq_refl) as ((service & Eservice & Eclient) & w0 & w1 & [Es0 Ei0 _ Ed0] & Hr & Hlg & En). apply sess_ends_io.
  eapply ends_impl; [apply FetchTorTargets_ends|]. intros res w3 (Es3 & En3 & Ht). split_and!; [done|done|].
  intros targets E. destruct (Ht targets E) as (Hcreds & Htoken & Er & Hauth). split.
  - destruct (registered_account time_zero_Time gunzip client orchestra_metadata w0 w1 w2 Hr) as (creds & Ec & Hcase);
      [by eapply logged_in_credentials|done|]. exists creds. rewrite Es3, <-Es0. split; [done|].
    destruct Hcase as [Hcase|(Hn & Hlen & Hm & d & Hd & Hpwd)]; [by left|right]. split_and!; [done..|].
    exists d. split; [lia|]. by rewrite Hpwd, (drawn_same w w0).
  - exists service, client, w2. split_and!; [done..|by rewrite Es3|done|done].
Qed.
End orchestra.

(** ** Replacing an address *)

Definition occurs (p s : string) : bool := negb (IsNone (from_first p s)).

Definition no_bracket (c : ascii) : bool := negb (Ascii.eqb c "[") && negb (Ascii.eqb c "]").

Section replace.
Context (old : string) (Hplain : all_chars no_bracket old = true) (Hsep : all_chars (λ c, negb (separator c)) old = false).

Abbreviation R := (replace_from 0 old Scrubbed).

Lemma prefix_string_cons c d p s : String.prefix (String c p) (String d s) = true ↔ c = d ∧ String.prefix p s = true.
Proof. cbn [String.prefix]. destruct (ascii_dec c d); naive_solver. Qed.

Lemma replace_skip k s : replace_from k old Scrubbed s = R (string_drop k s).
Proof. revert k. induction s as [|c s IH]; intros [|k]; try done. cbn [replace_from string_drop]. apply IH. Qed.

Lemma old_cons : ∃ c p, old = String c p ∧ Ascii.eqb c "[" = false ∧ Ascii.eqb c "]" = false.
Proof.
  destruct old as [|c p]; [done|]. exists c, p. cbn in Hplain. apply andb_true_iff in Hplain as [Hc _].
  unfold no_bracket in Hc. apply andb_true_iff in Hc as [H1 H2]. by rewrite negb_true_iff in H1, H2.
Qed.

(** The text is copied up to the first replacement. *)
Lemma replace_prefix p s : all_chars no_bracket p = true → String.prefix p (R s) = true → String.prefix p s = true.
Proof.
  revert s. induction p as [|c p IH]; intros s Hp E; [by destruct s|]. cbn [all_chars] in Hp. apply andb_true_iff in Hp as [Hc Hp].
  destruct s as [|d s]; [done|]. cbn [replace_from] in E. destruct (String.prefix old (String d s)).
  - change (Scrubbed +:+ ?x) with (String "[" ("scrubbed]" +:+ x)) in E. apply prefix_string_cons in E as [-> _]. done.
  - apply prefix_string_cons in E as [-> E]. apply prefix_string_cons. split; [done|]. by apply IH.
Qed.

Lemma replace_no_prefix s : String.prefix old (R s) = false.
Proof.
  apply not_true_iff_false. intros E. pose proof (replace_prefix old s Hplain E) as Es. destruct old_cons as (c & p & Eold & Hc & _).
  destruct s as [|d s]; [by rewrite Eold in Es|]. cbn [replace_from] in E. rewrite Es in E.
  change (Scrubbed +:+ ?x) with (String "[" ("scrubbed]" +:+ x)) in E. rewrite Eold in E. apply prefix_string_cons in E as [-> _]. done.
Qed.

(** An address does not start in a text without separators that ends in a bracket. *)
Lemma no_prefix_bracket p u rest :
  all_chars no_bracket p = true → all_chars (λ c, negb (separator c)) p = false → all_chars (λ c, negb (separator c)) u = true →
  String.prefix p (u +:+ String "]" rest) = false.
Proof.
  revert p. induction u as [|d u IH]; intros p Hp Hs Hu; destruct p as [|c p]; try done; apply not_true_iff_false; intros E.
  - change ("" +:+ ?x) with x in E. apply prefix_string_cons in E as [-> _]. done.
  - change (String d u +:+ ?x) with (String d (u +:+ x)) in E. apply prefix_string_cons in E as [-> E].
    cbn [all_chars] in Hp, Hs, Hu. apply andb_true_iff in Hp as [_ Hp], Hu as [Hd Hu]. rewrite Hd in Hs.
    by rewrite (IH p Hp Hs Hu) in E.
Qed.

Lemma from_first_bracket u rest :
  all_chars (λ c, negb (separator c)) u = true → from_first old (u +:+ String "]" rest) = from_first old rest.
Proof.
  induction u as [|d u IH]; intros Hu.
  - pose proof (no_prefix_bracket old "" rest Hplain Hsep Hu) as E. change ("" +:+ ?x) with x in *. cbn [from_first]. by rewrite E.
  - pose proof (no_prefix_bracket old (String d u) rest Hplain Hsep Hu) as E.
    change (String d u +:+ ?x) with (String d (u +:+ x)) in *. cbn [from_first]. rewrite E. apply IH.
    cbn [all_chars] in Hu. by apply andb_true_iff in Hu as [_ Hu].
Qed.

Lemma string_drop_le k s : (String.length (string_drop k s) ≤ String.length s)%nat.
Proof. revert k. induction s as [|c s IH]; intros [|k]; cbn; try lia. specialize (IH k). lia. Qed.

(** The address is gone. *)
Lemma ReplaceAll_clean s : occurs old (ReplaceAll s old Scrubbed) = false.
Proof.
  unfold occurs, ReplaceAll. enough (E : from_first old (R s) = None) by by rewrite E.
  remember (String.length s) as n eqn:En. revert s En. induction n as [n IH] using lt_wf_ind. intros s ->.
  destruct old_cons as (o & p & Eold & _). destruct s as [|d s]; [by rewrite Eold|].
  pose proof (replace_no_prefix (String d s)) as Eno. cbn [replace_from] in *.
  destruct (String.prefix old (String d s)) eqn:Ep.
  - change (Scrubbed +:+ ?x) with ("[scrubbed" +:+ String "]" x) in *. rewrite from_first_bracket by done.
    rewrite replace_skip. eapply IH; [|done]. pose proof (string_drop_le (Nat.pred (String.length old)) s). cbn. lia.
  - cbn [from_first]. rewrite Eno. eapply IH; [|done]. cbn. lia.
Qed.

Lemma ReplaceAll_absent s : occurs old s = false → ReplaceAll s old Scrubbed = s.
Proof.
  unfold occurs, ReplaceAll. induction s as [|d s IH]; intros E; [done|]. cbn [from_first replace_from] in *.
  destruct (String.prefix old (String d s)); [done|]. f_equal. by apply IH.
Qed.
End replace.

Lemma valid_ip_plain ip : valid_ip ip → all_chars no_bracket ip = true ∧ all_chars (λ c, negb (separator c)) ip = false.
Proof.
  intros [a Ha]. apply ParseIP_chars in Ha as [Hc Hs]. split; [|done]. eapply all_chars_impl; [|exact Hc].
  intros c. by destruct c as [[] [] [] [] [] [] [] []].
Qed.

(** ** Experiments *)

Section experiments.
Context {Store bytes Net TK : Type} `{Network Net} (gunzip : reader → result error reader).
Context `{Hinto : JSONInto TK} `{Htop : JSONInto (Measurement unit)}.
Context `{JSON string (gmap string (list OOAPIService))}.
Context `{JSON string OOAPIReportTemplate} `{JSON string OOAPICollectorOpenResponse}.
Context `{JSON string (OOAPICollectorUpdateRequest TK)} `{JSON string OOAPICollectorUpdateResponse}.
Context (Task_Run : string → io Store Net (Results * option error)).
Context (Htask : ∀ userAgent w, ends (Task_Run userAgent) w (λ '(location, err) w', kept w w' ∧ (err = None → valid_ip (loc_ProbeIP location)))).
Context (format_UTC : Time → string) (GOARCH : string) (build : string → string) (goos : string) (no_testkeys : TK).
Implicit Types (s : Session) (w : world Store Net).

Definition located {A} (dflt : A) (field : Results → A) s : A :=
  match sess_location s with Some location => field location | None => dflt end.

(** The template for a measurement of the experiment in the session. *)
Definition template_of (e : experiment) s : OOAPIReportTemplate :=
  {| rt_DataFormatVersion := OOAPIReportDefaultDataFormatVersion; rt_Format := OOAPIReportDefaultFormat;
     rt_ProbeASN := "AS" +:+ Itoa (located DefaultProbeASN loc_ASN s); rt_ProbeCC := located DefaultProbeCC loc_CountryCode s;
     rt_SoftwareName := sess_softwareName s; rt_SoftwareVersion := sess_softwareVersion s;
     rt_TestName := exp_testName e; rt_TestStartTime := exp_testStartTime e; rt_TestVersion := exp_testVersion e |}.

Lemma bind_located {A B} (dflt : A) field (f : A → sess Store Net B) s w Q :
  unlocked s → sess_ends (f (located dflt field s)) s w Q → sess_ends (from_location dflt field ≫= f) s w Q.
Proof.
  intros Hs Hf. eapply sess_ends_bind; [by apply from_location_ends|]. intros ? ? ? (-> & -> & ->). exact Hf.
Qed.

Lemma bind_located_string {B} dflt field (f : string → sess Store Net B) s w Q :
  unlocked s → sess_ends (f ("AS" +:+ Itoa (located dflt field s))) s w Q →
  sess_ends ((asn ← from_location dflt field; mret ("AS" +:+ Itoa asn)) ≫= f) s w Q.
Proof.
  intros Hs Hf. eapply (sess_ends_bind _ _ _ _ (λ a s' w', a = "AS" +:+ Itoa (located dflt field s) ∧ s' = s ∧ w' = w)).
  - apply bind_located; [done|]. by apply sess_ends_ret.
  - intros ? ? ? (-> & -> & ->). exact Hf.
Qed.

Lemma newReportTemplate_ends e s w :
  unlocked s → sess_ends (newReportTemplate e) s w (λ t s' w', t = template_of e s ∧ s' = s ∧ w' = w).
Proof.
  intros Hs. unfold newReportTemplate, ProbeASNString, ProbeASN, ProbeCC. apply bind_located_string; [done|].
  apply bind_located; [done|]. apply sess_bind_get. by apply sess_ends_ret.
Qed.

(** A new measurement fits the template, has the report of the experiment, and not the address of the probe. *)
Definition new_measurement (e : experiment) s (m : Measurement TK) : Prop :=
  NewReportTemplate m = template_of e s ∧ m_ReportID m = exp_ReportID e ∧ m_ProbeIP m = DefaultProbeIP.

Abbreviation newMeasurement_of := (newMeasurement (Store := Store) (Net := Net) format_UTC GOARCH build goos no_testkeys).

Lemma newMeasurement_ends e t s w :
  unlocked s → sess_ends (newMeasurement_of e t) s w (λ m s' w', new_measurement e s m ∧ s' = s).
Proof.
  intros Hs. unfold newMeasurement, ProbeASNString, ProbeASN, ProbeCC, ProbeNetworkName, ResolverASNString, ResolverASN, ResolverIP, ResolverNetworkName.
  eapply (sess_bind_io _ _ _ _ (λ _ _, True)); [by apply ends_Now|]. intros now w1 _.
  apply bind_located_string; [done|]. do 2 (apply bind_located; [done|]). apply bind_located_string; [done|].
  do 2 (apply bind_located; [done|]). apply sess_bind_get, sess_ends_ret. by split.
Qed.

Abbreviation OpenReport_of := (OpenReportContext gunzip Task_Run).

Lemma template_learned e s s' location :
  learned s s' → sess_location s = Some location → template_of e s' = template_of e s.
Proof. intros [_ Hn Hv Hloc _] E. unfold template_of, located. by rewrite (Hloc _ E), E, Hn, Hv. Qed.

(** C23: An experiment that opens its report gets one that the collector opened, and every measurement that the experiment makes
    later, in any state that the session reaches, fits the report and names it; with an error the experiment is as it was. *)
Theorem OpenReportContext_spec ctx_Err e s w (Hok : session_ok s) (Hnew : exp_report e = None) :
  sess_ends (OpenReport_of ctx_Err e) s w (λ '(e', err) s' w', session_ok s' ∧ learned s s' ∧
    match err with
    | Some _ => e' = e
    | None => ∃ report ex, e' = e <| exp_report := Some report |> ∧ ex ∈ w_log w' ∧ opens gunzip report ex ∧
        ∀ s2 w2 t, unlocked s2 → learned s' s2 →
          sess_ends (newMeasurement_of e' t) s2 w2 (λ m _ _, CanSubmit report m = true ∧ m_ReportID m = rc_ID report)
    end).
Proof.
  unfold OpenReportContext. rewrite Hnew. eapply sess_ends_bind; [by eapply newProbeServicesClient_ends|].
  intros [client|err] s1 w1 (Hok1 & Hl1 & _ & Hclient); [|by apply sess_ends_ret].
  destruct (Hclient client eq_refl) as ([location Eloc] & _).
  eapply sess_ends_bind; [apply newReportTemplate_ends, Hok1|]. intros ? ? ? (-> & -> & ->).
  eapply sess_bind_io; [apply OpenReport_ends|]. intros [report|err] w2 (log & Hx & _ & Hr); apply sess_ends_ret; [|by split_and!].
  split_and!; [done..|]. destruct Hr as (_ & Ht & ex & -> & Ho). exists report, ex. split; [done|].
  apply exchanged_fields in Hx as (_ & El & _). split; [rewrite El; apply elem_of_app; right; apply list_elem_of_here|]. split; [done|].
  intros s2 w3 t Hu Hl2. eapply sess_ends_impl; [by apply newMeasurement_ends|]. intros m ? ? [(Hm & Hid & _) _]. split.
  - unfold CanSubmit. apply bool_decide_eq_true. rewrite Hm, Ht, <-(template_learned e s1 s2 location Hl2 Eloc).
    unfold template_of. by destruct e.
  - rewrite Hid. by destruct e.
Qed.

(** *** Measuring *)

Context (measurer_Run : Measurement TK → sess Store Net (Measurement TK * option error)).
Context (Hrun : ∀ m s w, session_ok s → sess_ends (measurer_Run m) s w (λ _ s' w', session_ok s' ∧ learned s s')).
Context (Hmarshal : ∀ tk : TK, ∃ data, into_Marshal tk = Val data) (Hmarshal_top : ∀ m : Measurement unit, ∃ data, into_Marshal m = Val data).

(** [after] is read over [before] from a text without the address, which is the text of [before] if it is not there either. *)
Definition scrubbed_from {A} `{JSONInto A} (ip : string) (before after : A) : Prop :=
  ∃ data text, into_Marshal before = Val data ∧ occurs ip text = false ∧ (occurs ip data = false → text = data) ∧
    into_Unmarshal text before = Val after.

Lemma scrub_into_spec {A} `{JSONInto A} (before : A) ip :
  valid_ip ip → (∀ a : A, ∃ data, into_Marshal a = Val data) →
  ∃ res, scrub_into before ip = Ok res ∧ ∀ after, res = Val after → scrubbed_from ip before after.
Proof.
  intros Hip Hm. destruct (valid_ip_plain ip Hip) as [Hp Hs]. unfold scrub_into. destruct (Hm before) as [data E]. rewrite E.
  eexists. split; [done|]. intros after Ha. exists data, (ReplaceAll data ip Scrubbed). split_and!; [done| | |done].
  - by apply ReplaceAll_clean.
  - by apply ReplaceAll_absent.
Qed.

(** C19: A measurement that the experiment returns was read again, over what the measurer left, from two texts, of the test keys and of
    the rest, in which the address of the probe does not occur; a text that did not contain it is not changed; and the
    address of the probe was set to the default before. *)
Theorem MeasureWithContext_spec ctx_Err e t s w (Hok : session_ok s) :
  sess_ends (MeasureWithContext format_UTC GOARCH build goos no_testkeys Task_Run measurer_Run ctx_Err e t) s w (λ res s' w',
    session_ok s' ∧ learned s s' ∧
    ∀ m, res = Val m → ∃ location measured top, sess_location s' = Some location ∧
      m_ProbeIP measured = DefaultProbeIP ∧
      scrubbed_from (loc_ProbeIP location) (m_TestKeys measured) (m_TestKeys m) ∧
      scrubbed_from (loc_ProbeIP location) (set_TestKeys tt measured) top ∧ set_TestKeys tt m = top).
Proof.
  unfold MeasureWithContext. eapply sess_ends_bind; [by apply MaybeLookupLocationContext_ends|].
  intros [err|] s1 w1 (Hok1 & Hl1 & _ & Hloc); [by apply sess_ends_ret|]. destruct (Hloc eq_refl) as [location Eloc].
  eapply sess_ends_bind; [apply newMeasurement_ends, Hok1|]. intros m0 ? w2 [_ ->].
  eapply (sess_bind_io _ _ _ _ (λ _ _, True)); [by apply ends_Now|]. intros start w3 _.
  eapply sess_ends_bind; [by apply Hrun|]. intros [m1 err] s2 w4 [Hok2 Hl2].
  eapply (sess_bind_io _ _ _ _ (λ _ _, True)); [by apply ends_Now|]. intros stop w5 _.
  destruct err as [err|]; [apply sess_ends_ret; split_and!; [done|by etrans|done]|].
  apply bind_located; [apply Hok2|]. pose proof (le_location _ _ Hl2 _ Eloc) as Eloc2.
  unfold located. rewrite Eloc2. set (m2 := m1 <| m_MeasurementRuntime := _ |>).
  assert (Hip : valid_ip (loc_ProbeIP location)) by (by eapply ok_location).
  apply sess_ends_io. unfold ScrubMeasurement. destruct Hip as [a Ha]. rewrite Ha. cbn [IsNone].
  set (m3 := m2 <| m_ProbeIP := DefaultProbeIP |>).
  destruct (scrub_into_spec (m_TestKeys m3) (loc_ProbeIP location)) as ([tk|err] & Ek & Hk); [by exists a|done| |]; unfold ends, io_lift; rewrite Ek; cbn [mbind outcome_bind].
  2: { eexists _, _. split; [done|]. split_and!; [done|by etrans|done]. }
  destruct (scrub_into_spec (set_TestKeys tt m3) (loc_ProbeIP location)) as ([top|err] & Et & Ht); [by exists a|done| |]; rewrite Et; cbn [mbind outcome_bind].
  2: { eexists _, _. split; [done|]. split_and!; [done|by etrans|done]. }
  eexists _, _. split; [done|]. split_and!; [done|by etrans|]. intros m [= <-]. exists location, m3, top. split_and!; [done|by destruct m2| | |].
  - specialize (Hk tk eq_refl). by destruct top.
  - by apply Ht.
  - by destruct top as [? ? ? ? ? ? ? ? ? ? ? ? ? ? ? ? ? ? ? ? ? []].
Qed.
End experiments.
