(* ===== verification/SessionScenario.v ===== *)
(** * A session and its backends

    A world on which the hypotheses of the theorems of [ProbeServicesFacts.v] and [SessionFacts.v] hold: every
    backend answers [ok], which each decoder reads as a fixed value, and the text of a measurement is its input. *)
From S2P Require Import Prelude Failures GoString GoNet NetErrors LteTestKeys Overlapped GoHTTP.
From S2P Require Import EngineIO ProbeServices ProbeServicesFacts.
From S2P Require Import Geolocate Session SessionFacts.
From Stdlib Require Import Ascii.

(** ** Codecs *)

Inductive document := doc_state (state : State) | doc_flags (flags : checkInFlagsWrapper).

Definition no_json : error := ErrValue "json.SyntaxError" [] "invalid character".

#[local] Instance state_codec : JSON document State := {|
  json_Marshal state := Val (doc_state state);
  json_Unmarshal data := match data with doc_state state => Val (Some state) | _ => Err no_json end |}.
#[local] Instance flags_codec : JSON document checkInFlagsWrapper := {|
  json_Marshal flags := Val (doc_flags flags);
  json_Unmarshal data := match data with doc_flags flags => Val (Some flags) | _ => Err no_json end |}.
#[local] Instance state_laws : JSONLaws document State.
Proof. by intros state data [= <-]. Qed.
#[local] Instance flags_laws : JSONLaws document checkInFlagsWrapper.
Proof. by intros flags data [= <-]. Qed.

(** The answer [ok] stands for one value. *)
Definition fixed_codec {A} (value : A) : JSON string A := {|
  json_Marshal _ := Val "{}";
  json_Unmarshal data := if String.eqb data "ok" then Val (Some value) else Err no_json |}.

#[local] Instance helpers_codec : JSON string (gmap string (list OOAPIService)) := fixed_codec {[ "web-connectivity" := default_services ]}.
#[local] Instance register_request_codec : JSON string OOAPIRegisterRequest :=
  {| json_Marshal r := Val (rr_Password r); json_Unmarshal _ := Err no_json |}.
#[local] Instance register_codec : JSON string OOAPIRegisterResponse := fixed_codec (mkRegisterResponse "client-1").
#[local] Instance credentials_codec : JSON string OOAPILoginCredentials :=
  {| json_Marshal c := Val (lc_Username c); json_Unmarshal _ := Err no_json |}.
#[local] Instance auth_codec : JSON string OOAPILoginAuth := fixed_codec (mkAuth (hours 10) "token-1").
#[local] Instance targets_codec : JSON string (list string) := fixed_codec ["bridge"].
#[local] Instance template_codec : JSON string OOAPIReportTemplate := {| json_Marshal _ := Val "template"; json_Unmarshal _ := Err no_json |}.
#[local] Instance open_codec : JSON string OOAPICollectorOpenResponse :=
  fixed_codec {| or_BackendVersion := "1"; or_ReportID := "report-1"; or_SupportedFormats := ["yaml"; "json"] |}.
#[local] Instance update_request_codec : JSON string (OOAPICollectorUpdateRequest string) :=
  {| json_Marshal r := Val (m_TestKeys (ur_Content r)); json_Unmarshal _ := Err no_json |}.
#[local] Instance update_codec : JSON string OOAPICollectorUpdateResponse := fixed_codec {| ur_MeasurementUID := "uid-1" |}.

#[local] Instance keys_codec : JSONInto string := {| into_Marshal keys := Val keys; into_Unmarshal text _ := Val text |}.
#[local] Instance measurement_codec : JSONInto (Measurement unit) :=
  {| into_Marshal m := Val (m_Input m); into_Unmarshal text m := Val (m <| m_Input := text |>) |}.

(** ** The network *)

Definition probe_ip : string := "93.184.216.34".

#[local] Instance backends_answer : Network unit := λ req _,
  let body := if String.eqb (rq_URL req) "https://www.cloudflare.com/cdn-cgi/trace"
    then "h=www" +:+ String "010" ("ip=" +:+ probe_ip +:+ String "010" "ts=1") else "ok" in
  (mkAnswer None (Val (Overlapped.mkResponse 200 false (mkReader body None))), tt).

Definition gunzip_none (r : reader) : result error reader := Val r.

Abbreviation W := (world (Memory document) unit).

Definition world0 : W := mkWorld (mkMemory None) (λ n, Z.of_nat n) 0 (λ _ _, 0) 0 tt [].

Lemma world0_draws : draws_ok world0.
Proof. intros i n Hn. cbn. lia. Qed.

(** The task of [Geolocate.v], with databases that know one network. *)
Definition locate (userAgent : string) : io (Memory document) unit (Results * option error) :=
  Task_Run gunzip_none (λ _, Err no_json) (λ _, mret (Err no_json)) (λ _, Val (15133, "EDGECAST")) (λ _, Val "US")
    (λ _, mret (Val ["8.8.8.8"])) (seq 0) userAgent.

Lemma locate_ends userAgent (w : W) :
  ends (locate userAgent) w (λ '(location, err) w', kept w w' ∧ (err = None → valid_ip (loc_ProbeIP location))).
Proof.
  apply Task_Run_ends.
  - intros address w'. by apply ends_ret.
  - intros name w'. by apply ends_ret.
  - intros n. apply Forall_seq. lia.
Qed.

Definition session0 : Session := mkSession [] None None 0 None "ooniprobe-cli" "3.24.0" false.

Lemma session0_ok : session_ok session0.
Proof. by constructor. Qed.

(** ** Services, targets, flags *)

Definition is_val {A} (res : result error A) : bool := match res with Val _ => true | Err _ => false end.

Lemma services_spec_witness : unlocked session0 ∧
  ∃ s' (w' : W), MaybeLookupBackendsContext gunzip_none session0 world0 = Ok (None, s', w') ∧
    MaybeLookupBackendsContext gunzip_none s' w' = Ok (None, s', w').
Proof.
  split; [exact eq_refl|]. destruct (services_spec gunzip_none session0 world0 eq_refl) as (err & s' & w' & E & _ & Hagain).
  assert (Hrun : match MaybeLookupBackendsContext gunzip_none session0 world0 with
    Ok (None, s', _) => negb (sess_mu s') | _ => false end = true) by (vm_compute; reflexivity).
  rewrite E in Hrun. destruct err as [err|]; [discriminate|]. exists s', w'. split; [exact E|]. apply Hagain.
  - reflexivity.
  - unfold unlocked. destruct (sess_mu s'); [discriminate|reflexivity].
  - reflexivity.
Defined.

Lemma FetchTorTargets_spec_witness : session_ok session0 ∧ draws_ok world0 ∧
  ∃ targets s' w', sess_FetchTorTargets (Targets := list string) gunzip_none locate 0 None "IT" session0 world0 = Ok (Val targets, s', w') ∧
    account 0 world0 w' ∧ ∃ w1 : W, w_readings w' = S (w_readings w1) ∧ token_ok w1 (state_of 0 (w_store w')).
Proof.
  split; [exact session0_ok|]. split; [exact world0_draws|].
  destruct (FetchTorTargets_spec (Targets := list string) gunzip_none locate 0 locate_ends None "IT" session0 world0 session0_ok world0_draws)
    as (res & s' & w' & E & _ & _ & H).
  assert (Hrun : match sess_FetchTorTargets (Targets := list string) gunzip_none locate 0 None "IT" session0 world0 with
    Ok (res, _, _) => is_val res | _ => false end = true) by (vm_compute; reflexivity).
  rewrite E in Hrun. destruct res as [targets|err]; [|discriminate].
  destruct (H targets eq_refl) as (Ha & _ & _ & w1 & _ & _ & _ & Er & Es & Ht & _). exists targets, s', w'. split; [exact E|].
  split; [exact Ha|]. exists w1. split; [exact Er|]. rewrite <-Es. exact Ht.
Defined.

Definition flags_response : OOAPICheckInResult :=
  {| cr_Features := Some {[ "torsf_enabled" := true ]}; cr_TestHelpers := None; cr_ProbeASN := "AS0"; cr_ProbeCC := "ZZ";
     cr_WebConnectivity := None; cr_UTCTime := 0; cr_V := 1 |}.

Lemma feature_flags_witness : (∃ data : document, json_Marshal (mkFlags (0 + hours 24) (cr_Features flags_response)) = Val data) ∧
  ∃ w' : W, checkincache_Store flags_response world0 = Ok (None, w') ∧
    ends (GetFeatureFlag 0 "torsf_enabled") w' (λ b _, b = true).
Proof.
  assert (Hm : ∃ data : document, json_Marshal (mkFlags (0 + hours 24) (cr_Features flags_response)) = Val data).
  { exists (doc_flags (mkFlags (0 + hours 24) (cr_Features flags_response))). reflexivity. }
  split; [exact Hm|]. destruct (feature_flags (bytes := document) 0 flags_response world0 Hm) as (err & w' & E & H).
  assert (Hrun : match checkincache_Store flags_response world0 with
    Ok (None, w') => w_now w' (w_readings w') =? 1 | _ => false end = true) by (vm_compute; reflexivity).
  rewrite E in Hrun. destruct err as [err|]; [discriminate|]. apply Z.eqb_eq in Hrun. exists w'. split; [exact E|].
  destruct (H eq_refl w' "torsf_enabled" eq_refl) as (b & w'' & Eg & ->). exists true, w''. split; [|reflexivity].
  rewrite Hrun in Eg. exact Eg.
Defined.

(** ** Reports and measurements *)

(** The codec of a map with one entry: reading a text adds to the map that is there. *)
#[local] Instance map_codec : JSONInto (gmap string string) := {|
  into_Marshal m := match map_to_list m with [(key, value)] => Val (key +:+ "=" +:+ value) | _ => Err no_json end;
  into_Unmarshal text m := match Split text "=" with [key; value] => Val (<[key := value]> m) | _ => Err no_json end |}.

(** An address that is the key of a map is still there after scrubbing. *)
Lemma scrub_keeps_keys : ∃ m, scrub_into ({[ probe_ip := "up" ]} : gmap string string) probe_ip = Ok (Val m) ∧
  m !! probe_ip = Some "up" ∧ m !! Scrubbed = Some "up".
Proof. eexists. split; [vm_compute; reflexivity|]. split; vm_compute; reflexivity. Qed.

Definition client0 : Client := mkClient "https://api.ooni.io" "" "ooniprobe-cli/3.24.0".

Definition measurement0 : Measurement string :=
  mkMeasurement string None "0.2.0" None "" "https://example.com/" [] "" 0 [] "AS15133" "US" "" "127.0.0.1" "" "" "" "" ""
    "ooniprobe-cli" "3.24.0" None "keys" "web_connectivity" 0 "" "0.5.28".

Lemma Submit_spec_witness : channel_ok gunzip_none (w_log world0) None ∧
  ∃ r m' w', Submit gunzip_none client0 None measurement0 world0 = Ok (Some r, m', None, w') ∧ m' = measurement0 <| m_ReportID := rc_ID r |>.
Proof.
  assert (Hch : channel_ok gunzip_none (w_log world0) None) by (intros r Hr; discriminate Hr).
  split; [exact Hch|]. destruct (Submit_spec gunzip_none client0 None measurement0 world0 Hch) as ([[channel' m'] err] & w' & E & H).
  assert (Hrun : match Submit gunzip_none client0 None measurement0 world0 with
    Ok (_, _, None, _) => true | _ => false end = true) by (vm_compute; reflexivity).
  rewrite E in Hrun. destruct err as [err|]; [discriminate|].
  destruct H as (log & _ & _ & r & before & ex & -> & _ & Hm & _). exists r, m', w'. split; [exact E|exact Hm].
Defined.

Definition experiment0 : experiment := mkExperiment None "web_connectivity" "2024-06-06 00:00:00" "0.5.28".
Definition target0 : target := mkTarget [] ("https://example.com/?from=" +:+ probe_ip).

Abbreviation new_measurement0 := (newMeasurement (TK := string) (λ _, "2024-06-06 00:00:00") "amd64" (λ _, "") "linux" "").

Lemma OpenReportContext_spec_witness : session_ok session0 ∧ exp_report experiment0 = None ∧
  ∃ e' s' w' report, OpenReportContext gunzip_none locate None experiment0 session0 world0 = Ok (e', None, s', w') ∧
    exp_report e' = Some report ∧ sess_ends (new_measurement0 e' target0) s' w' (λ m _ _, CanSubmit report m = true ∧ m_ReportID m = rc_ID report).
Proof.
  split; [exact session0_ok|]. split; [reflexivity|].
  destruct (OpenReportContext_spec gunzip_none locate locate_ends (λ _, "2024-06-06 00:00:00") "amd64" (λ _, "") "linux" ""
    None experiment0 session0 world0 session0_ok eq_refl) as ([e' err] & s' & w' & E & [Hu _ _] & _ & H).
  assert (Hrun : match OpenReportContext gunzip_none locate None experiment0 session0 world0 with
    Ok (_, None, _, _) => true | _ => false end = true) by (vm_compute; reflexivity).
  rewrite E in Hrun. destruct err as [err|]; [discriminate|]. destruct H as (report & ex & -> & _ & _ & Hnew).
  exists (experiment0 <| exp_report := Some report |>), s', w', report. split; [exact E|]. split; [reflexivity|].
  apply Hnew; [exact Hu|reflexivity].
Defined.

(** A measurer that writes the address of the probe. *)
Definition measurer0 (m : Measurement string) : sess (Memory document) unit (Measurement string * option error) :=
  mret (m <| m_TestKeys := "my address is " +:+ probe_ip |>, None).

Lemma measurer0_ends m (s : Session) (w : W) :
  session_ok s → sess_ends (measurer0 m) s w (λ _ s' w', session_ok s' ∧ learned s s').
Proof. intros Hs. apply sess_ends_ret. split; [exact Hs|reflexivity]. Qed.

Abbreviation measure0 := (MeasureWithContext (λ _, "2024-06-06 00:00:00") "amd64" (λ _, "") "linux" "" locate measurer0 None experiment0 target0).

Lemma keys_marshal (keys : string) : ∃ data, into_Marshal keys = Val data.
Proof. by exists keys. Qed.
Lemma measurement_marshal (m : Measurement unit) : ∃ data, into_Marshal m = Val data.
Proof. by exists (m_Input m). Qed.

Lemma MeasureWithContext_spec_witness : session_ok session0 ∧
  ∃ m s' w' location, measure0 session0 world0 = Ok (Val m, s', w') ∧ sess_location s' = Some location ∧
    m_TestKeys m = "my address is [scrubbed]" ∧ occurs (loc_ProbeIP location) (m_TestKeys m) = false.
Proof.
  split; [exact session0_ok|].
  destruct (MeasureWithContext_spec locate locate_ends (λ _, "2024-06-06 00:00:00") "amd64" (λ _, "") "linux" "" measurer0 measurer0_ends
    keys_marshal measurement_marshal None experiment0 target0 session0 world0 session0_ok)
    as (res & s' & w' & E & _ & _ & H).
  assert (Hrun : match measure0 session0 world0 with
    Ok (Val m, _, _) => String.eqb (m_TestKeys m) "my address is [scrubbed]" | _ => false end = true) by (vm_compute; reflexivity).
  rewrite E in Hrun. destruct res as [m|err]; [|discriminate]. apply String.eqb_eq in Hrun.
  destruct (H m eq_refl) as (location & measured & top & El & _ & (data & text & _ & Ho & _ & Eu) & _).
  exists m, s', w', location. split; [exact E|]. split; [exact El|]. split; [exact Hrun|].
  injection Eu as <-. exact Ho.
Defined.
