(* ===== verification/Registry.v ===== *)
(** * The registry of the experiments

    [pkg/registry], [pkg/experimentname], [pkg/experimentconfig] and [pkg/reflectx]: the canonical name of an experiment, its
    factory and whether it may run, and the options of its configuration.  What [reflect] says of a struct is
    the list of its fields; a configuration is a pointer to a struct. *)
From S2P Require Import Prelude GoFloat GoString GoURL NetErrors GoHTTP EngineIO ProbeServices.
From Stdlib Require Import Ascii SpecFloat.

(** ** [strings.TrimSpace] *)

(** The white space of Unicode in UTF-8. *)
Definition space_runes : list string :=
  map (λ n, String (ascii_of_N n) "") [9; 10; 11; 12; 13; 32]%N ++
  map (λ '(a, b), String (ascii_of_N a) (String (ascii_of_N b) "")) [(194, 133); (194, 160)]%N ++
  map (λ '(a, b, c), String (ascii_of_N a) (String (ascii_of_N b) (String (ascii_of_N c) "")))
    ([(225, 154, 128); (226, 128, 168); (226, 128, 169); (226, 128, 175); (226, 129, 159); (227, 128, 128)] ++
     map (λ c, (226, 128, c)) [128; 129; 130; 131; 132; 133; 134; 135; 136; 137; 138])%N.

Fixpoint TrimLeftSpace (fuel : nat) (s : string) : string :=
  match fuel with
  | O => s
  | S fuel =>
      match find (λ r, HasPrefix s r) space_runes with
      | Some r => TrimLeftSpace fuel (TrimPrefix s r)
      | None => s
      end
  end.
Fixpoint TrimRightSpace (fuel : nat) (s : string) : string :=
  match fuel with
  | O => s
  | S fuel =>
      match find (λ r, HasSuffix s r) space_runes with
      | Some r => TrimRightSpace fuel (string_take (String.length s - String.length r) s)
      | None => s
      end
  end.
(** Each turn removes a byte at least. *)
Definition TrimSpace (s : string) : string :=
  let s := TrimLeftSpace (String.length s) s in TrimRightSpace (String.length s) s.

(** ** Names ([strcasex], [experimentname]) *)

Definition is_upper (c : ascii) : bool := let n := N_of_ascii c in ((65 <=? n) && (n <=? 90))%N.
Definition is_lower (c : ascii) : bool := let n := N_of_ascii c in ((97 <=? n) && (n <=? 122))%N.

(** The loop of [ToScreamingDelimited], with nothing to ignore and without screaming; [prev] is the byte before. *)
Fixpoint ToDelimited (prev : option ascii) (s : string) (delimiter : ascii) : string :=
  match s with
  | "" => ""
  | String c rest =>
      let vIsCap := is_upper c in
      let vIsLow := is_lower c in
      let v := if vIsCap then ascii_lower c else c in
      let vIsNum := is_digit v in
      let plain := String (if one_of v " _-." then delimiter else v) (ToDelimited (Some c) rest delimiter) in
      match rest with
      | "" => plain
      | String next _ =>
          let nextIsCap := is_upper next in
          let nextIsLow := is_lower next in
          let nextIsNum := is_digit next in
          if (vIsCap && (nextIsLow || nextIsNum)) || (vIsLow && (nextIsCap || nextIsNum)) || (vIsNum && (nextIsCap || nextIsLow)) then
            let prevIsCap := match prev with Some p => is_upper p | None => false end in
            (if vIsCap && nextIsLow && prevIsCap then String delimiter "" else "") +:+
            String v (if vIsLow || vIsNum || nextIsNum then String delimiter "" else "") +:+
            ToDelimited (Some c) rest delimiter
          else plain
      end
  end.
Definition ToSnake (s : string) : string := ToDelimited None (TrimSpace s) "_".

Definition Canonicalize (name : string) : string :=
  let name := ToSnake name in
  if String.eqb name "ndt_7" then "ndt"
  else if String.eqb name "dns_check" then "dnscheck"
  else if String.eqb name "stun_reachability" then "stunreachability"
  else if String.eqb name "web_connectivity@v_0_5" then "web_connectivity@v0.5"
  else name.

(** ** Structs under reflection *)

(** A field that holds a bool, an [int64] or a string; another scalar, with its text and whether it is zero; anything else. *)
Inductive field_value :=
  | FBool (b : bool)
  | FInt64 (z : Z)
  | FString (s : string)
  | FScalar (text : string) (zero : bool)
  | FOther (zero : bool).

(** A field of an embedded struct is [promoted]: it can be found by its name. *)
Record field := mkField {
  fd_Name : string;
  fd_Type : string;
  fd_doc : string;
  fd_promoted : bool;
  fd_Value : field_value;
}.

Definition IsExported (f : field) : bool := match fd_Name f with String c _ => is_upper c | "" => false end.

Inductive config :=
  | StructPtr (fields : list field)
  | NotStructPtr (type : string).

Definition IsZero (v : field_value) : bool :=
  match v with
  | FBool b => negb b
  | FInt64 z => z =? 0
  | FString s => String.eqb s ""
  | FScalar _ zero | FOther zero => zero
  end.

(** [reflectx.StructOrStructPtrIsZero] *)
Definition StructOrStructPtrIsZero (c : config) : outcome bool :=
  match c with
  | NotStructPtr _ => Panic "not a struct"
  | StructPtr fields => Ok (forallb (λ f, fd_promoted f || negb (IsExported f) || IsZero (fd_Value f)) fields)
  end.

(** [Duration.String]. *)

(** The [prec] digits of a fraction without the zeros at its end. *)
Fixpoint frac_digits (prec : nat) (r : Z) : string :=
  match prec with
  | O => ""
  | S prec => if r =? 0 then "" else String (digit_char (r / 10 ^ Z.of_nat prec)) (frac_digits prec (r mod 10 ^ Z.of_nat prec))
  end.
Definition fmtFrac (prec : nat) (u : Z) : string :=
  let r := u mod 10 ^ Z.of_nat prec in if r =? 0 then "" else "." +:+ frac_digits prec r.
Definition Duration_String (d : Z) : string :=
  let u := Z.abs d in
  let sign := if d <? 0 then "-" else "" in
  let decimal prec unit := Itoa (u / 10 ^ Z.of_nat prec) +:+ fmtFrac prec u +:+ unit in
  if u =? 0 then "0s"
  else sign +:+
    if u <? 1000 then decimal 0%nat "ns"
    else if u <? 1000000 then decimal 3%nat (String (ascii_of_N 194) (String (ascii_of_N 181) "s"))
    else if u <? 1000000000 then decimal 6%nat "ms"
    else
      let seconds := u / 1000000000 in
      let s := Itoa (seconds mod 60) +:+ fmtFrac 9 u +:+ "s" in
      if seconds <? 60 then s
      else if seconds <? 3600 then Itoa (seconds / 60) +:+ "m" +:+ s
      else Itoa (seconds / 3600) +:+ "h" +:+ Itoa (seconds / 60 mod 60) +:+ "m" +:+ s.

(** [fmt.Sprintf("%v", value)] of a scalar. *)
Definition scalar_text (f : field) : option string :=
  match fd_Value f with
  | FBool b => Some (format_bool b)
  | FInt64 z => Some (if String.eqb (fd_Type f) "time.Duration" then Duration_String z else Itoa z)
  | FString s => Some s
  | FScalar text _ => Some text
  | FOther _ => None
  end.

(** [experimentconfig.DefaultOptionsSerializer] *)
Definition DefaultOptionsSerializer (c : config) : list string :=
  match c with
  | NotStructPtr _ => []
  | StructPtr fields =>
      omap (λ f,
        if fd_promoted f || negb (IsExported f) || HasPrefix (fd_Name f) "Safe" then None
        else match scalar_text f with
             | Some text => if IsZero (fd_Value f) then None else Some (fd_Name f +:+ "=" +:+ text)
             | None => None
             end) fields
  end.

(** ** Options ([factory.go]) *)

(** A value of type [any]: the five signed integer types, a float, or a value of a type that is not looked at. *)
Inductive any :=
  | AnyBool (b : bool)
  | AnyString (s : string)
  | AnyInt (z : Z)
  | AnyFloat64 (f : float64)
  | AnyOther (type : string).

Definition ErrConfigIsNotAStructPointer : error := ErrValue "ErrConfigIsNotAStructPointer" [] "config is not a struct pointer".
Definition ErrNoSuchField : error := ErrValue "ErrNoSuchField" [] "no such field".
Definition ErrCannotSetIntegerOption : error := ErrValue "ErrCannotSetIntegerOption" [] "cannot set integer option".
Definition ErrInvalidStringRepresentationOfBool : error :=
  ErrValue "ErrInvalidStringRepresentationOfBool" [] "invalid string representation of bool".
Definition ErrCannotSetBoolOption : error := ErrValue "ErrCannotSetBoolOption" [] "cannot set bool option".
Definition ErrCannotSetStringOption : error := ErrValue "ErrCannotSetStringOption" [] "cannot set string option".
Definition ErrUnsupportedOptionType : error := ErrValue "ErrUnsupportedOptionType" [] "unsupported option type".

(** [fmt.Errorf("%w...", err)]: the text behind the error is that of a value or of its type. *)
Definition wrapped (err : error) (text : string) : error := ErrAround (Error err +:+ text) err.

Record ExperimentOptionInfo := mkOptionInfo { oi_Doc : string; oi_Type : string; oi_Value : field_value }.

Definition Options (c : config) : result error (gmap string ExperimentOptionInfo) :=
  match c with
  | NotStructPtr _ => Err ErrConfigIsNotAStructPointer
  | StructPtr fields =>
      Val (foldl (λ result f,
        if fd_promoted f || negb (IsExported f) || String.eqb (fd_doc f) "" then result
        else <[fd_Name f := mkOptionInfo (fd_doc f) (fd_Type f) (fd_Value f)]> result) ∅ fields)
  end.

Section options.
(** The text of a value, which only appears in errors. *)
Context (text_of : any → string).

Definition setOptionBool (value : any) : result error field_value :=
  match value with
  | AnyBool v => Val (FBool v)
  | AnyString v =>
      if negb (String.eqb v "true") && negb (String.eqb v "false")
      then Err (wrapped ErrInvalidStringRepresentationOfBool (": " +:+ v))
      else Val (FBool (String.eqb v "true"))
  | _ => Err (wrapped ErrCannotSetBoolOption (text_of value))
  end.

Definition jsonMaxInteger : Z := 2 ^ 53 - 1.
Definition jsonMinInteger : Z := - 2 ^ 53 + 1.

(** [int64(v)] of a number without fraction; [None] when [math.Trunc(v) != v], for a NaN and for an infinity. *)
Definition float64_integer (v : float64) : option Z :=
  match v with
  | S754_zero _ => Some 0
  | S754_finite s m e =>
      let sign := if s then -1 else 1 in
      if 0 <=? e then Some (sign * Zpos m * 2 ^ e)
      else if Zpos m mod 2 ^ (- e) =? 0 then Some (sign * (Zpos m / 2 ^ (- e))) else None
  | S754_infinity _ | S754_nan => None
  end.

Definition setOptionInt (value : any) : result error field_value :=
  match value with
  | AnyInt v => Val (FInt64 v)
  | AnyString v =>
      match ParseInt64 v with
      | None => Err (wrapped ErrCannotSetIntegerOption (text_of value))
      | Some number => Val (FInt64 number)
      end
  | AnyFloat64 v =>
      match float64_integer v with
      | None => Err (wrapped ErrCannotSetIntegerOption (text_of value))
      | Some z =>
          if (jsonMaxInteger <? z) || (z <? jsonMinInteger) then Err (wrapped ErrCannotSetIntegerOption (text_of value))
          else Val (FInt64 z)
      end
  | _ => Err (wrapped ErrCannotSetIntegerOption (text_of value))
  end.

Definition setOptionString (value : any) : result error field_value :=
  match value with
  | AnyString v => Val (FString v)
  | _ => Err (wrapped ErrCannotSetStringOption (text_of value))
  end.

(** [FieldByName]: a field of the struct itself comes before the promoted ones. *)
Definition FieldByName (fields : list field) (key : string) : option nat :=
  match list_find (λ f, fd_Name f = key ∧ fd_promoted f = false) fields with
  | Some (i, _) => Some i
  | None => fst <$> list_find (λ f, fd_Name f = key ∧ fd_promoted f = true) fields
  end.

Definition fieldbyname (c : config) (key : string) : result error (list field * nat * field) :=
  match c with
  | NotStructPtr type => Err (wrapped ErrConfigIsNotAStructPointer (" but a " +:+ type))
  | StructPtr fields =>
      match FieldByName fields key with
      | None => Err (wrapped ErrNoSuchField (": " +:+ key))
      | Some i =>
          match fields !! i with
          | Some f => if IsExported f then Val (fields, i, f) else Err (wrapped ErrNoSuchField (": " +:+ key))
          | None => Err (wrapped ErrNoSuchField (": " +:+ key))
          end
      end
  end.

(** The switch on the kind of the field. *)
Definition convert_option (f : field) (value : any) : result error field_value :=
  match fd_Value f with
  | FInt64 _ => setOptionInt value
  | FBool _ => setOptionBool value
  | FString _ => setOptionString value
  | FScalar _ _ | FOther _ => Err (wrapped ErrUnsupportedOptionType (text_of value))
  end.

Definition SetOptionAny (c : config) (key : string) (value : any) : config * option error :=
  match fieldbyname c key with
  | Err err => (c, Some err)
  | Val (fields, i, f) =>
      match convert_option f value with
      | Err err => (c, Some err)
      | Val v => (StructPtr (<[i := f <| fd_Value := v |>]> fields), None)
      end
  end.

(** The loop over the options stops at the first error. *)
Fixpoint set_options (c : config) (l : list (string * any)) : config * option error :=
  match l with
  | [] => (c, None)
  | (key, value) :: l =>
      let '(c, err) := SetOptionAny c key value in
      match err with Some err => (c, Some err) | None => set_options c l end
  end.
Definition SetOptionsAny `{RangeOrder} (c : config) (options : gmap string any) : config * option error :=
  set_options c (range_map 0 options).
End options.

(** *** The options of the command line ([cmd/miniooni/utils.go]) *)

Definition splitPair (s : string) : result error (string * string) :=
  match IndexByte s "=" with
  | None => Err (ErrValue "" [] "invalid key-value pair")
  | Some i => Val (string_take i s, string_drop (S i) s)
  end.

Definition must_add {A} (value_of : string → A) (output : gmap string A) (opt : string) : outcome (gmap string A) :=
  match splitPair opt with
  | Err _ => Panic "cannot split key-value pair"
  | Val (key, value) => Ok (<[key := value_of value]> output)
  end.
Definition mustMakeMap {A} (value_of : string → A) (input : list string) : outcome (gmap string A) :=
  foldl (λ output opt, output ← output; must_add value_of output opt) (Ok ∅) input.
Definition mustMakeMapStringString : list string → outcome (gmap string string) := mustMakeMap id.
Definition mustMakeMapStringAny : list string → outcome (gmap string any) := mustMakeMap AnyString.

(** [json_Unmarshal] decodes into the fields of the configuration. *)
Definition SetOptionsJSON (json_Unmarshal : string → config → result error config) (c : config) (value : string) : config * option error :=
  if (String.length value <=? 0)%nat then (c, None)
  else match json_Unmarshal value c with Err err => (c, Some err) | Val c => (c, None) end.

(** ** Configurations *)

Definition option_field (name type doc : string) (zero : field_value) : field := mkField name type doc false zero.
Abbreviation string_option name doc := (option_field name "string" doc (FString "")).
Abbreviation bool_option name doc := (option_field name "bool" doc (FBool false)).
Abbreviation int64_option name doc := (option_field name "int64" doc (FInt64 0)).

Definition dash_Config : list field := [].

Definition dnscheck_Config : list field := [
  string_option "DefaultAddrs" "default addresses for domain";
  string_option "Domain" "domain to resolve using the specified resolver";
  bool_option "HTTP3Enabled" "use http3 instead of http/1.1 or http2";
  string_option "HTTPHost" "force using specific HTTP Host header";
  string_option "TLSServerName" "force TLS to using a specific SNI in Client Hello";
  string_option "TLSVersion" "Force specific TLS version (e.g. 'TLSv1.3')"].

Definition dnsping_Config : list field := [
  int64_option "Delay" "number of milliseconds to wait before sending each ping";
  string_option "Domains" "space-separated list of domains to measure";
  int64_option "Repetitions" "number of times to repeat the measurement"].

Definition simple_sni_Config : list field := [
  string_option "ControlSNI" "";
  string_option "TestHelperAddress" ""].

Definition echcheck_Config : list field := [
  string_option "ResolverURL" "URL for DoH resolver"].

Definition example_Config : list field := [
  string_option "Message" "Message to emit at test completion";
  bool_option "ReturnError" "Toogle to return a mocked error";
  int64_option "SleepTime" "Amount of time to sleep for in nanosecond"].

Definition facebook_messenger_Config : list field := [].

Definition http_header_field_manipulation_Config : list field := [].

Definition http_invalid_request_line_Config : list field := [].

Definition http_host_header_Config : list field := [
  string_option "TestHelperURL" ""].

Definition ndt_Config : list field := [
  bool_option "noDownload" "";
  bool_option "noUpload" ""].

Definition openvpn_Config : list field := [
  string_option "Auth" "OpenVPN authentication to use";
  string_option "Cipher" "OpenVPN cipher to use";
  string_option "Compress" "OpenVPN compression to use";
  string_option "Provider" "VPN provider";
  string_option "Obfuscation" "Obfuscation to use (obfs4, none)";
  string_option "SafeKey" "key to connect to the OpenVPN endpoint";
  string_option "SafeCert" "cert to connect to the OpenVPN endpoint";
  string_option "SafeCA" "ca to connect to the OpenVPN endpoint"].

Definition portfiltering_Config : list field := [
  int64_option "Delay" "number of milliseconds to wait before testing each port"].

Definition psiphon_Config : list field := [].

Definition quicping_Config : list field := [
  int64_option "Repetitions" "number of times to repeat the measurement";
  int64_option "Port" "port is the port to test";
  option_field "netListenUDP" "func(network string, laddr *net.UDPAddr) (model.UDPLikeConn, error)" "" (FOther true)].

Definition signal_Config : list field := [
  string_option "SignalCA" ""].

Definition simplequicping_Config : list field := [
  string_option "ALPN" "space separated list of ALPNs to use";
  int64_option "Delay" "number of milliseconds to wait before sending each ping";
  int64_option "Repetitions" "number of times to repeat the measurement";
  string_option "SNI" "the SNI value to use"].

Definition sni_blocking_Config : list field := [
  string_option "ControlSNI" "";
  string_option "TestHelperAddress" ""].

Definition stunreachability_Config : list field := [
  option_field "dialContext" "func(ctx context.Context, network, address string) (net.Conn, error)" "" (FOther true);
  option_field "newClient" "func(conn stun.Connection, options ...stun.ClientOption) (*stun.Client, error)" "" (FOther true)].

Definition tcpping_Config : list field := [
  int64_option "Delay" "number of milliseconds to wait before sending each ping";
  int64_option "Repetitions" "number of times to repeat the measurement"].

Definition telegram_Config : list field := [].

Definition tlsmiddlebox_Config : list field := [
  string_option "ResolverURL" "URL for DoH resolver";
  string_option "SNIControl" "control SNI value for testhelper";
  int64_option "Delay" "delay between consecutive iterations";
  int64_option "MaxTTL" "maximum TTL value to iterate upto";
  string_option "TestHelper" "testhelper URL to use for tracing";
  option_field "ClientId" "int" "ClientHello fingerprint to use" (FScalar "0" true)].

Definition tlsping_Config : list field := [
  string_option "ALPN" "space separated list of ALPNs to use";
  int64_option "Delay" "number of milliseconds to wait before sending each ping";
  int64_option "Repetitions" "number of times to repeat the measurement";
  string_option "SNI" "the SNI value to use"].

Definition tlstool_Config : list field := [
  int64_option "Delay" "Milliseconds to wait between writes";
  string_option "SNI" "Force using the specified SNI"].

Definition tor_Config : list field := [].

Definition torsf_Config : list field := [
  bool_option "DisablePersistentDatadir" "Disable using a persistent tor datadir";
  bool_option "DisableProgress" "Disable printing progress messages";
  string_option "RendezvousMethod" "Choose the method with which to rendezvous. Must be one of amp and domain_fronting. Leaving this field empty means we should use the default."].

Definition urlgetter_Config : list field := [
  option_field "CertPool" "*x509.CertPool" "" (FOther true);
  option_field "Timeout" "time.Duration" "" (FInt64 0);
  string_option "DNSCache" "Add 'DOMAIN IP...' to cache";
  string_option "DNSHTTPHost" "Force using specific HTTP Host header for DNS requests";
  string_option "DNSTLSServerName" "Force TLS to using a specific SNI for encrypted DNS requests";
  string_option "DNSTLSVersion" "Force specific TLS version used for DoT/DoH (e.g. 'TLSv1.3')";
  bool_option "FailOnHTTPError" "Fail HTTP request if status code is 400 or above";
  bool_option "HTTP3Enabled" "use http3 instead of http/1.1 or http2";
  string_option "HTTPHost" "Force using specific HTTP Host header";
  string_option "Method" "Force HTTP method different than GET";
  bool_option "NoFollowRedirects" "Disable following redirects";
  bool_option "NoTLSVerify" "Disable TLS verification";
  bool_option "RejectDNSBogons" "Fail DNS lookup if response contains bogons";
  string_option "ResolverURL" "URL describing the resolver to use";
  string_option "TLSServerName" "Force TLS to using a specific SNI in Client Hello";
  string_option "TLSVersion" "Force specific TLS version (e.g. 'TLSv1.3')";
  string_option "Tunnel" "Run experiment over a tunnel, e.g. psiphon";
  string_option "UserAgent" "Use the specified User-Agent"].

Definition vanilla_tor_Config : list field := [
  bool_option "DisableProgress" "Disable printing progress messages"].

Definition web_connectivity_Config : list field := [].

Definition web_connectivity_v0_5_Config : list field := [
  string_option "DNSOverUDPResolver" ""].

Definition whatsapp_Config : list field := [].

Definition riseupvpn_Config : list field :=
  option_field "Config" "urlgetter.Config" "" (FOther true) :: map (λ f, f <| fd_promoted := true |>) urlgetter_Config.

(** ** Factories *)

(** [model.InputPolicy] *)
Inductive InputPolicy := InputOrQueryBackend | InputStrictlyRequired | InputOptional | InputNone | InputOrStaticDefault.

(** [newLoader]: the loader of the package of the experiment. *)
Inductive loader_kind := default_loader | dnscheck_loader | openvpn_loader.

(** [build] makes a measurer of the package of the experiment from the configuration. *)
Record Factory := mkFactory {
  fac_canonicalName : string;
  fac_config : config;
  fac_enabledByDefault : bool;
  fac_inputPolicy : InputPolicy;
  fac_interruptible : bool;
  fac_newLoader : loader_kind;
}.

Definition dash_factory : Factory :=
  mkFactory "dash" (StructPtr dash_Config) true InputNone true default_loader.
Definition dnscheck_factory : Factory :=
  mkFactory "dnscheck" (StructPtr dnscheck_Config) true InputOrStaticDefault false dnscheck_loader.
Definition dnsping_factory : Factory :=
  mkFactory "dnsping" (StructPtr dnsping_Config) true InputOrStaticDefault false default_loader.
Definition simple_sni_factory : Factory :=
  mkFactory "simple_sni" (StructPtr simple_sni_Config) false InputOrQueryBackend false default_loader.
Definition echcheck_factory : Factory :=
  mkFactory "echcheck" (StructPtr echcheck_Config) true InputOptional false default_loader.
Definition example_factory : Factory :=
  mkFactory "example" (StructPtr example_Config) true InputNone true default_loader.
Definition facebook_messenger_factory : Factory :=
  mkFactory "facebook_messenger" (StructPtr facebook_messenger_Config) true InputNone false default_loader.
Definition http_header_field_manipulation_factory : Factory :=
  mkFactory "http_header_field_manipulation" (StructPtr http_header_field_manipulation_Config) true InputNone false default_loader.
Definition http_invalid_request_line_factory : Factory :=
  mkFactory "http_invalid_request_line" (StructPtr http_invalid_request_line_Config) true InputNone false default_loader.
Definition http_host_header_factory : Factory :=
  mkFactory "http_host_header" (StructPtr http_host_header_Config) true InputOrQueryBackend false default_loader.
Definition ndt_factory : Factory :=
  mkFactory "ndt" (StructPtr ndt_Config) true InputNone true default_loader.
Definition openvpn_factory : Factory :=
  mkFactory "openvpn" (StructPtr openvpn_Config) true InputOrQueryBackend true openvpn_loader.
Definition portfiltering_factory : Factory :=
  mkFactory "portfiltering" (StructPtr portfiltering_Config) true InputNone false default_loader.
Definition psiphon_factory : Factory :=
  mkFactory "psiphon" (StructPtr psiphon_Config) true InputOptional false default_loader.
Definition quicping_factory : Factory :=
  mkFactory "quicping" (StructPtr quicping_Config) true InputStrictlyRequired false default_loader.
Definition riseupvpn_factory : Factory :=
  mkFactory "riseupvpn" (StructPtr riseupvpn_Config) false InputNone false default_loader.
Definition signal_factory : Factory :=
  mkFactory "signal" (StructPtr signal_Config) true InputNone false default_loader.
Definition simplequicping_factory : Factory :=
  mkFactory "simplequicping" (StructPtr simplequicping_Config) true InputStrictlyRequired false default_loader.
Definition sni_blocking_factory : Factory :=
  mkFactory "sni_blocking" (StructPtr sni_blocking_Config) true InputOrQueryBackend false default_loader.
Definition stunreachability_factory : Factory :=
  mkFactory "stunreachability" (StructPtr stunreachability_Config) true InputOrStaticDefault false default_loader.
Definition tcpping_factory : Factory :=
  mkFactory "tcpping" (StructPtr tcpping_Config) true InputStrictlyRequired false default_loader.
Definition telegram_factory : Factory :=
  mkFactory "telegram" (StructPtr telegram_Config) true InputNone false default_loader.
Definition tlsmiddlebox_factory : Factory :=
  mkFactory "tlsmiddlebox" (StructPtr tlsmiddlebox_Config) true InputStrictlyRequired false default_loader.
Definition tlsping_factory : Factory :=
  mkFactory "tlsping" (StructPtr tlsping_Config) true InputStrictlyRequired false default_loader.
Definition tlstool_factory : Factory :=
  mkFactory "tlstool" (StructPtr tlstool_Config) true InputOrQueryBackend false default_loader.
Definition tor_factory : Factory :=
  mkFactory "tor" (StructPtr tor_Config) true InputNone false default_loader.
Definition torsf_factory : Factory :=
  mkFactory "torsf" (StructPtr torsf_Config) false InputNone false default_loader.
Definition urlgetter_factory : Factory :=
  mkFactory "urlgetter" (StructPtr urlgetter_Config) true InputStrictlyRequired false default_loader.
Definition vanilla_tor_factory : Factory :=
  mkFactory "vanilla_tor" (StructPtr vanilla_tor_Config) false InputNone false default_loader.
Definition web_connectivity_factory : Factory :=
  mkFactory "web_connectivity" (StructPtr web_connectivity_Config) true InputOrQueryBackend false default_loader.
Definition web_connectivity_v0_5_factory : Factory :=
  mkFactory "web_connectivity@v0.5" (StructPtr web_connectivity_v0_5_Config) true InputOrQueryBackend false default_loader.
Definition whatsapp_factory : Factory :=
  mkFactory "whatsapp" (StructPtr whatsapp_Config) true InputNone false default_loader.

Definition all_factories : list Factory := [
  dash_factory; dnscheck_factory; dnsping_factory; simple_sni_factory;
  echcheck_factory; example_factory; facebook_messenger_factory; http_header_field_manipulation_factory;
  http_invalid_request_line_factory; http_host_header_factory; ndt_factory; openvpn_factory;
  portfiltering_factory; psiphon_factory; quicping_factory; riseupvpn_factory;
  signal_factory; simplequicping_factory; sni_blocking_factory; stunreachability_factory;
  tcpping_factory; telegram_factory; tlsmiddlebox_factory; tlsping_factory;
  tlstool_factory; tor_factory; torsf_factory; urlgetter_factory;
  vanilla_tor_factory; web_connectivity_factory; web_connectivity_v0_5_factory; whatsapp_factory].

(** [AllExperiments]: the factories that the files of the package register. *)
Definition AllExperiments : gmap string Factory := list_to_map (map (λ f, (fac_canonicalName f, f)) all_factories).

(** ** [NewFactory] *)

Definition ErrNoSuchExperiment : error := ErrValue "ErrNoSuchExperiment" [] "no such experiment".
Definition ErrRequiresForceEnable : error := ErrValue "ErrRequiresForceEnable" [] "experiment not enabled by check-in API".
Definition OONI_FORCE_ENABLE_EXPERIMENT : string := "OONI_FORCE_ENABLE_EXPERIMENT".

Section factory.
Context {Store bytes Net : Type} `{KeyValueStore Store bytes} `{JSON bytes checkInFlagsWrapper} (time_zero_Time : Time).
(** The environment. *)
Context (Getenv : string → string).

Definition NewFactory (name : string) : io Store Net (result error Factory) :=
  let name := Canonicalize name in
  use_lte ← (if String.eqb name "web_connectivity" then GetFeatureFlag time_zero_Time "webconnectivity_0.5" else mret false);
  let name := if use_lte : bool then "web_connectivity@v0.5" else name in
  match AllExperiments !! name with
  | None => mret (Err (ErrAround (Error ErrNoSuchExperiment +:+ ": " +:+ name) ErrNoSuchExperiment))
  | Some factory =>
      if fac_enabledByDefault factory then mret (Val factory)
      else if String.eqb (Getenv OONI_FORCE_ENABLE_EXPERIMENT) "1" then mret (Val factory)
      else
        enabled ← ExperimentEnabled time_zero_Time name;
        if enabled : bool then mret (Val factory)
        else mret (Err (ErrAround (name +:+ ": " +:+ Error ErrRequiresForceEnable) ErrRequiresForceEnable))
  end.
End factory.
