(* ===== verification/RegistryFacts.v ===== *)
(** * What the registry and the options guarantee

    The factories have canonical names; options are set whatever the order of the map in which they come, and the options
    that a measurement records can be set again; an experiment that is off by default runs when it is forced or when a
    fresh check-in says so. *)
From S2P Require Import Prelude GoFloat GoString GoURL NetErrors GoHTTP EngineIO ProbeServices.
From S2P Require Import ProbeServicesFacts Registry.
From Stdlib Require Import Ascii SpecFloat.

(** Every name under which a factory is registered is canonical, and no two are the same. *)
Lemma registered_names_canonical :
  Forall (λ f, Canonicalize (fac_canonicalName f) = fac_canonicalName f) all_factories ∧ NoDup (map fac_canonicalName all_factories).
Proof. split; [repeat constructor|]. apply (bool_decide_unpack _). vm_compute. exact I. Qed.

Lemma registered name f : AllExperiments !! name = Some f → fac_canonicalName f = name ∧ f ∈ all_factories.
Proof.
  unfold AllExperiments. intros H. apply elem_of_list_to_map_2 in H. apply list_elem_of_fmap in H as (f' & [= -> ->] & Hf). done.
Qed.

(** *** Options *)

Section options.
Context (text_of : any → string).

Definition named (fields : list field) : Prop := NoDup (map fd_Name fields).

Lemma FieldByName_named fields i f :
  named fields → fields !! i = Some f → FieldByName fields (fd_Name f) = Some i.
Proof.
  intros Hn Hf. unfold FieldByName. assert (Huniq : ∀ j g, fields !! j = Some g → fd_Name g = fd_Name f → j = i).
  { intros j g Hg E. eapply NoDup_lookup; [exact Hn|apply list_lookup_fmap_Some; eauto..]. }
  destruct (list_find _ fields) as [[j g]|] eqn:E1.
  - apply list_find_Some in E1 as (Hg & [E _] & _). by rewrite (Huniq j g Hg E).
  - destruct (list_find (λ g, fd_Name g = fd_Name f ∧ fd_promoted g = true) fields) as [[j g]|] eqn:E2.
    + apply list_find_Some in E2 as (Hg & [E _] & _). cbn. by rewrite (Huniq j g Hg E).
    + apply list_find_None in E1, E2. rewrite Forall_lookup in E1, E2. specialize (E1 i f Hf). specialize (E2 i f Hf).
      destruct (fd_promoted f) eqn:Ep; naive_solver.
Qed.

Lemma FieldByName_Some fields key i : FieldByName fields key = Some i → ∃ f, fields !! i = Some f ∧ fd_Name f = key.
Proof.
  unfold FieldByName. destruct (list_find _ fields) as [[j g]|] eqn:E1.
  - intros [= <-]. apply list_find_Some in E1 as (Hg & [E _] & _). by exists g.
  - destruct (list_find (λ f, fd_Name f = key ∧ fd_promoted f = true) fields) as [[j g]|] eqn:E2; [|done].
    intros [= <-]. apply list_find_Some in E2 as (Hg & [E _] & _). by exists g.
Qed.

(** What an option does to a field. *)
Definition set_one (key : string) (value : any) (f : field) : field :=
  if String.eqb (fd_Name f) key then
    match convert_option text_of f value with Val v => f <| fd_Value := v |> | Err _ => f end
  else f.

Definition settable (fields : list field) (key : string) (value : any) : Prop :=
  ∃ f v, f ∈ fields ∧ fd_Name f = key ∧ IsExported f = true ∧ convert_option text_of f value = Val v.

Lemma SetOptionAny_spec fields key value c' err :
  named fields → SetOptionAny text_of (StructPtr fields) key value = (c', err) →
  match err with
  | None => settable fields key value ∧ c' = StructPtr (map (set_one key value) fields)
  | Some _ => ¬ settable fields key value ∧ c' = StructPtr fields
  end.
Proof.
  intros Hn. unfold SetOptionAny, fieldbyname.
  assert (Hno : (∀ i f, fields !! i = Some f → fd_Name f = key → IsExported f = true → ∃ err, convert_option text_of f value = Err err) → ¬ settable fields key value).
  { intros H (f & v & Hf & E & Hex & Hc). apply list_elem_of_lookup in Hf as [i Hi]. destruct (H i f Hi E Hex) as [e He]. congruence. }
  destruct (FieldByName fields key) as [i|] eqn:Ef.
  2: { intros [= <- <-]. split; [|done]. apply Hno. intros i f Hf <- _. by rewrite (FieldByName_named _ _ _ Hn Hf) in Ef. }
  destruct (FieldByName_Some _ _ _ Ef) as (f & Hf & <-). rewrite Hf.
  assert (Huniq : ∀ j g, fields !! j = Some g → fd_Name g = fd_Name f → j = i ∧ g = f).
  { intros j g Hg E. pose proof (FieldByName_named _ _ _ Hn Hg) as Ej. rewrite E, Ef in Ej. injection Ej as <-. split; [done|congruence]. }
  destruct (IsExported f) eqn:Ex.
  2: { intros [= <- <-]. split; [|done]. apply Hno. intros j g Hg E Hex. destruct (Huniq j g Hg E) as [_ ->]. congruence. }
  destruct (convert_option text_of f value) as [v|e] eqn:Ec; intros [= <- <-].
  - split; [exists f, v; split_and!; [by eapply list_elem_of_lookup_2|done..]|]. f_equal. apply list_eq. intros j. unfold set_one.
    rewrite list_lookup_fmap. destruct (decide (i = j)) as [<-|Hne].
    + rewrite list_lookup_insert_eq by (by eapply lookup_lt_Some). rewrite Hf. cbn. by rewrite String.eqb_refl, Ec.
    + rewrite list_lookup_insert_ne by done. destruct (fields !! j) as [g|] eqn:Hg; [|done]. cbn.
      destruct (String.eqb_spec (fd_Name g) (fd_Name f)) as [E|]; [|done]. by destruct (Huniq j g Hg E).
  - split; [|done]. apply Hno. intros j g Hg E Hex. destruct (Huniq j g Hg E) as [_ ->]. by exists e.
Qed.

Definition set_all (options : gmap string any) (f : field) : field :=
  match options !! fd_Name f with Some value => set_one (fd_Name f) value f | None => f end.

Lemma set_one_name key value f : fd_Name (set_one key value f) = fd_Name f.
Proof. unfold set_one. destruct (String.eqb _ _); [|done]. destruct (convert_option _ _ _); [|done]. by destruct f. Qed.

Lemma settable_after fields key key' value value' :
  key ≠ key' → settable (map (set_one key value) fields) key' value' ↔ settable fields key' value'.
Proof.
  intros Hne. assert (Hother : ∀ f, fd_Name f = key' → set_one key value f = f).
  { intros f <-. unfold set_one. by destruct (String.eqb_spec (fd_Name f) key). }
  split; intros (f & v & Hf & E & Hex & Hc).
  - apply list_elem_of_fmap in Hf as (g & -> & Hg). rewrite set_one_name in E. rewrite Hother in * by done. by exists g, v.
  - exists f, v. split_and!; [|done..]. apply list_elem_of_fmap. exists f. by rewrite Hother.
Qed.

Lemma set_options_spec l fields c' err :
  named fields → NoDup l.*1 → set_options text_of (StructPtr fields) l = (c', err) →
  (err = None ↔ Forall (λ '(key, value), settable fields key value) l) ∧
  (err = None → c' = StructPtr (map (set_all (list_to_map l)) fields)).
Proof.
  revert fields. induction l as [|[key value] l IH]; intros fields Hn Hl; cbn [set_options].
  { intros [= <- <-]. split; [done|]. intros _. f_equal. rewrite <- (map_id fields) at 1. apply map_ext. intros f. unfold set_all. cbn. by rewrite (lookup_empty (M := gmap string)). }
  apply NoDup_cons in Hl as [Hkey Hl]. destruct (SetOptionAny _ _ _ _) as [c1 err1] eqn:E1.
  apply SetOptionAny_spec in E1; [|done]. destruct err1 as [e|]; intros Hset.
  { injection Hset as <- <-. destruct E1 as [Hno _]. split; [|done]. split; [done|]. rewrite Forall_cons. by intros [? _]. }
  destruct E1 as [Hs ->]. destruct (IH _ ltac:(unfold named; rewrite map_map; erewrite map_ext; [exact Hn|apply set_one_name]) Hl Hset) as [Herr Hc].
  assert (Hrest : Forall (λ '(k, v), settable (map (set_one key value) fields) k v) l ↔ Forall (λ '(k, v), settable fields k v) l).
  { rewrite !Forall_forall. split; intros H [k v] Hin; specialize (H _ Hin); cbn in *;
      (apply (settable_after fields key k value v) in H || apply (settable_after fields key k value v); [done|]);
      intros ->; apply Hkey, list_elem_of_fmap; by exists (k, v). }
  split; [rewrite Herr, Hrest, Forall_cons; naive_solver|]. intros He. rewrite (Hc He). f_equal. rewrite map_map. apply map_ext. intros f.
  unfold set_all. rewrite set_one_name. cbn [list_to_map foldr fst snd]. destruct (String.eqb_spec (fd_Name f) key) as [->|Hne].
  - rewrite lookup_insert_eq. rewrite (not_elem_of_list_to_map_1 _ _ Hkey). done.
  - rewrite lookup_insert_ne by done. assert (E : set_one key value f = f) by (unfold set_one; by destruct (String.eqb_spec (fd_Name f) key)).
    by rewrite E.
Qed.

(** Whatever the order of a map of options: setting them succeeds exactly when every name and value is accepted, and then
    all of them are set. *)
Theorem SetOptionsAny_spec `{RangeOrder} fields options c' err (Hn : named fields) :
  SetOptionsAny text_of (StructPtr fields) options = (c', err) →
  (err = None ↔ map_Forall (settable fields) options) ∧ (err = None → c' = StructPtr (map (set_all options) fields)).
Proof.
  unfold SetOptionsAny. intros E. pose proof (range_map_perm 0 options) as Hp.
  assert (Hl : NoDup (range_map 0 options).*1) by (rewrite Hp; apply NoDup_fst_map_to_list).
  destruct (set_options_spec _ _ _ _ Hn Hl E) as [Herr Hc]. split.
  - rewrite Herr, Hp. rewrite map_Forall_to_list. apply Forall_proper; [|done]. by intros [].
  - intros He. rewrite (Hc He). rewrite (list_to_map_proper (M := gmap string) _ _ Hl Hp), list_to_map_to_list. done.
Qed.

(** *** From the measurement back to the options *)

(** The zero value of a field. *)
Definition zeroed (f : field) : field :=
  f <| fd_Value ::= λ v, match v with FBool _ => FBool false | FInt64 _ => FInt64 0 | FString _ => FString "" | v => v end |>.

(** A field that the serializer writes and an option can set. *)
Definition restorable (f : field) : Prop :=
  ContainsByte (fd_Name f) "=" = false ∧ fd_promoted f = false ∧ IsExported f = true ∧ HasPrefix (fd_Name f) "Safe" = false ∧
  match fd_Value f with
  | FBool _ | FString _ => True
  | FInt64 z => is_int64 z ∧ fd_Type f ≠ "time.Duration"
  | FScalar _ _ | FOther _ => False
  end.

Lemma string_take_app a b : string_take (String.length a) (a +:+ b) = a.
Proof. induction a as [|c a IH]; [by destruct b|]. rewrite append_cons. cbn [String.length string_take]. by rewrite IH. Qed.

Lemma splitPair_app key value : ContainsByte key "=" = false → splitPair (key +:+ "=" +:+ value) = Val (key, value).
Proof.
  intros Hk. unfold splitPair. replace (key +:+ "=" +:+ value) with (key +:+ String "=" value) by done.
  assert (E : IndexByte key "=" = None) by (unfold ContainsByte in Hk; by destruct (IndexByte key "=")).
  rewrite IndexByte_app, E. change (IndexByte (String "=" value) "=") with (Some 0%nat). cbn [fmap option_fmap option_map].
  rewrite Nat.add_0_r, string_drop_S, string_take_app. done.
Qed.

Lemma mustMakeMap_pairs {A} (value_of : string → A) l :
  Forall (λ p, ContainsByte p.1 "=" = false) l → NoDup l.*1 →
  mustMakeMap value_of (map (λ '(key, value), key +:+ "=" +:+ value) l) = Ok (list_to_map (map (prod_map id value_of) l)).
Proof.
  intros Hf Hn. unfold mustMakeMap.
  assert (H : ∀ m : gmap string A, foldl (λ output opt, output ← output; must_add value_of output opt) (Ok m)
      (map (λ '(key, value), key +:+ "=" +:+ value) l) = Ok ((list_to_map (map (prod_map id value_of) l) : gmap string A) ∪ m)).
  { revert Hf Hn. induction l as [|[key value] l IH]; intros Hf Hn m; [cbn; by rewrite (left_id_L (∅ : gmap string A) (∪))|].
    apply Forall_cons in Hf as [Hk Hf]. apply NoDup_cons in Hn as [Hkey Hn]. cbn [map foldl fst]. cbn in Hk.
    cbn [mbind outcome_bind]. unfold must_add at 2. rewrite splitPair_app by done. rewrite IH by done. f_equal. cbn.
    rewrite <- insert_union_r; [by rewrite insert_union_l|]. apply not_elem_of_list_to_map_1.
    contradict Hkey. apply list_elem_of_fmap in Hkey as ([k v] & E & Hin). apply list_elem_of_fmap in Hin as ([k' v'] & [= -> ->] & Hin).
    apply list_elem_of_fmap. cbn in E. exists (k', v'). by split. }
  rewrite H. by rewrite (right_id_L (∅ : gmap string A) (∪)).
Qed.

(** The pairs that the serializer writes. *)
Definition serialized (f : field) : option (string * string) :=
  if IsZero (fd_Value f) then None else pair (fd_Name f) <$> scalar_text f.

Lemma serializer_pairs fields :
  Forall (λ f, IsZero (fd_Value f) = false → restorable f) fields →
  DefaultOptionsSerializer (StructPtr fields) = map (λ '(key, value), key +:+ "=" +:+ value) (omap serialized fields).
Proof.
  intros Hf. unfold DefaultOptionsSerializer. induction Hf as [|f l Hf _ IH]; [done|]. cbn [omap list_omap].
  change (omap ?g l) with (list_omap _ _ g l) in IH. unfold serialized at 1.
  destruct (IsZero (fd_Value f)) eqn:Ez.
  - destruct (_ || _); [exact IH|]. destruct (scalar_text f); exact IH.
  - destruct (Hf eq_refl) as (_ & -> & -> & -> & Hv). cbn [orb negb]. unfold scalar_text.
    destruct (fd_Value f); try done; cbn [fmap option_fmap option_map]; cbn [map]; by f_equal.
Qed.

Lemma serialized_name f p : serialized f = Some p → p.1 = fd_Name f ∧ IsZero (fd_Value f) = false ∧ scalar_text f = Some p.2.
Proof.
  unfold serialized. destruct (IsZero _); [done|]. destruct (scalar_text f) as [text|]; [|done]. by intros [= <-].
Qed.

Lemma omap_serialized (fields : list field) (p : string * string) : p ∈ omap serialized fields ↔ ∃ f, f ∈ fields ∧ serialized f = Some p.
Proof. apply list_elem_of_omap. Qed.

Lemma named_inj (fields : list field) f g : named fields → f ∈ fields → g ∈ fields → fd_Name f = fd_Name g → f = g.
Proof.
  intros Hn [i Hi]%list_elem_of_lookup [j Hj]%list_elem_of_lookup E.
  pose proof (FieldByName_named _ _ _ Hn Hi) as Ei. pose proof (FieldByName_named _ _ _ Hn Hj) as Ej. rewrite E, Ej in Ei. congruence.
Qed.

Lemma serialized_NoDup fields : named fields → NoDup (omap serialized fields).*1.
Proof.
  unfold named. induction fields as [|f l IH]; [constructor|]. intros [Hf Hl]%NoDup_cons. cbn [omap list_omap].
  change (list_omap _ _ serialized l) with (omap serialized l).
  destruct (serialized f) as [p|] eqn:E; [|by apply IH]. cbn. constructor; [|by apply IH].
  destruct (serialized_name _ _ E) as [-> _]. contradict Hf. apply list_elem_of_fmap in Hf as (p' & E' & (g & Hg & Eg)%omap_serialized).
  destruct (serialized_name _ _ Eg) as [E2 _]. rewrite E', E2. by apply (list_elem_of_fmap_2 fd_Name).
Qed.

(** The options that the command line reads from the texts of the serializer. *)
Definition read_back (fields : list field) : gmap string any := list_to_map (map (prod_map id AnyString) (omap serialized fields)).

Lemma read_back_lookup fields key value :
  named fields → read_back fields !! key = Some value ↔ ∃ f text, f ∈ fields ∧ serialized f = Some (key, text) ∧ value = AnyString text.
Proof.
  intros Hn. unfold read_back. rewrite <- elem_of_list_to_map.
  - split.
    + intros ([k text] & [= -> ->] & (f & Hf & E)%omap_serialized)%list_elem_of_fmap. by exists f, text.
    + intros (f & text & Hf & E & ->). apply list_elem_of_fmap. exists (key, text). split; [done|]. apply omap_serialized. eauto.
  - replace (map _ _).*1 with (omap serialized fields).*1; [by apply serialized_NoDup|]. clear.
    induction (omap serialized fields) as [|[] l IH]; [done|]. cbn. by f_equal.
Qed.

(** A text is converted to the value that it was made from. *)
Lemma convert_text f text :
  restorable f → scalar_text f = Some text → convert_option text_of (zeroed f) (AnyString text) = Val (fd_Value f).
Proof.
  intros (_ & _ & _ & _ & Hv) E. unfold convert_option. destruct f as [name type doc promoted v]. unfold scalar_text in E. cbn in *.
  destruct v as [b|z|s| |]; try done; injection E as <-; cbn.
  - by destruct b.
  - destruct Hv as [Hz Ht]. destruct (String.eqb_spec type "time.Duration"); [done|]. cbn. by rewrite ParseInt64_Itoa.
  - done.
Qed.

Lemma zeroed_zero f : IsZero (fd_Value f) = true → zeroed f = f.
Proof.
  destruct f as [name type doc promoted [b|z|s| |]]; cbn; intros E; unfold zeroed; cbn; try done.
  - by destruct b.
  - by apply Z.eqb_eq in E as ->.
  - by apply String.eqb_eq in E as ->.
Qed.

Lemma zeroed_fields f : fd_Name (zeroed f) = fd_Name f ∧ IsExported (zeroed f) = IsExported f.
Proof. by destruct f. Qed.

(** The texts that [DefaultOptionsSerializer] writes into a measurement are options of the command line that, set on the zero
    configuration, make the same configuration again. *)
Theorem options_roundtrip `{RangeOrder} fields (Hn : named fields) (Hf : Forall (λ f, IsZero (fd_Value f) = false → restorable f) fields) :
  ∃ options, mustMakeMapStringAny (DefaultOptionsSerializer (StructPtr fields)) = Ok options ∧
    SetOptionsAny text_of (StructPtr (map zeroed fields)) options = (StructPtr fields, None).
Proof.
  rewrite Forall_forall in Hf.
  assert (Hser : ∀ f p, f ∈ fields → serialized f = Some p → restorable f ∧ p.1 = fd_Name f ∧ scalar_text f = Some p.2).
  { intros f p Hin E. destruct (serialized_name _ _ E) as (-> & Hz & Ht). split_and!; [by apply Hf|done|done]. }
  exists (read_back fields). split.
  - rewrite serializer_pairs by by apply Forall_forall. apply (mustMakeMap_pairs AnyString); [|by apply serialized_NoDup].
    apply Forall_forall. intros p (f & Hin & E)%omap_serialized. by destruct (Hser f p Hin E) as ((Hc & _) & -> & _).
  - destruct (SetOptionsAny _ _ _) as [c' err] eqn:Es. apply SetOptionsAny_spec in Es.
    2: { unfold named. rewrite map_map. erewrite map_ext; [exact Hn|]. intros f. apply zeroed_fields. }
    destruct Es as [Herr Hc]. assert (err = None) as ->.
    { apply Herr. intros key value (f & text & Hin & E & ->)%read_back_lookup; [|done].
      destruct (Hser f _ Hin E) as (Hr & Ek & Ht). cbn in Ek. subst key. exists (zeroed f), (fd_Value f).
      destruct (zeroed_fields f) as [-> ->]. split_and!; [by apply (list_elem_of_fmap_2 zeroed)|done|by apply Hr|by apply convert_text]. }
    rewrite (Hc eq_refl). do 2 f_equal. rewrite map_map. rewrite <- (map_id fields) at 2. apply map_ext_in. intros f Hin%list_elem_of_In.
    unfold set_all. destruct (zeroed_fields f) as [-> _]. destruct (read_back fields !! fd_Name f) as [value|] eqn:El.
    + apply read_back_lookup in El as (g & text & Hg & E & ->); [|done]. destruct (Hser g _ Hg E) as (Hr & Eg & Ht). cbn in Eg.
      assert (g = f) as -> by by eapply named_inj. unfold set_one. destruct (zeroed_fields f) as [-> _].
      rewrite String.eqb_refl, (convert_text _ text Hr Ht). by destruct f.
    + destruct (IsZero (fd_Value f)) eqn:Ez; [by apply zeroed_zero|].
      destruct (Hf f Hin Ez) as (_ & _ & _ & _ & Hv). exfalso. unfold read_back in El.
      assert (Hs : ∃ text, serialized f = Some (fd_Name f, text)).
      { unfold serialized. rewrite Ez. unfold scalar_text. destruct (fd_Value f); try done; by eexists. }
      destruct Hs as [text Hs].
      assert (El' : read_back fields !! fd_Name f = Some (AnyString text)) by (apply read_back_lookup; eauto). unfold read_back in El'. congruence.
Qed.
End options.

(** ** The factory of an experiment *)

Section factory.
Context {Store bytes Net : Type} `{KeyValueStore Store bytes} `{JSON bytes checkInFlagsWrapper} (time_zero_Time : Time).
Context (Getenv : string → string).
Implicit Types w : world Store Net.

(** The flag of the cache of the check-in at a time: without a cache, and once it has expired, it is off. *)
Definition cached_flag (store : Store) (name : string) (now : Time) : bool :=
  match kv_Get store CheckInFlagsState with
  | Err _ => false
  | Val data =>
      match json_Unmarshal data with
      | Err _ => false
      | Val wrapper =>
          let wrapper := default (mkFlags time_zero_Time None) wrapper in
          (now <=? cf_Expire wrapper) && default false (default ∅ (cf_Flags wrapper) !! name)
      end
  end.

Lemma GetFeatureFlag_cached name w :
  ends (GetFeatureFlag time_zero_Time name) w (λ b w',
    w_store w' = w_store w ∧ w_now w' = w_now w ∧ ∃ n, b = cached_flag (w_store w) name (w_now w n)).
Proof.
  unfold GetFeatureFlag, cached_flag, ends. destruct (kv_Get _ _) as [data|]; [|by exists false, w; repeat (split; [done|]); exists O].
  destruct (json_Unmarshal data) as [wrapper|]; [|by exists false, w; repeat (split; [done|]); exists O]. unfold io_Now, mbind, io_bind. cbn.
  set (wr := default (mkFlags time_zero_Time None) wrapper).
  assert (E : ∀ b, (if cf_Expire wr <? w_now w (w_readings w) then mret false else mret b : io Store Net bool) (w <| w_readings ::= S |>) =
    Ok ((w_now w (w_readings w) <=? cf_Expire wr) && b, w <| w_readings ::= S |>)).
  { intros b. destruct (Z.ltb_spec (cf_Expire wr) (w_now w (w_readings w))), (Z.leb_spec (w_now w (w_readings w)) (cf_Expire wr)); done || lia. }
  rewrite E. eexists _, _. split; [done|]. split; [by destruct w|]. split; [by destruct w|]. by exists (w_readings w).
Qed.

(** [NewFactory] takes the canonical name, replaces Web Connectivity by LTE when the check-in says so, and returns the factory
    under that name only if it is enabled by default, is forced by the environment, or has a flag that has not expired. *)
Theorem NewFactory_spec name w :
  ends (NewFactory time_zero_Time Getenv name) w (λ res w', w_store w' = w_store w ∧ ∃ n n',
    let on flag n := cached_flag (w_store w) flag (w_now w n) in
    let chosen :=
      if String.eqb (Canonicalize name) "web_connectivity" && on "webconnectivity_0.5" n then "web_connectivity@v0.5" else Canonicalize name in
    match AllExperiments !! chosen with
    | None => res = Err (ErrAround ("no such experiment: " +:+ chosen) ErrNoSuchExperiment)
    | Some factory =>
        fac_canonicalName factory = chosen ∧
        res = if fac_enabledByDefault factory || String.eqb (Getenv OONI_FORCE_ENABLE_EXPERIMENT) "1" || on (ExperimentEnabledKey chosen) n'
              then Val factory
              else Err (ErrAround (chosen +:+ ": experiment not enabled by check-in API") ErrRequiresForceEnable)
    end).
Proof.
  unfold NewFactory. set (canonical := Canonicalize name).
  eapply (ends_bind _ _ _ (λ b w', w_store w' = w_store w ∧ w_now w' = w_now w ∧
    ∃ n, b = String.eqb canonical "web_connectivity" && cached_flag (w_store w) "webconnectivity_0.5" (w_now w n))).
  { destruct (String.eqb canonical "web_connectivity"); [apply GetFeatureFlag_cached|]. apply ends_ret. split_and!; [done..|by exists O]. }
  intros use_lte w' (Es & En & n & E). cbv zeta. set (chosen := if use_lte then _ else _).
  assert (Hc : (if String.eqb canonical "web_connectivity" && cached_flag (w_store w) "webconnectivity_0.5" (w_now w n)
    then "web_connectivity@v0.5" else canonical) = chosen) by by rewrite <- E.
  destruct (AllExperiments !! chosen) as [factory|] eqn:Ef.
  2: { apply ends_ret. split; [done|]. exists n, n. rewrite Hc, Ef. done. }
  destruct (registered _ _ Ef) as [Hname _].
  destruct (fac_enabledByDefault factory) eqn:Ed; [apply ends_ret; split; [done|]; exists n, n; by rewrite Hc, Ef, Ed|].
  destruct (String.eqb (Getenv _) "1") eqn:Eg; [apply ends_ret; split; [done|]; exists n, n; by rewrite Hc, Ef, Ed|].
  eapply ends_bind; [apply GetFeatureFlag_cached|]. intros enabled w2 (Es2 & En2 & n' & ->). rewrite Es, En.
  destruct (cached_flag _ _ (w_now w n')) eqn:Ec; apply ends_ret; (split; [congruence|]); exists n, n'; rewrite Hc, Ef, Ed, Ec; done.
Qed.
End factory.

(** *** Examples *)

Example canonical_names :
  map Canonicalize ["WebConnectivity"; "web_connectivity@v0.5"; "Ndt7"; "DNSCheck"; "stun_reachability"; "HTTPHeaderFieldManipulation"] =
  ["web_connectivity"; "web_connectivity@v0.5"; "ndt"; "dnscheck"; "stunreachability"; "http_header_field_manipulation"].
Proof. vm_compute. reflexivity. Qed.

Example Duration_texts : map Duration_String [0; -1500; 1500000000; 3661500000000] = ["0s"; "-1.5" +:+ String (ascii_of_N 194) (String (ascii_of_N 181) "s"); "1.5s"; "1h1m1.5s"].
Proof. vm_compute. reflexivity. Qed.

(** The fingerprint of [tlsmiddlebox] is announced as an option, and cannot be set: its type is [int]. *)
Lemma tlsmiddlebox_ClientId text_of value :
  (∃ info, match Options (StructPtr tlsmiddlebox_Config) with Val infos => infos !! "ClientId" = Some info | Err _ => False end) ∧
  SetOptionAny text_of (StructPtr tlsmiddlebox_Config) "ClientId" value =
    (StructPtr tlsmiddlebox_Config, Some (wrapped ErrUnsupportedOptionType (text_of value))).
Proof. split; [eexists; vm_compute; reflexivity|reflexivity]. Qed.

Definition dnscheck_over_http3 : list field :=
  map (λ f, if String.eqb (fd_Name f) "HTTP3Enabled" then f <| fd_Value := FBool true |>
            else if String.eqb (fd_Name f) "DefaultAddrs" then f <| fd_Value := FString "8.8.8.8 k=v" |> else f) dnscheck_Config.

Lemma options_roundtrip_witness (text_of := λ _, "") (o := range_ascending) :
  ∃ options, mustMakeMapStringAny ["DefaultAddrs=8.8.8.8 k=v"; "HTTP3Enabled=true"] = Ok options ∧
    SetOptionsAny text_of (StructPtr dnscheck_Config) options = (StructPtr dnscheck_over_http3, None).
Proof.
  apply (@options_roundtrip text_of o dnscheck_over_http3).
  - apply (bool_decide_unpack _). vm_compute. exact I.
  - repeat constructor; cbn; (discriminate || (intros _; split_and!; done)).
Defined.
